(* ===== verification/_CoqProject ===== *)
-Q . S2P
Prelude.v
GoBase.v
GoFmt.v
GoFloat.v
GoRound.v
GoRand.v
LearnedRules.v
Genome.v
Task.v
Momentum.v
LiquidityProvision.v
LiquidationHunting.v
CrossChainYield.v
Crossover.v
Evolution.v
Treasury.v
Economics.v
Budget.v
LifecyclePolicy.v
CircuitBreaker.v
Hibernation.v
Lifecycle.v
NodeRunner.v
Swarm.v
SwarmSync.v
Bandit.v
Throttle.v
TxValidator.v
KnowledgeGraph.v
AccuracyTracker.v
FakeRedis.v
IntelBus.v
Aggregator.v
Diversity.v
JsonExtract.v
Json.v
JsonCodec.v
Review.v
Strategist.v
Llm.v
RootOrchestrator.v
PriceCache.v
MockChain.v
Backtest.v
ApiTypes.v
MemoryStore.v
Api.v
Websocket.v
Registry.v
Security.v
Database.v
EpochStore.v
DbIntegrity.v
DbRuntime.v
PostgresStore.v
Notifier.v
Wallets.v
LendingAccounts.v
Strconv.v
Encodings.v
Feeds.v
Amounts.v
ChainClients.v
TaskFactories.v
TaskLives.v
ChainTasks.v
Config.v
Commands.v
FakeChain.v
AgentRuns.v
EpochCron.v
DevnetFund.v
RedisClient.v
SeedNodes.v
Services.v
