(* ===== verification/Prelude.v ===== *)
(** * Cambrian: a verification library for the agent swarm

    Cambrian runs a swarm of trading agents that reproduce, mutate and die by
    their results.  An agent is a genome in a row of Postgres; a process,
    [cmd/swarm], runs a node for every active row, trades through chain clients,
    asks language models for advice and, once per epoch, lets a root orchestrator
    kill, pause and breed.  This library models that program in Rocq and proves
    what makes its parts, and their composition, correct, or shows where they are
    not.

    ** Conventions

    - Definitions are executable and follow the code branch by branch, in its
      order; they keep its names, with the file's name in front where two files
      use the same one.  The [Example]s run them on small inputs.
    - An [error] is its format string with the [%w] chain ([gerror]); a fallible
      function gives a [result]; [let? x := c in k] is the idiom
      [if err != nil { return err }].  [None] stands for a panic where the comment
      of a definition says so.
    - [int], [int64], [uint64] and [time.Duration] are [Z], wrapped where the code
      can leave the range; [float64] is the kernel's binary64, so that NaN, the
      infinities and rounding behave as on the machine; a string is its bytes.
    - State is passed explicitly.  A section under a lock is one function; where
      a lock is released half way, or goroutines meet, the steps are an inductive
      relation or an executable step function over any interleaving.
    - What is not in the repository is an interface: a type class of operations,
      with a class of laws where the code relies on documented behaviour (for
      example [Postgres] and [PostgresLaws], [AEAD] and [AEADLaws]).  The laws
      hold of concrete instances given in the files, and a main theorem with
      hypotheses has a closed instance named after it, [_witness].  The
      order in which Go visits a map, random draws, clocks and [sort.Slice] are
      arguments.

    ** The files

    Foundations: [Prelude] (errors, results, tactics, hints, lists, sorting, any
    store of rows); [GoBase] (integers, durations, the calendar, strings); [GoFmt];
    [GoFloat] and [GoRound] (order, exact values and correct rounding of floats);
    [GoRand]; [Strconv], [Encodings], [Json], [JsonCodec], [JsonExtract] (number
    and JSON grammars, decoders of structs, writers, the object in a model's
    prose); [Amounts] (token amounts, [math/big]).

    The agent, [internal/agent]: [Genome] (modules, validation, model rates),
    [LearnedRules], [Bandit] (Thompson sampling), [Strategist] (the slow loop: the
    input for the model, its answer, the changes to the task, the stored decision).
    Its strategies, [internal/agent/tasks]: [Task] (the contract, as a class with
    its laws), [Momentum], [LiquidityProvision], [LiquidationHunting],
    [CrossChainYield], [Registry], [TaskFactories] (row to strategy), [TaskLives]
    (a built task through ticks, strategist cycles and closes).

    The swarm, [internal/runtime]: [CircuitBreaker], [Hibernation], [Lifecycle]
    (database first, event second), [NodeRunner] (the scheduler, and the three
    goroutines of a node, step by step in any interleaving), [Swarm] (the map of
    runners, the dispatch of events, and the runtime's loop with its waits for
    cancelled runners), [SwarmSync] (manager and swarm together, asynchronously).

    Evolution, [internal/orchestrator]: [LifecyclePolicy], [Crossover],
    [Evolution], [Diversity], [Treasury], [Economics], [Budget], [Review] (quality
    check, adversarial review, postmortem), [RootOrchestrator] (one epoch over any
    collaborators), [EpochStore].

    Intelligence, [internal/intelligence]: [KnowledgeGraph], [AccuracyTracker],
    [IntelBus], [Aggregator]; models, [internal/llm]: [Llm].

    Chains, [internal/chain] and [internal/security]: [PriceCache] (concurrent
    readers), [Wallets], [Security] (keys at rest, redaction of logs),
    [TxValidator], [Feeds] (HTTP requests and responses of the price, lending and
    yield services), [LendingAccounts] (account layouts), [ChainClients] (modules
    [Solana] and [Base], every call logged), [FakeChain], [ChainTasks] (strategies
    over the real clients).  [MockChain] and [Backtest] are
    [internal/backtesting].

    Storage, [internal/db] and [internal/redis]: [Database] (tables, constraints,
    statements), [DbIntegrity] (what any sequence of the program's writes keeps),
    [DbRuntime] (the runtime's interface, discharged by the statements),
    [FakeRedis], [RedisClient].

    The outside, [internal/api] and [internal/notifications]: [ApiTypes],
    [MemoryStore], [PostgresStore], [Api], [Websocket]; [Throttle], [Notifier].

    The commands: [Config], [Commands] (the boot of [cmd/swarm] to its chain
    clients; [cmd/init-treasury]; the seeds), [Services] (the rest of the boot),
    [EpochCron], [SeedNodes], [DevnetFund], [AgentRuns] (which agents run).

    ** How the parts meet

    [Commands.boot] loads the configuration and builds the clients;
    [Services.subsystems] builds the swarm, the price collector, the notifier, the
    API and the orchestrator from it.  The swarm's runtime is proved against the
    table and store interfaces of [Lifecycle] and [SwarmSync], which [DbRuntime]
    discharges with the statements of [Database].  A node ([NodeRunner]) ticks a
    task of [Task] and a [Strategist]; both reach chains and models through
    interfaces that [ChainClients], [FakeChain], [MockChain] and [Llm] implement.
    [RootOrchestrator] is an epoch over any world; [EpochStore] and [EpochCron] give
    it the database, [Review] the models.  [IntelBus], [Notifier] and [Websocket]
    hear what is published on [FakeRedis] or through [RedisClient].

    ** What the theorems show

    - Epochs: what an epoch calls, in which order and with what result, on every
      branch ([RunEpoch_spec]); a proposal is approved only through its gates
      ([processOffspring_spec]); the policy's decision per agent
      ([policy_decides]); the cron numbers its epochs past all others
      ([cron_numbers_epochs]); mutation and crossover keep genomes within their
      policy and valid.
    - Runners: the table of runners is the table of active agents once the events
      are handled ([runners_follow_table], over Postgres
      [runners_follow_postgres]); at most one uncancelled runner per agent, and none
      running beside it but for a wait that timed out ([swarm_single_runner]); of a
      halted, paused or hibernating node only what had passed the guard goes on,
      besides the heartbeat ([gated_node_only_beats]).
    - Money: no call of a chain client submits more than one transaction, none in
      a dry run, and each is signed by the wallet it was given
      ([solana_submissions], [base_submissions]); the strategies' trades account
      for their capital ([yield_ledger], [momentum_ledger], [lp_ledger]), within
      their quotas ([hunting_daily_cap]); transactions are admitted exactly by the
      rules ([admission_spec]); amounts are converted within a bound
      ([atoms_close]); a sealed wallet opens to its own key only
      ([unseal_base_spec]).
    - Models: no answer, however malformed, takes a task out of its validated
      config or off its chain and pair ([built_task_stays_valid]); what a cycle
      stores ([cycle_spec]); the object found in prose is the grammar's
      ([extractJSONObject_spec]).
    - Data: no write loses or rewrites a record, or leaves the schema
      ([writes_keep_records]); no seed is spawned twice ([seeds_spawned_once]);
      ledgers, requests, accounts and queries read back as written; the graph is a
      map with decay ([graph_refines_map]); accuracy scores are those of the window
      ([Score_is_window]); a backtest reports what its ticks traded
      ([Backtest.Run_spec]); the notifier, the budget and the breaker fire when and
      as often as they should.
    - Connections: what a subscription delivers and in which order
      ([subscription_relays], [bus_end_to_end], [connected_loses_nothing]); secret
      fields never reach a log ([secrets_never_logged]).
    - The program as it is wired: with the configurations it accepts the swarm
      does not come up ([swarm_never_boots]); past that point nothing would refuse
      ([subsystems_come_up]); but no agent would run ([unwired_swarm_idle],
      [seeded_agents_never_run]), and those that did would be killed at the first
      epoch ([every_agent_killed]).

    ** Fuel

    Recursion that is not structural takes fuel, and a lemma or the definition
    says why it is enough: the JSON reader twice the text's length (every value
    and separator consumes a byte), the durations of [time.ParseDuration] and the
    literals of strings their length, the replayed chain's binary search the number
    of rows, a backtest one round per interval of its period ([replay_fuel]), the
    wait for an airdrop 32 rounds ([wait_fuel]: sixty seconds in steps of two),
    the aggregator's cut the number of items.  Only the rejection sampler of the
    bandit has no bound: it returns for any fuel up to which a draw is accepted
    ([gamma_loop_returns]).

    ** Not modelled

    The entry points [main], signals and the fields of log lines; the rollback of
    the migrations; the test helpers; the text a model is prompted with beyond what
    a decision depends on; the drivers, routers, codecs and cryptography the
    program calls, which are the interfaces above.  Contexts are cancelled between
    steps, not inside a call.  Messages of errors are kept as formats, without
    their arguments. *)
From Stdlib Require Import ZArith Lia.
From stdpp Require Import base list strings gmap sorting.
From Stdlib Require Import Permutation.

(** ** Errors and results

    A Go [error] is its format string, wrapped by the callers' [%w]; the
    values a message interpolates are not kept. *)

Inductive gerror :=
  | EMsg (fmt : string)
  | EWrap (fmt : string) (e : gerror).

Inductive result (A : Type) :=
  | Ok (a : A)
  | Fail (e : gerror).
Arguments Ok {A} a.
Arguments Fail {A} e.

#[export] Instance gerror_eq_dec : EqDecision gerror.
Proof. solve_decision. Defined.

#[export] Instance result_eq_dec {A} `{EqDecision A} : EqDecision (result A).
Proof. solve_decision. Defined.

Definition is_ok {A} (r : result A) : bool :=
  match r with Ok _ => true | Fail _ => false end.

(** [errors.Is]. *)
Fixpoint errors_Is (err target : gerror) : bool :=
  bool_decide (err = target) ||
  match err with EWrap _ e => errors_Is e target | EMsg _ => false end.

Declare Scope go_scope.
Delimit Scope go_scope with go.

(** [let? x := c in k]: the [if err != nil { return err }] idiom. *)
Notation "'let?' x := c 'in' k" :=
  (match c with Ok x => k | Fail err => Fail err end)
  (at level 10, x name, c at level 100, k at level 200) : go_scope.

(** [let? x := c 'wrap' w in k]: the same with [fmt.Errorf("...: %w", err)]. *)
Notation "'let?' x := c 'wrap' w 'in' k" :=
  (match c with Ok x => k | Fail err => Fail (EWrap w err) end)
  (at level 10, x name, c at level 100, w at level 9, k at level 200) : go_scope.

(** ** Tactics *)

(** Case analysis on the scrutinee of a [match] in the goal. *)
Ltac dmatch :=
  match goal with
  | |- context [match ?x with _ => _ end] =>
      lazymatch x with
      | context [match _ with _ => _ end] => fail
      | _ => let H := fresh "Hm" in destruct x eqn:H
      end
  end.

(** Case analysis on the scrutinee of a [match] in a hypothesis. *)
Ltac dmatch_in H :=
  match type of H with
  | context [match ?x with _ => _ end] =>
      lazymatch x with
      | context [match _ with _ => _ end] => fail
      | _ => let E := fresh "Hm" in destruct x eqn:E
      end
  end.

Ltac dmatches := repeat (dmatch; simplify_eq/=).
Ltac dmatches_in H := repeat (dmatch_in H; simplify_eq/=).

Create HintDb go discriminated.

(** ** Lists *)

Lemma Forall_app_single {A} (P : A -> Prop) l x :
  Forall P l -> P x -> Forall P (l ++ [x]).
Proof. intros Hl Hx. apply Forall_app. by split; [|constructor]. Qed.

Lemma Forall_filter_stdpp {A} (P : A -> Prop) (Q : A -> Prop) `{forall x, Decision (Q x)} l :
  Forall P l -> Forall P (filter Q l).
Proof.
  rewrite !Forall_forall. intros HP x Hx.
  apply list_elem_of_filter in Hx as [_ Hx]. auto.
Qed.

#[export] Instance filter_perm {A} (f : A -> bool) :
  Proper (Permutation ==> Permutation) (List.filter f).
Proof.
  intros l1 l2 Hp. induction Hp as [|x l1 l2 _ IH|x y l|l1 l2 l3 _ IH1 _ IH2]; cbn.
  - done.
  - destruct (f x); [by constructor|done].
  - destruct (f x), (f y); try done. apply perm_swap.
  - by etransitivity.
Qed.

(** Boolean membership, as the loops [for _, y := range l { if y == x }] test it. *)
Definition mem {A} `{EqDecision A} (x : A) (l : list A) : bool :=
  existsb (fun y => bool_decide (x = y)) l.

Lemma mem_spec {A} `{EqDecision A} (x : A) l : mem x l = true <-> x ∈ l.
Proof.
  unfold mem. rewrite existsb_exists. split.
  - intros (y & Hy & Hd). apply bool_decide_eq_true in Hd as ->.
    by apply list_elem_of_In.
  - intros Hx. exists x. split; [by apply list_elem_of_In|].
    by apply bool_decide_eq_true.
Qed.

(** The slice without the first occurrence of [x]: the loop
    [for i, v := range l { if v == x { l = append(l[:i], l[i+1:]...); break } }]. *)
Fixpoint remove_first {A} `{EqDecision A} (x : A) (l : list A) : list A :=
  match l with
  | [] => []
  | v :: l' => if decide (v = x) then l' else v :: remove_first x l'
  end.

Lemma elem_remove_first {A} `{EqDecision A} (x : A) l y :
  NoDup l -> (y ∈ remove_first x l <-> y ∈ l /\ y <> x).
Proof.
  induction l as [|v l IH]; cbn; intros Hn.
  { split; [by intros ?%not_elem_of_nil|by intros [?%not_elem_of_nil ?]]. }
  apply NoDup_cons in Hn as [Hv Hn]. destruct (decide (v = x)) as [->|Hne].
  - rewrite elem_of_cons. split; [|tauto]. intros Hin. split; [by right|]. by intros ->.
  - rewrite !elem_of_cons, IH by done. split; [intros [->|?]; tauto|tauto].
Qed.

Lemma NoDup_remove_first {A} `{EqDecision A} (x : A) l : NoDup l -> NoDup (remove_first x l).
Proof.
  induction l as [|v l IH]; cbn; intros Hn; [done|].
  apply NoDup_cons in Hn as [Hv Hn]. destruct (decide (v = x)) as [->|Hne]; [done|].
  constructor; [|by apply IH]. rewrite elem_remove_first by done. tauto.
Qed.

(** How often [x] occurs in [l]. *)
Definition occurs {A} `{EqDecision A} (x : A) (l : list A) : nat :=
  length (List.filter (fun y => bool_decide (y = x)) l).

Lemma occurs_cons {A} `{EqDecision A} (x y : A) l :
  occurs x (y :: l) = ((if bool_decide (y = x) then 1 else 0) + occurs x l)%nat.
Proof. unfold occurs. cbn. by destruct (bool_decide (y = x)). Qed.

Lemma occurs_app {A} `{EqDecision A} (x : A) l1 l2 :
  occurs x (l1 ++ l2) = (occurs x l1 + occurs x l2)%nat.
Proof. unfold occurs. by rewrite List.filter_app, length_app. Qed.

Lemma occurs_remove_first {A} `{EqDecision A} (x y : A) l :
  occurs y (remove_first x l) =
    (if bool_decide (x = y) then occurs y l - 1 else occurs y l)%nat.
Proof.
  induction l as [|v l IH]; [by destruct (bool_decide _)|]. cbn [remove_first].
  destruct (decide (v = x)) as [->|Hne].
  - rewrite occurs_cons. destruct (bool_decide (x = y)); cbn; lia.
  - rewrite !occurs_cons, IH. destruct (bool_decide_reflect (v = y)) as [->|]; cbn; [|done].
    by rewrite bool_decide_eq_false_2.
Qed.

Lemma occurs_elem {A} `{EqDecision A} (x : A) l : x ∈ l <-> (0 < occurs x l)%nat.
Proof.
  induction l as [|y l IH]; [rewrite elem_of_nil; unfold occurs; cbn; lia|].
  rewrite elem_of_cons, occurs_cons, IH. destruct (bool_decide_reflect (y = x)) as [->|Hne].
  - split; [lia|by left].
  - split; [intros [->|?]; [done|lia]|right; lia].
Qed.

(** ** Go's [sort.Slice]

    [sort.Slice] is not stable: it promises a permutation of the slice in
    which no later element is less than an earlier one, when [less] is a
    strict weak order of the elements.  Code that uses it is modelled over
    this interface. *)

Class SliceSort := {
  sort_slice : forall {A : Type}, (A -> A -> bool) -> list A -> list A;
}.

(** [less] is a strict weak order of the elements that satisfy [P]. *)
Record strict_weak {A} (P : A -> Prop) (less : A -> A -> bool) : Prop := {
  sw_irrefl : forall x, P x -> less x x = false;
  sw_trans : forall x y z, P x -> P y -> P z ->
    less x y = true -> less y z = true -> less x z = true;
  sw_nless_trans : forall x y z, P x -> P y -> P z ->
    less y x = false -> less z y = false -> less z x = false;
}.

(** [sorted_by less l]: no later element is less than an earlier one. *)
Definition sorted_by {A} (less : A -> A -> bool) (l : list A) : Prop :=
  StronglySorted (fun x y => less y x = false) l.

Class SliceSortLaws (S : SliceSort) := {
  sort_slice_perm : forall {A} (less : A -> A -> bool) l,
    Permutation (sort_slice less l) l;
  sort_slice_sorted : forall {A} (P : A -> Prop) (less : A -> A -> bool) l,
    strict_weak P less -> Forall P l -> sorted_by less (sort_slice less l);
}.

(** Stable insertion sort: what the runtime runs on slices of up to twelve
    elements, the result of [sort.SliceStable], and the instance that makes
    every definition over the interface executable. *)
Fixpoint insert_by {A} (less : A -> A -> bool) (x : A) (l : list A) : list A :=
  match l with
  | [] => [x]
  | y :: l' => if less y x then y :: insert_by less x l' else x :: y :: l'
  end.

Fixpoint insertion_sort {A} (less : A -> A -> bool) (l : list A) : list A :=
  match l with
  | [] => []
  | x :: l' => insert_by less x (insertion_sort less l')
  end.

Lemma insert_by_perm {A} (less : A -> A -> bool) x l :
  Permutation (insert_by less x l) (x :: l).
Proof.
  induction l as [|y l IH]; cbn; [done|].
  destruct (less y x); [|done]. rewrite IH. apply perm_swap.
Qed.

Lemma insertion_sort_perm {A} (less : A -> A -> bool) l :
  Permutation (insertion_sort less l) l.
Proof.
  induction l as [|x l IH]; cbn; [done|].
  rewrite insert_by_perm. by constructor.
Qed.

Lemma sw_asym {A} (P : A -> Prop) (less : A -> A -> bool) x y :
  strict_weak P less -> P x -> P y -> less x y = true -> less y x = false.
Proof.
  intros Hsw Hx Hy Hxy. destruct (less y x) eqn:E; [|done].
  pose proof (sw_trans _ _ Hsw x y x Hx Hy Hx Hxy E) as H.
  by rewrite (sw_irrefl _ _ Hsw) in H.
Qed.

Lemma insert_by_sorted {A} (P : A -> Prop) (less : A -> A -> bool) x l :
  strict_weak P less -> P x -> Forall P l ->
  sorted_by less l -> sorted_by less (insert_by less x l).
Proof.
  intros Hsw Hx. unfold sorted_by. induction l as [|y l IH]; cbn; intros HP Hs.
  { repeat constructor. }
  apply StronglySorted_inv in Hs as [Hs Hall]. apply Forall_cons in HP as [Hy HP].
  destruct (less y x) eqn:E.
  - constructor; [by apply IH|].
    rewrite insert_by_perm. constructor; [by eapply sw_asym|done].
  - constructor; [by constructor|]. constructor; [done|].
    rewrite Forall_forall in *. intros z Hz.
    eapply (sw_nless_trans _ _ Hsw x y z); auto.
Qed.

Lemma insertion_sort_sorted {A} (P : A -> Prop) (less : A -> A -> bool) l :
  strict_weak P less -> Forall P l -> sorted_by less (insertion_sort less l).
Proof.
  intros Hsw. induction l as [|x l IH]; cbn; intros HP; [constructor|].
  apply Forall_cons in HP as [Hx HP].
  apply (insert_by_sorted P); auto. by rewrite insertion_sort_perm.
Qed.

(** Elements that do not compare keep their order. *)
Lemma insertion_sort_stable {A} (less : A -> A -> bool) (p : A -> bool) l :
  (forall a b, p a = true -> p b = true -> less a b = false) ->
  List.filter p (insertion_sort less l) = List.filter p l.
Proof.
  intros Hp. induction l as [|x l IH]; cbn; [done|]. rewrite <- IH.
  generalize (insertion_sort less l) as m. intros m. induction m as [|y m IHm]; cbn; [done|].
  destruct (less y x) eqn:E; [|done]. cbn. rewrite IHm.
  destruct (p x) eqn:Ex, (p y) eqn:Ey; try done. by rewrite (Hp y x) in E.
Qed.

Definition insertion_slice_sort : SliceSort := {| sort_slice := @insertion_sort |}.

Lemma insertion_slice_sort_laws : SliceSortLaws insertion_slice_sort.
Proof.
  split; cbn; [apply @insertion_sort_perm | apply @insertion_sort_sorted].
Qed.

(** Sorting by an integer measure, descending. *)
Lemma strict_weak_desc {A} (P : A -> Prop) (less : A -> A -> bool) (f : A -> Z) :
  (forall x y, P x -> P y -> less x y = (f y <? f x)%Z) -> strict_weak P less.
Proof.
  intros H. split.
  - intros x Hx. rewrite H by done. lia.
  - intros x y z Hx Hy Hz. rewrite !H by done. lia.
  - intros x y z Hx Hy Hz. rewrite !H by done. lia.
Qed.

Lemma strict_weak_asc {A} (P : A -> Prop) (less : A -> A -> bool) (f : A -> Z) :
  (forall x y, P x -> P y -> less x y = (f x <? f y)%Z) -> strict_weak P less.
Proof.
  intros H. apply (strict_weak_desc _ _ (fun x => - f x)%Z). intros x y Hx Hy. rewrite H by done. lia.
Qed.

Lemma strict_weak_ext {A} (P : A -> Prop) (less less' : A -> A -> bool) :
  (forall x y, P x -> P y -> less x y = less' x y) -> strict_weak P less' -> strict_weak P less.
Proof.
  intros H [H1 H2 H3]. split; intros; rewrite !H in * by done; eauto.
Qed.

(** By one order, then by another where the first does not decide. *)
Definition then_by {A} (less1 less2 : A -> A -> bool) (x y : A) : bool :=
  less1 x y || (negb (less1 y x) && less2 x y).

Lemma strict_weak_then {A} (P : A -> Prop) (less1 less2 : A -> A -> bool) :
  strict_weak P less1 -> strict_weak P less2 -> strict_weak P (then_by less1 less2).
Proof.
  intros H1 H2. unfold then_by.
  assert (Hall : forall x y z, P x -> P y -> P z ->
    (less1 x y = true -> less1 y x = false) /\
    (less1 x y = true -> less1 y z = true -> less1 x z = true) /\
    (less1 y x = false -> less1 z y = false -> less1 z x = false)).
  { intros x y z Hx Hy Hz. split; [by apply (sw_asym P)|].
    split; [by apply (sw_trans _ _ H1)|by apply (sw_nless_trans _ _ H1)]. }
  destruct H1 as [I1 _ _]. destruct H2 as [I2 T2 N2]. split.
  - intros x Hx. by rewrite I1, I2.
  - intros x y z Hx Hy Hz. pose proof (T2 x y z Hx Hy Hz).
    pose proof (Hall x y z Hx Hy Hz). pose proof (Hall y z x Hy Hz Hx).
    pose proof (Hall z x y Hz Hx Hy). pose proof (Hall z y x Hz Hy Hx).
    destruct (less1 x y), (less1 y x), (less1 y z), (less1 z y), (less1 x z), (less1 z x);
      cbn in *; intuition congruence.
  - intros x y z Hx Hy Hz. pose proof (N2 x y z Hx Hy Hz).
    pose proof (Hall x y z Hx Hy Hz). pose proof (Hall y z x Hy Hz Hx).
    pose proof (Hall z x y Hz Hx Hy). pose proof (Hall z y x Hz Hy Hx).
    pose proof (Hall y x z Hy Hx Hz). pose proof (Hall x z y Hx Hz Hy).
    destruct (less1 x y), (less1 y x), (less1 y z), (less1 z y), (less1 x z), (less1 z x);
      cbn in *; intuition congruence.
Qed.

Lemma strict_weak_on {A B} (P : A -> Prop) (Q : B -> Prop) (f : A -> B) (less : B -> B -> bool) :
  (forall x, P x -> Q (f x)) -> strict_weak Q less -> strict_weak P (fun x y => less (f x) (f y)).
Proof. intros HPQ [H1 H2 H3]. split; intros; eauto. Qed.

(** When elements that compare equal are equal there is one sorted order. *)
Lemma sorted_by_unique {A} (less : A -> A -> bool) (l1 l2 : list A) :
  (forall x y, x ∈ l1 -> y ∈ l1 -> less x y = false -> less y x = false -> x = y) ->
  sorted_by less l1 -> sorted_by less l2 -> Permutation l1 l2 -> l1 = l2.
Proof.
  revert l2. induction l1 as [|x l1 IH]; intros l2 Htot H1 H2 Hp.
  { by apply Permutation_nil in Hp. }
  destruct l2 as [|y l2]; [by apply Permutation_sym, Permutation_nil in Hp|].
  apply StronglySorted_inv in H1 as [H1 A1]. apply StronglySorted_inv in H2 as [H2 A2].
  rewrite Forall_forall in A1, A2.
  assert (x = y) as <-.
  { assert (Hx : x ∈ y :: l2) by (rewrite <- Hp; left).
    assert (Hy : y ∈ x :: l1) by (rewrite Hp; left).
    apply elem_of_cons in Hx as [->|Hx]; [done|]. apply elem_of_cons in Hy as [->|Hy]; [done|].
    apply Htot; [left|by right|by apply A2|by apply A1]. }
  f_equal. apply IH; [|done|done|by apply Permutation_cons_inv in Hp].
  intros a b Ha Hb. apply Htot; by right.
Qed.

(** The prefix of a sorted list dominates the rest. *)
Lemma sorted_by_app {A} (less : A -> A -> bool) l1 l2 x y :
  sorted_by less (l1 ++ l2) -> x ∈ l1 -> y ∈ l2 -> less y x = false.
Proof.
  intros Hs Hx Hy. induction l1 as [|z l1 IH]; [by apply not_elem_of_nil in Hx|].
  apply StronglySorted_inv in Hs as [Hs Hall].
  apply elem_of_cons in Hx as [->|Hx]; [|by apply IH].
  rewrite Forall_forall in Hall. apply Hall. rewrite elem_of_app. by right.
Qed.

Lemma sorted_by_lookup {A} (less : A -> A -> bool) l i j x y :
  sorted_by less l -> (i < j)%nat -> l !! i = Some x -> l !! j = Some y -> less y x = false.
Proof.
  revert i j. induction l as [|z l IH]; intros i j Hs Hij Hx Hy; [done|].
  apply StronglySorted_inv in Hs as [Hs Hall]. destruct j as [|j]; [lia|].
  destruct i as [|i]; [|by apply (IH i j); [|lia|..]].
  injection Hx as ->. rewrite Forall_forall in Hall. apply Hall.
  eapply list_elem_of_lookup_2. exact Hy.
Qed.

(** ** Ranging over a map

    Go visits the entries of a map in an unspecified order, fresh for every
    loop.  Code whose result could depend on it takes the order as an
    argument; the order visits every entry once. *)

Definition range_order (K V : Type) `{Countable K} : Type := gmap K V -> list (K * V).

Definition range_ok {K V} `{Countable K} (range : range_order K V) : Prop :=
  forall m, Permutation (range m) (map_to_list m).

(** ** Reachability

    States reachable from [s] by steps of [step]. *)
Section Reach.
Context {S : Type} (step : S -> S -> Prop).

Inductive reach : S -> S -> Prop :=
  | reach_refl s : reach s s
  | reach_step s1 s2 s3 : reach s1 s2 -> step s2 s3 -> reach s1 s3.

Lemma reach_invariant (P : S -> Prop) :
  (forall s s', step s s' -> P s -> P s') ->
  forall s s', reach s s' -> P s -> P s'.
Proof. intros Hstep s s' Hr. induction Hr; eauto. Qed.

Lemma reach_trans s1 s2 s3 : reach s1 s2 -> reach s2 s3 -> reach s1 s3.
Proof. intros H1 H2. induction H2; eauto using reach_step. Qed.
End Reach.

#[export] Hint Constructors reach : go.
