(* ===== verification/GoBase.v ===== *)
(** * Go's integers, durations, instants, calendar and strings

    [int] and [time.Duration] are 64-bit: values are [Z], arithmetic that can
    leave the range wraps explicitly.  A [time.Time] is the number of
    nanoseconds since year 1, so that the zero [Time] is [0]; the monotonic
    clock reading a [Time] may carry is not modelled.  Strings are byte
    strings, as Go's are. *)
From Stdlib Require Import ZArith Lia Ascii.
From stdpp Require Import base list strings gmap.
From S2P Require Import Prelude.
Open Scope Z_scope.

(** ** 64-bit integers *)

Definition min_int64 : Z := -9223372036854775808.
Definition max_int64 : Z := 9223372036854775807.

Definition wrap64 (z : Z) : Z := (z + 2 ^ 63) mod 2 ^ 64 - 2 ^ 63.

Definition in_int64 (z : Z) : Prop := min_int64 <= z <= max_int64.

Lemma wrap64_id z : in_int64 z -> wrap64 z = z.
Proof.
  unfold in_int64, min_int64, max_int64, wrap64. intros H.
  rewrite Z.mod_small; lia.
Qed.

Lemma wrap64_range z : in_int64 (wrap64 z).
Proof.
  unfold in_int64, min_int64, max_int64, wrap64.
  pose proof (Z.mod_pos_bound (z + 2 ^ 63) (2 ^ 64)). lia.
Qed.

#[export] Hint Resolve wrap64_range : go.

Lemma wrap64_add a b : wrap64 (wrap64 a + b) = wrap64 (a + b).
Proof.
  unfold wrap64. f_equal.
  replace ((a + 2 ^ 63) mod 2 ^ 64 - 2 ^ 63 + b + 2 ^ 63)
    with ((a + 2 ^ 63) mod 2 ^ 64 + b) by lia.
  rewrite Zplus_mod_idemp_l. f_equal. lia.
Qed.

Lemma wrap64_wrap a : wrap64 (wrap64 a) = wrap64 a.
Proof. apply wrap64_id, wrap64_range. Qed.

(** [for] loops that count: [len(l)] as an [int]. *)
Definition len {A} (l : list A) : Z := Z.of_nat (length l).

(** ** Durations and instants *)

Abbreviation Duration := Z (only parsing).
Abbreviation Time := Z (only parsing).

Definition Millisecond : Duration := 1000000.
Definition Second : Duration := 1000000000.
Definition Minute : Duration := 60 * Second.
Definition Hour : Duration := 60 * Minute.

Definition zero_time : Time := 0.
Definition IsZero (t : Time) : bool := t =? 0.
Definition After (t u : Time) : bool := u <? t.
Definition Before (t u : Time) : bool := t <? u.

(** [t.Sub(u)] saturates at the ends of the [Duration] range. *)
Definition Sub (t u : Time) : Duration := Z.max min_int64 (Z.min max_int64 (t - u)).

(** [t.Add(d)]. *)
Definition Add (t : Time) (d : Duration) : Time := t + d.

Lemma Sub_exact t u : in_int64 (t - u) -> Sub t u = t - u.
Proof. unfold Sub, in_int64. lia. Qed.

Lemma Sub_ge t u d : in_int64 d -> (d <= Sub t u <-> (d <= t - u \/ d = min_int64)).
Proof. unfold Sub, in_int64, min_int64, max_int64. lia. Qed.

(** ** The calendar: [t.UTC().Date()] and [time.Date(y, m, 1, ...)]

    The proleptic Gregorian calendar, by eras of 400 years starting on March
    1st of year 0; day 0 is January 1st of year 1. *)

Definition day_ns : Z := 24 * Hour.

Definition era_days : Z := 146097.

(** Year of era, month and day of a day of an era. *)
Definition civil_of_doe (doe : Z) : Z * Z * Z :=
  let yoe := (doe - doe / 1460 + doe / 36524 - doe / 146096) / 365 in
  let doy := doe - (365 * yoe + yoe / 4 - yoe / 100) in
  let mp := (5 * doy + 2) / 153 in
  let d := doy - (153 * mp + 2) / 5 + 1 in
  let m := if mp <? 10 then mp + 3 else mp - 9 in
  (if m <=? 2 then yoe + 1 else yoe, m, d).

Definition civil_of_days (z : Z) : Z * Z * Z :=
  let z' := z + 306 in
  let '(y, m, d) := civil_of_doe (z' mod era_days) in
  (y + 400 * (z' / era_days), m, d).

(** The day of an era of the first of a month, by the year counted from March. *)
Definition doe_of_month (yoe m : Z) : Z :=
  let mp := if 2 <? m then m - 3 else m + 9 in
  yoe * 365 + yoe / 4 - yoe / 100 + (153 * mp + 2) / 5.

Definition days_of_month (y m : Z) : Z :=
  let y' := if m <=? 2 then y - 1 else y in
  era_days * (y' / 400) + doe_of_month (y' mod 400) m - 306.

Lemma doy_range doe :
  0 <= doe < era_days ->
  let yoe := (doe - doe / 1460 + doe / 36524 - doe / 146096) / 365 in
  let doy := doe - (365 * yoe + yoe / 4 - yoe / 100) in
  0 <= yoe < 400 /\ 0 <= doy <= 365.
Proof.
  intros H. unfold era_days in H. cbv zeta.
  Z.to_euclidean_division_equations; lia.
Qed.

Lemma civil_of_doe_spec doe :
  0 <= doe < era_days ->
  let '(y, m, d) := civil_of_doe doe in
  let y' := if m <=? 2 then y - 1 else y in
  1 <= m <= 12 /\ 1 <= d <= 31 /\ 0 <= y' < 400 /\ doe_of_month y' m + (d - 1) = doe.
Proof.
  intros H. apply doy_range in H. unfold civil_of_doe, doe_of_month. cbv zeta in *.
  set (yoe := (doe - doe / 1460 + doe / 36524 - doe / 146096) / 365) in *.
  set (doy := doe - (365 * yoe + yoe / 4 - yoe / 100)) in *.
  assert (Hmp : 0 <= (5 * doy + 2) / 153 <= 11)
    by (Z.to_euclidean_division_equations; lia).
  assert (Hd : 0 <= doy - (153 * ((5 * doy + 2) / 153) + 2) / 5 <= 30)
    by (Z.to_euclidean_division_equations; lia).
  set (mp := (5 * doy + 2) / 153) in *.
  destruct (Z.ltb_spec mp 10).
  - replace (mp + 3 <=? 2) with false by lia.
    replace (2 <? mp + 3) with true by lia.
    replace (mp + 3 - 3) with mp by lia. lia.
  - replace (mp - 9 <=? 2) with true by lia.
    replace (2 <? mp - 9) with false by lia.
    replace (mp - 9 + 9) with mp by lia.
    replace (yoe + 1 - 1) with yoe by lia. lia.
Qed.

Lemma doe_of_month_spec yoe m :
  0 <= yoe < 400 -> 1 <= m <= 12 ->
  0 <= doe_of_month yoe m < era_days /\
  civil_of_doe (doe_of_month yoe m) = (if m <=? 2 then yoe + 1 else yoe, m, 1).
Proof.
  intros Hy Hm. unfold doe_of_month.
  set (mp := if 2 <? m then m - 3 else m + 9).
  assert (Hmp : 0 <= mp <= 11 /\ (mp < 10 <-> 2 < m) /\
                (2 < m -> m = mp + 3) /\ (m <= 2 -> m = mp - 9))
    by (subst mp; destruct (Z.ltb_spec 2 m); lia).
  clearbody mp. set (s := (153 * mp + 2) / 5).
  assert (Hs : 0 <= s <= 337 /\ (5 * s + 2) / 153 = mp)
    by (subst s; Z.to_euclidean_division_equations; lia).
  set (doe := yoe * 365 + yoe / 4 - yoe / 100 + s).
  assert (Hdoe : 0 <= doe < era_days /\
    (doe - doe / 1460 + doe / 36524 - doe / 146096) / 365 = yoe)
    by (subst doe; unfold era_days; Z.to_euclidean_division_equations; lia).
  split; [apply Hdoe|]. unfold civil_of_doe. cbv zeta.
  rewrite (proj2 Hdoe).
  replace (doe - (365 * yoe + yoe / 4 - yoe / 100)) with s by (subst doe; lia).
  rewrite (proj2 Hs). fold s.
  replace (s - s + 1) with 1 by lia.
  destruct (Z.ltb_spec mp 10).
  - replace (m <=? 2) with false by lia. replace (mp + 3) with m by lia.
    by replace (m <=? 2) with false by lia.
  - replace (m <=? 2) with true by lia. replace (mp - 9) with m by lia.
    by replace (m <=? 2) with true by lia.
Qed.

Lemma civil_of_days_of_month y m :
  1 <= m <= 12 -> civil_of_days (days_of_month y m) = (y, m, 1).
Proof.
  intros Hm. unfold civil_of_days, days_of_month.
  set (y' := if m <=? 2 then y - 1 else y).
  destruct (doe_of_month_spec (y' mod 400) m) as [Hr Hc];
    [apply Z.mod_pos_bound; lia|done|].
  replace (era_days * (y' / 400) + doe_of_month (y' mod 400) m - 306 + 306)
    with (doe_of_month (y' mod 400) m + (y' / 400) * era_days) by lia.
  rewrite Z.mod_add, Z.div_add by (unfold era_days; lia).
  rewrite Z.mod_small, Z.div_small by done. rewrite Hc.
  pose proof (Z.div_mod y' 400). subst y'. destruct (m <=? 2); f_equal; [f_equal; lia|f_equal; lia].
Qed.

Lemma days_of_month_of_civil z :
  let '(y, m, d) := civil_of_days z in
  1 <= m <= 12 /\ 1 <= d <= 31 /\ days_of_month y m + (d - 1) = z.
Proof.
  unfold civil_of_days, days_of_month.
  pose proof (civil_of_doe_spec ((z + 306) mod era_days)) as H.
  destruct (civil_of_doe ((z + 306) mod era_days)) as [[y m] d].
  destruct H as (Hm & Hd & Hy & He);
    [apply Z.mod_pos_bound; unfold era_days; lia|].
  split; [done|]. split; [done|].
  set (q := (z + 306) / era_days) in *.
  replace (if m <=? 2 then y + 400 * q - 1 else y + 400 * q)
    with ((if m <=? 2 then y - 1 else y) + q * 400) by (destruct (m <=? 2); lia).
  rewrite Z.div_add, Z.mod_add, Z.div_small, Z.mod_small by lia.
  pose proof (Z.div_mod (z + 306) era_days ltac:(unfold era_days; lia)). lia.
Qed.

(** [t.UTC().Date()], year and month. *)
Definition year_month (t : Time) : Z * Z :=
  let '(y, m, _) := civil_of_days (t / day_ns) in (y, m).

(** [time.Date(y, m, 1, 0, 0, 0, 0, time.UTC)]. *)
Definition month_start (y m : Z) : Time := days_of_month y m * day_ns.

Lemma year_month_start y m : 1 <= m <= 12 -> year_month (month_start y m) = (y, m).
Proof.
  intros Hm. unfold year_month, month_start.
  rewrite Z.div_mul by (unfold day_ns, Hour, Minute, Second; lia).
  by rewrite civil_of_days_of_month.
Qed.

Lemma year_month_range t : 1 <= (year_month t).2 <= 12.
Proof.
  unfold year_month. pose proof (days_of_month_of_civil (t / day_ns)) as H.
  destruct (civil_of_days _) as [[y m] d]. cbn. lia.
Qed.

Lemma month_start_bound t :
  let '(y, m) := year_month t in month_start y m <= t < month_start y m + 31 * day_ns.
Proof.
  unfold year_month, month_start.
  pose proof (days_of_month_of_civil (t / day_ns)) as H.
  destruct (civil_of_days _) as [[y m] d].
  assert (Hd : 0 < day_ns) by (unfold day_ns, Hour, Minute, Second; lia).
  pose proof (Z.div_mod t day_ns ltac:(lia)). pose proof (Z.mod_pos_bound t day_ns Hd).
  nia.
Qed.

(** Months are numbered in the order of time. *)
Definition month_index (t : Time) : Z := 12 * (year_month t).1 + (year_month t).2.

Lemma yoe_mono a b :
  0 <= a <= b -> b < era_days ->
  (a - a / 1460 + a / 36524 - a / 146096) / 365 <= (b - b / 1460 + b / 36524 - b / 146096) / 365.
Proof.
  intros H Hb. unfold era_days in Hb. apply Z.div_le_mono; [lia|].
  Z.to_euclidean_division_equations; lia.
Qed.

Lemma civil_of_doe_index doe :
  0 <= doe < era_days ->
  let yoe := (doe - doe / 1460 + doe / 36524 - doe / 146096) / 365 in
  let mp := (5 * (doe - (365 * yoe + yoe / 4 - yoe / 100)) + 2) / 153 in
  let '(y, m, _) := civil_of_doe doe in
  12 * y + m = 12 * yoe + mp + 3 /\ 0 <= mp <= 11 /\ 0 <= yoe < 400.
Proof.
  intros H. pose proof (doy_range doe H) as [Hy Hd]. unfold civil_of_doe. cbv zeta in *.
  set (yoe := (doe - doe / 1460 + doe / 36524 - doe / 146096) / 365) in *.
  set (doy := doe - (365 * yoe + yoe / 4 - yoe / 100)) in *.
  assert (0 <= (5 * doy + 2) / 153 <= 11) by (Z.to_euclidean_division_equations; lia).
  set (mp := (5 * doy + 2) / 153) in *.
  destruct (Z.ltb_spec mp 10).
  - replace (mp + 3 <=? 2) with false by lia. lia.
  - replace (mp - 9 <=? 2) with true by lia. lia.
Qed.

Lemma civil_of_days_mono a b : a <= b ->
  let '(ya, ma, _) := civil_of_days a in
  let '(yb, mb, _) := civil_of_days b in
  12 * ya + ma <= 12 * yb + mb.
Proof.
  intros Hab. unfold civil_of_days.
  assert (He : 0 < era_days) by (unfold era_days; lia).
  pose proof (Z.mod_pos_bound (a + 306) _ He) as Ra.
  pose proof (Z.mod_pos_bound (b + 306) _ He) as Rb.
  pose proof (Z.div_mod (a + 306) era_days ltac:(lia)) as Da.
  pose proof (Z.div_mod (b + 306) era_days ltac:(lia)) as Db.
  pose proof (Z.div_le_mono (a + 306) (b + 306) era_days He ltac:(lia)) as Hq.
  pose proof (civil_of_doe_index _ Ra) as Ia. pose proof (civil_of_doe_index _ Rb) as Ib.
  pose proof (yoe_mono ((a + 306) mod era_days) ((b + 306) mod era_days)) as Hm.
  set (da := (a + 306) mod era_days) in *. set (db := (b + 306) mod era_days) in *.
  set (qa := (a + 306) / era_days) in *. set (qb := (b + 306) / era_days) in *.
  destruct (civil_of_doe da) as [[ya ma] ?], (civil_of_doe db) as [[yb mb] ?].
  cbv zeta in *.
  set (yya := (da - da / 1460 + da / 36524 - da / 146096) / 365) in *.
  set (yyb := (db - db / 1460 + db / 36524 - db / 146096) / 365) in *.
  destruct (decide (qa = qb)) as [E|]; [|lia]. rewrite E in *.
  specialize (Hm ltac:(lia) ltac:(lia)).
  destruct (decide (yya = yyb)) as [Ey|]; [|lia]. rewrite Ey in *.
  assert ((5 * (da - (365 * yyb + yyb / 4 - yyb / 100)) + 2) / 153
          <= (5 * (db - (365 * yyb + yyb / 4 - yyb / 100)) + 2) / 153)
    by (apply Z.div_le_mono; lia).
  lia.
Qed.

Lemma month_index_mono t u : t <= u -> month_index t <= month_index u.
Proof.
  intros Htu. unfold month_index, year_month.
  assert (Hd : 0 < day_ns) by (unfold day_ns, Hour, Minute, Second; lia).
  pose proof (civil_of_days_mono _ _ (Z.div_le_mono t u day_ns Hd Htu)) as H.
  by destruct (civil_of_days (t / day_ns)) as [[??]?], (civil_of_days (u / day_ns)) as [[??]?].
Qed.

Lemma month_index_eq t u : month_index t = month_index u -> year_month t = year_month u.
Proof.
  unfold month_index. pose proof (year_month_range t). pose proof (year_month_range u).
  destruct (year_month t), (year_month u). cbn in *. intros. f_equal; lia.
Qed.

(** ** Strings *)

(** Go compares strings byte by byte. *)
Definition str_lt (s t : string) : bool := String.ltb s t.

Lemma str_lt_irrefl s : str_lt s s = false.
Proof.
  unfold str_lt, String.ltb. pose proof (String.compare_antisym s s) as H.
  by destruct (String.compare s s).
Qed.

Lemma ascii_compare_lt a b : Ascii.compare a b = Lt <-> (N_of_ascii a < N_of_ascii b)%N.
Proof. apply N.compare_lt_iff. Qed.

Lemma str_lt_trans s t u : str_lt s t = true -> str_lt t u = true -> str_lt s u = true.
Proof.
  unfold str_lt, String.ltb.
  assert (Hc : String.compare s t = Lt -> String.compare t u = Lt -> String.compare s u = Lt).
  { revert t u. induction s as [|a s IH]; intros [|b t] [|c u]; cbn; try done.
    destruct (Ascii.compare a b) eqn:E1; try done;
      destruct (Ascii.compare b c) eqn:E2; try done;
      repeat match goal with
      | H : Ascii.compare ?x ?y = Eq |- _ => apply Ascii.compare_eq_iff in H; subst
      end.
    - replace (Ascii.compare c c) with Eq; [by eauto|].
      symmetry. unfold Ascii.compare. by apply N.compare_eq_iff.
    - by rewrite E2.
    - by rewrite E1.
    - rewrite ascii_compare_lt in E1, E2.
      replace (Ascii.compare a c) with Lt; [done|].
      symmetry. apply ascii_compare_lt. lia. }
  destruct (String.compare s t), (String.compare t u), (String.compare s u); naive_solver.
Qed.

Lemma str_lt_total s t : str_lt s t = false -> str_lt t s = false -> s = t.
Proof.
  unfold str_lt, String.ltb. rewrite (String.compare_antisym s t).
  destruct (String.compare t s) eqn:E; cbn; try done.
  intros _ _. symmetry. by apply String.compare_eq_iff.
Qed.

Lemma str_lt_strict_weak : strict_weak (fun _ => True) str_lt.
Proof.
  split.
  - intros. apply str_lt_irrefl.
  - intros x y z _ _ _. apply str_lt_trans.
  - intros x y z _ _ _ Hyx Hzy. destruct (str_lt z x) eqn:E; [|done].
    destruct (str_lt x y) eqn:E1.
    + by rewrite (str_lt_trans z x y) in Hzy.
    + by rewrite (str_lt_total x y) in E by done; rewrite E in Hzy.
Qed.

(** *** Names in order

    The keys of a map, ranged over in whatever order and then sorted. *)

Record names_of (X : gset string) (l : list string) : Prop := {
  names_sorted : sorted_by str_lt l;
  names_once : NoDup l;
  names_all : forall n, n ∈ l <-> n ∈ X;
}.

Lemma sort_names {SS : SliceSort} {SL : SliceSortLaws SS} (range : gset string -> list string) X :
  Permutation (range X) (elements X) -> names_of X (sort_slice str_lt (range X)).
Proof.
  intros Hr. pose proof (Permutation_trans (sort_slice_perm str_lt (range X)) Hr) as Hp. split.
  - apply (sort_slice_sorted (fun _ => True)); [exact str_lt_strict_weak|by apply Forall_true].
  - rewrite Hp. apply NoDup_elements.
  - intros n. rewrite Hp. apply elem_of_elements.
Qed.

Lemma names_unique X l1 l2 : names_of X l1 -> names_of X l2 -> l1 = l2.
Proof.
  intros [S1 N1 A1] [S2 N2 A2]. apply (sorted_by_unique str_lt); [|done|done|].
  - intros x y _ _. apply str_lt_total.
  - apply NoDup_Permutation; [done..|]. intros x. by rewrite A1, A2.
Qed.

Definition str_eqb (s t : string) : bool := bool_decide (s = t).

(** [if x != y { return x < y }], before the next criterion. *)
Lemma str_chain x y rest :
  (if negb (str_eqb x y) then str_lt x y else rest) = str_lt x y || (negb (str_lt y x) && rest).
Proof.
  unfold str_eqb. destruct (bool_decide_reflect (x = y)) as [->|Hne]; cbn.
  - by rewrite str_lt_irrefl.
  - destruct (str_lt x y) eqn:E1; [done|]. destruct (str_lt y x) eqn:E2; [done|].
    by destruct (Hne (str_lt_total x y E1 E2)).
Qed.

Definition str_len (s : string) : Z := Z.of_nat (String.length s).

(** [s[:n]] and [s[n:]], for [n] within the string. *)
Fixpoint str_take (n : nat) (s : string) : string :=
  match n, s with
  | S n', String c s' => String c (str_take n' s')
  | _, _ => ""
  end.

Fixpoint str_drop (n : nat) (s : string) : string :=
  match n, s with
  | S n', String _ s' => str_drop n' s'
  | _, _ => s
  end.

(** [strings.HasPrefix(s, p)] and [strings.TrimPrefix(s, p)]. *)
Fixpoint HasPrefix (s p : string) : bool :=
  match p, s with
  | EmptyString, _ => true
  | String c p', String d s' => Ascii.eqb c d && HasPrefix s' p'
  | String _ _, EmptyString => false
  end.

Definition TrimPrefix (s p : string) : string :=
  if HasPrefix s p then str_drop (String.length p) s else s.

Lemma str_app_cons c p s : String c p +:+ s = String c (p +:+ s).
Proof. reflexivity. Qed.

Lemma HasPrefix_drop p : forall s, HasPrefix s p = true -> s = p +:+ str_drop (String.length p) s.
Proof.
  induction p as [|c p IH]; intros [|d s]; cbn [HasPrefix]; try done.
  intros [->%Ascii.eqb_eq H]%andb_prop. cbn [String.length str_drop]. rewrite str_app_cons. f_equal.
  by apply IH.
Qed.

Lemma HasPrefix_app p s : HasPrefix (p +:+ s) p = true.
Proof.
  induction p as [|c p IH]; [by destruct s|]. rewrite str_app_cons. cbn. by rewrite Ascii.eqb_refl.
Qed.

Lemma str_drop_app p s : str_drop (String.length p) (p +:+ s) = s.
Proof. induction p as [|c p IH]; [done|]. exact IH. Qed.

Lemma str_len_app (a b : string) : String.length (a +:+ b) = (String.length a + String.length b)%nat.
Proof. induction a as [|x a IH]; [done|]. rewrite str_app_cons. cbn. by rewrite IH. Qed.

Lemma str_take_app (a b : string) : str_take (String.length a) (a +:+ b) = a.
Proof. induction a as [|x a IH]; [by destruct b|]. rewrite str_app_cons. cbn. by rewrite IH. Qed.

Lemma str_app_assoc (a b c : string) : a +:+ (b +:+ c) = (a +:+ b) +:+ c.
Proof. induction a as [|x a IH]; [done|]. rewrite !str_app_cons. by f_equal. Qed.

Lemma TrimPrefix_app p s : TrimPrefix (p +:+ s) p = s.
Proof. unfold TrimPrefix. by rewrite HasPrefix_app, str_drop_app. Qed.

(** [strings.Split(s, sep)] for a one-byte separator. *)
Fixpoint Split (s : string) (sep : ascii) : list string :=
  match s with
  | EmptyString => [""]
  | String c s' =>
      if Ascii.eqb c sep then "" :: Split s' sep
      else match Split s' sep with
           | w :: ws => String c w :: ws
           | [] => [String c ""]
           end
  end.

Fixpoint no_byte (c : ascii) (s : string) : bool :=
  match s with
  | EmptyString => true
  | String d s' => negb (Ascii.eqb d c) && no_byte c s'
  end.

Lemma no_byte_app c s t : no_byte c (s +:+ t) = no_byte c s && no_byte c t.
Proof.
  induction s as [|d s IH]; [done|].
  change (no_byte c (String d s +:+ t)) with (negb (Ascii.eqb d c) && no_byte c (s +:+ t)).
  rewrite IH. cbn. by rewrite andb_assoc.
Qed.

Lemma Split_no_sep s sep : no_byte sep s = true -> Split s sep = [s].
Proof.
  induction s as [|c s IH]; cbn; [done|]. intros H.
  apply andb_prop in H as [H1 H2]. apply negb_true_iff in H1.
  by rewrite H1, (IH H2).
Qed.

Lemma Split_app s t sep :
  no_byte sep s = true -> Split (s +:+ String sep t) sep = s :: Split t sep.
Proof.
  induction s as [|c s IH].
  - intros _. unfold String.app. cbn. by rewrite Ascii.eqb_refl.
  - intros H. cbn in H. apply andb_prop in H as [H1 H2]. apply negb_true_iff in H1.
    rewrite str_app_cons.
    cbn. by rewrite H1, (IH H2).
Qed.

(** [strings.ToLower]: bytes below 0x80 by the ASCII table.  A string with a
    byte above goes through Unicode's tables, which a model that needs them
    takes as the parameter [unicode_lower]. *)
Definition ascii_lower (c : ascii) : ascii :=
  let n := N_of_ascii c in
  if ((65 <=? n) && (n <=? 90))%N then ascii_of_N (n + 32) else c.

Fixpoint is_ascii (s : string) : bool :=
  match s with
  | EmptyString => true
  | String c s' => (N_of_ascii c <? 128)%N && is_ascii s'
  end.

Fixpoint map_lower (s : string) : string :=
  match s with
  | EmptyString => EmptyString
  | String c s' => String (ascii_lower c) (map_lower s')
  end.

Definition ToLower (unicode_lower : string -> string) (s : string) : string :=
  if is_ascii s then map_lower s else unicode_lower s.

Lemma ascii_lower_idem c : ascii_lower (ascii_lower c) = ascii_lower c.
Proof. destruct c as [[] [] [] [] [] [] [] []]; reflexivity. Qed.

Lemma map_lower_idem s : map_lower (map_lower s) = map_lower s.
Proof. induction s; cbn; [done|]. by rewrite ascii_lower_idem, IHs. Qed.

(** [strings.TrimSpace]: the UTF-8 encodings of the runes that
    [unicode.IsSpace] accepts. *)
Definition byte_str (l : list N) : string :=
  foldr (fun n s => String (ascii_of_N n) s) "" l.

Definition space_runes : list string :=
  byte_str <$>
    [[9]; [10]; [11]; [12]; [13]; [32]; [194; 133]; [194; 160]; [225; 154; 128];
     [226; 128; 128]; [226; 128; 129]; [226; 128; 130]; [226; 128; 131];
     [226; 128; 132]; [226; 128; 133]; [226; 128; 134]; [226; 128; 135];
     [226; 128; 136]; [226; 128; 137]; [226; 128; 138]; [226; 128; 168];
     [226; 128; 169]; [226; 128; 175]; [226; 129; 159]; [227; 128; 128]]%N.

Fixpoint str_rev_app (s acc : string) : string :=
  match s with
  | EmptyString => acc
  | String c s' => str_rev_app s' (String c acc)
  end.

Definition str_rev (s : string) : string := str_rev_app s "".

Fixpoint trim_left (fuel : nat) (runes : list string) (s : string) : string :=
  match fuel with
  | O => s
  | S fuel' =>
      match List.find (HasPrefix s) runes with
      | Some r => trim_left fuel' runes (str_drop (String.length r) s)
      | None => s
      end
  end.

Definition TrimSpace (s : string) : string :=
  let l := trim_left (String.length s) space_runes s in
  str_rev (trim_left (String.length l) (str_rev <$> space_runes) (str_rev l)).

Example TrimSpace_ex : TrimSpace "  a b
" = "a b".
Proof. reflexivity. Qed.
