(* ===== verification/GoFmt.v ===== *)
(** * Go's formatting verbs: [%d], [%.nf] and RFC 3339 instants

    The verbs print exact decimal expansions: [%.nf] rounds the exact value of
    the float to nearest, ties to even, as [strconv] does. *)
From Stdlib Require Import ZArith Lia Ascii Floats.
From stdpp Require Import base list strings.
From S2P Require Import Prelude GoBase.
Set Warnings "-inexact-float".
Open Scope Z_scope.

(** ** Integers *)

Fixpoint digits (fuel : nat) (n : Z) (acc : string) : string :=
  match fuel with
  | O => acc
  | S fuel' =>
      let acc := String (ascii_of_N (48 + Z.to_N (n mod 10))) acc in
      if n <? 10 then acc else digits fuel' (n / 10) acc
  end.

(** [strconv.Itoa] and [%d]; a natural number has at most as many digits as bits. *)
Definition Itoa (z : Z) : string :=
  let d := digits (S (Z.to_nat (Z.log2 (Z.abs z)))) (Z.abs z) "" in
  if z <? 0 then "-" +:+ d else d.

Fixpoint zeros (n : nat) : string :=
  match n with O => "" | S n' => "0" +:+ zeros n' end.

(** [%0nd] of a natural number. *)
Definition pad0 (n : nat) (s : string) : string := zeros (n - String.length s) +:+ s.

(** ** Floats *)

(** [n / d] rounded to nearest, ties to even. *)
Definition div_even (n d : Z) : Z :=
  let q := n / d in
  let r := n mod d in
  if 2 * r <? d then q
  else if d <? 2 * r then q + 1
  else if Z.even q then q else q + 1.

Definition fixed (prec : nat) (neg : bool) (q : Z) : string :=
  let p := 10 ^ Z.of_nat prec in
  (if neg then "-" else "") +:+ Itoa (q / p) +:+
  (match prec with O => "" | _ => "." +:+ pad0 prec (Itoa (q mod p)) end).

(** [%.nf]. *)
Definition fmt_f (prec : nat) (x : float) : string :=
  match Prim2SF x with
  | S754_nan => "NaN"
  | S754_infinity s => if s then "-Inf" else "+Inf"
  | S754_zero s => fixed prec s 0
  | S754_finite s m e =>
      let n := Zpos m * 10 ^ Z.of_nat prec in
      fixed prec s (if 0 <=? e then n * 2 ^ e else div_even n (2 ^ (- e)))
  end.

(** ** Instants: [t.UTC().Format(time.RFC3339)] *)

Definition FormatRFC3339 (t : Time) : string :=
  let '(y, m, d) := civil_of_days (t / day_ns) in
  let s := (t mod day_ns) / Second in
  pad0 4 (Itoa y) +:+ "-" +:+ pad0 2 (Itoa m) +:+ "-" +:+ pad0 2 (Itoa d) +:+ "T" +:+
  pad0 2 (Itoa (s / 3600)) +:+ ":" +:+ pad0 2 (Itoa (s / 60 mod 60)) +:+ ":" +:+
  pad0 2 (Itoa (s mod 60)) +:+ "Z".

Example fmt_ex :
  fmt_f 2 0.125 = "0.12" /\ fmt_f 2 (-1234.567)%float = "-1234.57" /\ fmt_f 0 2.5 = "2" /\
  fmt_f 3 (-0)%float = "-0.000" /\ fmt_f 2 1e22 = "10000000000000000000000.00" /\
  Itoa (-120) = "-120" /\ Itoa 0 = "0" /\
  FormatRFC3339 (63902736000 * Second + 5025 * Second) = "2025-12-31T01:23:45Z".
Proof. vm_compute. repeat split. Qed.
