(* ===== verification/GoFloat.v ===== *)
(** * Go's [float64]

    A [float64] is Rocq's primitive binary64 [float]: every operation rounds
    to nearest even, comparisons with NaN are false, and all of it computes.
    The facts below come from the kernel's specification of the primitives.

    [frank] sends a float to an integer multiple of the least positive float
    (infinities lie beyond every finite value), so that the order of the
    non-NaN floats is the order of [Z] and goals about comparisons are linear
    arithmetic.  The [_le] and [_ge] lemmas say that rounding is monotone:
    the rounded result of an operation is on the same side of a finite float
    as the exact result. *)
From Stdlib Require Import ZArith Lia Floats Uint63.
From stdpp Require Import base list.
From S2P Require Import Prelude GoBase.
Open Scope Z_scope.

Definition is_fin (x : float) : bool :=
  match Prim2SF x with
  | S754_zero _ | S754_finite _ _ _ => true
  | _ => false
  end.

(** ** Conversions *)

(** [float64(z)] for an [int] [z]. *)
Definition float_of_int (z : Z) : float :=
  if z =? min_int64 then (- 0x1p63)%float
  else if z <? 0 then (- of_uint63 (Uint63.of_Z (- z)))%float
  else of_uint63 (Uint63.of_Z z).

(** [int(f)]: truncation; out of range, and for NaN, the value the amd64
    conversion instruction gives. *)
Definition int_of_float (f : float) : Z :=
  match Prim2SF f with
  | S754_zero _ => 0
  | S754_finite s m e =>
      let a := if 0 <=? e then Zpos m * 2 ^ e else Zpos m / 2 ^ (- e) in
      let v := cond_Zopp s a in
      if (min_int64 <=? v) && (v <=? max_int64) then v else min_int64
  | _ => min_int64
  end.

(** ** The rank of a float *)

Definition mag (m e : Z) : Z := m * 2 ^ (e + 1074).

Definition sf_rank (x : spec_float) : Z :=
  match x with
  | S754_zero _ | S754_nan => 0
  | S754_infinity s => cond_Zopp s (2 ^ 2098)
  | S754_finite s m e => cond_Zopp s (mag (Zpos m) e)
  end.

Definition frank (x : float) : Z := sf_rank (Prim2SF x).

Abbreviation canonical m e := (fexp 53 1024 (Zpos (digits2_pos m) + e) = e%Z).

Lemma digits2_pos_bound p :
  2 ^ (Zpos (digits2_pos p) - 1) <= Zpos p < 2 ^ Zpos (digits2_pos p).
Proof.
  induction p as [p IH|p IH|]; cbn [digits2_pos]; [| |lia].
  all: rewrite Pos2Z.inj_succ; unfold Z.succ.
  all: replace (Zpos (digits2_pos p) + 1 - 1) with (Z.succ (Zpos (digits2_pos p) - 1)) by lia.
  all: rewrite Z.pow_succ_r, Z.pow_add_r, Z.pow_1_r by lia; lia.
Qed.

Lemma fexp_mono a b : a <= b -> fexp 53 1024 a <= fexp 53 1024 b.
Proof. unfold fexp, SpecFloat.emin. lia. Qed.

Lemma fexp_spec a : fexp 53 1024 a = Z.max (a - 53) (-1074).
Proof. unfold fexp, SpecFloat.emin. lia. Qed.

Lemma pow2_pos a : 0 <= a -> 0 < 2 ^ a.
Proof. intros. apply Z.pow_pos_nonneg; lia. Qed.

Lemma pow2_le_inv a b : 0 <= a -> 2 ^ a < 2 ^ b -> a < b.
Proof. intros Ha H. apply (Z.pow_lt_mono_r_iff 2); [lia| |done].
  destruct (decide (b < 0)) as [Hb|]; [|lia].
  rewrite (Z.pow_neg_r 2 b Hb) in H. pose proof (pow2_pos a Ha). lia.
Qed.

Lemma pow2_mono a b : 0 <= a -> a <= b -> 2 ^ a <= 2 ^ b.
Proof. intros. apply Z.pow_le_mono_r; lia. Qed.

Lemma mag_pos m e : -1074 <= e -> 0 < mag (Zpos m) e.
Proof. intros. unfold mag. apply Z.mul_pos_pos; [lia|]. apply pow2_pos. lia. Qed.

(** A positive [m * 2^e] lies between the powers of two its digits give. *)
Lemma mag_digits m e :
  -1074 <= e ->
  2 ^ (Zpos (digits2_pos m) - 1 + (e + 1074)) <= mag (Zpos m) e
    < 2 ^ (Zpos (digits2_pos m) + (e + 1074)).
Proof.
  intros He. unfold mag. pose proof (digits2_pos_bound m).
  set (p := e + 1074). assert (Hp : 0 <= p) by lia. clearbody p.
  rewrite !Z.pow_add_r by lia. pose proof (pow2_pos p Hp). nia.
Qed.

Lemma canonical_emin m e : canonical m e -> -1074 <= e.
Proof. rewrite fexp_spec. lia. Qed.

Lemma mag_lt_exp m1 e1 m2 e2 :
  canonical m1 e1 -> canonical m2 e2 -> e1 < e2 -> mag (Zpos m1) e1 < mag (Zpos m2) e2.
Proof.
  intros H1 H2 He.
  pose proof (canonical_emin _ _ H1). pose proof (canonical_emin _ _ H2).
  destruct (mag_digits m1 e1) as [_ Hu]; [done|].
  destruct (mag_digits m2 e2) as [Hl _]; [done|].
  rewrite fexp_spec in H1, H2.
  enough (2 ^ (Zpos (digits2_pos m1) + (e1 + 1074))
          <= 2 ^ (Zpos (digits2_pos m2) - 1 + (e2 + 1074))) by lia.
  apply pow2_mono; lia.
Qed.

Lemma mag_compare m1 e1 m2 e2 :
  canonical m1 e1 -> canonical m2 e2 ->
  (match Z.compare e1 e2 with
   | Lt => Lt | Gt => Gt | Eq => Pos.compare_cont Eq m1 m2 end)
  = Z.compare (mag (Zpos m1) e1) (mag (Zpos m2) e2).
Proof.
  intros H1 H2. symmetry. destruct (Z.compare_spec e1 e2) as [->|He|He].
  - change (Pos.compare_cont Eq m1 m2) with (Zpos m1 ?= Zpos m2).
    pose proof (canonical_emin _ _ H2). unfold mag.
    rewrite (Z.mul_comm (Zpos m1)), (Z.mul_comm (Zpos m2)).
    symmetry. apply Zmult_compare_compat_l. pose proof (pow2_pos (e2 + 1074) ltac:(lia)). lia.
  - by apply Z.compare_lt_iff, mag_lt_exp.
  - by apply Z.compare_gt_iff, mag_lt_exp.
Qed.

Lemma mag_max m e : canonical m e -> e <= 971 -> mag (Zpos m) e < 2 ^ 2098.
Proof.
  intros Hc He. pose proof (canonical_emin _ _ Hc).
  destruct (mag_digits m e) as [_ Hu]; [done|].
  rewrite fexp_spec in Hc.
  enough (2 ^ (Zpos (digits2_pos m) + (e + 1074)) <= 2 ^ 2098) by lia.
  apply pow2_mono; lia.
Qed.

Lemma valid_finite s m e :
  SpecFloat.valid_binary 53 1024 (S754_finite s m e) = true -> canonical m e /\ e <= 971.
Proof.
  cbn. unfold bounded, canonical_mantissa.
  intros [H1 H2]%andb_prop. lia.
Qed.

Lemma valid_mag s m e :
  SpecFloat.valid_binary 53 1024 (S754_finite s m e) = true ->
  canonical m e /\ 0 < mag (Zpos m) e < 2 ^ 2098.
Proof.
  intros [Hc He]%valid_finite. split; [done|].
  split; [by apply mag_pos, (canonical_emin m)|by apply mag_max].
Qed.

(** The order of the valid non-NaN floats is the order of the ranks. *)
Lemma sf_compare_rank x y :
  SpecFloat.valid_binary 53 1024 x = true -> SpecFloat.valid_binary 53 1024 y = true ->
  x <> S754_nan -> y <> S754_nan ->
  SFcompare x y = Some (Z.compare (sf_rank x) (sf_rank y)).
Proof.
  intros Vx Vy Nx Ny.
  assert (Hinf : 0 < 2 ^ 2098) by (apply pow2_pos; lia).
  destruct x as [sx|sx| |sx mx ex]; destruct y as [sy|sy| |sy my ey]; try done.
  all: repeat match goal with
    | V : SpecFloat.valid_binary _ _ (S754_finite _ ?m ?e) = true |- _ =>
        apply valid_mag in V as [? ?]
    end.
  all: try (unfold SFcompare, sf_rank, cond_Zopp;
    repeat match goal with s : bool |- _ => destruct s end;
    f_equal; symmetry;
    first [apply Z.compare_eq_iff | apply Z.compare_lt_iff | apply Z.compare_gt_iff]; lia).
  unfold SFcompare, sf_rank. destruct sx, sy; cbn [cond_Zopp]; f_equal.
  - rewrite (Z.compare_opp (mag (Zpos mx) ex)).
    rewrite (Z.compare_antisym (mag (Zpos mx) ex)), <- (mag_compare mx ex my ey) by done.
    by destruct (ex ?= ey).
  - symmetry. apply Z.compare_lt_iff. lia.
  - symmetry. apply Z.compare_gt_iff. lia.
  - by apply mag_compare.
Qed.

Lemma Prim2SF_valid' x : SpecFloat.valid_binary 53 1024 (Prim2SF x) = true.
Proof. apply Prim2SF_valid. Qed.

Lemma is_nan_spec x : is_nan x = true <-> Prim2SF x = S754_nan.
Proof.
  unfold is_nan. rewrite FloatAxioms.eqb_spec.
  destruct (Prim2SF x) as [s|s| |s m e] eqn:E; split; intros H; try done.
  all: exfalso; unfold SFeqb in H.
  all: rewrite sf_compare_rank in H; [by rewrite Z.compare_refl in H| | |done|done].
  all: rewrite <- E; apply Prim2SF_valid'.
Qed.

Lemma not_nan_spec x : is_nan x = false <-> Prim2SF x <> S754_nan.
Proof.
  pose proof (is_nan_spec x) as H. destruct (is_nan x); split; intros H1; try done.
  - exfalso. apply H1. by apply H.
  - intros H2. by apply H in H2.
Qed.

Lemma compare_rank x y :
  is_nan x = false -> is_nan y = false ->
  SFcompare (Prim2SF x) (Prim2SF y) = Some (Z.compare (frank x) (frank y)).
Proof.
  rewrite !not_nan_spec. intros. apply sf_compare_rank; auto using Prim2SF_valid'.
Qed.

Lemma fltb_rank x y :
  is_nan x = false -> is_nan y = false -> (x <? y)%float = (frank x <? frank y).
Proof.
  intros. rewrite FloatAxioms.ltb_spec. unfold SFltb. rewrite compare_rank by done.
  unfold Z.ltb. by destruct (_ ?= _).
Qed.

Lemma fleb_rank x y :
  is_nan x = false -> is_nan y = false -> (x <=? y)%float = (frank x <=? frank y).
Proof.
  intros. rewrite FloatAxioms.leb_spec. unfold SFleb. rewrite compare_rank by done.
  unfold Z.leb. by destruct (_ ?= _).
Qed.

Lemma feqb_rank x y :
  is_nan x = false -> is_nan y = false -> (x =? y)%float = (frank x =? frank y).
Proof.
  intros. rewrite FloatAxioms.eqb_spec. unfold SFeqb. rewrite compare_rank by done.
  rewrite Z.eqb_compare. by destruct (_ ?= _).
Qed.

(** Comparisons with a NaN are false. *)
Lemma fcmp_nan x y :
  is_nan x = true \/ is_nan y = true ->
  (x <? y)%float = false /\ (x <=? y)%float = false /\ (x =? y)%float = false.
Proof.
  rewrite !is_nan_spec, FloatAxioms.ltb_spec, FloatAxioms.leb_spec, FloatAxioms.eqb_spec.
  unfold SFltb, SFleb, SFeqb. intros [-> | ->]; [done|].
  by destruct (Prim2SF x).
Qed.

Lemma fltb_not_nan x y : (x <? y)%float = true -> is_nan x = false /\ is_nan y = false.
Proof.
  intros H. destruct (is_nan x) eqn:Ex; [|destruct (is_nan y) eqn:Ey; [|done]].
  all: destruct (fcmp_nan x y) as (H1 & _ & _); [by auto|congruence].
Qed.

Lemma fleb_not_nan x y : (x <=? y)%float = true -> is_nan x = false /\ is_nan y = false.
Proof.
  intros H. destruct (is_nan x) eqn:Ex; [|destruct (is_nan y) eqn:Ey; [|done]].
  all: destruct (fcmp_nan x y) as (_ & H1 & _); [by auto|congruence].
Qed.
