(* ===== verification/GoRound.v ===== *)
(** * Correct rounding of Go's [float64] operations

    Every operation returns the float nearest to the exact result.  The
    lemmas here derive from the kernel's specification what the development
    needs of that: [rounds_to r exact] says that [r] is not NaN and lies on
    the same side of every finite float as [exact] does (both as multiples of
    the least positive float, see [frank]). *)
From Stdlib Require Import ZArith Lia Floats Uint63.
From stdpp Require Import base list.
From S2P Require Import Prelude GoBase GoFloat.
Open Scope Z_scope.

(** ** Rounding

    [ceilz m exact] is the ceiling of the number an integer mantissa [m] and
    its round and sticky bits stand for. *)
Definition ceilz (m : Z) (exact : bool) : Z := if exact then m else m + 1.

Definition shr_exact (r : shr_record) : bool := negb (shr_r r || shr_s r).

Lemma iter_pos_nat {A} (f : A -> A) p x :
  SpecFloat.iter_pos f p x = Nat.iter (Pos.to_nat p) f x.
Proof.
  revert x. induction p as [p IH|p IH|]; intros x; cbn [SpecFloat.iter_pos].
  - rewrite !IH, Pos2Nat.inj_xI, Nat.iter_succ_r, <- Nat.iter_add. f_equal. lia.
  - rewrite !IH, Pos2Nat.inj_xO, <- Nat.iter_add. f_equal. lia.
  - by rewrite Pos2Nat.inj_1.
Qed.

Lemma shr_1_spec r :
  0 <= shr_m r ->
  0 <= shr_m (shr_1 r) /\
  (forall K, ceilz (shr_m r) (shr_exact r) <= K * 2 ->
     ceilz (shr_m (shr_1 r)) (shr_exact (shr_1 r)) <= K) /\
  (forall K, K * 2 <= shr_m r -> K <= shr_m (shr_1 r)).
Proof.
  destruct r as [m rr ss]. unfold shr_exact, ceilz. cbn [shr_m shr_r shr_s].
  intros Hm. destruct m as [|[p|p|]|p]; [| | | |lia];
    unfold shr_1; cbn [shr_m shr_r shr_s]; destruct rr, ss; cbn [negb orb];
    repeat split; intros; lia.
Qed.

Lemma shr_iter_spec n : forall r,
  0 <= shr_m r ->
  let r' := Nat.iter n shr_1 r in
  0 <= shr_m r' /\
  (forall K, ceilz (shr_m r) (shr_exact r) <= K * 2 ^ Z.of_nat n ->
     ceilz (shr_m r') (shr_exact r') <= K) /\
  (forall K, K * 2 ^ Z.of_nat n <= shr_m r -> K <= shr_m r').
Proof.
  induction n as [|n IH]; intros r Hr r'; subst r'.
  { change (Nat.iter 0 shr_1 r) with r. rewrite Z.pow_0_r. split; [done|]. split; intros; lia. }
  rewrite Nat.iter_succ. destruct (IH r Hr) as (H1 & H2 & H3).
  destruct (shr_1_spec _ H1) as (G1 & G2 & G3).
  rewrite Nat2Z.inj_succ, Z.pow_succ_r by lia.
  split; [done|]. split; intros K HK.
  - apply G2, H2. lia.
  - apply G3, H3. lia.
Qed.

Definition loc_exact (l : location) : bool :=
  match l with loc_Exact => true | _ => false end.

Lemma shr_record_of_loc_spec m l :
  shr_m (shr_record_of_loc m l) = m /\ shr_exact (shr_record_of_loc m l) = loc_exact l.
Proof. by destruct l as [|[]]. Qed.

Lemma round_nearest_even_spec r :
  0 <= shr_m r ->
  shr_m r <= round_nearest_even (shr_m r) (loc_of_shr_record r)
    <= ceilz (shr_m r) (shr_exact r).
Proof.
  destruct r as [m rr ss]. unfold shr_exact, ceilz. cbn [shr_m shr_r shr_s].
  intros. destruct rr, ss; cbn; try destruct (Z.even m); lia.
Qed.

Lemma Zdigits2_bound m : 0 <= m -> m < 2 ^ Zdigits2 m /\ 0 <= Zdigits2 m.
Proof. destruct m as [|p|p]; [cbn; lia| |lia]. cbn [Zdigits2]. pose proof (digits2_pos_bound p). lia. Qed.

Lemma Zdigits2_le m d : 0 <= d -> 0 <= m < 2 ^ d -> Zdigits2 m <= d.
Proof.
  intros Hd Hm. destruct m as [|p|p]; [done| |lia]. cbn [Zdigits2].
  pose proof (digits2_pos_bound p).
  enough (Zpos (digits2_pos p) - 1 < d) by lia.
  apply pow2_le_inv; lia.
Qed.

(** The result of rounding [m * 2^e] (plus the fraction [l] tells): an integer
    [N] of at most [2^53] units of the exponent [fexp] picks. *)
Lemma binary_round_aux_spec s m e l :
  0 <= m -> e <= fexp 53 1024 (Zdigits2 m + e) ->
  let e1 := fexp 53 1024 (Zdigits2 m + e) in
  exists N m'' e'',
    0 <= N /\
    (forall K, ceilz m (loc_exact l) <= K * 2 ^ (e1 - e) -> N <= K) /\
    (forall K, K * 2 ^ (e1 - e) <= m -> K <= N) /\
    (N = 0 -> binary_round_aux 53 1024 s m e l = S754_zero s) /\
    (0 < N -> mag (Zpos m'') e'' = mag N e1 /\ e1 <= e'' <= e1 + 1 /\
      (e'' = e1 + 1 <-> N = 2 ^ 53) /\
      binary_round_aux 53 1024 s m e l =
        if e'' <=? 971 then S754_finite s m'' e'' else S754_infinity s).
Proof.
  intros Hm He e1.
  assert (He1 : -1074 <= e1) by (subst e1; rewrite fexp_spec; lia).
  set (r0 := shr_record_of_loc m l).
  destruct (shr_record_of_loc_spec m l) as [Hr0 Hx0]. fold r0 in Hr0, Hx0.
  assert (Hshr : exists r1, shr r0 e (e1 - e) = (r1, e1) /\ 0 <= shr_m r1 /\
    (forall K, ceilz m (loc_exact l) <= K * 2 ^ (e1 - e) ->
       ceilz (shr_m r1) (shr_exact r1) <= K) /\
    (forall K, K * 2 ^ (e1 - e) <= m -> K <= shr_m r1)).
  { fold e1 in He. unfold shr. destruct (e1 - e) as [|p|p] eqn:Ep; [| |lia].
    - exists r0. replace e with e1 by lia. rewrite Hr0, Hx0, Z.pow_0_r.
      split; [done|]. split; [done|]. split; intros; lia.
    - exists (SpecFloat.iter_pos shr_1 p r0). replace (e + Zpos p) with e1 by lia.
      split; [done|]. rewrite iter_pos_nat.
      destruct (shr_iter_spec (Pos.to_nat p) r0) as (A & B & C); [lia|].
      rewrite positive_nat_Z in B, C. rewrite Hr0, Hx0 in B. rewrite Hr0 in C. done. }
  destruct Hshr as (r1 & Hshr & Hr1 & HU & HL).
  pose proof (round_nearest_even_spec r1 Hr1) as HN.
  set (N := round_nearest_even (shr_m r1) (loc_of_shr_record r1)) in *.
  assert (HN53 : N <= 2 ^ 53).
  { enough (ceilz (shr_m r1) (shr_exact r1) <= 2 ^ 53) by lia. apply HU.
    destruct (Zdigits2_bound m Hm) as [Hd Hd0].
    assert (2 ^ Zdigits2 m <= 2 ^ 53 * 2 ^ (e1 - e)).
    { rewrite <- Z.pow_add_r by (subst e1; lia). apply pow2_mono; [done|].
      subst e1. rewrite fexp_spec in *. lia. }
    unfold ceilz. destruct (loc_exact l); lia. }
  assert (Hbra : binary_round_aux 53 1024 s m e l =
    let '(mrs, e'') := shr {| shr_m := N; shr_r := false; shr_s := false |} e1
                           (fexp 53 1024 (Zdigits2 N + e1) - e1) in
    match shr_m mrs with
    | Z0 => S754_zero s
    | Zpos p => if e'' <=? 971 then S754_finite s p e'' else S754_infinity s
    | Zneg _ => S754_nan
    end).
  { unfold binary_round_aux. unfold shr_fexp at 1. fold e1 r0. rewrite Hshr. reflexivity. }
  exists N. destruct (decide (N = 2 ^ 53)) as [HNe|HNe].
  - exists (2 ^ 52)%positive, (e1 + 1). rewrite Hbra, HNe.
    replace (Zdigits2 (2 ^ 53)) with 54 by reflexivity.
    replace (fexp 53 1024 (54 + e1) - e1) with 1 by (rewrite fexp_spec; lia).
    split; [lia|]. split; [intros K HK; apply HU in HK; lia|].
    split; [intros K HK; apply HL in HK; lia|]. split; [done|]. intros _.
    split.
    { unfold mag. replace (e1 + 1 + 1074) with (1 + (e1 + 1074)) by lia.
      rewrite Z.pow_add_r by lia. lia. }
    split; [lia|]. split; [lia|]. reflexivity.
  - assert (Hd : Zdigits2 N <= 53) by (apply Zdigits2_le; lia).
    assert (Hn2 : fexp 53 1024 (Zdigits2 N + e1) - e1 <= 0) by (rewrite fexp_spec; lia).
    exists (Z.to_pos N), e1.
    assert (Hs : shr {| shr_m := N; shr_r := false; shr_s := false |} e1
                   (fexp 53 1024 (Zdigits2 N + e1) - e1)
                 = ({| shr_m := N; shr_r := false; shr_s := false |}, e1)).
    { unfold shr. destruct (fexp 53 1024 (Zdigits2 N + e1) - e1); [done|lia|done]. }
    rewrite Hbra, Hs. cbn [shr_m].
    split; [lia|]. split; [intros K HK; apply HU in HK; lia|].
    split; [intros K HK; apply HL in HK; lia|].
    split; [by intros ->|]. intros HN0. rewrite Z2Pos.id by done.
    split; [done|]. split; [lia|]. split; [lia|].
    destruct N; [lia|done|lia].
Qed.

(** What rounding gives is a float. *)
Lemma round_valid s m e l :
  0 <= m -> e <= fexp 53 1024 (Zdigits2 m + e) ->
  SpecFloat.valid_binary 53 1024 (binary_round_aux 53 1024 s m e l) = true.
Proof.
  intros Hm He. destruct (binary_round_aux_spec s m e l Hm He) as (N & m'' & e'' & HN & HU & HL & H0 & H1).
  set (e1 := fexp 53 1024 (Zdigits2 m + e)) in *.
  assert (He1 : e1 = Z.max (Zdigits2 m + e - 53) (-1074)) by (subst e1; by rewrite fexp_spec).
  destruct (decide (N = 0)) as [HN0|HN0]; [by rewrite H0|].
  destruct H1 as (Hmag & He'' & HN53 & ->); [lia|]. destruct (Z.leb_spec e'' 971) as [Hmax|]; [|done].
  cbn. unfold bounded, canonical_mantissa. apply andb_true_intro. split; [|by apply Z.leb_le].
  apply Z.eqb_eq. rewrite fexp_spec.
  assert (Hp : 0 < 2 ^ (e1 + 1074)) by (apply pow2_pos; lia).
  assert (HNU : N <= 2 ^ 53).
  { apply HU. destruct (Zdigits2_bound m Hm) as [Hd Hd0].
    assert (2 ^ Zdigits2 m <= 2 ^ 53 * 2 ^ (e1 - e)) by (rewrite <- Z.pow_add_r by lia; apply pow2_mono; lia).
    unfold ceilz. destruct (loc_exact l); lia. }
  pose proof (digits2_pos_bound m'') as [Hlo Hhi].
  destruct (decide (e'' = e1 + 1)) as [E|E].
  - apply HN53 in E as HN'. assert (Hm'' : Zpos m'' = 2 ^ 52).
    { unfold mag in Hmag. rewrite HN', E in Hmag. replace (e1 + 1 + 1074) with (1 + (e1 + 1074)) in Hmag by lia.
      rewrite Z.pow_add_r in Hmag by lia. nia. }
    injection Hm'' as ->. change (Zpos (digits2_pos _)) with 53. lia.
  - assert (Ee : e'' = e1) by lia. assert (Hm'' : Zpos m'' = N) by (unfold mag in Hmag; rewrite Ee in Hmag; nia).
    assert (Hd : Zpos (digits2_pos m'') <= 53).
    { enough (Zpos (digits2_pos m'') - 1 < 53) by lia. apply pow2_le_inv; [lia|].
      assert (N <> 2 ^ 53) by (rewrite <- HN53; lia). lia. }
    destruct (Z.le_gt_cases (Zdigits2 m + e - 53) (-1074)) as [Hsub|Hnorm]; [lia|].
    assert (HNl : 2 ^ 52 <= N).
    { apply HL. rewrite <- Z.pow_add_r by lia. destruct m as [|p|p]; [|cbn [Zdigits2] in *|lia].
      - exfalso. apply HN0. enough (N <= 0) by lia. apply HU. cbn. destruct (loc_exact l) eqn:El; cbn; [lia|].
        exfalso. cbn [Zdigits2] in *. lia.
      - pose proof (digits2_pos_bound p) as [Hpl _]. by replace (52 + (e1 - e)) with (Zpos (digits2_pos p) - 1) by lia. }
    assert (52 < Zpos (digits2_pos m'')); [|lia]. apply pow2_le_inv; [lia|]. lia.
Qed.

(** Rounding from below a canonical float stays below it. *)
Lemma round_mag_le s m e l my ey E :
  0 <= m -> e <= fexp 53 1024 (Zdigits2 m + e) ->
  canonical my ey -> ey <= 971 -> E <= e -> E <= ey ->
  ceilz m (loc_exact l) * 2 ^ (e - E) <= Zpos my * 2 ^ (ey - E) ->
  match binary_round_aux 53 1024 s m e l with
  | S754_zero s' => s' = s
  | S754_finite s' m' e' => s' = s /\ mag (Zpos m') e' <= mag (Zpos my) ey
  | _ => False
  end.
Proof.
  intros Hm He Hc Hey HE HEy Hle.
  destruct (binary_round_aux_spec s m e l Hm He) as (N & m'' & e'' & HN & HU & _ & H0 & H1).
  set (e1 := fexp 53 1024 (Zdigits2 m + e)) in *.
  pose proof (canonical_emin _ _ Hc) as Hymin.
  assert (Hmc : m <= ceilz m (loc_exact l)) by (unfold ceilz; destruct (loc_exact l); lia).
  assert (HpE : 0 < 2 ^ (e - E)) by (apply pow2_pos; lia).
  assert (He1y : e1 <= ey).
  { destruct m as [|p|p]; [|clear HU H0 H1|lia].
    - subst e1. cbn [Zdigits2] in *. rewrite fexp_spec in *. lia.
    - rewrite <- Hc. subst e1. apply fexp_mono. cbn [Zdigits2].
      destruct (Z.le_gt_cases (Zpos (digits2_pos p) + e) (Zpos (digits2_pos my) + ey)) as [|Hgt];
        [done|exfalso].
      pose proof (digits2_pos_bound p) as Hp. pose proof (digits2_pos_bound my) as Hy.
      assert (2 ^ (Zpos (digits2_pos my) + (ey - E)) <= 2 ^ (Zpos (digits2_pos p) - 1 + (e - E)))
        by (apply pow2_mono; lia).
      rewrite !Z.pow_add_r in H by lia.
      assert (0 < 2 ^ (ey - E)) by (apply pow2_pos; lia). nia. }
  assert (HNle : N <= Zpos my * 2 ^ (ey - e1)).
  { apply HU. rewrite <- Z.mul_assoc, <- Z.pow_add_r by (subst e1; lia).
    replace (ey - e1 + (e1 - e)) with (ey - e) by lia.
    apply (Z.mul_le_mono_pos_r _ _ (2 ^ (e - E)) HpE).
    rewrite <- Z.mul_assoc, <- Z.pow_add_r by (fold e1 in He; lia).
    by replace (ey - e + (e - E)) with (ey - E) by lia. }
  destruct (decide (N = 0)) as [->|HN0]; [by rewrite H0|].
  destruct H1 as (Hmag & He'' & HN53 & ->); [lia|].
  assert (Hmle : mag N e1 <= mag (Zpos my) ey).
  { unfold mag. replace (ey + 1074) with ((ey - e1) + (e1 + 1074)) by lia.
    assert (He1m : -1074 <= e1) by (subst e1; rewrite fexp_spec; lia).
    rewrite (Z.pow_add_r 2 (ey - e1)), Z.mul_assoc by lia.
    apply Z.mul_le_mono_nonneg_r; [pose proof (pow2_pos (e1 + 1074)); lia|done]. }
  replace (e'' <=? 971) with true; [split; [done|lia]|].
  symmetry. apply Z.leb_le. destruct (decide (e'' = e1)) as [->|]; [lia|].
  assert (e'' = e1 + 1) by lia. rewrite (proj1 HN53) in HNle by done.
  assert (ey <> e1); [|lia]. intros ->. rewrite Z.sub_diag, Z.pow_0_r in HNle.
  pose proof (digits2_pos_bound my) as Hy. rewrite fexp_spec in Hc.
  assert (2 ^ Zpos (digits2_pos my) <= 2 ^ 53) by (apply pow2_mono; lia). lia.
Qed.

(** Rounding from above a canonical float stays above it. *)
Lemma round_mag_ge s m e l my ey E :
  0 <= m -> e <= fexp 53 1024 (Zdigits2 m + e) ->
  canonical my ey -> E <= e -> E <= ey ->
  Zpos my * 2 ^ (ey - E) <= m * 2 ^ (e - E) ->
  match binary_round_aux 53 1024 s m e l with
  | S754_infinity s' => s' = s
  | S754_finite s' m' e' => s' = s /\ mag (Zpos my) ey <= mag (Zpos m') e'
  | _ => False
  end.
Proof.
  intros Hm He Hc HE HEy Hle.
  destruct (binary_round_aux_spec s m e l Hm He) as (N & m'' & e'' & HN & _ & HL & H0 & H1).
  set (e1 := fexp 53 1024 (Zdigits2 m + e)) in *.
  pose proof (canonical_emin _ _ Hc) as Hymin.
  assert (He1m : -1074 <= e1) by (subst e1; rewrite fexp_spec; lia).
  assert (HpE : 0 < 2 ^ (e - E)) by (apply pow2_pos; lia).
  assert (HpY : 0 < 2 ^ (ey - E)) by (apply pow2_pos; lia).
  assert (Hmle : mag (Zpos my) ey <= mag N e1).
  { destruct (Z.le_gt_cases e1 ey) as [Hcase|Hcase].
    - unfold mag. replace (ey + 1074) with ((ey - e1) + (e1 + 1074)) by lia.
      rewrite (Z.pow_add_r 2 (ey - e1)), Z.mul_assoc by lia.
      apply Z.mul_le_mono_nonneg_r; [pose proof (pow2_pos (e1 + 1074)); lia|].
      apply HL. rewrite <- Z.mul_assoc, <- Z.pow_add_r by lia.
      replace (ey - e1 + (e1 - e)) with (ey - e) by lia.
      apply (Z.mul_le_mono_pos_r _ _ (2 ^ (e - E)) HpE).
      rewrite <- Z.mul_assoc, <- Z.pow_add_r by lia.
      by replace (ey - e + (e - E)) with (ey - E) by lia.
    - destruct (mag_digits my ey Hymin) as [_ Hyu].
      destruct m as [|p|p]; [lia| |lia].
      pose proof (digits2_pos_bound p) as Hp.
      cbn [Zdigits2] in *. rewrite fexp_spec in Hc.
      assert (He1 : e1 = Zpos (digits2_pos p) + e - 53) by (subst e1; rewrite fexp_spec in *; lia).
      assert (HN52 : 2 ^ 52 <= N).
      { apply HL. rewrite <- Z.pow_add_r by lia.
        replace (52 + (e1 - e)) with (Zpos (digits2_pos p) - 1) by lia. lia. }
      assert (2 ^ (Zpos (digits2_pos my) + (ey + 1074)) <= 2 ^ (52 + (e1 + 1074)))
        by (apply pow2_mono; subst e1; rewrite fexp_spec in *; lia).
      unfold mag at 2. rewrite (Z.pow_add_r 2 52) in H by lia.
      pose proof (pow2_pos (e1 + 1074)). nia. }
  pose proof (mag_pos my ey Hymin).
  assert (HNpos : 0 < N).
  { unfold mag in *. pose proof (pow2_pos (e1 + 1074)). nia. }
  destruct H1 as (Hmag & _ & _ & ->); [done|].
  destruct (e'' <=? 971); [split; [done|lia]|done].
Qed.

(** ** The operations *)

Lemma is_fin_not_nan x : is_fin x = true -> is_nan x = false.
Proof. rewrite not_nan_spec. unfold is_fin. by destruct (Prim2SF x). Qed.

Lemma sf_rank_bound x :
  SpecFloat.valid_binary 53 1024 x = true -> - 2 ^ 2098 <= sf_rank x <= 2 ^ 2098.
Proof.
  intros V. assert (0 < 2 ^ 2098) by (apply pow2_pos; lia).
  destruct x as [s|s| |s m e]; cbn [sf_rank]; [lia|destruct s; cbn [cond_Zopp]; lia|lia|].
  apply valid_mag in V as [_ V]. destruct s; cbn [cond_Zopp]; lia.
Qed.

Lemma is_fin_rank x :
  is_fin x = true <-> is_nan x = false /\ - 2 ^ 2098 < frank x < 2 ^ 2098.
Proof.
  rewrite not_nan_spec. unfold is_fin, frank.
  pose proof (Prim2SF_valid' x) as V. assert (0 < 2 ^ 2098) by (apply pow2_pos; lia).
  destruct (Prim2SF x) as [s|s| |s m e]; cbn [sf_rank];
    (split; [intros Hf | intros [Hn Hr]]); try discriminate; try reflexivity.
  - split; [discriminate|lia].
  - destruct s; cbn [cond_Zopp] in Hr; lia.
  - by destruct Hn.
  - split; [discriminate|]. apply valid_mag in V as [_ V]. destruct s; cbn [cond_Zopp]; lia.
Qed.

(** A rounded value keeps its sign, and is never NaN. *)
Lemma round_sign s m e l :
  0 <= m -> e <= fexp 53 1024 (Zdigits2 m + e) ->
  let r := binary_round_aux 53 1024 s m e l in
  r <> S754_nan /\ 0 <= cond_Zopp s (sf_rank r).
Proof.
  intros Hm He r. subst r.
  destruct (binary_round_aux_spec s m e l Hm He) as (N & m'' & e'' & HN & _ & _ & H0 & H1).
  destruct (decide (N = 0)) as [HN0|HN0]; [rewrite H0 by done; by destruct s|].
  destruct H1 as (Hmag & _ & _ & ->); [lia|].
  assert (0 < 2 ^ 2098) by (apply pow2_pos; lia).
  assert (0 <= mag (Zpos m'') e'').
  { unfold mag. apply Z.mul_nonneg_nonneg; [lia|]. apply Z.pow_nonneg. lia. }
  destruct (e'' <=? 971); (split; [done|]); destruct s; cbn [sf_rank cond_Zopp]; lia.
Qed.

(** Bounds on the rank of a signed rounded value. *)
Lemma round_rank_le s m e l K E :
  0 <= m -> e <= fexp 53 1024 (Zdigits2 m + e) ->
  SpecFloat.valid_binary 53 1024 (S754_finite false K.1 K.2) = true ->
  E <= e -> E <= K.2 ->
  ceilz m (loc_exact l) * 2 ^ (e - E) <= Zpos K.1 * 2 ^ (K.2 - E) ->
  cond_Zopp s (sf_rank (binary_round_aux 53 1024 s m e l)) <= mag (Zpos K.1) K.2.
Proof.
  intros Hm He V HE HEk Hle. destruct (valid_finite _ _ _ V) as [Hc He2].
  pose proof (round_mag_le s m e l _ _ E Hm He Hc He2 HE HEk Hle) as H.
  apply valid_mag in V as [_ V].
  destruct (binary_round_aux _ _ _ _ _ _) as [s'|s'| |s' m' e']; try done;
    cbn [sf_rank]; [destruct s; cbn; lia|].
  destruct H as [-> H]. destruct s; cbn [cond_Zopp]; lia.
Qed.

Lemma round_rank_ge s m e l K E :
  0 <= m -> e <= fexp 53 1024 (Zdigits2 m + e) ->
  SpecFloat.valid_binary 53 1024 (S754_finite false K.1 K.2) = true ->
  E <= e -> E <= K.2 ->
  Zpos K.1 * 2 ^ (K.2 - E) <= m * 2 ^ (e - E) ->
  mag (Zpos K.1) K.2 <= cond_Zopp s (sf_rank (binary_round_aux 53 1024 s m e l)).
Proof.
  intros Hm He V HE HEk Hle. destruct (valid_finite _ _ _ V) as [Hc He2].
  pose proof (round_mag_ge s m e l _ _ E Hm He Hc HE HEk Hle) as H.
  apply valid_mag in V as [_ V].
  destruct (binary_round_aux _ _ _ _ _ _) as [s'|s'| |s' m' e']; try done;
    cbn [sf_rank]; [subst; destruct s; cbn [cond_Zopp]; lia|].
  destruct H as [-> H]. destruct s; cbn [cond_Zopp]; lia.
Qed.

(** *** Normalisation of an integer mantissa (addition, conversion) *)

Lemma shl_align_spec m e e' :
  let '(m', f) := shl_align m e e' in
  f = Z.min e e' /\ Zpos m' = Zpos m * 2 ^ (e - f).
Proof.
  unfold shl_align. destruct (e' - e) as [|d|d] eqn:Ed.
  - split; [lia|]. rewrite Z.sub_diag, Z.pow_0_r. lia.
  - split; [lia|]. rewrite Z.sub_diag, Z.pow_0_r. lia.
  - split; [lia|]. replace (e - e') with (Zpos d) by lia. clear Ed.
    revert d. apply Pos.peano_ind; [cbn; lia|]. intros d IH.
    rewrite Pos.iter_succ, Pos2Z.inj_succ, Z.pow_succ_r by lia.
    transitivity (2 * Zpos (Pos.iter xO m d)); [reflexivity|].
    transitivity (2 * (Zpos m * 2 ^ Zpos d)); [by f_equal|lia].
Qed.

Lemma digits2_shift m m' k :
  0 <= k -> Zpos m' = Zpos m * 2 ^ k -> Zpos (digits2_pos m') = Zpos (digits2_pos m) + k.
Proof.
  intros Hk H. pose proof (digits2_pos_bound m) as A. pose proof (digits2_pos_bound m') as B.
  pose proof (pow2_pos k Hk) as Hp.
  assert (2 ^ (Zpos (digits2_pos m) - 1 + k) < 2 ^ Zpos (digits2_pos m')).
  { rewrite Z.pow_add_r by lia. nia. }
  assert (2 ^ (Zpos (digits2_pos m') - 1) < 2 ^ (Zpos (digits2_pos m) + k)).
  { rewrite Z.pow_add_r by lia. nia. }
  apply pow2_le_inv in H0; [|lia]. apply pow2_le_inv in H1; lia.
Qed.

(** [binary_round] aligns first; what it rounds has the same value. *)
Lemma binary_round_aligned s m e :
  exists m' f, binary_round 53 1024 s m e = binary_round_aux 53 1024 s (Zpos m') f loc_Exact
    /\ f <= e /\ Zpos m' = Zpos m * 2 ^ (e - f)
    /\ f <= fexp 53 1024 (Zpos (digits2_pos m') + f)
    /\ (-1074 <= e -> -1074 <= f)
    /\ (fexp 53 1024 (Zpos (digits2_pos m) + e) <= e -> canonical m' f).
Proof.
  unfold binary_round.
  pose proof (shl_align_spec m e (fexp 53 1024 (Zpos (digits2_pos m) + e))) as H.
  destruct (shl_align _ _ _) as [m' f]. destruct H as [Hf Hm'].
  exists m', f. split; [done|]. assert (f <= e) by lia. split; [done|]. split; [done|].
  rewrite (digits2_shift m m' (e - f)) by (lia || done).
  replace (Zpos (digits2_pos m) + (e - f) + f) with (Zpos (digits2_pos m) + e) by lia.
  split; [lia|]. rewrite fexp_spec in *. split; lia.
Qed.

Lemma mag_neg z e : mag (Zneg z) e = - mag (Zpos z) e.
Proof. unfold mag. rewrite <- Z.mul_opp_l. done. Qed.

Lemma normalize_bounds z e :
  -1074 <= e ->
  let r := binary_normalize 53 1024 z e false in
  r <> S754_nan /\
  (forall k, SpecFloat.valid_binary 53 1024 k = true ->
     k <> S754_nan -> (forall s, k <> S754_infinity s) ->
     (mag z e <= sf_rank k -> sf_rank r <= sf_rank k) /\
     (sf_rank k <= mag z e -> sf_rank k <= sf_rank r)).
Proof.
  intros He. cbv zeta.
  assert (Hp : 0 < 2 ^ (e + 1074)) by (apply pow2_pos; lia).
  destruct z as [|z|z]; cbn [binary_normalize].
  { split; [done|]. unfold mag. cbn [sf_rank]. intros; lia. }
  all: match goal with |- context [binary_round _ _ ?s _ _] =>
    destruct (binary_round_aligned s z e) as (m' & f & -> & Hf & Hm' & Hfe & Hmin & _);
    destruct (round_sign s (Zpos m') f loc_Exact ltac:(lia) Hfe) as [Hnn Hsg] end.
  all: assert (Hmag : mag (Zpos m') f = mag (Zpos z) e)
    by (unfold mag; rewrite Hm', <- Z.mul_assoc, <- Z.pow_add_r by lia; do 2 f_equal; lia).
  all: split; [done|]; intros k V Hkn Hki.
  all: assert (Hz : 0 < mag (Zpos z) e) by (by apply mag_pos).
  all: try rewrite mag_neg.
  all: destruct k as [s|s| |s mk ek]; cbn [sf_rank cond_Zopp] in *; try done;
       [split; lia|exfalso; by eapply Hki|].
  all: assert (V' : SpecFloat.valid_binary 53 1024 (S754_finite false mk ek) = true) by done.
  all: pose proof (canonical_emin _ _ (proj1 (valid_finite _ _ _ V'))) as Hek.
  all: pose proof (fun s => round_rank_le s (Zpos m') f loc_Exact (mk, ek) (-1074) ltac:(lia) Hfe V'
         ltac:(lia) Hek) as HA.
  all: pose proof (fun s => round_rank_ge s (Zpos m') f loc_Exact (mk, ek) (-1074) ltac:(lia) Hfe V'
         ltac:(lia) Hek) as HB.
  all: cbn [fst snd ceilz loc_exact] in HA, HB.
  all: change (f - -1074) with (f + 1074) in HA, HB;
       change (ek - -1074) with (ek + 1074) in HA, HB.
  all: change (Zpos m' * 2 ^ (f + 1074)) with (mag (Zpos m') f) in HA, HB;
       change (Zpos mk * 2 ^ (ek + 1074)) with (mag (Zpos mk) ek) in HA, HB.
  all: apply valid_mag in V' as [_ V'].
  - specialize (HA false). specialize (HB false). cbn [cond_Zopp] in *.
    destruct s; cbn [cond_Zopp]; split; intros; try lia.
  - specialize (HA true). specialize (HB true). cbn [cond_Zopp] in *.
    destruct s; cbn [cond_Zopp]; split; intros; try lia.
Qed.

(** *** Addition and subtraction *)

Lemma is_fin_cases x :
  is_fin x = true ->
  (exists s, Prim2SF x = S754_zero s) \/
  (exists s m e, Prim2SF x = S754_finite s m e).
Proof. unfold is_fin. destruct (Prim2SF x); naive_solver. Qed.

Lemma fin_valid x s m e :
  Prim2SF x = S754_finite s m e ->
  SpecFloat.valid_binary 53 1024 (S754_finite s m e) = true /\ -1074 <= e.
Proof.
  intros H. pose proof (Prim2SF_valid' x) as V. rewrite H in V.
  split; [done|]. by apply (canonical_emin m), (valid_finite s).
Qed.

Lemma is_fin_K K :
  is_fin K = true ->
  SpecFloat.valid_binary 53 1024 (Prim2SF K) = true /\
  Prim2SF K <> S754_nan /\ (forall s, Prim2SF K <> S754_infinity s).
Proof.
  intros H. split; [apply Prim2SF_valid'|].
  unfold is_fin in H. by destruct (Prim2SF K).
Qed.

(** [r] is [exact] correctly rounded, as seen by the finite floats. *)
Definition rounds_to (r : float) (exact : Z) : Prop :=
  is_nan r = false /\
  (forall K, is_fin K = true -> exact <= frank K -> frank r <= frank K) /\
  (forall K, is_fin K = true -> frank K <= exact -> frank K <= frank r).

Lemma rounds_to_exact r z : is_nan r = false -> frank r = z -> rounds_to r z.
Proof. intros Hn <-. split; [done|]. split; intros; lia. Qed.

Lemma rounds_to_normalize r z e :
  -1074 <= e -> Prim2SF r = binary_normalize 53 1024 z e false -> rounds_to r (mag z e).
Proof.
  intros He Hr. destruct (normalize_bounds z e He) as [Hn Hk].
  unfold rounds_to, frank. rewrite not_nan_spec, Hr. split; [done|].
  split; intros K HK Hle; destruct (is_fin_K K HK) as (V & Hkn & Hki).
  - by apply (Hk _ V Hkn Hki).
  - by apply (Hk _ V Hkn Hki).
Qed.

Lemma normalize_valid z e : SpecFloat.valid_binary 53 1024 (binary_normalize 53 1024 z e false) = true.
Proof.
  destruct z as [|z|z]; cbn [binary_normalize]; [done| |];
    match goal with |- context [binary_round _ _ ?s _ _] =>
      destruct (binary_round_aligned s z e) as (m' & f & -> & _ & _ & Hfe & _) end;
    by apply round_valid.
Qed.

(** The float nearest to [m * 2^e], to even. *)
Definition nearest (m e : Z) : float := SF2Prim (binary_normalize 53 1024 m e false).

Lemma nearest_rounds m e : -1074 <= e -> rounds_to (nearest m e) (mag m e).
Proof. intros He. apply rounds_to_normalize; [done|]. apply Prim2SF_SF2Prim, normalize_valid. Qed.

Lemma align_mag m e ez :
  -1074 <= ez -> ez <= e -> Zpos (fst (shl_align m e ez)) * 2 ^ (ez + 1074) = mag (Zpos m) e.
Proof.
  intros Hz Hle. pose proof (shl_align_spec m e ez) as H.
  destruct (shl_align m e ez) as [m' f]. destruct H as [-> H]. cbn [fst].
  replace (Z.min e ez) with ez in H by lia. unfold mag.
  rewrite H, <- Z.mul_assoc, <- Z.pow_add_r by lia. do 2 f_equal. lia.
Qed.

Lemma cond_Zopp_mul s a b : cond_Zopp s a * b = cond_Zopp s (a * b).
Proof. destruct s; cbn [cond_Zopp]; lia. Qed.

Theorem fadd_rounds x y :
  is_fin x = true -> is_fin y = true -> rounds_to (x + y)%float (frank x + frank y).
Proof.
  intros Hx Hy.
  destruct (is_fin_cases x Hx) as [[sx Ex]|(sx & mx & ex & Ex)];
  destruct (is_fin_cases y Hy) as [[sy Ey]|(sy & my & ey & Ey)].
  1-3: apply rounds_to_exact; [apply not_nan_spec|unfold frank];
       rewrite FloatAxioms.add_spec, Ex, Ey; unfold SF64add; cbn [SFadd];
       repeat match goal with s : bool |- _ => destruct s end; cbn [sf_rank]; (done || lia).
  destruct (fin_valid _ _ _ _ Ex) as [_ Hex]. destruct (fin_valid _ _ _ _ Ey) as [_ Hey].
  unfold frank at 1 2. rewrite Ex, Ey. cbn [sf_rank].
  rewrite <- (align_mag mx ex (Z.min ex ey)), <- (align_mag my ey (Z.min ex ey)) by lia.
  rewrite <- !cond_Zopp_mul, <- Z.mul_add_distr_r.
  apply rounds_to_normalize; [lia|]. by rewrite FloatAxioms.add_spec, Ex, Ey.
Qed.

Theorem fsub_rounds x y :
  is_fin x = true -> is_fin y = true -> rounds_to (x - y)%float (frank x - frank y).
Proof.
  intros Hx Hy.
  destruct (is_fin_cases x Hx) as [[sx Ex]|(sx & mx & ex & Ex)];
  destruct (is_fin_cases y Hy) as [[sy Ey]|(sy & my & ey & Ey)].
  1-3: apply rounds_to_exact; [apply not_nan_spec|unfold frank];
       rewrite FloatAxioms.sub_spec, Ex, Ey; unfold SF64sub; cbn [SFsub];
       repeat match goal with s : bool |- _ => destruct s end;
       cbn [sf_rank cond_Zopp negb]; (done || lia).
  destruct (fin_valid _ _ _ _ Ex) as [_ Hex]. destruct (fin_valid _ _ _ _ Ey) as [_ Hey].
  unfold frank at 1 2. rewrite Ex, Ey. cbn [sf_rank].
  rewrite <- (align_mag mx ex (Z.min ex ey)), <- (align_mag my ey (Z.min ex ey)) by lia.
  rewrite <- !cond_Zopp_mul, <- Z.mul_sub_distr_r.
  apply rounds_to_normalize; [lia|]. by rewrite FloatAxioms.sub_spec, Ex, Ey.
Qed.

(** *** Multiplication and division *)

Lemma mul_exponent mx ex my ey :
  canonical mx ex -> canonical my ey ->
  ex + ey <= fexp 53 1024 (Zdigits2 (Zpos (mx * my)) + (ex + ey)).
Proof.
  intros Hx Hy. rewrite fexp_spec in *. cbn [Zdigits2].
  pose proof (digits2_pos_bound mx). pose proof (digits2_pos_bound my).
  pose proof (digits2_pos_bound (mx * my)).
  enough (Zpos (digits2_pos mx) - 1 + (Zpos (digits2_pos my) - 1)
          < Zpos (digits2_pos (mx * my))) by lia.
  apply pow2_le_inv; [lia|]. rewrite Z.pow_add_r by lia.
  rewrite Pos2Z.inj_mul in *.
  assert (0 < 2 ^ (Zpos (digits2_pos mx) - 1)) by (apply pow2_pos; lia).
  assert (0 < 2 ^ (Zpos (digits2_pos my) - 1)) by (apply pow2_pos; lia).
  nia.
Qed.

Lemma frank_nonneg_cases x :
  is_fin x = true -> 0 <= frank x ->
  (exists s, Prim2SF x = S754_zero s) \/
  (exists m e, Prim2SF x = S754_finite false m e /\
     SpecFloat.valid_binary 53 1024 (S754_finite false m e) = true /\
     canonical m e /\ -1074 <= e).
Proof.
  intros Hx Hr. destruct (is_fin_cases x Hx) as [[s E]|(s & m & e & E)]; [by eauto|right].
  destruct (fin_valid _ _ _ _ E) as [V He]. pose proof (mag_pos m e He).
  unfold frank in Hr. rewrite E in Hr. cbn [sf_rank] in Hr.
  destruct s; cbn [cond_Zopp] in Hr; [lia|].
  exists m, e. by destruct (valid_finite _ _ _ V).
Qed.

Lemma pow2_split a b c : 0 <= a -> 0 <= b -> c = a + b -> 2 ^ c = 2 ^ a * 2 ^ b.
Proof. intros ? ? ->. by apply Z.pow_add_r. Qed.

(** A product of nonnegative finite floats is nonnegative and not NaN, and
    is below a finite float the exact product is below. *)
Theorem fmul_bounds x y :
  is_fin x = true -> is_fin y = true -> 0 <= frank x -> 0 <= frank y ->
  is_nan (x * y)%float = false /\ 0 <= frank (x * y)%float /\
  (forall K, is_fin K = true -> frank x * frank y <= frank K * 2 ^ 1074 ->
     frank (x * y)%float <= frank K).
Proof.
  intros Hx Hy Hx0 Hy0.
  destruct (frank_nonneg_cases x Hx Hx0) as [[sx Ex]|(mx & ex & Ex & Vx & Cx & Hex)];
  destruct (frank_nonneg_cases y Hy Hy0) as [[sy Ey]|(my & ey & Ey & Vy & Cy & Hey)].
  1-3: rewrite not_nan_spec; unfold frank in *; rewrite FloatAxioms.mul_spec;
       rewrite Ex, Ey in *; unfold SF64mul; cbn [SFmul sf_rank cond_Zopp] in *;
       (split; [done|]; split; [done|]); intros K HK HKle;
       pose proof (pow2_pos 1074 ltac:(lia)); nia.
  pose proof (mul_exponent mx ex my ey Cx Cy) as Hfe.
  assert (Hmul : Prim2SF (x * y)%float =
    binary_round_aux 53 1024 false (Zpos (mx * my)) (ex + ey) loc_Exact)
    by (by rewrite FloatAxioms.mul_spec, Ex, Ey).
  destruct (round_sign false (Zpos (mx * my)) (ex + ey) loc_Exact ltac:(lia) Hfe) as [Hn Hs].
  assert (Hfr : frank (x * y)%float =
    sf_rank (binary_round_aux 53 1024 false (Zpos (mx * my)) (ex + ey) loc_Exact))
    by (unfold frank; by rewrite Hmul).
  rewrite not_nan_spec, Hfr, Hmul.
  split; [done|]. split; [exact Hs|]. intros K HK HKle.
  assert (Hxy : frank x * frank y = Zpos (mx * my) * 2 ^ (ex + ey + 2148)).
  { unfold frank. rewrite Ex, Ey. cbn [sf_rank cond_Zopp]. unfold mag.
    rewrite (pow2_split (ex + 1074) (ey + 1074) (ex + ey + 2148)) by lia. lia. }
  pose proof (pow2_pos (ex + ey + 2148) ltac:(lia)) as Hp.
  pose proof (pow2_pos 1074 ltac:(lia)) as Hp2.
  assert (HK0 : 0 < frank K * 2 ^ 1074) by (rewrite Hxy in HKle; nia).
  destruct (frank_nonneg_cases K HK) as [[sk Ek]|(mk & ek & Ek & Vk & Ck & Hek)]; [nia| |].
  { exfalso. unfold frank in HK0. rewrite Ek in HK0. cbn [sf_rank] in HK0. lia. }
  assert (HfK : frank K = mag (Zpos mk) ek) by (unfold frank; by rewrite Ek).
  rewrite HfK.
  apply (round_rank_le false (Zpos (mx * my)) (ex + ey) loc_Exact (mk, ek) (-2148));
    try (cbn [snd fst]; lia); try done.
  cbn [fst snd ceilz loc_exact].
  change (ex + ey - -2148) with (ex + ey + 2148). change (ek - -2148) with (ek + 2148).
  rewrite <- Hxy. etransitivity; [exact HKle|]. rewrite HfK. unfold mag.
  rewrite (pow2_split (ek + 1074) 1074 (ek + 2148)) by lia. lia.
Qed.

(** And it is above a finite float the exact product is above. *)
Theorem fmul_ge x y K :
  is_fin x = true -> is_fin y = true -> 0 <= frank x -> 0 <= frank y ->
  is_fin K = true -> frank K * 2 ^ 1074 <= frank x * frank y -> frank K <= frank (x * y)%float.
Proof.
  intros Hx Hy Hx0 Hy0 HK HKle.
  destruct (fmul_bounds x y Hx Hy Hx0 Hy0) as (_ & H0 & _).
  destruct (Z.leb_spec (frank K) 0) as [Hk0|Hk0]; [lia|].
  pose proof (pow2_pos 1074 ltac:(lia)) as Hp2.
  destruct (frank_nonneg_cases x Hx Hx0) as [[sx Ex]|(mx & ex & Ex & Vx & Cx & Hex)];
  destruct (frank_nonneg_cases y Hy Hy0) as [[sy Ey]|(my & ey & Ey & Vy & Cy & Hey)].
  1-3: exfalso; unfold frank in HKle at 2 3; rewrite Ex, Ey in HKle;
       cbn [sf_rank cond_Zopp] in HKle; nia.
  pose proof (mul_exponent mx ex my ey Cx Cy) as Hfe.
  assert (Hmul : Prim2SF (x * y)%float =
    binary_round_aux 53 1024 false (Zpos (mx * my)) (ex + ey) loc_Exact)
    by (by rewrite FloatAxioms.mul_spec, Ex, Ey).
  unfold frank at 2. rewrite Hmul.
  assert (Hxy : frank x * frank y = Zpos (mx * my) * 2 ^ (ex + ey + 2148)).
  { unfold frank. rewrite Ex, Ey. cbn [sf_rank cond_Zopp]. unfold mag.
    rewrite (pow2_split (ex + 1074) (ey + 1074) (ex + ey + 2148)) by lia. lia. }
  destruct (frank_nonneg_cases K HK) as [[sk Ek]|(mk & ek & Ek & Vk & Ck & Hek)]; [lia| |].
  { exfalso. unfold frank in Hk0. rewrite Ek in Hk0. cbn [sf_rank] in Hk0. lia. }
  assert (HfK : frank K = mag (Zpos mk) ek) by (unfold frank; by rewrite Ek).
  rewrite HfK.
  apply (round_rank_ge false (Zpos (mx * my)) (ex + ey) loc_Exact (mk, ek) (-2148));
    try (cbn [snd fst]; lia); try done.
  cbn [fst snd].
  change (ex + ey - -2148) with (ex + ey + 2148). change (ek - -2148) with (ek + 2148).
  rewrite <- Hxy. etransitivity; [|exact HKle]. rewrite HfK. unfold mag.
  rewrite (pow2_split (ek + 1074) 1074 (ek + 2148)) by lia. lia.
Qed.

(** Scaling a nonnegative float by a factor of at most one. *)
Lemma frank_one : frank 1%float = 2 ^ 1074.
Proof. vm_compute. reflexivity. Qed.

Lemma frank_zero : frank 0%float = 0.
Proof. reflexivity. Qed.

Lemma fmul_unit p x :
  is_fin x = true -> is_fin p = true -> 0 <= frank x -> 0 <= frank p <= frank 1%float ->
  is_fin (p * x)%float = true /\ 0 <= frank (p * x)%float <= frank x.
Proof.
  rewrite frank_one. intros Hx Hp Hx0 Hp0.
  destruct (fmul_bounds p x Hp Hx ltac:(lia) Hx0) as (Hn & H0 & HK).
  specialize (HK x Hx ltac:(nia)). split; [|done].
  apply is_fin_rank. split; [done|]. apply is_fin_rank in Hx. lia.
Qed.

(** A sum of nonnegative finite floats is nonnegative and not NaN. *)
Lemma fadd_nonneg x y :
  is_fin x = true -> is_fin y = true -> 0 <= frank x -> 0 <= frank y ->
  is_nan (x + y)%float = false /\ frank x <= frank (x + y)%float
    /\ frank y <= frank (x + y)%float.
Proof.
  intros Hx Hy Hx0 Hy0. destruct (fadd_rounds x y Hx Hy) as (Hn & _ & Hge).
  split; [done|]. split; apply Hge; (done || lia).
Qed.

(** [x - y] for [0 <= y <= x]. *)
Lemma fsub_le x y :
  is_fin x = true -> is_fin y = true -> 0 <= frank y <= frank x ->
  is_fin (x - y)%float = true /\ 0 <= frank (x - y)%float <= frank x.
Proof.
  intros Hx Hy Hr. destruct (fsub_rounds x y Hx Hy) as (Hn & Hle & Hge).
  specialize (Hle x Hx ltac:(lia)).
  specialize (Hge 0%float ltac:(reflexivity) ltac:(rewrite frank_zero; lia)).
  rewrite frank_zero in Hge. split; [|lia].
  apply is_fin_rank. split; [done|]. apply is_fin_rank in Hx. lia.
Qed.

(** The quotient's mantissa, exponent and location. *)
Lemma div_core_spec mx ex my ey :
  canonical mx ex -> canonical my ey ->
  let '(q, e, l) := SFdiv_core_binary 53 1024 (Zpos mx) ex (Zpos my) ey in
  exists m', 0 <= q /\ e <= ex - ey /\ m' = Zpos mx * 2 ^ (ex - ey - e) /\
    (forall K, m' <= K * Zpos my -> ceilz q (loc_exact l) <= K) /\
    e <= fexp 53 1024 (Zdigits2 q + e) /\ q * Zpos my <= m'.
Proof.
  intros Cx Cy. unfold SFdiv_core_binary. cbv zeta. cbn [Zdigits2].
  set (d1 := Zpos (digits2_pos mx)). set (d2 := Zpos (digits2_pos my)).
  set (e := Z.min _ _).
  assert (He : e <= ex - ey) by lia.
  assert (Hef : e <= fexp 53 1024 (d1 + ex - (d2 + ey))) by lia.
  clearbody e. set (m' := match ex - ey - e with Z0 => _ | Zpos _ => _ | Zneg _ => _ end).
  assert (Hm' : m' = Zpos mx * 2 ^ (ex - ey - e)).
  { subst m'. destruct (ex - ey - e) eqn:Ed; [by rewrite Z.pow_0_r, Z.mul_1_r| |lia].
    by rewrite Z.shiftl_mul_pow2 by lia. }
  clearbody m'.
  pose proof (Z.div_eucl_eq m' (Zpos my) ltac:(lia)) as Hq.
  pose proof (Z.mod_pos_bound m' (Zpos my) ltac:(lia)) as Hr. unfold Z.modulo in Hr.
  destruct (Z.div_eucl m' (Zpos my)) as [q r]. exists m'.
  assert (Hpow : 0 < 2 ^ (ex - ey - e)) by (apply pow2_pos; lia).
  assert (Hq0 : 0 <= q) by nia.
  split; [done|]. split; [done|]. split; [done|]. split; [|split; [|nia]].
  - intros K HK. unfold new_location, new_location_even, new_location_odd, ceilz.
    destruct (Z.even _); cbv beta;
      (destruct (Z.eqb_spec r 0) as [->|Hr0]; cbn [loc_exact]; nia).
  - etransitivity; [exact Hef|]. apply fexp_mono.
    destruct (Zdigits2_bound q Hq0) as [Hqd Hqd0].
    destruct (Z.le_gt_cases (d1 + (ex - ey - e)) d2) as [|Hgt]; [lia|].
    enough (d1 - 1 + (ex - ey - e) < Zdigits2 q + d2) by lia.
    apply pow2_le_inv; [lia|]. rewrite !Z.pow_add_r by lia.
    pose proof (digits2_pos_bound mx). pose proof (digits2_pos_bound my).
    fold d1 in H. fold d2 in H0.
    assert (m' < (q + 1) * Zpos my) by nia.
    assert ((q + 1) * Zpos my < 2 ^ Zdigits2 q * 2 ^ d2) by nia. nia.
Qed.

(** A quotient of a nonnegative by a positive finite float is nonnegative and
    not NaN, and is below a finite float the exact quotient is below. *)
Theorem fdiv_bounds x y :
  is_fin x = true -> is_fin y = true -> 0 <= frank x -> 0 < frank y ->
  is_nan (x / y)%float = false /\ 0 <= frank (x / y)%float /\
  (forall K, is_fin K = true -> frank x * 2 ^ 1074 <= frank K * frank y ->
     frank (x / y)%float <= frank K).
Proof.
  intros Hx Hy Hx0 Hy0. pose proof (pow2_pos 1074 ltac:(lia)) as Hp.
  destruct (frank_nonneg_cases y Hy ltac:(lia)) as [[sy Ey]|(my & ey & Ey & Vy & Cy & Hey)].
  { unfold frank in Hy0. rewrite Ey in Hy0. cbn [sf_rank] in Hy0. lia. }
  destruct (frank_nonneg_cases x Hx Hx0) as [[sx Ex]|(mx & ex & Ex & Vx & Cx & Hex)].
  { assert (Hz : Prim2SF (x / y)%float = S754_zero (xorb sx false))
      by (by rewrite FloatAxioms.div_spec, Ex, Ey).
    rewrite not_nan_spec. assert (Hf : frank (x / y)%float = 0) by (unfold frank; by rewrite Hz).
    rewrite Hf, Hz. split; [done|]. split; [done|]. intros K HK HKle.
    assert (frank x = 0) by (unfold frank; by rewrite Ex). nia. }
  assert (Hdiv : Prim2SF (x / y)%float =
    let '(q, e, l) := SFdiv_core_binary 53 1024 (Zpos mx) ex (Zpos my) ey in
    binary_round_aux 53 1024 false q e l)
    by (by rewrite FloatAxioms.div_spec, Ex, Ey).
  pose proof (div_core_spec mx ex my ey Cx Cy) as Hcore.
  destruct (SFdiv_core_binary _ _ _ _ _ _) as [[q e] l].
  destruct Hcore as (m' & Hq0 & He & Hm' & HU & Hfe & Hqm).
  destruct (round_sign false q e l Hq0 Hfe) as [Hn Hs].
  assert (Hfr : frank (x / y)%float = sf_rank (binary_round_aux 53 1024 false q e l))
    by (unfold frank; by rewrite Hdiv).
  rewrite not_nan_spec, Hfr, Hdiv.
  split; [done|]. split; [exact Hs|]. intros K HK HKle.
  assert (Hxr : frank x = mag (Zpos mx) ex) by (unfold frank; by rewrite Ex).
  assert (Hyr : frank y = mag (Zpos my) ey) by (unfold frank; by rewrite Ey).
  pose proof (mag_pos mx ex Hex) as Hmx. pose proof (mag_pos my ey Hey) as Hmy.
  rewrite Hxr, Hyr in *.
  destruct (frank_nonneg_cases K HK) as [[sk Ek]|(mk & ek & Ek & Vk & Ck & Hek)]; [nia| |].
  { exfalso. assert (frank K = 0) by (unfold frank; by rewrite Ek). nia. }
  assert (HfK : frank K = mag (Zpos mk) ek) by (unfold frank; by rewrite Ek).
  rewrite HfK in *. unfold mag in HKle.
  assert (HKle' : Zpos mx * 2 ^ (ex + 2148) <= Zpos mk * Zpos my * 2 ^ (ek + ey + 2148)).
  { rewrite (pow2_split (ex + 1074) 1074 (ex + 2148)) by lia.
    rewrite (pow2_split (ek + 1074) (ey + 1074) (ek + ey + 2148)) by lia. lia. }
  assert (Hd : Zpos mx * 2 ^ (ex + 2148) = m' * 2 ^ (e + ey + 2148) \/ e + ey + 2148 < 0).
  { destruct (Z.le_gt_cases 0 (e + ey + 2148)); [left|by right]. rewrite Hm'.
    rewrite (pow2_split (ex - ey - e) (e + ey + 2148) (ex + 2148)) by lia. lia. }
  assert (Heke : e <= ek).
  { destruct (Z.le_gt_cases e ek) as [|Hgt]; [done|exfalso].
    destruct Hd as [Hd|?]; [|lia]. rewrite Hd in HKle'.
    rewrite (pow2_split (e - ek) (ek + ey + 2148) (e + ey + 2148)) in HKle' by lia.
    pose proof (pow2_pos (ek + ey + 2148) ltac:(lia)) as Hp1.
    pose proof (pow2_pos (e - ek) ltac:(lia)) as Hp2.
    assert (Hq : q * 2 ^ (e - ek) <= Zpos mk).
    { apply (Z.mul_le_mono_pos_r _ _ (Zpos my)); [lia|].
      apply (Z.mul_le_mono_pos_r _ _ _ Hp1). etransitivity; [|exact HKle'].
      replace (q * 2 ^ (e - ek) * Zpos my * 2 ^ (ek + ey + 2148))
        with (q * Zpos my * (2 ^ (e - ek) * 2 ^ (ek + ey + 2148))) by lia.
      apply Z.mul_le_mono_nonneg_r; [|done].
      apply Z.mul_nonneg_nonneg; lia. }
    pose proof (digits2_pos_bound mk) as Hk. rewrite fexp_spec in Ck.
    destruct q as [|q|q]; [cbn [Zdigits2] in Hfe; rewrite fexp_spec in Hfe; lia| |lia].
    cbn [Zdigits2] in Hfe. pose proof (digits2_pos_bound q) as Hqd.
    assert (2 ^ (Zpos (digits2_pos q) - 1 + (e - ek)) < 2 ^ Zpos (digits2_pos mk))
      by (rewrite Z.pow_add_r by lia; nia).
    apply pow2_le_inv in H; [|lia]. rewrite fexp_spec in Hfe. lia. }
  assert (Hceil : ceilz q (loc_exact l) <= Zpos mk * 2 ^ (ek - e)).
  { apply HU.
    assert (HKm : m' * 2 ^ (Z.max 0 (e + ey + 2148)) <=
                  Zpos mk * 2 ^ (ek - e) * Zpos my * 2 ^ (Z.max 0 (e + ey + 2148))).
    { destruct (Z.le_gt_cases 0 (e + ey + 2148)).
      - rewrite Z.max_r by done. destruct Hd as [Hd|?]; [|lia]. rewrite <- Hd.
        rewrite (pow2_split (ek - e) (e + ey + 2148) (ek + ey + 2148)) in HKle' by lia. lia.
      - rewrite Z.max_l, Z.pow_0_r, !Z.mul_1_r by lia. rewrite Hm'.
        rewrite (pow2_split (ex + 2148) (- (e + ey + 2148)) (ex - ey - e)) by lia.
        rewrite (pow2_split (ek + ey + 2148) (- (e + ey + 2148)) (ek - e)) by lia.
        pose proof (pow2_pos (- (e + ey + 2148)) ltac:(lia)). nia. }
    pose proof (pow2_pos (Z.max 0 (e + ey + 2148)) ltac:(lia)). nia. }
  apply (round_rank_le false q e l (mk, ek) (Z.min e (-1074)));
    try (cbn [snd fst]; lia); try done.
  cbn [fst snd].
  rewrite (pow2_split (ek - e) (e - Z.min e (-1074)) (ek - Z.min e (-1074))) by lia.
  pose proof (pow2_pos (e - Z.min e (-1074)) ltac:(lia)). nia.
Qed.

(** *** Conversion of integers *)

Lemma opp_rank x : frank (- x)%float = - frank x /\ is_nan (- x)%float = is_nan x.
Proof.
  assert (H : Prim2SF (- x)%float = SFopp (Prim2SF x)) by apply FloatAxioms.opp_spec.
  split.
  - unfold frank. rewrite H. destruct (Prim2SF x) as [s|s| |s m e]; try done;
      destruct s; cbn [SFopp sf_rank negb cond_Zopp]; lia.
  - destruct (is_nan x) eqn:E.
    + apply is_nan_spec in E. apply is_nan_spec. by rewrite H, E.
    + apply not_nan_spec in E. apply not_nan_spec. rewrite H. by destruct (Prim2SF x).
Qed.

Lemma rounds_to_opp r z : rounds_to r z -> rounds_to (- r)%float (- z).
Proof.
  intros (Hn & Hle & Hge). destruct (opp_rank r) as [Hr Hnr].
  split; [congruence|]. rewrite Hr.
  split; intros K HK H; destruct (opp_rank K) as [HrK HnK].
  - specialize (Hge (- K)%float). rewrite HrK in Hge.
    enough (- frank K <= frank r) by lia. apply Hge; [|lia].
    apply is_fin_rank in HK. apply is_fin_rank. rewrite HrK, HnK. split; [apply HK|lia].
  - specialize (Hle (- K)%float). rewrite HrK in Hle.
    enough (frank r <= - frank K) by lia. apply Hle; [|lia].
    apply is_fin_rank in HK. apply is_fin_rank. rewrite HrK, HnK. split; [apply HK|lia].
Qed.

Theorem float_of_int_rounds z : in_int64 z -> rounds_to (float_of_int z) (z * 2 ^ 1074).
Proof.
  unfold in_int64, min_int64, max_int64. intros Hz.
  assert (Hpos : forall n, 0 <= n < 2 ^ 63 ->
    rounds_to (of_uint63 (Uint63.of_Z n)) (n * 2 ^ 1074)).
  { intros n Hn. change (n * 2 ^ 1074) with (mag n 0). apply rounds_to_normalize; [lia|].
    rewrite of_uint63_spec, Uint63.of_Z_spec. rewrite Z.mod_small; [done|exact Hn]. }
  unfold float_of_int. destruct (Z.eqb_spec z min_int64) as [->|Hmin].
  { apply rounds_to_exact; [reflexivity|]. vm_compute. reflexivity. }
  unfold min_int64 in Hmin. destruct (Z.ltb_spec z 0).
  - replace (z * 2 ^ 1074) with (- (- z * 2 ^ 1074)) by lia.
    apply rounds_to_opp, Hpos. lia.
  - apply Hpos. lia.
Qed.

(** Positive integers convert to positive finite floats. *)
Lemma float_of_int_fin z : in_int64 z -> is_fin (float_of_int z) = true.
Proof.
  intros Hz. pose proof (float_of_int_rounds z Hz) as (Hn & Hle & Hge).
  apply is_fin_rank. split; [done|].
  assert (H1 : frank 0x1p63%float = 2 ^ 63 * 2 ^ 1074) by (vm_compute; reflexivity).
  assert (H2 : frank (- 0x1p63)%float = - (2 ^ 63 * 2 ^ 1074)) by (vm_compute; reflexivity).
  unfold in_int64, min_int64, max_int64 in Hz.
  specialize (Hle 0x1p63%float ltac:(reflexivity) ltac:(rewrite H1; lia)).
  specialize (Hge (- 0x1p63)%float ltac:(reflexivity) ltac:(rewrite H2; lia)).
  rewrite H1 in Hle. rewrite H2 in Hge. lia.
Qed.

Lemma float_of_int_nonneg z : in_int64 z -> 0 <= z -> 0 <= frank (float_of_int z).
Proof.
  intros Hz H0. destruct (float_of_int_rounds z Hz) as (_ & _ & Hge).
  specialize (Hge 0%float ltac:(reflexivity) ltac:(rewrite frank_zero; lia)).
  by rewrite frank_zero in Hge.
Qed.

Lemma float_of_int_pos z : in_int64 z -> 1 <= z -> frank 1%float <= frank (float_of_int z).
Proof.
  intros Hz H0. destruct (float_of_int_rounds z Hz) as (_ & _ & Hge).
  apply Hge; [reflexivity|]. rewrite frank_one. lia.
Qed.

(** Integers below 2^53 convert exactly. *)
Lemma int_representable z :
  0 <= z < 2 ^ 53 -> exists K, is_fin K = true /\ frank K = z * 2 ^ 1074.
Proof.
  intros Hz. destruct (decide (z = 0)) as [->|Hnz]; [by exists 0%float|].
  destruct z as [|p|p]; [done| |lia].
  pose proof (digits2_pos_bound p) as [Hlo _].
  assert (Hd : Zpos (digits2_pos p) - 1 < 53) by (apply pow2_le_inv; lia).
  set (k := 53 - Zpos (digits2_pos p)). pose proof (pow2_pos k ltac:(lia)) as Hp.
  set (m := Z.to_pos (Zpos p * 2 ^ k)).
  assert (Hm : Zpos m = Zpos p * 2 ^ k) by (unfold m; rewrite Z2Pos.id; lia).
  pose proof (digits2_shift p m k ltac:(lia) Hm) as Hdm.
  assert (V : SpecFloat.valid_binary 53 1024 (S754_finite false m (- k)) = true).
  { cbn. unfold bounded, canonical_mantissa.
    apply andb_true_intro. split.
    - apply Z.eqb_eq. rewrite fexp_spec. lia.
    - apply Z.leb_le. lia. }
  exists (SF2Prim (S754_finite false m (- k))). unfold is_fin, frank.
  rewrite Prim2SF_SF2Prim by done. split; [done|]. cbn [sf_rank cond_Zopp]. unfold mag.
  rewrite Hm, <- Z.mul_assoc, <- Z.pow_add_r by lia. do 2 f_equal. lia.
Qed.

Lemma float_of_int_exact z : 0 <= z < 2 ^ 53 -> frank (float_of_int z) = z * 2 ^ 1074.
Proof.
  intros Hz. destruct (int_representable z Hz) as (K & HK & Hr).
  destruct (float_of_int_rounds z) as (_ & Hle & Hge);
    [unfold in_int64, min_int64, max_int64; lia|].
  specialize (Hle K HK ltac:(lia)). specialize (Hge K HK ltac:(lia)). lia.
Qed.

(** ** The unit interval *)

Definition in_unit (x : float) : bool := (0 <=? x)%float && (x <=? 1)%float.

(** The clamp every package of the program writes for itself. *)
Definition clamp_unit (v : float) : float :=
  if (v <? 0)%float then 0%float else if (1 <? v)%float then 1%float else v.

Lemma is_fin_between x :
  is_nan x = false -> 0 <= frank x <= frank 1%float -> is_fin x = true.
Proof.
  intros Hn Hr. apply is_fin_rank. split; [done|].
  assert (is_fin 1%float = true) as H1 by reflexivity.
  apply is_fin_rank in H1 as [_ H1]. lia.
Qed.

Lemma in_unit_rank x :
  in_unit x = true <-> is_nan x = false /\ 0 <= frank x <= frank 1%float.
Proof.
  unfold in_unit. split.
  - intros [H0 H1]%andb_prop. destruct (fleb_not_nan _ _ H0) as [_ Hn].
    split; [done|]. rewrite fleb_rank in H0, H1 by done.
    rewrite frank_zero in H0. lia.
  - intros [Hn Hr]. rewrite !fleb_rank by done. rewrite frank_zero. lia.
Qed.

Lemma in_unit_fin x : in_unit x = true -> is_fin x = true.
Proof. rewrite in_unit_rank. intros [? ?]. by apply is_fin_between. Qed.

Lemma clamp_unit_in v : is_nan v = false -> in_unit (clamp_unit v) = true.
Proof.
  intros Hn. unfold clamp_unit. destruct (v <? 0)%float eqn:E0; [reflexivity|].
  destruct (1 <? v)%float eqn:E1; [reflexivity|].
  apply in_unit_rank. split; [done|].
  rewrite fltb_rank in E0, E1 by done. rewrite frank_zero in E0. lia.
Qed.

Lemma clamp_unit_id v : in_unit v = true -> clamp_unit v = v.
Proof.
  intros [Hn Hr]%in_unit_rank. unfold clamp_unit. rewrite !fltb_rank by done.
  rewrite frank_zero. destruct (Z.ltb_spec (frank v) 0); [lia|].
  by destruct (Z.ltb_spec (frank 1%float) (frank v)); [lia|].
Qed.

Lemma fmul_in_unit p x : in_unit p = true -> in_unit x = true -> in_unit (p * x)%float = true.
Proof.
  intros Hp Hx. pose proof (in_unit_fin _ Hp). pose proof (in_unit_fin _ Hx).
  apply in_unit_rank in Hp as [_ Hp]. apply in_unit_rank in Hx as [_ Hx].
  destruct (fmul_unit p x) as [Hf Hr]; [done|done|lia|lia|].
  apply in_unit_rank. split; [by apply is_fin_not_nan|lia].
Qed.

Lemma fmul_in_unit_le p x :
  in_unit p = true -> in_unit x = true -> frank (p * x)%float <= frank x.
Proof.
  intros Hp Hx. pose proof (in_unit_fin _ Hp). pose proof (in_unit_fin _ Hx).
  apply in_unit_rank in Hp as [_ Hp]. apply in_unit_rank in Hx as [_ Hx].
  destruct (fmul_unit p x) as [_ Hr]; [done|done|lia|lia|lia].
Qed.

Lemma fmul_comm x y : (x * y)%float = (y * x)%float.
Proof.
  apply Prim2SF_inj. rewrite !FloatAxioms.mul_spec. unfold SF64mul, SFmul.
  destruct (Prim2SF x), (Prim2SF y); try done;
    rewrite xorb_comm; try done. by rewrite Pos.mul_comm, Z.add_comm.
Qed.

Create HintDb float discriminated.
#[export] Hint Resolve is_fin_not_nan in_unit_fin fmul_in_unit clamp_unit_in : float.

(** Turn the float comparisons of the context into comparisons of ranks. *)
Ltac to_rank :=
  repeat match goal with
  | H : context [(?x <? ?y)%float] |- _ => rewrite (fltb_rank x y) in H by auto with float
  | H : context [(?x <=? ?y)%float] |- _ => rewrite (fleb_rank x y) in H by auto with float
  | |- context [(?x <? ?y)%float] => rewrite (fltb_rank x y) by auto with float
  | |- context [(?x <=? ?y)%float] => rewrite (fleb_rank x y) by auto with float
  end;
  rewrite ?frank_zero in *.

(** A quotient of amounts [0 <= x <= y], [0 < y]. *)
Lemma fdiv_unit x y :
  is_fin x = true -> is_fin y = true -> 0 <= frank x <= frank y -> 0 < frank y ->
  in_unit (x / y)%float = true.
Proof.
  intros Hx Hy Hxy Hy0. destruct (fdiv_bounds x y Hx Hy ltac:(lia) Hy0) as (Hn & H0 & HK).
  specialize (HK 1%float eq_refl). rewrite frank_one in HK.
  apply in_unit_rank. split; [done|]. rewrite frank_one. split; [done|].
  apply HK. pose proof (pow2_pos 1074 ltac:(lia)). nia.
Qed.

(** [if x != y { return x > y }], before the next criterion. *)
Lemma float_chain x y rest :
  is_nan x = false -> is_nan y = false ->
  (if negb (x =? y)%float then (y <? x)%float else rest) =
  ((y <? x)%float || (negb (x <? y)%float && rest))%bool.
Proof.
  intros Hx Hy. rewrite feqb_rank, !fltb_rank by done.
  destruct (Z.eqb_spec (frank x) (frank y)), (Z.ltb_spec (frank y) (frank x)),
    (Z.ltb_spec (frank x) (frank y)); cbn; (done || lia).
Qed.

Lemma float_desc_weak {A} (P : A -> Prop) (f : A -> float) :
  (forall a, P a -> is_nan (f a) = false) -> strict_weak P (fun a b => (f b <? f a)%float).
Proof.
  intros HP. apply (strict_weak_desc _ _ (fun a => frank (f a))).
  intros x y Hx Hy. by rewrite fltb_rank by auto.
Qed.

(** ** Durations as floats *)

(** [d.Hours()]. *)
Definition Hours (d : Duration) : float :=
  (float_of_int (Z.quot d Hour) + float_of_int (Z.rem d Hour) / 3.6e12)%float.

Lemma Hours_nonneg d : 0 <= d <= max_int64 -> is_nan (Hours d) = false /\ 0 <= frank (Hours d).
Proof.
  intros Hd. unfold Hours.
  assert (Hq : 0 <= Z.quot d Hour <= max_int64).
  { split; [apply Z.quot_pos; unfold Hour, Minute, Second; lia|].
    etransitivity; [|apply Hd]. apply Z.quot_le_upper_bound; unfold Hour, Minute, Second; lia. }
  assert (Hr : 0 <= Z.rem d Hour < 3600000000000)
    by (apply Z.rem_bound_pos; unfold Hour, Minute, Second; lia).
  assert (Iq : in_int64 (Z.quot d Hour)) by (unfold in_int64, min_int64; lia).
  assert (Ir : in_int64 (Z.rem d Hour)) by (unfold in_int64, min_int64, max_int64; lia).
  assert (H36 : frank 3.6e12 = 3600000000000 * 2 ^ 1074) by (vm_compute; reflexivity).
  pose proof (pow2_pos 1074 ltac:(lia)) as Hp.
  destruct (fdiv_bounds (float_of_int (Z.rem d Hour)) 3.6e12) as (Hn & H0 & HK).
  { by apply float_of_int_fin. } { reflexivity. }
  { apply float_of_int_nonneg; [done|lia]. } { rewrite H36. lia. }
  specialize (HK 1%float eq_refl). rewrite frank_one, H36 in HK.
  rewrite (float_of_int_exact (Z.rem d Hour)) in HK by lia.
  specialize (HK ltac:(nia)).
  assert (Hfin : is_fin (float_of_int (Z.rem d Hour) / 3.6e12)%float = true).
  { apply is_fin_between; [done|]. rewrite frank_one. lia. }
  destruct (fadd_nonneg (float_of_int (Z.quot d Hour)) (float_of_int (Z.rem d Hour) / 3.6e12))
    as (Hn' & Hle & _); [by apply float_of_int_fin|done|by apply float_of_int_nonneg; [|lia]|done|].
  split; [done|]. pose proof (float_of_int_nonneg (Z.quot d Hour) Iq ltac:(lia)). lia.
Qed.
