(* ===== verification/GoRand.v ===== *)
(** * Go's [math/rand] generators

    A [*rand.Rand] is a state that each call advances.  The program relies on
    the documented ranges only: [Float64] is in [0, 1) and [IntN(n)] in
    [0, n) for positive [n]. *)
From Stdlib Require Import ZArith Lia Floats.
From stdpp Require Import base list.
From S2P Require Import Prelude GoBase GoFloat GoRound.
Open Scope Z_scope.

Class Rand := {
  rng : Type;
  Float64 : rng -> float * rng;
  IntN : Z -> rng -> Z * rng;
}.

Class RandLaws (R : Rand) := {
  Float64_range r : in_unit (Float64 r).1 = true /\ ((Float64 r).1 <? 1)%float = true;
  IntN_range n r : 0 < n -> 0 <= (IntN n r).1 < n;
}.

(** A scripted generator: it replays given draws, then draws zero. *)
Definition script_unit (x : float) : float :=
  if in_unit x && (x <? 1)%float then x else 0%float.

Definition script_rand : Rand := {|
  rng := list float * list Z;
  Float64 := fun '(fs, zs) =>
    match fs with
    | [] => (0%float, (fs, zs))
    | f :: fs' => (script_unit f, (fs', zs))
    end;
  IntN := fun n '(fs, zs) =>
    match zs with
    | [] => (0, (fs, zs))
    | z :: zs' => (z mod n, (fs, zs'))
    end;
|}.

Lemma script_rand_laws : RandLaws script_rand.
Proof.
  split.
  - intros [[|f fs] zs]; cbn; [done|]. unfold script_unit.
    destruct (in_unit f && (f <? 1)%float) eqn:E; [by apply andb_prop|done].
  - intros n [fs [|z zs]] Hn; cbn; [lia|]. by apply Z.mod_pos_bound.
Qed.

(** [uniform(rng, lo, hi)] of [internal/orchestrator/evolution.go]. *)
Definition uniform {R : Rand} (lo hi : float) (r : rng) : float * rng :=
  let '(u, r) := Float64 r in ((lo + u * (hi - lo))%float, r).

(** The scale factor every numeric perturbation uses. *)
Lemma uniform_range {R : Rand} {L : RandLaws R} (r : rng) :
  let u := (uniform 0x1.999999999999ap-1 0x1.3333333333333p+0 r).1 in
  is_fin u = true /\ 0 <= frank u <= frank 1.25%float.
Proof.
  unfold uniform. pose proof (proj1 (Float64_range r)) as Hu.
  destruct (Float64 r) as [x r']. cbn [fst] in *.
  set (d := (0x1.3333333333333p+0 - 0x1.999999999999ap-1)%float).
  set (lo := 0x1.999999999999ap-1%float).
  assert (Hd : in_unit d = true) by reflexivity.
  assert (Hlo : in_unit lo = true) by reflexivity.
  assert (Hm : in_unit (x * d)%float = true) by auto with float.
  pose proof (fmul_in_unit_le x d Hu Hd) as Hmd.
  destruct (fadd_rounds lo (x * d)%float) as (Hn & Hle & _); [auto with float..|].
  destruct (fadd_nonneg lo (x * d)%float) as (_ & Hge & _);
    [auto with float|auto with float| apply in_unit_rank in Hlo as [_ Hlo]; lia
    | apply in_unit_rank in Hm as [_ Hm]; lia|].
  assert (Hsum : frank lo + frank d <= frank 1.25%float) by (vm_compute; discriminate).
  specialize (Hle 1.25%float eq_refl ltac:(lia)).
  apply in_unit_rank in Hlo as [_ ?].
  split; [|lia]. apply is_fin_rank. split; [done|].
  assert (H125 : is_fin 1.25%float = true) by reflexivity.
  apply is_fin_rank in H125 as [_ H125]. lia.
Qed.

(** ** Rounding a scaled count back to an [int] *)

Lemma int_of_float_floor f :
  is_fin f = true -> 0 <= frank f < 2 ^ 63 * 2 ^ 1074 -> int_of_float f = frank f / 2 ^ 1074.
Proof.
  intros Hf [H0 Hlt].
  destruct (frank_nonneg_cases f Hf H0) as [[s E]|(m & e & E & V & C & He)].
  { unfold int_of_float, frank. rewrite E. reflexivity. }
  assert (Hfr : frank f = Zpos m * 2 ^ (e + 1074)) by (unfold frank; by rewrite E).
  rewrite Hfr in *. unfold int_of_float. rewrite E.
  pose proof (pow2_pos 1074 ltac:(lia)) as Hp.
  set (a := if 0 <=? e then Zpos m * 2 ^ e else Zpos m / 2 ^ (- e)).
  assert (Ha : a = Zpos m * 2 ^ (e + 1074) / 2 ^ 1074).
  { unfold a. destruct (Z.leb_spec 0 e).
    - rewrite (pow2_split e 1074 (e + 1074)), Z.mul_assoc, Z.div_mul by lia. done.
    - rewrite (pow2_split (- e) (e + 1074) 1074), Z.div_mul_cancel_r; try lia;
        apply Z.pow_nonzero; lia. }
  rewrite <-Ha. cbn [cond_Zopp].
  assert (0 <= a < 2 ^ 63).
  { rewrite Ha. split; [apply Z.div_pos; lia|]. apply Z.div_lt_upper_bound; lia. }
  unfold min_int64, max_int64.
  destruct (Z.leb_spec (-9223372036854775808) a); [|lia].
  by destruct (Z.leb_spec a 9223372036854775807); [|lia].
Qed.

Lemma frank_5_62 : frank 0x1.4p62 + frank 0.5 <= frank 0x1.8p62 /\
  frank 0x1p62 * frank 1.25 <= frank 0x1.4p62 * 2 ^ 1074 /\
  frank 0x1p62 = 2 ^ 62 * 2 ^ 1074 /\
  frank 0x1.8p62 < 2 ^ 63 * 2 ^ 1074.
Proof. vm_compute. repeat split; discriminate. Qed.

(** [int(y + 0.5)] is at least the floor of [y]. *)
Lemma round_half y :
  is_fin y = true -> 0 <= frank y <= frank 0x1.4p62 ->
  frank y / 2 ^ 1074 <= int_of_float (y + 0.5)%float <= max_int64.
Proof.
  intros Hf Hy. destruct frank_5_62 as (Hs & _ & _ & Hlt).
  assert (H5 : is_fin 0.5 = true) by reflexivity.
  assert (H50 : 0 <= frank 0.5) by (vm_compute; discriminate).
  destruct (fadd_nonneg y 0.5) as (Hn & Hge & _); [done|done|lia|done|].
  destruct (fadd_rounds y 0.5) as (_ & Hle & _); [done|done|].
  specialize (Hle 0x1.8p62%float eq_refl ltac:(lia)).
  assert (Hfin : is_fin (y + 0.5)%float = true).
  { apply is_fin_rank. split; [done|].
    assert (Hk : is_fin 0x1.8p62 = true) by reflexivity.
    apply is_fin_rank in Hk as [_ Hk]. lia. }
  pose proof (pow2_pos 1074 ltac:(lia)) as Hp.
  rewrite int_of_float_floor by (done || lia).
  split; [apply Z.div_le_mono; lia|].
  apply Z.lt_succ_r, Z.div_lt_upper_bound; [done|]. unfold max_int64. lia.
Qed.

(** A count below 2^62 scaled by at most 1.25. *)
Lemma scaled_count v u :
  0 <= v <= 2 ^ 62 -> is_fin u = true -> 0 <= frank u <= frank 1.25 ->
  is_fin (float_of_int v * u)%float = true /\
  0 <= frank (float_of_int v * u)%float <= frank 0x1.4p62.
Proof.
  intros Hv Hu Hur. destruct frank_5_62 as (_ & Hm & H62 & _).
  assert (Hi : in_int64 v) by (unfold in_int64, min_int64, max_int64; lia).
  pose proof (float_of_int_fin v Hi) as Hf.
  pose proof (float_of_int_nonneg v Hi ltac:(lia)) as H0.
  destruct (float_of_int_rounds v Hi) as (_ & Hle & _).
  specialize (Hle 0x1p62%float eq_refl). rewrite H62 in Hle.
  pose proof (pow2_pos 1074 ltac:(lia)) as Hp.
  specialize (Hle ltac:(nia)). rewrite <-H62 in Hle.
  destruct (fmul_bounds (float_of_int v) u Hf Hu H0 ltac:(lia)) as (Hn & H0' & HK).
  specialize (HK 0x1.4p62%float eq_refl). 
  assert (frank (float_of_int v * u)%float <= frank 0x1.4p62).
  { apply HK. etransitivity; [|exact Hm]. apply Z.mul_le_mono_nonneg; lia. }
  split; [|lia]. apply is_fin_rank. split; [done|].
  assert (Hk : is_fin 0x1.4p62 = true) by reflexivity.
  apply is_fin_rank in Hk as [_ Hk]. lia.
Qed.
