(* ===== verification/LearnedRules.v ===== *)
(** * Learned rules ([internal/agent/learned_rules.go])

    The capped list of procedural rules an agent carries: insertion with
    eviction of the weakest rule, the moving-average confidence update,
    inheritance by an offspring and mutation of rule texts.  Rule IDs come
    from [crypto/rand]; the IDs the calls draw are the argument [newRuleID]. *)
From Stdlib Require Import ZArith Lia Floats.
From stdpp Require Import base list strings.
From S2P Require Import Prelude GoBase GoFloat GoRound.
Set Warnings "-inexact-float".
Open Scope Z_scope.

Record LearnedRule := {
  rule_ID : string;
  rule_Text : string;
  rule_Confidence : float;
}.

Definition MaxLearnedRules : nat := 10.
Definition EMAAlpha : float := 0.1%float.
(** [1-EMAAlpha], folded exactly by the compiler and then converted. *)
Definition one_minus_EMAAlpha : float := 0.9%float.
Definition InheritanceRegression : float := 0.7%float.
Definition DefaultMutationProbability : float := 0.05%float.

Definition ErrEmptyRuleText : gerror := EMsg "learned_rules: rule text required".

Definition clamp01 (v : float) : float :=
  if (v <? 0)%float then 0%float else if (1 <? v)%float then 1%float else v.

Definition set_conf (r : LearnedRule) (c : float) : LearnedRule :=
  {| rule_ID := rule_ID r; rule_Text := rule_Text r; rule_Confidence := c |}.

Definition set_text (r : LearnedRule) (t : string) : LearnedRule :=
  {| rule_ID := rule_ID r; rule_Text := t; rule_Confidence := rule_Confidence r |}.

(** The scan for the victim: [i] is the index of the head of [l], [best] the
    index and confidence of the current victim. *)
Fixpoint victim_loop (l : list LearnedRule) (i : nat) (best : nat * float) : nat :=
  match l with
  | [] => best.1
  | r :: l' =>
      victim_loop l' (S i)
        (if (rule_Confidence r <? best.2)%float then (i, rule_Confidence r) else best)
  end.

Definition evictLowest (rules : list LearnedRule) : list LearnedRule :=
  match rules with
  | [] => rules
  | r :: rest =>
      let victim := victim_loop rest 1 (0%nat, rule_Confidence r) in
      take victim rules ++ drop (S victim) rules
  end.

Definition Add (newRuleID : string) (rules : list LearnedRule) (rule : LearnedRule)
    : result (list LearnedRule) :=
  if str_eqb (TrimSpace (rule_Text rule)) "" then Fail ErrEmptyRuleText
  else
    let rule := {| rule_ID := if str_eqb (rule_ID rule) "" then newRuleID else rule_ID rule;
                   rule_Text := rule_Text rule;
                   rule_Confidence := clamp01 (rule_Confidence rule) |} in
    let out := if (MaxLearnedRules <=? length rules)%nat then evictLowest rules else rules in
    Ok (out ++ [rule]).

Fixpoint RecordOutcome (rules : list LearnedRule) (ruleID : string) (success : bool)
    : list LearnedRule :=
  match rules with
  | [] => []
  | r :: rules' =>
      let observed := if success then 1%float else 0%float in
      if str_eqb (rule_ID r) ruleID then
        set_conf r (clamp01 (one_minus_EMAAlpha * rule_Confidence r + EMAAlpha * observed)%float)
          :: rules'
      else r :: RecordOutcome rules' ruleID success
  end.

(** [newRuleID i] is the ID the [i]-th iteration draws. *)
Definition Inherit (newRuleID : nat -> string) (parent : list LearnedRule) : list LearnedRule :=
  let out := imap (fun i r =>
    {| rule_ID := newRuleID i;
       rule_Text := rule_Text r;
       rule_Confidence := clamp01 (rule_Confidence r * InheritanceRegression)%float |}) parent in
  if (MaxLearnedRules <? length out)%nat then
    take MaxLearnedRules
      (insertion_sort (fun a b => (rule_Confidence b <? rule_Confidence a)%float) out)
  else out.

(** [Mutate]: [draw i] is the [i]-th [rng.Float64()], [Rewrite i text] the
    rewriter's answer for the rule at index [i]; the call is made only for
    the rules whose draw is below the probability. *)
Definition mutate_probability (Probability : float) : float :=
  let p := if (Probability <=? 0)%float then DefaultMutationProbability else Probability in
  if (1 <? p)%float then 1%float else p.

Fixpoint mutate_loop (draw : nat -> float) (Rewrite : nat -> string -> result string)
    (p : float) (i : nat) (rules : list LearnedRule) : list LearnedRule * list gerror :=
  match rules with
  | [] => ([], [])
  | r :: rules' =>
      let '(out, errs) := mutate_loop draw Rewrite p (S i) rules' in
      if (p <=? draw i)%float then (r :: out, errs)
      else
        match Rewrite i (rule_Text r) with
        | Fail err => (r :: out, EWrap "mutate rule %s: %w" err :: errs)
        | Ok rewritten =>
            let rewritten := TrimSpace rewritten in
            if str_eqb rewritten "" then (r :: out, errs)
            else (set_text r rewritten :: out, errs)
        end
  end.

Definition Mutate (draw : nat -> float) (rules : list LearnedRule) (Probability : float)
    (Rewriter : option (nat -> string -> result string)) : list LearnedRule * list gerror :=
  match Rewriter with
  | None => (rules, [])
  | Some Rewrite => mutate_loop draw Rewrite (mutate_probability Probability) 0 rules
  end.

(** ** Invariant: at most ten rules, each with a confidence in [0, 1] *)

Definition conf_ok (r : LearnedRule) : Prop := in_unit (rule_Confidence r) = true.

Record rules_ok (rules : list LearnedRule) : Prop := {
  rules_cap : (length rules <= MaxLearnedRules)%nat;
  rules_conf : Forall conf_ok rules;
}.

Lemma clamp01_in v : is_nan v = false -> in_unit (clamp01 v) = true.
Proof. exact (clamp_unit_in v). Qed.

Definition not_nan_conf (r : LearnedRule) : Prop := is_nan (rule_Confidence r) = false.

Lemma conf_ok_not_nan r : conf_ok r -> not_nan_conf r.
Proof. intros H. by apply in_unit_rank in H as [? _]. Qed.

#[export] Hint Resolve conf_ok_not_nan : float.

(** [i] is the first index of the least confidence, [b] the rule there. *)
Definition first_min (rules : list LearnedRule) (i : nat) (b : LearnedRule) : Prop :=
  rules !! i = Some b /\
  forall j r, rules !! j = Some r ->
    frank (rule_Confidence b) <= frank (rule_Confidence r) /\
    ((j < i)%nat -> frank (rule_Confidence b) < frank (rule_Confidence r)).

Lemma victim_loop_spec l : forall pre bi b,
  Forall not_nan_conf (pre ++ l) -> first_min pre bi b ->
  exists r, first_min (pre ++ l) (victim_loop l (length pre) (bi, rule_Confidence b)) r.
Proof.
  induction l as [|x l IH]; intros pre bi b Hn Hmin; cbn [victim_loop].
  { exists b. by rewrite app_nil_r. }
  rewrite cons_middle, app_assoc in Hn |- *.
  replace (S (length pre)) with (length (pre ++ [x])) by (rewrite length_app; cbn; lia).
  destruct Hmin as [Hb Hmin]. cbn [snd].
  assert (Hxn : not_nan_conf x /\ not_nan_conf b).
  { rewrite Forall_forall in Hn. split; apply Hn; rewrite !elem_of_app.
    - left; right. by apply list_elem_of_singleton.
    - left; left. by eapply list_elem_of_lookup_2. }
  destruct Hxn as [Hx Hbn]. rewrite fltb_rank by done.
  destruct (Z.ltb_spec (frank (rule_Confidence x)) (frank (rule_Confidence b))).
  - apply IH; [done|]. split; [by rewrite list_lookup_middle|].
    intros j r [Hj|[Hj Hr]]%lookup_app_Some.
    + apply Hmin in Hj. lia.
    + destruct (j - length pre)%nat eqn:Ej; [|done]. cbn in Hr. simplify_eq. lia.
  - apply IH; [done|]. split; [by apply lookup_app_l_Some|].
    apply lookup_lt_Some in Hb as Hlt.
    intros j r [Hj|[Hj Hr]]%lookup_app_Some; [by apply Hmin|].
    destruct (j - length pre)%nat eqn:Ej; [|done]. cbn in Hr. simplify_eq. lia.
Qed.

Lemma evictLowest_split rules :
  rules <> [] -> Forall not_nan_conf rules ->
  exists l1 r l2, rules = l1 ++ r :: l2 /\ evictLowest rules = l1 ++ l2 /\
    Forall (fun x => frank (rule_Confidence r) < frank (rule_Confidence x)) l1 /\
    Forall (fun x => frank (rule_Confidence r) <= frank (rule_Confidence x)) l2.
Proof.
  destruct rules as [|x rest]; [done|]. intros _ Hn.
  destruct (victim_loop_spec rest [x] 0%nat x Hn) as (r & Hr & Hmin).
  { split; [done|]. intros [|j] r Hr; cbn in Hr; simplify_eq. lia. }
  cbn [length app] in *. unfold evictLowest.
  set (v := victim_loop rest 1 (0%nat, rule_Confidence x)) in *.
  exists (take v (x :: rest)), r, (drop (S v) (x :: rest)).
  split; [by rewrite take_drop_middle|]. split; [done|].
  split; apply Forall_lookup; intros j y Hj.
  - apply lookup_take_Some in Hj as [Hj Hlt]. apply Hmin in Hj. lia.
  - rewrite lookup_drop in Hj. apply Hmin in Hj. lia.
Qed.

Lemma evictLowest_ok rules :
  rules <> [] -> Forall conf_ok rules ->
  S (length (evictLowest rules)) = length rules /\ Forall conf_ok (evictLowest rules)
  /\ evictLowest rules `sublist_of` rules.
Proof.
  intros Hne Hok.
  destruct (evictLowest_split rules Hne) as (l1 & r & l2 & -> & -> & _).
  { eapply Forall_impl; [exact Hok|]. auto with float. }
  rewrite !length_app. cbn [length]. split; [lia|].
  apply Forall_app in Hok as [H1 H2]. apply Forall_cons in H2 as [_ H2].
  split; [by apply Forall_app|]. apply sublist_app; [done|]. by apply sublist_cons.
Qed.

(** ** Properties *)

(** Adding a rule.  A blank text is refused; otherwise the rule is the last
    of the result, with an ID, its text, and its confidence clamped to [0, 1];
    the other rules are the old ones, less the first of the least confidence
    when the list was full; and the result is again a list of at most ten
    rules with confidences in [0, 1]. *)
Theorem Add_spec newRuleID rules rule :
  rules_ok rules -> is_nan (rule_Confidence rule) = false ->
  match Add newRuleID rules rule with
  | Fail e => e = ErrEmptyRuleText /\ TrimSpace (rule_Text rule) = ""
  | Ok out =>
      TrimSpace (rule_Text rule) <> "" /\ rules_ok out /\
      exists kept r, out = kept ++ [r] /\
        rule_Text r = rule_Text rule /\
        rule_ID r = (if decide (rule_ID rule = "") then newRuleID else rule_ID rule) /\
        rule_Confidence r = clamp01 (rule_Confidence rule) /\
        if decide (length rules < MaxLearnedRules)%nat then kept = rules
        else exists l1 v l2, rules = l1 ++ v :: l2 /\ kept = l1 ++ l2 /\
          Forall (fun x => frank (rule_Confidence v) < frank (rule_Confidence x)) l1 /\
          Forall (fun x => frank (rule_Confidence v) <= frank (rule_Confidence x)) l2
  end.
Proof.
  intros [Hcap Hconf] Hn. unfold Add, str_eqb. case_bool_decide as Ht; [done|].
  set (r := Build_LearnedRule _ _ _).
  assert (Hr : conf_ok r) by (by apply clamp01_in).
  assert (Hid : rule_ID r = if decide (rule_ID rule = "") then newRuleID else rule_ID rule)
    by (cbn; case_bool_decide; by case_decide).
  split; [done|]. destruct (Nat.leb_spec MaxLearnedRules (length rules)) as [Hf|Hf].
  - assert (Hne : rules <> []) by (by intros ->; cbn in Hf; unfold MaxLearnedRules in Hf; lia).
    destruct (evictLowest_ok rules Hne Hconf) as (Hlen & Hok & _).
    split.
    + split; [rewrite length_app; cbn; lia|]. by apply Forall_app_single.
    + exists (evictLowest rules), r. repeat (split; [done|]).
      rewrite decide_False by lia.
      destruct (evictLowest_split rules Hne) as (l1 & v & l2 & ? & ? & ? & ?); [|by exists l1, v, l2].
      eapply Forall_impl; [exact Hconf|]. auto with float.
  - split.
    + split; [rewrite length_app; cbn; lia|]. by apply Forall_app_single.
    + exists rules, r. repeat (split; [done|]). by rewrite decide_True.
Qed.

(** Ten rules of strictly decreasing confidence. *)
Definition ten_rules : list LearnedRule :=
  (fun c => {| rule_ID := "r"; rule_Text := "t"; rule_Confidence := c |}) <$>
    [0.9; 0.8; 0.7; 0.6; 0.5; 0.4; 0.3; 0.2; 0.1; 0]%float.

Lemma ten_rules_ok : rules_ok ten_rules.
Proof. split; [cbn; unfold MaxLearnedRules; lia|]. by repeat constructor. Qed.

Lemma Add_spec_witness :
  exists out, Add "id" ten_rules {| rule_ID := ""; rule_Text := "x"; rule_Confidence := 2%float |} = Ok out
    /\ rules_ok out.
Proof.
  pose proof (Add_spec "id" ten_rules {| rule_ID := ""; rule_Text := "x"; rule_Confidence := 2%float |}
                ten_rules_ok eq_refl) as H.
  destruct (Add _ _ _) as [out|e]; [|destruct H as [_ H]; discriminate H].
  exists out. split; [reflexivity|apply H].
Defined.

Lemma ema_bounds c (o : bool) :
  in_unit c = true ->
  let v := (one_minus_EMAAlpha * c + EMAAlpha * (if o then 1 else 0))%float in
  is_nan v = false /\ 0 <= frank v /\
  (o = false -> frank v <= frank c) /\ (o = true -> frank EMAAlpha <= frank v).
Proof.
  intros Hc. set (obs := if o then 1%float else 0%float).
  assert (Ho : in_unit obs = true) by (by destruct o).
  assert (Hm : in_unit (one_minus_EMAAlpha * c)%float = true) by auto with float.
  assert (Ha : in_unit (EMAAlpha * obs)%float = true) by auto with float.
  pose proof (in_unit_fin _ Hm) as Hmf. pose proof (in_unit_fin _ Ha) as Haf.
  pose proof (proj1 (in_unit_rank _) Hm) as [_ Hmr].
  pose proof (proj1 (in_unit_rank _) Ha) as [_ Har].
  pose proof (proj1 (in_unit_rank _) Hc) as [_ Hcr].
  destruct (fadd_nonneg _ _ Hmf Haf) as (Hn & H1 & H2); [lia|lia|].
  split; [done|]. split; [lia|]. split.
  - intros ->. subst obs. destruct (fadd_rounds _ _ Hmf Haf) as (_ & Hle & _).
    apply Hle; [auto with float|].
    change (frank (EMAAlpha * 0)%float) with 0.
    pose proof (fmul_in_unit_le one_minus_EMAAlpha c eq_refl Hc). lia.
  - intros ->. subst obs. exact H2.
Qed.

(** Recording an outcome keeps the list well-formed, never touches an ID, a
    text, the order, or a rule of another ID; a failure never raises the
    confidence and a success leaves it at least at the new-evidence weight. *)
Theorem RecordOutcome_spec rules ruleID success :
  rules_ok rules ->
  let out := RecordOutcome rules ruleID success in
  rules_ok out /\
  rule_ID <$> out = rule_ID <$> rules /\ rule_Text <$> out = rule_Text <$> rules /\
  forall i r r', rules !! i = Some r -> out !! i = Some r' ->
    r' = r \/
    rule_ID r = ruleID /\ (forall j q, (j < i)%nat -> rules !! j = Some q -> rule_ID q <> ruleID) /\
    if success then frank EMAAlpha <= frank (rule_Confidence r')
    else frank (rule_Confidence r') <= frank (rule_Confidence r).
Proof.
  intros [Hcap Hconf]. cbv zeta. split.
  { enough (length (RecordOutcome rules ruleID success) = length rules /\
            Forall conf_ok (RecordOutcome rules ruleID success)) as [Hl Hf]
      by (split; [lia|done]).
    clear Hcap. induction Hconf as [|r rules Hr Hconf IH]; cbn; [done|].
    destruct (str_eqb _ _); cbn; [|destruct IH; auto].
    split; [done|]. constructor; [|done].
    apply clamp01_in. by destruct (ema_bounds (rule_Confidence r) success Hr). }
  clear Hcap. induction Hconf as [|r rules Hr Hconf (IH1 & IH2 & IH3)]; cbn; [done|].
  destruct (str_eqb (rule_ID r) ruleID) eqn:E; cbn.
  - apply bool_decide_eq_true in E. split; [done|]. split; [done|].
    intros [|i] q q' Hq Hq'; cbn in *; simplify_eq/=; [right|by left].
    split; [done|]. split; [lia|].
    destruct (ema_bounds (rule_Confidence q) success Hr) as (Hn & H0 & Hf & Hs).
    set (v := (_ + _)%float) in *. unfold clamp01.
    pose proof (proj1 (in_unit_rank _) Hr) as [_ Hr1].
    assert (frank EMAAlpha <= frank 1%float) by (vm_compute; discriminate).
    destruct success.
    + specialize (Hs eq_refl). to_rank.
      destruct (Z.ltb_spec (frank v) 0); [lia|]. destruct (Z.ltb_spec (frank 1%float) (frank v)); lia.
    + specialize (Hf eq_refl). to_rank.
      destruct (Z.ltb_spec (frank v) 0); [rewrite frank_zero; lia|].
      destruct (Z.ltb_spec (frank 1%float) (frank v)); lia.
  - apply bool_decide_eq_false in E. rewrite IH1, IH2. split; [done|]. split; [done|].
    intros [|i] q q' Hq Hq'; cbn in *; simplify_eq/=; [by left|].
    destruct (IH3 _ _ _ Hq Hq') as [->|(Hid & Hbefore & Hc)]; [by left|right].
    split; [done|]. split; [|done]. intros [|j] q2 Hj Hq2; cbn in Hq2; simplify_eq; [done|].
    apply (Hbefore j); [lia|done].
Qed.

Lemma RecordOutcome_spec_witness : rules_ok (RecordOutcome ten_rules "r" true).
Proof. apply (RecordOutcome_spec ten_rules "r" true ten_rules_ok). Defined.

Definition desc_conf (a b : LearnedRule) : bool :=
  (rule_Confidence b <? rule_Confidence a)%float.

Lemma desc_conf_weak : strict_weak not_nan_conf desc_conf.
Proof.
  apply (strict_weak_desc _ _ (fun r => frank (rule_Confidence r))).
  intros x y Hx Hy. unfold desc_conf. by rewrite fltb_rank.
Qed.

Definition inherited (newRuleID : nat -> string) (i : nat) (r : LearnedRule) : LearnedRule :=
  {| rule_ID := newRuleID i;
     rule_Text := rule_Text r;
     rule_Confidence := clamp01 (rule_Confidence r * InheritanceRegression)%float |}.

Lemma inherited_ok newRuleID i r :
  conf_ok r ->
  conf_ok (inherited newRuleID i r) /\
  frank (rule_Confidence (inherited newRuleID i r)) <= frank (rule_Confidence r).
Proof.
  unfold conf_ok. cbn. intros Hr.
  assert (Hm : in_unit (rule_Confidence r * InheritanceRegression)%float = true)
    by (apply fmul_in_unit; [done|reflexivity]).
  change clamp01 with clamp_unit. rewrite clamp_unit_id by done. split; [done|].
  rewrite fmul_comm. by apply fmul_in_unit_le.
Qed.

(** An offspring inherits at most ten rules, well-formed whatever the number
    of the parent's rules: each is a copy of a parent's rule under a fresh ID,
    with the text kept and a confidence no higher than the parent's; when
    rules are dropped, none of them is stronger than a rule that is kept. *)
Theorem Inherit_spec newRuleID parent :
  Forall conf_ok parent ->
  let out := Inherit newRuleID parent in
  rules_ok out /\
  length out = Nat.min (length parent) MaxLearnedRules /\
  (forall r, r ∈ out -> exists i p, parent !! i = Some p /\ rule_ID r = newRuleID i /\
     rule_Text r = rule_Text p /\ frank (rule_Confidence r) <= frank (rule_Confidence p)) /\
  exists dropped, Permutation (out ++ dropped) (imap (inherited newRuleID) parent) /\
    forall k d, k ∈ out -> d ∈ dropped ->
      frank (rule_Confidence d) <= frank (rule_Confidence k).
Proof.
  intros Hok. cbv zeta. unfold Inherit.
  change (imap _ parent) with (imap (inherited newRuleID) parent).
  set (all := imap (inherited newRuleID) parent).
  assert (Hlen : length all = length parent) by (subst all; apply length_imap).
  assert (Hall : forall r, r ∈ all -> conf_ok r /\ exists i p, parent !! i = Some p /\
      rule_ID r = newRuleID i /\ rule_Text r = rule_Text p /\
      frank (rule_Confidence r) <= frank (rule_Confidence p)).
  { intros r [i Hi]%list_elem_of_lookup. subst all.
    rewrite list_lookup_imap in Hi. apply fmap_Some in Hi as (p & Hp & ->).
    destruct (inherited_ok newRuleID i p) as [? ?];
      [by eapply (proj1 (Forall_lookup _ _) Hok)|].
    split; [done|]. by exists i, p. }
  clearbody all.
  assert (Hconf : Forall conf_ok all) by (apply Forall_forall; intros r Hr; by apply Hall).
  destruct (Nat.ltb_spec MaxLearnedRules (length all)) as [Hlt|Hle].
  - change (fun a b => _) with desc_conf. set (srt := insertion_sort desc_conf all).
    assert (Hperm : Permutation srt all) by apply insertion_sort_perm.
    assert (Hsrt : sorted_by desc_conf srt).
    { apply (insertion_sort_sorted not_nan_conf); [apply desc_conf_weak|].
      eapply Forall_impl; [exact Hconf|]. auto with float. }
    assert (Hin : forall r, r ∈ take MaxLearnedRules srt -> r ∈ all).
    { intros r Hr. rewrite <- Hperm, <- (take_drop MaxLearnedRules srt), elem_of_app.
      by left. }
    assert (Htl : length (take MaxLearnedRules srt) = MaxLearnedRules)
      by (rewrite length_take, Hperm; lia).
    split; [|split; [rewrite Htl; lia|split]].
    + split; [lia|]. apply Forall_forall. intros r Hr. by apply Hall, Hin.
    + intros r Hr. by apply Hall, Hin.
    + exists (drop MaxLearnedRules srt). rewrite take_drop. split; [done|].
      intros k d Hk Hd.
      rewrite <- (take_drop MaxLearnedRules srt) in Hsrt.
      pose proof (sorted_by_app _ _ _ _ _ Hsrt Hk Hd) as Hless.
      assert (Hdn : conf_ok d).
      { apply Hall. rewrite <- Hperm, <- (take_drop MaxLearnedRules srt), elem_of_app.
        by right. }
      assert (Hkn : conf_ok k) by (by apply Hall, Hin).
      unfold desc_conf in Hless. rewrite fltb_rank in Hless by auto with float. lia.
  - split; [split; [lia|done]|]. split; [lia|]. split; [intros r Hr; by apply Hall|].
    exists []. rewrite app_nil_r. split; [done|]. intros k d _ Hd.
    by apply not_elem_of_nil in Hd.
Qed.

Lemma Inherit_spec_witness :
  length (Inherit (fun _ => "id") (ten_rules ++ ten_rules)) = 10%nat.
Proof.
  apply (Inherit_spec (fun _ => "id") (ten_rules ++ ten_rules)).
  apply Forall_app. split; apply ten_rules_ok.
Defined.

(** Mutation rewrites texts only.  Every rule keeps its place, ID and
    confidence; a text changes only to the trimmed, non-blank answer of the
    rewriter for that text; and each error reported is a wrapped rewriter
    error. *)
Theorem Mutate_spec draw rules Probability Rewriter :
  let '(out, errs) := Mutate draw rules Probability Rewriter in
  rule_ID <$> out = rule_ID <$> rules /\
  rule_Confidence <$> out = rule_Confidence <$> rules /\
  (rules_ok rules -> rules_ok out) /\
  (forall i r r', rules !! i = Some r -> out !! i = Some r' ->
     r' = r \/ exists Rewrite t, Rewriter = Some Rewrite /\ Rewrite i (rule_Text r) = Ok t /\
       rule_Text r' = TrimSpace t /\ TrimSpace t <> "" /\
       (mutate_probability Probability <=? draw i)%float = false) /\
  Forall (fun e => exists Rewrite i t e', Rewriter = Some Rewrite /\ Rewrite i t = Fail e' /\
    e = EWrap "mutate rule %s: %w" e') errs.
Proof.
  unfold Mutate. destruct Rewriter as [Rewrite|].
  2: { repeat (split; [done|]). split; [|done]. intros i r r' H H'. left. congruence. }
  set (p := mutate_probability Probability).
  assert (H : forall rs k, let '(out, errs) := mutate_loop draw Rewrite p k rs in
    rule_ID <$> out = rule_ID <$> rs /\ rule_Confidence <$> out = rule_Confidence <$> rs /\
    (forall i r r', rs !! i = Some r -> out !! i = Some r' ->
       r' = r \/ exists R t, Some Rewrite = Some R /\ R (k + i)%nat (rule_Text r) = Ok t /\
       rule_Text r' = TrimSpace t /\ TrimSpace t <> "" /\ (p <=? draw (k + i)%nat)%float = false) /\
    Forall (fun e => exists R i t e', Some Rewrite = Some R /\ R i t = Fail e' /\
      e = EWrap "mutate rule %s: %w" e') errs).
  { induction rs as [|r rs IH]; intros k; cbn [mutate_loop]; [done|].
    specialize (IH (S k)). destruct (mutate_loop draw Rewrite p (S k) rs) as [out errs].
    destruct IH as (I1 & I2 & I3 & I4).
    assert (Htail : forall i q q', rs !! i = Some q -> out !! i = Some q' ->
       q' = q \/ exists R t, Some Rewrite = Some R /\ R (k + S i)%nat (rule_Text q) = Ok t /\
       rule_Text q' = TrimSpace t /\ TrimSpace t <> "" /\ (p <=? draw (k + S i)%nat)%float = false)
      by (intros i; replace (k + S i)%nat with (S k + i)%nat by lia; apply I3).
    destruct (p <=? draw k)%float eqn:Hdraw;
      [|destruct (Rewrite k (rule_Text r)) as [t|e] eqn:Hrw;
        [destruct (str_eqb (TrimSpace t) "") eqn:Ht|]]; cbn;
      rewrite I1, I2; (split; [done|]); (split; [done|]); (split; [|try done]).
    all: try (intros [|i] q q' Hq Hq'; cbn in *; simplify_eq; [by left|by apply Htail]).
    - apply bool_decide_eq_false in Ht.
      intros [|i] q q' Hq Hq'; cbn in *; simplify_eq; [right|by apply Htail].
      exists Rewrite, t. rewrite Nat.add_0_r. done.
    - constructor; [|done]. eexists _, _, _, _. done. }
  specialize (H rules 0%nat). destruct (mutate_loop draw Rewrite p 0 rules) as [out errs].
  destruct H as (H1 & H2 & H3 & H4). repeat (split; [done|]). split; [|done].
  intros [Hc Hf]. split.
  - pose proof (f_equal length H1) as Hl. rewrite !length_fmap in Hl. lia.
  - assert (Hfm : forall l, Forall conf_ok l <->
      Forall (fun c => in_unit c = true) (rule_Confidence <$> l)) by (intros l; by rewrite Forall_fmap).
    apply Hfm. rewrite H2. by apply Hfm.
Qed.
