(* ===== verification/Genome.v ===== *)
(** * The genome ([internal/agent/genome.go], [genome_validate.go]) and the
    model rate table ([internal/llm/rates.go]) *)
From Stdlib Require Import ZArith Lia Floats.
From stdpp Require Import base list strings gmap.
From S2P Require Import Prelude GoBase GoFloat GoRound LearnedRules.
Set Warnings "-inexact-float".
Open Scope Z_scope.

(** ** Rates *)

Record ModelRate := { InputPerToken : float; OutputPerToken : float }.

Definition modelRates : gmap string ModelRate :=
  list_to_map [
    ("claude-haiku-4-5-20251001", {| InputPerToken := 1e-6; OutputPerToken := 5e-6 |});
    ("claude-sonnet-4-6", {| InputPerToken := 3e-6; OutputPerToken := 15e-6 |});
    ("claude-opus-4-7", {| InputPerToken := 15e-6; OutputPerToken := 75e-6 |});
    ("gpt-4o", {| InputPerToken := 2.5e-6; OutputPerToken := 10e-6 |});
    ("gpt-4o-mini", {| InputPerToken := 0.15e-6; OutputPerToken := 0.6e-6 |})]%float.

Definition RateFor (model : string) : option ModelRate := modelRates !! model.

Definition computeCost (model : string) (inputTokens outputTokens : Z) : float :=
  match modelRates !! model with
  | None => 0%float
  | Some r => (float_of_int inputTokens * InputPerToken r
               + float_of_int outputTokens * OutputPerToken r)%float
  end.

(** ** The genome *)

(** A value of a [map[string]interface{}]; anything but a number or a string
    is kept as its JSON text. *)
Inductive config_value :=
  | VFloat (x : float)
  | VInt (z : Z)
  | VStr (s : string)
  | VOther (json : string).

Record SleepSchedule := {
  AwakeWindowMinutes : Z;
  SleepBetween : bool;
  WakeForBacktest : bool;
}.

Record ReproductionPolicy := {
  MinProfitableEpochs : Z;
  MinRealizedNetProfitUSD : float;
  OffspringSeedCapitalUSD : float;
  OffspringAPIReserveUSD : float;
  OffspringFailureBufferUSD : float;
  MaxDescendantsPerEpoch : Z;
  AllowTaskTypeMutation : bool;
  AllowChainMutation : bool;
  AllowModelMutation : bool;
}.

Record CostPolicy := {
  MonthlyLLMBudgetUSD : float;
  MonthlyInfraRentBudgetUSD : float;
  PauseOnBudgetBreach : bool;
}.

Record CommunicationPolicy := {
  SubscribeChannels : list string;
  PublishChannels : list string;
  MaxBroadcastsPerCycle : Z;
  IntelSummaryMaxItems : Z;
  RequireBullBearTag : bool;
}.

Record AgentGenome := {
  Name : string;
  Generation : Z;
  LineageDepth : Z;
  TaskType : string;
  Chain : string;
  StrategyConfig : option (gmap string config_value);
  StrategistPrompt : string;
  StrategistModel : string;
  StrategistIntervalSeconds : Z;
  BanditPolicies : list string;
  LearnedRules : list LearnedRule;
  CapitalAllocation : float;
  g_ReproductionPolicy : ReproductionPolicy;
  g_CostPolicy : CostPolicy;
  g_CommunicationPolicy : CommunicationPolicy;
  g_SleepSchedule : SleepSchedule;
}.

(** ** Validation *)

Definition validTaskTypes : list string :=
  ["cross_chain_yield"; "liquidity_provision"; "liquidation_hunting"; "momentum"].

Definition validChains : list string := ["solana"; "base"].

Definition gerr (fmt : string) : option gerror := Some (EMsg fmt).

Definition ReproductionPolicy_validate (p : ReproductionPolicy) : option gerror :=
  if MinProfitableEpochs p <? 0 then
    gerr "genome: reproduction_policy.min_profitable_epochs %d must be >= 0"
  else if MaxDescendantsPerEpoch p <? 0 then
    gerr "genome: reproduction_policy.max_descendants_per_epoch %d must be >= 0"
  else if (MinRealizedNetProfitUSD p <? 0)%float then
    gerr "genome: reproduction_policy.min_realized_net_profit_usd %.2f must be >= 0"
  else if (OffspringSeedCapitalUSD p <? 0)%float then
    gerr "genome: reproduction_policy.offspring_seed_capital_usd %.2f must be >= 0"
  else if (OffspringAPIReserveUSD p <? 0)%float then
    gerr "genome: reproduction_policy.offspring_api_reserve_usd %.2f must be >= 0"
  else if (OffspringFailureBufferUSD p <? 0)%float then
    gerr "genome: reproduction_policy.offspring_failure_buffer_usd %.2f must be >= 0"
  else None.

Definition CostPolicy_validate (p : CostPolicy) : option gerror :=
  if (MonthlyLLMBudgetUSD p <? 0)%float then
    gerr "genome: cost_policy.monthly_llm_budget_usd %.2f must be >= 0"
  else if (MonthlyInfraRentBudgetUSD p <? 0)%float then
    gerr "genome: cost_policy.monthly_infra_rent_budget_usd %.2f must be >= 0"
  else None.

Definition CommunicationPolicy_validate (p : CommunicationPolicy) : option gerror :=
  if MaxBroadcastsPerCycle p <? 0 then
    gerr "genome: communication_policy.max_broadcasts_per_cycle %d must be >= 0"
  else if IntelSummaryMaxItems p <? 0 then
    gerr "genome: communication_policy.intel_summary_max_items %d must be >= 0"
  else None.

Definition SleepSchedule_validate (s : SleepSchedule) : option gerror :=
  if AwakeWindowMinutes s <? 0 then
    gerr "genome: sleep_schedule.awake_window_minutes %d must be >= 0"
  else None.

Definition is_some {A} (o : option A) : bool := match o with Some _ => true | None => false end.

(** [Validate] on a non-nil receiver. *)
Definition Validate (g : AgentGenome) : option gerror :=
  if str_eqb (Name g) "" then gerr "genome: name is required"
  else if Generation g <? 0 then gerr "genome: generation %d must be >= 0"
  else if LineageDepth g <? 0 then gerr "genome: lineage_depth %d must be >= 0"
  else if negb (mem (TaskType g) validTaskTypes) then
    gerr "genome: task_type %q not in registry"
  else if negb (mem (Chain g) validChains) then
    gerr "genome: chain %q must be solana or base"
  else if negb (is_some (RateFor (StrategistModel g))) then
    gerr "genome: strategist_model %q not in llm registry"
  else if StrategistIntervalSeconds g <? 0 then
    gerr "genome: strategist_interval_seconds %d must be >= 0"
  else if ((CapitalAllocation g <? 0)%float || (1 <? CapitalAllocation g)%float)%bool then
    gerr "genome: capital_allocation %.4f must be in [0, 1]"
  else match ReproductionPolicy_validate (g_ReproductionPolicy g) with
  | Some err => Some err
  | None =>
  match CostPolicy_validate (g_CostPolicy g) with
  | Some err => Some err
  | None =>
  match CommunicationPolicy_validate (g_CommunicationPolicy g) with
  | Some err => Some err
  | None => SleepSchedule_validate (g_SleepSchedule g)
  end end end.

(** ** The invariants, field by field

    A USD field is refused when it is below zero; a NaN is below nothing. *)

Definition not_below_zero (x : float) : Prop := (x <? 0)%float = false.

Record repro_valid (p : ReproductionPolicy) : Prop := {
  rv_epochs : 0 <= MinProfitableEpochs p;
  rv_desc : 0 <= MaxDescendantsPerEpoch p;
  rv_profit : not_below_zero (MinRealizedNetProfitUSD p);
  rv_seed : not_below_zero (OffspringSeedCapitalUSD p);
  rv_api : not_below_zero (OffspringAPIReserveUSD p);
  rv_buffer : not_below_zero (OffspringFailureBufferUSD p);
}.

Record cost_valid (p : CostPolicy) : Prop := {
  cv_llm : not_below_zero (MonthlyLLMBudgetUSD p);
  cv_infra : not_below_zero (MonthlyInfraRentBudgetUSD p);
}.

Record comm_valid (p : CommunicationPolicy) : Prop := {
  mv_broadcasts : 0 <= MaxBroadcastsPerCycle p;
  mv_items : 0 <= IntelSummaryMaxItems p;
}.

Record genome_valid (g : AgentGenome) : Prop := {
  gv_name : Name g <> "";
  gv_generation : 0 <= Generation g;
  gv_depth : 0 <= LineageDepth g;
  gv_task : TaskType g ∈ validTaskTypes;
  gv_chain : Chain g ∈ validChains;
  gv_model : is_Some (RateFor (StrategistModel g));
  gv_interval : 0 <= StrategistIntervalSeconds g;
  gv_capital : not_below_zero (CapitalAllocation g) /\ (1 <? CapitalAllocation g)%float = false;
  gv_repro : repro_valid (g_ReproductionPolicy g);
  gv_cost : cost_valid (g_CostPolicy g);
  gv_comm : comm_valid (g_CommunicationPolicy g);
  gv_sleep : 0 <= AwakeWindowMinutes (g_SleepSchedule g);
}.

Ltac split_checks :=
  repeat match goal with
  | |- context [if ?b then _ else _] => destruct b eqn:?
  end.

Lemma ReproductionPolicy_validate_iff p :
  ReproductionPolicy_validate p = None <-> repro_valid p.
Proof.
  unfold ReproductionPolicy_validate, gerr. split.
  - split_checks; intros H; try discriminate. split; (lia || done).
  - intros [H1 H2 H3 H4 H5 H6]. unfold not_below_zero in *.
    rewrite H3, H4, H5, H6.
    by replace (MinProfitableEpochs p <? 0) with false by lia;
    replace (MaxDescendantsPerEpoch p <? 0) with false by lia.
Qed.

Lemma CostPolicy_validate_iff p : CostPolicy_validate p = None <-> cost_valid p.
Proof.
  unfold CostPolicy_validate, gerr. split.
  - split_checks; intros H; try discriminate. by split.
  - intros [H1 H2]. unfold not_below_zero in *. by rewrite H1, H2.
Qed.

Lemma CommunicationPolicy_validate_iff p :
  CommunicationPolicy_validate p = None <-> comm_valid p.
Proof.
  unfold CommunicationPolicy_validate, gerr. split.
  - split_checks; intros H; try discriminate. split; lia.
  - intros [H1 H2]. split_checks; (done || lia).
Qed.

Lemma SleepSchedule_validate_iff s :
  SleepSchedule_validate s = None <-> 0 <= AwakeWindowMinutes s.
Proof. unfold SleepSchedule_validate, gerr. split_checks; split; intros; (done || lia). Qed.

Lemma is_some_iff {A} (o : option A) : is_some o = true <-> is_Some o.
Proof. destruct o; split; [by eauto|done|done|by intros [? ?]]. Qed.

Lemma Validate_iff g : Validate g = None <-> genome_valid g.
Proof.
  unfold Validate, gerr. split.
  - destruct (str_eqb (Name g) "") eqn:E1; [done|].
    destruct (Z.ltb_spec (Generation g) 0); [done|].
    destruct (Z.ltb_spec (LineageDepth g) 0); [done|].
    destruct (mem (TaskType g) validTaskTypes) eqn:E4; [cbn [negb]|done].
    destruct (mem (Chain g) validChains) eqn:E5; [cbn [negb]|done].
    destruct (is_some _) eqn:E6; [cbn [negb]|done].
    destruct (Z.ltb_spec (StrategistIntervalSeconds g) 0); [done|].
    destruct (_ || _)%bool eqn:E7; [done|]. apply orb_false_elim in E7.
    destruct (ReproductionPolicy_validate _) eqn:E8; [done|].
    destruct (CostPolicy_validate _) eqn:E9; [done|].
    destruct (CommunicationPolicy_validate _) eqn:E10; [done|]. intros E11.
    apply bool_decide_eq_false in E1. apply mem_spec in E4, E5. apply is_some_iff in E6.
    apply ReproductionPolicy_validate_iff in E8. apply CostPolicy_validate_iff in E9.
    apply CommunicationPolicy_validate_iff in E10. apply SleepSchedule_validate_iff in E11.
    by split.
  - intros [H1 H2 H3 H4 H5 H6 H7 [H8 H8'] H9 H10 H11 H12]. unfold not_below_zero in H8.
    apply mem_spec in H4, H5. apply is_some_iff in H6.
    apply ReproductionPolicy_validate_iff in H9. apply CostPolicy_validate_iff in H10.
    apply CommunicationPolicy_validate_iff in H11. apply SleepSchedule_validate_iff in H12.
    unfold str_eqb. rewrite bool_decide_eq_false_2 by done.
    replace (Generation g <? 0) with false by lia.
    replace (LineageDepth g <? 0) with false by lia.
    replace (StrategistIntervalSeconds g <? 0) with false by lia.
    by rewrite H4, H5, H6, H8, H8', H9, H10, H11, H12.
Qed.

(** The refusals of [Validate], in the order in which it makes them. *)
Definition genome_checks (g : AgentGenome) : list (bool * string) :=
  let rp := g_ReproductionPolicy g in
  let cp := g_CostPolicy g in
  let mp := g_CommunicationPolicy g in
  [ (str_eqb (Name g) "", "genome: name is required");
    (Generation g <? 0, "genome: generation %d must be >= 0");
    (LineageDepth g <? 0, "genome: lineage_depth %d must be >= 0");
    (negb (mem (TaskType g) validTaskTypes), "genome: task_type %q not in registry");
    (negb (mem (Chain g) validChains), "genome: chain %q must be solana or base");
    (negb (is_some (RateFor (StrategistModel g))), "genome: strategist_model %q not in llm registry");
    (StrategistIntervalSeconds g <? 0, "genome: strategist_interval_seconds %d must be >= 0");
    (((CapitalAllocation g <? 0)%float || (1 <? CapitalAllocation g)%float)%bool,
      "genome: capital_allocation %.4f must be in [0, 1]");
    (MinProfitableEpochs rp <? 0, "genome: reproduction_policy.min_profitable_epochs %d must be >= 0");
    (MaxDescendantsPerEpoch rp <? 0, "genome: reproduction_policy.max_descendants_per_epoch %d must be >= 0");
    ((MinRealizedNetProfitUSD rp <? 0)%float, "genome: reproduction_policy.min_realized_net_profit_usd %.2f must be >= 0");
    ((OffspringSeedCapitalUSD rp <? 0)%float, "genome: reproduction_policy.offspring_seed_capital_usd %.2f must be >= 0");
    ((OffspringAPIReserveUSD rp <? 0)%float, "genome: reproduction_policy.offspring_api_reserve_usd %.2f must be >= 0");
    ((OffspringFailureBufferUSD rp <? 0)%float, "genome: reproduction_policy.offspring_failure_buffer_usd %.2f must be >= 0");
    ((MonthlyLLMBudgetUSD cp <? 0)%float, "genome: cost_policy.monthly_llm_budget_usd %.2f must be >= 0");
    ((MonthlyInfraRentBudgetUSD cp <? 0)%float, "genome: cost_policy.monthly_infra_rent_budget_usd %.2f must be >= 0");
    (MaxBroadcastsPerCycle mp <? 0, "genome: communication_policy.max_broadcasts_per_cycle %d must be >= 0");
    (IntelSummaryMaxItems mp <? 0, "genome: communication_policy.intel_summary_max_items %d must be >= 0");
    (AwakeWindowMinutes (g_SleepSchedule g) <? 0, "genome: sleep_schedule.awake_window_minutes %d must be >= 0") ].

Definition first_failure (checks : list (bool * string)) : option gerror :=
  match List.find fst checks with
  | Some (_, e) => Some (EMsg e)
  | None => None
  end.

(** Validation accepts exactly the genomes that satisfy the documented
    invariants, and refuses any other with the error of the first violated
    one in the documented order. *)
Theorem Validate_spec g :
  (Validate g = None <-> genome_valid g) /\ Validate g = first_failure (genome_checks g).
Proof.
  split; [apply Validate_iff|].
  unfold Validate, first_failure, genome_checks, ReproductionPolicy_validate,
    CostPolicy_validate, CommunicationPolicy_validate, SleepSchedule_validate, gerr.
  cbn [List.find fst].
  repeat match goal with |- context [if ?b then _ else _] => destruct b; [done|] end.
  done.
Qed.
