(* ===== verification/Task.v ===== *)
(** * The task contract

    [internal/agent/tasks]: the trades a task returns, the numbers a
    strategist's adjustments carry, the throttles and the calendar day the
    strategies share ([interface.go] and the helpers of
    [cross_chain_yield.go], [cross_chain_yield_config.go] and
    [liquidity_provision_config.go]), the chain client's answers
    ([internal/chain/types.go]), and the interface [Task] with what it
    promises. *)
From Stdlib Require Import ZArith Lia Ascii Floats.
From stdpp Require Import base list strings gmap.
From S2P Require Import Prelude GoBase GoFmt GoFloat GoRound GoRand Genome.
Set Warnings "-inexact-float,-register-all".
Open Scope Z_scope.

(** ** Trades *)

(** [tasks.Trade]; the metadata is the value of its map. *)
Record Trade := {
  tr_ID : string;
  tr_AgentID : string;
  tr_EpochID : string;
  tr_Chain : string;
  tr_TradeType : string;
  tr_TokenPair : string;
  tr_DEX : string;
  tr_AmountIn : float;
  tr_AmountOut : float;
  tr_FeePaid : float;
  tr_PnL : float;
  tr_TxSignature : string;
  tr_IsPaperTrade : bool;
  tr_BanditPolicyUsed : string;
  tr_ExecutedAt : Time;
  tr_Metadata : gmap string config_value;
}.

(** ** What a chain client answers *)

Record Quote := {
  q_Chain : string;
  q_DEX : string;
  q_TokenIn : string;
  q_TokenOut : string;
  q_AmountIn : float;
  q_AmountOut : float;
  q_Price : float;
  q_PriceImpact : float;
  q_FeeAmount : float;
  q_SlippageBps : Z;
  q_GeneratedAt : Time;
  q_RouteRaw : string;
}.

(** A quote of which only the amounts and the price are said. *)
Definition price_quote (inn out price : float) : Quote := {|
  q_Chain := ""; q_DEX := ""; q_TokenIn := ""; q_TokenOut := ""; q_AmountIn := inn; q_AmountOut := out;
  q_Price := price; q_PriceImpact := 0; q_FeeAmount := 0; q_SlippageBps := 0; q_GeneratedAt := zero_time;
  q_RouteRaw := "" |}.

Record LendingPosition := {
  lp_Chain : string;
  lp_Protocol : string;
  lp_Owner : string;
  CollateralAsset : string;
  CollateralAmt : float;
  DebtAsset : string;
  DebtAmt : float;
  HealthFactor : float;
  LiquidationBonus : float;
}.

Record YieldRate := {
  y_Chain : string;
  y_Protocol : string;
  y_Asset : string;
  y_APY : float;
  y_TVL : float;
  y_UpdatedAt : Time;
}.

Record TxResult := {
  tx_Signature : string;
  tx_Success : bool;
  tx_GasUsed : Z;
  tx_GasPriceWei : Z;
  tx_FeePaidUSD : float;
  tx_BlockNumber : Z;
  tx_ErrorMsg : string;
}.

(** A result with a signature and a verdict, the rest zero. *)
Definition tx_result (signature : string) (success : bool) : TxResult := {|
  tx_Signature := signature; tx_Success := success; tx_GasUsed := 0; tx_GasPriceWei := 0;
  tx_FeePaidUSD := 0; tx_BlockNumber := 0; tx_ErrorMsg := "" |}.

(** Everything a call on a task reads: the clock, by the number of earlier
    readings in the call, and the clients, by chain, each answering from the
    number of earlier client calls.  A liquidation answers a result, possibly
    nil, or an error.  [e_range] is the order the call's loops over maps visit
    them in, by the number of earlier loops. *)
Record Env := {
  e_now : nat -> Time;
  e_quote : string -> string -> string -> float -> result Quote;
  e_yields : string -> list string -> result (list YieldRate);
  e_positions : nat -> string -> string -> result (list LendingPosition);
  e_liquidate : nat -> string -> LendingPosition -> result (option TxResult);
  e_range : nat -> forall V : Type, range_order string V;
}.

Definition range_fair (e : Env) : Prop := forall k V, range_ok (e_range e k V).

(** The values a state summary is made of; a map is the list of its entries. *)
Inductive jval :=
  | JStr (s : string)
  | JNum (x : float)
  | JInt (z : Z)
  | JMap (entries : list (string * jval))
  | JList (items : list jval).

(** ** Adjustments *)

(** A value of the strategist's adjustments: the cases [toFloat] tells apart.
    A [float32] is its value, a [json.Number] is what its [Float64] gives. *)
Inductive any :=
  | AFloat64 (x : float)
  | AFloat32 (x : float)
  | AInt (z : Z)
  | AInt64 (z : Z)
  | ANumber (f : result float)
  | ABool (b : bool)
  | AOther (type : string).

Definition toFloat (v : any) : option float :=
  match v with
  | AFloat64 x => Some x
  | AFloat32 x => Some x
  | AInt z => Some (float_of_int z)
  | AInt64 z => Some (float_of_int z)
  | ANumber (Ok f) => Some f
  | _ => None
  end.

Definition clampFloat (v lo hi : float) : float :=
  if (v <? lo)%float then lo else if (hi <? v)%float then hi else v.

Definition clampInt (v lo hi : Z) : Z :=
  if v <? lo then lo else if hi <? v then hi else v.

(** [if x == 0 { x = d }]. *)
Definition or_default (x d : float) : float := if (x =? 0)%float then d else x.

(** [v < lo || v > hi]. *)
Definition foutside (v lo hi : float) : bool := ((v <? lo) || (hi <? v))%float%bool.

(** A numeric case of a task's [switch]. *)
Definition numeric {A} (raw : any) (err : string) (update : float -> A) : result A :=
  match toFloat raw with
  | Some v => Ok (update v)
  | None => Fail (EMsg err)
  end.

(** The loop of [ApplyAdjustments]: the first entry of the wrong type ends it,
    with the entries before it applied. *)
Fixpoint apply_entries {S} (case : string -> any -> result (S -> S))
    (entries : list (string * any)) (s : S) : option gerror * S :=
  match entries with
  | [] => (None, s)
  | (k, raw) :: entries' =>
      match case k raw with
      | Fail err => (Some err, s)
      | Ok update => apply_entries case entries' (update s)
      end
  end.

(** ** The throttles *)

(** [time.Duration(secs * float64(time.Second))]. *)
Definition seconds (secs : float) : Duration := int_of_float (secs * float_of_int Second)%float.

(** A task polls on its first tick, and then at most once an interval. *)
Definition poll_due (lastCheck now : Time) (interval : Duration) : bool :=
  IsZero lastCheck || negb (Sub now lastCheck <? interval).

(** [now.UTC().Format("2006-01-02")]. *)
Definition FormatDate (t : Time) : string :=
  let '(y, m, d) := civil_of_days (t / day_ns) in
  pad0 4 (Itoa y) +:+ "-" +:+ pad0 2 (Itoa m) +:+ "-" +:+ pad0 2 (Itoa d).

(** ** Token pairs *)

Definition ascii_upper (c : ascii) : ascii :=
  let n := N_of_ascii c in
  if (97 <=? n)%N && (n <=? 122)%N then ascii_of_N (n - 32) else c.

Fixpoint map_upper (s : string) : string :=
  match s with
  | EmptyString => ""
  | String c s' => String (ascii_upper c) (map_upper s')
  end.

(** [strings.ToUpper]; Unicode's tables are the argument. *)
Definition ToUpper (unicode_upper : string -> string) (s : string) : string :=
  if is_ascii s then map_upper s else unicode_upper s.

(** [strings.Index(s, sep)] for a one-byte separator, [-1] when it is not there. *)
Fixpoint index_from (i : Z) (s : string) (sep : ascii) : Z :=
  match s with
  | EmptyString => -1
  | String c s' => if Ascii.eqb c sep then i else index_from (i + 1) s' sep
  end.

Definition Index (s : string) (sep : ascii) : Z := index_from 0 s sep.

Definition splitTokenPair (unicode_upper : string -> string) (pair : string)
    : result (string * string) :=
  (fix seps l :=
     match l with
     | [] => Fail (EMsg "liquidity_provision: token_pair %q must look like TOKEN_A/TOKEN_B")
     | sep :: l' =>
         let i := Index pair sep in
         if (0 <? i) && (i <? str_len pair - 1) then
           Ok (ToUpper unicode_upper (str_take (Z.to_nat i) pair),
               ToUpper unicode_upper (str_drop (Z.to_nat (i + 1)) pair))
         else seps l'
     end) ["/"; "-"; ":"]%char.

(** ** Lemmas *)

(** Decimal numerals are read back, whatever the padding. *)
Fixpoint numeral (acc : Z) (s : string) : Z :=
  match s with
  | EmptyString => acc
  | String c s' => numeral (10 * acc + (Z.of_N (N_of_ascii c) - 48)) s'
  end.

Lemma digit_ascii n : 0 <= n ->
  N_of_ascii (ascii_of_N (48 + Z.to_N (n mod 10))) = (48 + Z.to_N (n mod 10))%N.
Proof.
  intros Hn. apply N_ascii_embedding. pose proof (Z.mod_pos_bound n 10). lia.
Qed.

Lemma numeral_digits fuel : forall n acc, 0 <= n < 10 ^ Z.of_nat fuel ->
  numeral 0 (digits fuel n acc) = numeral n acc.
Proof.
  induction fuel as [|fuel IH]; intros n acc Hn.
  - cbn in Hn. by replace n with 0 by lia.
  - cbn [digits]. pose proof (Z.div_mod n 10 ltac:(lia)) as Hd.
    pose proof (Z.mod_pos_bound n 10 ltac:(lia)) as Hm.
    assert (E : forall a, 10 * a + (Z.of_N (N_of_ascii (ascii_of_N (48 + Z.to_N (n mod 10)))) - 48)
                          = 10 * a + n mod 10) by (intros a; rewrite digit_ascii; lia).
    destruct (Z.ltb_spec n 10).
    + cbn [numeral]. rewrite E. f_equal. rewrite Z.mod_small; lia.
    + rewrite IH.
      * cbn [numeral]. rewrite E. f_equal. lia.
      * rewrite Nat2Z.inj_succ, Z.pow_succ_r in Hn by lia.
        split; [apply Z.div_pos; lia|]. apply Z.div_lt_upper_bound; lia.
Qed.

Lemma numeral_Itoa n : 0 <= n -> numeral 0 (Itoa n) = n.
Proof.
  intros Hn. unfold Itoa. rewrite Z.abs_eq by done.
  destruct (Z.ltb_spec n 0); [lia|]. rewrite numeral_digits; [done|].
  split; [done|]. rewrite Nat2Z.inj_succ, Z2Nat.id by apply Z.log2_nonneg.
  destruct (decide (n = 0)) as [->|Hnz]; [done|].
  pose proof (Z.log2_spec n ltac:(lia)) as [_ Hlog]. pose proof (Z.log2_nonneg n).
  eapply Z.lt_le_trans; [exact Hlog|]. apply Z.pow_le_mono_l. lia.
Qed.

Lemma numeral_zeros k : forall s, numeral 0 (zeros k +:+ s) = numeral 0 s.
Proof. induction k as [|k IH]; intros s; [done|]. exact (IH s). Qed.

Lemma numeral_pad0 k n : 0 <= n -> numeral 0 (pad0 k (Itoa n)) = n.
Proof. intros Hn. unfold pad0. by rewrite numeral_zeros, numeral_Itoa. Qed.

Lemma no_dash_digits fuel : forall n acc, 0 <= n ->
  no_byte "-" acc = true -> no_byte "-" (digits fuel n acc) = true.
Proof.
  induction fuel as [|fuel IH]; intros n acc Hn Ha; [done|]. cbn [digits].
  assert (H : no_byte "-" (String (ascii_of_N (48 + Z.to_N (n mod 10))) acc) = true).
  { cbn [no_byte]. rewrite Ha, andb_true_r. apply negb_true_iff, Ascii.eqb_neq. intros E.
    apply (f_equal N_of_ascii) in E. rewrite digit_ascii in E by done.
    change (N_of_ascii "-") with 45%N in E. lia. }
  destruct (n <? 10); [done|]. apply IH; [apply Z.div_pos; lia|done].
Qed.

Lemma no_dash_pad0 k n : 0 <= n -> no_byte "-" (pad0 k (Itoa n)) = true.
Proof.
  intros Hn. unfold pad0. rewrite no_byte_app. apply andb_true_intro. split.
  - generalize (k - String.length (Itoa n))%nat as j. induction j as [|j IH]; [done|]. exact IH.
  - unfold Itoa. destruct (Z.ltb_spec n 0); [lia|]. apply no_dash_digits; [lia|done].
Qed.

Lemma civil_year_nonneg z : 0 <= z -> 0 <= (civil_of_days z).1.1.
Proof.
  intros Hz. pose proof (days_of_month_of_civil z) as H.
  destruct (civil_of_days z) as [[y m] d]. cbn. destruct H as (Hm & Hd & He).
  destruct (Z.leb_spec 0 y); [done|]. exfalso.
  enough (days_of_month y m <= -62) by lia.
  unfold days_of_month, doe_of_month, era_days in *.
  set (y' := if m <=? 2 then y - 1 else y) in *.
  assert (y' <= -1) by (subst y'; destruct (m <=? 2); lia).
  set (mp := if 2 <? m then m - 3 else m + 9) in *.
  assert (0 <= mp <= 11) by (subst mp; destruct (Z.ltb_spec 2 m); lia).
  clearbody y' mp. clear He. Z.to_euclidean_division_equations; lia.
Qed.

(** The text of a date determines the day. *)
Lemma FormatDate_inj t u : 0 <= t -> 0 <= u ->
  FormatDate t = FormatDate u <-> t / day_ns = u / day_ns.
Proof.
  assert (Hday : 0 < day_ns) by reflexivity.
  intros Ht Hu. split; [|intros E; unfold FormatDate; by rewrite E].
  apply Z.div_pos with (b := day_ns) in Ht, Hu; [|done..].
  unfold FormatDate. generalize dependent (t / day_ns). generalize dependent (u / day_ns).
  intros a Ha b Hb.
  pose proof (civil_year_nonneg a Ha) as Hya. pose proof (civil_year_nonneg b Hb) as Hyb.
  pose proof (days_of_month_of_civil a) as Da. pose proof (days_of_month_of_civil b) as Db.
  destruct (civil_of_days a) as [[y1 m1] d1], (civil_of_days b) as [[y2 m2] d2].
  cbn in Hya, Hyb. intros E. apply (f_equal (fun s => Split s "-")) in E.
  assert (Hsplit : forall s s', no_byte "-" s = true ->
    Split (s +:+ "-" +:+ s') "-" = s :: Split s' "-") by (intros; by apply Split_app).
  do 4 (rewrite Hsplit in E by (apply no_dash_pad0; lia)).
  rewrite !Split_no_sep in E by (apply no_dash_pad0; lia).
  injection E as E1 E2 E3.
  apply (f_equal (numeral 0)) in E1, E2, E3.
  rewrite !numeral_pad0 in E1, E2, E3 by lia. destruct Da as (_ & _ & <-), Db as (_ & _ & <-).
  by subst.
Qed.

(** [v] is a number between [lo] and [hi]. *)
Definition fbetween (lo v hi : float) : bool := ((lo <=? v) && (v <=? hi))%float%bool.

Lemma fbetween_rank lo v hi : fbetween lo v hi = true ->
  is_nan v = false /\ frank lo <= frank v <= frank hi.
Proof.
  intros [H1 H2]%andb_prop.
  destruct (fleb_not_nan _ _ H1) as [Nl Nv], (fleb_not_nan _ _ H2) as [_ Nh].
  rewrite fleb_rank in H1, H2 by done. split; [done|]. lia.
Qed.

(** The two ways the code tests an envelope agree on numbers: refusing what is
    outside, and clamping. *)
Lemma fbetween_outside lo v hi : is_nan v = false -> is_nan lo = false -> is_nan hi = false ->
  ((v <? lo) || (hi <? v))%float%bool = negb (fbetween lo v hi).
Proof.
  intros Hv Hl Hh. unfold fbetween. rewrite !fltb_rank, !fleb_rank by done.
  destruct (Z.ltb_spec (frank v) (frank lo)), (Z.ltb_spec (frank hi) (frank v)),
    (Z.leb_spec (frank lo) (frank v)), (Z.leb_spec (frank v) (frank hi)); (done || lia).
Qed.

Lemma clampFloat_between v lo hi : is_nan v = false -> fbetween lo lo hi = true ->
  fbetween lo (clampFloat v lo hi) hi = true.
Proof.
  intros Hv Hlh. destruct (andb_prop _ _ Hlh) as [Hl Hh].
  destruct (fleb_not_nan _ _ Hh) as [Nl Nh].
  unfold clampFloat. destruct (v <? lo)%float eqn:E1; [done|].
  assert (Hhh : (hi <=? hi)%float = true) by (rewrite fleb_rank by done; lia).
  destruct (hi <? v)%float eqn:E2; [unfold fbetween; by rewrite Hh, Hhh|].
  pose proof (fbetween_outside lo v hi Hv Nl Nh) as H. rewrite E1, E2 in H. cbn in H.
  by apply (f_equal negb) in H; rewrite negb_involutive in H.
Qed.

Lemma foutside_between v lo hi : fbetween lo v hi = true -> foutside v lo hi = false.
Proof.
  intros H. destruct (andb_prop _ _ H) as [H1 H2].
  destruct (fleb_not_nan _ _ H1), (fleb_not_nan _ _ H2).
  unfold foutside. rewrite fbetween_outside by done. by rewrite H.
Qed.

Lemma foutside_clamp v lo hi : is_nan v = false -> fbetween lo lo hi = true ->
  foutside (clampFloat v lo hi) lo hi = false.
Proof. intros Hv H. apply foutside_between. by apply clampFloat_between. Qed.

Lemma foutside_cases v lo hi : foutside v lo hi = false -> is_nan lo = false -> is_nan hi = false ->
  is_nan v = true \/ fbetween lo v hi = true.
Proof.
  intros H Nl Nh. destruct (is_nan v) eqn:Nv; [by left|right].
  unfold foutside in H. rewrite fbetween_outside in H by done. by apply negb_false_iff in H.
Qed.

Lemma clampInt_between v lo hi : lo <= hi -> lo <= clampInt v lo hi <= hi.
Proof.
  intros H. unfold clampInt. destruct (Z.ltb_spec v lo), (Z.ltb_spec hi v); lia.
Qed.

(** A count clamped as a float is an integer of its range. *)
Lemma clamp_count v lo hi : is_nan v = false -> 0 <= lo -> lo <= hi -> hi < 2 ^ 53 ->
  lo <= int_of_float (clampFloat v (float_of_int lo) (float_of_int hi)) <= hi.
Proof.
  intros Hv H0 Hlh Hhi. pose proof (pow2_pos 1074 ltac:(lia)) as Hp.
  assert (Hin : forall z, lo <= z <= hi -> in_int64 z)
    by (unfold in_int64, min_int64, max_int64; lia).
  destruct (proj1 (is_fin_rank _) (float_of_int_fin lo (Hin lo ltac:(lia)))) as [Nl _].
  destruct (proj1 (is_fin_rank _) (float_of_int_fin hi (Hin hi ltac:(lia)))) as [Nh Bh].
  assert (El : frank (float_of_int lo) = lo * 2 ^ 1074) by (apply float_of_int_exact; lia).
  assert (Eh : frank (float_of_int hi) = hi * 2 ^ 1074) by (apply float_of_int_exact; lia).
  assert (Hb : fbetween (float_of_int lo) (float_of_int lo) (float_of_int hi) = true)
    by (unfold fbetween; rewrite !fleb_rank by done; rewrite El, Eh; lia).
  destruct (fbetween_rank _ _ _ (clampFloat_between v _ _ Hv Hb)) as [Nc Hc].
  set (c := clampFloat v _ _) in *. rewrite El, Eh in Hc.
  rewrite int_of_float_floor.
  - split; [apply Z.div_le_lower_bound; lia|].
    apply Z.lt_succ_r, Z.div_lt_upper_bound; lia.
  - apply is_fin_rank. split; [done|]. rewrite Eh in Bh. nia.
  - nia.
Qed.

(** *** Adjustments *)

(** Case analysis on the key of an entry of the adjustments, in the unfolded
    [switch] of a task. *)
Ltac switch_on H :=
  unfold numeric, str_eqb in H;
  repeat match type of H with
  | context [bool_decide ?P] =>
      let E := fresh "E" in
      destruct (bool_decide P) eqn:E;
      [apply bool_decide_eq_true_1 in E; subst|apply bool_decide_eq_false_1 in E]; cbn [negb] in H
  end;
  repeat match type of H with
  | context [toFloat ?r] => destruct (toFloat r) eqn:?
  | context [match ?r with AFloat64 _ => _ | _ => _ end] => destruct r
  end; first [discriminate H | injection H as <-].


(** The numbers among the adjustments are not NaN, as those JSON can write. *)
Definition adjustments_ok (entries : list (string * any)) : Prop :=
  Forall (fun e => forall v, toFloat e.2 = Some v -> is_nan v = false) entries.

Section Adjustments.
Context {T : Type} (case : string -> any -> result (T -> T)).

Lemma apply_entries_inv (P : T -> Prop) :
  (forall k raw u s, (forall v, toFloat raw = Some v -> is_nan v = false) ->
     case k raw = Ok u -> P s -> P (u s)) ->
  forall entries s, adjustments_ok entries -> P s -> P (apply_entries case entries s).2.
Proof.
  intros Hu entries. induction entries as [|[k raw] entries IH]; intros s Hok Hs; [done|].
  apply Forall_cons in Hok as [Hk Hok]. cbn [apply_entries].
  destruct (case k raw) as [u|] eqn:E; [|done]. apply IH; [done|]. by apply (Hu k raw).
Qed.

Lemma apply_entries_fails entries : forall s,
  (apply_entries case entries s).1 = None <->
  Forall (fun e => is_ok (case e.1 e.2) = true) entries.
Proof.
  induction entries as [|[k raw] entries IH]; intros s; [by split|].
  cbn [apply_entries]. rewrite Forall_cons. cbn.
  destruct (case k raw); [by rewrite IH; intuition|]. by split; [|intros []].
Qed.

Lemma apply_entries_perm entries entries' :
  entries ≡ₚ entries' ->
  (forall k1 k2 raw1 raw2 u1 u2 s, k1 <> k2 -> case k1 raw1 = Ok u1 -> case k2 raw2 = Ok u2 ->
     u1 (u2 s) = u2 (u1 s)) ->
  NoDup entries.*1 -> Forall (fun e => is_ok (case e.1 e.2) = true) entries ->
  forall s, apply_entries case entries' s = apply_entries case entries s.
Proof.
  intros Hp Hcomm. induction Hp as [|[k raw] l l' Hp IH|[k1 r1] [k2 r2] l|l1 l2 l3 H1 IH1 H2 IH2];
    intros Hnd Hok s.
  - done.
  - rewrite fmap_cons in Hnd. apply NoDup_cons in Hnd as [_ Hnd].
    apply Forall_cons in Hok as [Hk Hok]. cbn [apply_entries].
    destruct (case k raw); [|done]. by apply IH.
  - apply Forall_cons in Hok as [Hk1 Hok]. apply Forall_cons in Hok as [Hk2 Hok].
    rewrite !fmap_cons in Hnd. apply NoDup_cons in Hnd as [Hni _].
    cbn [apply_entries fst snd] in *.
    destruct (case k1 r1) as [u1|] eqn:E1; [|done]. destruct (case k2 r2) as [u2|] eqn:E2; [|done].
    f_equal. apply (Hcomm k2 k1 r2 r1); [|done..]. intros ->. apply Hni. left.
  - rewrite IH2; [by apply IH1|by rewrite <- H1|by rewrite <- H1].
Qed.

(** What a task shows of its cases, and what follows for its adjustments. *)
Lemma apply_entries_spec (typed : string * any -> Prop) (P : T -> Prop) entries entries' s :
  (forall k raw, is_ok (case k raw) = true <-> typed (k, raw)) ->
  (forall k raw u s, (forall v, toFloat raw = Some v -> is_nan v = false) ->
     case k raw = Ok u -> P s -> P (u s)) ->
  (forall k1 k2 raw1 raw2 u1 u2 s, k1 <> k2 -> case k1 raw1 = Ok u1 -> case k2 raw2 = Ok u2 ->
     u1 (u2 s) = u2 (u1 s)) ->
  adjustments_ok entries -> P s ->
  let '(err, s') := apply_entries case entries s in
  (err = None <-> Forall typed entries) /\ P s' /\
  (err = None -> NoDup entries.*1 -> entries ≡ₚ entries' ->
   apply_entries case entries' s = (None, s')).
Proof.
  intros Htyped HP Hcomm Hok Hs.
  pose proof (apply_entries_fails entries s) as Hf.
  pose proof (apply_entries_inv P HP entries s Hok Hs) as Hi.
  pose proof (fun Hp Hnd Hall => apply_entries_perm entries entries' Hp Hcomm Hnd Hall s) as Hperm.
  destruct (apply_entries case entries s) as [err s']. cbn in Hf, Hi.
  assert (Hty : Forall typed entries <-> Forall (fun e => is_ok (case e.1 e.2) = true) entries)
    by (apply Forall_iff; intros [k raw]; symmetry; apply Htyped).
  rewrite Hty, <- Hf. split; [done|]. split; [done|]. intros -> Hnd Hp.
  apply Hperm; [done..|]. by apply Hf.
Qed.
End Adjustments.

(** ** The interface *)

(** [tasks.Task], less the summary.  Adjustments come as the entries of their
    map in the order Go visits them. *)
Class Task (T : Type) := {
  RunTick : Env -> T -> result (list Trade) * T;
  ApplyAdjustments : Env -> list (string * any) -> T -> option gerror * T;
  GetPositionValue : Env -> T -> float;
  CloseAllPositions : Env -> T -> list Trade * T;
}.

(** What a strategy promises: an invariant every operation keeps, and nothing
    held after everything is closed. *)
Class TaskLaws (T : Type) {K : Task T} := {
  task_env : Env -> Prop;
  task_inv : T -> Prop;
  tick_inv : forall e t, task_env e -> task_inv t -> task_inv (RunTick e t).2;
  adjust_inv : forall e entries t, task_env e -> adjustments_ok entries ->
    task_inv t -> task_inv (ApplyAdjustments e entries t).2;
  close_inv : forall e t, task_env e -> task_inv t -> task_inv (CloseAllPositions e t).2;
  close_flat : forall e e' t, task_env e' ->
    GetPositionValue e' (CloseAllPositions e t).2 = 0%float;
}.

(** The calls of a node runner on its task. *)
Inductive task_op :=
  | OpTick
  | OpAdjust (entries : list (string * any))
  | OpClose.

Section Session.
Context {T : Type} {K : Task T}.

(** The trades a call hands to the runner; an error hands none. *)
Definition task_step (t : T) (x : Env * task_op) : list Trade * T :=
  match x.2 with
  | OpTick => match RunTick x.1 t with (Ok trades, t') => (trades, t') | (Fail _, t') => ([], t') end
  | OpAdjust entries => ([], (ApplyAdjustments x.1 entries t).2)
  | OpClose => CloseAllPositions x.1 t
  end.

Fixpoint session (t : T) (xs : list (Env * task_op)) : list Trade * T :=
  match xs with
  | [] => ([], t)
  | x :: xs' =>
      let '(trades, t') := task_step t x in
      let '(trades', t'') := session t' xs' in (trades ++ trades', t'')
  end.

Definition op_fine (task_env : Env -> Prop) (x : Env * task_op) : Prop :=
  task_env x.1 /\ match x.2 with OpAdjust entries => adjustments_ok entries | _ => True end.

Lemma session_inv {L : TaskLaws T} xs : forall t,
  Forall (op_fine task_env) xs -> task_inv t -> task_inv (session t xs).2.
Proof.
  induction xs as [|[e op] xs IH]; intros t Hxs Ht; [done|].
  apply Forall_cons in Hxs as [[He Hop] Hxs]. cbn [fst snd] in He, Hop.
  assert (H : task_inv (task_step t (e, op)).2).
  { destruct op; cbn.
    - pose proof (tick_inv e t He Ht) as H. by destruct (RunTick e t) as [[] ?].
    - by apply adjust_inv.
    - by apply close_inv. }
  cbn [session]. destruct (task_step t (e, op)) as [tr t']. pose proof (IH t' Hxs H) as H'.
  by destruct (session t' xs).
Qed.
End Session.

(** ** Ledgers

    The trades of a session as the entries of a ledger: each is a valid entry of
    the account the earlier ones leave, and the task holds what the account
    says. *)

Section Ledger.
Context {T A : Type} {K : Task T}.
Context (entry_ok : A -> Trade -> Prop) (post : A -> Trade -> A) (holds : T -> A -> Prop).

Fixpoint ledger (a : A) (trades : list Trade) : Prop :=
  match trades with
  | [] => True
  | tr :: rest => entry_ok a tr /\ ledger (post a tr) rest
  end.

Lemma ledger_app a trades rest :
  ledger a (trades ++ rest) <-> ledger a trades /\ ledger (fold_left post trades a) rest.
Proof.
  revert a. induction trades as [|tr trades IH]; intros a; cbn [app ledger fold_left]; [tauto|].
  rewrite IH. tauto.
Qed.

(** What a call adds to the ledger, and what it leaves the task holding. *)
Definition enters (t : T) (a : A) (trades : list Trade) : Prop :=
  ledger a trades /\ holds t (fold_left post trades a).

Lemma enters_app t1 t2 a trades trades' :
  enters t1 a trades -> enters t2 (fold_left post trades a) trades' -> enters t2 a (trades ++ trades').
Proof.
  intros [H1 _] [H2 H3]. split; [by apply ledger_app|]. by rewrite fold_left_app.
Qed.

Lemma session_enters (fine : Env * task_op -> Prop) xs : forall t a,
  (forall t a x, holds t a -> fine x -> let '(trades, t') := task_step t x in enters t' a trades) ->
  Forall fine xs -> holds t a -> let '(trades, t') := session t xs in enters t' a trades.
Proof.
  induction xs as [|x xs IH]; intros t a Hstep Hxs Hh; [by split|].
  apply Forall_cons in Hxs as [Hx Hxs]. cbn [session].
  pose proof (Hstep t a x Hh Hx) as H1. destruct (task_step t x) as [tr t1].
  specialize (IH t1 _ Hstep Hxs (proj2 H1)). destruct (session t1 xs) as [tr' t2].
  by apply (enters_app t1 t2).
Qed.
End Ledger.

Lemma tick_cases op : op = OpTick \/ op <> OpTick.
Proof. destruct op; [by left|by right..]. Qed.

(** ** Daily quotas

    Two of the strategies count what they do in a UTC day next to the date
    the count is for.  What their ticks do to the count, and what it comes to
    over a session whose clock does not run backwards. *)

Fixpoint clock_from (u : Time) (xs : list (Env * task_op)) : Prop :=
  match xs with
  | [] => True
  | (e, OpTick) :: xs' => u <= e_now e 0%nat /\ clock_from (e_now e 0%nat) xs'
  | _ :: xs' => clock_from u xs'
  end.

(** The counted trades executed on a day. *)
Definition on_day (counted : Trade -> bool) (d : Z) (trades : list Trade) : Z :=
  len (List.filter (fun tr => counted tr && (tr_ExecutedAt tr / day_ns =? d)) trades).

Section Quota.
Context {T : Type} {K : Task T} (date : T -> string) (count : T -> Z).
Context (counted : Trade -> bool) (B : Z) (I : T -> Prop) (fine : Env * task_op -> Prop).

Record quota_laws : Prop := {
  ql_inv : forall t x, I t -> fine x -> I (task_step t x).2;
  ql_tick : forall t e, I t -> fine (e, OpTick) -> 0 <= count t <= B ->
    let now := e_now e 0%nat in
    let '(trades, t') := task_step t (e, OpTick) in
    date t' = FormatDate now /\
    count t' = (if str_eqb (date t) "" || str_eqb (date t) (FormatDate now) then count t else 0)
               + len (List.filter counted trades) /\
    count t' <= B /\ Forall (fun tr => tr_ExecutedAt tr = now) trades;
  ql_other : forall t x, x.2 <> OpTick ->
    let '(trades, t') := task_step t x in
    date t' = date t /\ count t' = count t /\ List.filter counted trades = [];
}.

Lemma filter_and_nil {A} (f g : A -> bool) l :
  List.filter f l = [] -> List.filter (fun x => f x && g x) l = [].
Proof.
  induction l as [|x l IH]; [done|]. cbn. destruct (f x); [done|]. cbn. exact IH.
Qed.

Lemma on_day_nil d trades : List.filter counted trades = [] -> on_day counted d trades = 0.
Proof. intros H. unfold on_day. by rewrite filter_and_nil. Qed.

Lemma on_day_app d l l' : on_day counted d (l ++ l') = on_day counted d l + on_day counted d l'.
Proof. unfold on_day, len. rewrite List.filter_app, length_app. lia. Qed.

Lemma on_day_same now d trades : Forall (fun tr => tr_ExecutedAt tr = now) trades ->
  on_day counted d trades = if now / day_ns =? d then len (List.filter counted trades) else 0.
Proof.
  unfold on_day, len. induction 1 as [|tr l Ht _ IH]; [by destruct (_ =? _)|].
  cbn. rewrite Ht. destruct (Z.eqb_spec (now / day_ns) d), (counted tr); cbn; lia.
Qed.

Lemma FormatDate_nonempty t : FormatDate t <> "".
Proof.
  unfold FormatDate. destruct (civil_of_days _) as [[y m] d].
  destruct (pad0 4 (Itoa y)); discriminate.
Qed.

Hypothesis L : quota_laws.

(** Nothing is executed on a day that is over. *)
Lemma session_past xs : forall t u d, clock_from u xs -> I t -> Forall fine xs ->
  0 <= count t <= B -> d < u / day_ns -> on_day counted d (session t xs).1 = 0.
Proof.
  assert (Hday : 0 < day_ns) by reflexivity.
  induction xs as [|[e op] xs IH]; intros t u d Hc Hi Hf Hb Hd; [done|].
  apply Forall_cons in Hf as [Hx Hf]. cbn [session].
  pose proof (ql_inv L t (e, op) Hi Hx) as Hi'.
  destruct (tick_cases op) as [->|Hop].
  - cbn in Hc. destruct Hc as [Hu Hc]. pose proof (ql_tick L t e Hi Hx Hb) as H.
    destruct (task_step t (e, OpTick)) as [tr t']. destruct H as (_ & Hct & HcB & Ht).
    assert (Hb' : 0 <= count t' <= B) by (unfold len in Hct; destruct (_ || _); lia).
    assert (u / day_ns <= e_now e 0%nat / day_ns) by (apply Z.div_le_mono; lia).
    specialize (IH t' (e_now e 0%nat) d Hc Hi' Hf Hb' ltac:(lia)).
    destruct (session t' xs) as [tr' t'']. cbn [fst] in *.
    rewrite on_day_app, (on_day_same _ d tr Ht). destruct (Z.eqb_spec (e_now e 0%nat / day_ns) d); lia.
  - pose proof (ql_other L t (e, op) Hop) as H.
    destruct (task_step t (e, op)) as [tr t']. destruct H as (_ & Hct & Hn).
    specialize (IH t' u d ltac:(by destruct op) Hi' Hf ltac:(lia) Hd).
    destruct (session t' xs) as [tr' t'']. cbn [fst] in *.
    rewrite on_day_app, on_day_nil; [lia|done].
Qed.

Definition used (t : T) (u : Time) (d : Z) : Z :=
  if negb (str_eqb (date t) "") && (u / day_ns =? d) then count t else 0.

Lemma used_fresh t u d : date t = "" -> used t u d = 0.
Proof. intros E. unfold used, str_eqb. by rewrite E. Qed.

Lemma session_quota xs : forall t u d, 0 <= u -> clock_from u xs -> I t -> Forall fine xs ->
  0 <= count t <= B -> (date t = "" /\ count t = 0) \/ date t = FormatDate u ->
  on_day counted d (session t xs).1 + used t u d <= B.
Proof.
  induction xs as [|[e op] xs IH]; intros t u d Hu Hc Hi Hf Hb Hd.
  { change (0 + used t u d <= B). unfold used. destruct (negb _ && _); lia. }
  pose proof Hf as Hf0. apply Forall_cons in Hf as [Hx Hf].
  pose proof (ql_inv L t (e, op) Hi Hx) as Hi'.
  destruct (tick_cases op) as [->|Hop].
  - destruct Hc as [Hnow Hc]. set (now := e_now e 0%nat) in *.
    pose proof (ql_tick L t e Hi Hx Hb) as H. cbn zeta in H. cbn [session].
    destruct (task_step t (e, OpTick)) as [tr t']. destruct H as (Hdt & Hct & HcB & Ht).
    fold now in Hdt, Hct, Ht.
    assert (Hb' : 0 <= count t' <= B) by (unfold len in Hct; destruct (_ || _); lia).
    pose proof (IH t' now d ltac:(lia) Hc Hi' Hf Hb' (or_intror Hdt)) as Hr.
    pose proof (session_past xs t' now d Hc Hi' Hf Hb') as Hpast.
    destruct (session t' xs) as [tr' t'']. cbn [fst] in *.
    rewrite on_day_app, (on_day_same _ d tr Ht). unfold used, str_eqb in *.
    rewrite Hdt, (proj2 (bool_decide_eq_false _) (FormatDate_nonempty now)) in Hr. cbn in Hr.
    assert (Hmono : u / day_ns <= now / day_ns) by (apply Z.div_le_mono; done || lia).
    unfold len in *.
    destruct Hd as [[Hd0 Hc0]|Hd].
    + rewrite (bool_decide_eq_true_2 (date t = "") Hd0) in Hct |- *. cbn [negb orb andb] in *.
      destruct (Z.eqb_spec (now / day_ns) d); lia.
    + rewrite Hd, (proj2 (bool_decide_eq_false _) (FormatDate_nonempty u)) in Hct |- *. cbn in Hct |- *.
      destruct (Z.eqb_spec (u / day_ns) d), (Z.eqb_spec (now / day_ns) d).
      * rewrite bool_decide_eq_true_2 in Hct by (apply FormatDate_inj; lia). lia.
      * specialize (Hpast ltac:(lia)). lia.
      * destruct (bool_decide _); lia.
      * lia.
  - pose proof (ql_other L t (e, op) Hop) as H. cbn [session].
    destruct (task_step t (e, op)) as [tr t']. destruct H as (Hdt & Hct & Hn).
    pose proof (IH t' u d Hu ltac:(by destruct op) Hi' Hf ltac:(lia)
      ltac:(rewrite Hdt, Hct; done)) as Hr.
    destruct (session t' xs) as [tr' t'']. cbn [fst] in *.
    rewrite on_day_app, on_day_nil by done. unfold used in *. rewrite Hdt, Hct in Hr. lia.
Qed.
End Quota.
