(* ===== verification/Momentum.v ===== *)
(** * The momentum strategy

    [internal/agent/tasks/momentum.go] and [momentum_config.go]: the config
    and its validation, the ring of price samples and its statistics, entry,
    exit, the daily quota and the strategist's adjustments.  The lock makes
    each method atomic; the config's JSON decoding and Unicode's upper case
    are arguments. *)
From Stdlib Require Import ZArith Lia Ascii Floats.
From stdpp Require Import base list strings gmap.
From S2P Require Import Prelude GoBase GoFmt GoFloat GoRound GoRand Genome Task.
Set Warnings "-inexact-float".
Open Scope Z_scope.

(** ** The config *)

Record MomentumConfig := {
  c_Chain : string;
  TokenPair : string;
  LookbackMinutes : Z;
  EntryThresholdPct : float;
  ExitThresholdPct : float;
  VolumeConfirmation : bool;
  CheckIntervalSecs : float;
  MaxPositionSizePct : float;
  MaxDrawdownPct : float;
  StopLossPerTradePct : float;
  MaxDailyTrades : Z;
  MinCapitalToOperate : float;
}.

Definition momLookbackFloor : Z := 5.
Definition momLookbackCeil : Z := 1440.
Definition momEntryThreshFloor : float := 0.001.
Definition momEntryThreshCeil : float := 0.50.
Definition momExitThreshFloor : float := 0.001.
Definition momExitThreshCeil : float := 0.50.
Definition momCheckIntervalFloor : float := 5.
Definition momCheckIntervalCeil : float := 3600.
Definition momMaxPosPctFloor : float := 0.01.
Definition momMaxPosPctCeil : float := 1.
Definition momStopLossFloor : float := 0.001.
Definition momStopLossCeil : float := 0.50.
Definition momMaxDailyFloor : Z := 1.
Definition momMaxDailyCeil : Z := 200.

Definition applyDefaults (c : MomentumConfig) : MomentumConfig := {|
  c_Chain := c_Chain c; TokenPair := TokenPair c;
  LookbackMinutes := if LookbackMinutes c =? 0 then 60 else LookbackMinutes c;
  EntryThresholdPct := or_default (EntryThresholdPct c) 0.02;
  ExitThresholdPct := or_default (ExitThresholdPct c) 0.01;
  VolumeConfirmation := VolumeConfirmation c;
  CheckIntervalSecs := or_default (CheckIntervalSecs c) 30;
  MaxPositionSizePct := or_default (MaxPositionSizePct c) 0.25;
  MaxDrawdownPct := MaxDrawdownPct c;
  StopLossPerTradePct := or_default (StopLossPerTradePct c) 0.05;
  MaxDailyTrades := if MaxDailyTrades c =? 0 then 10 else MaxDailyTrades c;
  MinCapitalToOperate := MinCapitalToOperate c |}.

Definition Validate (unicode_upper : string -> string) (c : MomentumConfig) : option gerror :=
  if str_eqb (c_Chain c) "" then gerr "momentum: chain required"
  else if negb (str_eqb (c_Chain c) "solana") && negb (str_eqb (c_Chain c) "base") then
    gerr "momentum: chain %q must be solana or base"
  else if str_eqb (TokenPair c) "" then gerr "momentum: token_pair required"
  else match splitTokenPair unicode_upper (TokenPair c) with
  | Fail err => Some err
  | Ok _ =>
    if (LookbackMinutes c <? momLookbackFloor) || (momLookbackCeil <? LookbackMinutes c) then
      gerr "momentum: lookback_minutes=%v out of [%v,%v]"
    else if foutside (EntryThresholdPct c) momEntryThreshFloor momEntryThreshCeil then
      gerr "momentum: entry_threshold_pct=%v out of [%v,%v]"
    else if foutside (ExitThresholdPct c) momExitThreshFloor momExitThreshCeil then
      gerr "momentum: exit_threshold_pct=%v out of [%v,%v]"
    else if foutside (CheckIntervalSecs c) momCheckIntervalFloor momCheckIntervalCeil then
      gerr "momentum: check_interval_secs=%v out of [%v,%v]"
    else if foutside (MaxPositionSizePct c) momMaxPosPctFloor momMaxPosPctCeil then
      gerr "momentum: max_position_size_pct=%v out of [%v,%v]"
    else if foutside (StopLossPerTradePct c) momStopLossFloor momStopLossCeil then
      gerr "momentum: stop_loss_per_trade_pct=%v out of [%v,%v]"
    else if (MaxDailyTrades c <? momMaxDailyFloor) || (momMaxDailyCeil <? MaxDailyTrades c) then
      gerr "momentum: max_daily_trades=%v out of [%v,%v]"
    else if (MinCapitalToOperate c <? 0)%float then
      gerr "momentum: min_capital_to_operate must be non-negative"
    else None
  end.

(** ** The state *)

Record priceSample := { At : Time; Price : float; Volume : float }.

Record momentumPosition := {
  OpenedAt : Time;
  EntryPrice : float;
  StopPrice : float;
  SizeUSD : float;
  Units : float;
}.

Record Momentum := {
  cfg : MomentumConfig;
  tokenA : string;
  tokenB : string;
  freeCapital : float;
  history : list priceSample;
  position : option momentumPosition;
  lastCheck : Time;
  dailyDate : string;
  dailyTotal : Z;
  totalTrades : Z;
  totalWins : Z;
}.

(** [clients] are the names of [deps.Clients], [None] when the map is nil. *)
Definition NewMomentum (unicode_upper : string -> string) (clients : option (gset string))
    (c : MomentumConfig) : result Momentum :=
  let c := applyDefaults c in
  match Validate unicode_upper c with
  | Some err => Fail err
  | None =>
    match clients with
    | None => Fail (EMsg "momentum: deps.Clients required")
    | Some names =>
      if negb (bool_decide (c_Chain c ∈ names)) then
        Fail (EMsg "momentum: chain %q missing from deps.Clients")
      else
        match splitTokenPair unicode_upper (TokenPair c) with
        | Fail err => Fail err
        | Ok (a, b) => Ok {|
            cfg := c; tokenA := a; tokenB := b; freeCapital := 0; history := [];
            position := None; lastCheck := zero_time; dailyDate := ""; dailyTotal := 0;
            totalTrades := 0; totalWins := 0 |}
        end
    end
  end.

Definition with_cfg (m : Momentum) (c : MomentumConfig) : Momentum := {|
  cfg := c; tokenA := tokenA m; tokenB := tokenB m; freeCapital := freeCapital m;
  history := history m; position := position m; lastCheck := lastCheck m;
  dailyDate := dailyDate m; dailyTotal := dailyTotal m;
  totalTrades := totalTrades m; totalWins := totalWins m |}.

Definition with_history (m : Momentum) (h : list priceSample) : Momentum := {|
  cfg := cfg m; tokenA := tokenA m; tokenB := tokenB m; freeCapital := freeCapital m;
  history := h; position := position m; lastCheck := lastCheck m;
  dailyDate := dailyDate m; dailyTotal := dailyTotal m;
  totalTrades := totalTrades m; totalWins := totalWins m |}.

Definition with_lastCheck (m : Momentum) (t : Time) : Momentum := {|
  cfg := cfg m; tokenA := tokenA m; tokenB := tokenB m; freeCapital := freeCapital m;
  history := history m; position := position m; lastCheck := t;
  dailyDate := dailyDate m; dailyTotal := dailyTotal m;
  totalTrades := totalTrades m; totalWins := totalWins m |}.

Definition with_daily (m : Momentum) (date : string) (total : Z) : Momentum := {|
  cfg := cfg m; tokenA := tokenA m; tokenB := tokenB m; freeCapital := freeCapital m;
  history := history m; position := position m; lastCheck := lastCheck m;
  dailyDate := date; dailyTotal := total;
  totalTrades := totalTrades m; totalWins := totalWins m |}.

Definition SeedFreeCapital (m : Momentum) (usd : float) : Momentum := {|
  cfg := cfg m; tokenA := tokenA m; tokenB := tokenB m; freeCapital := usd;
  history := history m; position := position m; lastCheck := lastCheck m;
  dailyDate := dailyDate m; dailyTotal := dailyTotal m;
  totalTrades := totalTrades m; totalWins := totalWins m |}.

(** ** The ring of samples *)

Definition lookbackSamples (c : MomentumConfig) : Z :=
  let n := int_of_float (float_of_int (LookbackMinutes c) * 60 / CheckIntervalSecs c)%float in
  let n := if n <? 5 then 5 else n in
  n + 4.

Definition pushSampleLocked (m : Momentum) (s : priceSample) : Momentum :=
  let h := history m ++ [s] in
  let cap := lookbackSamples (cfg m) in
  with_history m (if cap <? len h then drop (Z.to_nat (len h - cap)) h else h).

Definition IngestSample (m : Momentum) (at_ : Time) (price volume : float) : Momentum :=
  pushSampleLocked m {| At := at_; Price := price; Volume := volume |}.

(** One turn of the loop of [lookbackStatsLocked] over (first, high, low,
    volSum, n). *)
Definition stats_step (cutoff : Time) (acc : bool * float * float * float * Z) (s : priceSample)
    : bool * float * float * float * Z :=
  let '(first, high, low, volSum, n) := acc in
  if Before (At s) cutoff then acc
  else
    let '(high, low) :=
      if first then (Price s, Price s)
      else (if (high <? Price s)%float then Price s else high,
            if (Price s <? low)%float then Price s else low) in
    (false, high, low, (volSum + Volume s)%float, n + 1).

Definition lookbackStatsLocked (m : Momentum) (now : Time) : float * float * float * float :=
  if len (history m) <? 2 then (0, 0, 0, 0)%float
  else
    let cutoff := Add now (wrap64 (- LookbackMinutes (cfg m) * Minute)) in
    let '(first, high, low, volSum, n) :=
      fold_left (stats_step cutoff) (take (length (history m) - 1) (history m))
        (true, 0%float, 0%float, 0%float, 0) in
    if first then (0, 0, 0, 0)%float
    else (high, low, ((high + low) / 2)%float,
          if 0 <? n then (volSum / float_of_int n)%float else 0%float).

Definition latestPriceLocked (m : Momentum) : float := from_option Price 0%float (last (history m)).

Definition latestVolumeLocked (m : Momentum) : float := from_option Volume 0%float (last (history m)).

(** ** Entry and exit *)

Definition enter_trade (m : Momentum) (now : Time) (price notional high trigger avgVol : float) : Trade := {|
  tr_ID := ""; tr_AgentID := ""; tr_EpochID := "";
  tr_Chain := c_Chain (cfg m); tr_TradeType := "momentum_enter"; tr_TokenPair := TokenPair (cfg m);
  tr_DEX := "spot"; tr_AmountIn := notional; tr_AmountOut := (notional / price)%float;
  tr_FeePaid := 0; tr_PnL := 0; tr_TxSignature := ""; tr_IsPaperTrade := true;
  tr_BanditPolicyUsed := ""; tr_ExecutedAt := now;
  tr_Metadata := {[ "entry_price" := VFloat price;
    "stop_price" := VFloat (price * (1 - StopLossPerTradePct (cfg m)))%float;
    "window_high" := VFloat high; "trigger" := VFloat trigger; "avg_volume" := VFloat avgVol ]} |}.

Definition maybeEnterLocked (m : Momentum) (now now' : Time) (price : float) : list Trade * Momentum :=
  let c := cfg m in
  if (freeCapital m <? MinCapitalToOperate c)%float then ([], m)
  else if MaxDailyTrades c <=? dailyTotal m then ([], m)
  else
    let '(high, _, _, avgVol) := lookbackStatsLocked m now' in
    if (high <=? 0)%float then ([], m)
    else
      let trigger := (high * (1 + EntryThresholdPct c))%float in
      if (price <? trigger)%float then ([], m)
      else if VolumeConfirmation c && (latestVolumeLocked m <=? avgVol)%float then ([], m)
      else
        let notional := (freeCapital m * MaxPositionSizePct c)%float in
        if (notional <=? 0)%float then ([], m)
        else
          let pos := {|
            OpenedAt := now; EntryPrice := price;
            StopPrice := (price * (1 - StopLossPerTradePct c))%float;
            SizeUSD := notional; Units := (notional / price)%float |} in
          ([enter_trade m now price notional high trigger avgVol], {|
            cfg := c; tokenA := tokenA m; tokenB := tokenB m;
            freeCapital := (freeCapital m - notional)%float;
            history := history m; position := Some pos; lastCheck := lastCheck m;
            dailyDate := dailyDate m; dailyTotal := wrap64 (dailyTotal m + 1);
            totalTrades := wrap64 (totalTrades m + 1); totalWins := totalWins m |}).

Definition exit_trade (m : Momentum) (pos : momentumPosition) (now : Time) (price : float)
    (reason : string) : Trade := {|
  tr_ID := ""; tr_AgentID := ""; tr_EpochID := "";
  tr_Chain := c_Chain (cfg m); tr_TradeType := "momentum_exit"; tr_TokenPair := TokenPair (cfg m);
  tr_DEX := "spot"; tr_AmountIn := Units pos; tr_AmountOut := (Units pos * price)%float;
  tr_FeePaid := 0; tr_PnL := (Units pos * price - SizeUSD pos)%float;
  tr_TxSignature := ""; tr_IsPaperTrade := true; tr_BanditPolicyUsed := ""; tr_ExecutedAt := now;
  tr_Metadata := {[ "reason" := VStr reason; "entry_price" := VFloat (EntryPrice pos);
    "exit_price" := VFloat price ]} |}.

Definition exitLocked (m : Momentum) (now : Time) (price : float) (reason : string)
    : list Trade * Momentum :=
  match position m with
  | None => ([], m)
  | Some pos =>
      let proceeds := (Units pos * price)%float in
      let pnl := (proceeds - SizeUSD pos)%float in
      ([exit_trade m pos now price reason], {|
        cfg := cfg m; tokenA := tokenA m; tokenB := tokenB m;
        freeCapital := (freeCapital m + proceeds)%float;
        history := history m; position := None; lastCheck := lastCheck m;
        dailyDate := dailyDate m; dailyTotal := dailyTotal m; totalTrades := totalTrades m;
        totalWins := if (0 <? pnl)%float then wrap64 (totalWins m + 1) else totalWins m |})
  end.

Definition maybeExitLocked (m : Momentum) (now now' : Time) (price : float) : list Trade * Momentum :=
  match position m with
  | None => ([], m)
  | Some pos =>
      if (price <=? StopPrice pos)%float then exitLocked m now price "stop_loss"
      else
        let '(_, _, mid, _) := lookbackStatsLocked m now' in
        if ((0 <? mid) && (price <=? mid * (1 - ExitThresholdPct (cfg m))))%float%bool then
          exitLocked m now price "exit_threshold"
        else ([], m)
  end.

Definition maybeResetDailyLocked (m : Momentum) (now : Time) : Momentum :=
  let day := FormatDate now in
  if str_eqb (dailyDate m) "" then with_daily m day (dailyTotal m)
  else if negb (str_eqb day (dailyDate m)) then with_daily m day 0
  else m.

(** ** The task *)

(** The price of a quote, from its amounts when it carries none. *)
Definition quote_price (q : Quote) : float :=
  if ((q_Price q <=? 0) && (0 <? q_AmountIn q))%float%bool
  then (q_AmountOut q / q_AmountIn q)%float else q_Price q.

Definition RunTick (e : Env) (m : Momentum) : result (list Trade) * Momentum :=
  let now := e_now e 0%nat in
  let m := maybeResetDailyLocked m now in
  if negb (poll_due (lastCheck m) now (seconds (CheckIntervalSecs (cfg m)))) then (Ok [], m)
  else
    let m := with_lastCheck m now in
    match e_quote e (c_Chain (cfg m)) (tokenA m) (tokenB m) 1%float with
    | Fail err => (Fail (EWrap "momentum: get quote: %w" err), m)
    | Ok quote =>
        let price := quote_price quote in
        if (price <=? 0)%float then (Fail (EMsg "momentum: non-positive price %v"), m)
        else
          let m := pushSampleLocked m {| At := now; Price := price; Volume := 0 |} in
          let '(trades, m) :=
            match position m with
            | Some _ => maybeExitLocked m now (e_now e 1%nat) price
            | None => maybeEnterLocked m now (e_now e 1%nat) price
            end in
          (Ok trades, m)
    end.

Definition winRateLocked (m : Momentum) : float :=
  if totalTrades m =? 0 then 0%float
  else (float_of_int (totalWins m) / float_of_int (totalTrades m))%float.

Definition GetStateSummary (e : Env) (m : Momentum) : list (string * jval) :=
  let '(high, low, mid, vol) := lookbackStatsLocked m (e_now e 0%nat) in
  [("chain", JStr (c_Chain (cfg m))); ("token_pair", JStr (TokenPair (cfg m)));
   ("lookback_minutes", JInt (LookbackMinutes (cfg m)));
   ("window_high", JNum high); ("window_low", JNum low); ("window_mid", JNum mid);
   ("window_avg_volume", JNum vol); ("free_capital_usd", JNum (freeCapital m));
   ("trades_today", JInt (dailyTotal m)); ("max_daily", JInt (MaxDailyTrades (cfg m)));
   ("total_trades", JInt (totalTrades m)); ("win_rate", JNum (winRateLocked m))] ++
  match position m with
  | None => []
  | Some p => [("position", JMap
      [("entry_price", JNum (EntryPrice p)); ("stop_price", JNum (StopPrice p));
       ("size_usd", JNum (SizeUSD p)); ("units", JNum (Units p));
       ("opened_at", JStr (FormatRFC3339 (OpenedAt p)))])]
  end.

(** The config with the fields an adjustment can set. *)
Definition tuned (c : MomentumConfig) (entry exit : float) (volume : bool)
    (check_secs size stop : float) (daily : Z) : MomentumConfig := {|
  c_Chain := c_Chain c; TokenPair := TokenPair c; LookbackMinutes := LookbackMinutes c;
  EntryThresholdPct := entry; ExitThresholdPct := exit; VolumeConfirmation := volume;
  CheckIntervalSecs := check_secs; MaxPositionSizePct := size;
  MaxDrawdownPct := MaxDrawdownPct c; StopLossPerTradePct := stop; MaxDailyTrades := daily;
  MinCapitalToOperate := MinCapitalToOperate c |}.

Definition set_entry (c : MomentumConfig) (x : float) : MomentumConfig :=
  tuned c x (ExitThresholdPct c) (VolumeConfirmation c) (CheckIntervalSecs c)
    (MaxPositionSizePct c) (StopLossPerTradePct c) (MaxDailyTrades c).

Definition set_exit (c : MomentumConfig) (x : float) : MomentumConfig :=
  tuned c (EntryThresholdPct c) x (VolumeConfirmation c) (CheckIntervalSecs c)
    (MaxPositionSizePct c) (StopLossPerTradePct c) (MaxDailyTrades c).

Definition set_max_position (c : MomentumConfig) (x : float) : MomentumConfig :=
  tuned c (EntryThresholdPct c) (ExitThresholdPct c) (VolumeConfirmation c) (CheckIntervalSecs c)
    x (StopLossPerTradePct c) (MaxDailyTrades c).

Definition set_stop_loss (c : MomentumConfig) (x : float) : MomentumConfig :=
  tuned c (EntryThresholdPct c) (ExitThresholdPct c) (VolumeConfirmation c) (CheckIntervalSecs c)
    (MaxPositionSizePct c) x (MaxDailyTrades c).

Definition set_max_daily (c : MomentumConfig) (z : Z) : MomentumConfig :=
  tuned c (EntryThresholdPct c) (ExitThresholdPct c) (VolumeConfirmation c) (CheckIntervalSecs c)
    (MaxPositionSizePct c) (StopLossPerTradePct c) z.

Definition set_check_interval (c : MomentumConfig) (x : float) : MomentumConfig :=
  tuned c (EntryThresholdPct c) (ExitThresholdPct c) (VolumeConfirmation c) x
    (MaxPositionSizePct c) (StopLossPerTradePct c) (MaxDailyTrades c).

Definition set_volume (c : MomentumConfig) (b : bool) : MomentumConfig :=
  tuned c (EntryThresholdPct c) (ExitThresholdPct c) b (CheckIntervalSecs c)
    (MaxPositionSizePct c) (StopLossPerTradePct c) (MaxDailyTrades c).

(** The cases of the [switch]. *)
Definition adjust_case (k : string) (raw : any) : result (Momentum -> Momentum) :=
  let set f := fun m => with_cfg m (f (cfg m)) in
  if str_eqb k "entry_threshold_pct" then
    numeric raw "momentum: entry_threshold_pct not numeric: %T"
      (fun v => set (fun c => set_entry c (clampFloat v momEntryThreshFloor momEntryThreshCeil)))
  else if str_eqb k "exit_threshold_pct" then
    numeric raw "momentum: exit_threshold_pct not numeric: %T"
      (fun v => set (fun c => set_exit c (clampFloat v momExitThreshFloor momExitThreshCeil)))
  else if str_eqb k "max_position_size_pct" then
    numeric raw "momentum: max_position_size_pct not numeric: %T"
      (fun v => set (fun c => set_max_position c (clampFloat v momMaxPosPctFloor momMaxPosPctCeil)))
  else if str_eqb k "stop_loss_per_trade_pct" then
    numeric raw "momentum: stop_loss_per_trade_pct not numeric: %T"
      (fun v => set (fun c => set_stop_loss c (clampFloat v momStopLossFloor momStopLossCeil)))
  else if str_eqb k "max_daily_trades" then
    numeric raw "momentum: max_daily_trades not numeric: %T"
      (fun v => set (fun c => set_max_daily c (int_of_float
         (clampFloat v (float_of_int momMaxDailyFloor) (float_of_int momMaxDailyCeil)))))
  else if str_eqb k "check_interval_secs" then
    numeric raw "momentum: check_interval_secs not numeric: %T"
      (fun v => set (fun c => set_check_interval c
         (clampFloat v momCheckIntervalFloor momCheckIntervalCeil)))
  else if str_eqb k "volume_confirmation" then
    match raw with
    | ABool b => Ok (set (fun c => set_volume c b))
    | _ => Fail (EMsg "momentum: volume_confirmation not boolean: %T")
    end
  else Ok (fun m => m).

Definition ApplyAdjustments (entries : list (string * any)) (m : Momentum) : option gerror * Momentum :=
  apply_entries adjust_case entries m.

Definition GetPositionValue (m : Momentum) : float :=
  match position m with
  | None => 0%float
  | Some pos =>
      let last := latestPriceLocked m in
      if (last <=? 0)%float then SizeUSD pos else (Units pos * last)%float
  end.

Definition CloseAllPositions (e : Env) (m : Momentum) : list Trade * Momentum :=
  match position m with
  | None => ([], m)
  | Some _ => exitLocked m (e_now e 0%nat) (latestPriceLocked m) "close_all"
  end.

#[export] Instance momentum_task : Task Momentum := {|
  Task.RunTick := RunTick;
  Task.ApplyAdjustments := fun _ => ApplyAdjustments;
  Task.GetPositionValue := fun _ => GetPositionValue;
  Task.CloseAllPositions := CloseAllPositions |}.

(** The factory, over the dependencies set and the decoding of the config. *)
Definition momentumFactory (unicode_upper : string -> string)
    (json_Unmarshal : string -> result MomentumConfig) (zero : MomentumConfig)
    (deps : option (option (gset string))) (raw : string) : result Momentum :=
  match deps with
  | None => Fail (EMsg "momentum: SetMomentumDeps not called")
  | Some clients =>
      if 0 <? str_len raw then
        match json_Unmarshal raw with
        | Fail err => Fail (EWrap "momentum: decode config: %w" err)
        | Ok c => NewMomentum unicode_upper clients c
        end
      else NewMomentum unicode_upper clients zero
  end.

(** ** Adjustments keep the config valid *)

Record config_ok (unicode_upper : string -> string) (c : MomentumConfig) : Prop := {
  ok_chain : c_Chain c = "solana" \/ c_Chain c = "base";
  ok_pair : TokenPair c <> "" /\ is_ok (splitTokenPair unicode_upper (TokenPair c)) = true;
  ok_lookback : momLookbackFloor <= LookbackMinutes c <= momLookbackCeil;
  ok_entry : foutside (EntryThresholdPct c) momEntryThreshFloor momEntryThreshCeil = false;
  ok_exit : foutside (ExitThresholdPct c) momExitThreshFloor momExitThreshCeil = false;
  ok_check : foutside (CheckIntervalSecs c) momCheckIntervalFloor momCheckIntervalCeil = false;
  ok_size : foutside (MaxPositionSizePct c) momMaxPosPctFloor momMaxPosPctCeil = false;
  ok_stop : foutside (StopLossPerTradePct c) momStopLossFloor momStopLossCeil = false;
  ok_daily : momMaxDailyFloor <= MaxDailyTrades c <= momMaxDailyCeil;
  ok_capital : (MinCapitalToOperate c <? 0)%float = false;
}.

Lemma mom_Validate_iff unicode_upper c : Validate unicode_upper c = None <-> config_ok unicode_upper c.
Proof.
  unfold Validate, gerr, str_eqb. split.
  - intros H. dmatches_in H. rewrite orb_false_iff, !Z.ltb_ge in *.
    rewrite andb_false_iff, !negb_false_iff, !bool_decide_eq_true, !bool_decide_eq_false in *.
    by constructor; [tauto|split; [|by rewrite Hm2]|..].
  - intros [Hc [Hp Hs] Hl -> -> -> -> -> Hd ->].
    rewrite (bool_decide_eq_false_2 (TokenPair c = "")) by done.
    destruct (splitTokenPair unicode_upper (TokenPair c)); [|done].
    replace ((LookbackMinutes c <? momLookbackFloor) || (momLookbackCeil <? LookbackMinutes c))
      with false by lia.
    replace ((MaxDailyTrades c <? momMaxDailyFloor) || (momMaxDailyCeil <? MaxDailyTrades c))
      with false by lia.
    by destruct Hc as [-> | ->].
Qed.

(** The entries the task takes: numbers under its numeric keys, a boolean
    under its switch, anything under a key it does not know. *)
Definition numeric_keys : list string :=
  ["entry_threshold_pct"; "exit_threshold_pct"; "max_position_size_pct"; "stop_loss_per_trade_pct";
   "max_daily_trades"; "check_interval_secs"].

Definition well_typed (e : string * any) : Prop :=
  (e.1 ∈ numeric_keys -> is_Some (toFloat e.2)) /\
  (e.1 = "volume_confirmation" -> exists b, e.2 = ABool b).

(** Case analysis on the key of an entry. *)
Ltac switch_key H := unfold adjust_case in H; switch_on H.

Lemma mom_adjust_case_typed k raw : is_ok (adjust_case k raw) = true <-> well_typed (k, raw).
Proof.
  unfold well_typed, numeric_keys, adjust_case, numeric, str_eqb. cbn [fst snd].
  split.
  - intros H. split.
    + intros Hk. rewrite !elem_of_cons in Hk.
      destruct Hk as [->|[->|[->|[->|[->|[->|[]%not_elem_of_nil]]]]]]; cbn in H;
        (destruct (toFloat raw); [by eexists|done]).
    + intros ->. cbn in H. destruct raw; try done. by eexists.
  - intros [Hn Hb].
    repeat match goal with
    | |- context [bool_decide ?P] =>
        let E := fresh "E" in
        destruct (bool_decide P) eqn:E;
        [apply bool_decide_eq_true_1 in E; subst;
         first [by destruct (Hn ltac:(repeat constructor)) as [v ->]|by destruct Hb as [b ->]]|]
    end.
    done.
Qed.

(** What a case may do: edit the config, within the envelope. *)
Lemma mom_adjust_case_edits unicode_upper k raw u m :
  (forall v, toFloat raw = Some v -> is_nan v = false) -> adjust_case k raw = Ok u ->
  u m = with_cfg m (cfg (u m)) /\
  (config_ok unicode_upper (cfg m) -> config_ok unicode_upper (cfg (u m))).
Proof.
  intros Hn H. switch_key H; (split; [by destruct m|]); intros [];
    try (constructor; cbn; (done || (apply foutside_clamp; [by apply Hn|reflexivity]))).
  constructor; cbn; try done. apply (clamp_count _ momMaxDailyFloor momMaxDailyCeil); [by apply Hn|done..].
Qed.

Lemma mom_adjust_case_commutes k1 k2 raw1 raw2 u1 u2 m :
  k1 <> k2 -> adjust_case k1 raw1 = Ok u1 -> adjust_case k2 raw2 = Ok u2 -> u1 (u2 m) = u2 (u1 m).
Proof. intros Hk H1 H2. switch_key H1; switch_key H2; first [reflexivity|by destruct Hk]. Qed.

(** The strategist's adjustments. They fail exactly when some value has
    the wrong type for its key; whatever they hold, only the config changes and
    it still validates; and when they are accepted, the order Go visits the map
    in does not matter. *)
Theorem momentum_adjustments unicode_upper entries entries' m :
  adjustments_ok entries -> Validate unicode_upper (cfg m) = None ->
  let '(err, m') := ApplyAdjustments entries m in
  (err = None <-> Forall well_typed entries) /\
  m' = with_cfg m (cfg m') /\ Validate unicode_upper (cfg m') = None /\
  (err = None -> NoDup entries.*1 -> entries ≡ₚ entries' ->
   ApplyAdjustments entries' m = (None, m')).
Proof.
  intros Hok Hv. unfold ApplyAdjustments.
  pose proof (apply_entries_spec adjust_case well_typed
    (fun m' => m' = with_cfg m (cfg m') /\ Validate unicode_upper (cfg m') = None)
    entries entries' m mom_adjust_case_typed) as H.
  destruct (apply_entries adjust_case entries m) as [err m'].
  enough (Hs : _) by (destruct (H Hs mom_adjust_case_commutes Hok) as (? & [] & ?);
    [split; [by destruct m|done]|tauto]).
  intros k raw u s Hn Hu [Hs Hc].
  destruct (mom_adjust_case_edits unicode_upper k raw u s Hn Hu) as [He Hk].
  split; [rewrite He, Hs; by destruct m|]. apply mom_Validate_iff, Hk. by apply mom_Validate_iff.
Qed.

(** ** What a tick does to the books *)

Definition books (m : Momentum) :=
  (cfg m, freeCapital m, position m, (dailyDate m, dailyTotal m), (totalTrades m, totalWins m)).

Definition opened (m : Momentum) (now : Time) (price : float) : momentumPosition := {|
  OpenedAt := now; EntryPrice := price; StopPrice := (price * (1 - StopLossPerTradePct (cfg m)))%float;
  SizeUSD := (freeCapital m * MaxPositionSizePct (cfg m))%float;
  Units := (freeCapital m * MaxPositionSizePct (cfg m) / price)%float |}.

Lemma maybeEnterLocked_cases m now now' price trades m' :
  maybeEnterLocked m now now' price = (trades, m') ->
  (trades = [] /\ m' = m) \/
  (let n := (freeCapital m * MaxPositionSizePct (cfg m))%float in
   (exists high trigger avgVol, trades = [enter_trade m now price n high trigger avgVol] /\
      (VolumeConfirmation (cfg m) = true -> (latestVolumeLocked m <=? (lookbackStatsLocked m now').2)%float = false)) /\
   dailyTotal m < MaxDailyTrades (cfg m) /\ (n <=? 0)%float = false /\
   books m' = (cfg m, (freeCapital m - n)%float, Some (opened m now price),
     (dailyDate m, wrap64 (dailyTotal m + 1)), (wrap64 (totalTrades m + 1), totalWins m)) /\
   history m' = history m).
Proof.
  unfold maybeEnterLocked. intros H.
  destruct (freeCapital m <? _)%float; [injection H as <- <-; by left|].
  destruct (Z.leb_spec (MaxDailyTrades (cfg m)) (dailyTotal m)); [injection H as <- <-; by left|].
  destruct (lookbackStatsLocked m now') as [[[high low] mid] avgVol] eqn:Es.
  destruct (high <=? 0)%float; [injection H as <- <-; by left|].
  destruct (price <? _)%float; [injection H as <- <-; by left|].
  destruct (VolumeConfirmation (cfg m) && _) eqn:Ev; [injection H as <- <-; by left|].
  destruct (_ <=? 0)%float eqn:En; [injection H as <- <-; by left|].
  injection H as <- <-. right. split; [|done]. do 3 eexists. split; [done|].
  intros Hv. rewrite Hv in Ev. exact Ev.
Qed.

Lemma maybeExitLocked_cases m now now' price trades m' :
  maybeExitLocked m now now' price = (trades, m') ->
  (trades = [] /\ m' = m) \/ exists reason, exitLocked m now price reason = (trades, m').
Proof.
  unfold maybeExitLocked. intros H.
  destruct (position m); [|injection H as <- <-; by left].
  destruct (price <=? _)%float; [right; by eexists|].
  destruct (lookbackStatsLocked m now') as [[[? ?] mid] ?].
  destruct (_ && _); [right; by eexists|injection H as <- <-; by left].
Qed.

Lemma exitLocked_cases m now price reason trades m' :
  exitLocked m now price reason = (trades, m') ->
  (position m = None /\ trades = [] /\ m' = m) \/
  exists pos, position m = Some pos /\ trades = [exit_trade m pos now price reason] /\
    books m' = (cfg m, (freeCapital m + Units pos * price)%float, None, (dailyDate m, dailyTotal m),
      (totalTrades m, if (0 <? Units pos * price - SizeUSD pos)%float then wrap64 (totalWins m + 1)
                      else totalWins m)) /\
    history m' = history m.
Proof.
  unfold exitLocked. destruct (position m) as [pos|] eqn:Ep; intros H; injection H as <- <-.
  - right. by exists pos.
  - by left.
Qed.

(** What a call does to the books: nothing, an entry, or an exit. *)
Inductive booked (m m' : Momentum) (now : Time) : list Trade -> Prop :=
  | Quiet : books m' = books m -> booked m m' now []
  | Enter tr : position m = None -> tr_TradeType tr = "momentum_enter" ->
      tr_AmountIn tr = (freeCapital m * MaxPositionSizePct (cfg m))%float ->
      (tr_AmountIn tr <=? 0)%float = false -> tr_ExecutedAt tr = now ->
      (exists pos, SizeUSD pos = tr_AmountIn tr /\ Units pos = tr_AmountOut tr /\
        books m' = (cfg m, (freeCapital m - tr_AmountIn tr)%float, Some pos,
          (dailyDate m, wrap64 (dailyTotal m + 1)), (wrap64 (totalTrades m + 1), totalWins m))) ->
      dailyTotal m < MaxDailyTrades (cfg m) -> booked m m' now [tr]
  | Exit tr pos : position m = Some pos -> tr_TradeType tr = "momentum_exit" ->
      tr_AmountIn tr = Units pos -> tr_PnL tr = (tr_AmountOut tr - SizeUSD pos)%float ->
      tr_ExecutedAt tr = now ->
      books m' = (cfg m, (freeCapital m + tr_AmountOut tr)%float, None, (dailyDate m, dailyTotal m),
        (totalTrades m, if (0 <? tr_PnL tr)%float then wrap64 (totalWins m + 1) else totalWins m)) ->
      booked m m' now [tr].

Lemma exitLocked_booked m now price reason trades m' :
  exitLocked m now price reason = (trades, m') -> booked m m' now trades.
Proof.
  intros [(_ & -> & ->)|(pos & Hp & -> & Hb & _)]%exitLocked_cases; [by apply Quiet|].
  by apply (Exit _ _ _ _ pos).
Qed.

Lemma books_reset m now : books (maybeResetDailyLocked m now) =
  (cfg m, freeCapital m, position m,
   (FormatDate now, if str_eqb (dailyDate m) "" || str_eqb (dailyDate m) (FormatDate now)
                    then dailyTotal m else 0), (totalTrades m, totalWins m)).
Proof.
  unfold maybeResetDailyLocked, str_eqb. destruct (bool_decide_reflect (dailyDate m = "")) as [E|E]; [done|].
  cbn [orb]. destruct (bool_decide_reflect (dailyDate m = FormatDate now)) as [E'|E'].
  - rewrite (bool_decide_eq_true_2 (FormatDate now = dailyDate m)) by done. cbn. unfold books. by rewrite E'.
  - rewrite (bool_decide_eq_false_2 (FormatDate now = dailyDate m)) by congruence. done.
Qed.

Lemma reset_history m now : history (maybeResetDailyLocked m now) = history m.
Proof.
  unfold maybeResetDailyLocked. destruct (str_eqb (dailyDate m) ""); [done|].
  by destruct (negb (str_eqb (FormatDate now) (dailyDate m))).
Qed.

(** A tick is quiet, or it samples a positive price and decides on it. *)
Lemma mom_RunTick_cases e m r m' : RunTick e m = (r, m') ->
  let now := e_now e 0%nat in
  let m1 := maybeResetDailyLocked m now in
  (match r with Ok trades => trades = [] | Fail _ => True end /\ books m' = books m1 /\
   (history m' = history m)) \/
  exists m2 price trades,
    m2 = pushSampleLocked (with_lastCheck m1 now) {| At := now; Price := price; Volume := 0 |} /\
    (price <=? 0)%float = false /\ r = Ok trades /\
    (match position m2 with
     | Some _ => maybeExitLocked m2 now (e_now e 1%nat) price
     | None => maybeEnterLocked m2 now (e_now e 1%nat) price
     end) = (trades, m').
Proof.
  unfold RunTick. cbn zeta. set (now := e_now e 0%nat). set (m1 := maybeResetDailyLocked m now).
  assert (Hh : history m1 = history m) by apply reset_history.
  intros H. destruct (negb _); [injection H as <- <-; by left|].
  destruct (e_quote _ _ _ _ _) as [q|]; [|injection H as <- <-; by left].
  destruct (quote_price q <=? 0)%float eqn:Ep; [injection H as <- <-; by left|].
  right. set (m2 := pushSampleLocked _ _) in *. exists m2, (quote_price q).
  destruct (match position m2 with Some _ => _ | None => _ end) as [trades m3].
  injection H as <- <-. by exists trades.
Qed.

Lemma books_push m s : books (pushSampleLocked m s) = books m.
Proof. done. Qed.

Lemma RunTick_booked e m r m' : RunTick e m = (r, m') ->
  booked (maybeResetDailyLocked m (e_now e 0%nat)) m' (e_now e 0%nat)
    (match r with Ok trades => trades | Fail _ => [] end).
Proof.
  intros [(Hr & Hb & _)|(m2 & price & trades & -> & _ & -> & Hd)]%mom_RunTick_cases.
  { assert (E : match r with Ok trades => trades | Fail _ => [] end = []) by (by destruct r).
    rewrite E. by apply Quiet. }
  set (m1 := maybeResetDailyLocked m (e_now e 0%nat)) in *.
  set (m2 := pushSampleLocked _ _) in *. change (position m2) with (position m1) in Hd.
  destruct (position m1) as [pos|] eqn:Ep.
  - apply maybeExitLocked_cases in Hd as [[-> ->]|[reason Hd]]; [by apply Quiet|].
    apply exitLocked_booked in Hd. by destruct Hd; [apply Quiet|eapply Enter|eapply Exit].
  - apply maybeEnterLocked_cases in Hd
      as [[-> ->]|((high & trigger & avgVol & -> & _) & Hq & Hn & Hb & _)]; [by apply Quiet|].
    apply Enter; try done. by exists (opened m2 (e_now e 0%nat) price).
Qed.

(** ** Sessions *)

Definition is_enter (tr : Trade) : bool := str_eqb (tr_TradeType tr) "momentum_enter".
Definition is_exit (tr : Trade) : bool := str_eqb (tr_TradeType tr) "momentum_exit".

Lemma mom_adjust_books entries m :
  let m' := (ApplyAdjustments entries m).2 in
  m' = with_cfg m (cfg m').
Proof.
  unfold ApplyAdjustments. revert m. induction entries as [|[k raw] entries IH]; intros m; [by destruct m|].
  cbn [apply_entries]. destruct (adjust_case k raw) as [u|] eqn:E; [|by destruct m].
  specialize (IH (u m)). cbn zeta in *. rewrite IH at 1.
  assert (Hu : u m = with_cfg m (cfg (u m))) by (switch_key E; by destruct m).
  by rewrite Hu.
Qed.

(** A step of a session, seen from the books: a tick on the day's books, an
    adjustment of the config, a close. *)
Lemma step_booked m e op trades m' : task_step m (e, op) = (trades, m') ->
  match op with
  | OpTick => booked (maybeResetDailyLocked m (e_now e 0%nat)) m' (e_now e 0%nat) trades
  | OpAdjust entries => trades = [] /\ m' = with_cfg m (cfg m') /\ m' = (ApplyAdjustments entries m).2
  | OpClose => booked m m' (e_now e 0%nat) trades /\ (exists tr, trades = [tr] /\ is_exit tr = true) \/
               trades = [] /\ m' = m
  end.
Proof.
  destruct op as [|entries|]; cbn; intros H.
  - destruct (RunTick e m) as [r m1] eqn:E. pose proof (RunTick_booked e m r m1 E) as Hb.
    by destruct r; injection H as <- <-.
  - injection H as <- <-. split; [done|]. split; [apply mom_adjust_books|done].
  - unfold CloseAllPositions in H. destruct (position m) as [pos|] eqn:Ep;
      [|injection H as <- <-; by right].
    left. split; [by eapply exitLocked_booked|]. unfold exitLocked in H. rewrite Ep in H.
    injection H as <- <-. by eexists.
Qed.

(** The adjustments of a session keep the daily cap under [B]. *)
Definition quota_kept (B : Z) (x : Env * task_op) : Prop :=
  match x.2 with
  | OpAdjust entries => Forall (fun e => e.1 = "max_daily_trades" -> forall v, toFloat e.2 = Some v ->
      int_of_float (clampFloat v (float_of_int momMaxDailyFloor) (float_of_int momMaxDailyCeil)) <= B)
      entries
  | _ => True
  end.

Lemma mom_adjust_quota B e entries m : quota_kept B (e, OpAdjust entries) ->
  MaxDailyTrades (cfg m) <= B -> MaxDailyTrades (cfg (ApplyAdjustments entries m).2) <= B.
Proof.
  unfold quota_kept, ApplyAdjustments. cbn [snd]. revert m.
  induction entries as [|[k raw] entries IH]; intros m Hq Hm; [done|].
  apply Forall_cons in Hq as [Hk Hq]. cbn [apply_entries fst snd] in *.
  destruct (adjust_case k raw) as [u|] eqn:E; [|done]. apply IH; [done|].
  switch_key E; try done. by apply Hk.
Qed.

Lemma momentum_quota_laws B : B <= max_int64 ->
  quota_laws dailyDate dailyTotal is_enter B (fun m => MaxDailyTrades (cfg m) <= B) (quota_kept B).
Proof.
  intros HB. split.
  - intros m [e op] Hm Hf. destruct (task_step m (e, op)) as [trades m'] eqn:E.
    apply step_booked in E. cbn [snd]. destruct op as [|entries|].
    + assert (Hc : cfg (maybeResetDailyLocked m (e_now e 0%nat)) = cfg m)
        by (pose proof (books_reset m (e_now e 0%nat)) as Hr; by injection Hr).
      assert (cfg m' = cfg m) as ->; [|done].
      destruct E as [Hb|tr _ _ _ _ _ (p & _ & _ & Hb) _|tr pos _ _ _ _ _ Hb];
        injection Hb; intros; congruence.
    + destruct E as (_ & _ & ->). by apply (mom_adjust_quota B e).
    + destruct E as [[E _]|[_ ->]]; [|done].
      assert (cfg m' = cfg m) as ->; [|done].
      destruct E as [Hb|tr _ _ _ _ _ (p & _ & _ & Hb) _|tr pos _ _ _ _ _ Hb];
        injection Hb; intros; congruence.
  - intros m e Hm _ Hc now. destruct (task_step m (e, OpTick)) as [trades m'] eqn:E.
    apply step_booked in E. fold now in E. set (m1 := maybeResetDailyLocked m now) in *.
    pose proof (books_reset m now) as Hr. fold m1 in Hr. injection Hr as Hcf Hfr Hp Hd Ht Htt Htw.
    assert (Hc1 : 0 <= dailyTotal m1 <= B) by (rewrite Ht; destruct (_ || _); lia).
    rewrite <- Ht. unfold len.
    destruct E as [Hb|tr _ Ety _ _ Eat (p & _ & _ & Hb) Hq|tr pos _ Ety _ _ Eat Hb];
      injection Hb; intros; (split; [congruence|]); cbn [List.filter].
    + split; [cbn [length]; lia|]. split; [lia|constructor].
    + assert (is_enter tr = true) as -> by (unfold is_enter; by rewrite Ety).
      rewrite Hcf in Hq.
      assert (Hw : wrap64 (dailyTotal m1 + 1) = dailyTotal m1 + 1)
        by (apply wrap64_id; unfold in_int64, min_int64, max_int64 in *; lia). cbn [length]. split; [lia|]. split; [lia|by repeat constructor].
    + assert (is_enter tr = false) as -> by (unfold is_enter; by rewrite Ety).
      cbn [length]. split; [lia|]. split; [lia|by repeat constructor].
  - intros m [e op] Hop. cbn in Hop. destruct (task_step m (e, op)) as [trades m'] eqn:E.
    apply step_booked in E. destruct op as [|entries|]; [done| |].
    + destruct E as (-> & -> & _). done.
    + destruct E as [[E (tr & -> & He)]|[-> ->]]; [|done].
      inversion E as [|tr' _ Ety _ _ _ _ _|tr' pos _ Ety _ _ _ Hb]; subst.
      * unfold is_exit, str_eqb in He. by rewrite Ety in He.
      * injection Hb; intros. split; [congruence|]. split; [congruence|].
        unfold is_enter, str_eqb. cbn. by rewrite Ety.
Qed.

(** Whatever the market does and whatever the strategist asks for, as long
    as the clock does not run backwards, a momentum task enters no more
    positions on one UTC day than the daily cap allows: the configured cap, or
    the highest one an adjustment sets, never more than two hundred. *)
Theorem momentum_daily_cap unicode_upper clients c m usd xs u B d :
  NewMomentum unicode_upper clients c = Ok m ->
  MaxDailyTrades (cfg m) <= B -> B <= max_int64 -> Forall (quota_kept B) xs ->
  0 <= u -> clock_from u xs ->
  on_day is_enter d (session (SeedFreeCapital m usd) xs).1 <= B.
Proof.
  intros Hnew HB Hmax Hxs Hu Hc. set (m0 := SeedFreeCapital m usd).
  assert (H0 : dailyDate m0 = "" /\ dailyTotal m0 = 0 /\ momMaxDailyFloor <= MaxDailyTrades (cfg m)).
  { unfold NewMomentum in Hnew. destruct (Validate _ _) eqn:Ev; [done|].
    apply mom_Validate_iff in Ev as [_ _ _ _ _ _ _ _ [Hd _] _].
    destruct clients; [|done]. destruct (negb _); [done|].
    destruct (splitTokenPair _ _) as [[a b]|]; [|done]. by injection Hnew as <-. }
  destruct H0 as (Hd0 & Hc0 & Hfl). unfold momMaxDailyFloor in Hfl.
  pose proof (session_quota _ _ _ B _ _ (momentum_quota_laws B Hmax) xs m0 u d Hu Hc HB Hxs
    ltac:(lia) (or_introl (conj Hd0 Hc0))) as H.
  rewrite used_fresh in H by done. lia.
Qed.

(** *** The ledger of a session *)

(** Entries and exits alternate, and an exit closes the entry before it. *)
Fixpoint ledger (open : option Trade) (trades : list Trade) : Prop :=
  match trades with
  | [] => True
  | tr :: rest =>
      match open with
      | None => is_enter tr = true /\ (tr_AmountIn tr <=? 0)%float = false /\ ledger (Some tr) rest
      | Some o => is_exit tr = true /\ tr_AmountIn tr = tr_AmountOut o /\
          tr_PnL tr = (tr_AmountOut tr - tr_AmountIn o)%float /\ ledger None rest
      end
  end.

Definition open_step (open : option Trade) (tr : Trade) : option Trade :=
  match open with None => Some tr | Some _ => None end.

Definition holds (m : Momentum) (open : option Trade) : Prop :=
  match position m, open with
  | None, None => True
  | Some pos, Some o => SizeUSD pos = tr_AmountIn o /\ Units pos = tr_AmountOut o
  | _, _ => False
  end.

Definition capital_step (capital : float) (tr : Trade) : float :=
  if is_enter tr then (capital - tr_AmountIn tr)%float else (capital + tr_AmountOut tr)%float.

Definition is_win (tr : Trade) : bool := is_exit tr && (0 <? tr_PnL tr)%float.

(** What a call adds to the ledger, and where it leaves the books. *)
Record carries (m m' : Momentum) (open : option Trade) (trades : list Trade) : Prop := {
  ca_ledger : forall rest, ledger (fold_left open_step trades open) rest -> ledger open (trades ++ rest);
  ca_holds : holds m' (fold_left open_step trades open);
  ca_capital : freeCapital m' = fold_left capital_step trades (freeCapital m);
  ca_total : wrap64 (totalTrades m') = wrap64 (totalTrades m + len (List.filter is_enter trades));
  ca_wins : wrap64 (totalWins m') = wrap64 (totalWins m + len (List.filter is_win trades));
  ca_range : in_int64 (totalTrades m) -> in_int64 (totalWins m) ->
    in_int64 (totalTrades m') /\ in_int64 (totalWins m');
}.

Lemma carries_quiet m m' open : holds m open -> position m' = position m ->
  freeCapital m' = freeCapital m -> totalTrades m' = totalTrades m -> totalWins m' = totalWins m ->
  carries m m' open [].
Proof.
  intros Hh Hp Hf Ht Hw.
  constructor; cbn; [done|unfold holds; by rewrite Hp|done| | |by rewrite Ht, Hw];
    f_equal; unfold len; cbn; lia.
Qed.

Lemma booked_carries m m' now trades open : holds m open -> booked m m' now trades ->
  carries m m' open trades.
Proof.
  intros Hh [Hb|tr Hp Ety Hin Hpos _ (p & Hs & Hu & Hb) _|tr pos Hp Ety Hin Hpnl _ Hb];
    injection Hb as Hc Hf Hq Hd Hn Ht Hw.
  - by apply carries_quiet.
  - unfold holds in Hh. rewrite Hp in Hh. destruct open; [done|].
    assert (He : is_enter tr = true) by (unfold is_enter; by rewrite Ety).
    assert (Hx : is_exit tr = false) by (unfold is_exit; by rewrite Ety).
    constructor; cbn -[wrap64 is_enter is_exit is_win].
    + done.
    + unfold holds. by rewrite Hq.
    + unfold capital_step. by rewrite He.
    + rewrite He, Ht. unfold len. cbn [length]. by rewrite wrap64_wrap.
    + unfold is_win. rewrite Hx, Hw. unfold len. cbn [length andb]. f_equal. lia.
    + intros _ Hr. rewrite Ht, Hw. auto with go.
  - unfold holds in Hh. rewrite Hp in Hh. destruct open as [o|]; [|done]. destruct Hh as [Ho1 Ho2].
    assert (He : is_enter tr = false) by (unfold is_enter; by rewrite Ety).
    assert (Hx : is_exit tr = true) by (unfold is_exit; by rewrite Ety).
    constructor; cbn -[wrap64 is_enter is_exit is_win].
    + intros rest Hr. by rewrite Hin, Hpnl, Ho1, Ho2.
    + unfold holds. by rewrite Hq.
    + unfold capital_step. by rewrite He.
    + rewrite He, Ht. unfold len. cbn [length]. f_equal. lia.
    + unfold is_win. rewrite Hx, Hw. cbn [andb]. unfold len. destruct (0 <? tr_PnL tr)%float; cbn [length].
      * by rewrite wrap64_wrap.
      * f_equal. lia.
    + intros Hr1 Hr2. rewrite Ht, Hw. destruct (0 <? _)%float; auto with go.
Qed.

Lemma carries_via m m1 m' open trades : carries m1 m' open trades ->
  freeCapital m1 = freeCapital m -> totalTrades m1 = totalTrades m -> totalWins m1 = totalWins m ->
  carries m m' open trades.
Proof.
  intros [Hl Hh Hf Ht Hw Hr] Ef Et Ew. rewrite Ef in Hf. rewrite Et in Ht, Hr. rewrite Ew in Hw, Hr.
  by constructor.
Qed.

Lemma step_carries m x trades m' open : holds m open -> task_step m x = (trades, m') ->
  carries m m' open trades.
Proof.
  destruct x as [e op]. intros Hh E. apply step_booked in E. destruct op as [|entries|].
  - pose proof (books_reset m (e_now e 0%nat)) as Hr. injection Hr as Hcf Hfr Hp _ _ Htt Htw.
    eapply carries_via; [apply (booked_carries _ _ (e_now e 0%nat)); [|done]|done..].
    unfold holds. by rewrite Hp.
  - destruct E as (-> & -> & _). by apply carries_quiet.
  - destruct E as [[E _]|[-> ->]]; [by eapply booked_carries|by apply carries_quiet].
Qed.

Lemma session_carries xs : forall m open, holds m open ->
  carries m (session m xs).2 open (session m xs).1.
Proof.
  induction xs as [|x xs IH]; intros m open Hh; [by apply carries_quiet|].
  cbn [session]. destruct (task_step m x) as [tr m1] eqn:E.
  destruct (step_carries m x tr m1 open Hh E) as [Hl1 Hh1 Hf1 Ht1 Hw1 Hr1].
  destruct (IH m1 _ Hh1) as [Hl2 Hh2 Hf2 Ht2 Hw2 Hr2].
  destruct (session m1 xs) as [tr' m2]. cbn [fst snd] in *.
  constructor; rewrite ?fold_left_app.
  - intros rest Hr. rewrite <- app_assoc. apply Hl1. by apply Hl2.
  - done.
  - by rewrite Hf2, Hf1.
  - rewrite Ht2, <- wrap64_add, Ht1, wrap64_add. unfold len. rewrite List.filter_app, length_app. f_equal. lia.
  - rewrite Hw2, <- wrap64_add, Hw1, wrap64_add. unfold len. rewrite List.filter_app, length_app. f_equal. lia.
  - intros A B. destruct (Hr1 A B). by apply Hr2.
Qed.

Lemma NewMomentum_fresh unicode_upper clients c m : NewMomentum unicode_upper clients c = Ok m ->
  config_ok unicode_upper (cfg m) /\ cfg m = applyDefaults c /\ history m = [] /\ position m = None /\
  dailyDate m = "" /\ dailyTotal m = 0 /\ totalTrades m = 0 /\ totalWins m = 0.
Proof.
  unfold NewMomentum. intros H. destruct (Validate _ _) eqn:Ev; [done|].
  apply mom_Validate_iff in Ev. destruct clients; [|done]. destruct (negb _); [done|].
  destruct (splitTokenPair _ _) as [[a b]|]; [|done]. by injection H as <-.
Qed.

(** The trades of a session of ticks, adjustments and closes are a ledger:
    entries and exits alternate, each exit sells what the entry before it
    bought and books the difference of the amounts; a position is open exactly
    when the last trade is an entry, for the amounts of that entry; and the free
    capital and the counters are what the ledger makes of the capital seeded. *)
Theorem momentum_ledger unicode_upper clients c m usd xs :
  NewMomentum unicode_upper clients c = Ok m ->
  let '(trades, m') := session (SeedFreeCapital m usd) xs in
  ledger None trades /\ holds m' (fold_left open_step trades None) /\
  freeCapital m' = fold_left capital_step trades usd /\
  totalTrades m' = wrap64 (len (List.filter is_enter trades)) /\
  totalWins m' = wrap64 (len (List.filter is_win trades)).
Proof.
  intros (_ & _ & _ & Hp & _ & _ & Ht & Hw)%NewMomentum_fresh.
  assert (Hh : holds (SeedFreeCapital m usd) None) by (unfold holds; cbn; by rewrite Hp).
  destruct (session_carries xs _ _ Hh) as [Hl Hh' Hf Htt Hww Hr].
  destruct (session _ xs) as [trades m']. cbn [fst snd] in *. cbn in Htt, Hww, Hr.
  rewrite Ht, Hw in *. destruct Hr as [Hr1 Hr2]; [done..|]. rewrite wrap64_id in Htt, Hww by done.
  repeat split; try done. rewrite <- (app_nil_r trades). by apply Hl.
Qed.

(** ** Bounds on the history *)

Lemma nan_div x y : is_nan y = true -> is_nan (x / y)%float = true.
Proof.
  rewrite !is_nan_spec. intros Hy. rewrite FloatAxioms.div_spec, Hy. by destruct (Prim2SF x).
Qed.

Lemma lookbackSamples_bound unicode_upper c : config_ok unicode_upper c ->
  9 <= lookbackSamples c <= 17284.
Proof.
  intros [_ _ Hl _ _ Hc _ _ _ _]. unfold lookbackSamples.
  set (q := (float_of_int (LookbackMinutes c) * 60 / CheckIntervalSecs c)%float).
  enough (int_of_float q <= 17280) by (destruct (Z.ltb_spec (int_of_float q) 5); lia).
  apply foutside_cases in Hc as [Hn|Hc]; [| |done|done].
  { apply (nan_div (float_of_int (LookbackMinutes c) * 60)%float) in Hn. fold q in Hn.
    apply is_nan_spec in Hn. unfold int_of_float. rewrite Hn. done. }
  apply fbetween_rank in Hc as [Nc Hc].
  assert (Fc : is_fin (CheckIntervalSecs c) = true).
  { apply is_fin_rank. split; [done|].
    assert (H3600 : is_fin momCheckIntervalCeil = true) by reflexivity.
    apply is_fin_rank in H3600 as [_ H3600].
    assert (0 <= frank momCheckIntervalFloor) by (vm_compute; discriminate). lia. }
  assert (Hi : in_int64 (LookbackMinutes c))
    by (unfold in_int64, min_int64, max_int64, momLookbackFloor, momLookbackCeil in *; lia).
  unfold momLookbackFloor, momLookbackCeil in Hl.
  pose proof (float_of_int_fin _ Hi) as FL.
  pose proof (float_of_int_exact (LookbackMinutes c) ltac:(lia)) as EL.
  pose proof (pow2_pos 1074 ltac:(lia)) as Hp.
  assert (E60 : frank 60 = 60 * 2 ^ 1074) by reflexivity.
  assert (E86400 : frank 86400 = 86400 * 2 ^ 1074) by reflexivity.
  assert (E5 : frank momCheckIntervalFloor = 5 * 2 ^ 1074) by reflexivity.
  assert (E17280 : frank 17280 = 17280 * 2 ^ 1074) by reflexivity.
  destruct (fmul_bounds _ 60 FL eq_refl ltac:(lia) ltac:(lia)) as (Nm & Hm0 & HmK).
  specialize (HmK 86400%float eq_refl ltac:(rewrite EL, E60, E86400; nia)).
  assert (Fm : is_fin (float_of_int (LookbackMinutes c) * 60)%float = true).
  { apply is_fin_rank. split; [done|].
    assert (F : is_fin 86400 = true) by reflexivity. apply is_fin_rank in F as [_ F]. lia. }
  destruct (fdiv_bounds _ _ Fm Fc Hm0 ltac:(lia)) as (Nq & Hq0 & HqK).
  specialize (HqK 17280%float eq_refl ltac:(rewrite E17280; nia)). fold q in Nq, Hq0, HqK.
  rewrite int_of_float_floor.
  - apply Z.lt_succ_r, Z.div_lt_upper_bound; lia.
  - apply is_fin_rank. split; [done|].
    assert (F : is_fin 17280 = true) by reflexivity. apply is_fin_rank in F as [_ F]. lia.
  - lia.
Qed.

(** *** The task's promises *)

(** The history is a ring of at most the samples a valid config asks for. *)
Definition momentum_inv (unicode_upper : string -> string) (m : Momentum) : Prop :=
  Validate unicode_upper (cfg m) = None /\ len (history m) <= 17284.

Lemma pushSample_bound unicode_upper m s : config_ok unicode_upper (cfg m) ->
  len (history (pushSampleLocked m s)) <= 17284.
Proof.
  intros Hc. pose proof (lookbackSamples_bound _ _ Hc) as Hb.
  unfold pushSampleLocked. cbn. destruct (Z.ltb_spec (lookbackSamples (cfg m)) (len (history m ++ [s]))); [|lia].
  unfold len in *. rewrite length_drop. lia.
Qed.

Lemma booked_cfg m m' now trades : booked m m' now trades -> cfg m' = cfg m.
Proof.
  intros [Hb|tr _ _ _ _ _ (p & _ & _ & Hb) _|tr pos _ _ _ _ _ Hb]; injection Hb; intros; congruence.
Qed.

Lemma exitLocked_history m now price reason trades m' :
  exitLocked m now price reason = (trades, m') -> history m' = history m.
Proof. by intros [(_ & _ & ->)|(pos & _ & _ & _ & H)]%exitLocked_cases. Qed.

Lemma decision_history m now now' price trades m' :
  (match position m with
   | Some _ => maybeExitLocked m now now' price
   | None => maybeEnterLocked m now now' price
   end) = (trades, m') -> history m' = history m.
Proof.
  destruct (position m); intros H.
  - apply maybeExitLocked_cases in H as [[_ ->]|[reason H]]; [done|]. by eapply exitLocked_history.
  - by apply maybeEnterLocked_cases in H as [[_ ->]|(_ & _ & _ & _ & H)].
Qed.

#[export] Instance momentum_laws (unicode_upper : string -> string) : TaskLaws Momentum.
Proof.
  refine {| task_env := fun _ => True; task_inv := momentum_inv unicode_upper |}.
  - intros e m _ [Hv Hl]. cbn. destruct (RunTick e m) as [r m'] eqn:E. cbn [snd].
    assert (Hc : cfg m' = cfg m).
    { apply RunTick_booked, booked_cfg in E. rewrite E.
      pose proof (books_reset m (e_now e 0%nat)) as Hr. by injection Hr. }
    split; [by rewrite Hc|].
    apply mom_RunTick_cases in E as [(_ & _ & ->)|(m2 & price & trades & -> & _ & _ & Hd)]; [done|].
    apply decision_history in Hd as ->. apply (pushSample_bound unicode_upper). apply mom_Validate_iff.
    rewrite <- Hc in Hv. cbn. pose proof (books_reset m (e_now e 0%nat)) as Hr. injection Hr as Hr.
    rewrite Hc in Hv. by rewrite Hr.
  - intros e entries m _ Hok [Hv Hl]. cbn.
    pose proof (apply_entries_inv adjust_case
      (fun m' => history m' = history m /\ config_ok unicode_upper (cfg m'))) as H.
    destruct (H ltac:(intros k raw u s Hn Hu [Hs Hc];
      destruct (mom_adjust_case_edits unicode_upper k raw u s Hn Hu) as [-> Hk]; split; [exact Hs|exact (Hk Hc)])
      entries m Hok) as [Hh Hc]; [split; [done|by apply mom_Validate_iff]|].
    split; [by apply mom_Validate_iff|]. unfold ApplyAdjustments. by rewrite Hh.
  - intros e m _ [Hv Hl]. cbn. unfold CloseAllPositions. destruct (position m) as [pos|] eqn:Ep; [|done].
    destruct (exitLocked m _ _ _) as [trades m'] eqn:E. cbn [snd].
    pose proof (exitLocked_history _ _ _ _ _ _ E) as Hh.
    apply exitLocked_booked, booked_cfg in E. split; [by rewrite E|by rewrite Hh].
  - intros e e0 m _. cbn. unfold CloseAllPositions, GetPositionValue.
    destruct (position m) as [pos|] eqn:Ep; [|cbn; by rewrite Ep].
    unfold exitLocked. by rewrite Ep.
Defined.

(** ** The volume confirmation *)

Lemma stats_zero_volume cutoff l : Forall (fun s => Volume s = 0%float) l ->
  forall first high low n, 0 <= n ->
  exists first' high' low' n', fold_left (stats_step cutoff) l (first, high, low, 0%float, n)
    = (first', high', low', 0%float, n') /\ 0 <= n' <= n + len l.
Proof.
  induction 1 as [|s l Hs _ IH]; intros first high low n Hn.
  { do 4 eexists. split; [done|]. unfold len. cbn. lia. }
  cbn [fold_left]. unfold stats_step at 2. unfold len in *. cbn [length].
  destruct (Before (At s) cutoff).
  { destruct (IH first high low n Hn) as (f & h & w & n' & -> & Hn'). do 4 eexists. split; [done|]. lia. }
  rewrite Hs. change (0 + 0)%float with 0%float.
  destruct (if first then _ else _) as [h0 w0].
  destruct (IH false h0 w0 (n + 1) ltac:(lia)) as (f & h & w & n' & -> & Hn').
  do 4 eexists. split; [done|]. lia.
Qed.

Lemma zero_volume m now : Forall (fun s => Volume s = 0%float) (history m) -> len (history m) <= 17284 ->
  (latestVolumeLocked m <=? (lookbackStatsLocked m now).2)%float = true.
Proof.
  intros Hz Hl.
  assert (Hlast : latestVolumeLocked m = 0%float).
  { unfold latestVolumeLocked. destruct (last (history m)) as [s|] eqn:E; [|done].
    apply last_Some_elem_of in E. rewrite Forall_forall in Hz. by apply Hz. }
  rewrite Hlast. unfold lookbackStatsLocked.
  destruct (len (history m) <? 2); [reflexivity|].
  set (cutoff := Add _ _).
  assert (Hz' : Forall (fun s => Volume s = 0%float) (take (length (history m) - 1) (history m)))
    by (by apply Forall_take).
  destruct (stats_zero_volume cutoff _ Hz' true 0%float 0%float 0 ltac:(lia))
    as (first & high & low & n & -> & Hn).
  assert (n <= 17284) by (unfold len in *; rewrite length_take in Hn; lia).
  destruct first; [reflexivity|]. cbn [snd]. destruct (Z.ltb_spec 0 n); [|reflexivity].
  assert (Hi : in_int64 n) by (unfold in_int64, min_int64, max_int64; lia).
  destruct (fdiv_bounds 0 (float_of_int n) eq_refl (float_of_int_fin n Hi)) as (Nn & Hq0 & _).
  - rewrite frank_zero. lia.
  - pose proof (float_of_int_pos n Hi ltac:(lia)). rewrite frank_one in *.
    pose proof (pow2_pos 1074 ltac:(lia)). lia.
  - rewrite fleb_rank by done. rewrite frank_zero. lia.
Qed.

(** Nothing but the strategist's own switch is left out of an adjustment. *)
Definition switch_kept (x : Env * task_op) : Prop :=
  match x.2 with
  | OpAdjust entries => adjustments_ok entries /\ Forall (fun e => e.1 <> "volume_confirmation") entries
  | _ => True
  end.

Definition volume_inv (unicode_upper : string -> string) (m : Momentum) : Prop :=
  momentum_inv unicode_upper m /\ VolumeConfirmation (cfg m) = true /\ position m = None /\
  Forall (fun s => Volume s = 0%float) (history m).

Lemma volume_step unicode_upper m x : volume_inv unicode_upper m -> switch_kept x ->
  exists m', task_step m x = ([], m') /\ volume_inv unicode_upper m'.
Proof.
  destruct x as [e op]. intros (Hi & Hv & Hp & Hz) Hx.
  pose proof (books_reset m (e_now e 0%nat)) as Hr. injection Hr as Hrc _ Hrp _ _ _ _.
  destruct op as [|entries|]; cbn [task_step snd] in *.
  - pose proof (tick_inv (TaskLaws := momentum_laws unicode_upper) e m I Hi) as Hi'. cbn in Hi' |- *.
    destruct (RunTick e m) as [r m'] eqn:E. cbn [snd] in Hi'.
    pose proof (booked_cfg _ _ _ _ (RunTick_booked _ _ _ _ E)) as Hc. rewrite Hrc in Hc.
    apply mom_RunTick_cases in E as [(Hr & Hb & Hh)|(m2 & price & trades & Em2 & _ & -> & Hd)].
    + exists m'. injection Hb as _ _ Hb _ _ _ _. rewrite Hrp in Hb.
      split; [destruct r; congruence|]. unfold volume_inv. rewrite Hc, Hb, Hh. done.
    + assert (Hp2 : position m2 = None) by (by rewrite Em2; cbn; rewrite Hrp).
      rewrite Hp2 in Hd. set (m1 := maybeResetDailyLocked m _) in *.
      assert (Hz2 : Forall (fun s => Volume s = 0%float) (history m2)).
      { rewrite Em2. unfold pushSampleLocked. cbn [history with_history with_lastCheck]. subst m1.
        rewrite reset_history.
        assert (Hz' : Forall (fun s => Volume s = 0%float)
          (history m ++ [{| At := e_now e 0%nat; Price := price; Volume := 0 |}]))
          by (apply Forall_app; split; [done|by repeat constructor]).
        destruct (_ <? _); [by apply Forall_drop|done]. }
      assert (Hl2 : len (history m2) <= 17284).
      { rewrite Em2. apply (pushSample_bound unicode_upper). cbn. rewrite Hrc.
        apply mom_Validate_iff. apply Hi. }
      assert (Hc2 : cfg m2 = cfg m) by (rewrite Em2; exact Hrc).
      apply maybeEnterLocked_cases in Hd as [[-> ->]|((high & trigger & avgVol & _ & Hvol) & _)].
      * exists m2. split; [done|]. unfold volume_inv. rewrite Hc2. done.
      * rewrite Hc2 in Hvol. specialize (Hvol Hv). by rewrite zero_volume in Hvol.
  - destruct Hx as [Hok Hk]. exists (ApplyAdjustments entries m).2. split; [done|].
    split; [by apply (adjust_inv (TaskLaws := momentum_laws unicode_upper) e entries m I Hok)|].
    rewrite (mom_adjust_books entries m). cbn. split; [|done]. clear Hi Hp Hz Hrc Hrp Hok.
    unfold ApplyAdjustments. revert m Hv. induction Hk as [|[k raw] entries Hk _ IH]; intros m Hv; [done|].
    cbn [apply_entries]. destruct (adjust_case k raw) as [u|] eqn:E; [|done]. apply IH.
    cbn in Hk. by switch_key E.
  - exists m. unfold CloseAllPositions. cbn. unfold CloseAllPositions. by rewrite Hp.
Qed.

(** A momentum task that asks for volume confirmation never trades. Its
    ticks record every price with a volume of zero, so the latest volume never
    exceeds the average: whatever the prices do, as long as the strategist
    leaves the switch on, a session of ticks, adjustments and closes hands out
    no trade at all. *)
Theorem volume_confirmation_blocks unicode_upper clients c m usd xs :
  NewMomentum unicode_upper clients c = Ok m -> VolumeConfirmation c = true ->
  Forall switch_kept xs -> (session (SeedFreeCapital m usd) xs).1 = [].
Proof.
  intros (Hc & Ec & Hh & Hp & _)%NewMomentum_fresh Hv Hxs.
  assert (Hi : volume_inv unicode_upper (SeedFreeCapital m usd)).
  { unfold volume_inv, momentum_inv. cbn. rewrite Hh, Hp, Ec. split; [|by repeat split].
    split; [rewrite <- Ec; by apply mom_Validate_iff|done]. }
  generalize dependent (SeedFreeCapital m usd). clear -Hxs.
  induction Hxs as [|x xs Hx _ IH]; intros m Hi; [done|].
  cbn [session]. destruct (volume_step unicode_upper m x Hi Hx) as (m' & -> & Hi').
  specialize (IH m' Hi'). destruct (session m' xs). exact IH.
Qed.

(** ** The decision of a tick *)

(** The samples a decision looks at: those of the lookback window, less the
    sample just taken. *)
Definition window (m : Momentum) (now : Time) : list priceSample :=
  let cutoff := Add now (wrap64 (- LookbackMinutes (cfg m) * Minute)) in
  List.filter (fun s => negb (Before (At s) cutoff)) (take (length (history m) - 1) (history m)).

Definition peak (l : list priceSample) (p : float) : Prop :=
  (exists s, s ∈ l /\ Price s = p) /\ Forall (fun s => (Price s <=? p)%float = true) l.

Definition trough (l : list priceSample) (p : float) : Prop :=
  (exists s, s ∈ l /\ Price s = p) /\ Forall (fun s => (p <=? Price s)%float = true) l.

Definition priced (l : list priceSample) : Prop := Forall (fun s => is_nan (Price s) = false) l.

Lemma peak_snoc l s p : priced l -> is_nan (Price s) = false -> peak l p ->
  peak (l ++ [s]) (if (p <? Price s)%float then Price s else p).
Proof.
  intros Hl Hs [[x [Hx Ex]] Hall].
  assert (Np : is_nan p = false) by (rewrite <- Ex; by eapply Forall_forall in Hl).
  split.
  - destruct (p <? Price s)%float; [exists s|exists x]; (split; [apply elem_of_app|done]); [right; by left|by left].
  - apply Forall_app. split.
    + destruct (p <? Price s)%float eqn:E; [|done]. rewrite fltb_rank in E by done.
      eapply Forall_impl; [apply Forall_and; split; [exact Hl|exact Hall]|]. cbn.
      intros y [Ny Hy]. rewrite fleb_rank in * by done. lia.
    + repeat constructor. destruct (p <? Price s)%float eqn:E; rewrite ?fltb_rank, ?fleb_rank in * by done; lia.
Qed.

Lemma trough_snoc l s p : priced l -> is_nan (Price s) = false -> trough l p ->
  trough (l ++ [s]) (if (Price s <? p)%float then Price s else p).
Proof.
  intros Hl Hs [[x [Hx Ex]] Hall].
  assert (Np : is_nan p = false) by (rewrite <- Ex; by eapply Forall_forall in Hl).
  split.
  - destruct (Price s <? p)%float; [exists s|exists x]; (split; [apply elem_of_app|done]); [right; by left|by left].
  - apply Forall_app. split.
    + destruct (Price s <? p)%float eqn:E; [|done]. rewrite fltb_rank in E by done.
      eapply Forall_impl; [apply Forall_and; split; [exact Hl|exact Hall]|]. cbn.
      intros y [Ny Hy]. rewrite fleb_rank in * by done. lia.
    + repeat constructor. destruct (Price s <? p)%float eqn:E; rewrite ?fltb_rank, ?fleb_rank in * by done; lia.
Qed.

(** The loop computes the extremes of the samples in its window. *)
Lemma stats_extremes cutoff l : priced l ->
  let w := List.filter (fun s => negb (Before (At s) cutoff)) l in
  exists first high low vol n,
    fold_left (stats_step cutoff) l (true, 0%float, 0%float, 0%float, 0) = (first, high, low, vol, n) /\
    (first = true <-> w = []) /\ (w <> [] -> peak w high /\ trough w low).
Proof.
  induction l as [|s l IH] using rev_ind; intros Hl w.
  { do 5 eexists. split; [done|]. by split. }
  apply Forall_app in Hl as [Hl Hs]. apply Forall_cons in Hs as [Hs _].
  destruct (IH Hl) as (first & high & low & vol & n & E & Hf & Hx). cbn zeta in Hf, Hx.
  rewrite fold_left_app, E. cbn [fold_left]. unfold stats_step. subst w.
  rewrite List.filter_app. cbn [List.filter].
  destruct (Before (At s) cutoff) eqn:Eb; cbn [negb].
  { rewrite app_nil_r. by do 5 eexists. }
  set (w := List.filter _ l) in *.
  assert (Hw : priced w) by (eapply List.incl_Forall; [apply List.incl_filter|exact Hl]).
  destruct first.
  - do 5 eexists. split; [done|]. rewrite (proj1 Hf eq_refl). split; [done|]. intros _.
    assert (Hle : (Price s <=? Price s)%float = true) by (rewrite fleb_rank by done; lia).
    split; (split; [exists s; split; [by left|done]|by repeat constructor]).
  - assert (Hne : w <> []) by (intros E'; apply Hf in E'; done).
    destruct (Hx Hne) as [Hp Ht]. do 5 eexists. split; [done|].
    split; [split; [done|intros E'; by destruct w]|]. intros _.
    split; [by apply peak_snoc|by apply trough_snoc].
Qed.

(** The statistics, by whether the window was empty. *)
Definition stats_of (first : bool) (high low avg : float) : float * float * float * float :=
  if first then (0, 0, 0, 0)%float else (high, low, ((high + low) / 2)%float, avg).

Lemma exit_decision m now now' price pos first high low avg trades m' :
  position m = Some pos -> lookbackStatsLocked m now' = stats_of first high low avg ->
  maybeExitLocked m now now' price = (trades, m') ->
  trades <> [] <->
  (price <=? StopPrice pos)%float = true \/
  first = false /\ (0 <? (high + low) / 2)%float = true /\
  (price <=? (high + low) / 2 * (1 - ExitThresholdPct (cfg m)))%float = true.
Proof.
  intros Hp Hs Hd. unfold maybeExitLocked, exitLocked in Hd. rewrite Hp, Hs in Hd.
  destruct (price <=? StopPrice pos)%float; [injection Hd as <- <-; split; [by left|done]|].
  destruct first; cbn [stats_of] in Hd; [injection Hd as <- <-; split; [done|by intros [|(? & _)]]|].
  destruct (0 <? (high + low) / 2)%float; cbn [andb] in Hd;
    [|injection Hd as <- <-; split; [done|by intros [|(_ & ? & _)]]].
  destruct (price <=? (high + low) / 2 * (1 - ExitThresholdPct (cfg m)))%float;
    injection Hd as <- <-; (split; [|done || by intros [|(_ & _ & ?)]]); [|done].
  intros _. by right.
Qed.

Lemma enter_decision m now now' price first high low avg trades m' :
  lookbackStatsLocked m now' = stats_of first high low avg ->
  maybeEnterLocked m now now' price = (trades, m') ->
  trades <> [] <->
  (freeCapital m <? MinCapitalToOperate (cfg m))%float = false /\
  dailyTotal m < MaxDailyTrades (cfg m) /\
  (first = false /\ (high <=? 0)%float = false) /\
  (price <? high * (1 + EntryThresholdPct (cfg m)))%float = false /\
  (VolumeConfirmation (cfg m) = true ->
   (latestVolumeLocked m <=? (lookbackStatsLocked m now').2)%float = false) /\
  (freeCapital m * MaxPositionSizePct (cfg m) <=? 0)%float = false.
Proof.
  intros Hs Hd. unfold maybeEnterLocked in Hd. rewrite Hs in *.
  destruct (freeCapital m <? MinCapitalToOperate (cfg m))%float;
    [injection Hd as <- <-; split; [done|by intros (? & _)]|].
  destruct (Z.leb_spec (MaxDailyTrades (cfg m)) (dailyTotal m));
    [injection Hd as <- <-; split; [done|intros (_ & ? & _); lia]|].
  destruct first; cbn [stats_of] in *.
  { injection Hd as <- <-. split; [done|by intros (_ & _ & [? _] & _)]. }
  destruct (high <=? 0)%float;
    [injection Hd as <- <-; split; [done|by intros (_ & _ & [_ ?] & _)]|].
  destruct (price <? high * (1 + EntryThresholdPct (cfg m)))%float;
    [injection Hd as <- <-; split; [done|by intros (_ & _ & _ & ? & _)]|].
  destruct (VolumeConfirmation (cfg m)), (latestVolumeLocked m <=? avg)%float eqn:Ev; cbn [andb snd] in *;
    rewrite ?Ev;
    try (injection Hd as <- <-; split; [done|by intros (_ & _ & _ & _ & Hv & _); specialize (Hv eq_refl)]);
    (destruct (freeCapital m * MaxPositionSizePct (cfg m) <=? 0)%float; injection Hd as <- <-;
     [split; [done|by intros (_ & _ & _ & _ & _ & ?)]|]; split; [|done]; intros _;
     split; [done|]; split; [done|]; split; [done|]; split; [done|]; by split).
Qed.

Lemma stats_window m now : priced (take (length (history m) - 1) (history m)) ->
  exists first high low avg, lookbackStatsLocked m now = stats_of first high low avg /\
    (first = false <-> window m now <> []) /\
    (window m now <> [] -> peak (window m now) high /\ trough (window m now) low).
Proof.
  intros Hpr.
  destruct (stats_extremes (Add now (wrap64 (- LookbackMinutes (cfg m) * Minute))) _ Hpr)
    as (first & high & low & vol & n & Est & Hfst & Hx). cbn zeta in Hfst, Hx.
  fold (window m now) in Hfst, Hx.
  assert (Hf' : first = false <-> window m now <> []).
  { destruct first; split; try done; [intros H; by destruct (H (proj1 Hfst eq_refl))|].
    intros _ E. by apply Hfst in E. }
  exists first, high, low. unfold lookbackStatsLocked.
  destruct (Z.ltb_spec (len (history m)) 2) as [Hl|Hl].
  - assert (E : first = true).
    { apply Hfst. unfold window.
      by replace (length (history m) - 1)%nat with 0%nat by (unfold len in Hl; lia). }
    exists 0%float. split; [by rewrite E|done].
  - rewrite Est. by eexists.
Qed.

(** The decision of a tick that polls a positive price. A flat task enters
    exactly when its capital and its daily quota allow it, the window holds a
    positive price and the new price has reached its highest by the threshold,
    the volume confirms it where that is asked for, and there is something to
    deploy; a task in a position leaves it exactly when the price is at or below
    the stop, or the threshold below the middle of the window's extremes. *)
Theorem momentum_tick e m q :
  priced (history m) ->
  let now := e_now e 0%nat in
  let m1 := maybeResetDailyLocked m now in
  poll_due (lastCheck m) now (seconds (CheckIntervalSecs (cfg m))) = true ->
  e_quote e (c_Chain (cfg m)) (tokenA m) (tokenB m) 1%float = Ok q ->
  let price := quote_price q in
  (0 <? price)%float = true ->
  let m2 := pushSampleLocked (with_lastCheck m1 now) {| At := now; Price := price; Volume := 0 |} in
  let w := window m2 (e_now e 1%nat) in
  exists high low trades m',
    RunTick e m = (Ok trades, m') /\ (w <> [] -> peak w high /\ trough w low) /\
    match position m with
    | None =>
        trades <> [] <->
        (freeCapital m <? MinCapitalToOperate (cfg m))%float = false /\
        dailyTotal m1 < MaxDailyTrades (cfg m) /\
        (w <> [] /\ (high <=? 0)%float = false) /\
        (price <? high * (1 + EntryThresholdPct (cfg m)))%float = false /\
        (VolumeConfirmation (cfg m) = true ->
         (latestVolumeLocked m2 <=? (lookbackStatsLocked m2 (e_now e 1%nat)).2)%float = false) /\
        (freeCapital m * MaxPositionSizePct (cfg m) <=? 0)%float = false
    | Some pos =>
        trades <> [] <->
        (price <=? StopPrice pos)%float = true \/
        w <> [] /\ (0 <? (high + low) / 2)%float = true /\
        (price <=? (high + low) / 2 * (1 - ExitThresholdPct (cfg m)))%float = true
    end.
Proof.
  intros Hpr now m1 Hdue Hq price Hpos m2 w.
  pose proof (books_reset m now) as Hr. fold m1 in Hr. injection Hr as Hc Hf Hp _ _ _ _.
  assert (Hk : lastCheck m1 = lastCheck m /\ tokenA m1 = tokenA m /\ tokenB m1 = tokenB m).
  { unfold m1, maybeResetDailyLocked. destruct (str_eqb (dailyDate m) ""); [done|]. by destruct (negb _). }
  destruct Hk as (Hk1 & Hk2 & Hk3).
  destruct (fltb_not_nan _ _ Hpos) as [_ Np].
  assert (Hnp : (price <=? 0)%float = false).
  { rewrite fltb_rank in Hpos by done. rewrite fleb_rank by done. lia. }
  assert (Hpr2 : priced (take (length (history m2) - 1) (history m2))).
  { apply Forall_take. subst m2. unfold pushSampleLocked. cbn [history with_history with_lastCheck].
    unfold m1. rewrite reset_history.
    assert (H : priced (history m ++ [{| At := now; Price := price; Volume := 0 |}]))
      by (apply Forall_app; split; [done|by repeat constructor]).
    destruct (_ <? _); [by apply Forall_drop|done]. }
  destruct (stats_window m2 (e_now e 1%nat) Hpr2) as (first & high & low & avg & Hs & Hf1 & Hx).
  fold w in Hf1, Hx.
  assert (Hrun : exists trades m', RunTick e m = (Ok trades, m') /\
    (trades, m') = match position m2 with
      | Some _ => maybeExitLocked m2 now (e_now e 1%nat) price
      | None => maybeEnterLocked m2 now (e_now e 1%nat) price end).
  { unfold RunTick. fold now m1. rewrite Hc, Hk1, Hdue. cbn [negb with_lastCheck cfg tokenA tokenB].
    rewrite Hc, Hk2, Hk3, Hq. fold price. rewrite Hnp. fold m2.
    destruct (match position m2 with Some _ => _ | None => _ end) as [trades m']. by exists trades, m'. }
  destruct Hrun as (trades & m' & Hrun & Hd). exists high, low, trades, m'.
  split; [done|]. split; [done|].
  destruct (position m) as [pos|] eqn:Ep; change (position m2) with (position m1) in Hd; rewrite Hp in Hd;
    symmetry in Hd.
  - rewrite (exit_decision m2 _ _ _ pos _ _ _ _ _ _ Hp Hs Hd), Hf1.
    change (cfg m2) with (cfg m1). by rewrite Hc.
  - rewrite (enter_decision m2 _ _ _ _ _ _ _ _ _ Hs Hd), Hf1. change (cfg m2) with (cfg m1).
    change (freeCapital m2) with (freeCapital m1). by rewrite Hc, Hf.
Qed.

(** ** A breakout and its end *)

Definition sample_config (volume : bool) (cap : Z) : MomentumConfig := {|
  c_Chain := "solana"; TokenPair := "usdc/sol"; LookbackMinutes := 5; EntryThresholdPct := 0;
  ExitThresholdPct := 0; VolumeConfirmation := volume; CheckIntervalSecs := 60;
  MaxPositionSizePct := 0; MaxDrawdownPct := 0; StopLossPerTradePct := 0; MaxDailyTrades := cap;
  MinCapitalToOperate := 0 |}.

Definition no_unicode (s : string) : string := s.

Definition sample_clients : option (gset string) := Some {[ "solana" ]}.

(** A market that answers [p] at [t]. *)
Definition market (t : Time) (p : float) : Env := {|
  e_now := fun _ => t;
  e_quote := fun _ _ _ _ => Ok (price_quote 1 p 0);
  e_yields := fun _ _ => Ok []; e_positions := fun _ _ _ => Ok [];
  e_liquidate := fun _ _ _ => Ok None;
  e_range := fun _ _ => map_to_list |}.

Definition minute (k : Z) : Time := 63902736000 * Second + k * Minute.

Definition breakout : list (Env * task_op) :=
  [(market (minute 0) 100, OpTick); (market (minute 1) 101, OpTick); (market (minute 2) 110, OpTick);
   (market (minute 2) 110, OpAdjust [("max_daily_trades", AFloat64 1); ("exit_threshold_pct", AInt 1)]);
   (market (minute 3) 90, OpTick); (market (minute 4) 120, OpTick)].

Definition built (volume : bool) (cap : Z) : Momentum :=
  match NewMomentum no_unicode sample_clients (sample_config volume cap) with
  | Ok m => SeedFreeCapital m 1000
  | Fail _ => {| cfg := sample_config volume cap; tokenA := ""; tokenB := ""; freeCapital := 0;
      history := []; position := None; lastCheck := 0; dailyDate := ""; dailyTotal := 0;
      totalTrades := 0; totalWins := 0 |}
  end.

(** The third price breaks out, the fourth is under the stop, and the fifth
    breaks out again once the cap was lowered. *)
Example breakout_trades :
  (fun tr => (tr_TradeType tr, tr_AmountIn tr)) <$> (session (built false 2) breakout).1 =
  [("momentum_enter", 250%float); ("momentum_exit", (250 / 110)%float)].
Proof. vm_compute. reflexivity. Qed.

Lemma momentum_adjustments_witness :
  ApplyAdjustments [("exit_threshold_pct", AInt 1); ("max_daily_trades", AFloat64 500)] (built false 2) =
  ApplyAdjustments [("max_daily_trades", AFloat64 500); ("exit_threshold_pct", AInt 1)] (built false 2).
Proof.
  pose proof (momentum_adjustments no_unicode
    [("max_daily_trades", AFloat64 500); ("exit_threshold_pct", AInt 1)]
    [("exit_threshold_pct", AInt 1); ("max_daily_trades", AFloat64 500)] (built false 2)) as H.
  destruct (ApplyAdjustments [("max_daily_trades", AFloat64 500); ("exit_threshold_pct", AInt 1)]
    (built false 2)) as [err m'] eqn:E.
  assert (Hok : adjustments_ok [("max_daily_trades", AFloat64 500); ("exit_threshold_pct", AInt 1)])
    by (repeat constructor; cbn; intros v [= <-]; reflexivity).
  specialize (H Hok eq_refl). destruct H as (H1 & _ & _ & H2).
  assert (Herr : err = None) by exact (f_equal fst (eq_sym E)).
  rewrite Herr. apply H2; [exact Herr| |apply Permutation_swap].
  by apply (bool_decide_eq_true_1 _).
Defined.

Lemma momentum_daily_cap_witness :
  on_day is_enter 739615 (session (built false 2) breakout).1 <= 2.
Proof.
  apply (momentum_daily_cap no_unicode sample_clients (sample_config false 2) _ 1000 breakout
    (minute 0) 2 739615 eq_refl); [vm_compute; discriminate|vm_compute; discriminate| |vm_compute; discriminate|].
  - repeat constructor; cbn; intros; simplify_eq; vm_compute; discriminate.
  - vm_compute. repeat split; discriminate.
Defined.

Lemma momentum_ledger_witness :
  ledger None (session (built false 2) breakout).1 /\
  freeCapital (session (built false 2) breakout).2 =
    fold_left capital_step (session (built false 2) breakout).1 1000%float.
Proof.
  pose proof (momentum_ledger no_unicode sample_clients (sample_config false 2) _ 1000 breakout eq_refl) as H.
  change (SeedFreeCapital _ 1000) with (built false 2) in H.
  destruct (session (built false 2) breakout) as [trades m']. split; apply H.
Defined.

Lemma volume_confirmation_blocks_witness : (session (built true 2) (removelast breakout)).1 = [].
Proof.
  apply (volume_confirmation_blocks no_unicode sample_clients (sample_config true 2) _ 1000
    (removelast breakout) eq_refl eq_refl).
  repeat constructor; cbn; intros; simplify_eq; done.
Defined.

Definition poised : Momentum := (session (built false 2) (take 2 breakout)).2.

Example poised_enters :
  match (RunTick (market (minute 2) 110) poised).1 with Ok l => tr_TradeType <$> l | Fail _ => [] end
  = ["momentum_enter"].
Proof. vm_compute. reflexivity. Qed.

Example poised_ready :
  priced (history poised) /\
  poll_due (lastCheck poised) (minute 2) (seconds (CheckIntervalSecs (cfg poised))) = true.
Proof. vm_compute. by repeat constructor. Qed.

Lemma momentum_tick_witness :
  exists trades m', RunTick (market (minute 2) 110) poised = (Ok trades, m') /\ trades <> [].
Proof.
  destruct (momentum_tick (market (minute 2) 110) poised (price_quote 1 110 0)
    (proj1 poised_ready) (proj2 poised_ready) eq_refl eq_refl)
    as (high & low & trades & m' & Hrun & _).
  exists trades, m'. split; [exact Hrun|]. pose proof poised_enters as H. rewrite Hrun in H.
  intros E. rewrite E in H. discriminate H.
Defined.
