(* ===== verification/LiquidityProvision.v ===== *)
(** * The liquidity provision strategy

    [internal/agent/tasks/liquidity_provision.go] and
    [liquidity_provision_config.go]: one concentrated position, a band around
    the price it was opened at, closed and opened again when the price drifts.
    [math.Sqrt] is the IEEE square root. *)
From Stdlib Require Import ZArith Lia Ascii Floats.
From stdpp Require Import base list strings gmap.
From S2P Require Import Prelude GoBase GoFmt GoFloat GoRound Genome Task.
Set Warnings "-inexact-float".
Open Scope Z_scope.

(** ** The config *)

Record LiquidityProvisionConfig := {
  c_Chain : string;
  TokenPair : string;
  PoolAddress : string;
  FeeTier : string;
  RangeWidthPct : float;
  RebalanceThresholdPct : float;
  CheckIntervalSecs : float;
  MaxDrawdownPct : float;
  MinCapitalToOperate : float;
}.

Definition rangeWidthFloor : float := 0.005.
Definition rangeWidthCeil : float := 1.
Definition rebalanceThreshFloor : float := 0.001.
Definition rebalanceThreshCeil : float := 0.5.
Definition lpCheckIntervalFloor : float := 5.
Definition lpCheckIntervalCeil : float := 3600.

(** The config with the fields an adjustment can set. *)
Definition tuned (c : LiquidityProvisionConfig) (width threshold secs : float)
    : LiquidityProvisionConfig := {|
  c_Chain := c_Chain c; TokenPair := TokenPair c; PoolAddress := PoolAddress c; FeeTier := FeeTier c;
  RangeWidthPct := width; RebalanceThresholdPct := threshold; CheckIntervalSecs := secs;
  MaxDrawdownPct := MaxDrawdownPct c; MinCapitalToOperate := MinCapitalToOperate c |}.

Definition applyDefaults (c : LiquidityProvisionConfig) : LiquidityProvisionConfig :=
  tuned c (or_default (RangeWidthPct c) 0.10) (or_default (RebalanceThresholdPct c) 0.03)
    (or_default (CheckIntervalSecs c) 60).

Definition Validate (unicode_upper : string -> string) (c : LiquidityProvisionConfig) : option gerror :=
  if str_eqb (c_Chain c) "" then gerr "liquidity_provision: chain required"
  else if negb (str_eqb (c_Chain c) "solana") && negb (str_eqb (c_Chain c) "base") then
    gerr "liquidity_provision: chain %q must be solana or base"
  else if str_eqb (TokenPair c) "" then gerr "liquidity_provision: token_pair required"
  else match splitTokenPair unicode_upper (TokenPair c) with
  | Fail err => Some err
  | Ok _ =>
    if foutside (RangeWidthPct c) rangeWidthFloor rangeWidthCeil then
      gerr "liquidity_provision: range_width_pct=%v out of [%v,%v]"
    else if foutside (RebalanceThresholdPct c) rebalanceThreshFloor rebalanceThreshCeil then
      gerr "liquidity_provision: rebalance_threshold_pct=%v out of [%v,%v]"
    else if foutside (CheckIntervalSecs c) lpCheckIntervalFloor lpCheckIntervalCeil then
      gerr "liquidity_provision: check_interval_secs=%v out of [%v,%v]"
    else None
  end.

(** ** The state *)

Record lpPosition := {
  OpenedAt : Time;
  CenterPrice : float;
  LowerPrice : float;
  UpperPrice : float;
  ValueUSD : float;
  EntryPrice : float;
  FeesEarned : float;
}.

Record feeEvent := { fee_At : Time; fee_Amount : float }.

Record LiquidityProvision := {
  cfg : LiquidityProvisionConfig;
  tokenA : string;
  tokenB : string;
  position : option lpPosition;
  freeCapital : float;
  lastCheck : Time;
  lastPrice : float;
  lastRebalance : Time;
  feeHistory : list feeEvent;
}.

(** [clients] are the names of [deps.Clients], [None] when the map is nil. *)
Definition NewLiquidityProvision (unicode_upper : string -> string) (clients : option (gset string))
    (c : LiquidityProvisionConfig) : result LiquidityProvision :=
  let c := applyDefaults c in
  match Validate unicode_upper c with
  | Some err => Fail err
  | None =>
    match clients with
    | None => Fail (EMsg "liquidity_provision: deps.Clients required")
    | Some names =>
      if negb (bool_decide (c_Chain c ∈ names)) then
        Fail (EMsg "liquidity_provision: chain %q missing from deps.Clients")
      else
        match splitTokenPair unicode_upper (TokenPair c) with
        | Fail err => Fail err
        | Ok (a, b) => Ok {|
            cfg := c; tokenA := a; tokenB := b; position := None; freeCapital := 0;
            lastCheck := zero_time; lastPrice := 0; lastRebalance := zero_time; feeHistory := [] |}
        end
    end
  end.

Definition with_cfg (l : LiquidityProvision) (c : LiquidityProvisionConfig) : LiquidityProvision := {|
  cfg := c; tokenA := tokenA l; tokenB := tokenB l; position := position l;
  freeCapital := freeCapital l; lastCheck := lastCheck l; lastPrice := lastPrice l;
  lastRebalance := lastRebalance l; feeHistory := feeHistory l |}.

Definition SeedFreeCapital (l : LiquidityProvision) (usd : float) : LiquidityProvision := {|
  cfg := cfg l; tokenA := tokenA l; tokenB := tokenB l; position := position l;
  freeCapital := usd; lastCheck := lastCheck l; lastPrice := lastPrice l;
  lastRebalance := lastRebalance l; feeHistory := feeHistory l |}.

Definition with_lastCheck (l : LiquidityProvision) (t : Time) : LiquidityProvision := {|
  cfg := cfg l; tokenA := tokenA l; tokenB := tokenB l; position := position l;
  freeCapital := freeCapital l; lastCheck := t; lastPrice := lastPrice l;
  lastRebalance := lastRebalance l; feeHistory := feeHistory l |}.

Definition with_lastPrice (l : LiquidityProvision) (p : float) : LiquidityProvision := {|
  cfg := cfg l; tokenA := tokenA l; tokenB := tokenB l; position := position l;
  freeCapital := freeCapital l; lastCheck := lastCheck l; lastPrice := p;
  lastRebalance := lastRebalance l; feeHistory := feeHistory l |}.

(** ** Opening and closing *)

Definition ImpermanentLoss (entry current : float) : float :=
  if ((entry <=? 0) || (current <=? 0))%float%bool then 0%float
  else let r := (current / entry)%float in (2 * PrimFloat.sqrt r / (1 + r) - 1)%float.

Definition totalCapitalLocked (l : LiquidityProvision) : float :=
  match position l with
  | None => freeCapital l
  | Some pos => (freeCapital l + ValueUSD pos)%float
  end.

Definition open_band (l : LiquidityProvision) (now : Time) (price : float) : lpPosition :=
  let half := (RangeWidthPct (cfg l) / 2)%float in {|
  OpenedAt := now; CenterPrice := price; LowerPrice := (price * (1 - half))%float;
  UpperPrice := (price * (1 + half))%float; ValueUSD := freeCapital l; EntryPrice := price;
  FeesEarned := 0 |}.

Definition open_trade (l : LiquidityProvision) (now : Time) (price : float) : Trade := {|
  tr_ID := ""; tr_AgentID := ""; tr_EpochID := ""; tr_Chain := c_Chain (cfg l);
  tr_TradeType := "lp_open"; tr_TokenPair := TokenPair (cfg l); tr_DEX := PoolAddress (cfg l);
  tr_AmountIn := freeCapital l; tr_AmountOut := freeCapital l; tr_FeePaid := 0; tr_PnL := 0;
  tr_TxSignature := ""; tr_IsPaperTrade := true; tr_BanditPolicyUsed := ""; tr_ExecutedAt := now;
  tr_Metadata := {[ "center" := VFloat price;
    "lower" := VFloat (LowerPrice (open_band l now price));
    "upper" := VFloat (UpperPrice (open_band l now price));
    "fee_tier" := VStr (FeeTier (cfg l)) ]} |}.

Definition openPosition (l : LiquidityProvision) (now : Time) (price : float)
    : list Trade * LiquidityProvision :=
  if (freeCapital l <=? 0)%float then ([], l)
  else
    ([open_trade l now price], {|
      cfg := cfg l; tokenA := tokenA l; tokenB := tokenB l;
      position := Some (open_band l now price); freeCapital := 0; lastCheck := lastCheck l;
      lastPrice := lastPrice l; lastRebalance := now; feeHistory := feeHistory l |}).

(** What closing a position returns to the free capital. *)
Definition net_value (pos : lpPosition) (price : float) : float :=
  let net := (ValueUSD pos * (1 + ImpermanentLoss (EntryPrice pos) price) + FeesEarned pos)%float in
  if (net <? 0)%float then 0%float else net.

Definition close_trade (l : LiquidityProvision) (pos : lpPosition) (now : Time) (reason : string) : Trade := {|
  tr_ID := ""; tr_AgentID := ""; tr_EpochID := ""; tr_Chain := c_Chain (cfg l);
  tr_TradeType := "lp_close"; tr_TokenPair := TokenPair (cfg l); tr_DEX := PoolAddress (cfg l);
  tr_AmountIn := ValueUSD pos; tr_AmountOut := net_value pos (lastPrice l); tr_FeePaid := 0;
  tr_PnL := (net_value pos (lastPrice l) - ValueUSD pos)%float;
  tr_TxSignature := ""; tr_IsPaperTrade := true; tr_BanditPolicyUsed := ""; tr_ExecutedAt := now;
  tr_Metadata := {[ "reason" := VStr reason;
    "il_fraction" := VFloat (ImpermanentLoss (EntryPrice pos) (lastPrice l));
    "fees_earned" := VFloat (FeesEarned pos); "entry_price" := VFloat (EntryPrice pos);
    "exit_price" := VFloat (lastPrice l) ]} |}.

Definition closePosition (l : LiquidityProvision) (now : Time) (reason : string)
    : list Trade * LiquidityProvision :=
  match position l with
  | None => ([], l)
  | Some pos =>
      ([close_trade l pos now reason], {|
        cfg := cfg l; tokenA := tokenA l; tokenB := tokenB l; position := None;
        freeCapital := (freeCapital l + net_value pos (lastPrice l))%float;
        lastCheck := lastCheck l; lastPrice := lastPrice l; lastRebalance := lastRebalance l;
        feeHistory := feeHistory l |})
  end.

(** ** The task *)

Definition quote_price (q : Quote) : float :=
  if ((q_Price q =? 0) && (0 <? q_AmountIn q))%float%bool
  then (q_AmountOut q / q_AmountIn q)%float else q_Price q.

Definition drift (price center : float) : float := (PrimFloat.abs (price - center) / center)%float.

Definition RunTick (e : Env) (l : LiquidityProvision) : result (list Trade) * LiquidityProvision :=
  let now := e_now e 0%nat in
  if negb (poll_due (lastCheck l) now (seconds (CheckIntervalSecs (cfg l)))) then (Ok [], l)
  else
    let l := with_lastCheck l now in
    if (totalCapitalLocked l <? MinCapitalToOperate (cfg l))%float then (Ok [], l)
    else
      match e_quote e (c_Chain (cfg l)) (tokenA l) (tokenB l) 1%float with
      | Fail err => (Fail (EWrap "liquidity_provision: get quote: %w" err), l)
      | Ok quote =>
          let price := quote_price quote in
          if (price <=? 0)%float then
            (Fail (EMsg "liquidity_provision: non-positive price %v from quote"), l)
          else
            let l := with_lastPrice l price in
            match position l with
            | None => let '(trades, l) := openPosition l now price in (Ok trades, l)
            | Some pos =>
                if (drift price (CenterPrice pos) <? RebalanceThresholdPct (cfg l))%float then (Ok [], l)
                else
                  let '(exits, l) := closePosition l now "rebalance" in
                  let '(enters, l) := openPosition l now price in
                  (Ok (exits ++ enters), l)
            end
      end.

Definition feesEarnedSinceLocked (l : LiquidityProvision) (now : Time) (d : Duration) : float :=
  let cutoff := Add now (wrap64 (- d)) in
  fold_left (fun total f => if After (fee_At f) cutoff then (total + fee_Amount f)%float else total)
    (feeHistory l) 0%float.

Definition GetStateSummary (e : Env) (l : LiquidityProvision) : list (string * jval) :=
  [("chain", JStr (c_Chain (cfg l))); ("token_pair", JStr (TokenPair (cfg l)));
   ("free_capital_usd", JNum (freeCapital l)); ("last_price", JNum (lastPrice l));
   ("fees_24h_usd", JNum (feesEarnedSinceLocked l (e_now e 0%nat) (24 * Hour)))] ++
  match position l with
  | None => []
  | Some p =>
      [("band", JMap [("center", JNum (CenterPrice p)); ("lower", JNum (LowerPrice p));
         ("upper", JNum (UpperPrice p)); ("value", JNum (ValueUSD p))]);
       ("il_estimate", JNum (ImpermanentLoss (EntryPrice p) (lastPrice l)));
       ("fees_earned_total_usd", JNum (FeesEarned p))]
  end ++
  if IsZero (lastRebalance l) then []
  else [("last_rebalance_at", JStr (FormatRFC3339 (lastRebalance l)))].

(** The cases of the [switch].  The trade of a pulled position is dropped. *)
Definition adjust_case (now : Time) (k : string) (raw : any)
    : result (LiquidityProvision -> LiquidityProvision) :=
  if str_eqb k "range_width_pct" then
    numeric raw "liquidity_provision: range_width_pct not numeric: %T"
      (fun v l => with_cfg l (tuned (cfg l) (clampFloat v rangeWidthFloor rangeWidthCeil)
        (RebalanceThresholdPct (cfg l)) (CheckIntervalSecs (cfg l))))
  else if str_eqb k "rebalance_threshold_pct" then
    numeric raw "liquidity_provision: rebalance_threshold_pct not numeric: %T"
      (fun v l => with_cfg l (tuned (cfg l) (RangeWidthPct (cfg l))
        (clampFloat v rebalanceThreshFloor rebalanceThreshCeil) (CheckIntervalSecs (cfg l))))
  else if str_eqb k "check_interval_secs" then
    numeric raw "liquidity_provision: check_interval_secs not numeric: %T"
      (fun v l => with_cfg l (tuned (cfg l) (RangeWidthPct (cfg l)) (RebalanceThresholdPct (cfg l))
        (clampFloat v lpCheckIntervalFloor lpCheckIntervalCeil)))
  else if str_eqb k "pull_liquidity" then
    match raw with
    | ABool b => Ok (fun l => if b && bool_decide (is_Some (position l))
                              then (closePosition l now "pull_liquidity").2 else l)
    | _ => Fail (EMsg "liquidity_provision: pull_liquidity not boolean: %T")
    end
  else Ok (fun l => l).

Definition ApplyAdjustments (e : Env) (entries : list (string * any)) (l : LiquidityProvision)
    : option gerror * LiquidityProvision :=
  apply_entries (adjust_case (e_now e 0%nat)) entries l.

Definition GetPositionValue (l : LiquidityProvision) : float := from_option ValueUSD 0%float (position l).

Definition CloseAllPositions (e : Env) (l : LiquidityProvision) : list Trade * LiquidityProvision :=
  match position l with
  | None => ([], l)
  | Some _ => closePosition l (e_now e 0%nat) "close_all"
  end.

#[export] Instance lp_task : Task LiquidityProvision := {|
  Task.RunTick := RunTick;
  Task.ApplyAdjustments := ApplyAdjustments;
  Task.GetPositionValue := fun _ => GetPositionValue;
  Task.CloseAllPositions := CloseAllPositions |}.

Definition liquidityProvisionFactory (unicode_upper : string -> string)
    (json_Unmarshal : string -> result LiquidityProvisionConfig) (zero : LiquidityProvisionConfig)
    (deps : option (option (gset string))) (raw : string) : result LiquidityProvision :=
  match deps with
  | None => Fail (EMsg "liquidity_provision: SetLiquidityProvisionDeps not called")
  | Some clients =>
      if 0 <? str_len raw then
        match json_Unmarshal raw with
        | Fail err => Fail (EWrap "liquidity_provision: decode config: %w" err)
        | Ok c => NewLiquidityProvision unicode_upper clients c
        end
      else NewLiquidityProvision unicode_upper clients zero
  end.

(** ** Adjustments keep the config valid *)

Record config_ok (unicode_upper : string -> string) (c : LiquidityProvisionConfig) : Prop := {
  ok_chain : c_Chain c = "solana" \/ c_Chain c = "base";
  ok_pair : TokenPair c <> "" /\ is_ok (splitTokenPair unicode_upper (TokenPair c)) = true;
  ok_width : foutside (RangeWidthPct c) rangeWidthFloor rangeWidthCeil = false;
  ok_threshold : foutside (RebalanceThresholdPct c) rebalanceThreshFloor rebalanceThreshCeil = false;
  ok_check : foutside (CheckIntervalSecs c) lpCheckIntervalFloor lpCheckIntervalCeil = false;
}.

Lemma lp_Validate_iff unicode_upper c : Validate unicode_upper c = None <-> config_ok unicode_upper c.
Proof.
  unfold Validate, gerr, str_eqb. split.
  - intros H. dmatches_in H.
    rewrite andb_false_iff, !negb_false_iff, !bool_decide_eq_true, !bool_decide_eq_false in *.
    by constructor; [tauto|split; [|by rewrite Hm2]|..].
  - intros [Hc [Hp Hs] -> -> ->].
    rewrite (bool_decide_eq_false_2 (TokenPair c = "")) by done.
    destruct (splitTokenPair unicode_upper (TokenPair c)); [|done]. by destruct Hc as [-> | ->].
Qed.

Definition numeric_keys : list string :=
  ["range_width_pct"; "rebalance_threshold_pct"; "check_interval_secs"].

Definition well_typed (e : string * any) : Prop :=
  (e.1 ∈ numeric_keys -> is_Some (toFloat e.2)) /\
  (e.1 = "pull_liquidity" -> exists b, e.2 = ABool b).

Ltac switch_key H := unfold adjust_case in H; switch_on H.

Lemma lp_adjust_case_typed now k raw : is_ok (adjust_case now k raw) = true <-> well_typed (k, raw).
Proof.
  unfold well_typed, numeric_keys. cbn [fst snd]. split.
  - intros H. destruct (adjust_case now k raw) as [u|] eqn:E; [|done]. clear H.
    split; [|intros ->]; [intros Hk; rewrite !elem_of_cons in Hk; unfold adjust_case, numeric in E;
      destruct Hk as [->|[->|[->|[]%not_elem_of_nil]]]; cbn in E; by destruct (toFloat raw)|].
    cbn in E. destruct raw; try done. by eexists.
  - intros [Hn Hb]. unfold adjust_case, numeric, str_eqb.
    repeat match goal with
    | |- context [bool_decide ?P] =>
        let E := fresh "E" in
        destruct (bool_decide P) eqn:E;
        [apply bool_decide_eq_true_1 in E; subst;
         first [by destruct (Hn ltac:(repeat constructor)) as [v ->]|by destruct Hb as [b ->]]|]
    end.
    done.
Qed.

(** A position that is pulled, or not. *)
Definition pulled (now : Time) (l l' : LiquidityProvision) : Prop :=
  l' = with_cfg l (cfg l') \/ l' = with_cfg (closePosition l now "pull_liquidity").2 (cfg l').

Lemma pull_cfg now reason l c : (closePosition (with_cfg l c) now reason).2 = with_cfg (closePosition l now reason).2 c.
Proof. unfold closePosition. cbn. by destruct (position l). Qed.

Lemma close_cfg l now reason : cfg (closePosition l now reason).2 = cfg l.
Proof. unfold closePosition. by destruct (position l). Qed.

Lemma close_close l now now' reason reason' :
  (closePosition (closePosition l now reason).2 now' reason').2 = (closePosition l now reason).2.
Proof. unfold closePosition. destruct (position l) eqn:E; [done|]. cbn. by rewrite E. Qed.

Lemma pull_either (b : bool) now l :
  (if b && bool_decide (is_Some (position l)) then (closePosition l now "pull_liquidity").2 else l)
  = if b then (closePosition l now "pull_liquidity").2 else l.
Proof.
  destruct b; [|done]. cbn. unfold closePosition. destruct (position l); [|done].
  by rewrite bool_decide_eq_true_2.
Qed.

Lemma lp_adjust_case_edits unicode_upper now l k raw u l' :
  (forall v, toFloat raw = Some v -> is_nan v = false) -> adjust_case now k raw = Ok u ->
  pulled now l l' /\ config_ok unicode_upper (cfg l') ->
  pulled now l (u l') /\ config_ok unicode_upper (cfg (u l')).
Proof.
  intros Hn H [Hp Hc]. switch_key H.
  - split; [destruct Hp as [-> | ->]; [by left|by right]|].
    destruct Hc. constructor; try done. apply foutside_clamp; [by apply Hn|reflexivity].
  - split; [destruct Hp as [-> | ->]; [by left|by right]|].
    destruct Hc. constructor; try done. apply foutside_clamp; [by apply Hn|reflexivity].
  - split; [destruct Hp as [-> | ->]; [by left|by right]|].
    destruct Hc. constructor; try done. apply foutside_clamp; [by apply Hn|reflexivity].
  - cbn zeta. rewrite pull_either. destruct b; [|done]. rewrite close_cfg. split; [|done].
    right. rewrite close_cfg. destruct Hp as [Hp|Hp]; rewrite Hp; cbn [cfg with_cfg].
    + by rewrite pull_cfg.
    + by rewrite pull_cfg, close_close.
  - done.
Qed.

Lemma lp_adjust_case_commutes now k1 k2 raw1 raw2 u1 u2 l :
  k1 <> k2 -> adjust_case now k1 raw1 = Ok u1 -> adjust_case now k2 raw2 = Ok u2 ->
  u1 (u2 l) = u2 (u1 l).
Proof.
  intros Hk H1 H2. switch_key H1; switch_key H2; cbn beta zeta; rewrite ?pull_either;
    first [reflexivity|by destruct Hk|idtac];
    destruct b; try done; by rewrite pull_cfg, ?close_cfg.
Qed.

(** Adjusting a liquidity task fails exactly when some value has the wrong
    type; the config keeps validating and nothing else changes, unless the
    position is pulled; and when the adjustments are accepted their order does
    not matter, pulls included. *)
Theorem lp_adjustments unicode_upper e entries entries' l :
  adjustments_ok entries -> Validate unicode_upper (cfg l) = None ->
  let '(err, l') := ApplyAdjustments e entries l in
  (err = None <-> Forall well_typed entries) /\
  pulled (e_now e 0%nat) l l' /\ Validate unicode_upper (cfg l') = None /\
  (err = None -> NoDup entries.*1 -> entries ≡ₚ entries' ->
   ApplyAdjustments e entries' l = (None, l')).
Proof.
  intros Hok Hv. unfold ApplyAdjustments. set (now := e_now e 0%nat).
  pose proof (apply_entries_spec (adjust_case now) well_typed
    (fun l' => pulled now l l' /\ config_ok unicode_upper (cfg l'))
    entries entries' l (lp_adjust_case_typed now)
    (fun k raw u l' => lp_adjust_case_edits unicode_upper now l k raw u l')
    (fun k1 k2 raw1 raw2 u1 u2 l => lp_adjust_case_commutes now k1 k2 raw1 raw2 u1 u2 l) Hok) as H.
  destruct (apply_entries (adjust_case now) entries l) as [err l'].
  rewrite !lp_Validate_iff in *. destruct H as (? & [] & ?); [|tauto].
  split; [left; by destruct l|done].
Qed.

(** ** The ledger of a session *)

(** The free capital and the open trade a ledger leaves. *)
Abbreviation account := (float * option Trade)%type (only parsing).

Definition post (a : account) (tr : Trade) : account :=
  match a.2 with
  | None => (0%float, Some tr)
  | Some _ => ((a.1 + tr_AmountOut tr)%float, None)
  end.

(** An opening deploys all the free capital; a close returns a position that
    is open, for no less than nothing, and books the difference. *)
Definition entry_ok (a : account) (tr : Trade) : Prop :=
  match a.2 with
  | None => tr_TradeType tr = "lp_open" /\ tr_AmountIn tr = a.1 /\ (a.1 <=? 0)%float = false
  | Some o => tr_TradeType tr = "lp_close" /\ tr_AmountIn tr = tr_AmountIn o /\
      tr_PnL tr = (tr_AmountOut tr - tr_AmountIn tr)%float /\ (tr_AmountOut tr <? 0)%float = false
  end.

Definition holds (l : LiquidityProvision) (a : account) : Prop :=
  freeCapital l = a.1 /\
  match position l, a.2 with
  | None, None => True
  | Some pos, Some o => ValueUSD pos = tr_AmountIn o
  | _, _ => False
  end.

Abbreviation enters := (enters entry_ok post holds).

Lemma net_value_nonneg pos price : (net_value pos price <? 0)%float = false.
Proof.
  unfold net_value. cbn zeta.
  destruct (ValueUSD pos * (1 + ImpermanentLoss (EntryPrice pos) price) + FeesEarned pos <? 0)%float eqn:E;
    [reflexivity|exact E].
Qed.

Lemma open_enters l now price a trades l' :
  holds l a -> position l = None -> openPosition l now price = (trades, l') -> enters l' a trades.
Proof.
  unfold holds, openPosition. intros [Hf Hp] Hn H. rewrite Hn in Hp. destruct (a.2) eqn:Ea; [done|].
  destruct (freeCapital l <=? 0)%float eqn:E; injection H as <- <-.
  - split; [done|]. unfold holds. cbn. by rewrite Hn, Ea.
  - split; cbn.
    + unfold entry_ok. rewrite Ea. by rewrite <- Hf.
    + unfold post. rewrite Ea. by split.
Qed.

Lemma lp_close_enters l now reason a trades l' :
  holds l a -> closePosition l now reason = (trades, l') -> enters l' a trades /\ position l' = None.
Proof.
  unfold holds, closePosition. intros [Hf Hp] H. destruct (position l) as [pos|] eqn:Ep;
    injection H as <- <-.
  - destruct (a.2) as [o|] eqn:Ea; [|done]. split; [|done]. split; cbn.
    + unfold entry_ok. rewrite Ea. cbn. by rewrite Hp, net_value_nonneg.
    + unfold post. rewrite Ea. split; cbn; [by rewrite Hf|done].
  - split; [|done]. split; [done|]. unfold holds. cbn. by rewrite Ep.
Qed.

(** Nothing but the strategist's pull closes a position off the ledger. *)
Definition no_pull (x : Env * task_op) : Prop :=
  match x.2 with OpAdjust entries => Forall (fun e => e.1 <> "pull_liquidity") entries | _ => True end.

Lemma lp_adjust_books now entries l : Forall (fun e => e.1 <> "pull_liquidity") entries ->
  let l' := (apply_entries (adjust_case now) entries l).2 in l' = with_cfg l (cfg l').
Proof.
  intros H. revert l. induction H as [|[k raw] entries Hk _ IH]; intros l; [by destruct l|].
  cbn [apply_entries]. destruct (adjust_case now k raw) as [u|] eqn:E; [|by destruct l].
  specialize (IH (u l)). cbn zeta in *. rewrite IH at 1.
  assert (Hu : u l = with_cfg l (cfg (u l))) by (cbn in Hk; switch_key E; by destruct l).
  by rewrite Hu.
Qed.

Lemma lp_tick_enters e l a : holds l a ->
  let '(r, l') := RunTick e l in
  enters l' a (match r with Ok trades => trades | Fail _ => [] end).
Proof.
  intros Hh. unfold RunTick.
  assert (Hq : forall l', freeCapital l' = freeCapital l -> position l' = position l -> enters l' a [])
    by (intros l' Hf Hp; split; [done|]; unfold holds in *; cbn; by rewrite Hf, Hp).
  destruct (negb _); [by apply Hq|].
  set (l1 := with_lastCheck l _). destruct (totalCapitalLocked l1 <? _)%float; [by apply Hq|].
  destruct (e_quote _ _ _ _ _) as [q|]; [|by apply Hq].
  destruct (quote_price q <=? 0)%float; [by apply Hq|].
  set (l2 := with_lastPrice l1 _). change (position l2) with (position l).
  assert (Hh2 : holds l2 a) by exact Hh.
  destruct (position l) as [pos|] eqn:Ep.
  - destruct (drift _ _ <? _)%float; [by apply Hq|].
    destruct (closePosition l2 _ _) as [exits l3] eqn:E3.
    destruct (lp_close_enters _ _ _ _ _ _ Hh2 E3) as [H3 Hn].
    destruct (openPosition l3 _ _) as [opens l4] eqn:E4.
    eapply enters_app; [exact H3|]. eapply open_enters; [apply H3|exact Hn|exact E4].
  - destruct (openPosition l2 _ _) as [opens l4] eqn:E4.
    exact (open_enters l2 _ _ a _ _ Hh2 Ep E4).
Qed.

Lemma lp_step_enters l a x : holds l a -> no_pull x ->
  let '(trades, l') := task_step l x in enters l' a trades.
Proof.
  destruct x as [e op]. intros Hh Hx. destruct op as [|entries|]; cbn [task_step snd fst] in *.
  - pose proof (lp_tick_enters e l a Hh) as H. cbn. destruct (RunTick e l) as [[]]; exact H.
  - split; [done|]. cbn. unfold ApplyAdjustments. rewrite (lp_adjust_books _ entries l) by done. exact Hh.
  - cbn. unfold CloseAllPositions. destruct (position l) eqn:Ep; [|by split].
    destruct (closePosition l _ _) as [trades l'] eqn:E. by eapply lp_close_enters.
Qed.

(** Over any session in which nothing is pulled, the trades of a
    liquidity task are a ledger: openings and closes alternate, an opening
    deploys exactly the capital that is free, a close returns the position that
    is open, for no negative amount, and books the difference; and the free
    capital and the open position are those the ledger leaves. *)
Theorem lp_ledger unicode_upper clients c l usd xs :
  NewLiquidityProvision unicode_upper clients c = Ok l -> Forall no_pull xs ->
  let '(trades, l') := session (SeedFreeCapital l usd) xs in
  ledger entry_ok post (usd, None) trades /\ holds l' (fold_left post trades (usd, None)).
Proof.
  intros Hnew Hxs.
  assert (Hh : holds (SeedFreeCapital l usd) (usd, None)).
  { unfold NewLiquidityProvision in Hnew. destruct (Validate _ _); [done|].
    destruct clients; [|done]. destruct (negb _); [done|].
    destruct (splitTokenPair _ _) as [[ta tb]|]; [|done]. by injection Hnew as <-. }
  exact (session_enters entry_ok post holds no_pull xs _ _ lp_step_enters Hxs Hh).
Qed.

(** ** The band *)

Definition band_ok (pos : lpPosition) : Prop :=
  (0 <=? LowerPrice pos)%float = true /\ (LowerPrice pos <=? CenterPrice pos)%float = true /\
  (CenterPrice pos <=? UpperPrice pos)%float = true /\ EntryPrice pos = CenterPrice pos.

Lemma open_band_ok l now price :
  fbetween rangeWidthFloor (RangeWidthPct (cfg l)) rangeWidthCeil = true ->
  is_fin price = true -> (price <=? 0)%float = false -> band_ok (open_band l now price).
Proof.
  intros Hw Fp Hp. pose proof (is_fin_not_nan _ Fp) as Np.
  rewrite fleb_rank in Hp by done. rewrite frank_zero in Hp. apply Z.leb_gt in Hp.
  apply fbetween_rank in Hw as [Nw Hw]. pose proof (pow2_pos 1074 ltac:(lia)) as H2.
  set (w := RangeWidthPct (cfg l)) in *.
  assert (E1 : frank rangeWidthCeil = 2 ^ 1074) by reflexivity.
  assert (E0 : 0 <= frank rangeWidthFloor) by (vm_compute; discriminate).
  assert (Ehalf : 2 * frank 0.5 = 2 ^ 1074) by reflexivity.
  assert (E2 : frank 2 = 2 * 2 ^ 1074) by reflexivity.
  assert (Fw : is_fin w = true) by (apply is_fin_between; [done|rewrite frank_one; lia]).
  destruct (fdiv_bounds w 2 Fw eq_refl ltac:(lia) ltac:(lia)) as (Nh & H0 & HK).
  specialize (HK 0.5%float eq_refl ltac:(nia)). set (half := (w / 2)%float) in *.
  assert (Fh : is_fin half = true) by (apply is_fin_between; [done|rewrite frank_one; lia]).
  destruct (fsub_le 1 half eq_refl Fh ltac:(rewrite frank_one; lia)) as [Fl Hl].
  destruct (fmul_unit (1 - half) price Fp Fl ltac:(lia) Hl) as [Flp Hlp].
  rewrite fmul_comm in Flp, Hlp.
  destruct (fadd_nonneg 1 half eq_refl Fh ltac:(rewrite frank_one; lia) H0) as (Nu & Hu & _).
  destruct (fadd_rounds 1 half eq_refl Fh) as (_ & HuK & _).
  assert (E15 : frank 1.5 = 2 ^ 1074 + frank 0.5) by reflexivity.
  specialize (HuK 1.5%float eq_refl ltac:(rewrite frank_one; lia)).
  assert (Fu : is_fin (1 + half)%float = true).
  { apply is_fin_rank. split; [done|]. assert (F : is_fin 1.5 = true) by reflexivity.
    apply is_fin_rank in F as [_ F]. rewrite frank_one in Hu. lia. }
  rewrite frank_one in Hu.
  destruct (fmul_bounds price (1 + half) Fp Fu ltac:(lia) ltac:(lia)) as (Num & _ & _).
  pose proof (fmul_ge price (1 + half) price Fp Fu ltac:(lia) ltac:(lia) Fp ltac:(nia)) as Hge.
  unfold band_ok, open_band. cbn. fold w half.
  pose proof (is_fin_not_nan _ Flp). rewrite !fleb_rank by done. rewrite frank_zero.
  repeat split; lia.
Qed.

(** Quotes come as finite prices, whatever their sign. *)
Definition finite_quotes (e : Env) : Prop :=
  forall chain a b x q, e_quote e chain a b x = Ok q -> is_fin (quote_price q) = true.

Definition lp_inv (l : LiquidityProvision) : Prop :=
  fbetween rangeWidthFloor (RangeWidthPct (cfg l)) rangeWidthCeil = true /\
  match position l with Some pos => band_ok pos | None => True end.

Lemma openPosition_inv l now price : lp_inv l -> is_fin price = true -> (price <=? 0)%float = false ->
  lp_inv (openPosition l now price).2.
Proof.
  intros [Hw Hb] Fp Hp. unfold openPosition. destruct (freeCapital l <=? 0)%float; [done|].
  split; [done|]. cbn. by apply open_band_ok.
Qed.

Lemma closePosition_inv l now reason : lp_inv l -> lp_inv (closePosition l now reason).2.
Proof. intros H. unfold closePosition. destruct (position l) eqn:E; [|done]. split; [apply H|done]. Qed.

#[export] Instance lp_laws : TaskLaws LiquidityProvision.
Proof.
  refine {| task_env := finite_quotes; task_inv := lp_inv |}.
  - intros e l He Hi. cbn. unfold RunTick. destruct (negb _); [done|].
    set (l1 := with_lastCheck l _). assert (H1 : lp_inv l1) by done.
    destruct (totalCapitalLocked l1 <? _)%float; [done|].
    destruct (e_quote _ _ _ _ _) as [q|] eqn:Eq; [|done]. apply He in Eq.
    destruct (quote_price q <=? 0)%float eqn:Ep; [done|].
    set (l2 := with_lastPrice l1 _). assert (H2 : lp_inv l2) by done.
    destruct (position l2) as [pos|].
    + destruct (drift _ _ <? _)%float; [done|].
      pose proof (closePosition_inv l2 (e_now e 0%nat) "rebalance" H2) as H3.
      destruct (closePosition l2 _ _) as [exits l3].
      pose proof (openPosition_inv l3 (e_now e 0%nat) _ H3 Eq Ep) as H4.
      by destruct (openPosition l3 _ _).
    + pose proof (openPosition_inv l2 (e_now e 0%nat) _ H2 Eq Ep) as H4.
      by destruct (openPosition l2 _ _).
  - intros e entries l _ Hok Hi. cbn. unfold ApplyAdjustments. apply apply_entries_inv; [|done|done].
    intros k raw u l' Hn Hu Hi'. switch_key Hu; cbn beta zeta.
    + destruct Hi' as [_ Hb]. split; [|exact Hb]. apply clampFloat_between; [by apply Hn|reflexivity].
    + exact Hi'.
    + exact Hi'.
    + rewrite pull_either. destruct b; [by apply closePosition_inv|done].
    + exact Hi'.
  - intros e l _ Hi. cbn. unfold CloseAllPositions. destruct (position l); [by apply closePosition_inv|done].
  - intros e e0 l _. cbn. unfold CloseAllPositions, closePosition, GetPositionValue.
    destruct (position l) eqn:E; cbn; [done|by rewrite E].
Defined.

(** Whatever the price does, as long as quotes are finite, and however the
    strategist resizes the band, an open band is around the price it was opened
    at: its lower edge is not negative nor above the center, its upper edge
    not below it. *)
Theorem lp_band unicode_upper clients c l usd xs :
  NewLiquidityProvision unicode_upper clients c = Ok l -> is_nan (RangeWidthPct c) = false ->
  Forall (op_fine finite_quotes) xs ->
  match position (session (SeedFreeCapital l usd) xs).2 with Some pos => band_ok pos | None => True end.
Proof.
  intros Hnew Hn Hxs.
  assert (Hi : lp_inv (SeedFreeCapital l usd)).
  { unfold NewLiquidityProvision in Hnew. destruct (Validate _ _) eqn:Ev; [done|].
    apply lp_Validate_iff in Ev as [_ _ Hw _ _].
    destruct clients; [|done]. destruct (negb _); [done|].
    destruct (splitTokenPair _ _) as [[ta tb]|]; [|done]. injection Hnew as <-. split; [|done].
    apply foutside_cases in Hw as [Hw|Hw]; [|exact Hw|done|done]. cbn in Hw. unfold or_default in Hw.
    by destruct (RangeWidthPct c =? 0)%float; [|congruence]. }
  exact (proj2 (session_inv xs _ Hxs Hi)).
Qed.

(** ** A session *)

Definition sample_config : LiquidityProvisionConfig := {|
  c_Chain := "base"; TokenPair := "weth-usdc"; PoolAddress := "0xpool"; FeeTier := "0.05%";
  RangeWidthPct := 0; RebalanceThresholdPct := 0; CheckIntervalSecs := 0; MaxDrawdownPct := 0;
  MinCapitalToOperate := 0 |}.

Definition no_unicode (s : string) : string := s.

Definition market (t : Time) (p : float) : Env := {|
  e_now := fun _ => t;
  e_quote := fun _ _ _ _ => Ok (price_quote 1 p p);
  e_yields := fun _ _ => Ok []; e_positions := fun _ _ _ => Ok [];
  e_liquidate := fun _ _ _ => Ok None;
  e_range := fun _ _ => map_to_list |}.

Definition minute (k : Z) : Time := 63902736000 * Second + k * Minute.

Definition sample_clients : option (gset string) := Some {[ "base" ]}.

Definition sample_lp : LiquidityProvision :=
  match NewLiquidityProvision no_unicode sample_clients sample_config with
  | Ok l => SeedFreeCapital l 1000
  | Fail _ => {| cfg := sample_config; tokenA := ""; tokenB := ""; position := None; freeCapital := 0;
      lastCheck := 0; lastPrice := 0; lastRebalance := 0; feeHistory := [] |}
  end.

(** The second price is inside the band, the third out of it. *)
Definition drifting : list (Env * task_op) :=
  [(market (minute 0) 100, OpTick); (market (minute 1) 102, OpTick); (market (minute 2) 110, OpTick);
   (market (minute 2) 110, OpAdjust [("range_width_pct", AFloat64 5)]); (market (minute 3) 110, OpClose)].

Example drifting_trades :
  tr_TradeType <$> (session sample_lp drifting).1 = ["lp_open"; "lp_close"; "lp_open"; "lp_close"].
Proof. vm_compute. reflexivity. Qed.

Lemma lp_ledger_witness :
  ledger entry_ok post (1000%float, None) (session sample_lp drifting).1 /\
  holds (session sample_lp drifting).2 (fold_left post (session sample_lp drifting).1 (1000%float, None)).
Proof.
  assert (Hx : Forall no_pull drifting) by (repeat constructor; cbn; intros; done).
  pose proof (lp_ledger no_unicode sample_clients sample_config _ 1000 drifting eq_refl Hx) as H.
  change (SeedFreeCapital _ 1000) with sample_lp in H.
  destruct (session sample_lp drifting) as [trades l']. exact H.
Defined.

Lemma lp_band_witness :
  match position (session sample_lp (take 4 drifting)).2 with Some pos => band_ok pos | None => True end.
Proof.
  apply (lp_band no_unicode sample_clients sample_config _ 1000 (take 4 drifting) eq_refl eq_refl).
  assert (Hq : forall t p, is_fin (quote_price (price_quote 1 p p)) = true ->
    finite_quotes (market t p)) by (intros t p Hp chain a b x q [= <-]; exact Hp).
  repeat (apply Forall_cons; split; [split; [by apply Hq|]|]); try done.
  apply Forall_cons. split; [intros v [= <-]; reflexivity|constructor].
Defined.

Lemma lp_adjustments_witness :
  ApplyAdjustments (market (minute 5) 1) [("pull_liquidity", ABool true); ("range_width_pct", AInt 2)] sample_lp =
  ApplyAdjustments (market (minute 5) 1) [("range_width_pct", AInt 2); ("pull_liquidity", ABool true)] sample_lp.
Proof.
  pose proof (lp_adjustments no_unicode (market (minute 5) 1)
    [("range_width_pct", AInt 2); ("pull_liquidity", ABool true)]
    [("pull_liquidity", ABool true); ("range_width_pct", AInt 2)] sample_lp) as H.
  destruct (ApplyAdjustments (market (minute 5) 1)
    [("range_width_pct", AInt 2); ("pull_liquidity", ABool true)] sample_lp) as [err m'] eqn:E.
  assert (Hok : adjustments_ok [("range_width_pct", AInt 2); ("pull_liquidity", ABool true)])
    by (repeat constructor; cbn; intros v [= <-]; reflexivity).
  specialize (H Hok eq_refl). destruct H as (H1 & _ & _ & H2).
  assert (Herr : err = None) by exact (f_equal fst (eq_sym E)).
  rewrite Herr. apply H2; [exact Herr| |apply Permutation_swap].
  by apply (bool_decide_eq_true_1 _).
Defined.

(** A position the strategist pulls leaves no trade, and the next tick opens
    another: the trades handed to the runner are two openings in a row. *)
Lemma pull_off_the_ledger :
  tr_TradeType <$> (session sample_lp
    [(market (minute 0) 100, OpTick); (market (minute 0) 100, OpAdjust [("pull_liquidity", ABool true)]);
     (market (minute 1) 100, OpTick)]).1 = ["lp_open"; "lp_open"].
Proof. vm_compute. reflexivity. Qed.
