(* ===== verification/LiquidationHunting.v ===== *)
(** * The liquidation hunting strategy

    [internal/agent/tasks/liquidation_hunting.go] and
    [liquidation_hunting_config.go]: every protocol polled in turn, the
    positions at risk filtered and liquidated under a daily quota, the errors
    of the client swallowed as long as something was executed. *)
From Stdlib Require Import ZArith Lia Ascii Floats.
From stdpp Require Import base list strings gmap.
From S2P Require Import Prelude GoBase GoFmt GoFloat GoRound Genome Task.
Set Warnings "-inexact-float".
Open Scope Z_scope.

(** ** The config *)

Record LiquidationHuntingConfig := {
  c_Chain : string;
  Protocols : list string;
  MinProfitUSD : float;
  HealthFactorThreshold : float;
  CheckIntervalSecs : float;
  MaxPositionSizeUSD : float;
  MaxDailyLiquidations : Z;
  MinCapitalToOperate : float;
}.

Definition liqMinProfitFloor : float := 0.
Definition liqMinProfitCeil : float := 100000.
Definition liqHFThresholdFloor : float := 0.50.
Definition liqHFThresholdCeil : float := 1.50.
Definition liqCheckIntervalFloor : float := 1.
Definition liqCheckIntervalCeil : float := 600.
Definition liqMaxDailyFloor : Z := 1.
Definition liqMaxDailyCeil : Z := 1000.

(** The config with the fields a default or an adjustment can set. *)
Definition tuned (c : LiquidationHuntingConfig) (profit hf secs size : float) (daily : Z)
    : LiquidationHuntingConfig := {|
  c_Chain := c_Chain c; Protocols := Protocols c; MinProfitUSD := profit; HealthFactorThreshold := hf;
  CheckIntervalSecs := secs; MaxPositionSizeUSD := size; MaxDailyLiquidations := daily;
  MinCapitalToOperate := MinCapitalToOperate c |}.

Definition applyDefaults (c : LiquidationHuntingConfig) : LiquidationHuntingConfig :=
  tuned c (or_default (MinProfitUSD c) 5) (or_default (HealthFactorThreshold c) 1)
    (or_default (CheckIntervalSecs c) 10) (or_default (MaxPositionSizeUSD c) 10000)
    (if MaxDailyLiquidations c =? 0 then 20 else MaxDailyLiquidations c).

Definition Validate (c : LiquidationHuntingConfig) : option gerror :=
  if str_eqb (c_Chain c) "" then gerr "liquidation_hunting: chain required"
  else if negb (str_eqb (c_Chain c) "solana") && negb (str_eqb (c_Chain c) "base") then
    gerr "liquidation_hunting: chain %q must be solana or base"
  else if len (Protocols c) =? 0 then gerr "liquidation_hunting: at least one protocol required"
  else if foutside (MinProfitUSD c) liqMinProfitFloor liqMinProfitCeil then
    gerr "liquidation_hunting: min_profit_usd=%v out of [%v,%v]"
  else if foutside (HealthFactorThreshold c) liqHFThresholdFloor liqHFThresholdCeil then
    gerr "liquidation_hunting: health_factor_threshold=%v out of [%v,%v]"
  else if foutside (CheckIntervalSecs c) liqCheckIntervalFloor liqCheckIntervalCeil then
    gerr "liquidation_hunting: check_interval_secs=%v out of [%v,%v]"
  else if (MaxDailyLiquidations c <? liqMaxDailyFloor) || (liqMaxDailyCeil <? MaxDailyLiquidations c) then
    gerr "liquidation_hunting: max_daily_liquidations=%v out of [%v,%v]"
  else if (MaxPositionSizeUSD c <=? 0)%float then
    gerr "liquidation_hunting: max_position_size_usd must be positive"
  else if (MinCapitalToOperate c <? 0)%float then
    gerr "liquidation_hunting: min_capital_to_operate must be non-negative"
  else None.

(** ** The state *)

Record LiquidationHunting := {
  cfg : LiquidationHuntingConfig;
  freeCapital : float;
  lastCheck : Time;
  dailyDate : string;
  dailyCount : Z;
  dailySuccess : Z;
  dailyAttempt : Z;
  totalSuccess : Z;
  totalAttempt : Z;
  atRiskSnapshot : list LendingPosition;
}.

(** [clients] are the names of [deps.Clients], [None] when the map is nil. *)
Definition NewLiquidationHunting (clients : option (gset string)) (c : LiquidationHuntingConfig)
    : result LiquidationHunting :=
  let c := applyDefaults c in
  match Validate c with
  | Some err => Fail err
  | None =>
    match clients with
    | None => Fail (EMsg "liquidation_hunting: deps.Clients required")
    | Some names =>
      if negb (bool_decide (c_Chain c ∈ names)) then
        Fail (EMsg "liquidation_hunting: chain %q missing from deps.Clients")
      else Ok {|
        cfg := c; freeCapital := 0; lastCheck := zero_time; dailyDate := ""; dailyCount := 0;
        dailySuccess := 0; dailyAttempt := 0; totalSuccess := 0; totalAttempt := 0;
        atRiskSnapshot := [] |}
    end
  end.

Definition with_cfg (l : LiquidationHunting) (c : LiquidationHuntingConfig) : LiquidationHunting := {|
  cfg := c; freeCapital := freeCapital l; lastCheck := lastCheck l; dailyDate := dailyDate l;
  dailyCount := dailyCount l; dailySuccess := dailySuccess l; dailyAttempt := dailyAttempt l;
  totalSuccess := totalSuccess l; totalAttempt := totalAttempt l; atRiskSnapshot := atRiskSnapshot l |}.

Definition SeedFreeCapital (l : LiquidationHunting) (usd : float) : LiquidationHunting := {|
  cfg := cfg l; freeCapital := usd; lastCheck := lastCheck l; dailyDate := dailyDate l;
  dailyCount := dailyCount l; dailySuccess := dailySuccess l; dailyAttempt := dailyAttempt l;
  totalSuccess := totalSuccess l; totalAttempt := totalAttempt l; atRiskSnapshot := atRiskSnapshot l |}.

Definition with_lastCheck (l : LiquidationHunting) (t : Time) : LiquidationHunting := {|
  cfg := cfg l; freeCapital := freeCapital l; lastCheck := t; dailyDate := dailyDate l;
  dailyCount := dailyCount l; dailySuccess := dailySuccess l; dailyAttempt := dailyAttempt l;
  totalSuccess := totalSuccess l; totalAttempt := totalAttempt l; atRiskSnapshot := atRiskSnapshot l |}.

Definition with_atRisk (l : LiquidationHunting) (ps : list LendingPosition) : LiquidationHunting := {|
  cfg := cfg l; freeCapital := freeCapital l; lastCheck := lastCheck l; dailyDate := dailyDate l;
  dailyCount := dailyCount l; dailySuccess := dailySuccess l; dailyAttempt := dailyAttempt l;
  totalSuccess := totalSuccess l; totalAttempt := totalAttempt l; atRiskSnapshot := ps |}.

(** The counts of the day, for a date. *)
Definition with_day (l : LiquidationHunting) (date : string) (count success attempt : Z)
    : LiquidationHunting := {|
  cfg := cfg l; freeCapital := freeCapital l; lastCheck := lastCheck l; dailyDate := date;
  dailyCount := count; dailySuccess := success; dailyAttempt := attempt;
  totalSuccess := totalSuccess l; totalAttempt := totalAttempt l; atRiskSnapshot := atRiskSnapshot l |}.

Definition maybeResetDailyLocked (l : LiquidationHunting) (now : Time) : LiquidationHunting :=
  let day := FormatDate now in
  if str_eqb (dailyDate l) "" then with_day l day (dailyCount l) (dailySuccess l) (dailyAttempt l)
  else if negb (str_eqb day (dailyDate l)) then with_day l day 0 0 0
  else l.

(** [l.dailyAttempt++; l.totalAttempt++]. *)
Definition count_attempt (l : LiquidationHunting) : LiquidationHunting := {|
  cfg := cfg l; freeCapital := freeCapital l; lastCheck := lastCheck l; dailyDate := dailyDate l;
  dailyCount := dailyCount l; dailySuccess := dailySuccess l;
  dailyAttempt := wrap64 (dailyAttempt l + 1); totalSuccess := totalSuccess l;
  totalAttempt := wrap64 (totalAttempt l + 1); atRiskSnapshot := atRiskSnapshot l |}.

(** [l.dailyCount++; l.dailySuccess++; l.totalSuccess++]. *)
Definition count_success (l : LiquidationHunting) : LiquidationHunting := {|
  cfg := cfg l; freeCapital := freeCapital l; lastCheck := lastCheck l; dailyDate := dailyDate l;
  dailyCount := wrap64 (dailyCount l + 1); dailySuccess := wrap64 (dailySuccess l + 1);
  dailyAttempt := dailyAttempt l; totalSuccess := wrap64 (totalSuccess l + 1);
  totalAttempt := totalAttempt l; atRiskSnapshot := atRiskSnapshot l |}.

(** ** The hunt *)

(** [pos.LiquidationBonus / 10_000.0] of the collateral. *)
Definition estProfit (pos : LendingPosition) : float :=
  (CollateralAmt pos * (LiquidationBonus pos / 10000))%float.

Definition liquidation_trade (now : Time) (pos : LendingPosition) (res : TxResult) : Trade := {|
  tr_ID := ""; tr_AgentID := ""; tr_EpochID := ""; tr_Chain := lp_Chain pos;
  tr_TradeType := "liquidation"; tr_TokenPair := CollateralAsset pos +:+ "/" +:+ DebtAsset pos;
  tr_DEX := lp_Protocol pos; tr_AmountIn := CollateralAmt pos;
  tr_AmountOut := (CollateralAmt pos + estProfit pos)%float; tr_FeePaid := 0; tr_PnL := estProfit pos;
  tr_TxSignature := tx_Signature res; tr_IsPaperTrade := false; tr_BanditPolicyUsed := "";
  tr_ExecutedAt := now;
  tr_Metadata := {[ "protocol" := VStr (lp_Protocol pos); "owner" := VStr (lp_Owner pos);
    "health_factor" := VFloat (HealthFactor pos);
    "liquidation_bonus_bps" := VFloat (LiquidationBonus pos);
    "collateral_asset" := VStr (CollateralAsset pos); "debt_asset" := VStr (DebtAsset pos) ]} |}.

(** The variables of the two loops: the task, the trades, the positions at
    risk, the last error, and the number of calls made on the client. *)
Record hunt := {
  h_task : LiquidationHunting;
  h_out : list Trade;
  h_atRisk : list LendingPosition;
  h_err : option gerror;
  h_calls : nat;
}.

(** The turn of a position; [true] is the [break]. *)
Definition hunt_position (e : Env) (now : Time) (h : hunt) (pos : LendingPosition) : bool * hunt :=
  let l := h_task h in
  let c := cfg l in
  if (HealthFactorThreshold c <=? HealthFactor pos)%float then (false, h)
  else
    let h := {| h_task := l; h_out := h_out h; h_atRisk := h_atRisk h ++ [pos]; h_err := h_err h;
                h_calls := h_calls h |} in
    if (MaxPositionSizeUSD c <? CollateralAmt pos)%float then (false, h)
    else if (estProfit pos <? MinProfitUSD c)%float then (false, h)
    else if MaxDailyLiquidations c <=? dailyCount l then (true, h)
    else
      let l := count_attempt l in
      match e_liquidate e (h_calls h) (c_Chain c) pos with
      | Fail err =>
          (false, {| h_task := l; h_out := h_out h; h_atRisk := h_atRisk h;
             h_err := Some (EWrap "liquidation_hunting: ExecuteLiquidation: %w" err);
             h_calls := S (h_calls h) |})
      | Ok None =>
          (false, {| h_task := l; h_out := h_out h; h_atRisk := h_atRisk h; h_err := h_err h;
             h_calls := S (h_calls h) |})
      | Ok (Some res) =>
          if negb (tx_Success res) then
            (false, {| h_task := l; h_out := h_out h; h_atRisk := h_atRisk h; h_err := h_err h;
               h_calls := S (h_calls h) |})
          else
            (false, {| h_task := count_success l; h_out := h_out h ++ [liquidation_trade now pos res];
               h_atRisk := h_atRisk h; h_err := h_err h; h_calls := S (h_calls h) |})
      end.

Fixpoint hunt_positions (e : Env) (now : Time) (h : hunt) (ps : list LendingPosition) : hunt :=
  match ps with
  | [] => h
  | pos :: ps' =>
      match hunt_position e now h pos with
      | (true, h) => h
      | (false, h) => hunt_positions e now h ps'
      end
  end.

Definition hunt_protocol (e : Env) (now : Time) (h : hunt) (proto : string) : hunt :=
  match e_positions e (h_calls h) (c_Chain (cfg (h_task h))) proto with
  | Fail err =>
      {| h_task := h_task h; h_out := h_out h; h_atRisk := h_atRisk h;
         h_err := Some (EWrap "liquidation_hunting: GetLendingPositions(%s): %w" err);
         h_calls := S (h_calls h) |}
  | Ok ps =>
      hunt_positions e now {| h_task := h_task h; h_out := h_out h; h_atRisk := h_atRisk h;
        h_err := h_err h; h_calls := S (h_calls h) |} ps
  end.

Definition RunTick (e : Env) (l : LiquidationHunting) : result (list Trade) * LiquidationHunting :=
  let now := e_now e 0%nat in
  let l := maybeResetDailyLocked l now in
  if negb (poll_due (lastCheck l) now (seconds (CheckIntervalSecs (cfg l)))) then (Ok [], l)
  else
    let l := with_lastCheck l now in
    if (freeCapital l <? MinCapitalToOperate (cfg l))%float then (Ok [], l)
    else if MaxDailyLiquidations (cfg l) <=? dailyCount l then (Ok [], l)
    else
      let h := fold_left (hunt_protocol e now) (Protocols (cfg l))
        {| h_task := l; h_out := []; h_atRisk := []; h_err := None; h_calls := 0 |} in
      let l := with_atRisk (h_task h) (h_atRisk h) in
      match h_err h, h_out h with
      | Some err, [] => (Fail err, l)
      | _, out => (Ok out, l)
      end.

(** ** The rest of the task *)

Definition success_rate (l : LiquidationHunting) : float :=
  if 0 <? totalAttempt l then (float_of_int (totalSuccess l) / float_of_int (totalAttempt l))%float
  else 0%float.

Definition GetStateSummary {S : SliceSort} (l : LiquidationHunting) : list (string * jval) :=
  let top := sort_slice (fun a b => (HealthFactor a <? HealthFactor b)%float) (atRiskSnapshot l) in
  let top := take 3 top in
  [("chain", JStr (c_Chain (cfg l))); ("protocols", JList (JStr <$> Protocols (cfg l)));
   ("liquidations_today", JInt (dailyCount l)); ("max_daily", JInt (MaxDailyLiquidations (cfg l)));
   ("success_rate", JNum (success_rate l)); ("total_success", JInt (totalSuccess l));
   ("total_attempts", JInt (totalAttempt l)); ("free_capital_usd", JNum (freeCapital l));
   ("top_at_risk", JList ((fun p => JMap
      [("protocol", JStr (lp_Protocol p)); ("owner", JStr (lp_Owner p));
       ("health_factor", JNum (HealthFactor p)); ("collateral_asset", JStr (CollateralAsset p));
       ("collateral_amt", JNum (CollateralAmt p)); ("debt_asset", JStr (DebtAsset p));
       ("debt_amt", JNum (DebtAmt p)); ("bonus_bps", JNum (LiquidationBonus p))]) <$> top));
   ("daily_quota_used", JInt (dailyCount l))].

(** The cases of the [switch]. *)
Definition adjust_case (k : string) (raw : any) : result (LiquidationHunting -> LiquidationHunting) :=
  if str_eqb k "min_profit_usd" then
    numeric raw "liquidation_hunting: min_profit_usd not numeric: %T"
      (fun v l => let c := cfg l in with_cfg l (tuned c (clampFloat v liqMinProfitFloor liqMinProfitCeil)
         (HealthFactorThreshold c) (CheckIntervalSecs c) (MaxPositionSizeUSD c) (MaxDailyLiquidations c)))
  else if str_eqb k "health_factor_threshold" then
    numeric raw "liquidation_hunting: health_factor_threshold not numeric: %T"
      (fun v l => let c := cfg l in with_cfg l (tuned c (MinProfitUSD c)
         (clampFloat v liqHFThresholdFloor liqHFThresholdCeil) (CheckIntervalSecs c)
         (MaxPositionSizeUSD c) (MaxDailyLiquidations c)))
  else if str_eqb k "max_daily_liquidations" then
    numeric raw "liquidation_hunting: max_daily_liquidations not numeric: %T"
      (fun v l => let c := cfg l in with_cfg l (tuned c (MinProfitUSD c) (HealthFactorThreshold c)
         (CheckIntervalSecs c) (MaxPositionSizeUSD c)
         (int_of_float (clampFloat v (float_of_int liqMaxDailyFloor) (float_of_int liqMaxDailyCeil)))))
  else if str_eqb k "check_interval_secs" then
    numeric raw "liquidation_hunting: check_interval_secs not numeric: %T"
      (fun v l => let c := cfg l in with_cfg l (tuned c (MinProfitUSD c) (HealthFactorThreshold c)
         (clampFloat v liqCheckIntervalFloor liqCheckIntervalCeil)
         (MaxPositionSizeUSD c) (MaxDailyLiquidations c)))
  else Ok (fun l => l).

Definition ApplyAdjustments (entries : list (string * any)) (l : LiquidationHunting)
    : option gerror * LiquidationHunting := apply_entries adjust_case entries l.

Definition GetPositionValue (l : LiquidationHunting) : float := 0.

Definition CloseAllPositions (l : LiquidationHunting) : list Trade * LiquidationHunting := ([], l).

#[export] Instance hunting_task : Task LiquidationHunting := {|
  Task.RunTick := RunTick;
  Task.ApplyAdjustments := fun _ => ApplyAdjustments;
  Task.GetPositionValue := fun _ => GetPositionValue;
  Task.CloseAllPositions := fun _ => CloseAllPositions |}.

Definition liquidationHuntingFactory (json_Unmarshal : string -> result LiquidationHuntingConfig)
    (zero : LiquidationHuntingConfig) (deps : option (option (gset string))) (raw : string)
    : result LiquidationHunting :=
  match deps with
  | None => Fail (EMsg "liquidation_hunting: SetLiquidationHuntingDeps not called")
  | Some clients =>
      if 0 <? str_len raw then
        match json_Unmarshal raw with
        | Fail err => Fail (EWrap "liquidation_hunting: decode config: %w" err)
        | Ok c => NewLiquidationHunting clients c
        end
      else NewLiquidationHunting clients zero
  end.

(** ** What a hunt does *)

(** A position some configured protocol lists in this tick. *)
Definition listed (e : Env) (c : LiquidationHuntingConfig) (pos : LendingPosition) : Prop :=
  exists k proto ps, proto ∈ Protocols c /\ e_positions e k (c_Chain c) proto = Ok ps /\ pos ∈ ps.

Definition eligible (c : LiquidationHuntingConfig) (pos : LendingPosition) : Prop :=
  (HealthFactorThreshold c <=? HealthFactor pos)%float = false /\
  (MaxPositionSizeUSD c <? CollateralAmt pos)%float = false /\
  (estProfit pos <? MinProfitUSD c)%float = false.

(** The trade of a liquidation that was due and that the chain confirmed. *)
Definition sound (e : Env) (now : Time) (c : LiquidationHuntingConfig) (tr : Trade) : Prop :=
  exists pos j res, listed e c pos /\ eligible c pos /\
    e_liquidate e j (c_Chain c) pos = Ok (Some res) /\ tx_Success res = true /\
    tr = liquidation_trade now pos res.

Definition client_failed (e : Env) (c : LiquidationHuntingConfig) : Prop :=
  (exists k proto err, e_positions e k (c_Chain c) proto = Fail err) \/
  (exists j pos err, e_liquidate e j (c_Chain c) pos = Fail err).

(** From one state of the loops to another, with the trades and the number of
    attempts in between. *)
Record progress (e : Env) (now : Time) (h h' : hunt) (trades : list Trade) (attempts : Z) : Prop := {
  pr_out : h_out h' = h_out h ++ trades;
  pr_sound : Forall (sound e now (cfg (h_task h))) trades;
  pr_cfg : cfg (h_task h') = cfg (h_task h);
  pr_date : dailyDate (h_task h') = dailyDate (h_task h);
  pr_count : 0 <= dailyCount (h_task h) -> MaxDailyLiquidations (cfg (h_task h)) <= max_int64 ->
    dailyCount (h_task h') = dailyCount (h_task h) + len trades /\
    (trades <> [] -> dailyCount (h_task h') <= MaxDailyLiquidations (cfg (h_task h)));
  pr_daily : dailySuccess (h_task h) = dailyCount (h_task h) ->
    dailySuccess (h_task h') = dailyCount (h_task h');
  pr_attempts : len trades <= attempts;
  pr_success : wrap64 (totalSuccess (h_task h')) = wrap64 (totalSuccess (h_task h) + len trades);
  pr_attempt : wrap64 (totalAttempt (h_task h')) = wrap64 (totalAttempt (h_task h) + attempts);
  pr_range : in_int64 (totalSuccess (h_task h)) -> in_int64 (totalAttempt (h_task h)) ->
    in_int64 (totalSuccess (h_task h')) /\ in_int64 (totalAttempt (h_task h'));
  pr_err : h_err h' = h_err h \/ client_failed e (cfg (h_task h));
}.

Lemma progress_quiet e now h h' : h_out h' = h_out h -> h_task h' = h_task h ->
  h_err h' = h_err h \/ client_failed e (cfg (h_task h)) -> progress e now h h' [] 0.
Proof.
  intros Ho Ht He. constructor; rewrite ?Ht; try done.
  - by rewrite app_nil_r.
  - intros H0 Hm. unfold len. cbn [length]. split; [lia|done].
  - unfold len. cbn [length]. by rewrite Z.add_0_r.
  - by rewrite Z.add_0_r.
Qed.

Lemma progress_trans e now h1 h2 h3 tr1 tr2 a1 a2 :
  progress e now h1 h2 tr1 a1 -> progress e now h2 h3 tr2 a2 ->
  progress e now h1 h3 (tr1 ++ tr2) (a1 + a2).
Proof.
  intros [Ho1 Hs1 Hc1 Hd1 Hn1 Hy1 Ha1 Hw1 Hv1 Hr1 He1] [Ho2 Hs2 Hc2 Hd2 Hn2 Hy2 Ha2 Hw2 Hv2 Hr2 He2].
  rewrite Hc1 in *. assert (Hlen : len (tr1 ++ tr2) = len tr1 + len tr2)
    by (unfold len; rewrite length_app; lia).
  constructor; rewrite ?Hlen.
  - by rewrite Ho2, Ho1, app_assoc.
  - by apply Forall_app.
  - done.
  - by rewrite Hd2.
  - intros H0 Hm. destruct (Hn1 H0 Hm) as [E1 B1]. assert (0 <= len tr1) by (unfold len; lia).
    destruct (Hn2 ltac:(lia) Hm) as [E2 B2]. split; [lia|].
    intros Hne. destruct tr2 as [|x tr2]; [|by apply B2].
    rewrite app_nil_r in Hne. specialize (B1 Hne). unfold len in E2. cbn in E2. lia.
  - auto.
  - lia.
  - rewrite Hw2, <- wrap64_add, Hw1, wrap64_add. f_equal. lia.
  - rewrite Hv2, <- wrap64_add, Hv1, wrap64_add. f_equal. lia.
  - intros A B. destruct (Hr1 A B). by apply Hr2.
  - destruct He2 as [->|]; [done|by right].
Qed.

Lemma hunt_position_progress e now h pos : listed e (cfg (h_task h)) pos ->
  exists trades attempts, progress e now h (hunt_position e now h pos).2 trades attempts.
Proof.
  intros Hl. unfold hunt_position. set (c := cfg (h_task h)) in *. set (l := h_task h) in *.
  assert (Hq : forall h', h_out h' = h_out h -> h_task h' = l -> h_err h' = h_err h ->
    exists trades attempts, progress e now h h' trades attempts).
  { intros h' Ho Ht He. exists [], 0. apply progress_quiet; [done|done|by left]. }
  destruct (HealthFactorThreshold c <=? HealthFactor pos)%float eqn:E1; [by apply Hq|].
  destruct (MaxPositionSizeUSD c <? CollateralAmt pos)%float eqn:E2; [by apply Hq|].
  destruct (estProfit pos <? MinProfitUSD c)%float eqn:E3; [by apply Hq|].
  cbn [h_task h_calls h_atRisk h_out h_err]. fold l.
  destruct (Z.leb_spec (MaxDailyLiquidations c) (dailyCount l)) as [|Hcap]; [by apply Hq|].
  assert (Hatt : forall h', h_out h' = h_out h -> h_task h' = count_attempt l ->
    h_err h' = h_err h \/ client_failed e c -> exists trades attempts, progress e now h h' trades attempts).
  { intros h' Ho Ht He. exists [], 1. constructor; rewrite ?Ht; fold l; try done.
    - by rewrite app_nil_r.
    - intros H0 Hm. cbn. split; [unfold len; cbn [length]; lia|done].
    - cbn -[wrap64]. unfold len. cbn [length]. by rewrite Z.add_0_r.
    - cbn -[wrap64]. by rewrite wrap64_wrap.
    - intros A B. split; [exact A|apply wrap64_range]. }
  destruct (e_liquidate e (h_calls h) (c_Chain c) pos) as [[res|]|err] eqn:El.
  - destruct (tx_Success res) eqn:Es; [|by apply Hatt; [..|left]].
    exists [liquidation_trade now pos res], 1. constructor; cbn -[wrap64]; fold l c; try done.
    + repeat constructor. by exists pos, (h_calls h), res.
    + intros H0 Hm. rewrite wrap64_id by (unfold in_int64, min_int64, max_int64 in *; lia).
      unfold len. cbn [length]. split; [lia|]. lia.
    + by intros ->.
    + by rewrite wrap64_wrap.
    + by rewrite wrap64_wrap.
    + intros _ _. split; apply wrap64_range.
    + by left.
  - by apply Hatt; [..|left].
  - apply Hatt; [done|done|]. right. right. by exists (h_calls h), pos, err.
Qed.

Lemma hunt_positions_progress e now ps : forall h, Forall (listed e (cfg (h_task h))) ps ->
  exists trades attempts, progress e now h (hunt_positions e now h ps) trades attempts.
Proof.
  induction ps as [|pos ps IH]; intros h Hl.
  { exists [], 0. apply progress_quiet; [done|done|by left]. }
  apply Forall_cons in Hl as [Hp Hl]. cbn [hunt_positions].
  destruct (hunt_position_progress e now h pos Hp) as (tr1 & a1 & H1).
  destruct (hunt_position e now h pos) as [[] h1]; cbn [snd] in H1; [by exists tr1, a1|].
  destruct (IH h1) as (tr2 & a2 & H2); [by rewrite (pr_cfg _ _ _ _ _ _ H1)|].
  exists (tr1 ++ tr2), (a1 + a2). by eapply progress_trans.
Qed.

Lemma hunt_protocols_progress e now protos : forall h,
  (forall p, p ∈ protos -> p ∈ Protocols (cfg (h_task h))) ->
  exists trades attempts, progress e now h (fold_left (hunt_protocol e now) protos h) trades attempts.
Proof.
  induction protos as [|proto protos IH]; intros h Hin.
  { exists [], 0. apply progress_quiet; [done|done|by left]. }
  cbn [fold_left].
  assert (H1 : exists trades attempts, progress e now h (hunt_protocol e now h proto) trades attempts).
  { unfold hunt_protocol. destruct (e_positions _ _ _ _) as [ps|err] eqn:Ep.
    - set (h0 := {| h_task := h_task h; h_out := h_out h; h_atRisk := h_atRisk h; h_err := h_err h;
        h_calls := S (h_calls h) |}).
      destruct (hunt_positions_progress e now ps h0) as (tr & a & H).
      { apply Forall_forall. intros pos Hpos. exists (h_calls h), proto, ps.
        split; [apply Hin; by left|done]. }
      exists ([] ++ tr), (0 + a). eapply progress_trans; [|exact H].
      apply progress_quiet; [done|done|by left].
    - exists [], 0. apply progress_quiet; [done|done|]. right. left. by exists (h_calls h), proto, err. }
  destruct H1 as (tr1 & a1 & H1).
  destruct (IH (hunt_protocol e now h proto)) as (tr2 & a2 & H2).
  { intros p Hp. rewrite (pr_cfg _ _ _ _ _ _ H1). apply Hin. by right. }
  exists (tr1 ++ tr2), (a1 + a2). by eapply progress_trans.
Qed.

(** What a tick does, from the counts of its day on. *)
Definition day_count (l : LiquidationHunting) (now : Time) : Z :=
  if str_eqb (dailyDate l) "" || str_eqb (dailyDate l) (FormatDate now) then dailyCount l else 0.

Record ticked (e : Env) (l : LiquidationHunting) (r : result (list Trade)) (l' : LiquidationHunting)
    (trades : list Trade) (attempts : Z) : Prop := {
  tk_trades : match r with
              | Ok ts => ts = trades
              | Fail _ => trades = [] /\ client_failed e (cfg l)
              end;
  tk_sound : Forall (sound e (e_now e 0%nat) (cfg l)) trades;
  tk_cfg : cfg l' = cfg l;
  tk_date : dailyDate l' = FormatDate (e_now e 0%nat);
  tk_count : 0 <= dailyCount l -> MaxDailyLiquidations (cfg l) <= max_int64 ->
    dailyCount l' = day_count l (e_now e 0%nat) + len trades /\
    (trades <> [] -> dailyCount l' <= MaxDailyLiquidations (cfg l));
  tk_daily : dailySuccess l = dailyCount l -> dailySuccess l' = dailyCount l';
  tk_attempts : len trades <= attempts;
  tk_success : wrap64 (totalSuccess l') = wrap64 (totalSuccess l + len trades);
  tk_attempt : wrap64 (totalAttempt l') = wrap64 (totalAttempt l + attempts);
  tk_range : in_int64 (totalSuccess l) -> in_int64 (totalAttempt l) ->
    in_int64 (totalSuccess l') /\ in_int64 (totalAttempt l');
}.

Lemma reset_facts l now : let l1 := maybeResetDailyLocked l now in
  cfg l1 = cfg l /\ dailyDate l1 = FormatDate now /\ dailyCount l1 = day_count l now /\
  (dailySuccess l = dailyCount l -> dailySuccess l1 = dailyCount l1) /\
  totalSuccess l1 = totalSuccess l /\ totalAttempt l1 = totalAttempt l.
Proof.
  unfold maybeResetDailyLocked, day_count, str_eqb. cbn zeta.
  destruct (bool_decide_reflect (dailyDate l = "")) as [E|E]; [done|].
  cbn [orb]. destruct (bool_decide_reflect (dailyDate l = FormatDate now)) as [E'|E'].
  - rewrite (bool_decide_eq_true_2 (FormatDate now = dailyDate l)) by done. done.
  - by rewrite (bool_decide_eq_false_2 (FormatDate now = dailyDate l)) by congruence.
Qed.

Lemma RunTick_ticked e l : let '(r, l') := RunTick e l in
  exists trades attempts, ticked e l r l' trades attempts.
Proof.
  unfold RunTick. set (now := e_now e 0%nat).
  destruct (reset_facts l now) as (Hc & Hd & Hn & Hs & Hts & Hta). cbn zeta in *.
  set (l1 := maybeResetDailyLocked l now) in *.
  assert (Hquiet : forall l', cfg l' = cfg l1 -> dailyDate l' = dailyDate l1 ->
    dailyCount l' = dailyCount l1 -> dailySuccess l' = dailySuccess l1 ->
    totalSuccess l' = totalSuccess l1 -> totalAttempt l' = totalAttempt l1 ->
    exists trades attempts, ticked e l (Ok []) l' trades attempts).
  { intros l' H1 H2 H3 H4 H5 H6. exists [], 0. constructor; rewrite ?H1, ?H2, ?H3, ?H4, ?H5, ?H6; try done.
    - intros _ _. unfold len. cbn [length]. split; [by rewrite Hn, Z.add_0_r|done].
    - unfold len. cbn [length]. by rewrite Hts, Z.add_0_r.
    - by rewrite Hta, Z.add_0_r.
    - by rewrite Hts, Hta. }
  destruct (negb _); [by apply Hquiet|].
  destruct (freeCapital _ <? _)%float; [by apply Hquiet|].
  destruct (_ <=? _); [by apply Hquiet|].
  set (h0 := {| h_task := with_lastCheck l1 now; h_out := []; h_atRisk := []; h_err := None; h_calls := 0 |}).
  change (cfg (with_lastCheck l1 now)) with (cfg l1).
  destruct (hunt_protocols_progress e now (Protocols (cfg l1)) h0 ltac:(done)) as (trades & a & H).
  destruct (fold_left _ _ h0) as [l2 out risk err calls].
  destruct H as [Ho Hso Hcf Hda Hco Hdy Hat Hsu Htt Hra Her].
  cbn [h_task h_out h_atRisk h_err h_calls] in *. cbn -[wrap64] in Hso, Hcf, Hda, Hco, Hdy, Hsu, Htt, Hra, Her, Ho.
  rewrite Hc, ?Hts, ?Hta in *. subst out.
  assert (Hmain : forall r, match r with
      | Ok ts => ts = trades | Fail _ => trades = [] /\ client_failed e (cfg l) end ->
    exists trades attempts, ticked e l r (with_atRisk l2 risk) trades attempts).
  { intros r Hr. exists trades, a. constructor; cbn -[wrap64]; try done.
    - by rewrite Hda.
    - intros H0 Hm. fold now. rewrite <- Hn. apply Hco; [rewrite Hn; unfold day_count; by destruct (_ || _)|done].
    - auto. }
  destruct err as [err|]; [|by apply Hmain].
  destruct trades as [|tr trades]; [|by apply Hmain].
  apply Hmain. split; [done|]. by destruct Her.
Qed.

(** A tick liquidates only positions that a configured protocol lists,
    that are under the health threshold, within the size limit and worth at
    least the least profit, and it hands out a trade exactly for a liquidation
    the chain confirms, worth the position's bonus; it fails only when the
    client did and nothing was executed. *)
Theorem hunting_tick e l :
  match RunTick e l with
  | (Ok trades, l') => Forall (sound e (e_now e 0%nat) (cfg l)) trades
  | (Fail _, l') => client_failed e (cfg l) /\
      wrap64 (totalSuccess l') = wrap64 (totalSuccess l) /\ dailyDate l' = FormatDate (e_now e 0%nat)
  end.
Proof.
  pose proof (RunTick_ticked e l) as H. destruct (RunTick e l) as [[ts|err] l'];
    destruct H as (trades & a & [Ht Hs _ Hd _ _ _ Hsu _ _]); [by subst|].
  destruct Ht as [-> Hf]. split; [done|]. split; [|done]. rewrite Hsu. f_equal. unfold len. cbn. lia.
Qed.

(** ** Sessions *)

Definition is_liquidation (tr : Trade) : bool := str_eqb (tr_TradeType tr) "liquidation".

Lemma sound_is_liquidation e now c trades : Forall (sound e now c) trades ->
  List.filter is_liquidation trades = trades /\ Forall (fun tr => tr_ExecutedAt tr = now) trades.
Proof.
  induction 1 as [|tr trades (pos & j & res & _ & _ & _ & _ & ->) _ [IH1 IH2]]; [done|].
  cbn. rewrite IH1. split; [done|by constructor].
Qed.

(** The adjustments of a session keep the daily cap under [B]. *)
Definition quota_kept (B : Z) (x : Env * task_op) : Prop :=
  match x.2 with
  | OpAdjust entries => Forall (fun e => e.1 = "max_daily_liquidations" -> forall v, toFloat e.2 = Some v ->
      int_of_float (clampFloat v (float_of_int liqMaxDailyFloor) (float_of_int liqMaxDailyCeil)) <= B)
      entries
  | _ => True
  end.

Ltac switch_key H := unfold adjust_case in H; switch_on H.

Lemma hunt_adjust_books entries l : let l' := (ApplyAdjustments entries l).2 in l' = with_cfg l (cfg l').
Proof.
  unfold ApplyAdjustments. revert l. induction entries as [|[k raw] entries IH]; intros l; [by destruct l|].
  cbn [apply_entries]. destruct (adjust_case k raw) as [u|] eqn:E; [|by destruct l].
  specialize (IH (u l)). cbn zeta in *. rewrite IH at 1.
  assert (Hu : u l = with_cfg l (cfg (u l))) by (switch_key E; by destruct l).
  by rewrite Hu.
Qed.

Lemma hunt_adjust_quota B e entries l : quota_kept B (e, OpAdjust entries) ->
  MaxDailyLiquidations (cfg l) <= B -> MaxDailyLiquidations (cfg (ApplyAdjustments entries l).2) <= B.
Proof.
  unfold quota_kept, ApplyAdjustments. cbn [snd]. revert l.
  induction entries as [|[k raw] entries IH]; intros l Hq Hl; [done|].
  apply Forall_cons in Hq as [Hk Hq]. cbn [apply_entries fst snd] in *.
  destruct (adjust_case k raw) as [u|] eqn:E; [|done]. apply IH; [done|].
  switch_key E; try done. by apply Hk.
Qed.

Lemma hunting_quota_laws B : B <= max_int64 ->
  quota_laws dailyDate dailyCount is_liquidation B (fun l => MaxDailyLiquidations (cfg l) <= B) (quota_kept B).
Proof.
  intros HB. split.
  - intros l [e op] Hl Hf. destruct op as [|entries|]; cbn.
    + pose proof (RunTick_ticked e l) as H.
      destruct (RunTick e l) as [[] l']; destruct H as (tr & att & H); cbn; by rewrite (tk_cfg _ _ _ _ _ _ H).
    + by apply (hunt_adjust_quota B e).
    + done.
  - intros l e Hl _ Hc now. cbn. pose proof (RunTick_ticked e l) as H.
    destruct (RunTick e l) as [r l']. destruct H as (tr & att & [Ht Hs Hcf Hd Hn _ _ _ _ _]).
    assert (Hgot : (match r with Ok trades => (trades, l') | Fail _ => ([], l') end) = (tr, l'))
      by (destruct r; [by subst|by destruct Ht as [-> _]]).
    rewrite Hgot. destruct (sound_is_liquidation _ _ _ _ Hs) as [Hfi Hat]. rewrite Hfi.
    destruct (Hn ltac:(lia) ltac:(lia)) as [Hn1 Hn2]. split; [done|]. split; [exact Hn1|]. split; [|done].
    destruct tr as [|x tr]; [|specialize (Hn2 ltac:(done)); lia].
    rewrite Hn1. unfold day_count, len. cbn [length]. destruct (_ || _); lia.
  - intros l [e op] Hop. destruct op as [|entries|]; [done| |done].
    cbn. rewrite (hunt_adjust_books entries l). done.
Qed.

(** C19: As long as the clock does not run backwards, a hunting task executes no
    more liquidations on one UTC day than its daily cap, however many protocols
    list however many positions, whatever fails, and whatever the strategist
    does to the thresholds. *)
Theorem hunting_daily_cap clients c l usd xs u B d :
  NewLiquidationHunting clients c = Ok l ->
  MaxDailyLiquidations (cfg l) <= B -> 0 <= B <= max_int64 -> Forall (quota_kept B) xs ->
  0 <= u -> clock_from u xs ->
  on_day is_liquidation d (session (SeedFreeCapital l usd) xs).1 <= B.
Proof.
  intros Hnew HB Hmax Hxs Hu Hc. set (l0 := SeedFreeCapital l usd).
  assert (H0 : dailyDate l0 = "" /\ dailyCount l0 = 0).
  { unfold NewLiquidationHunting in Hnew. destruct (Validate _); [done|].
    destruct clients; [|done]. destruct (negb _); [done|]. by injection Hnew as <-. }
  destruct H0 as (Hd0 & Hc0).
  pose proof (session_quota _ _ _ B _ _ (hunting_quota_laws B ltac:(lia)) xs l0 u d Hu Hc HB Hxs
    ltac:(lia) (or_introl (conj Hd0 Hc0))) as H.
  rewrite used_fresh in H by done. lia.
Qed.

(** *** The accounts *)

Record books (l : LiquidationHunting) (done attempts : Z) : Prop := {
  bk_daily : dailySuccess l = dailyCount l;
  bk_success : totalSuccess l = wrap64 done;
  bk_attempt : totalAttempt l = wrap64 attempts;
}.

Lemma books_range l n a : books l n a -> in_int64 (totalSuccess l) /\ in_int64 (totalAttempt l).
Proof. intros [_ -> ->]. split; apply wrap64_range. Qed.

Lemma step_books l n a x : books l n a -> exists tried, len (task_step l x).1 <= tried /\
  books (task_step l x).2 (n + len (task_step l x).1) (a + tried).
Proof.
  intros Hb. destruct x as [e op].
  assert (Hn : n + len (@nil Trade) = n /\ a + 0 = a) by (unfold len; cbn [length]; lia).
  destruct Hn as [Hn Ha]. destruct op as [|entries|]; cbn [task_step fst snd].
  - cbn. pose proof (RunTick_ticked e l) as H. pose proof (books_range l n a Hb) as [R1 R2].
    destruct Hb as [Bd Bs Ba]. destruct (RunTick e l) as [r l'].
    destruct H as (tr & tried & [Ht _ _ _ _ Hd Hat Hs Htr Hr]). destruct (Hr R1 R2) as [R1' R2'].
    exists tried. assert (Hgot : (match r with Ok trades => (trades, l') | Fail _ => ([], l') end) = (tr, l'))
      by (destruct r; [by subst|by destruct Ht as [-> _]]).
    rewrite Hgot. split; [exact Hat|]. cbn [fst snd]. split; [auto| |].
    + rewrite <- (wrap64_id (totalSuccess l')) by done. by rewrite Hs, Bs, wrap64_add.
    + rewrite <- (wrap64_id (totalAttempt l')) by done. by rewrite Htr, Ba, wrap64_add.
  - exists 0. cbn. rewrite Hn, Ha, (hunt_adjust_books entries l). split; [done|]. by destruct Hb.
  - exists 0. cbn. by rewrite Hn, Ha.
Qed.

Lemma session_books xs : forall l n a, books l n a -> exists tried, len (session l xs).1 <= tried /\
  books (session l xs).2 (n + len (session l xs).1) (a + tried).
Proof.
  induction xs as [|x xs IH]; intros l n a Hb.
  { exists 0. unfold len. cbn. by rewrite !Z.add_0_r. }
  cbn [session]. destruct (step_books l n a x Hb) as (t1 & H1 & Hb1).
  destruct (task_step l x) as [tr1 l1]. cbn [fst snd] in H1, Hb1. destruct (IH _ _ _ Hb1) as (t2 & H2 & Hb2).
  destruct (session l1 xs) as [tr2 l2]. exists (t1 + t2). cbn [fst snd] in *.
  assert (E : len (tr1 ++ tr2) = len tr1 + len tr2) by (unfold len; rewrite length_app; lia).
  rewrite E, !Z.add_assoc. split; [lia|done].
Qed.

(** The counters of a hunting task account for its trades: after any
    session the successes are the trades handed out, they are at most the
    attempts, the day's two counts agree, and the success rate is between 0 and
    1 as long as the attempts are counted exactly in floating point. *)
Theorem hunting_accounts clients c l usd xs : NewLiquidationHunting clients c = Ok l ->
  let '(trades, l') := session (SeedFreeCapital l usd) xs in
  exists tried, len trades <= tried /\
    totalSuccess l' = wrap64 (len trades) /\ totalAttempt l' = wrap64 tried /\
    dailySuccess l' = dailyCount l' /\
    (tried < 2 ^ 53 -> in_unit (success_rate l') = true).
Proof.
  intros Hnew. assert (Hb : books (SeedFreeCapital l usd) 0 0).
  { unfold NewLiquidationHunting in Hnew. destruct (Validate _); [done|].
    destruct clients; [|done]. destruct (negb _); [done|]. by injection Hnew as <-. }
  destruct (session_books xs _ _ _ Hb) as (tried & Ht & [Bd Bs Ba]).
  destruct (session _ xs) as [trades l']. cbn [fst snd] in *. rewrite !Z.add_0_l in *.
  exists tried. do 4 (split; [done|]). intros Hm.
  assert (H0 : 0 <= len trades) by (unfold len; lia).
  rewrite wrap64_id in Bs, Ba by (unfold in_int64, min_int64, max_int64 in *; lia).
  unfold success_rate. rewrite Bs, Ba. destruct (Z.ltb_spec 0 tried) as [Hp|]; [|reflexivity].
  pose proof (pow2_pos 1074 ltac:(lia)) as H2.
  apply fdiv_unit; [apply float_of_int_fin; unfold in_int64, min_int64, max_int64; lia..| |];
    rewrite !float_of_int_exact by lia; nia.
Qed.

(** *** The laws *)

Definition hunting_inv (l : LiquidationHunting) : Prop :=
  in_int64 (totalSuccess l) /\ in_int64 (totalAttempt l) /\ dailySuccess l = dailyCount l.

#[export] Instance hunting_laws : TaskLaws LiquidationHunting.
Proof.
  refine {| task_env := fun _ => True; task_inv := hunting_inv |}.
  - intros e l _ (H1 & H2 & H3). cbn. pose proof (RunTick_ticked e l) as H.
    destruct (RunTick e l) as [r l']. destruct H as (tr & n & H).
    destruct (tk_range _ _ _ _ _ _ H H1 H2). split; [done|]. split; [done|]. by apply (tk_daily _ _ _ _ _ _ H).
  - intros e entries l _ _ Hi. cbn. rewrite (hunt_adjust_books entries l). exact Hi.
  - done.
  - done.
Defined.

(** ** A session *)

Definition sample_config : LiquidationHuntingConfig := {|
  c_Chain := "base"; Protocols := ["aave"; "compound"]; MinProfitUSD := 0; HealthFactorThreshold := 0;
  CheckIntervalSecs := 0; MaxPositionSizeUSD := 0; MaxDailyLiquidations := 2; MinCapitalToOperate := 100 |}.

Definition loan (proto owner : string) (health : float) : LendingPosition := {|
  lp_Chain := "base"; lp_Protocol := proto; lp_Owner := owner; CollateralAsset := "WETH";
  CollateralAmt := 1000; DebtAsset := "USDC"; DebtAmt := 900; HealthFactor := health;
  LiquidationBonus := 500 |}.

(** Aave lists three positions at risk and a healthy one, compound fails; the
    third call on the client, the second liquidation, is rejected. *)
Definition lending (t : Time) : Env := {|
  e_now := fun _ => t;
  e_quote := fun _ _ _ _ => Fail (EMsg "no quotes");
  e_yields := fun _ _ => Ok [];
  e_positions := fun _ _ proto =>
    if str_eqb proto "aave" then
      Ok [loan "aave" "alice" 0.9; loan "aave" "bob" 1.2; loan "aave" "carol" 0.5; loan "aave" "dan" 0.7;
          loan "aave" "erin" 0.8]
    else Fail (EMsg "rpc down");
  e_liquidate := fun k _ _ => Ok (Some (tx_result "0x1" (negb (k =? 2)%nat)));
  e_range := fun _ _ => map_to_list |}.

Definition sample_clients : option (gset string) := Some {[ "base" ]}.

Definition sample_hunting : LiquidationHunting :=
  match NewLiquidationHunting sample_clients sample_config with
  | Ok l => SeedFreeCapital l 1000
  | Fail _ => {| cfg := sample_config; freeCapital := 0; lastCheck := 0; dailyDate := ""; dailyCount := 0;
      dailySuccess := 0; dailyAttempt := 0; totalSuccess := 0; totalAttempt := 0; atRiskSnapshot := [] |}
  end.

Definition minute (k : Z) : Time := 63902736000 * Second + k * Minute.

(** Two ticks on one day, one on the next. *)
Definition two_days : list (Env * task_op) :=
  [(lending (minute 0), OpTick); (lending (minute 1), OpTick);
   (lending (minute 2), OpAdjust [("max_daily_liquidations", AInt 1)]);
   (lending (minute 1440), OpTick); (lending (minute 1440), OpClose)].

Example two_days_trades :
  let '(trades, l) := session sample_hunting two_days in
  len trades = 3 /\ totalAttempt l = 4 /\ dailyCount l = 1.
Proof. vm_compute. repeat split. Qed.

Lemma hunting_daily_cap_witness :
  on_day is_liquidation (minute 0 / day_ns) (session sample_hunting two_days).1 <= 2.
Proof.
  apply (hunting_daily_cap sample_clients sample_config _ 1000 two_days 0 2 (minute 0 / day_ns) eq_refl).
  - exact (Z.le_refl 2).
  - unfold max_int64. lia.
  - assert (Hk : quota_kept 2 (lending (minute 2), OpAdjust [("max_daily_liquidations", AInt 1)])).
    { apply Forall_cons. split; [|constructor]. intros _ v [= <-].
      apply Z.leb_le. vm_compute. reflexivity. }
    by repeat (constructor; [done || exact Hk|]).
  - done.
  - repeat split; vm_compute; discriminate.
Defined.

Lemma hunting_accounts_witness :
  totalSuccess (session sample_hunting two_days).2 = wrap64 (len (session sample_hunting two_days).1) /\
  dailySuccess (session sample_hunting two_days).2 = dailyCount (session sample_hunting two_days).2.
Proof.
  pose proof (hunting_accounts sample_clients sample_config _ 1000 two_days eq_refl) as H.
  change (SeedFreeCapital _ 1000) with sample_hunting in H.
  destruct (session sample_hunting two_days) as [trades l']. by destruct H as (tried & _ & H1 & _ & H2 & _).
Defined.
