(* ===== verification/CrossChainYield.v ===== *)
(** * The cross-chain yield strategy

    [internal/agent/tasks/cross_chain_yield.go] and
    [cross_chain_yield_config.go]: the rates of every chain, the protocols to
    hold chosen from them, and the rebalance that closes everything held and
    opens the choice.  The order the loops over the maps visit them in is
    [e_range]; [sort.Slice] is [SliceSort]; [sort.SliceStable] is the stable
    insertion sort, the one stable order when no rate is NaN. *)
From Stdlib Require Import ZArith Lia Ascii Floats.
From stdpp Require Import base list strings gmap.
From S2P Require Import Prelude GoBase GoFmt GoFloat GoRound Genome Task.
Set Warnings "-inexact-float".
Open Scope Z_scope.

(** ** The config *)

Record CrossChainYieldConfig := {
  PrimaryChain : string;
  AllowedProtocols : list string;
  MinYieldDiffBps : float;
  MaxSingleProtocolPct : float;
  RebalanceIntervalSecs : Z;
  BridgeCostThreshold : float;
  MaxDrawdownPct : float;
  MinCapitalToOperate : float;
  CheckIntervalSecs : float;
}.

Definition minYieldDiffBpsFloor : float := 1.
Definition minYieldDiffBpsCeil : float := 5000.
Definition maxSingleProtocolFloor : float := 0.05.
Definition maxSingleProtocolCeil : float := 1.
Definition rebalanceIntervalFloor : Z := 60.
Definition rebalanceIntervalCeil : Z := 7 * 24 * 3600.
Definition bridgeCostFloor : float := 0.
Definition bridgeCostCeil : float := 10000.
Definition checkIntervalSecsFloor : float := 5.
Definition checkIntervalSecsCeil : float := 3600.

(** The config with the fields a default or an adjustment can set. *)
Definition tuned (c : CrossChainYieldConfig) (diff pct : float) (secs : Z) (bridge check : float)
    : CrossChainYieldConfig := {|
  PrimaryChain := PrimaryChain c; AllowedProtocols := AllowedProtocols c; MinYieldDiffBps := diff;
  MaxSingleProtocolPct := pct; RebalanceIntervalSecs := secs; BridgeCostThreshold := bridge;
  MaxDrawdownPct := MaxDrawdownPct c; MinCapitalToOperate := MinCapitalToOperate c;
  CheckIntervalSecs := check |}.

Definition applyDefaults (c : CrossChainYieldConfig) : CrossChainYieldConfig :=
  tuned c (or_default (MinYieldDiffBps c) 50) (or_default (MaxSingleProtocolPct c) 1)
    (if RebalanceIntervalSecs c =? 0 then 3600 else RebalanceIntervalSecs c)
    (BridgeCostThreshold c) (or_default (CheckIntervalSecs c) 60).

Definition Validate (c : CrossChainYieldConfig) : option gerror :=
  if str_eqb (PrimaryChain c) "" then gerr "cross_chain_yield: primary_chain required"
  else if negb (str_eqb (PrimaryChain c) "solana") && negb (str_eqb (PrimaryChain c) "base") then
    gerr "cross_chain_yield: primary_chain %q must be solana or base"
  else if len (AllowedProtocols c) =? 0 then gerr "cross_chain_yield: allowed_protocols cannot be empty"
  else if foutside (MinYieldDiffBps c) minYieldDiffBpsFloor minYieldDiffBpsCeil then
    gerr "cross_chain_yield: min_yield_diff_bps=%v out of [%v,%v]"
  else if foutside (MaxSingleProtocolPct c) maxSingleProtocolFloor maxSingleProtocolCeil then
    gerr "cross_chain_yield: max_single_protocol_pct=%v out of [%v,%v]"
  else if (RebalanceIntervalSecs c <? rebalanceIntervalFloor)
          || (rebalanceIntervalCeil <? RebalanceIntervalSecs c) then
    gerr "cross_chain_yield: rebalance_interval_secs=%v out of [%v,%v]"
  else if foutside (BridgeCostThreshold c) bridgeCostFloor bridgeCostCeil then
    gerr "cross_chain_yield: bridge_cost_threshold=%v out of [%v,%v]"
  else if foutside (CheckIntervalSecs c) checkIntervalSecsFloor checkIntervalSecsCeil then
    gerr "cross_chain_yield: check_interval_secs=%v out of [%v,%v]"
  else None.

(** ** The state *)

Record positionState := {
  ps_Chain : string;
  ps_Asset : string;
  ps_ValueUSD : float;
  ps_APY : float;
  ps_OpenedAt : Time;
}.

Record rebalanceEvent := {
  ev_At : Time;
  ev_FromProto : string;
  ev_ToProto : string;
  ev_CapitalUSD : float;
  ev_BridgeCost : float;
  ev_DiffBps : float;
}.

Record CrossChainYield := {
  cfg : CrossChainYieldConfig;
  clients : gset string;
  allocation : gmap string positionState;
  freeCapital : float;
  lastCheck : Time;
  lastRebalance : Time;
  lastRates : list YieldRate;
  rebalanceHistory : list rebalanceEvent;
}.

(** [names] are the keys of [deps.Clients], [None] when the map is nil. *)
Definition NewCrossChainYield (names : option (gset string)) (c : CrossChainYieldConfig)
    : result CrossChainYield :=
  let c := applyDefaults c in
  match Validate c with
  | Some err => Fail err
  | None =>
    match names with
    | None => Fail (EMsg "cross_chain_yield: deps.Clients required")
    | Some names =>
      if negb (bool_decide (PrimaryChain c ∈ names)) then
        Fail (EMsg "cross_chain_yield: primary chain %q missing from deps.Clients")
      else Ok {|
        cfg := c; clients := names; allocation := ∅; freeCapital := 0; lastCheck := zero_time;
        lastRebalance := zero_time; lastRates := []; rebalanceHistory := [] |}
    end
  end.

Definition with_cfg (y : CrossChainYield) (c : CrossChainYieldConfig) : CrossChainYield := {|
  cfg := c; clients := clients y; allocation := allocation y; freeCapital := freeCapital y;
  lastCheck := lastCheck y; lastRebalance := lastRebalance y; lastRates := lastRates y;
  rebalanceHistory := rebalanceHistory y |}.

Definition SeedFreeCapital (y : CrossChainYield) (usd : float) : CrossChainYield := {|
  cfg := cfg y; clients := clients y; allocation := allocation y; freeCapital := usd;
  lastCheck := lastCheck y; lastRebalance := lastRebalance y; lastRates := lastRates y;
  rebalanceHistory := rebalanceHistory y |}.

Definition with_lastCheck (y : CrossChainYield) (t : Time) : CrossChainYield := {|
  cfg := cfg y; clients := clients y; allocation := allocation y; freeCapital := freeCapital y;
  lastCheck := t; lastRebalance := lastRebalance y; lastRates := lastRates y;
  rebalanceHistory := rebalanceHistory y |}.

Definition with_lastRates (y : CrossChainYield) (rates : list YieldRate) : CrossChainYield := {|
  cfg := cfg y; clients := clients y; allocation := allocation y; freeCapital := freeCapital y;
  lastCheck := lastCheck y; lastRebalance := lastRebalance y; lastRates := rates;
  rebalanceHistory := rebalanceHistory y |}.

(** What is held: the positions and the free capital. *)
Definition with_held (y : CrossChainYield) (held : gmap string positionState) (free : float)
    : CrossChainYield := {|
  cfg := cfg y; clients := clients y; allocation := held; freeCapital := free;
  lastCheck := lastCheck y; lastRebalance := lastRebalance y; lastRates := lastRates y;
  rebalanceHistory := rebalanceHistory y |}.

Definition with_event (y : CrossChainYield) (now : Time) (ev : rebalanceEvent) : CrossChainYield := {|
  cfg := cfg y; clients := clients y; allocation := allocation y; freeCapital := freeCapital y;
  lastCheck := lastCheck y; lastRebalance := now; lastRates := lastRates y;
  rebalanceHistory := rebalanceHistory y ++ [ev] |}.

(** ** Capital and rates *)

Definition add_values (entries : list (string * positionState)) (total : float) : float :=
  fold_left (fun total p => (total + ps_ValueUSD p.2)%float) entries total.

Definition totalCapitalLocked (range : range_order string positionState) (y : CrossChainYield) : float :=
  add_values (range (allocation y)) (freeCapital y).

Definition sumValues (range : range_order string positionState) (m : gmap string positionState) : float :=
  add_values (range m) 0.

Definition currentBlendedAPY (range : range_order string positionState) (y : CrossChainYield) : float :=
  let '(total, weighted) := fold_left (fun '(total, weighted) p =>
      ((total + ps_ValueUSD p.2)%float, (weighted + ps_ValueUSD p.2 * ps_APY p.2)%float))
    (range (allocation y)) (0, 0)%float in
  if (total <=? 0)%float then 0%float else (weighted / total)%float.

Definition named (name : string) (r : YieldRate) : YieldRate :=
  if str_eqb (y_Chain r) "" then {|
    y_Chain := name; y_Protocol := y_Protocol r; y_Asset := y_Asset r; y_APY := y_APY r;
    y_TVL := y_TVL r; y_UpdatedAt := y_UpdatedAt r |}
  else r.

(** The loop over the chain names, [all] the rates so far. *)
Fixpoint fetch_chains (e : Env) (protos : list string) (names : list string) (all : list YieldRate)
    : result (list YieldRate) :=
  match names with
  | [] => Ok all
  | name :: names' =>
      match e_yields e name protos with
      | Fail err => Fail (EWrap "%s.GetYieldRates: %w" err)
      | Ok rates =>
          fetch_chains e protos names'
            (all ++ (named name <$> List.filter (fun r => bool_decide (y_Protocol r ∈ protos)) rates))
      end
  end.

Definition fetchAllowedRates (e : Env) (y : CrossChainYield) : result (list YieldRate) :=
  fetch_chains e (AllowedProtocols (cfg y)) (insertion_sort str_lt (elements (clients y))) [].

(** ** The choice *)

Definition apy_desc (a b : YieldRate) : bool := (y_APY b <? y_APY a)%float.

Definition single_cap (y : CrossChainYield) : float :=
  let cap := MaxSingleProtocolPct (cfg y) in if (cap <=? 0)%float then 1%float else cap.

Fixpoint choose_loop (cap needed : float) (sorted : list YieldRate) (out : gmap string YieldRate)
    : gmap string YieldRate :=
  match sorted with
  | [] => out
  | r :: sorted' =>
      let take := if (needed <? cap)%float then needed else cap in
      let out := <[y_Protocol r := r]> out in
      let needed := (needed - take)%float in
      if (needed <=? 0)%float then out else choose_loop cap needed sorted' out
  end.

Definition chooseTarget (y : CrossChainYield) (rates : list YieldRate) : gmap string YieldRate :=
  if len rates =? 0 then ∅
  else choose_loop (single_cap y) 1 (insertion_sort apy_desc rates) ∅.

Definition map_len {V} (m : gmap string V) : Z := Z.of_nat (size m).

Definition equal_share {V} (m : gmap string V) : float := (1 / float_of_int (map_len m))%float.

Definition blendedAPY (range : range_order string YieldRate) (target : gmap string YieldRate) : float :=
  if map_len target =? 0 then 0%float
  else
    let share := equal_share target in
    let '(sum, weight) := fold_left (fun '(sum, weight) r =>
        ((sum + share * y_APY r.2)%float, (weight + share)%float)) (range target) (0, 0)%float in
    if (weight =? 0)%float then 0%float else (sum / weight)%float.

(** [k] is the number of the first of its loops over maps. *)
Definition estimateBridgeCost (e : Env) (k : nat) (y : CrossChainYield) (target : gmap string YieldRate)
    : float :=
  let currentChains := list_to_set (C := gset string)
    ((fun p => ps_Chain p.2) <$> e_range e k _ (allocation y)) in
  if map_len (allocation y) =? 0 then 0%float
  else if existsb (fun r => negb (bool_decide (y_Chain r.2 ∈ currentChains)))
      (e_range e (S k) _ target) then
    (totalCapitalLocked (e_range e (S (S k)) _) y * 0.005)%float
  else 0%float.

(** ** The rebalance *)

Definition paper_trade (now : Time) (chain type pair dex : string) (inn out fee : float)
    (meta : gmap string config_value) : Trade := {|
  tr_ID := ""; tr_AgentID := ""; tr_EpochID := ""; tr_Chain := chain; tr_TradeType := type;
  tr_TokenPair := pair; tr_DEX := dex; tr_AmountIn := inn; tr_AmountOut := out; tr_FeePaid := fee;
  tr_PnL := 0; tr_TxSignature := ""; tr_IsPaperTrade := true; tr_BanditPolicyUsed := "";
  tr_ExecutedAt := now; tr_Metadata := meta |}.

Definition exit_trade (now : Time) (reason : string) (entry : string * positionState) : Trade :=
  let '(proto, p) := entry in
  paper_trade now (ps_Chain p) "yield_exit" (ps_Asset p) proto (ps_ValueUSD p) (ps_ValueUSD p) 0
    {[ "protocol" := VStr proto; "apy" := VFloat (ps_APY p); "reason" := VStr reason ]}.

Definition bridge_trade (now : Time) (chain : string) (cost : float) : Trade :=
  paper_trade now chain "bridge" "USD" "mock_bridge" cost 0 cost
    {[ "reason" := VStr "cross_chain_rebalance" ]}.

Definition enter_trade (now : Time) (proto : string) (r : YieldRate) (amount diffBps : float) : Trade :=
  paper_trade now (y_Chain r) "yield_enter" (y_Asset r) proto amount amount 0
    {[ "protocol" := VStr proto; "apy" := VFloat (y_APY r); "diff_bps" := VFloat diffBps ]}.

Definition opened (now : Time) (r : YieldRate) (amount : float) : positionState := {|
  ps_Chain := y_Chain r; ps_Asset := y_Asset r; ps_ValueUSD := amount; ps_APY := y_APY r;
  ps_OpenedAt := now |}.

(** The loop over the sorted protocols: what is held, the free capital, what is
    deployed and the trades so far. *)
Record opening := {
  op_held : gmap string positionState;
  op_free : float;
  op_deployed : float;
  op_trades : list Trade;
}.

Definition open_amount (total share deployed : float) : float :=
  let amount := (total * share)%float in
  if (total - deployed <? amount)%float then (total - deployed)%float else amount.

Definition open_step (now : Time) (total share diffBps : float) (target : gmap string YieldRate)
    (o : opening) (proto : string) : opening :=
  match target !! proto with
  | None => o
  | Some r =>
      let amount := open_amount total share (op_deployed o) in
      if (amount <=? 0)%float then o
      else {|
        op_held := <[proto := opened now r amount]> (op_held o);
        op_free := (op_free o - amount)%float;
        op_deployed := (op_deployed o + amount)%float;
        op_trades := op_trades o ++ [enter_trade now proto r amount diffBps] |}
  end.

Definition firstProto (s : list string) : string :=
  match s with [] => "" | p :: _ => p end.

Definition sorted_protos (range : range_order string YieldRate) (target : gmap string YieldRate)
    : list string := insertion_sort str_lt (range target).*1.

Definition capped_share (y : CrossChainYield) (target : gmap string YieldRate) : float :=
  let share := equal_share target in
  if (single_cap y <? share)%float then single_cap y else share.

(** [k] is the number of the first of its loops over maps. *)
Definition rebalance (e : Env) (k : nat) (now : Time) (total : float) (target : gmap string YieldRate)
    (bridgeCost diffBps : float) (y : CrossChainYield) : list Trade * CrossChainYield :=
  let exits := exit_trade now "rebalance" <$> e_range e k _ (allocation y) in
  let free := (freeCapital y + sumValues (e_range e (S k) _) (allocation y))%float in
  let '(bridge, free, total) :=
    if (0 <? bridgeCost)%float
    then ([bridge_trade now (PrimaryChain (cfg y)) bridgeCost], (free - bridgeCost)%float,
          (total - bridgeCost)%float)
    else ([], free, total) in
  let protos := sorted_protos (e_range e (S (S k)) _) target in
  let o := fold_left (open_step now total (capped_share y target) diffBps target) protos
    {| op_held := ∅; op_free := free; op_deployed := 0; op_trades := exits ++ bridge |} in
  (op_trades o,
   with_event (with_held y (op_held o) (op_free o)) now {|
     ev_At := now; ev_FromProto := ""; ev_ToProto := firstProto protos; ev_CapitalUSD := op_deployed o;
     ev_BridgeCost := bridgeCost; ev_DiffBps := diffBps |}).

(** ** The task *)

Definition RunTick (e : Env) (y : CrossChainYield) : result (list Trade) * CrossChainYield :=
  let now := e_now e 0%nat in
  if negb (poll_due (lastCheck y) now (seconds (CheckIntervalSecs (cfg y)))) then (Ok [], y)
  else
    let y := with_lastCheck y now in
    let total := totalCapitalLocked (e_range e 0 _) y in
    if (total <? MinCapitalToOperate (cfg y))%float then (Ok [], y)
    else
      match fetchAllowedRates e y with
      | Fail err => (Fail (EWrap "cross_chain_yield: fetch rates: %w" err), y)
      | Ok rates =>
          let y := with_lastRates y rates in
          if len rates =? 0 then (Ok [], y)
          else if negb (poll_due (lastRebalance y) now (wrap64 (RebalanceIntervalSecs (cfg y) * Second))) then
            (Ok [], y)
          else
            let target := chooseTarget y rates in
            if map_len target =? 0 then (Ok [], y)
            else
              let curAPY := currentBlendedAPY (e_range e 1 _) y in
              let targetAPY := blendedAPY (e_range e 2 _) target in
              let diffBps := ((targetAPY - curAPY) * 10000)%float in
              if (diffBps <? MinYieldDiffBps (cfg y))%float then (Ok [], y)
              else
                let bridgeCost := estimateBridgeCost e 3 y target in
                if (BridgeCostThreshold (cfg y) <? bridgeCost)%float then (Ok [], y)
                else
                  let '(trades, y) := rebalance e 6 now total target bridgeCost diffBps y in
                  (Ok trades, y)
      end.

Definition GetPositionValue (e : Env) (y : CrossChainYield) : float :=
  sumValues (e_range e 0 _) (allocation y).

Definition by_dex (a b : Trade) : bool := str_lt (tr_DEX a) (tr_DEX b).

Definition CloseAllPositions {S : SliceSort} (e : Env) (y : CrossChainYield)
    : list Trade * CrossChainYield :=
  if map_len (allocation y) =? 0 then ([], y)
  else
    let now := e_now e 0%nat in
    let entries := e_range e 0 _ (allocation y) in
    (sort_slice by_dex (exit_trade now "close_all" <$> entries),
     with_held y ∅ (add_values entries (freeCapital y))).

(** The cases of the [switch]. *)
Definition adjust_case (k : string) (raw : any) : result (CrossChainYield -> CrossChainYield) :=
  if str_eqb k "min_yield_diff_bps" then
    numeric raw "cross_chain_yield: min_yield_diff_bps not numeric: %T"
      (fun v y => let c := cfg y in with_cfg y (tuned c
         (clampFloat v minYieldDiffBpsFloor minYieldDiffBpsCeil) (MaxSingleProtocolPct c)
         (RebalanceIntervalSecs c) (BridgeCostThreshold c) (CheckIntervalSecs c)))
  else if str_eqb k "max_single_protocol_pct" then
    numeric raw "cross_chain_yield: max_single_protocol_pct not numeric: %T"
      (fun v y => let c := cfg y in with_cfg y (tuned c (MinYieldDiffBps c)
         (clampFloat v maxSingleProtocolFloor maxSingleProtocolCeil)
         (RebalanceIntervalSecs c) (BridgeCostThreshold c) (CheckIntervalSecs c)))
  else if str_eqb k "bridge_cost_threshold" then
    numeric raw "cross_chain_yield: bridge_cost_threshold not numeric: %T"
      (fun v y => let c := cfg y in with_cfg y (tuned c (MinYieldDiffBps c) (MaxSingleProtocolPct c)
         (RebalanceIntervalSecs c) (clampFloat v bridgeCostFloor bridgeCostCeil) (CheckIntervalSecs c)))
  else if str_eqb k "rebalance_interval_secs" then
    numeric raw "cross_chain_yield: rebalance_interval_secs not numeric: %T"
      (fun v y => let c := cfg y in with_cfg y (tuned c (MinYieldDiffBps c) (MaxSingleProtocolPct c)
         (clampInt (int_of_float v) rebalanceIntervalFloor rebalanceIntervalCeil)
         (BridgeCostThreshold c) (CheckIntervalSecs c)))
  else if str_eqb k "check_interval_secs" then
    numeric raw "cross_chain_yield: check_interval_secs not numeric: %T"
      (fun v y => let c := cfg y in with_cfg y (tuned c (MinYieldDiffBps c) (MaxSingleProtocolPct c)
         (RebalanceIntervalSecs c) (BridgeCostThreshold c)
         (clampFloat v checkIntervalSecsFloor checkIntervalSecsCeil)))
  else Ok (fun y => y).

Definition ApplyAdjustments (entries : list (string * any)) (y : CrossChainYield)
    : option gerror * CrossChainYield := apply_entries adjust_case entries y.

(** ** The summary *)

Definition realizedYield24hLocked (e : Env) (k : nat) (y : CrossChainYield) : float :=
  let now := e_now e 0%nat in
  let cutoff := Add now (- (24 * Hour)) in
  fold_left (fun realized p =>
    let p := snd p in
    let start := if Before (ps_OpenedAt p) cutoff then cutoff else ps_OpenedAt p in
    let elapsed := Sub now start in
    if elapsed <=? 0 then realized
    else (realized + ps_ValueUSD p * ps_APY p * (Hours elapsed / float_of_int (24 * 365)))%float)
    (e_range e k _ (allocation y)) 0%float.

Definition rebalancesInLastLocked (now : Time) (d : Duration) (y : CrossChainYield) : Z :=
  let cutoff := Add now (wrap64 (- d)) in
  len (List.filter (fun ev => After (ev_At ev) cutoff) (rebalanceHistory y)).

(** [byChain[r.Chain] = append(byChain[r.Chain], r)]. *)
Definition by_chain (rates : list YieldRate) : gmap string (list YieldRate) :=
  fold_left (fun m r => <[y_Chain r := default [] (m !! y_Chain r) ++ [r]]> m) rates ∅.

Definition GetStateSummary {S : SliceSort} (e : Env) (y : CrossChainYield) : list (string * jval) :=
  let top := (fun ch_rs =>
      (fst ch_rs, JList ((fun r => JMap [("protocol", JStr (y_Protocol r)); ("asset", JStr (y_Asset r));
                                         ("apy", JNum (y_APY r))])
                         <$> take 3 (sort_slice apy_desc (snd ch_rs)))))
    <$> e_range e 0 _ (by_chain (lastRates y)) in
  let alloc := (fun p : string * positionState =>
      (fst p, JMap [("chain", JStr (ps_Chain p.2)); ("asset", JStr (ps_Asset p.2));
                    ("value_usd", JNum (ps_ValueUSD p.2)); ("apy", JNum (ps_APY p.2))]))
    <$> e_range e 1 _ (allocation y) in
  let last := if IsZero (lastRebalance y) then "" else FormatRFC3339 (lastRebalance y) in
  [("allocation", JMap alloc); ("free_capital_usd", JNum (freeCapital y)); ("top_rates", JMap top);
   ("last_rebalance_at", JStr last); ("realized_24h_usd", JNum (realizedYield24hLocked e 2 y));
   ("rebalances_24h", JInt (rebalancesInLastLocked (e_now e 1%nat) (24 * Hour) y))].

Definition crossChainYieldFactory (json_Unmarshal : string -> result CrossChainYieldConfig)
    (zero : CrossChainYieldConfig) (deps : option (option (gset string))) (raw : string)
    : result CrossChainYield :=
  match deps with
  | None => Fail (EMsg "cross_chain_yield: SetCrossChainYieldDeps not called")
  | Some names =>
      if 0 <? str_len raw then
        match json_Unmarshal raw with
        | Fail err => Fail (EWrap "cross_chain_yield: decode config: %w" err)
        | Ok c => NewCrossChainYield names c
        end
      else NewCrossChainYield names zero
  end.

(** ** Adjustments keep the config valid *)

Record config_ok (c : CrossChainYieldConfig) : Prop := {
  ok_chain : PrimaryChain c = "solana" \/ PrimaryChain c = "base";
  ok_protocols : AllowedProtocols c <> [];
  ok_diff : foutside (MinYieldDiffBps c) minYieldDiffBpsFloor minYieldDiffBpsCeil = false;
  ok_single : foutside (MaxSingleProtocolPct c) maxSingleProtocolFloor maxSingleProtocolCeil = false;
  ok_interval : rebalanceIntervalFloor <= RebalanceIntervalSecs c <= rebalanceIntervalCeil;
  ok_bridge : foutside (BridgeCostThreshold c) bridgeCostFloor bridgeCostCeil = false;
  ok_check : foutside (CheckIntervalSecs c) checkIntervalSecsFloor checkIntervalSecsCeil = false;
}.

Lemma len_zero {A} (l : list A) : (len l =? 0) = false <-> l <> [].
Proof. unfold len. rewrite Z.eqb_neq. destruct l; cbn; split; intros; (done || lia). Qed.

Lemma yield_Validate_iff c : Validate c = None <-> config_ok c.
Proof.
  unfold Validate, gerr, str_eqb. split.
  - intros H. dmatches_in H. rewrite orb_false_iff, !Z.ltb_ge in *.
    rewrite len_zero, andb_false_iff, !negb_false_iff, !bool_decide_eq_true, !bool_decide_eq_false in *.
    by constructor; [tauto|..].
  - intros [Hc Hp -> -> Hi -> ->]. rewrite (proj2 (len_zero _) Hp).
    replace ((RebalanceIntervalSecs c <? rebalanceIntervalFloor)
             || (rebalanceIntervalCeil <? RebalanceIntervalSecs c)) with false by lia.
    by destruct Hc as [-> | ->].
Qed.

Definition numeric_keys : list string :=
  ["min_yield_diff_bps"; "max_single_protocol_pct"; "bridge_cost_threshold"; "rebalance_interval_secs";
   "check_interval_secs"].

Definition well_typed (e : string * any) : Prop := e.1 ∈ numeric_keys -> is_Some (toFloat e.2).

Ltac switch_key H := unfold adjust_case in H; switch_on H.

Lemma yield_adjust_case_typed k raw : is_ok (adjust_case k raw) = true <-> well_typed (k, raw).
Proof.
  unfold well_typed, numeric_keys. cbn [fst snd]. split.
  - intros H Hk. rewrite !elem_of_cons in Hk.
    destruct Hk as [->|[->|[->|[->|[->|[]%not_elem_of_nil]]]]];
      unfold adjust_case, numeric in H; cbn in H; by destruct (toFloat raw).
  - intros Hn. unfold adjust_case, numeric, str_eqb.
    repeat match goal with
    | |- context [bool_decide ?P] =>
        let E := fresh "E" in
        destruct (bool_decide P) eqn:E;
        [apply bool_decide_eq_true_1 in E; subst; by destruct (Hn ltac:(repeat constructor)) as [v ->]|]
    end.
    done.
Qed.

Lemma yield_adjust_case_edits y k raw u y' :
  (forall v, toFloat raw = Some v -> is_nan v = false) -> adjust_case k raw = Ok u ->
  y' = with_cfg y (cfg y') /\ config_ok (cfg y') ->
  u y' = with_cfg y (cfg (u y')) /\ config_ok (cfg (u y')).
Proof.
  intros Hn H [Hp Hc]. split; [rewrite Hp; by switch_key H|]. clear Hp.
  switch_key H; destruct Hc; constructor; cbn; try done;
    first [by apply clampInt_between|apply foutside_clamp; [by apply Hn|reflexivity]].
Qed.

Lemma yield_adjust_case_commutes k1 k2 raw1 raw2 u1 u2 y :
  k1 <> k2 -> adjust_case k1 raw1 = Ok u1 -> adjust_case k2 raw2 = Ok u2 -> u1 (u2 y) = u2 (u1 y).
Proof. intros Hk H1 H2. switch_key H1; switch_key H2; first [reflexivity|by destruct Hk]. Qed.

(** Adjusting a yield task fails exactly when some value has the wrong
    type; the config keeps validating and nothing else of the task changes;
    and when the adjustments are accepted their order does not matter. *)
Theorem yield_adjustments entries entries' y :
  adjustments_ok entries -> Validate (cfg y) = None ->
  let '(err, y') := ApplyAdjustments entries y in
  (err = None <-> Forall well_typed entries) /\
  y' = with_cfg y (cfg y') /\ Validate (cfg y') = None /\
  (err = None -> NoDup entries.*1 -> entries ≡ₚ entries' -> ApplyAdjustments entries' y = (None, y')).
Proof.
  intros Hok Hv. unfold ApplyAdjustments.
  pose proof (apply_entries_spec adjust_case well_typed
    (fun y' => y' = with_cfg y (cfg y') /\ config_ok (cfg y')) entries entries' y yield_adjust_case_typed
    (fun k raw u y' => yield_adjust_case_edits y k raw u y') yield_adjust_case_commutes Hok) as H.
  destruct (apply_entries adjust_case entries y) as [err y'].
  rewrite !yield_Validate_iff in *. destruct H as (? & [] & ?); [|tauto].
  split; [by destruct y|done].
Qed.

(** ** What is chosen *)

(** A prefix of the sorted rates, entered one after the other. *)
Definition chosen (rates : list YieldRate) (m : gmap string YieldRate) : gmap string YieldRate :=
  fold_left (fun m r => <[y_Protocol r := r]> m) rates m.

Lemma chosen_some rates : forall m p, is_Some (m !! p) -> is_Some (chosen rates m !! p).
Proof.
  induction rates as [|r rates IH]; intros m p H; [done|]. apply (IH (<[y_Protocol r := r]> m)).
  destruct (decide (y_Protocol r = p)) as [->|]; [by rewrite lookup_insert_eq|by rewrite lookup_insert_ne].
Qed.

Lemma chosen_first r rates m : is_Some (chosen (r :: rates) m !! y_Protocol r).
Proof. apply (chosen_some rates (<[y_Protocol r := r]> m)). by rewrite lookup_insert_eq. Qed.

Lemma choose_loop_prefix cap sorted : forall needed out, exists k, (k <= length sorted)%nat /\
  choose_loop cap needed sorted out = chosen (take k sorted) out
  /\ (sorted <> [] -> (0 < k)%nat).
Proof.
  induction sorted as [|r sorted IH]; intros needed out; [by exists 0%nat|].
  cbn [choose_loop]. destruct (_ <=? 0)%float.
  - exists 1%nat. split; [cbn; lia|]. split; [done|]. intros _. lia.
  - destruct (IH (needed - (if (needed <? cap)%float then needed else cap))%float
      (<[y_Protocol r := r]> out)) as (k & Hk & Hc & _).
    exists (S k). split; [cbn; lia|]. split; [exact Hc|]. intros _. lia.
Qed.

Lemma chosen_lookup rates : forall m p r,
  chosen rates m !! p = Some r ->
  (r ∈ rates /\ y_Protocol r = p) \/ m !! p = Some r.
Proof.
  induction rates as [|r0 rates IH]; intros m p r H; [by right|]. cbn in H.
  destruct (IH _ _ _ H) as [[Hin Hp]|Hm]; [left; split; [by right|done]|].
  destruct (decide (y_Protocol r0 = p)) as [<-|Hne].
  - rewrite lookup_insert_eq in Hm. injection Hm as <-. left. split; [by left|done].
  - rewrite lookup_insert_ne in Hm by done. by right.
Qed.

Lemma chosen_nodup rates : forall m r,
  NoDup (y_Protocol <$> rates) -> r ∈ rates ->
  chosen rates m !! y_Protocol r = Some r.
Proof.
  induction rates as [|r0 rates IH]; intros m r Hnd Hin; [by apply not_elem_of_nil in Hin|].
  rewrite fmap_cons in Hnd. apply NoDup_cons in Hnd as [Hni Hnd].
  apply elem_of_cons in Hin as [->|Hin]; [|by apply (IH (<[y_Protocol r0 := r0]> m))].
  destruct (chosen_first r0 rates m) as [r E]. change (chosen (r0 :: rates) m) with (chosen rates (<[y_Protocol r0 := r0]> m)) in *.
  rewrite E. destruct (chosen_lookup _ _ _ _ E) as [[Hr Hp]|Hm].
  - destruct Hni. rewrite <- Hp. apply list_elem_of_fmap. by exists r.
  - rewrite lookup_insert_eq in Hm. by injection Hm as <-.
Qed.

Lemma target_in y rates p r : chooseTarget y rates !! p = Some r -> r ∈ rates /\ y_Protocol r = p.
Proof.
  unfold chooseTarget. destruct (len rates =? 0); [by rewrite lookup_empty|].
  destruct (choose_loop_prefix (single_cap y) (insertion_sort apy_desc rates) 1 ∅) as (k & _ & -> & _).
  intros H. destruct (chosen_lookup _ _ _ _ H) as [[Hr Hp]|Hm]; [|by rewrite lookup_empty in Hm].
  split; [|done]. rewrite <- (insertion_sort_perm apy_desc rates).
  by apply (subseteq_take k) in Hr.
Qed.

Lemma apy_desc_weak : strict_weak (fun r => is_nan (y_APY r) = false) apy_desc.
Proof. by apply float_desc_weak. Qed.

(** The choice is made of rates the chains quote, and there is one as soon
    as there is a rate; when no two rates are for the same protocol and none is
    NaN, no rate left out is above one that was chosen. *)
Theorem target_best y rates :
  (rates <> [] -> chooseTarget y rates <> ∅) /\
  (forall p r, chooseTarget y rates !! p = Some r -> r ∈ rates /\ y_Protocol r = p) /\
  (NoDup (y_Protocol <$> rates) -> Forall (fun r => is_nan (y_APY r) = false) rates ->
   forall p r r', chooseTarget y rates !! p = Some r -> r' ∈ rates ->
     chooseTarget y rates !! y_Protocol r' = None -> (y_APY r <? y_APY r')%float = false).
Proof.
  split; [|split; [by apply target_in|]].
  - intros Hne. unfold chooseTarget. rewrite (proj2 (len_zero rates) Hne).
    set (srt := insertion_sort apy_desc rates).
    assert (Hs : srt <> []).
    { intros E. apply Hne, Permutation_nil. rewrite <- (insertion_sort_perm apy_desc rates).
      fold srt. by rewrite E. }
    destruct (choose_loop_prefix (single_cap y) srt 1 ∅) as (k & _ & -> & Hk). specialize (Hk Hs).
    destruct srt as [|r srt]; [done|]. destruct k; [lia|]. intros E.
    destruct (chosen_first r (take k srt) ∅) as [r' H]. cbn [take] in E. by rewrite E, lookup_empty in H.
  - intros Hnd Hnan p r r' Hr Hr' Hout. revert Hr Hout. unfold chooseTarget.
    destruct (len rates =? 0); [by rewrite lookup_empty|].
    set (srt := insertion_sort apy_desc rates).
    assert (Hp : srt ≡ₚ rates) by apply insertion_sort_perm.
    assert (Hsort : sorted_by apy_desc srt) by (by eapply insertion_sort_sorted; [apply apy_desc_weak|]).
    rewrite <- Hp in Hnd, Hr'.
    destruct (choose_loop_prefix (single_cap y) srt 1 ∅) as (k & _ & -> & _).
    intros Hr Hout. destruct (chosen_lookup _ _ _ _ Hr) as [[Hin _]|Hm]; [|by rewrite lookup_empty in Hm].
    assert (Hout' : r' ∈ drop k srt).
    { rewrite <- (take_drop k srt) in Hr', Hnd. rewrite fmap_app in Hnd.
      apply NoDup_app in Hnd as (Hnd & _). apply elem_of_app in Hr' as [Hr'|Hr']; [|done].
      by rewrite (chosen_nodup _ ∅ r' Hnd Hr') in Hout. }
    rewrite <- (take_drop k srt) in Hsort. by apply (sorted_by_app _ _ _ _ _ Hsort Hin Hout').
Qed.

(** ** The ledger of a session *)

(** What is deployed in each protocol. *)
Abbreviation book := (gmap string float) (only parsing).

Definition post (b : book) (tr : Trade) : book :=
  if str_eqb (tr_TradeType tr) "yield_enter" then <[tr_DEX tr := tr_AmountIn tr]> b
  else if str_eqb (tr_TradeType tr) "yield_exit" then delete (tr_DEX tr) b
  else b.

(** An entry is for an allowed protocol that holds nothing, and for no amount
    under zero; an exit returns exactly what the protocol holds; anything else
    is the fee of a bridge. *)
Definition entry_ok (allowed : list string) (b : book) (tr : Trade) : Prop :=
  if str_eqb (tr_TradeType tr) "yield_enter" then
    b !! tr_DEX tr = None /\ tr_DEX tr ∈ allowed /\ (tr_AmountIn tr <=? 0)%float = false
  else if str_eqb (tr_TradeType tr) "yield_exit" then
    b !! tr_DEX tr = Some (tr_AmountIn tr) /\ tr_AmountOut tr = tr_AmountIn tr
  else tr_TradeType tr = "bridge" /\ tr_AmountOut tr = 0%float /\ tr_FeePaid tr = tr_AmountIn tr.

Definition values (held : gmap string positionState) : book := ps_ValueUSD <$> held.

Definition holds (allowed : list string) (y : CrossChainYield) (b : book) : Prop :=
  values (allocation y) = b /\ AllowedProtocols (cfg y) = allowed.

Abbreviation kept allowed := (ledger (entry_ok allowed) post).

Lemma exit_step allowed now reason b proto p : b !! proto = Some (ps_ValueUSD p) ->
  entry_ok allowed b (exit_trade now reason (proto, p)) /\
  post b (exit_trade now reason (proto, p)) = delete proto b.
Proof. intros H. by split. Qed.

(** Closing everything, in whatever order. *)
Lemma exits_ledger allowed now reason entries : forall b,
  NoDup entries.*1 -> b = list_to_map ((fun e => (e.1, ps_ValueUSD e.2)) <$> entries) ->
  kept allowed b (exit_trade now reason <$> entries) /\
  fold_left post (exit_trade now reason <$> entries) b = ∅.
Proof.
  induction entries as [|[proto p] entries IH]; intros b Hnd Hb; [by subst|].
  rewrite fmap_cons in Hnd. apply NoDup_cons in Hnd as [Hni Hnd]. cbn [fst] in Hni.
  rewrite fmap_cons in Hb. cbn [list_to_map foldr fst snd uncurry] in Hb.
  set (b' := list_to_map ((fun e => (e.1, ps_ValueUSD e.2)) <$> entries) : book) in *.
  assert (Hno : b' !! proto = None).
  { apply not_elem_of_list_to_map_1. rewrite <- list_fmap_compose. exact Hni. }
  destruct (exit_step allowed now reason b proto p) as [Ho Hp]; [subst b; apply lookup_insert_eq|].
  assert (E : delete proto b = b') by (subst b; by apply delete_insert_id).
  rewrite fmap_cons. cbn [ledger fold_left]. rewrite Hp, E.
  destruct (IH b' Hnd eq_refl) as [H1 H2]. by split; [split|].
Qed.

Lemma yield_range_entries range (held : gmap string positionState) entries :
  range_ok range -> entries ≡ₚ range held ->
  NoDup entries.*1 /\ values held = list_to_map ((fun e => (e.1, ps_ValueUSD e.2)) <$> entries).
Proof.
  intros Hr Hp. rewrite (Hr held) in Hp.
  assert (Hnd : NoDup entries.*1) by (rewrite Hp; apply NoDup_fst_map_to_list).
  split; [done|]. unfold values. rewrite <- (list_to_map_to_list held) at 1.
  rewrite <- (list_to_map_proper entries _ Hnd Hp). rewrite <- list_to_map_fmap.
  done.
Qed.

(** Opening positions: the loop keeps what is held, the trades and the book in
    step. *)
Definition steps (allowed : list string) (b0 : book) (o : opening) : Prop :=
  kept allowed b0 (op_trades o) /\ fold_left post (op_trades o) b0 = values (op_held o).

Lemma open_step_steps allowed b0 now total share diffBps target o proto :
  steps allowed b0 o -> op_held o !! proto = None -> (is_Some (target !! proto) -> proto ∈ allowed) ->
  steps allowed b0 (open_step now total share diffBps target o proto).
Proof.
  intros [Hk Hb] Hno Hal. unfold open_step. destruct (target !! proto) as [r|] eqn:E; [|done].
  destruct (_ <=? 0)%float eqn:Ea; [done|]. set (amount := open_amount _ _ _) in *.
  unfold steps. cbn [op_trades op_held]. split.
  - apply ledger_app. split; [done|]. cbn [ledger]. split; [|done]. rewrite Hb.
    change (values (op_held o) !! proto = None /\ proto ∈ allowed /\ (amount <=? 0)%float = false).
    split; [|split; [by apply Hal|done]]. unfold values. by rewrite lookup_fmap, Hno.
  - rewrite fold_left_app, Hb. cbn [fold_left].
    change (<[proto := amount]> (values (op_held o)) = values (<[proto := opened now r amount]> (op_held o))).
    unfold values. by rewrite fmap_insert.
Qed.

Lemma open_step_other now total share diffBps target o proto proto' : proto <> proto' ->
  op_held (open_step now total share diffBps target o proto) !! proto' = op_held o !! proto'.
Proof.
  intros Hne. unfold open_step. destruct (target !! proto); [|done].
  destruct (_ <=? 0)%float; [done|]. by apply lookup_insert_ne.
Qed.

Lemma open_loop_steps allowed b0 now total share diffBps target protos : forall o,
  steps allowed b0 o -> NoDup protos -> (forall p, p ∈ protos -> op_held o !! p = None) ->
  (forall p, is_Some (target !! p) -> p ∈ allowed) ->
  steps allowed b0 (fold_left (open_step now total share diffBps target) protos o).
Proof.
  induction protos as [|proto protos IH]; intros o Ho Hnd Hno Hal; [done|].
  apply NoDup_cons in Hnd as [Hni Hnd]. cbn [fold_left]. apply IH; [|done| |done].
  - apply open_step_steps; [done|apply Hno; by left|by apply Hal].
  - intros p Hp. rewrite open_step_other by (intros ->; done). apply Hno. by right.
Qed.

Lemma sorted_protos_nodup range target : range_ok range -> NoDup (sorted_protos range target).
Proof.
  intros Hr. unfold sorted_protos. rewrite insertion_sort_perm, (Hr target).
  apply NoDup_fst_map_to_list.
Qed.

Lemma rebalance_steps allowed e k now total target cost diff y b :
  range_fair e -> holds allowed y b -> (forall p, is_Some (target !! p) -> p ∈ allowed) ->
  let '(trades, y') := rebalance e k now total target cost diff y in
  enters (entry_ok allowed) post (holds allowed) y' b trades.
Proof.
  intros He [Hv Ha] Hal. unfold rebalance.
  destruct (yield_range_entries (e_range e k _) (allocation y) (e_range e k _ (allocation y))
    (He k _) (Permutation_refl _)) as [Hnd Hb].
  destruct (exits_ledger allowed now "rebalance" _ b Hnd ltac:(by rewrite <- Hb)) as [Hk Hf].
  set (exits := exit_trade now "rebalance" <$> _) in *.
  set (protos := sorted_protos (e_range e (S (S k)) _) target).
  assert (Hloop : forall free total bridge, bridge = [] \/ bridge = [bridge_trade now (PrimaryChain (cfg y)) cost] ->
    steps allowed b (fold_left (open_step now total (capped_share y target) diff target) protos
      {| op_held := ∅; op_free := free; op_deployed := 0; op_trades := exits ++ bridge |})).
  { intros free total' bridge Hbr. apply open_loop_steps; [|by apply sorted_protos_nodup|done|done].
    split; cbn [op_trades op_held].
    - apply ledger_app. split; [done|]. rewrite Hf. by destruct Hbr as [-> | ->].
    - rewrite fold_left_app, Hf. unfold values. rewrite fmap_empty. by destruct Hbr as [-> | ->]. }
  destruct (0 <? cost)%float.
  - destruct (Hloop (freeCapital y + sumValues (e_range e (S k) _) (allocation y) - cost)%float
      (total - cost)%float _ (or_intror eq_refl)) as [H1 H2]. by split.
  - destruct (Hloop (freeCapital y + sumValues (e_range e (S k) _) (allocation y))%float
      total _ (or_introl eq_refl)) as [H1 H2]. by split.
Qed.

(** The allowed protocols are those of the rates fetched. *)
Lemma fetch_allowed e protos names : forall all rates,
  fetch_chains e protos names all = Ok rates -> Forall (fun r => y_Protocol r ∈ protos) all ->
  Forall (fun r => y_Protocol r ∈ protos) rates.
Proof.
  induction names as [|name names IH]; intros all rates H Hall; cbn in H; [by injection H as <-|].
  destruct (e_yields e name protos) as [rs|]; [|done]. apply (IH _ _ H).
  apply Forall_app. split; [done|]. apply Forall_fmap, Forall_forall. intros r Hr.
  apply list_elem_of_In, List.filter_In in Hr as [_ Hr]. apply bool_decide_eq_true in Hr.
  cbn. unfold named. by destruct (str_eqb (y_Chain r) "").
Qed.

Lemma target_allowed e y rates p : fetchAllowedRates e y = Ok rates ->
  is_Some (chooseTarget y rates !! p) -> p ∈ AllowedProtocols (cfg y).
Proof.
  intros Hf [r Hr]. apply target_in in Hr as [Hin <-].
  pose proof (fetch_allowed e _ _ [] rates Hf ltac:(constructor)) as H.
  rewrite Forall_forall in H. by apply H.
Qed.

(** *** A tick *)

(** A tick that does not rebalance moves nothing. *)
Record same_books (y y' : CrossChainYield) : Prop := {
  sb_cfg : cfg y' = cfg y;
  sb_clients : clients y' = clients y;
  sb_held : allocation y' = allocation y;
  sb_free : freeCapital y' = freeCapital y;
  sb_last : lastRebalance y' = lastRebalance y;
  sb_history : rebalanceHistory y' = rebalanceHistory y;
}.

Definition interval (y : CrossChainYield) : Duration := wrap64 (RebalanceIntervalSecs (cfg y) * Second).

(** What a tick that rebalances found: the rebalance is due, the choice is
    worth the difference asked for, and the bridge is not too expensive. *)
Record rebalanced (e : Env) (y : CrossChainYield) (trades : list Trade) (y' : CrossChainYield)
    (rates : list YieldRate) (total cost diff : float) : Prop := {
  rb_fetched : fetchAllowedRates e y = Ok rates;
  rb_due : poll_due (lastRebalance y) (e_now e 0%nat) (interval y) = true;
  rb_worth : (diff <? MinYieldDiffBps (cfg y))%float = false;
  rb_bridge : (BridgeCostThreshold (cfg y) <? cost)%float = false;
  rb_done : rebalance e 6 (e_now e 0%nat) total (chooseTarget y rates) cost diff
    (with_lastRates (with_lastCheck y (e_now e 0%nat)) rates) = (trades, y');
}.

Lemma yield_RunTick_cases e y : let '(r, y') := RunTick e y in
  (same_books y y' /\ match r with Ok trades => trades = [] | Fail _ => True end) \/
  exists trades rates total cost diff, r = Ok trades /\ rebalanced e y trades y' rates total cost diff.
Proof.
  unfold RunTick. destruct (negb _); [by left|].
  destruct (_ <? MinCapitalToOperate _)%float; [by left|].
  destruct (fetchAllowedRates _ _) as [rates|] eqn:Ef; [|by left].
  destruct (len rates =? 0); [by left|].
  destruct (negb (poll_due (lastRebalance _) _ _)) eqn:Ed; [by left|]. apply negb_false_iff in Ed.
  destruct (map_len _ =? 0); [by left|].
  destruct (_ <? MinYieldDiffBps _)%float eqn:Ew; [by left|].
  destruct (BridgeCostThreshold _ <? _)%float eqn:Eb; [by left|].
  destruct (rebalance _ _ _ _ _ _ _ _) as [trades y'] eqn:Er. right.
  eexists trades, rates, _, _, _. split; [done|]. constructor; [exact Ef|exact Ed|exact Ew|exact Eb|exact Er].
Qed.

Lemma yield_tick_enters allowed e y b : range_fair e -> holds allowed y b ->
  let '(r, y') := RunTick e y in
  enters (entry_ok allowed) post (holds allowed) y' b (match r with Ok trades => trades | Fail _ => [] end).
Proof.
  intros He Hh. pose proof (yield_RunTick_cases e y) as H. destruct (RunTick e y) as [r y'].
  destruct H as [[[Hc _ Ha _ _ _] Hr]|(trades & rates & total & cost & diff & -> & [Hf _ _ _ Hd])].
  - assert (E : match r with Ok trades => trades | Fail _ => [] end = []) by (by destruct r).
    rewrite E. split; [done|]. unfold holds in *. cbn [fold_left]. by rewrite Hc, Ha.
  - pose proof (rebalance_steps allowed e 6 (e_now e 0%nat) total (chooseTarget y rates) cost diff
      (with_lastRates (with_lastCheck y (e_now e 0%nat)) rates) b He Hh) as H.
    rewrite Hd in H. apply H. intros p Hp. destruct Hh as [_ <-]. by eapply target_allowed.
Qed.

Section Sorted.
Context (S : SliceSort) (SL : SliceSortLaws S).

#[export] Instance yield_task : Task CrossChainYield := {|
  Task.RunTick := RunTick;
  Task.ApplyAdjustments := fun _ => ApplyAdjustments;
  Task.GetPositionValue := GetPositionValue;
  Task.CloseAllPositions := CloseAllPositions |}.

Lemma yield_adjust_books entries y : let y' := (ApplyAdjustments entries y).2 in
  y' = with_cfg y (cfg y') /\ AllowedProtocols (cfg y') = AllowedProtocols (cfg y).
Proof.
  unfold ApplyAdjustments. revert y. induction entries as [|[k raw] entries IH]; intros y; [by destruct y|].
  cbn [apply_entries]. destruct (adjust_case k raw) as [u|] eqn:E; [|by destruct y].
  specialize (IH (u y)). cbn zeta in *. destruct IH as [IH1 IH2]. rewrite IH1 at 1. rewrite IH2.
  assert (Hu : u y = with_cfg y (cfg (u y)) /\ AllowedProtocols (cfg (u y)) = AllowedProtocols (cfg y))
    by (switch_key E; by destruct y).
  destruct Hu as [Hu ->]. split; [by rewrite Hu|done].
Qed.

Lemma yield_close_enters allowed e y b : range_fair e -> holds allowed y b ->
  enters (entry_ok allowed) post (holds allowed) (CloseAllPositions e y).2 b (CloseAllPositions e y).1.
Proof.
  intros He [Hv Ha]. unfold CloseAllPositions. destruct (_ =? 0); [by split|]. cbn [fst snd].
  set (entries := e_range e 0 _ (allocation y)). set (now := e_now e 0%nat).
  assert (Hs : sort_slice by_dex (exit_trade now "close_all" <$> entries)
               ≡ₚ map (exit_trade now "close_all") entries) by apply sort_slice_perm.
  revert Hs. generalize (sort_slice by_dex (exit_trade now "close_all" <$> entries)) as srt.
  intros srt (entries' & -> & Hp)%Permutation_map_inv.
  destruct (yield_range_entries (e_range e 0 _) (allocation y) entries' (He 0%nat _) (Permutation_sym Hp)) as [Hnd Hb].
  destruct (exits_ledger allowed now "close_all" entries' b Hnd ltac:(by rewrite <- Hb)) as [Hk Hf].
  split; [exact Hk|]. unfold holds. cbn [allocation cfg with_held]. split; [|done].
  unfold values. rewrite fmap_empty. symmetry. exact Hf.
Qed.

Definition fair (x : Env * task_op) : Prop := range_fair x.1.

Lemma yield_step_enters allowed y b x : holds allowed y b -> fair x ->
  let '(trades, y') := task_step y x in enters (entry_ok allowed) post (holds allowed) y' b trades.
Proof.
  destruct x as [e op]. intros Hh He. unfold fair in He. destruct op as [|entries|]; cbn [task_step snd fst] in *.
  - pose proof (yield_tick_enters allowed e y b He Hh) as H. cbn. destruct (RunTick e y) as [[]]; exact H.
  - cbn. destruct (yield_adjust_books entries y) as [Hc Ha]. cbn zeta in *. split; [done|].
    unfold holds in *. cbn [fold_left]. rewrite Ha. by rewrite Hc.
  - pose proof (yield_close_enters allowed e y b He Hh) as H. cbn. by destruct (CloseAllPositions e y).
Qed.

(** C18: Over any session, whatever order the maps are visited in, the trades
    of a yield task are a ledger: only allowed protocols are entered, never one
    that is already held, never for an amount under zero; an exit returns
    exactly what was put in; anything else is a bridge fee; and what the task
    holds at the end is exactly what the ledger says. *)
Theorem yield_ledger names c y usd xs : NewCrossChainYield names c = Ok y -> Forall fair xs ->
  let '(trades, y') := session (SeedFreeCapital y usd) xs in
  ledger (entry_ok (AllowedProtocols c)) post ∅ trades /\
  ps_ValueUSD <$> allocation y' = fold_left post trades ∅.
Proof.
  intros Hnew Hxs.
  assert (Hh : holds (AllowedProtocols c) (SeedFreeCapital y usd) ∅).
  { unfold NewCrossChainYield in Hnew. destruct (Validate _); [done|].
    destruct names; [|done]. destruct (negb _); [done|]. injection Hnew as <-. split; [apply fmap_empty|done]. }
  pose proof (session_enters _ post _ fair xs _ _ (yield_step_enters (AllowedProtocols c)) Hxs Hh) as H.
  destruct (session _ xs) as [trades y']. by destruct H as [H1 [H2 _]].
Qed.

(** ** Spacing *)

Definition spaced (history : list rebalanceEvent) : Prop :=
  forall i j a b, (i < j)%nat -> history !! i = Some a -> history !! j = Some b ->
    (Z.of_nat j - Z.of_nat i) * Minute <= ev_At b - ev_At a.

(** The history up to now, and the last event's place in it. *)
Record history_ok (y : CrossChainYield) : Prop := {
  ho_cfg : config_ok (cfg y);
  ho_spaced : spaced (rebalanceHistory y);
  ho_last : forall i a, rebalanceHistory y !! i = Some a -> lastRebalance y <> zero_time /\
    (len (rebalanceHistory y) - 1 - Z.of_nat i) * Minute <= lastRebalance y - ev_At a;
}.

Lemma rebalance_history e k now total target cost diff y :
  let '(_, y') := rebalance e k now total target cost diff y in
  cfg y' = cfg y /\ lastRebalance y' = now /\
  exists ev, rebalanceHistory y' = rebalanceHistory y ++ [ev] /\ ev_At ev = now.
Proof. unfold rebalance. destruct (0 <? cost)%float; cbn; eauto 10. Qed.

Lemma due_after y now : config_ok (cfg y) -> lastRebalance y <> zero_time ->
  poll_due (lastRebalance y) now (interval y) = true -> Minute <= now - lastRebalance y.
Proof.
  intros Hc Hl. unfold poll_due, IsZero. destruct (Z.eqb_spec (lastRebalance y) 0); [done|]. cbn [orb].
  rewrite negb_true_iff, Z.ltb_ge. pose proof (ok_interval _ Hc) as Hi.
  unfold rebalanceIntervalFloor, rebalanceIntervalCeil in Hi. unfold interval.
  rewrite wrap64_id by (unfold in_int64, min_int64, max_int64, Second; lia).
  rewrite Sub_ge by (unfold in_int64, min_int64, max_int64, Second; lia).
  unfold Minute, Second, min_int64. lia.
Qed.

Definition clocked (e : Env) : Prop := e_now e 0%nat <> zero_time.

Lemma tick_history e y : clocked e -> history_ok y -> history_ok (RunTick e y).2.
Proof.
  intros He [Hc Hs Hl]. pose proof (yield_RunTick_cases e y) as H. destruct (RunTick e y) as [r y'].
  destruct H as [[[Hc' _ _ _ Hr' Hh'] _]|(trades & rates & total & cost & diff & -> & [_ Hd _ _ Hb])].
  { constructor; cbn [snd]; by rewrite ?Hc', ?Hr', ?Hh'. }
  pose proof (rebalance_history e 6 (e_now e 0%nat) total (chooseTarget y rates) cost diff
    (with_lastRates (with_lastCheck y (e_now e 0%nat)) rates)) as H.
  rewrite Hb in H. destruct H as (Hc' & Hr' & ev & Hh' & Hev). cbn in Hc', Hh'.
  assert (Hgap : forall i a, rebalanceHistory y !! i = Some a ->
    (len (rebalanceHistory y) - Z.of_nat i) * Minute <= e_now e 0%nat - ev_At a).
  { intros i a Ha. destruct (Hl i a Ha) as [Hz Hle].
    pose proof (due_after y _ Hc Hz Hd). lia. }
  constructor; cbn [snd]; rewrite ?Hc', ?Hr', ?Hh'; [done| |].
  - intros i j a b Hij Ha Hb'. apply lookup_app_Some in Hb' as [Hb'|[Hlen Hb']].
    + apply (Hs i j); [done| |done]. apply lookup_app_Some in Ha as [Ha|[Hlen _]]; [done|].
      apply lookup_lt_Some in Hb'. lia.
    + apply list_lookup_singleton_Some in Hb' as [Hj <-].
      apply lookup_app_Some in Ha as [Ha|[Hlen' _]]; [|lia].
      specialize (Hgap i a Ha). unfold len in Hgap. rewrite Hev.
      replace j with (length (rebalanceHistory y)) by lia. exact Hgap.
  - intros i a Ha. split; [done|]. unfold len. rewrite length_app. cbn [length].
    apply lookup_app_Some in Ha as [Ha|[Hlen Ha]].
    + specialize (Hgap i a Ha). unfold len in Hgap. lia.
    + apply list_lookup_singleton_Some in Ha as [Hj <-]. rewrite Hev.
      replace i with (length (rebalanceHistory y)) by lia. unfold Minute, Second. lia.
Qed.

Lemma close_books e y : let '(_, y') := CloseAllPositions e y in
  cfg y' = cfg y /\ lastRebalance y' = lastRebalance y /\ rebalanceHistory y' = rebalanceHistory y.
Proof. unfold CloseAllPositions. by destruct (_ =? 0). Qed.

Lemma adjust_ok entries y : adjustments_ok entries -> config_ok (cfg y) ->
  config_ok (cfg (ApplyAdjustments entries y).2).
Proof.
  intros Hok Hc. refine (proj2 (apply_entries_inv adjust_case
    (fun y' => y' = with_cfg y (cfg y') /\ config_ok (cfg y')) _ entries y Hok _)); [|by destruct y].
  intros. by eapply yield_adjust_case_edits.
Qed.

#[export] Instance yield_laws : TaskLaws CrossChainYield.
Proof.
  refine {| task_env := fun e => range_fair e /\ clocked e; task_inv := history_ok |}.
  - intros e y [_ He] Hi. by apply tick_history.
  - intros e entries y _ Hok [Hc Hs Hl]. cbn. pose proof (adjust_ok entries y Hok Hc) as Hc'.
    destruct (yield_adjust_books entries y) as [Hb _]. cbn zeta in *. constructor; [done|..]; by rewrite Hb.
  - intros e y _ [Hc Hs Hl]. cbn. pose proof (close_books e y) as H.
    destruct (CloseAllPositions e y) as [trades y']. destruct H as (H1 & H2 & H3).
    constructor; cbn [snd]; by rewrite ?H1, ?H2, ?H3.
  - intros e e' y [He _]. cbn. unfold GetPositionValue, sumValues. assert (E : allocation (CloseAllPositions e y).2 = ∅).
    { unfold CloseAllPositions, map_len. destruct (Z.eqb_spec (Z.of_nat (size (allocation y))) 0) as [Hz|]; [|done].
      apply map_size_empty_inv. cbn [snd]. lia. }
    rewrite E. pose proof (He 0%nat positionState ∅) as Hp. rewrite map_to_list_empty in Hp.
    apply Permutation_sym, Permutation_nil in Hp. by rewrite Hp.
Defined.

(** A yield task never rebalances twice within a minute, whatever the
    clock does (short of reading the zero time) and however the strategist tunes the
    interval: the j-th rebalance after another comes at least j minutes after
    it. *)
Theorem rebalances_spaced names c y usd xs : NewCrossChainYield names c = Ok y ->
  Forall (op_fine task_env) xs ->
  spaced (rebalanceHistory (session (SeedFreeCapital y usd) xs).2).
Proof.
  intros Hnew Hxs. assert (Hi : history_ok (SeedFreeCapital y usd)).
  { unfold NewCrossChainYield in Hnew. destruct (Validate _) eqn:Ev; [done|]. apply yield_Validate_iff in Ev.
    destruct names; [|done]. destruct (negb _); [done|]. injection Hnew as <-. constructor; [done|..].
    - intros i j a b _ Ha. discriminate Ha.
    - intros i a Ha. discriminate Ha. }
  apply (ho_spaced _ (session_inv xs _ Hxs Hi)).
Qed.

(** Closing everything returns one exit per position held, sorted by
    protocol, and the trades do not depend on the order the allocation is
    visited in. *)
Theorem close_all_spec e e' y : range_fair e -> range_fair e' -> e_now e 0%nat = e_now e' 0%nat ->
  (CloseAllPositions e y).1 = (CloseAllPositions e' y).1 /\
  sorted_by by_dex (CloseAllPositions e y).1 /\
  (CloseAllPositions e y).1 ≡ₚ exit_trade (e_now e 0%nat) "close_all" <$> map_to_list (allocation y).
Proof.
  intros He He' Hnow.
  assert (Hperm : forall e, range_fair e ->
    (CloseAllPositions e y).1 ≡ₚ exit_trade (e_now e 0%nat) "close_all" <$> map_to_list (allocation y)).
  { clear e e' He He' Hnow. intros e He. unfold CloseAllPositions, map_len. destruct (Z.eqb_spec (Z.of_nat (size (allocation y))) 0) as [Hz|].
    - assert (E : allocation y = ∅) by (apply map_size_empty_inv; lia). by rewrite E, map_to_list_empty.
    - cbn [fst]. by rewrite sort_slice_perm, (He 0%nat _ (allocation y)). }
  assert (Hsort : forall e, sorted_by by_dex (CloseAllPositions e y).1).
  { intros e0. unfold CloseAllPositions. destruct (_ =? 0); [constructor|]. cbn [fst].
    apply (sort_slice_sorted (fun _ => True)); [|by apply Forall_true].
    exact (strict_weak_on (fun _ => True) (fun _ => True) tr_DEX str_lt (fun _ H => H) str_lt_strict_weak). }
  split; [|split; [apply Hsort|by apply Hperm]].
  apply (sorted_by_unique by_dex); [|apply Hsort..|by rewrite (Hperm e He), (Hperm e' He'), Hnow].
  intros t1 t2 H1 H2 L1 L2. rewrite (Hperm e He) in H1, H2.
  apply list_elem_of_fmap in H1 as ([k1 p1] & -> & H1). apply list_elem_of_fmap in H2 as ([k2 p2] & -> & H2).
  unfold by_dex in L1, L2. cbn in L1, L2. pose proof (str_lt_total _ _ L1 L2) as ->.
  apply elem_of_map_to_list in H1, H2. rewrite H1 in H2. by injection H2 as ->.
Qed.
End Sorted.

(** ** A session *)

#[local] Existing Instance insertion_slice_sort.
#[local] Existing Instance insertion_slice_sort_laws.

Definition sample_config : CrossChainYieldConfig := {|
  PrimaryChain := "base"; AllowedProtocols := ["aave"; "kamino"; "marginfi"]; MinYieldDiffBps := 0;
  MaxSingleProtocolPct := 0.5; RebalanceIntervalSecs := 0; BridgeCostThreshold := 100; MaxDrawdownPct := 0;
  MinCapitalToOperate := 0; CheckIntervalSecs := 0 |}.

Definition rate (chain proto : string) (apy : float) : YieldRate := {|
  y_Chain := chain; y_Protocol := proto; y_Asset := "USDC"; y_APY := apy;
  y_TVL := 0; y_UpdatedAt := zero_time |}.

(** [rates] at an instant; the maps are visited forwards or backwards. *)
Definition yields (t : Time) (back : bool) (rates : string -> list YieldRate) : Env := {|
  e_now := fun _ => t;
  e_quote := fun _ _ _ _ => Fail (EMsg "no quotes");
  e_yields := fun name _ => Ok (rates name);
  e_positions := fun _ _ _ => Ok [];
  e_liquidate := fun _ _ _ => Ok None;
  e_range := fun _ _ m => if back then reverse (map_to_list m) else map_to_list m |}.

Lemma yields_fair t back rates : range_fair (yields t back rates).
Proof. intros k V m. cbn. destruct back; [apply reverse_Permutation|done]. Qed.

Definition base_only (name : string) : list YieldRate :=
  if str_eqb name "base" then [rate "" "aave" 0.04; rate "" "compound" 0.2] else [].

Definition both_chains (name : string) : list YieldRate :=
  if str_eqb name "base" then [rate "" "aave" 0.04]
  else [rate "" "kamino" 0.09; rate "solana" "marginfi" 0.08].

Definition sample_clients : option (gset string) := Some {[ "base"; "solana" ]}.

Definition minute (k : Z) : Time := 63902736000 * Second + k * Minute.

Definition sample_yield : CrossChainYield :=
  match NewCrossChainYield sample_clients sample_config with
  | Ok y => SeedFreeCapital y 1000
  | Fail _ => {| cfg := sample_config; clients := ∅; allocation := ∅; freeCapital := 0; lastCheck := 0;
      lastRebalance := 0; lastRates := []; rebalanceHistory := [] |}
  end.

(** Half the capital goes to the one allowed protocol of the first rates; half
    an hour later, too soon, better rates appear; an hour later they are taken. *)
Definition moving : list (Env * task_op) :=
  [(yields (minute 0) false base_only, OpTick); (yields (minute 30) true both_chains, OpTick);
   (yields (minute 60) true both_chains, OpTick);
   (yields (minute 61) false both_chains, OpAdjust [("rebalance_interval_secs", AInt 1)]);
   (yields (minute 62) false base_only, OpTick);
   (yields (minute 65) true base_only, OpClose)].

Example moving_trades :
  (fun tr => (tr_TradeType tr, tr_DEX tr, tr_AmountIn tr)) <$> (session sample_yield moving).1 =
  [("yield_enter", "aave", 500%float); ("yield_exit", "aave", 500%float); ("bridge", "mock_bridge", 5%float);
   ("yield_enter", "kamino", 497.5%float); ("yield_enter", "marginfi", 497.5%float);
   ("yield_exit", "kamino", 497.5%float); ("yield_exit", "marginfi", 497.5%float)].
Proof. vm_compute. reflexivity. Qed.

Lemma moving_fine : Forall (op_fine (task_env (T := CrossChainYield))) moving.
Proof.
  assert (Hc : forall t back rates, t <> 0 -> range_fair (yields t back rates) /\ clocked (yields t back rates))
    by (intros; split; [apply yields_fair|done]).
  assert (Ha : adjustments_ok [("rebalance_interval_secs", AInt 1)])
    by (constructor; [intros v [= <-]; reflexivity|constructor]).
  repeat (constructor; [split; [by apply Hc|done]|]). constructor.
Qed.

Lemma yield_ledger_witness :
  ledger (entry_ok ["aave"; "kamino"; "marginfi"]) post ∅ (session sample_yield moving).1 /\
  ps_ValueUSD <$> allocation (session sample_yield moving).2 = fold_left post (session sample_yield moving).1 ∅.
Proof.
  assert (Hx : Forall fair moving) by (repeat (constructor; [apply yields_fair|]); constructor).
  pose proof (yield_ledger insertion_slice_sort insertion_slice_sort_laws sample_clients sample_config _
    1000 moving eq_refl Hx) as H.
  change (SeedFreeCapital _ 1000) with sample_yield in H.
  destruct (session sample_yield moving) as [trades y']. exact H.
Defined.

Lemma rebalances_spaced_witness : spaced (rebalanceHistory (session sample_yield moving).2).
Proof.
  exact (rebalances_spaced insertion_slice_sort sample_clients sample_config _ 1000 moving eq_refl moving_fine).
Defined.

Lemma close_all_spec_witness :
  (CloseAllPositions (yields (minute 9) true base_only) (session sample_yield (take 3 moving)).2).1 =
  (CloseAllPositions (yields (minute 9) false base_only) (session sample_yield (take 3 moving)).2).1.
Proof.
  exact (proj1 (close_all_spec insertion_slice_sort insertion_slice_sort_laws
    (yields (minute 9) true base_only) (yields (minute 9) false base_only)
    (session sample_yield (take 3 moving)).2
    (yields_fair _ _ _) (yields_fair _ _ _) eq_refl)).
Defined.

Lemma yield_adjustments_witness :
  ApplyAdjustments [("check_interval_secs", AInt 1); ("min_yield_diff_bps", AInt 9)] sample_yield =
  ApplyAdjustments [("min_yield_diff_bps", AInt 9); ("check_interval_secs", AInt 1)] sample_yield.
Proof.
  pose proof (yield_adjustments [("min_yield_diff_bps", AInt 9); ("check_interval_secs", AInt 1)]
    [("check_interval_secs", AInt 1); ("min_yield_diff_bps", AInt 9)] sample_yield) as H.
  destruct (ApplyAdjustments [("min_yield_diff_bps", AInt 9); ("check_interval_secs", AInt 1)] sample_yield)
    as [err y'] eqn:E.
  assert (Hok : adjustments_ok [("min_yield_diff_bps", AInt 9); ("check_interval_secs", AInt 1)])
    by (repeat constructor; cbn; intros v [= <-]; reflexivity).
  specialize (H Hok eq_refl). destruct H as (H1 & _ & _ & H2).
  assert (Herr : err = None) by exact (f_equal fst (eq_sym E)).
  rewrite Herr. apply H2; [exact Herr| |apply Permutation_swap].
  by apply (bool_decide_eq_true_1 _).
Defined.

Lemma target_best_witness :
  chooseTarget sample_yield [rate "base" "aave" 0.04; rate "solana" "kamino" 0.09;
    rate "solana" "marginfi" 0.08] !! "aave" = None /\ (y_APY (rate "solana" "marginfi" 0.08) <? 0.04)%float = false.
Proof.
  split; [vm_compute; reflexivity|].
  destruct (target_best sample_yield [rate "base" "aave" 0.04; rate "solana" "kamino" 0.09;
    rate "solana" "marginfi" 0.08]) as (_ & _ & H).
  refine (H _ _ "marginfi" (rate "solana" "marginfi" 0.08) (rate "base" "aave" 0.04) _ _ _).
  - by apply (bool_decide_eq_true_1 _).
  - repeat (constructor; [reflexivity|]). constructor.
  - vm_compute. reflexivity.
  - left.
  - vm_compute. reflexivity.
Defined.

(** Two rates for one protocol: the lower one replaces the higher one, and
    takes its share of the capital. *)
Lemma duplicate_overwrites :
  chooseTarget sample_yield [rate "base" "aave" 0.09; rate "solana" "aave" 0.01; rate "base" "kamino" 0.005]
  = {[ "aave" := rate "solana" "aave" 0.01 ]}.
Proof. vm_compute. reflexivity. Qed.
