(* ===== verification/Crossover.v ===== *)
(** * Crossover ([internal/orchestrator/crossover.go])

    A child takes each of its four modules whole from one of two parents. *)
From Stdlib Require Import ZArith Lia Floats.
From stdpp Require Import base list strings gmap.
From S2P Require Import Prelude GoBase GoFloat GoRound GoRand LearnedRules Genome.
Set Warnings "-inexact-float".
Open Scope Z_scope.

Record ModulePerformance := {
  TaskPnL : float;
  BrainEfficiency : float;
  EconomicsHealth : float;
  CommunicationAccuracy : float;
}.

Record CrossoverInheritance := {
  inh_Task : string;
  inh_Brain : string;
  inh_Economics : string;
  inh_Communication : string;
}.

Definition crossoverWinnerProbability : float := 0.80%float.

Definition letter (fromA : bool) : string := if fromA then "A" else "B".

Definition maxInt (a b : Z) : Z := if b <? a then a else b.

(** Copying a map of immutable values; [nil] stays [nil]. *)
Definition copyStrategyConfig (src : option (gmap string config_value))
    : option (gmap string config_value) :=
  match src with
  | None => None
  | Some m => Some (list_to_map (map_to_list m))
  end.

Section Crossover.
Context {R : Rand}.

Definition pickWinner (r : rng) (scoreA scoreB : float) : bool * rng :=
  let '(u, r) := Float64 r in
  let winnerWins := (u <? crossoverWinnerProbability)%float in
  (if (scoreB <? scoreA)%float then winnerWins
   else if (scoreA <? scoreB)%float then negb winnerWins
   else winnerWins, r).

Definition Crossover (r : option rng) (parentA parentB : AgentGenome)
    (perfA perfB : ModulePerformance)
    : result (AgentGenome * CrossoverInheritance) * option rng :=
  match r with
  | None => (Fail (EMsg "crossover: nil rng"), None)
  | Some r =>
    let '(taskFromA, r) := pickWinner r (TaskPnL perfA) (TaskPnL perfB) in
    let '(brainFromA, r) := pickWinner r (BrainEfficiency perfA) (BrainEfficiency perfB) in
    let '(econFromA, r) := pickWinner r (EconomicsHealth perfA) (EconomicsHealth perfB) in
    let '(commsFromA, r) :=
      pickWinner r (CommunicationAccuracy perfA) (CommunicationAccuracy perfB) in
    let task := if taskFromA then parentA else parentB in
    let brain := if brainFromA then parentA else parentB in
    let econ := if econFromA then parentA else parentB in
    let comms := if commsFromA then parentA else parentB in
    let child := {|
      Name := Name parentA;
      Generation := wrap64 (maxInt (Generation parentA) (Generation parentB) + 1);
      LineageDepth := wrap64 (maxInt (LineageDepth parentA) (LineageDepth parentB) + 1);
      TaskType := TaskType task;
      Chain := Chain task;
      StrategyConfig := copyStrategyConfig (StrategyConfig task);
      StrategistPrompt := StrategistPrompt brain;
      StrategistModel := StrategistModel brain;
      StrategistIntervalSeconds := StrategistIntervalSeconds brain;
      BanditPolicies := BanditPolicies brain;
      Genome.LearnedRules := Genome.LearnedRules brain;
      CapitalAllocation := CapitalAllocation econ;
      g_ReproductionPolicy := g_ReproductionPolicy econ;
      g_CostPolicy := g_CostPolicy econ;
      g_CommunicationPolicy := g_CommunicationPolicy comms;
      g_SleepSchedule := g_SleepSchedule comms;
    |} in
    let inh := {|
      inh_Task := letter taskFromA;
      inh_Brain := letter brainFromA;
      inh_Economics := letter econFromA;
      inh_Communication := letter commsFromA;
    |} in
    (Ok (child, inh), Some r)
  end.

(** ** The four modules of a genome *)

Definition task_module (g : AgentGenome) := (TaskType g, Chain g, StrategyConfig g).
Definition brain_module (g : AgentGenome) :=
  (StrategistPrompt g, StrategistModel g, StrategistIntervalSeconds g,
   BanditPolicies g, Genome.LearnedRules g).
Definition econ_module (g : AgentGenome) :=
  (CapitalAllocation g, g_ReproductionPolicy g, g_CostPolicy g).
Definition comms_module (g : AgentGenome) := (g_CommunicationPolicy g, g_SleepSchedule g).

Lemma copyStrategyConfig_id m : copyStrategyConfig m = m.
Proof. destruct m; cbn; [|done]. by rewrite list_to_map_to_list. Qed.

(** The module of parent A is taken on draw [u]. *)
Definition takes_A (u sA sB : float) : Prop :=
  if (sA <? sB)%float then (u <? crossoverWinnerProbability)%float = false
  else (u <? crossoverWinnerProbability)%float = true.

Lemma flt_asym x y : (x <? y)%float = true -> (y <? x)%float = false.
Proof.
  intros H. destruct (fltb_not_nan _ _ H) as [Hx Hy].
  rewrite fltb_rank in * by done. lia.
Qed.

Lemma pickWinner_spec r sA sB :
  (pickWinner r sA sB).1 = true <-> takes_A (Float64 r).1 sA sB.
Proof.
  unfold pickWinner, takes_A. destruct (Float64 r) as [u r']; cbn.
  destruct (sB <? sA)%float eqn:E1.
  - by rewrite (flt_asym _ _ E1).
  - destruct (sA <? sB)%float; [|done]. by rewrite negb_true_iff.
Qed.

Lemma pickWinner_rng r sA sB : (pickWinner r sA sB).2 = (Float64 r).2.
Proof. unfold pickWinner. by destruct (Float64 r). Qed.

Definition next (r : rng) : rng := (Float64 r).2.

(** Parent [w] is recorded as the origin of a module [m] of [child], and
    the draw [u] and the scores choose it. *)
Definition inherited {M} (m : AgentGenome -> M) (child A B : AgentGenome)
    (w : string) (u sA sB : float) : Prop :=
  (w = "A" /\ takes_A u sA sB /\ m child = m A) \/
  (w = "B" /\ ~ takes_A u sA sB /\ m child = m B).

Lemma pick_inherited {M} (m : AgentGenome -> M) child A B r sA sB b r' :
  pickWinner r sA sB = (b, r') -> m child = m (if b then A else B) ->
  r' = next r /\ inherited m child A B (letter b) (Float64 r).1 sA sB.
Proof.
  intros E Hm. pose proof (pickWinner_spec r sA sB) as Hs.
  pose proof (pickWinner_rng r sA sB) as Hr. rewrite E in Hs, Hr. cbn in Hs, Hr.
  split; [done|]. unfold inherited. rewrite <-Hs. destruct b; [left|right]; done.
Qed.

Lemma maxInt_max a b : maxInt a b = Z.max a b.
Proof. unfold maxInt. destruct (Z.ltb_spec b a); lia. Qed.

(** The next generation and depth are representable. *)
Definition has_successor (g : AgentGenome) : Prop :=
  Generation g < max_int64 /\ LineageDepth g < max_int64.

(** A genome whose modules are those of two valid ones, one past their
    generations, is valid. *)
Lemma modules_valid (bt bb be bc : bool) A B child :
  Validate A = None -> Validate B = None -> has_successor A -> has_successor B ->
  Name child = Name A -> task_module child = task_module (if bt then A else B) ->
  brain_module child = brain_module (if bb then A else B) ->
  econ_module child = econ_module (if be then A else B) ->
  comms_module child = comms_module (if bc then A else B) ->
  Generation child = wrap64 (Z.max (Generation A) (Generation B) + 1) ->
  LineageDepth child = wrap64 (Z.max (LineageDepth A) (LineageDepth B) + 1) ->
  Validate child = None.
Proof.
  rewrite !Validate_iff. intros HA HB [GA DA] [GB DB] Hn Ht Hb He Hc Hg Hd.
  injection Ht as Ht1 Ht2 Ht3. injection Hb as Hb1 Hb2 Hb3 Hb4 Hb5. injection He as He1 He2 He3.
  injection Hc as Hc1 Hc2. pose proof HA as []. pose proof HB as [].
  split; rewrite ?Hn, ?Ht1, ?Ht2, ?Ht3, ?Hb1, ?Hb2, ?Hb3, ?Hb4, ?Hb5, ?He1, ?He2, ?He3, ?Hc1, ?Hc2, ?Hg, ?Hd;
    try (destruct bt, bb, be, bc; done);
    rewrite wrap64_id; unfold in_int64, min_int64, max_int64 in *; lia.
Qed.

End Crossover.

(** ** A concrete crossing *)

Definition sample_genome (name task chain : string) (gen : Z) : AgentGenome := {|
  Name := name; Generation := gen; LineageDepth := gen;
  TaskType := task; Chain := chain;
  StrategyConfig := Some {[ "threshold" := VFloat 0.5%float ]};
  StrategistPrompt := "trade carefully"; StrategistModel := "gpt-4o-mini";
  StrategistIntervalSeconds := 3600; BanditPolicies := ["default"];
  Genome.LearnedRules := []; CapitalAllocation := 0.25%float;
  g_ReproductionPolicy := {|
    MinProfitableEpochs := 2; MinRealizedNetProfitUSD := 5%float;
    OffspringSeedCapitalUSD := 50%float; OffspringAPIReserveUSD := 5%float;
    OffspringFailureBufferUSD := 5%float; MaxDescendantsPerEpoch := 1;
    AllowTaskTypeMutation := true; AllowChainMutation := true;
    AllowModelMutation := true |};
  g_CostPolicy := {| MonthlyLLMBudgetUSD := 10%float;
    MonthlyInfraRentBudgetUSD := 5%float; PauseOnBudgetBreach := true |};
  g_CommunicationPolicy := {| SubscribeChannels := ["market"]; PublishChannels := ["market"];
    MaxBroadcastsPerCycle := 3; IntelSummaryMaxItems := 10; RequireBullBearTag := true |};
  g_SleepSchedule := {| AwakeWindowMinutes := 30; SleepBetween := true; WakeForBacktest := true |};
|}.

Definition sample_A := sample_genome "alpha" "momentum" "solana" 3.
Definition sample_B := sample_genome "beta" "liquidity_provision" "base" 7.

Definition perf (x : float) : ModulePerformance := {|
  TaskPnL := x; BrainEfficiency := x; EconomicsHealth := x; CommunicationAccuracy := x |}.

(** The last draw lets the weaker parent B win the communication module. *)
Definition sample_draws : list float := [0.1; 0.2; 0.3; 0.9]%float.

Definition sample_child : result (AgentGenome * CrossoverInheritance) :=
  (Crossover (R := script_rand) (Some (sample_draws, [])) sample_A sample_B (perf 2) (perf 1)).1.

