(* ===== verification/Evolution.v ===== *)
(** * Mutation ([internal/orchestrator/evolution.go])

    [Mutate] perturbs the four modules of a genome in turn, threading the
    random generator through every draw. *)
From Stdlib Require Import ZArith Lia Floats Ascii.
From stdpp Require Import base list strings gmap pretty.
From S2P Require Import Prelude GoBase GoFloat GoRound GoRand LearnedRules Genome.
Set Warnings "-inexact-float".
Open Scope Z_scope.

(** ** Field updates *)

Definition with_task (g : AgentGenome) (tt ch : string)
    (sc : option (gmap string config_value)) : AgentGenome := {|
  Name := Name g; Generation := Generation g; LineageDepth := LineageDepth g;
  TaskType := tt; Chain := ch; StrategyConfig := sc;
  StrategistPrompt := StrategistPrompt g; StrategistModel := StrategistModel g;
  StrategistIntervalSeconds := StrategistIntervalSeconds g;
  BanditPolicies := BanditPolicies g; Genome.LearnedRules := Genome.LearnedRules g;
  CapitalAllocation := CapitalAllocation g; g_ReproductionPolicy := g_ReproductionPolicy g;
  g_CostPolicy := g_CostPolicy g; g_CommunicationPolicy := g_CommunicationPolicy g;
  g_SleepSchedule := g_SleepSchedule g |}.

Definition with_identity (g : AgentGenome) (gen depth : Z) : AgentGenome := {|
  Name := Name g; Generation := gen; LineageDepth := depth;
  TaskType := TaskType g; Chain := Chain g; StrategyConfig := StrategyConfig g;
  StrategistPrompt := StrategistPrompt g; StrategistModel := StrategistModel g;
  StrategistIntervalSeconds := StrategistIntervalSeconds g;
  BanditPolicies := BanditPolicies g; Genome.LearnedRules := Genome.LearnedRules g;
  CapitalAllocation := CapitalAllocation g; g_ReproductionPolicy := g_ReproductionPolicy g;
  g_CostPolicy := g_CostPolicy g; g_CommunicationPolicy := g_CommunicationPolicy g;
  g_SleepSchedule := g_SleepSchedule g |}.

Definition with_brain (g : AgentGenome) (prompt model : string) (interval : Z)
    (policies : list string) : AgentGenome := {|
  Name := Name g; Generation := Generation g; LineageDepth := LineageDepth g;
  TaskType := TaskType g; Chain := Chain g; StrategyConfig := StrategyConfig g;
  StrategistPrompt := prompt; StrategistModel := model;
  StrategistIntervalSeconds := interval;
  BanditPolicies := policies; Genome.LearnedRules := Genome.LearnedRules g;
  CapitalAllocation := CapitalAllocation g; g_ReproductionPolicy := g_ReproductionPolicy g;
  g_CostPolicy := g_CostPolicy g; g_CommunicationPolicy := g_CommunicationPolicy g;
  g_SleepSchedule := g_SleepSchedule g |}.

Definition with_econ (g : AgentGenome) (cap : float) (rp : ReproductionPolicy)
    (cp : CostPolicy) : AgentGenome := {|
  Name := Name g; Generation := Generation g; LineageDepth := LineageDepth g;
  TaskType := TaskType g; Chain := Chain g; StrategyConfig := StrategyConfig g;
  StrategistPrompt := StrategistPrompt g; StrategistModel := StrategistModel g;
  StrategistIntervalSeconds := StrategistIntervalSeconds g;
  BanditPolicies := BanditPolicies g; Genome.LearnedRules := Genome.LearnedRules g;
  CapitalAllocation := cap; g_ReproductionPolicy := rp; g_CostPolicy := cp;
  g_CommunicationPolicy := g_CommunicationPolicy g; g_SleepSchedule := g_SleepSchedule g |}.

Definition with_comms (g : AgentGenome) (mp : CommunicationPolicy) : AgentGenome := {|
  Name := Name g; Generation := Generation g; LineageDepth := LineageDepth g;
  TaskType := TaskType g; Chain := Chain g; StrategyConfig := StrategyConfig g;
  StrategistPrompt := StrategistPrompt g; StrategistModel := StrategistModel g;
  StrategistIntervalSeconds := StrategistIntervalSeconds g;
  BanditPolicies := BanditPolicies g; Genome.LearnedRules := Genome.LearnedRules g;
  CapitalAllocation := CapitalAllocation g; g_ReproductionPolicy := g_ReproductionPolicy g;
  g_CostPolicy := g_CostPolicy g; g_CommunicationPolicy := mp;
  g_SleepSchedule := g_SleepSchedule g |}.

(** ** Helpers *)

Definition clampFloat (v : float) : float := if (v <? 0)%float then 0%float else v.

Definition clampUnit (v : float) : float :=
  if (v <? 0)%float then 0%float else if (1 <? v)%float then 1%float else v.

Definition newline : ascii := Ascii.ascii_of_nat 10.

Definition appendMutationMarker (prompt : string) (generation : Z) : string :=
  prompt +:+ String newline ("// mut-v" +:+ pretty (wrap64 (generation + 1))).

Definition taskTypeOptions : list string :=
  ["cross_chain_yield"; "liquidity_provision"; "liquidation_hunting"; "momentum"].
Definition modelOptions : list string :=
  ["claude-haiku-4-5-20251001"; "claude-sonnet-4-6"; "claude-opus-4-7"; "gpt-4o"; "gpt-4o-mini"].
Definition policyCandidates : list string :=
  ["default"; "aggressive"; "defensive"; "momentum"; "mean_revert"; "trend_follow"].

Section Mutation.
Context {R : Rand}.

Definition perturbUSD (r : rng) (v : float) : float * rng :=
  let '(u, r) := Float64 r in
  if (0.50 <=? u)%float then (v, r)
  else
    let '(s, r) := uniform 0.8 1.2 r in
    let scaled := (v * s)%float in
    (if (scaled <? 0)%float then 0%float else scaled, r).

Definition perturbCountNonNeg (r : rng) (v : Z) : Z * rng :=
  let '(s, r) := uniform 0.8 1.2 r in
  let scaled := (float_of_int v * s)%float in
  (if (scaled <? 0)%float then 0 else int_of_float (scaled + 0.5)%float, r).

(** [options[rng.IntN(len(options))]]. *)
Definition pick_option (options : list string) (r : rng) : string * rng :=
  let '(i, r) := IntN (len options) r in (options !!! Z.to_nat i, r).

Definition swapChain (r : rng) (current : string) : string * rng :=
  pick_option ["solana"; "base"] r.
Definition swapTaskType (r : rng) (current : string) : string * rng :=
  pick_option taskTypeOptions r.
Definition swapModel (r : rng) (current : string) : string * rng :=
  pick_option modelOptions r.

Definition mutateBanditPolicies (r : rng) (parent : list string) : list string * rng :=
  let out := parent in
  let '(add, r) :=
    if len out <=? 1 then (true, r)
    else let '(u, r) := Float64 r in ((u <? 0.5)%float, r) in
  if add then
    let missing := List.filter (fun c => negb (mem c out)) policyCandidates in
    if len missing =? 0 then (out, r)
    else let '(p, r) := pick_option (insertion_sort str_lt missing) r in (out ++ [p], r)
  else
    let '(idx, r) := IntN (len out) r in
    (take (Z.to_nat idx) out ++ drop (S (Z.to_nat idx)) out, r).

(** One entry of the strategy config. *)
Definition mutate_value (r : rng) (v : config_value) : config_value * rng :=
  match v with
  | VFloat x =>
      let '(u, r) := Float64 r in
      if (u <? 0.50)%float then
        let '(s, r) := uniform 0.8 1.2 r in (VFloat (clampFloat (x * s)%float), r)
      else (VFloat x, r)
  | VInt x =>
      let '(u, r) := Float64 r in
      if (u <? 0.50)%float then
        let '(s, r) := uniform 0.8 1.2 r in
        let scaled := (float_of_int x * s)%float in
        let scaled := if (scaled <? 0)%float then 0%float else scaled in
        (VInt (int_of_float (scaled + 0.5)%float), r)
      else (VInt x, r)
  | VStr s => (VStr s, r)
  | VOther j => (VOther j, r)
  end.

Fixpoint mutate_entries (r : rng) (entries : list (string * config_value))
    (out : gmap string config_value) : gmap string config_value * rng :=
  match entries with
  | [] => (out, r)
  | (k, v) :: entries' =>
      let '(v', r) := mutate_value r v in mutate_entries r entries' (<[k := v']> out)
  end.

Definition mutateTaskModule (range : range_order string config_value)
    (r : rng) (g : AgentGenome) : AgentGenome * rng :=
  let '(sc, r) :=
    match StrategyConfig g with
    | None => (None, r)
    | Some m => let '(out, r) := mutate_entries r (range m) ∅ in (Some out, r)
    end in
  let rp := g_ReproductionPolicy g in
  let '(chain, r) :=
    if AllowChainMutation rp then
      let '(u, r) := Float64 r in
      if (u <? 0.05)%float then swapChain r (Chain g) else (Chain g, r)
    else (Chain g, r) in
  let '(task, r) :=
    if AllowTaskTypeMutation rp then
      let '(u, r) := Float64 r in
      if (u <? 0.05)%float then swapTaskType r (TaskType g) else (TaskType g, r)
    else (TaskType g, r) in
  (with_task g task chain sc, r).

Definition perturbInterval (r : rng) (v : Z) : Z * rng :=
  let '(s, r) := uniform 0.8 1.2 r in
  let scaled := (float_of_int v * s)%float in
  let scaled := if (scaled <? 60)%float then 60%float else scaled in
  (int_of_float (scaled + 0.5)%float, r).

Definition mutateBrainModule (r : rng) (g : AgentGenome) : AgentGenome * rng :=
  let prompt := appendMutationMarker (StrategistPrompt g) (Generation g) in
  let '(model, r) :=
    if AllowModelMutation (g_ReproductionPolicy g) then
      let '(u, r) := Float64 r in
      if (u <? 0.10)%float then swapModel r (StrategistModel g) else (StrategistModel g, r)
    else (StrategistModel g, r) in
  let '(u, r) := Float64 r in
  let '(interval, r) :=
    if (u <? 0.50)%float && (0 <? StrategistIntervalSeconds g)
    then perturbInterval r (StrategistIntervalSeconds g)
    else (StrategistIntervalSeconds g, r) in
  let '(u, r) := Float64 r in
  let '(policies, r) :=
    if (u <? 0.15)%float then mutateBanditPolicies r (BanditPolicies g)
    else (BanditPolicies g, r) in
  (with_brain g prompt model interval policies, r).

Definition mutateEconomicsModule (r : rng) (g : AgentGenome) : AgentGenome * rng :=
  let '(u, r) := Float64 r in
  let '(cap, r) :=
    if (u <? 0.50)%float then
      let '(s, r) := uniform 0.8 1.2 r in (clampUnit (CapitalAllocation g * s)%float, r)
    else (CapitalAllocation g, r) in
  let rp := g_ReproductionPolicy g in
  let '(profit, r) := perturbUSD r (MinRealizedNetProfitUSD rp) in
  let '(seed, r) := perturbUSD r (OffspringSeedCapitalUSD rp) in
  let '(api, r) := perturbUSD r (OffspringAPIReserveUSD rp) in
  let '(buffer, r) := perturbUSD r (OffspringFailureBufferUSD rp) in
  let cp := g_CostPolicy g in
  let '(llm, r) := perturbUSD r (MonthlyLLMBudgetUSD cp) in
  let '(infra, r) := perturbUSD r (MonthlyInfraRentBudgetUSD cp) in
  (with_econ g cap
    {| MinProfitableEpochs := MinProfitableEpochs rp;
       MinRealizedNetProfitUSD := profit; OffspringSeedCapitalUSD := seed;
       OffspringAPIReserveUSD := api; OffspringFailureBufferUSD := buffer;
       MaxDescendantsPerEpoch := MaxDescendantsPerEpoch rp;
       AllowTaskTypeMutation := AllowTaskTypeMutation rp;
       AllowChainMutation := AllowChainMutation rp;
       AllowModelMutation := AllowModelMutation rp |}
    {| MonthlyLLMBudgetUSD := llm; MonthlyInfraRentBudgetUSD := infra;
       PauseOnBudgetBreach := PauseOnBudgetBreach cp |}, r).

Definition mutateCommunicationModule (r : rng) (g : AgentGenome) : AgentGenome * rng :=
  let cp := g_CommunicationPolicy g in
  let '(u, r) := Float64 r in
  let '(bc, r) :=
    if (u <? 0.50)%float then perturbCountNonNeg r (MaxBroadcastsPerCycle cp)
    else (MaxBroadcastsPerCycle cp, r) in
  let '(u, r) := Float64 r in
  let '(items, r) :=
    if (u <? 0.50)%float then perturbCountNonNeg r (IntelSummaryMaxItems cp)
    else (IntelSummaryMaxItems cp, r) in
  let '(u, r) := Float64 r in
  let tag := if (u <? 0.05)%float then negb (RequireBullBearTag cp) else RequireBullBearTag cp in
  (with_comms g
    {| SubscribeChannels := SubscribeChannels cp; PublishChannels := PublishChannels cp;
       MaxBroadcastsPerCycle := bc; IntelSummaryMaxItems := items;
       RequireBullBearTag := tag |}, r).

(** [pcg11] is the generator a nil argument is replaced with. *)
Definition Mutate (pcg11 : rng) (range : range_order string config_value)
    (r : option rng) (parent : AgentGenome) : AgentGenome * rng :=
  let r := default pcg11 r in
  let child := with_identity parent (wrap64 (Generation parent + 1))
                 (wrap64 (LineageDepth parent + 1)) in
  let '(child, r) := mutateTaskModule range r child in
  let '(child, r) := mutateBrainModule r child in
  let '(child, r) := mutateEconomicsModule r child in
  mutateCommunicationModule r child.
End Mutation.

(** ** What each module's mutation can change *)

Section Shapes.
Context {R : Rand} {L : RandLaws R}.

Lemma pick_option_in options r :
  options <> [] -> (pick_option options r).1 ∈ options.
Proof.
  intros Hne. unfold pick_option.
  assert (Hl : 0 < len options) by (destruct options; [done|unfold len; cbn; lia]).
  pose proof (IntN_range (len options) r Hl) as Hi.
  destruct (IntN (len options) r) as [i r']. cbn in *.
  apply list_elem_of_lookup_total_2. unfold len in Hi. lia.
Qed.

Lemma perturbUSD_valid r v : not_below_zero v -> not_below_zero (perturbUSD r v).1.
Proof.
  intros Hv. unfold perturbUSD. destruct (Float64 r) as [u r1].
  destruct (0.5 <=? u)%float; [done|]. destruct (uniform 0.8 1.2 r1) as [s r2].
  destruct (v * s <? 0)%float eqn:E; [reflexivity|exact E].
Qed.

Lemma perturbCount_range r v :
  0 <= v <= 2 ^ 62 -> 0 <= (perturbCountNonNeg r v).1 <= max_int64.
Proof.
  intros Hv. unfold perturbCountNonNeg. pose proof (uniform_range r) as [Hf Hr].
  destruct (uniform _ _ r) as [s r']. cbn [fst] in *.
  destruct (scaled_count v s Hv Hf Hr) as [Hsf Hs].
  destruct (_ <? 0)%float; cbn [fst]; [unfold max_int64; lia|].
  pose proof (round_half _ Hsf Hs) as Hh.
  assert (0 <= frank (float_of_int v * s)%float / 2 ^ 1074)
    by (apply Z.div_pos; [lia|apply pow2_pos; lia]).
  lia.
Qed.

Lemma frank_60 : frank 60 / 2 ^ 1074 = 60 /\ 0 <= frank 60 <= frank 0x1.4p62.
Proof. vm_compute. repeat split; discriminate. Qed.

Lemma perturbInterval_range r v :
  0 <= v <= 2 ^ 62 -> 60 <= (perturbInterval r v).1 <= max_int64.
Proof.
  intros Hv. unfold perturbInterval. pose proof (uniform_range r) as [Hf Hr].
  destruct (uniform _ _ r) as [s r']. cbn [fst] in *.
  destruct (scaled_count v s Hv Hf Hr) as [Hsf Hs]. destruct frank_60 as [H60 H60r].
  destruct (_ <? 60)%float eqn:E; cbn [fst].
  - pose proof (round_half 60 eq_refl H60r). lia.
  - pose proof (round_half _ Hsf Hs) as Hh.
    rewrite fltb_rank in E by auto with float. apply Z.ltb_ge in E.
    apply (Z.div_le_mono _ _ (2 ^ 1074)) in E; [lia|apply pow2_pos; lia].
Qed.

(** One arm added from the candidates, or one of several dropped. *)
Definition policy_change (old new : list string) : Prop :=
  new = old \/
  (exists p, new = old ++ [p] /\ p ∈ policyCandidates /\ p ∉ old) \/
  (exists l1 p l2, old = l1 ++ p :: l2 /\ new = l1 ++ l2 /\ new <> []).

Lemma mutateBanditPolicies_change r parent :
  policy_change parent (mutateBanditPolicies r parent).1.
Proof.
  unfold mutateBanditPolicies, policy_change.
  set (missing := List.filter _ policyCandidates).
  assert (Hadd : forall r0, policy_change parent
    (if len missing =? 0 then (parent, r0)
     else let '(p, r1) := pick_option (insertion_sort str_lt missing) r0 in
          (parent ++ [p], r1)).1).
  { intros r0. destruct (Z.eqb_spec (len missing) 0) as [|Hl]; [by left|].
    pose proof (pick_option_in (insertion_sort str_lt missing) r0) as Hp.
    destruct (pick_option _ r0) as [p r1]. cbn [fst] in *. right. left. exists p.
    split; [done|].
    assert (Hin : p ∈ missing).
    { rewrite <-(insertion_sort_perm str_lt missing). apply Hp. intros E.
      apply Hl. unfold len. rewrite <-(insertion_sort_perm str_lt missing). by rewrite E. }
    apply list_elem_of_In, filter_In in Hin as [Hin Hm].
    split; [by apply list_elem_of_In|].
    intros Hx. apply negb_true_iff in Hm. apply mem_spec in Hx. congruence. }
  destruct (Z.leb_spec (len parent) 1) as [|Hlen]; [apply Hadd|].
  destruct (Float64 r) as [u r0]. destruct (u <? 0.5)%float; [apply Hadd|].
  pose proof (IntN_range (len parent) r0 ltac:(lia)) as Hi.
  destruct (IntN (len parent) r0) as [i r1]. cbn [fst] in *.
  destruct (parent !! Z.to_nat i) as [p|] eqn:E;
    [|apply lookup_ge_None in E; unfold len in *; lia].
  right. right. exists (take (Z.to_nat i) parent), p, (drop (S (Z.to_nat i)) parent).
  split; [by rewrite take_drop_middle|]. split; [done|].
  intros E0. apply (f_equal length) in E0.
  rewrite length_app, length_take, length_drop in E0. cbn in E0. unfold len in *. lia.
Qed.

Lemma mutate_entries_dom entries : forall r out,
  dom (mutate_entries r entries out).1 = list_to_set (entries.*1) ∪ dom out.
Proof.
  induction entries as [|[k v] entries IH]; intros r out; cbn; [by rewrite union_empty_l_L|].
  destruct (mutate_value r v) as [v' r']. rewrite IH, dom_insert_L.
  by rewrite (union_assoc_L _ {[k]}), (union_comm_L _ {[k]}).
Qed.

Definition config_keys (sc : option (gmap string config_value)) : option (gset string) :=
  dom <$> sc.

(** The task module: each axis moves only when the reproduction policy
    allows it, and a perturbed config keeps its keys. *)
Record task_change (g g' : AgentGenome) : Prop := {
  tc_frame : g' = with_task g (TaskType g') (Chain g') (StrategyConfig g');
  tc_chain : Chain g' = Chain g \/
    AllowChainMutation (g_ReproductionPolicy g) = true /\ Chain g' ∈ validChains;
  tc_task : TaskType g' = TaskType g \/
    AllowTaskTypeMutation (g_ReproductionPolicy g) = true /\ TaskType g' ∈ validTaskTypes;
  tc_keys : config_keys (StrategyConfig g') = config_keys (StrategyConfig g);
}.

Lemma mutateTaskModule_shape range r g :
  range_ok range ->
  task_change g (mutateTaskModule range r g).1.
Proof.
  intros Hrange. unfold mutateTaskModule.
  destruct (match StrategyConfig g with Some _ => _ | None => _ end) as [sc r1] eqn:Esc.
  destruct (if AllowChainMutation _ then _ else _) as [ch r2] eqn:Ech.
  destruct (if AllowTaskTypeMutation _ then _ else _) as [tt r3] eqn:Ett.
  split; cbn; [done|..].
  - destruct (AllowChainMutation _); [|left; congruence].
    destruct (Float64 r1) as [u r1']. destruct (u <? _)%float; [|left; congruence].
    right. split; [done|]. unfold swapChain in Ech.
    pose proof (pick_option_in ["solana"; "base"] r1' ltac:(done)) as Hin.
    by rewrite Ech in Hin.
  - destruct (AllowTaskTypeMutation _); [|left; congruence].
    destruct (Float64 r2) as [u r2']. destruct (u <? _)%float; [|left; congruence].
    right. split; [done|]. unfold swapTaskType in Ett.
    pose proof (pick_option_in taskTypeOptions r2' ltac:(done)) as Hin.
    by rewrite Ett in Hin.
  - destruct (StrategyConfig g) as [m|]; [|by simplify_eq].
    pose proof (mutate_entries_dom (range m) r ∅) as Hd.
    destruct (mutate_entries r (range m) ∅) as [out r']. simplify_eq. cbn in *.
    rewrite Hd, dom_empty_L, union_empty_r_L. f_equal.
    rewrite (Hrange m), <-dom_list_to_map_L. by rewrite list_to_map_to_list.
Qed.

(** The brain module: the prompt is marked, the model moves only when that
    is allowed, a changed interval is at least a minute. *)
Record brain_change (g g' : AgentGenome) : Prop := {
  bc_frame : g' = with_brain g (StrategistPrompt g') (StrategistModel g')
                    (StrategistIntervalSeconds g') (BanditPolicies g');
  bc_prompt : StrategistPrompt g' = appendMutationMarker (StrategistPrompt g) (Generation g);
  bc_model : StrategistModel g' = StrategistModel g \/
    AllowModelMutation (g_ReproductionPolicy g) = true /\ StrategistModel g' ∈ modelOptions;
  bc_interval : StrategistIntervalSeconds g' = StrategistIntervalSeconds g \/
    0 < StrategistIntervalSeconds g /\
    (StrategistIntervalSeconds g <= 2 ^ 62 -> 60 <= StrategistIntervalSeconds g' <= max_int64);
  bc_policies : policy_change (BanditPolicies g) (BanditPolicies g');
}.

Lemma mutateBrainModule_shape r g :
  brain_change g (mutateBrainModule r g).1.
Proof.
  unfold mutateBrainModule.
  destruct (if AllowModelMutation _ then _ else _) as [m r1] eqn:Em.
  destruct (Float64 r1) as [u1 r2].
  destruct (if (_ && _) then _ else _) as [i r3] eqn:Ei.
  destruct (Float64 r3) as [u2 r4].
  destruct (if (_ <? 0.15)%float then _ else _) as [b r5] eqn:Eb.
  split; cbn; [done|done|..].
  - destruct (AllowModelMutation _); [|left; congruence].
    destruct (Float64 r) as [u r']. destruct (u <? _)%float; [|left; congruence].
    right. split; [done|]. unfold swapModel in Em.
    pose proof (pick_option_in modelOptions r' ltac:(done)) as Hin.
    by rewrite Em in Hin.
  - destruct (_ && _) eqn:E; [|left; congruence]. right. split; [lia|]. intros Hv.
    pose proof (perturbInterval_range r2 (StrategistIntervalSeconds g) ltac:(lia)) as H.
    by rewrite Ei in H.
  - destruct (_ <? 0.15)%float; [|left; congruence].
    pose proof (mutateBanditPolicies_change r4 (BanditPolicies g)) as H.
    by rewrite Eb in H.
Qed.

Lemma clampUnit_valid v :
  not_below_zero (clampUnit v) /\ (1 <? clampUnit v)%float = false.
Proof.
  unfold clampUnit, not_below_zero. destruct (v <? 0)%float eqn:E0; [done|].
  by destruct (1 <? v)%float eqn:E1.
Qed.

(** The economics module: amounts stay valid, the allocation stays in the
    unit interval, counts and permissions stay put. *)
Record econ_change (g g' : AgentGenome) : Prop := {
  ec_frame : g' = with_econ g (CapitalAllocation g') (g_ReproductionPolicy g') (g_CostPolicy g');
  ec_capital : CapitalAllocation g' = CapitalAllocation g \/
    exists v, CapitalAllocation g' = clampUnit v;
  ec_repro : repro_valid (g_ReproductionPolicy g) -> repro_valid (g_ReproductionPolicy g');
  ec_cost : cost_valid (g_CostPolicy g) -> cost_valid (g_CostPolicy g');
  ec_epochs : MinProfitableEpochs (g_ReproductionPolicy g')
    = MinProfitableEpochs (g_ReproductionPolicy g);
  ec_desc : MaxDescendantsPerEpoch (g_ReproductionPolicy g')
    = MaxDescendantsPerEpoch (g_ReproductionPolicy g);
  ec_allow_task : AllowTaskTypeMutation (g_ReproductionPolicy g')
    = AllowTaskTypeMutation (g_ReproductionPolicy g);
  ec_allow_chain : AllowChainMutation (g_ReproductionPolicy g')
    = AllowChainMutation (g_ReproductionPolicy g);
  ec_allow_model : AllowModelMutation (g_ReproductionPolicy g')
    = AllowModelMutation (g_ReproductionPolicy g);
  ec_pause : PauseOnBudgetBreach (g_CostPolicy g') = PauseOnBudgetBreach (g_CostPolicy g);
}.

Lemma mutateEconomicsModule_shape r g : econ_change g (mutateEconomicsModule r g).1.
Proof.
  unfold mutateEconomicsModule. destruct (Float64 r) as [u r0].
  destruct (if (u <? _)%float then _ else _) as [cap r1] eqn:Ec.
  set (rp := g_ReproductionPolicy g). set (cp := g_CostPolicy g).
  pose proof (perturbUSD_valid r1 (MinRealizedNetProfitUSD rp)) as H1.
  destruct (perturbUSD r1 _) as [x1 r2].
  pose proof (perturbUSD_valid r2 (OffspringSeedCapitalUSD rp)) as H2.
  destruct (perturbUSD r2 _) as [x2 r3].
  pose proof (perturbUSD_valid r3 (OffspringAPIReserveUSD rp)) as H3.
  destruct (perturbUSD r3 _) as [x3 r4].
  pose proof (perturbUSD_valid r4 (OffspringFailureBufferUSD rp)) as H4.
  destruct (perturbUSD r4 _) as [x4 r5].
  pose proof (perturbUSD_valid r5 (MonthlyLLMBudgetUSD cp)) as H5.
  destruct (perturbUSD r5 _) as [x5 r6].
  pose proof (perturbUSD_valid r6 (MonthlyInfraRentBudgetUSD cp)) as H6.
  destruct (perturbUSD r6 _) as [x6 r7]. cbn [fst] in *.
  split; cbn; try done.
  { destruct (u <? 0.5)%float; [|left; congruence].
    destruct (uniform 0.8 1.2 r0) as [s r']. right. eexists. by injection Ec as <- _. }
  - intros []; split; cbn; auto.
  - intros []; split; cbn; auto.
Qed.

(** The communication module: channels stay, counts stay nonnegative. *)
Record comms_change (g g' : AgentGenome) : Prop := {
  mc_frame : g' = with_comms g (g_CommunicationPolicy g');
  mc_sub : SubscribeChannels (g_CommunicationPolicy g')
    = SubscribeChannels (g_CommunicationPolicy g);
  mc_pub : PublishChannels (g_CommunicationPolicy g')
    = PublishChannels (g_CommunicationPolicy g);
  mc_broadcasts : 0 <= MaxBroadcastsPerCycle (g_CommunicationPolicy g) <= 2 ^ 62 ->
    0 <= MaxBroadcastsPerCycle (g_CommunicationPolicy g') <= max_int64;
  mc_items : 0 <= IntelSummaryMaxItems (g_CommunicationPolicy g) <= 2 ^ 62 ->
    0 <= IntelSummaryMaxItems (g_CommunicationPolicy g') <= max_int64;
}.

Lemma mutateCommunicationModule_shape r g : comms_change g (mutateCommunicationModule r g).1.
Proof.
  unfold mutateCommunicationModule. destruct (Float64 r) as [u1 r1].
  destruct (if (u1 <? _)%float then _ else _) as [bc r2] eqn:E1. destruct (Float64 r2) as [u2 r3].
  destruct (if (u2 <? _)%float then _ else _) as [items r4] eqn:E2.
  destruct (Float64 r4) as [u3 r5]. split; cbn; [done..| |]; intros H.
  - pose proof (perturbCount_range r1 _ H) as Hc.
    destruct (u1 <? _)%float; [by rewrite E1 in Hc|].
    injection E1 as <- _. unfold max_int64. lia.
  - pose proof (perturbCount_range r3 _ H) as Hc.
    destruct (u2 <? _)%float; [by rewrite E2 in Hc|].
    injection E2 as <- _. unfold max_int64. lia.
Qed.

Lemma Mutate_composes pcg11 range r parent :
  range_ok range ->
  exists g1 g2 g3,
    task_change (with_identity parent (wrap64 (Generation parent + 1))
                   (wrap64 (LineageDepth parent + 1))) g1 /\
    brain_change g1 g2 /\ econ_change g2 g3 /\
    comms_change g3 (Mutate pcg11 range r parent).1.
Proof.
  intros Hr. unfold Mutate.
  set (g := with_identity _ _ _). set (r0 := default pcg11 r).
  pose proof (mutateTaskModule_shape range r0 g Hr) as H1.
  destruct (mutateTaskModule range r0 g) as [g1 r1]. exists g1.
  pose proof (mutateBrainModule_shape r1 g1) as H2.
  destruct (mutateBrainModule r1 g1) as [g2 r2]. exists g2.
  pose proof (mutateEconomicsModule_shape r2 g2) as H3.
  destruct (mutateEconomicsModule r2 g2) as [g3 r3]. exists g3.
  pose proof (mutateCommunicationModule_shape r3 g3) as H4. done.
Qed.

Lemma task_change_valid g g' : task_change g g' -> genome_valid g -> genome_valid g'.
Proof.
  intros [-> Hc Ht _] []. split; cbn in *; try done.
  - by destruct Ht as [->|[_ ?]].
  - by destruct Hc as [->|[_ ?]].
Qed.

Lemma modelOptions_rated m : m ∈ modelOptions -> is_Some (RateFor m).
Proof.
  intros Hm. cut (Forall (fun m => is_some (RateFor m) = true) modelOptions).
  - rewrite Forall_forall. intros H. by apply is_some_iff, H.
  - repeat constructor.
Qed.

Lemma brain_change_valid g g' :
  brain_change g g' -> StrategistIntervalSeconds g <= 2 ^ 62 ->
  genome_valid g -> genome_valid g'.
Proof.
  intros [-> _ Hm Hi _] Hle []. split; cbn in *; try done.
  - destruct Hm as [->|[_ ?]]; [done|by apply modelOptions_rated].
  - destruct Hi as [->|[_ Hi]]; [done|lia].
Qed.

Lemma econ_change_valid g g' : econ_change g g' -> genome_valid g -> genome_valid g'.
Proof.
  intros [-> Hc Hr Hp _ _ _ _ _ _] []. split; cbn in *; auto.
  destruct Hc as [->|[v ->]]; [done|apply clampUnit_valid].
Qed.

Lemma comms_change_valid g g' :
  comms_change g g' -> MaxBroadcastsPerCycle (g_CommunicationPolicy g) <= 2 ^ 62 ->
  IntelSummaryMaxItems (g_CommunicationPolicy g) <= 2 ^ 62 ->
  genome_valid g -> genome_valid g'.
Proof.
  intros [-> _ _ Hb Hi] Hb1 Hi1 []. split; cbn in *; try done.
  destruct gv_comm as [??]. split; lia.
Qed.

(** The counts leave room for a 25% increase, and the generation for one
    more step. *)
Record room_to_mutate (g : AgentGenome) : Prop := {
  rm_generation : Generation g < max_int64;
  rm_depth : LineageDepth g < max_int64;
  rm_interval : StrategistIntervalSeconds g <= 2 ^ 62;
  rm_broadcasts : MaxBroadcastsPerCycle (g_CommunicationPolicy g) <= 2 ^ 62;
  rm_items : IntelSummaryMaxItems (g_CommunicationPolicy g) <= 2 ^ 62;
}.

(** Whatever the draws and the order in which the config is visited, a
    mutation of a valid genome is a valid genome. *)
Theorem Mutate_valid pcg11 range r parent :
  range_ok range -> Validate parent = None -> room_to_mutate parent ->
  Validate (Mutate pcg11 range r parent).1 = None.
Proof.
  rewrite !Validate_iff. intros Hr Hv [Hg Hd Hi Hb Hit].
  destruct (Mutate_composes pcg11 range r parent Hr) as (g1 & g2 & g3 & H1 & H2 & H3 & H4).
  assert (Hid : genome_valid (with_identity parent (wrap64 (Generation parent + 1))
                  (wrap64 (LineageDepth parent + 1)))).
  { destruct Hv. split; cbn; try done;
      rewrite wrap64_id; unfold in_int64, min_int64, max_int64 in *; lia. }
  pose proof (task_change_valid _ _ H1 Hid) as V1.
  destruct H1 as [E1 _ _ _]. pose proof H2 as [E2 _ _ _ _]. pose proof H3 as [E3 _ _ _ _ _ _ _ _ _].
  apply brain_change_valid in H2; [|by rewrite E1|done].
  apply (econ_change_valid _ _ H3) in H2.
  by apply (comms_change_valid _ _ H4); [rewrite E3; cbn; rewrite E2; cbn; rewrite E1..|].
Qed.

(** What a mutation leaves alone. *)
Definition unmutated (g : AgentGenome) :=
  (Name g, Genome.LearnedRules g, g_SleepSchedule g, config_keys (StrategyConfig g),
   (MinProfitableEpochs (g_ReproductionPolicy g), MaxDescendantsPerEpoch (g_ReproductionPolicy g)),
   (AllowTaskTypeMutation (g_ReproductionPolicy g), AllowChainMutation (g_ReproductionPolicy g),
    AllowModelMutation (g_ReproductionPolicy g)),
   PauseOnBudgetBreach (g_CostPolicy g),
   (SubscribeChannels (g_CommunicationPolicy g), PublishChannels (g_CommunicationPolicy g))).

(** C29: a mutation moves the chain, the task type and the model only when
    the parent's policy allows that axis, adds or drops at most one bandit
    arm and never the last, marks the prompt, advances generation and depth
    and leaves identity, learned rules, schedule, permissions, channels and
    the config's keys alone. *)
Theorem Mutate_respects_policy pcg11 range r parent :
  range_ok range ->
  let child := (Mutate pcg11 range r parent).1 in
  let rp := g_ReproductionPolicy parent in
  (AllowChainMutation rp = false -> Chain child = Chain parent) /\
  (AllowTaskTypeMutation rp = false -> TaskType child = TaskType parent) /\
  (AllowModelMutation rp = false -> StrategistModel child = StrategistModel parent) /\
  policy_change (BanditPolicies parent) (BanditPolicies child) /\
  Generation child = wrap64 (Generation parent + 1) /\
  LineageDepth child = wrap64 (LineageDepth parent + 1) /\
  StrategistPrompt child
    = appendMutationMarker (StrategistPrompt parent) (Generation child) /\
  unmutated child = unmutated parent.
Proof.
  intros Hr child rp.
  destruct (Mutate_composes pcg11 range r parent Hr) as (g1 & g2 & g3 & H1 & H2 & H3 & H4).
  fold child in H4. destruct H1 as [E1 Hc Ht Hk], H2 as [E2 Hp Hm _ Hb],
    H3 as [E3 _ _ _ Hx1 Hx2 Hx3 Hx4 Hx5 Hx6], H4 as [E4 Hs Hpub _ _].
  set (g0 := with_identity _ _ _) in *.
  clearbody child. rewrite E4. unfold unmutated. cbn. rewrite Hs, Hpub, E3. cbn.
  rewrite Hx1, Hx2, Hx3, Hx4, Hx5, Hx6, E2. cbn. rewrite Hp.
  unfold config_keys in *. rewrite E1 in Hm, Hb. rewrite Hk, E1. cbn in *.
  repeat split; try done; intros Hf.
  - by destruct Hc as [Hc|[Hc _]]; [|unfold rp in Hf; congruence].
  - by destruct Ht as [Ht|[Ht _]]; [|unfold rp in Hf; congruence].
  - by destruct Hm as [Hm|[Hm _]]; [|unfold rp in Hf; congruence].
Qed.
End Shapes.

(** ** A concrete mutation *)

Definition sorted_range : range_order string config_value := fun m => map_to_list m.

Lemma sorted_range_ok : range_ok sorted_range.
Proof. intros m. reflexivity. Qed.

Definition mutation_parent : AgentGenome := {|
  Name := "alpha"; Generation := 4; LineageDepth := 4;
  TaskType := "momentum"; Chain := "solana";
  StrategyConfig := Some {[ "threshold" := VFloat 0.5%float; "window" := VInt 20 ]};
  StrategistPrompt := "trade carefully"; StrategistModel := "gpt-4o-mini";
  StrategistIntervalSeconds := 70; BanditPolicies := ["default"];
  Genome.LearnedRules := []; CapitalAllocation := 0.9%float;
  g_ReproductionPolicy := {|
    MinProfitableEpochs := 2; MinRealizedNetProfitUSD := 5%float;
    OffspringSeedCapitalUSD := 50%float; OffspringAPIReserveUSD := 5%float;
    OffspringFailureBufferUSD := 5%float; MaxDescendantsPerEpoch := 1;
    AllowTaskTypeMutation := true; AllowChainMutation := false;
    AllowModelMutation := true |};
  g_CostPolicy := {| MonthlyLLMBudgetUSD := 10%float;
    MonthlyInfraRentBudgetUSD := 5%float; PauseOnBudgetBreach := true |};
  g_CommunicationPolicy := {| SubscribeChannels := ["market"]; PublishChannels := ["market"];
    MaxBroadcastsPerCycle := 3; IntelSummaryMaxItems := 10; RequireBullBearTag := true |};
  g_SleepSchedule := {| AwakeWindowMinutes := 30; SleepBetween := true; WakeForBacktest := true |};
|}.

(** Every draw is zero: each optional change happens, at its least scale. *)
Definition mutated : AgentGenome :=
  (Mutate (R := script_rand) ([], []) sorted_range None mutation_parent).1.

Example mutated_fields :
  (StrategistIntervalSeconds mutated, BanditPolicies mutated, TaskType mutated,
   Chain mutated, MaxBroadcastsPerCycle (g_CommunicationPolicy mutated))
  = (60, ["default"; "aggressive"], "cross_chain_yield", "solana", 2).
Proof. vm_compute. reflexivity. Qed.

Lemma Mutate_valid_witness : Validate mutated = None.
Proof.
  apply (Mutate_valid (R := script_rand) (L := script_rand_laws));
    [apply sorted_range_ok|reflexivity|split; cbn -[Z.pow]; unfold max_int64; lia].
Defined.

Lemma Mutate_respects_policy_witness :
  Chain mutated = "solana" /\
  policy_change (BanditPolicies mutation_parent) (BanditPolicies mutated).
Proof.
  destruct (Mutate_respects_policy (R := script_rand) (L := script_rand_laws) ([], [])
    sorted_range None mutation_parent sorted_range_ok) as (H & _ & _ & Hb & _).
  split; [apply H; reflexivity|exact Hb].
Defined.
