(* ===== verification/Treasury.v ===== *)
(** * Profit sweeps ([internal/orchestrator/treasury.go]) *)
From Stdlib Require Import ZArith Lia Floats.
From stdpp Require Import base list strings.
From S2P Require Import Prelude GoBase GoFloat GoRound.
Open Scope Z_scope.

Record Sweep := {
  sw_AgentID : string;
  sw_ParentAgentID : string;
  AmountToParent : float;
  AmountToRoot : float;
  AmountRetained : float;
}.

Record SweepInputs := {
  in_AgentID : string;
  in_ParentAgentID : string;
  NetProfit : float;
  in_CarriedDebt : float;
  LineageReserveBalance : float;
  LineageReserveFloor : float;
  ParentSplitPct : float;
  RootSplitPct : float;
}.

Record SweepDecision := {
  d_Sweep : Sweep;
  Skipped : bool;
  Reason : string;
}.

Definition zero_sweep : Sweep := {|
  sw_AgentID := ""; sw_ParentAgentID := "";
  AmountToParent := 0; AmountToRoot := 0; AmountRetained := 0 |}.

Definition skip (reason : string) : SweepDecision :=
  {| d_Sweep := zero_sweep; Skipped := true; Reason := reason |}.

Definition out_of_unit (x : float) : bool := (x <? 0)%float || (1 <? x)%float.

Definition ComputeSweep (i : SweepInputs) : result SweepDecision :=
  if str_eqb (in_AgentID i) "" then Fail (EMsg "treasury.Sweep: agent_id required")
  else if out_of_unit (ParentSplitPct i) then
    Fail (EMsg "treasury.Sweep: ParentSplitPct out of [0,1]: %v")
  else if out_of_unit (RootSplitPct i) then
    Fail (EMsg "treasury.Sweep: RootSplitPct out of [0,1]: %v")
  else if (1 <? ParentSplitPct i + RootSplitPct i)%float then
    Fail (EMsg "treasury.Sweep: splits sum > 1: %v + %v")
  else if (NetProfit i <=? 0)%float then Ok (skip "insolvent")
  else if (0 <? in_CarriedDebt i)%float then Ok (skip "carrying_debt")
  else if (LineageReserveBalance i <? LineageReserveFloor i)%float then
    Ok (skip "below_reserve")
  else
    let parentShare := (ParentSplitPct i * NetProfit i)%float in
    let rootShare := (RootSplitPct i * NetProfit i)%float in
    let '(parentShare, rootShare) :=
      if str_eqb (in_ParentAgentID i) "" then (0%float, (rootShare + parentShare)%float)
      else (parentShare, rootShare) in
    let retained := (NetProfit i - parentShare - rootShare)%float in
    let retained := if (retained <? 0)%float then 0%float else retained in
    Ok {| d_Sweep := {| sw_AgentID := in_AgentID i;
                        sw_ParentAgentID := in_ParentAgentID i;
                        AmountToParent := parentShare;
                        AmountToRoot := rootShare;
                        AmountRetained := retained |};
          Skipped := false;
          Reason := "" |}.

(** [PersistSweep] with the rows it hands to the store's [InsertSweep]. *)
Definition PersistSweep (InsertSweep : option (Sweep -> option gerror)) (d : SweepDecision)
    : option gerror * list Sweep :=
  if Skipped d then (None, [])
  else
    match InsertSweep with
    | None => (Some (EMsg "treasury.PersistSweep: nil store"), [])
    | Some insert => (insert (d_Sweep d), [d_Sweep d])
    end.

(** ** Eligibility *)

(** The agent may be swept: it made a profit, owes nothing and holds its
    reserve. *)
Definition eligible (i : SweepInputs) : bool :=
  negb (NetProfit i <=? 0)%float && negb (0 <? in_CarriedDebt i)%float
  && negb (LineageReserveBalance i <? LineageReserveFloor i)%float.

Definition splits_ok (i : SweepInputs) : bool :=
  negb (str_eqb (in_AgentID i) "") && negb (out_of_unit (ParentSplitPct i))
  && negb (out_of_unit (RootSplitPct i))
  && negb (1 <? ParentSplitPct i + RootSplitPct i)%float.

(** A sweep is computed exactly for a named agent with splits in range,
    funds move exactly when the agent is eligible, and what is persisted is
    exactly the decided row, once, or nothing at all. *)
Theorem ComputeSweep_gates i insert :
  match ComputeSweep i with
  | Fail _ => splits_ok i = false
  | Ok d =>
      splits_ok i = true /\ Skipped d = negb (eligible i) /\
      (Skipped d = true ->
        d_Sweep d = zero_sweep /\ Reason d ∈ ["insolvent"; "carrying_debt"; "below_reserve"]) /\
      (PersistSweep (Some insert) d).2 = if eligible i then [d_Sweep d] else []
  end.
Proof.
  unfold ComputeSweep, splits_ok, eligible, PersistSweep.
  destruct (str_eqb (in_AgentID i) ""); [done|].
  destruct (out_of_unit (ParentSplitPct i)); [done|].
  destruct (out_of_unit (RootSplitPct i)); [done|].
  destruct (1 <? _)%float; [done|].
  destruct (NetProfit i <=? 0)%float; [cbn; repeat split; constructor|].
  destruct (0 <? in_CarriedDebt i)%float; [cbn; repeat split; repeat constructor|].
  destruct (LineageReserveBalance i <? _)%float; [cbn; repeat split; repeat constructor|].
  by destruct (str_eqb (in_ParentAgentID i) "").
Qed.

Lemma out_of_unit_in x : is_nan x = false -> out_of_unit x = false -> in_unit x = true.
Proof.
  unfold out_of_unit. intros Hn [H0 H1]%orb_false_elim. apply in_unit_rank.
  split; [done|]. rewrite fltb_rank in H0, H1 by done. rewrite frank_zero in H0. lia.
Qed.

(** A share of a finite profit by a factor in the unit interval. *)
Lemma share_bounds p n :
  in_unit p = true -> is_fin n = true -> 0 <= frank n ->
  is_fin (p * n)%float = true /\ 0 <= frank (p * n)%float <= frank n.
Proof.
  intros Hp Hn H0. pose proof (in_unit_fin _ Hp). apply in_unit_rank in Hp as [_ Hp].
  by apply fmul_unit.
Qed.

(** A difference clamped at zero. *)
Lemma clamp_sub x y :
  is_fin x = true -> is_fin y = true -> 0 <= frank y ->
  let r := (x - y)%float in
  let c := if (r <? 0)%float then 0%float else r in
  0 <= frank x -> is_fin c = true /\ 0 <= frank c <= frank x.
Proof.
  intros Hx Hy Hy0 r c Hx0.
  destruct (fsub_rounds x y Hx Hy) as (Hn & Hle & _). fold r in Hn, Hle.
  specialize (Hle x Hx ltac:(lia)). unfold c.
  destruct (r <? 0)%float eqn:E.
  { split; [done|]. rewrite frank_zero. lia. }
  rewrite fltb_rank, frank_zero in E by done. apply Z.ltb_ge in E.
  split; [|done]. apply is_fin_rank. split; [done|]. apply is_fin_rank in Hx. lia.
Qed.

Lemma fsub_zero_r x : is_fin x = true -> 0 <= frank x ->
  is_fin (x - 0)%float = true /\ 0 <= frank (x - 0)%float <= frank x.
Proof. intros Hx H0. apply fsub_le; [done|reflexivity|]. rewrite frank_zero. lia. Qed.

(** A finite amount between zero and [n]. *)
Definition amount_within (x n : float) : Prop :=
  is_fin x = true /\ 0 <= frank x <= frank n.

(** A positive profit small enough that twice it is representable. *)
Definition sane_profit (n : float) : Prop :=
  (0 <? n)%float = true /\ (n <=? 0x1p1022)%float = true.

Lemma frank_1022 : 2 * frank 0x1p1022 = frank 0x1p1023 /\ frank 0x1p1023 < 2 ^ 2098.
Proof. vm_compute. done. Qed.

Lemma sane_profit_fin n : sane_profit n ->
  is_fin n = true /\ 0 < frank n /\ frank n + frank n <= frank 0x1p1023.
Proof.
  intros [H0 H1]. destruct (fltb_not_nan _ _ H0) as [_ Hn]. destruct frank_1022 as [Hk Hk'].
  rewrite fltb_rank, frank_zero in H0 by done. rewrite fleb_rank in H1 by done.
  apply Z.ltb_lt in H0. apply Z.leb_le in H1.
  split; [|lia]. apply is_fin_rank. split; [done|]. lia.
Qed.

Lemma share_sum x y n : sane_profit n -> amount_within x n -> amount_within y n ->
  is_fin (x + y)%float = true /\ frank x <= frank (x + y)%float /\ frank y <= frank (x + y)%float.
Proof.
  intros (Hn & H0 & H2)%sane_profit_fin [Hx Hxr] [Hy Hyr].
  destruct (fadd_nonneg x y) as (Hs & Hsx & Hsy); [done|done|lia|lia|].
  destruct (fadd_rounds x y Hx Hy) as (_ & Hle & _).
  specialize (Hle 0x1p1023%float eq_refl ltac:(lia)). destruct frank_1022 as [_ Hk].
  split; [|done]. apply is_fin_rank. split; [done|]. lia.
Qed.

(** Every amount of a sweep that goes through is a finite nonnegative
    number of dollars; what the agent retains never exceeds the profit, nor
    does what the parent gets, and an agent without a parent sends the
    parent's share to root. *)
Theorem ComputeSweep_amounts i d :
  is_nan (ParentSplitPct i) = false -> is_nan (RootSplitPct i) = false ->
  sane_profit (NetProfit i) ->
  ComputeSweep i = Ok d -> Skipped d = false ->
  let s := d_Sweep d in
  amount_within (AmountToParent s) (NetProfit i) /\
  amount_within (AmountRetained s) (NetProfit i) /\
  is_fin (AmountToRoot s) = true /\ 0 <= frank (AmountToRoot s) /\
  if str_eqb (in_ParentAgentID i) ""
  then AmountToParent s = 0%float /\
       AmountToRoot s = (RootSplitPct i * NetProfit i + ParentSplitPct i * NetProfit i)%float
  else AmountToRoot s = (RootSplitPct i * NetProfit i)%float /\
       frank (AmountToRoot s) <= frank (NetProfit i).
Proof.
  intros HnP HnR Hn. unfold ComputeSweep.
  destruct (str_eqb (in_AgentID i) ""); [done|].
  destruct (out_of_unit (ParentSplitPct i)) eqn:HP; [done|].
  destruct (out_of_unit (RootSplitPct i)) eqn:HR; [done|].
  destruct (1 <? _)%float; [done|].
  destruct (NetProfit i <=? 0)%float; [intros [= <-]; done|].
  destruct (0 <? in_CarriedDebt i)%float; [intros [= <-]; done|].
  destruct (LineageReserveBalance i <? _)%float; [intros [= <-]; done|].
  apply out_of_unit_in in HP, HR; [|done..].
  destruct (sane_profit_fin _ Hn) as (Hf & Hpos & _).
  pose proof (share_bounds _ _ HP Hf ltac:(lia)) as SP.
  pose proof (share_bounds _ _ HR Hf ltac:(lia)) as SR.
  destruct (str_eqb (in_ParentAgentID i) ""); intros [= <-] _; cbn -[frank].
  - destruct (share_sum _ _ _ Hn SR SP) as (Fs & Hs1 & Hs2).
    destruct (fsub_zero_r _ Hf ltac:(lia)) as [F0 R0].
    destruct (clamp_sub _ _ F0 Fs ltac:(lia) ltac:(lia)) as [Fc Rc].
    split; [split; [done|rewrite frank_zero; lia]|]. split; [split; [done|lia]|].
    split; [done|]. split; [lia|done].
  - destruct SP as [FP RP], SR as [FR RR].
    destruct (fsub_le _ _ Hf FP RP) as [F0 R0].
    destruct (clamp_sub _ _ F0 FR ltac:(lia) ltac:(lia)) as [Fc Rc].
    split; [done|]. split; [split; [done|lia]|]. split; [done|]. split; [lia|].
    split; [done|lia].
Qed.

Definition sample_sweep : SweepInputs := {|
  in_AgentID := "child"; in_ParentAgentID := "parent"; NetProfit := 100;
  in_CarriedDebt := 0; LineageReserveBalance := 20; LineageReserveFloor := 10;
  ParentSplitPct := 0.25; RootSplitPct := 0.5 |}.

Definition sample_decision : SweepDecision := {|
  d_Sweep := {| sw_AgentID := "child"; sw_ParentAgentID := "parent";
                AmountToParent := 25; AmountToRoot := 50; AmountRetained := 25 |};
  Skipped := false; Reason := "" |}.

Lemma ComputeSweep_amounts_witness :
  amount_within (AmountRetained (d_Sweep sample_decision)) 100.
Proof.
  apply (ComputeSweep_amounts sample_sweep sample_decision); try reflexivity.
  by split.
Defined.

(** The range checks let a NaN split through: [NaN < 0] and [NaN > 1] are
    both false, and the decision carries NaN dollars. *)
Lemma ComputeSweep_nan_split :
  exists d, ComputeSweep {| in_AgentID := "child"; in_ParentAgentID := "parent";
      NetProfit := 100; in_CarriedDebt := 0; LineageReserveBalance := 20;
      LineageReserveFloor := 10; ParentSplitPct := nan; RootSplitPct := 0.5 |} = Ok d /\
    Skipped d = false /\ is_nan (AmountToParent (d_Sweep d)) = true.
Proof. eexists. repeat split. Qed.
