(* ===== verification/Economics.v ===== *)
(** * Settlement ([internal/orchestrator/economics.go]) and cost attribution
    ([internal/orchestrator/cost_attribution.go])

    The database and the activity counters are the interfaces the code
    declares; their reads are functions of their arguments. *)
From Stdlib Require Import ZArith Lia Floats.
From stdpp Require Import base list strings.
From S2P Require Import Prelude GoBase GoFloat GoRound.
Set Warnings "-inexact-float".
Open Scope Z_scope.

Record Ledger := {
  l_AgentID : string;
  l_EpochID : string;
  RealizedTradingPnL : float;
  TradingFees : float;
  SlippageCost : float;
  LLMCost : float;
  InfraRent : float;
  RPCCost : float;
  UpstreamPaidToParent : float;
  UpstreamPaidToRoot : float;
  RealizedNetProfit : float;
}.

Record TradeAggregates := { PnL : float; Fees : float; Slippage : float }.

Record EconomicsStore := {
  EpochWindow : string -> result (Time * Time);
  AggregateTrades : string -> string -> result TradeAggregates;
  AggregateStrategistCost : string -> Time -> Time -> result float;
  CarriedDebt : string -> result float;
  InsertLedger : Ledger -> option gerror;
}.

(** What settlement asks of the attributor: the agent's share of the infra
    rent and of the RPC bill for a window. *)
Class CostAttributor := {
  Attribute : string -> Time -> Time -> result (float * float);
}.

Definition net_profit (a : TradeAggregates) (llm infra rpc debt : float) : float :=
  (PnL a - Fees a - Slippage a - llm - infra - rpc - debt)%float.

(** [Settle], with the rows it asks the store to insert. *)
Definition Settle (store : option EconomicsStore) (costs : option CostAttributor)
    (agentID epochID : string) : result Ledger * list Ledger :=
  match store with
  | None => (Fail (EMsg "economics.Settle: nil store"), [])
  | Some store =>
  match costs with
  | None => (Fail (EMsg "economics.Settle: nil cost attributor"), [])
  | Some costs =>
  if str_eqb agentID "" || str_eqb epochID "" then
    (Fail (EMsg "economics.Settle: agent_id and epoch_id required"), [])
  else
  match EpochWindow store epochID with
  | Fail err => (Fail (EWrap "economics.Settle: epoch window: %w" err), [])
  | Ok (start, fin) =>
  if negb (After fin start) then
    (Fail (EMsg "economics.Settle: epoch window has non-positive duration (%v to %v)"), [])
  else
  match AggregateTrades store agentID epochID with
  | Fail err => (Fail (EWrap "economics.Settle: aggregate trades: %w" err), [])
  | Ok agg =>
  match AggregateStrategistCost store agentID start fin with
  | Fail err => (Fail (EWrap "economics.Settle: aggregate strategist cost: %w" err), [])
  | Ok llmCost =>
  match Attribute agentID start fin with
  | Fail err => (Fail (EWrap "economics.Settle: attribute costs: %w" err), [])
  | Ok (infra, rpc) =>
  match CarriedDebt store agentID with
  | Fail err => (Fail (EWrap "economics.Settle: carried debt: %w" err), [])
  | Ok debt =>
    let l := {| l_AgentID := agentID; l_EpochID := epochID;
                RealizedTradingPnL := PnL agg; TradingFees := Fees agg;
                SlippageCost := Slippage agg; LLMCost := llmCost;
                InfraRent := infra; RPCCost := rpc;
                UpstreamPaidToParent := 0; UpstreamPaidToRoot := 0;
                RealizedNetProfit := net_profit agg llmCost infra rpc debt |} in
    match InsertLedger store l with
    | Some err => (Fail (EWrap "economics.Settle: insert ledger: %w" err), [l])
    | None => (Ok l, [l])
    end
  end end end end end end end.

(** ** The attributor *)

Record MonthlyCostInputs := {
  MonthlyInfraUSD : float;
  MonthlyRPCUSD : float;
  MonthHours : float;
}.

Record ActivityCounts := { StrategistCalls : Z; MonitorTicks : Z }.

Record ActivityStore := {
  AgentActivity : string -> Time -> Time -> result ActivityCounts;
  SwarmActivity : Time -> Time -> result ActivityCounts;
}.

Record MonthlyAttributor := { ma_store : ActivityStore; ma_cfg : MonthlyCostInputs }.

Definition NewMonthlyAttributor (store : option ActivityStore) (cfg : MonthlyCostInputs)
    : result MonthlyAttributor :=
  match store with
  | None => Fail (EMsg "cost_attribution: nil store")
  | Some store =>
    if (MonthHours cfg <=? 0)%float then
      Fail (EMsg "cost_attribution: MonthHours must be > 0")
    else if ((MonthlyInfraUSD cfg <? 0)%float || (MonthlyRPCUSD cfg <? 0)%float) then
      Fail (EMsg "cost_attribution: negative monthly cost (infra=%v, rpc=%v)")
    else Ok {| ma_store := store; ma_cfg := cfg |}
  end.

Definition activity (c : ActivityCounts) : float :=
  float_of_int (wrap64 (StrategistCalls c + MonitorTicks c)).

Definition attribute (m : MonthlyAttributor) (agentID : string) (since until : Time)
    : result (float * float) :=
  if str_eqb agentID "" then Fail (EMsg "cost_attribution: agent_id required")
  else if negb (After until since) then Ok (0, 0)%float
  else
    let windowHours := Hours (Sub until since) in
    let frac := (windowHours / MonthHours (ma_cfg m))%float in
    let frac := if (frac <? 0)%float then 0%float else frac in
    let infraForWindow := (MonthlyInfraUSD (ma_cfg m) * frac)%float in
    let rpcForWindow := (MonthlyRPCUSD (ma_cfg m) * frac)%float in
    match AgentActivity (ma_store m) agentID since until with
    | Fail err => Fail (EWrap "cost_attribution: agent activity: %w" err)
    | Ok agent =>
    match SwarmActivity (ma_store m) since until with
    | Fail err => Fail (EWrap "cost_attribution: swarm activity: %w" err)
    | Ok swarm =>
      let denom := activity swarm in
      if (denom <=? 0)%float then Ok (0, 0)%float
      else
        let share := (activity agent / denom)%float in
        Ok ((infraForWindow * share)%float, (rpcForWindow * share)%float)
    end end.

Definition monthly_attributor (m : MonthlyAttributor) : CostAttributor :=
  {| Attribute := attribute m |}.

(** ** Properties of settlement *)

(** Everything [Settle] reads for an (agent, epoch). *)
Record settled (store : EconomicsStore) (costs : CostAttributor) (l : Ledger) : Prop := {
  st_ids : l_AgentID l <> "" /\ l_EpochID l <> "";
  st_window : exists start fin, EpochWindow store (l_EpochID l) = Ok (start, fin) /\
    start < fin /\
    AggregateStrategistCost store (l_AgentID l) start fin = Ok (LLMCost l) /\
    Attribute (l_AgentID l) start fin = Ok (InfraRent l, RPCCost l);
  st_trades : AggregateTrades store (l_AgentID l) (l_EpochID l) =
    Ok {| PnL := RealizedTradingPnL l; Fees := TradingFees l; Slippage := SlippageCost l |};
  st_net : exists debt, CarriedDebt store (l_AgentID l) = Ok debt /\
    RealizedNetProfit l = (RealizedTradingPnL l - TradingFees l - SlippageCost l
      - LLMCost l - InfraRent l - RPCCost l - debt)%float;
  st_upstream : UpstreamPaidToParent l = 0%float /\ UpstreamPaidToRoot l = 0%float;
}.

Lemma str_eqb_false s t : str_eqb s t = false -> s <> t.
Proof. unfold str_eqb. by rewrite bool_decide_eq_false. Qed.

(** Settlement writes at most one ledger row; the row is built from what
    the store and the attributor report for a window of positive length, and
    a settlement that fails wrote nothing unless the store refused the row. *)
Theorem Settle_spec store costs agentID epochID :
  let '(res, writes) := Settle (Some store) (Some costs) agentID epochID in
  match res with
  | Ok l => writes = [l] /\ InsertLedger store l = None /\
      l_AgentID l = agentID /\ l_EpochID l = epochID /\ settled store costs l
  | Fail err => writes = [] \/
      exists l e, writes = [l] /\ settled store costs l /\ InsertLedger store l = Some e /\
        err = EWrap "economics.Settle: insert ledger: %w" e
  end.
Proof.
  unfold Settle. destruct (_ || _) eqn:Eid; [by left|].
  apply orb_false_elim in Eid as [E1%str_eqb_false E2%str_eqb_false].
  destruct (EpochWindow store epochID) as [[start fin]|err] eqn:Ew; [|by left].
  destruct (After fin start) eqn:Ea; [|by left]. apply Z.ltb_lt in Ea. cbn [negb].
  destruct (AggregateTrades store agentID epochID) as [[p f s]|err] eqn:Et; [|by left].
  destruct (AggregateStrategistCost store agentID start fin) as [llm|err] eqn:El; [|by left].
  destruct (Attribute agentID start fin) as [[infra rpc]|err] eqn:Ec; [|by left].
  destruct (CarriedDebt store agentID) as [debt|err] eqn:Ed; [|by left].
  set (l := Build_Ledger _ _ _ _ _ _ _ _ _ _ _).
  assert (Hs : settled store costs l).
  { split; cbn; [done|by exists start, fin|done|by exists debt|done]. }
  destruct (InsertLedger store l) as [e|] eqn:Ei; [right|done]. by exists l, e.
Qed.

(** ** Properties of the attribution *)

Definition dollars (x : float) : Prop := is_fin x = true /\ 0 <= frank x.

(** [x] is between zero and [n] dollars. *)
Definition within (x n : float) : Prop := is_fin x = true /\ 0 <= frank x <= frank n.

Lemma prorate m f s : dollars m -> in_unit f = true -> in_unit s = true ->
  within (m * f * s)%float m.
Proof.
  intros [Hm Hm0] Hf Hs. pose proof (in_unit_fin _ Hf). pose proof (in_unit_fin _ Hs).
  apply in_unit_rank in Hf as [_ Hf], Hs as [_ Hs].
  destruct (fmul_unit f m) as [F1 R1]; [done..|]. rewrite fmul_comm in F1, R1.
  destruct (fmul_unit s (m * f)%float) as [F2 R2]; [done|done|lia|done|].
  rewrite fmul_comm in F2, R2. split; [done|lia].
Qed.

Lemma prorate_fin m f : dollars m -> in_unit f = true -> dollars (m * f)%float.
Proof.
  intros [Hm Hm0] Hf. pose proof (in_unit_fin _ Hf). apply in_unit_rank in Hf as [_ Hf].
  destruct (fmul_unit f m) as [F1 R1]; [done..|]. rewrite fmul_comm in F1, R1.
  split; [done|lia].
Qed.

Lemma mul_zero x y : dollars x -> is_fin y = true -> frank y = 0 -> frank (x * y)%float = 0.
Proof.
  intros [Hx Hx0] Hy Hy0. destruct (fmul_bounds x y Hx Hy Hx0 ltac:(lia)) as (_ & H0 & HK).
  specialize (HK 0%float eq_refl). rewrite frank_zero in HK. lia.
Qed.

(** The counts a window of activity reports: the agent's calls are among the
    swarm's. *)
Definition counts_ok (agent swarm : ActivityCounts) : Prop :=
  0 <= StrategistCalls agent <= StrategistCalls swarm /\
  0 <= MonitorTicks agent <= MonitorTicks swarm /\
  StrategistCalls swarm + MonitorTicks swarm < 2 ^ 53.

Lemma activity_exact c : 0 <= StrategistCalls c -> 0 <= MonitorTicks c ->
  StrategistCalls c + MonitorTicks c < 2 ^ 53 ->
  is_fin (activity c) = true /\
  frank (activity c) = (StrategistCalls c + MonitorTicks c) * 2 ^ 1074.
Proof.
  intros H1 H2 H3. unfold activity.
  assert (in_int64 (StrategistCalls c + MonitorTicks c))
    by (unfold in_int64, min_int64, max_int64; lia).
  rewrite wrap64_id by done. split; [by apply float_of_int_fin|apply float_of_int_exact; lia].
Qed.

(** Over a window no longer than the month, an attributor that was
    constructed charges an agent between nothing and the whole monthly bill,
    for the infra rent and for the RPC bill alike, and charges nothing to an
    agent that did nothing. *)
Theorem attribute_bounds store cfg m agentID since until agent swarm :
  NewMonthlyAttributor (Some store) cfg = Ok m ->
  is_fin (MonthHours cfg) = true ->
  is_fin (MonthlyInfraUSD cfg) = true -> is_fin (MonthlyRPCUSD cfg) = true ->
  agentID <> "" -> (Hours (Sub until since) <=? MonthHours cfg)%float = true ->
  AgentActivity store agentID since until = Ok agent ->
  SwarmActivity store since until = Ok swarm -> counts_ok agent swarm ->
  exists infra rpc, attribute m agentID since until = Ok (infra, rpc) /\
    within infra (MonthlyInfraUSD cfg) /\ within rpc (MonthlyRPCUSD cfg) /\
    (StrategistCalls agent + MonitorTicks agent = 0 -> frank infra = 0 /\ frank rpc = 0).
Proof.
  unfold NewMonthlyAttributor. intros Hnew HfH HfI HfR Hid Hw Hag Hsw (Hc1 & Hc2 & Hc3).
  destruct (MonthHours cfg <=? 0)%float eqn:EH; [done|].
  destruct (_ || _) eqn:EC; [done|]. apply orb_false_elim in EC as [EI ER].
  injection Hnew as <-. unfold attribute. cbn [ma_cfg ma_store].
  rewrite fleb_rank, frank_zero in EH by auto with float.
  rewrite fltb_rank, frank_zero in EI, ER by auto with float.
  assert (dollars (MonthlyInfraUSD cfg)) as DI by (split; [done|lia]).
  assert (dollars (MonthlyRPCUSD cfg)) as DR by (split; [done|lia]).
  assert (Hzero : forall x, dollars x -> within 0 x)
    by (intros x [? ?]; split; [done|rewrite frank_zero; lia]).
  unfold str_eqb. rewrite bool_decide_eq_false_2 by done.
  destruct (After until since) eqn:EA; cbn [negb].
  2: { exists 0%float, 0%float. auto. }
  apply Z.ltb_lt in EA. rewrite Hag, Hsw.
  destruct (activity_exact swarm) as [Fs Rs]; [lia..|].
  destruct (activity_exact agent) as [Fa Ra]; [lia..|].
  destruct (activity swarm <=? 0)%float eqn:Ed.
  { exists 0%float, 0%float. auto. }
  rewrite fleb_rank, frank_zero in Ed by auto with float.
  pose proof (pow2_pos 1074 ltac:(lia)) as Hp.
  assert (Hs : in_unit (activity agent / activity swarm)%float = true)
    by (apply fdiv_unit; [done|done|rewrite Ra, Rs; nia|lia]).
  assert (Hh : 0 <= Sub until since <= max_int64) by (unfold Sub, min_int64, max_int64; lia).
  destruct (Hours_nonneg _ Hh) as [Hhn Hh0].
  set (h := Hours (Sub until since)) in *.
  rewrite fleb_rank in Hw by auto with float. apply Z.leb_le in Hw.
  assert (Fh : is_fin h = true).
  { apply is_fin_rank. split; [done|]. apply is_fin_rank in HfH. lia. }
  assert (Hf : in_unit (h / MonthHours cfg)%float = true) by (apply fdiv_unit; (done || lia)).
  pose proof Hf as [Hfn Hfr]%in_unit_rank.
  rewrite (fltb_rank (h / _)%float), frank_zero by done.
  replace (frank (h / MonthHours cfg)%float <? 0) with false by lia.
  eexists _, _. split; [done|]. split; [by apply prorate|]. split; [by apply prorate|].
  intros Ez. rewrite Ez, Z.mul_0_l in Ra.
  assert (Hz : frank (activity agent / activity swarm)%float = 0).
  { apply in_unit_rank in Hs as [_ Hs].
    destruct (fdiv_bounds _ _ Fa Fs ltac:(lia) ltac:(lia)) as (_ & _ & HK).
    specialize (HK 0%float eq_refl). rewrite frank_zero, Ra in HK. lia. }
  split; apply mul_zero; auto using in_unit_fin; by apply prorate_fin.
Qed.

(** ** A concrete month *)

Definition sample_activity : ActivityStore := {|
  AgentActivity := fun _ _ _ => Ok {| StrategistCalls := 10; MonitorTicks := 90 |};
  SwarmActivity := fun _ _ => Ok {| StrategistCalls := 100; MonitorTicks := 300 |} |}.

Definition sample_costs : MonthlyCostInputs :=
  {| MonthlyInfraUSD := 80; MonthlyRPCUSD := 40; MonthHours := 720 |}.

Lemma attribute_bounds_witness :
  exists infra rpc,
    attribute {| ma_store := sample_activity; ma_cfg := sample_costs |} "a" 0 (72 * Hour)
      = Ok (infra, rpc) /\ within infra 80 /\ within rpc 40.
Proof.
  destruct (attribute_bounds sample_activity sample_costs
    {| ma_store := sample_activity; ma_cfg := sample_costs |} "a" 0 (72 * Hour)
    {| StrategistCalls := 10; MonitorTicks := 90 |}
    {| StrategistCalls := 100; MonitorTicks := 300 |}) as (i & r & H1 & H2 & H3 & _);
    [vm_compute; reflexivity|reflexivity|reflexivity|reflexivity|discriminate|vm_compute; reflexivity|reflexivity|reflexivity| |].
  - unfold counts_ok. cbn. lia.
  - exists i, r. exact (conj H1 (conj H2 H3)).
Defined.
