(* ===== verification/Budget.v ===== *)
(** * Monthly budget tracking ([internal/orchestrator/budget.go])

    The tracker's state carries one field the code does not have: [calls],
    the fallback hooks it invoked, with the clock reading of the refresh.  A
    hook is called through [actions], whose answer may depend on how many
    calls came before.  [Refresh] runs its critical sections in one piece:
    the program polls it from one goroutine. *)
From Stdlib Require Import ZArith Lia Floats.
From stdpp Require Import base list strings gmap sorting.
From S2P Require Import Prelude GoBase GoFloat GoRound.
Set Warnings "-inexact-float".
Open Scope Z_scope.

Inductive BudgetState := BudgetHealthy | BudgetTight | BudgetBreached.

#[export] Instance BudgetState_eq_dec : EqDecision BudgetState.
Proof. solve_decision. Defined.

Definition BudgetState_iota (s : BudgetState) : nat :=
  match s with BudgetHealthy => 0 | BudgetTight => 1 | BudgetBreached => 2 end%nat.

Definition BudgetState_of_iota (n : nat) : BudgetState :=
  match n with 0 => BudgetHealthy | 1 => BudgetTight | _ => BudgetBreached end%nat.

Lemma BudgetState_of_iota_iota s : BudgetState_of_iota (BudgetState_iota s) = s.
Proof. by destruct s. Qed.

#[export] Instance BudgetState_countable : Countable BudgetState :=
  inj_countable' BudgetState_iota BudgetState_of_iota BudgetState_of_iota_iota.

Definition BudgetState_String (s : BudgetState) : string :=
  match s with
  | BudgetHealthy => "healthy"
  | BudgetTight => "tight"
  | BudgetBreached => "breached"
  end.

Inductive hook :=
  | HalveStrategistFrequencies
  | DisableShadowStrategists
  | FreezeOffspringProposals.

#[export] Instance hook_eq_dec : EqDecision hook.
Proof. solve_decision. Defined.

Record BudgetConfig := {
  MonthlyBudgetUSD : float;
  TightThreshold : float;
  BreachedThreshold : float;
  RefreshInterval : Duration;
}.

Record BudgetTracker := {
  cfg : BudgetConfig;
  cachedState : BudgetState;
  cachedSpend : float;
  fireHistory : gmap BudgetState Time;
  calls : list (hook * Time);
}.

(** [hasStore] is [store != nil]. *)
Definition NewBudgetTracker (hasStore : bool) (c : BudgetConfig) : result BudgetTracker :=
  if negb hasStore then Fail (EMsg "budget: nil store")
  else
    let budget := if (MonthlyBudgetUSD c <=? 0)%float then 100%float else MonthlyBudgetUSD c in
    let tight := if (TightThreshold c <=? 0)%float then 0.80%float else TightThreshold c in
    let breached := if (BreachedThreshold c <=? 0)%float then 1.00%float else BreachedThreshold c in
    if (breached <=? tight)%float then
      Fail (EMsg "budget: tight threshold (%v) must be < breached (%v)")
    else
      let interval := if RefreshInterval c <=? 0 then 60 * Second else RefreshInterval c in
      Ok {| cfg := {| MonthlyBudgetUSD := budget; TightThreshold := tight;
                      BreachedThreshold := breached; RefreshInterval := interval |};
            cachedState := BudgetHealthy; cachedSpend := 0%float;
            fireHistory := ∅; calls := [] |}.

Definition classify (c : BudgetConfig) (spend : float) : BudgetState :=
  let tight := (MonthlyBudgetUSD c * TightThreshold c)%float in
  let breach := (MonthlyBudgetUSD c * BreachedThreshold c)%float in
  if (breach <=? spend)%float then BudgetBreached
  else if (tight <=? spend)%float then BudgetTight
  else BudgetHealthy.

Definition monthOf (t : Time) : Time :=
  let '(y, m) := year_month t in month_start y m.

Section Hooks.
(** The receiver of the hooks; [None] is a nil interface. *)
Context (actions : option (nat -> hook -> option gerror)).

Definition call (act : nat -> hook -> option gerror) (h : hook) (now : Time)
    (b : BudgetTracker) : option gerror * BudgetTracker :=
  (act (length (calls b)) h,
   {| cfg := cfg b; cachedState := cachedState b; cachedSpend := cachedSpend b;
      fireHistory := fireHistory b; calls := calls b ++ [(h, now)] |}).

Definition fireOnce (state : BudgetState) (now : Time) (b : BudgetTracker)
    : option gerror * BudgetTracker :=
  let fired := match fireHistory b !! state with
               | Some last => monthOf last =? monthOf now
               | None => false
               end in
  if fired then (None, b)
  else
    let b := {| cfg := cfg b; cachedState := cachedState b; cachedSpend := cachedSpend b;
                fireHistory := <[state := now]> (fireHistory b); calls := calls b |} in
    match actions with
    | None => (None, b)
    | Some act =>
      match state with
      | BudgetTight =>
          let '(err, b) := call act HalveStrategistFrequencies now b in
          match err with
          | Some e => (Some (EWrap "budget: halve frequencies: %w" e), b)
          | None =>
            let '(err, b) := call act DisableShadowStrategists now b in
            match err with
            | Some e => (Some (EWrap "budget: disable shadow: %w" e), b)
            | None => (None, b)
            end
          end
      | BudgetBreached =>
          let '(err, b) := call act FreezeOffspringProposals now b in
          match err with
          | Some e => (Some (EWrap "budget: freeze offspring: %w" e), b)
          | None => (None, b)
          end
      | BudgetHealthy => (None, b)
      end
    end.

(** One poll: the clock reading and what the store answers. *)
Definition Refresh (now : Time) (MonthlySpendUSD : result float) (b : BudgetTracker)
    : (BudgetState * option gerror) * BudgetTracker :=
  match MonthlySpendUSD with
  | Fail err => ((BudgetHealthy, Some (EWrap "budget.Refresh: %w" err)), b)
  | Ok spend =>
    let state := classify (cfg b) spend in
    let b := {| cfg := cfg b; cachedState := state; cachedSpend := spend;
                fireHistory := fireHistory b; calls := calls b |} in
    match state with
    | BudgetBreached =>
        let '(err, b) := fireOnce BudgetBreached now b in
        match err with
        | Some e => ((state, Some e), b)
        | None =>
          let '(err, b) := fireOnce BudgetTight now b in ((state, err), b)
        end
    | BudgetTight => let '(err, b) := fireOnce BudgetTight now b in ((state, err), b)
    | BudgetHealthy => ((state, None), b)
    end
  end.

(** [Run]: the immediate refresh and one per tick, with the errors handed
    to [onError]. *)
Fixpoint Run (polls : list (Time * result float)) (b : BudgetTracker)
    : list gerror * BudgetTracker :=
  match polls with
  | [] => ([], b)
  | (now, spend) :: polls' =>
      let '((_, err), b) := Refresh now spend b in
      let '(errs, b) := Run polls' b in
      (match err with Some e => e :: errs | None => errs end, b)
  end.

(** ** Hooks fire at most once a month *)

Definition hook_state (h : hook) : BudgetState :=
  match h with FreezeOffspringProposals => BudgetBreached | _ => BudgetTight end.

Definition call_month (c : hook * Time) : hook * (Z * Z) := (c.1, year_month c.2).

Record once_inv (clock : Time) (b : BudgetTracker) : Prop := {
  oi_once : NoDup (call_month <$> calls b);
  oi_last : forall h t, (h, t) ∈ calls b ->
    exists last, fireHistory b !! hook_state h = Some last /\ t <= last;
  oi_past : forall s last, fireHistory b !! s = Some last -> last <= clock;
}.

Lemma monthOf_year_month t u : monthOf t = monthOf u <-> year_month t = year_month u.
Proof.
  unfold monthOf. pose proof (year_month_range t) as Ht. pose proof (year_month_range u) as Hu.
  destruct (year_month t) as [y m], (year_month u) as [y' m']. cbn in *. split; [|congruence].
  intros E. rewrite <-(year_month_start y m), <-(year_month_start y' m') by done. by rewrite E.
Qed.

(** The calls in [b] of the hooks of [s] are all in months before [now]'s. *)
Definition unfired (s : BudgetState) (now : Time) (b : BudgetTracker) : Prop :=
  forall h t, (h, t) ∈ calls b -> hook_state h = s -> year_month t <> year_month now.

Lemma once_inv_unfired clock now s b :
  once_inv clock b -> clock <= now ->
  match fireHistory b !! s with Some last => monthOf last =? monthOf now | None => false end = false ->
  unfired s now b.
Proof.
  intros [_ Hl Hp] Hc Hf h t Hin Hs. destruct (Hl h t Hin) as (last & E & Hle).
  rewrite Hs in E. rewrite E in Hf. apply Z.eqb_neq in Hf. rewrite monthOf_year_month in Hf.
  intros Et. apply Hf. apply month_index_eq. specialize (Hp s last E).
  pose proof (month_index_mono t last Hle). pose proof (month_index_mono last now ltac:(lia)).
  assert (month_index t = month_index now) by (unfold month_index; by rewrite Et). lia.
Qed.

(** Recording a firing and then calling hooks of that state, each once. *)
Lemma once_inv_fire clock now s b hs :
  once_inv clock b -> clock <= now -> unfired s now b ->
  NoDup hs -> Forall (fun h => hook_state h = s) hs ->
  once_inv now {| cfg := cfg b; cachedState := cachedState b; cachedSpend := cachedSpend b;
                  fireHistory := <[s := now]> (fireHistory b);
                  calls := calls b ++ ((fun h => (h, now)) <$> hs) |}.
Proof.
  intros [Ho Hl Hp] Hc Hu Hnd Hhs. rewrite Forall_forall in Hhs. split; cbn.
  - rewrite fmap_app. apply NoDup_app. split; [done|]. split.
    + intros k Hk Hk'. apply list_elem_of_fmap in Hk as ([h t] & -> & Hin).
      rewrite <-list_fmap_compose in Hk'. apply list_elem_of_fmap in Hk' as (h' & E & Hh').
      apply pair_eq in E as [Eh Et]. cbn [fst snd] in Eh, Et. subst h.
      exact (Hu h' t Hin (Hhs _ Hh') Et).
    + rewrite <-list_fmap_compose. apply NoDup_fmap_2_strong; [|done].
      intros x y _ _ E. apply pair_eq in E as [E _]. exact E.
  - intros h t [Hin|Hin]%elem_of_app.
    + destruct (Hl h t Hin) as (last & E & Hle). destruct (decide (s = hook_state h)) as [->|Hne].
      * exists now. rewrite lookup_insert_eq. split; [done|]. specialize (Hp _ _ E). lia.
      * exists last. by rewrite lookup_insert_ne.
    + apply list_elem_of_fmap in Hin as (h' & [= -> ->] & Hh').
      exists now. rewrite (Hhs _ Hh'), lookup_insert_eq. done.
  - intros s' last. destruct (decide (s = s')) as [->|Hne].
    + rewrite lookup_insert_eq. intros [= <-]. lia.
    + rewrite lookup_insert_ne by done. intros E. specialize (Hp _ _ E). lia.
Qed.

Lemma once_inv_clock clock now b : once_inv clock b -> clock <= now -> once_inv now b.
Proof. intros [Ho Hl Hp] Hc. split; [done|done|]. intros s l E. specialize (Hp s l E). lia. Qed.

(** The hooks one firing calls. *)
Lemma fireOnce_calls s now b :
  (fireOnce s now b).2 = b \/
  (match fireHistory b !! s with Some last => monthOf last =? monthOf now | None => false end = false /\
   exists hs, NoDup hs /\ Forall (fun h => hook_state h = s) hs /\
    (fireOnce s now b).2 = {| cfg := cfg b; cachedState := cachedState b;
       cachedSpend := cachedSpend b; fireHistory := <[s := now]> (fireHistory b);
       calls := calls b ++ ((fun h => (h, now)) <$> hs) |}).
Proof.
  unfold fireOnce. destruct (match fireHistory b !! s with Some _ => _ | None => _ end);
    [by left|right]. split; [done|].
  destruct actions as [act|]; [destruct s|]; cbn.
  - exists []. split; [constructor|]. split; [constructor|by rewrite app_nil_r].
  - destruct (act _ HalveStrategistFrequencies).
    + exists [HalveStrategistFrequencies].
      split; [apply NoDup_singleton|]. split; [by repeat constructor|done].
    + exists [HalveStrategistFrequencies; DisableShadowStrategists].
      split; [by apply (bool_decide_eq_true_1 _)|]. split; [by repeat constructor|].
      destruct (act _ DisableShadowStrategists); cbn; by rewrite <-app_assoc.
  - exists [FreezeOffspringProposals].
    split; [apply NoDup_singleton|]. split; [by repeat constructor|].
    by destruct (act _ FreezeOffspringProposals).
  - exists []. split; [constructor|]. split; [constructor|by rewrite app_nil_r].
Qed.

Lemma fireOnce_once clock now s b :
  once_inv clock b -> clock <= now -> once_inv now (fireOnce s now b).2.
Proof.
  intros Hi Hc. destruct (fireOnce_calls s now b) as [->|(Hf & hs & Hnd & Hhs & ->)].
  - by eapply once_inv_clock.
  - eapply once_inv_fire; eauto using once_inv_unfired.
Qed.

Definition set_cached (b : BudgetTracker) (st : BudgetState) (sp : float) : BudgetTracker :=
  {| cfg := cfg b; cachedState := st; cachedSpend := sp;
     fireHistory := fireHistory b; calls := calls b |}.

Lemma set_cached_once clock b st sp : once_inv clock b -> once_inv clock (set_cached b st sp).
Proof. intros []. by split. Qed.

Lemma Refresh_once clock now spend b :
  once_inv clock b -> clock <= now -> once_inv now (Refresh now spend b).2.
Proof.
  intros Hi Hc. unfold Refresh. destruct spend as [x|e]; [|by eapply once_inv_clock].
  fold (set_cached b (classify (cfg b) x) x).
  pose proof (set_cached_once clock b (classify (cfg b) x) x Hi) as Hi'.
  set (b0 := set_cached _ _ _) in *. destruct (classify (cfg b) x).
  - by eapply once_inv_clock.
  - pose proof (fireOnce_once clock now BudgetTight b0 Hi' Hc) as H.
    by destruct (fireOnce BudgetTight now b0).
  - pose proof (fireOnce_once clock now BudgetBreached b0 Hi' Hc) as H.
    destruct (fireOnce BudgetBreached now b0) as [[e|] b1]; [done|].
    pose proof (fireOnce_once now now BudgetTight b1 H ltac:(lia)) as H'.
    by destruct (fireOnce BudgetTight now b1).
Qed.

(** The clock never runs backwards along the polls. *)
Definition clock_monotone (polls : list (Time * result float)) : Prop :=
  StronglySorted Z.le (polls.*1).

Lemma Run_once polls : forall clock b,
  once_inv clock b -> Forall (fun p => clock <= p.1) polls -> clock_monotone polls ->
  exists clock', once_inv clock' (Run polls b).2.
Proof.
  induction polls as [|[now spend] polls IH]; intros clock b Hi Hall Hs; cbn [Run].
  { by exists clock. }
  apply Forall_cons in Hall as [Hc _]. apply StronglySorted_inv in Hs as [Hs Hnow].
  pose proof (Refresh_once clock now spend b Hi Hc) as Hr.
  destruct (Refresh now spend b) as [[st err] b']. cbn [snd] in Hr.
  destruct (IH now b' Hr) as [c' Hc']; [exact (proj1 (Forall_fmap _ _ _) Hnow)|done|].
  exists c'. by destruct (Run polls b').
Qed.

(** C26: however often the tracker polls, whatever the store answers and
    whichever hooks fail, each fallback hook is called at most once in any
    calendar month, as long as the clock does not run backwards. *)
Theorem Run_fires_once ok c b polls :
  NewBudgetTracker ok c = Ok b -> clock_monotone polls ->
  NoDup (call_month <$> calls (Run polls b).2).
Proof.
  intros Hn Hs.
  assert (Hb : fireHistory b = ∅ /\ calls b = []).
  { unfold NewBudgetTracker in Hn. destruct (negb ok); [done|].
    destruct ((if (BreachedThreshold c <=? 0)%float then _ else _) <=? _)%float; [done|].
    by injection Hn as <-. }
  destruct Hb as [Hf Hc].
  destruct polls as [|[t0 sp] polls]; [cbn; rewrite Hc; constructor|].
  destruct (Run_once ((t0, sp) :: polls) t0 b) as [clock' [Ho _ _]]; [|..|done].
  - split; rewrite ?Hf, ?Hc.
    + constructor.
    + intros h t H. by apply not_elem_of_nil in H.
    + intros s last H. by rewrite lookup_empty in H.
  - constructor; [cbn; lia|]. apply StronglySorted_inv in Hs as [_ Hs].
    exact (proj1 (Forall_fmap _ _ _) Hs).
  - done.
Qed.
End Hooks.

(** ** The fallback is in force *)

Section Enforced.
Context (act : nat -> hook -> option gerror).

Definition never_fails : Prop := forall n h, act n h = None.

(** A recorded firing called every hook of its state. *)
Definition fired_inv (b : BudgetTracker) : Prop :=
  forall s last, fireHistory b !! s = Some last ->
  forall h, hook_state h = s -> (h, last) ∈ calls b.

(** The hooks of [s] were called in the month of [now]. *)
Definition in_force (s : BudgetState) (now : Time) (b : BudgetTracker) : Prop :=
  forall h, hook_state h = s -> exists t, (h, t) ∈ calls b /\ year_month t = year_month now.

Definition state_hooks (s : BudgetState) : list hook :=
  match s with
  | BudgetHealthy => []
  | BudgetTight => [HalveStrategistFrequencies; DisableShadowStrategists]
  | BudgetBreached => [FreezeOffspringProposals]
  end.

Lemma state_hooks_spec h : h ∈ state_hooks (hook_state h).
Proof. destruct h; repeat constructor. Qed.

Lemma fireOnce_ok s now b :
  never_fails ->
  match fireHistory b !! s with Some last => monthOf last =? monthOf now | None => false end = false ->
  fireOnce (Some act) s now b =
    (None, {| cfg := cfg b; cachedState := cachedState b; cachedSpend := cachedSpend b;
              fireHistory := <[s := now]> (fireHistory b);
              calls := calls b ++ ((fun h => (h, now)) <$> state_hooks s) |}).
Proof.
  intros Hact Hf. unfold fireOnce. rewrite Hf.
  destruct s; cbn; rewrite ?Hact, ?app_nil_r, <-?app_assoc; done.
Qed.

Lemma fireOnce_enforces s now b :
  never_fails -> fired_inv b ->
  let '(err, b') := fireOnce (Some act) s now b in
  err = None /\ fired_inv b' /\ in_force s now b' /\ cfg b' = cfg b /\
  cachedState b' = cachedState b /\ (forall c, c ∈ calls b -> c ∈ calls b').
Proof.
  intros Hact Hi.
  destruct (match fireHistory b !! s with
            | Some last => monthOf last =? monthOf now | None => false end) eqn:Ef.
  - unfold fireOnce. rewrite Ef. destruct (fireHistory b !! s) as [last|] eqn:El; [|done].
    apply Z.eqb_eq, monthOf_year_month in Ef. repeat split; [done| |done].
    intros h Hh. exists last. split; [by apply (Hi s)|done].
  - rewrite (fireOnce_ok s now b Hact Ef). split; [done|].
    assert (Hnew : forall h, hook_state h = s ->
      (h, now) ∈ calls b ++ ((fun h => (h, now)) <$> state_hooks s)).
    { intros h <-. apply elem_of_app. right. apply list_elem_of_fmap.
      exists h. split; [done|apply state_hooks_spec]. }
    split; [|split; [|repeat split]]; try done.
    + intros s' last. cbn. destruct (decide (s = s')) as [<-|Hne].
      * rewrite lookup_insert_eq. intros [= <-]. exact Hnew.
      * rewrite lookup_insert_ne by done. intros Hl h Hh. apply elem_of_app. left.
        by apply (Hi s' last).
    + intros h Hh. exists now. split; [by apply Hnew|done].
    + intros c Hc. apply elem_of_app. by left.
Qed.

Lemma Refresh_fired now spend b :
  never_fails -> fired_inv b ->
  let '((st, err), b') := Refresh (Some act) now spend b in
  fired_inv b' /\ cfg b' = cfg b /\
  match spend with
  | Fail _ => b' = b
  | Ok x => err = None /\ st = classify (cfg b) x /\ cachedState b' = st /\
      (st <> BudgetHealthy -> in_force BudgetTight now b') /\
      (st = BudgetBreached -> in_force BudgetBreached now b')
  end.
Proof.
  intros Hact Hi. unfold Refresh. destruct spend as [x|e]; [|done].
  fold (set_cached b (classify (cfg b) x) x).
  assert (Hi0 : fired_inv (set_cached b (classify (cfg b) x) x)) by done.
  set (b0 := set_cached _ _ _) in *.
  assert (Ec : cachedState b0 = classify (cfg b) x) by done.
  destruct (classify (cfg b) x) eqn:Est.
  - split; [done|]. split; [done|]. repeat split; try done.
  - pose proof (fireOnce_enforces BudgetTight now b0 Hact Hi0) as H.
    destruct (fireOnce _ BudgetTight now b0) as [err b1].
    destruct H as (-> & H1 & H2 & H3 & H4 & _). rewrite H4. done.
  - pose proof (fireOnce_enforces BudgetBreached now b0 Hact Hi0) as H.
    destruct (fireOnce _ BudgetBreached now b0) as [err b1].
    destruct H as (-> & H1 & H2 & H3 & H4 & _).
    pose proof (fireOnce_enforces BudgetTight now b1 Hact H1) as H'.
    destruct (fireOnce _ BudgetTight now b1) as [err b2].
    destruct H' as (-> & I1 & I2 & I3 & I4 & I5).
    split; [done|]. split; [by rewrite I3, H3|]. split; [done|]. split; [done|].
    split; [by rewrite I4, H4|]. split; [done|]. intros _ h Hh.
    destruct (H2 h Hh) as (t & Ht & Hm). exists t. split; [by apply I5|done].
Qed.

Lemma Run_fired polls : forall b, never_fails -> fired_inv b ->
  fired_inv (Run (Some act) polls b).2 /\ cfg (Run (Some act) polls b).2 = cfg b.
Proof.
  induction polls as [|[now spend] polls IH]; intros b Hact Hi; cbn [Run]; [done|].
  pose proof (Refresh_fired now spend b Hact Hi) as H.
  destruct (Refresh (Some act) now spend b) as [[st err] b'].
  destruct H as (H1 & H2 & _). destruct (IH b' Hact H1) as [I1 I2].
  destruct (Run (Some act) polls b') as [errs b'']. cbn in *. by rewrite I2, H2.
Qed.

(** When the hooks work, a refresh that reads the spend caches its
    classification and leaves every fallback the classification asks for
    in force for the current month: both tight hooks at or above the tight
    threshold, the offspring freeze as well at or above the breach. *)
Theorem Refresh_enforces ok c b polls now spend :
  never_fails -> NewBudgetTracker ok c = Ok b ->
  let '((st, err), b') := Refresh (Some act) now (Ok spend) (Run (Some act) polls b).2 in
  err = None /\ st = classify (cfg b) spend /\ cachedState b' = st /\
  (st <> BudgetHealthy -> in_force BudgetTight now b') /\
  (st = BudgetBreached -> in_force BudgetBreached now b').
Proof.
  intros Hact Hn.
  assert (Hf : fired_inv b).
  { unfold NewBudgetTracker in Hn. destruct (negb ok); [done|].
    destruct ((if (BreachedThreshold c <=? 0)%float then _ else _) <=? _)%float; [done|].
    injection Hn as <-. intros s last H. cbn in H. by rewrite lookup_empty in H. }
  destruct (Run_fired polls b Hact Hf) as [H1 H2].
  pose proof (Refresh_fired now (Ok spend) _ Hact H1) as H.
  destruct (Refresh _ now (Ok spend) _) as [[st err] b']. rewrite <-H2. by destruct H as (_ & _ & H).
Qed.
End Enforced.

(** ** Concrete months *)

Definition sample_config : BudgetConfig :=
  {| MonthlyBudgetUSD := 100; TightThreshold := 0; BreachedThreshold := 0; RefreshInterval := 0 |}.

Definition fresh : BudgetTracker := {|
  cfg := {| MonthlyBudgetUSD := 100; TightThreshold := 0.80; BreachedThreshold := 1;
            RefreshInterval := 60 * Second |};
  cachedState := BudgetHealthy; cachedSpend := 0; fireHistory := ∅; calls := [] |}.

(** The spend oscillates around the thresholds within January of year 1, and
    is tight again in February. *)
Definition sample_polls : list (Time * result float) :=
  [(1 * day_ns, Ok 50%float); (2 * day_ns, Ok 85%float); (3 * day_ns, Ok 60%float);
   (4 * day_ns, Ok 120%float); (5 * day_ns, Ok 85%float); (40 * day_ns, Ok 90%float)].

Definition no_failures : nat -> hook -> option gerror := fun _ _ => None.

Lemma sample_polls_monotone : clock_monotone sample_polls.
Proof. repeat constructor; vm_compute; discriminate. Qed.

Lemma Run_fires_once_witness :
  NoDup (call_month <$> calls (Run (Some no_failures) sample_polls fresh).2).
Proof.
  apply (Run_fires_once (Some no_failures) true sample_config fresh sample_polls);
    [reflexivity|apply sample_polls_monotone].
Defined.

Lemma Refresh_enforces_witness :
  let '((st, err), b') :=
    Refresh (Some no_failures) (41 * day_ns) (Ok 130%float) (Run (Some no_failures) sample_polls fresh).2 in
  st = classify (cfg fresh) 130 /\ (st = BudgetBreached -> in_force BudgetBreached (41 * day_ns) b').
Proof.
  pose proof (Refresh_enforces no_failures true sample_config fresh sample_polls (41 * day_ns) 130
    (fun _ _ => eq_refl) eq_refl) as H.
  destruct (Refresh _ _ _ _) as [[st err] b']. destruct H as (_ & H1 & _ & _ & H2).
  exact (conj H1 H2).
Defined.

(** The firing is recorded before the hooks run: a hook that fails once is
    not tried again that month, and the hook after it is never called. *)
Definition first_call_fails : nat -> hook -> option gerror :=
  fun n _ => if (n =? 0)%nat then Some (EMsg "unavailable") else None.

Lemma failed_hook_not_retried :
  (calls (Run (Some first_call_fails)
    [(2 * day_ns, Ok 85%float); (3 * day_ns, Ok 90%float); (4 * day_ns, Ok 95%float)] fresh).2).*1
  = [HalveStrategistFrequencies].
Proof. vm_compute. reflexivity. Qed.
