(* ===== verification/LifecyclePolicy.v ===== *)
(** * The deterministic lifecycle policy
    ([internal/orchestrator/kill_pause.go])

    A pure function from agent snapshots to kill, pause and resume actions. *)
From Stdlib Require Import ZArith Lia Floats.
From stdpp Require Import base list strings.
From S2P Require Import Prelude GoBase GoFloat.
Set Warnings "-inexact-float".
Open Scope Z_scope.

Inductive LifecycleActionKind := ActionKill | ActionPause | ActionResume.

#[export] Instance LifecycleActionKind_eq_dec : EqDecision LifecycleActionKind.
Proof. solve_decision. Defined.

Definition kind_string (k : LifecycleActionKind) : string :=
  match k with ActionKill => "kill" | ActionPause => "pause" | ActionResume => "resume" end.

Record LifecycleAction := {
  a_AgentID : string;
  Kind : LifecycleActionKind;
  a_Reason : string;
}.

Record AgentSnapshot := {
  s_AgentID : string;
  Status : string;
  BalanceUSD : float;
  Drawdown : float;
  ConsecutiveLosingEpochs : Z;
  OperatingDebtUSD : float;
  LastHeartbeat : Time;
  LastStrategistVerdict : string;
  NetProfitWindowUSD : float;
  NodeClass : string;
}.

Record LifecyclePolicyConfig := {
  MinBalanceUSD : float;
  MaxDrawdownFraction : float;
  MaxConsecutiveLosingEpochs : Z;
  MaxOperatingDebtUSD : float;
  HeartbeatGracePeriod : Duration;
  WeakNetProfitThresholdUSD : float;
}.

Definition DefaultLifecyclePolicyConfig : LifecyclePolicyConfig := {|
  MinBalanceUSD := 1.0;
  MaxDrawdownFraction := 0.40;
  MaxConsecutiveLosingEpochs := 5;
  MaxOperatingDebtUSD := 5.0;
  HeartbeatGracePeriod := 10 * Minute;
  WeakNetProfitThresholdUSD := 0.10;
|}.

Definition or_default (v d : float) : float := if (v =? 0)%float then d else v.

Definition applyDefaults (cfg : LifecyclePolicyConfig) : LifecyclePolicyConfig :=
  let d := DefaultLifecyclePolicyConfig in {|
    MinBalanceUSD := or_default (MinBalanceUSD cfg) (MinBalanceUSD d);
    MaxDrawdownFraction := or_default (MaxDrawdownFraction cfg) (MaxDrawdownFraction d);
    MaxConsecutiveLosingEpochs :=
      if MaxConsecutiveLosingEpochs cfg =? 0 then MaxConsecutiveLosingEpochs d
      else MaxConsecutiveLosingEpochs cfg;
    MaxOperatingDebtUSD := or_default (MaxOperatingDebtUSD cfg) (MaxOperatingDebtUSD d);
    HeartbeatGracePeriod :=
      if HeartbeatGracePeriod cfg =? 0 then HeartbeatGracePeriod d else HeartbeatGracePeriod cfg;
    WeakNetProfitThresholdUSD :=
      or_default (WeakNetProfitThresholdUSD cfg) (WeakNetProfitThresholdUSD d);
  |}.

Definition killReason (now : Time) (cfg : LifecyclePolicyConfig) (s : AgentSnapshot)
    : option string :=
  if (BalanceUSD s <? MinBalanceUSD cfg)%float then Some "balance_below_minimum"
  else if (MaxDrawdownFraction cfg <=? Drawdown s)%float then Some "max_drawdown_exceeded"
  else if MaxConsecutiveLosingEpochs cfg <=? ConsecutiveLosingEpochs s then
    Some "consecutive_losing_epochs"
  else if (MaxOperatingDebtUSD cfg <? OperatingDebtUSD s)%float then
    Some "operating_debt_exceeded"
  else if negb (IsZero (LastHeartbeat s)) &&
          (HeartbeatGracePeriod cfg <? Sub now (LastHeartbeat s)) then
    Some "heartbeat_missing"
  else None.

Definition pauseReason (cfg : LifecyclePolicyConfig) (s : AgentSnapshot) (budgetTight : bool)
    : option string :=
  let shadow := str_eqb (NodeClass s) "shadow" in
  if str_eqb (LastStrategistVerdict s) "pause" then Some "strategy_regime_mismatch"
  else if str_eqb (LastStrategistVerdict s) "defensive" && shadow then
    Some "strategy_defensive"
  else if budgetTight && shadow then Some "budget_tight"
  else if (0 <? BalanceUSD s)%float
          && (NetProfitWindowUSD s <? WeakNetProfitThresholdUSD cfg)%float then
    Some "solvent_but_weak"
  else None.

Definition action (s : AgentSnapshot) (k : LifecycleActionKind) (reason : string)
    : LifecycleAction := {| a_AgentID := s_AgentID s; Kind := k; a_Reason := reason |}.

(** One iteration of the loop over the snapshots: what it appends. *)
Definition evaluate (now : Time) (cfg : LifecyclePolicyConfig) (budgetTight : bool)
    (s : AgentSnapshot) : list LifecycleAction :=
  if str_eqb (Status s) "dead" then []
  else
    match killReason now cfg s with
    | Some reason => [action s ActionKill reason]
    | None =>
      match pauseReason cfg s budgetTight with
      | Some reason =>
          if str_eqb (Status s) "paused" then [] else [action s ActionPause reason]
      | None =>
          if str_eqb (Status s) "paused" then [action s ActionResume "policy_healthy"] else []
      end
    end.

Fixpoint policy_loop (now : Time) (cfg : LifecyclePolicyConfig) (budgetTight : bool)
    (snapshots : list AgentSnapshot) (actions : list LifecycleAction) : list LifecycleAction :=
  match snapshots with
  | [] => actions
  | s :: rest =>
      policy_loop now cfg budgetTight rest (actions ++ evaluate now cfg budgetTight s)
  end.

Definition DeterministicLifecyclePolicy (now : Time) (cfg : LifecyclePolicyConfig)
    (snapshots : list AgentSnapshot) (budgetTight : bool) : list LifecycleAction :=
  policy_loop now (applyDefaults cfg) budgetTight snapshots [].

(** ** What a snapshot deserves *)

Inductive verdict := VDead | VKill (reason : string) | VPause (reason : string) | VHealthy.

(** Dead agents are left alone; kill takes precedence over pause, pause over
    staying live. *)
Definition verdict_of (now : Time) (cfg : LifecyclePolicyConfig) (budgetTight : bool)
    (s : AgentSnapshot) : verdict :=
  if str_eqb (Status s) "dead" then VDead
  else match killReason now cfg s, pauseReason cfg s budgetTight with
       | Some r, _ => VKill r
       | None, Some r => VPause r
       | None, None => VHealthy
       end.

(** The action a verdict asks for, if the agent is not there already. *)
Definition due (s : AgentSnapshot) (v : verdict) : option LifecycleAction :=
  match v with
  | VDead => None
  | VKill r => Some (action s ActionKill r)
  | VPause r => if str_eqb (Status s) "paused" then None else Some (action s ActionPause r)
  | VHealthy =>
      if str_eqb (Status s) "paused" then Some (action s ActionResume "policy_healthy") else None
  end.

Lemma evaluate_due now cfg bt s :
  evaluate now cfg bt s = option_list (due s (verdict_of now cfg bt s)).
Proof.
  unfold evaluate, verdict_of, due. destruct (str_eqb (Status s) "dead"); [done|].
  destruct (killReason now cfg s); [done|].
  destruct (pauseReason cfg s bt); by destruct (str_eqb (Status s) "paused").
Qed.

Lemma policy_loop_app now cfg bt snaps : forall acc,
  policy_loop now cfg bt snaps acc = acc ++ (snaps ≫= evaluate now cfg bt).
Proof.
  induction snaps as [|s snaps IH]; intros acc; cbn; [by rewrite app_nil_r|].
  by rewrite IH, <-app_assoc.
Qed.

Lemma policy_due now cfg snaps bt :
  DeterministicLifecyclePolicy now cfg snaps bt =
    omap (fun s => due s (verdict_of now (applyDefaults cfg) bt s)) snaps.
Proof.
  unfold DeterministicLifecyclePolicy. rewrite policy_loop_app. cbn.
  induction snaps as [|s snaps IH]; [done|]. cbn. rewrite evaluate_due, IH.
  by destruct (due _ _).
Qed.

(** The limits whose breach kills. *)
Definition must_die (now : Time) (cfg : LifecyclePolicyConfig) (s : AgentSnapshot) : Prop :=
  (BalanceUSD s <? MinBalanceUSD cfg)%float = true \/
  (MaxDrawdownFraction cfg <=? Drawdown s)%float = true \/
  MaxConsecutiveLosingEpochs cfg <= ConsecutiveLosingEpochs s \/
  (MaxOperatingDebtUSD cfg <? OperatingDebtUSD s)%float = true \/
  (LastHeartbeat s <> zero_time /\ HeartbeatGracePeriod cfg < Sub now (LastHeartbeat s)).

(** The conditions that pause. *)
Definition must_rest (cfg : LifecyclePolicyConfig) (bt : bool) (s : AgentSnapshot) : Prop :=
  LastStrategistVerdict s = "pause" \/
  (NodeClass s = "shadow" /\ (LastStrategistVerdict s = "defensive" \/ bt = true)) \/
  ((0 <? BalanceUSD s)%float = true /\
   (NetProfitWindowUSD s <? WeakNetProfitThresholdUSD cfg)%float = true).

Lemma str_eqb_true s t : str_eqb s t = true <-> s = t.
Proof. apply bool_decide_eq_true. Qed.

Lemma killReason_iff now cfg s : is_Some (killReason now cfg s) <-> must_die now cfg s.
Proof.
  unfold killReason, must_die, IsZero, zero_time.
  destruct (_ <? MinBalanceUSD cfg)%float; [split; [by left|eauto]|].
  destruct (_ <=? Drawdown s)%float; [split; [by right; left|eauto]|].
  destruct (Z.leb_spec (MaxConsecutiveLosingEpochs cfg) (ConsecutiveLosingEpochs s));
    [split; [by right; right; left|eauto]|].
  destruct (_ <? OperatingDebtUSD s)%float; [split; [by do 3 right; left|eauto]|].
  destruct (negb _ && _) eqn:E.
  - split; [|eauto]. intros _. do 4 right. lia.
  - split; [by intros [??]|]. intros [H1|[H1|[H1|[H1|H1]]]]; (done || lia).
Qed.

Lemma pauseReason_iff cfg s bt : is_Some (pauseReason cfg s bt) <-> must_rest cfg bt s.
Proof.
  unfold pauseReason, must_rest. rewrite <-!str_eqb_true.
  destruct (str_eqb (LastStrategistVerdict s) "pause"); [split; [by left|eauto]|].
  destruct (str_eqb (LastStrategistVerdict s) "defensive"), (str_eqb (NodeClass s) "shadow"), bt,
    (0 <? BalanceUSD s)%float, (_ <? WeakNetProfitThresholdUSD cfg)%float; cbn [andb];
    (split; [intros [r Hr]; try discriminate Hr; tauto|]);
    intros H; first [by eexists | exfalso; intuition discriminate].
Qed.

Lemma due_agent s v a : due s v = Some a -> a_AgentID a = s_AgentID s.
Proof.
  destruct v; cbn; [done|by intros [= <-]|..];
    destruct (str_eqb (Status s) "paused"); (done || by intros [= <-]).
Qed.

Definition decided (now : Time) (c : LifecyclePolicyConfig) (bt : bool) (s : AgentSnapshot)
    (k : LifecycleActionKind) : Prop :=
  Status s <> "dead" /\
  match k with
  | ActionKill => must_die now c s
  | ActionPause => ~ must_die now c s /\ must_rest c bt s /\ Status s <> "paused"
  | ActionResume => ~ must_die now c s /\ ~ must_rest c bt s /\ Status s = "paused"
  end.

Lemma due_decided now c bt s k :
  (exists a, due s (verdict_of now c bt s) = Some a /\ Kind a = k) <-> decided now c bt s k.
Proof.
  assert (Hn : ~ is_Some (@None string)) by (by intros [??]).
  assert (Hs : forall x : string, is_Some (Some x)) by eauto.
  assert (Hno : forall k, (exists a : LifecycleAction, None = Some a /\ Kind a = k) <-> False)
    by (intros k'; split; [intros (a & [=] & _)|done]).
  assert (Hyes : forall b k, (exists a, Some b = Some a /\ Kind a = k) <-> Kind b = k).
  { intros b k'. split; [by intros (a & [= <-] & ?)|intros; by exists b]. }
  unfold decided, verdict_of.
  destruct (str_eqb (Status s) "dead") eqn:Ed; cbn [due].
  { apply str_eqb_true in Ed. split; [by intros (a & [=] & _)|by intros [? _]]. }
  assert (Status s <> "dead") by (rewrite <-str_eqb_true; congruence).
  pose proof (str_eqb_true (Status s) "paused") as Hp.
  pose proof (killReason_iff now c s) as Hk. pose proof (pauseReason_iff c s bt) as Hr.
  destruct (killReason now c s) as [r|]; cbn [due].
  { assert (must_die now c s) by (apply Hk; eauto).
    rewrite Hyes. cbn. clear Hk Hr. destruct k; intuition discriminate. }
  assert (~ must_die now c s) by (by rewrite <-Hk).
  destruct (pauseReason c s bt) as [r|].
  - assert (must_rest c bt s) by (apply Hr; eauto). clear Hk Hr. cbn [due].
    destruct (str_eqb (Status s) "paused"); rewrite ?Hyes, ?Hno; cbn; clear Hyes Hno; destruct k;
      intuition (discriminate || eauto).
  - assert (~ must_rest c bt s) by (by rewrite <-Hr). clear Hk Hr. cbn [due].
    destruct (str_eqb (Status s) "paused"); rewrite ?Hyes, ?Hno; cbn; clear Hyes Hno; destruct k;
      intuition (discriminate || eauto).
Qed.

(** C20: an agent is killed exactly when it is not dead and breaches one of
    the limits; paused exactly when it is live, breaches none and has a
    reason to rest; resumed exactly when it is paused with neither. *)
Theorem policy_decides now cfg snaps bt id k :
  let c := applyDefaults cfg in
  (exists a, a ∈ DeterministicLifecyclePolicy now cfg snaps bt /\ a_AgentID a = id /\ Kind a = k) <->
  (exists s, s ∈ snaps /\ s_AgentID s = id /\ decided now c bt s k).
Proof.
  intros c. rewrite policy_due. fold c. split.
  - intros (a & Ha & Hid & Hk). apply list_elem_of_omap in Ha as (s & Hs & Ha).
    exists s. rewrite <-(due_agent _ _ _ Ha). split; [done|]. split; [done|].
    apply due_decided. by exists a.
  - intros (s & Hs & Hid & Hd). apply due_decided in Hd as (a & Ha & Hk).
    exists a. rewrite (due_agent _ _ _ Ha). split; [|done].
    apply list_elem_of_omap. by exists s.
Qed.

(** ** Executing the actions *)

Definition set_status (s : AgentSnapshot) (st : string) : AgentSnapshot := {|
  s_AgentID := s_AgentID s; Status := st; BalanceUSD := BalanceUSD s;
  Drawdown := Drawdown s; ConsecutiveLosingEpochs := ConsecutiveLosingEpochs s;
  OperatingDebtUSD := OperatingDebtUSD s; LastHeartbeat := LastHeartbeat s;
  LastStrategistVerdict := LastStrategistVerdict s;
  NetProfitWindowUSD := NetProfitWindowUSD s; NodeClass := NodeClass s |}.

(** The status the lifecycle manager writes for an action. *)
Definition status_after (k : LifecycleActionKind) : string :=
  match k with ActionKill => "dead" | ActionPause => "paused" | ActionResume => "active" end.

Definition execute (actions : list LifecycleAction) (s : AgentSnapshot) : AgentSnapshot :=
  match List.find (fun a => str_eqb (a_AgentID a) (s_AgentID s)) actions with
  | Some a => set_status s (status_after (Kind a))
  | None => s
  end.

Lemma str_eqb_refl s : str_eqb s s = true.
Proof. by apply bool_decide_eq_true_2. Qed.

(** The executed action of an agent is its own. *)
Lemma find_due snaps f s :
  NoDup (s_AgentID <$> snaps) -> s ∈ snaps ->
  (forall x a, f x = Some a -> a_AgentID a = s_AgentID x) ->
  List.find (fun a => str_eqb (a_AgentID a) (s_AgentID s)) (omap f snaps) = f s.
Proof.
  intros Hnd Hs Hf. induction snaps as [|x snaps IH]; [by apply not_elem_of_nil in Hs|].
  rewrite fmap_cons in Hnd. apply NoDup_cons in Hnd as [Hx Hnd]. cbn.
  apply elem_of_cons in Hs as [->|Hs].
  - destruct (f x) as [a|] eqn:E; cbn.
    + by rewrite (Hf _ _ E), str_eqb_refl.
    + clear IH Hnd. induction snaps as [|y snaps IH]; [done|]. cbn.
      rewrite fmap_cons, not_elem_of_cons in Hx. destruct Hx as [Hxy Hx].
      destruct (f y) as [b|] eqn:Eb; cbn; [|by apply IH].
      unfold str_eqb at 1. rewrite (Hf _ _ Eb), bool_decide_eq_false_2 by congruence.
      by apply IH.
  - destruct (f x) as [a|] eqn:E; cbn; [|by apply IH].
    unfold str_eqb at 1. rewrite (Hf _ _ E), bool_decide_eq_false_2; [by apply IH|].
    intros Ex. apply Hx. rewrite Ex. by apply list_elem_of_fmap_2.
Qed.

Lemma killReason_status now cfg s st : killReason now cfg (set_status s st) = killReason now cfg s.
Proof. done. Qed.

Lemma pauseReason_status cfg s bt st : pauseReason cfg (set_status s st) bt = pauseReason cfg s bt.
Proof. done. Qed.

(** A status that follows its verdict is stable. *)
Lemma settled_after now cfg bt s :
  let s' := match due s (verdict_of now cfg bt s) with
            | Some a => set_status s (status_after (Kind a)) | None => s end in
  due s' (verdict_of now cfg bt s') = None.
Proof.
  unfold verdict_of. destruct (str_eqb (Status s) "dead") eqn:Ed; [cbn; by rewrite Ed|].
  destruct (killReason now cfg s) eqn:Ek; [done|].
  destruct (pauseReason cfg s bt) eqn:Ep; cbn [due];
    destruct (str_eqb (Status s) "paused") eqn:Es; cbn [Kind status_after action];
    rewrite ?killReason_status, ?pauseReason_status, ?Ek, ?Ep; cbn [Status set_status];
    rewrite ?Ed, ?Es; cbn [due]; rewrite ?Es; reflexivity.
Qed.

(** The policy is stable: once its actions are carried out, evaluating
    the same facts again asks for nothing more. *)
Theorem policy_stable now cfg snaps bt :
  NoDup (s_AgentID <$> snaps) ->
  DeterministicLifecyclePolicy now cfg
    (execute (DeterministicLifecyclePolicy now cfg snaps bt) <$> snaps) bt = [].
Proof.
  intros Hnd.
  rewrite !policy_due. set (f := fun s => due s _).
  enough (H : forall l, (forall s, s ∈ l -> s ∈ snaps) -> omap f (execute (omap f snaps) <$> l) = [])
    by (by apply H).
  induction l as [|s l IH]; intros Hl; [done|]. cbn. rewrite IH by (intros; apply Hl; by right).
  assert (E : execute (omap f snaps) s =
    match f s with Some a => set_status s (status_after (Kind a)) | None => s end).
  { unfold execute. rewrite (find_due snaps f s); [done|done|apply Hl; by left|].
    intros x a. apply due_agent. }
  rewrite E. unfold f. by rewrite settled_after.
Qed.

Definition snapshot (id status verdict class : string) (balance : float) : AgentSnapshot := {|
  s_AgentID := id; Status := status; BalanceUSD := balance; Drawdown := 0.1;
  ConsecutiveLosingEpochs := 1; OperatingDebtUSD := 0; LastHeartbeat := 0;
  LastStrategistVerdict := verdict; NetProfitWindowUSD := 3; NodeClass := class |}.

Definition sample_snapshots : list AgentSnapshot :=
  [snapshot "a" "active" "continue" "funded" 0.5; snapshot "b" "active" "pause" "funded" 20;
   snapshot "c" "paused" "continue" "funded" 20; snapshot "d" "dead" "continue" "shadow" 0;
   snapshot "e" "active" "continue" "shadow" 20].

Example sample_actions :
  DeterministicLifecyclePolicy 0 DefaultLifecyclePolicyConfig sample_snapshots true =
  [{| a_AgentID := "a"; Kind := ActionKill; a_Reason := "balance_below_minimum" |};
   {| a_AgentID := "b"; Kind := ActionPause; a_Reason := "strategy_regime_mismatch" |};
   {| a_AgentID := "c"; Kind := ActionResume; a_Reason := "policy_healthy" |};
   {| a_AgentID := "e"; Kind := ActionPause; a_Reason := "budget_tight" |}].
Proof. reflexivity. Qed.

Lemma policy_stable_witness :
  DeterministicLifecyclePolicy 0 DefaultLifecyclePolicyConfig
    (execute (DeterministicLifecyclePolicy 0 DefaultLifecyclePolicyConfig sample_snapshots true)
       <$> sample_snapshots) true = [].
Proof.
  apply policy_stable. by apply (bool_decide_eq_true_1 _).
Defined.
