(* ===== verification/CircuitBreaker.v ===== *)
(** * The circuit breaker ([internal/runtime/circuit_breaker.go])

    [Trip] and [Reset] each do two atomic things: update the reason and the
    timestamp under the mutex, then store the [halted] flag.  An operation is
    the sequence of its atomic actions, so that two of them can also be
    interleaved. *)
From Stdlib Require Import ZArith Lia Floats.
From stdpp Require Import base list strings.
From S2P Require Import Prelude GoBase GoFloat.
Set Warnings "-inexact-float".
Open Scope Z_scope.

Definition BreakerReason := string.
Definition BreakerReasonNone : BreakerReason := "".
Definition BreakerReasonMarketCrash : BreakerReason := "market_crash".
Definition BreakerReasonMassStopOut : BreakerReason := "mass_stop_out".
Definition BreakerReasonRPCErrorBurst : BreakerReason := "rpc_error_burst".
Definition BreakerReasonManualOverride : BreakerReason := "manual_override".

Record CircuitBreaker := {
  Cooldown : Duration;
  halted : bool;
  reason : BreakerReason;
  trippedAt : Time;
}.

Definition NewCircuitBreaker (cooldown : Duration) : CircuitBreaker := {|
  Cooldown := if cooldown =? 0 then 2 * Hour else cooldown;
  halted := false; reason := BreakerReasonNone; trippedAt := zero_time |}.

Definition Halted (b : CircuitBreaker) : bool := halted b.
Definition Reason (b : CircuitBreaker) : BreakerReason := reason b.
Definition TrippedAt (b : CircuitBreaker) : Time := trippedAt b.

(** ** Operations *)

Inductive atom :=
  | SetTrip (r : BreakerReason) (at_ : Time)  (* the critical section *)
  | StoreHalted (h : bool).

Definition exec (a : atom) (b : CircuitBreaker) : CircuitBreaker :=
  match a with
  | SetTrip r t => {| Cooldown := Cooldown b; halted := halted b; reason := r; trippedAt := t |}
  | StoreHalted h =>
      {| Cooldown := Cooldown b; halted := h; reason := reason b; trippedAt := trippedAt b |}
  end.

Definition exec_all (l : list atom) (b : CircuitBreaker) : CircuitBreaker :=
  fold_left (fun b a => exec a b) l b.

Definition Trip_atoms (r : BreakerReason) (now : Time) : list atom :=
  [SetTrip r now; StoreHalted true].
Definition Reset_atoms : list atom :=
  [SetTrip BreakerReasonNone zero_time; StoreHalted false].

Definition Trip (r : BreakerReason) (now : Time) (b : CircuitBreaker) : CircuitBreaker :=
  exec_all (Trip_atoms r now) b.
Definition Reset (b : CircuitBreaker) : CircuitBreaker := exec_all Reset_atoms b.

Definition maybeReset (now : Time) (b : CircuitBreaker) : CircuitBreaker :=
  if negb (halted b) then b
  else if IsZero (trippedAt b) then b
  else if Cooldown b <=? Sub now (trippedAt b) then Reset b
  else b.

(** [Run]'s ticker period, and its loop over the ticks it receives. *)
Definition Run_interval (b : CircuitBreaker) : Duration :=
  let interval := Z.quot (Cooldown b) 20 in
  if interval <? Second then Second else interval.

Definition Run (ticks : list Time) (b : CircuitBreaker) : CircuitBreaker :=
  fold_left (fun b now => maybeReset now b) ticks b.

(** ** Triggers *)

Record MarketSnapshot := { Asset : string; Pct1h : float; AbsPct : float }.

Record EpochOutcome := {
  FundedNodes : Z;
  NodesHitStopLoss : Z;
  RPCRequests : Z;
  RPCErrors : Z;
  WindowDuration : Duration;
  MarketSnapshots : list MarketSnapshot;
}.

Definition defaultMarketMovePct : float := 0.15.
Definition defaultStopOutFraction : float := 0.50.
Definition defaultRPCErrorFraction : float := 0.30.
Definition defaultRPCErrorWindowFloor : Duration := 5 * Minute.

Definition snap_abs (snap : MarketSnapshot) : float :=
  if (AbsPct snap =? 0)%float then
    if (Pct1h snap <? 0)%float then (- Pct1h snap)%float else Pct1h snap
  else AbsPct snap.

Definition crash (snap : MarketSnapshot) : bool :=
  (str_eqb (Asset snap) "SOL" || str_eqb (Asset snap) "ETH")
  && (defaultMarketMovePct <=? snap_abs snap)%float.

Fixpoint market_loop (snaps : list MarketSnapshot) : bool :=
  match snaps with
  | [] => false
  | snap :: rest => if crash snap then true else market_loop rest
  end.

Definition EvaluateTriggers (outcome : EpochOutcome) (now : Time) (b : CircuitBreaker)
    : BreakerReason * CircuitBreaker :=
  if halted b then (Reason b, b)
  else if market_loop (MarketSnapshots outcome) then
    (BreakerReasonMarketCrash, Trip BreakerReasonMarketCrash now b)
  else
    let stop_out := (0 <? FundedNodes outcome) &&
      (defaultStopOutFraction <=?
         float_of_int (NodesHitStopLoss outcome) / float_of_int (FundedNodes outcome))%float in
    if stop_out then (BreakerReasonMassStopOut, Trip BreakerReasonMassStopOut now b)
    else
      let burst := (0 <? RPCRequests outcome)
        && (defaultRPCErrorWindowFloor <=? WindowDuration outcome)
        && (defaultRPCErrorFraction <=?
              float_of_int (RPCErrors outcome) / float_of_int (RPCRequests outcome))%float in
      if burst then (BreakerReasonRPCErrorBurst, Trip BreakerReasonRPCErrorBurst now b)
      else (BreakerReasonNone, b).

(** ** Invariant of the operations run one after the other *)

Inductive op :=
  | OTrip (r : BreakerReason) (now : Time)
  | OReset
  | OTick (now : Time)
  | OEvaluate (o : EpochOutcome) (now : Time).

Definition step (b : CircuitBreaker) (o : op) : CircuitBreaker :=
  match o with
  | OTrip r now => Trip r now b
  | OReset => Reset b
  | OTick now => maybeReset now b
  | OEvaluate out now => (EvaluateTriggers out now b).2
  end.

(** Real trips have a reason, and the clock does not read the zero time. *)
Definition op_ok (o : op) : Prop :=
  match o with
  | OTrip r now => r <> BreakerReasonNone /\ now <> zero_time
  | OReset => True
  | OTick now | OEvaluate _ now => now <> zero_time
  end.

(** Halted exactly when a reason and a trip time are on record. *)
Record coherent (b : CircuitBreaker) : Prop := {
  co_reason : halted b = true <-> reason b <> BreakerReasonNone;
  co_time : halted b = true <-> trippedAt b <> zero_time;
}.

Lemma Trip_coherent r now b : r <> BreakerReasonNone -> now <> zero_time -> coherent (Trip r now b).
Proof. intros Hr Hn. by split. Qed.

Lemma Reset_coherent b : coherent (Reset b).
Proof. split; cbn; by split. Qed.

Lemma maybeReset_coherent now b : coherent b -> coherent (maybeReset now b).
Proof.
  intros Hc. unfold maybeReset. destruct (negb (halted b)); [done|].
  destruct (IsZero _); [done|]. destruct (_ <=? _); [apply Reset_coherent|done].
Qed.

#[export] Hint Resolve Trip_coherent Reset_coherent maybeReset_coherent : go.

Lemma step_coherent o b : op_ok o -> coherent b -> coherent (step b o).
Proof.
  destruct o as [r now| |now|out now]; cbn; intros Hok Hc; try (by auto with go).
  - destruct Hok. by apply Trip_coherent.
  - unfold EvaluateTriggers. destruct (halted b); [done|].
    repeat match goal with |- context [if ?x then _ else _] => destruct x end; cbn [snd];
      try done; by apply Trip_coherent.
Qed.

(** Through any sequence of trips, resets, ticks and evaluations the
    breaker is halted exactly when it has a reason and a trip time on record,
    and an evaluation reports a reason exactly when it leaves it halted. *)
Theorem breaker_coherent cooldown ops out now :
  Forall op_ok ops -> now <> zero_time ->
  let b := fold_left step ops (NewCircuitBreaker cooldown) in
  coherent b /\
  let '(r, b') := EvaluateTriggers out now b in
  coherent b' /\ r = reason b' /\ (Halted b' = true <-> r <> BreakerReasonNone).
Proof.
  intros Hops Hnow b.
  assert (Hc : coherent b).
  { unfold b. assert (H0 : coherent (NewCircuitBreaker cooldown)) by (split; cbn; by split).
    revert H0. generalize (NewCircuitBreaker cooldown).
    induction Hops as [|o ops Ho Hops IH]; intros b0 H0; cbn; [done|].
    by apply IH, step_coherent. }
  split; [done|]. clearbody b.
  pose proof (step_coherent (OEvaluate out now) b Hnow Hc) as Hc'. cbn [step] in Hc'.
  assert (Hr : (EvaluateTriggers out now b).1 = reason (EvaluateTriggers out now b).2).
  { unfold EvaluateTriggers. destruct (halted b) eqn:Eh; [done|].
    repeat match goal with |- context [if ?x then _ else _] => destruct x end; try done.
    cbn. destruct (decide (reason b = BreakerReasonNone)) as [E|E]; [done|].
    by apply (co_reason b Hc) in E; rewrite Eh in E. }
  destruct (EvaluateTriggers out now b) as [r b']. cbn in *.
  split; [done|]. split; [done|]. subst r. apply (co_reason b' Hc').
Qed.

(** ** Auto-reset *)

(** C27: a breaker tripped at [t0] stays halted for as long as its ticks come
    before the cooldown has passed, and the first tick at or after the end of
    the cooldown resets it for good. *)
Theorem Run_auto_reset r t0 b ticks :
  t0 <> zero_time -> 0 < Cooldown b -> Forall (fun t => in_int64 (t - t0)) ticks ->
  let b' := Run ticks (Trip r t0 b) in
  if existsb (fun t => t0 + Cooldown b <=? t) ticks then b' = Reset b
  else b' = Trip r t0 b.
Proof.
  intros Ht0 Hcd Hticks.
  assert (Hreset : forall l, Run l (Reset b) = Reset b) by (induction l; done).
  induction Hticks as [|t ticks Ht Hticks IH]; [done|].
  cbn [existsb]. unfold Run in *. cbn [fold_left].
  assert (Hm : maybeReset t (Trip r t0 b)
    = if t0 + Cooldown b <=? t then Reset b else Trip r t0 b).
  { unfold maybeReset. cbn [halted trippedAt Cooldown Trip exec_all fold_left Trip_atoms exec negb].
    unfold IsZero. replace (t0 =? 0) with false by (unfold zero_time in Ht0; lia).
    rewrite Sub_exact by done.
    by replace (Cooldown b <=? t - t0) with (t0 + Cooldown b <=? t) by lia. }
  rewrite Hm. destruct (t0 + Cooldown b <=? t); cbn [orb]; [apply Hreset|exact IH].
Qed.

(** ** Two operations at once *)

Inductive interleaving {A} : list A -> list A -> list A -> Prop :=
  | il_nil : interleaving [] [] []
  | il_left x l1 l2 l : interleaving l1 l2 l -> interleaving (x :: l1) l2 (x :: l)
  | il_right x l1 l2 l : interleaving l1 l2 l -> interleaving l1 (x :: l2) (x :: l).

(** Halted with no trip time: no tick and no evaluation ever leaves it. *)
Definition stuck (b : CircuitBreaker) : Prop := halted b = true /\ trippedAt b = zero_time.

(** A trip that runs next to a reset can leave the breaker halted without a
    trip time: the reset's critical section comes after the trip's, the
    reset's store before the trip's.  From there the auto-reset never fires. *)
Lemma race_stuck r now b :
  exists l, interleaving (Trip_atoms r now) Reset_atoms l /\
    stuck (exec_all l b) /\
    (forall ticks, Run ticks (exec_all l b) = exec_all l b) /\
    (forall o t, EvaluateTriggers o t (exec_all l b) = (BreakerReasonNone, exec_all l b)).
Proof.
  exists [SetTrip r now; SetTrip BreakerReasonNone zero_time; StoreHalted false; StoreHalted true].
  split; [repeat constructor|]. split; [by split|]. split; [|done].
  intros ticks. by induction ticks.
Qed.

(** Whatever way a trip and a reset interleave, the breaker ends up as if
    one had followed the other, or with the flag of one and the record of the
    other. *)
Theorem Trip_Reset_interleaved r now b l :
  interleaving (Trip_atoms r now) Reset_atoms l ->
  let b' := exec_all l b in
  b' = Reset (Trip r now b) \/ b' = Trip r now (Reset b) \/
  stuck b' \/ (halted b' = false /\ trippedAt b' = now /\ reason b' = r).
Proof.
  intros H.
  repeat match goal with
  | H : interleaving _ _ _ |- _ => inversion H; clear H; subst
  end; cbn; unfold stuck; cbn; auto 8.
Qed.

Definition sample_breaker : CircuitBreaker := NewCircuitBreaker (2 * Hour).

Definition quiet : EpochOutcome := {|
  FundedNodes := 4; NodesHitStopLoss := 2; RPCRequests := 0; RPCErrors := 0;
  WindowDuration := Hour; MarketSnapshots := [{| Asset := "SOL"; Pct1h := -0.1; AbsPct := 0 |}] |}.

Lemma breaker_coherent_witness :
  coherent (fold_left step [OEvaluate quiet 5; OTick 6] (NewCircuitBreaker 0)).
Proof.
  apply (breaker_coherent 0 [OEvaluate quiet 5; OTick 6] quiet 7); [|discriminate].
  repeat constructor; discriminate.
Defined.

Lemma Run_auto_reset_witness :
  Run [1 * Hour; 2 * Hour; 3 * Hour; 4 * Hour] (Trip "market_crash" Hour sample_breaker)
  = Reset sample_breaker.
Proof.
  apply (Run_auto_reset "market_crash" Hour sample_breaker [1 * Hour; 2 * Hour; 3 * Hour; 4 * Hour]).
  - discriminate.
  - reflexivity.
  - repeat constructor; vm_compute; discriminate.
Defined.

Lemma Trip_Reset_interleaved_witness :
  let l := [SetTrip "market_crash" 9; SetTrip BreakerReasonNone zero_time;
            StoreHalted true; StoreHalted false] in
  exec_all l sample_breaker = Reset (Trip "market_crash" 9 sample_breaker).
Proof.
  destruct (Trip_Reset_interleaved "market_crash" 9 sample_breaker
    [SetTrip "market_crash" 9; SetTrip BreakerReasonNone zero_time;
     StoreHalted true; StoreHalted false]) as [H|[H|[H|H]]].
  - repeat constructor.
  - exact H.
  - discriminate H.
  - by destruct H.
  - by destruct H as (_ & H & _).
Defined.
