(* ===== verification/Hibernation.v ===== *)
(** * Hibernation of shadow nodes ([internal/runtime/hibernation.go])

    [Decide] is a pure function of the clock reading, the anchor and the
    schedule.  Durations are 64-bit nanosecond counts: the window's product
    wraps, and [now.Sub(anchor)] saturates. *)
From Stdlib Require Import ZArith Lia Floats.
From stdpp Require Import base list strings.
From S2P Require Import Prelude GoBase GoFloat GoRound Genome.
Open Scope Z_scope.

Definition nodeClassFunded : string := "funded".
Definition nodeClassShadow : string := "shadow".

Record HibernationDecision := { Awake : bool; d_Reason : string }.

Definition isAwakeAt (now anchor : Time) (interval window : Duration) : bool :=
  if interval <=? 0 then true
  else
    let elapsed := Sub now anchor in
    let phase := Z.rem elapsed interval in
    let phase := if phase <? 0 then phase + interval else phase in
    let half := Z.quot window 2 in
    (phase <? half) || (interval - half <=? phase).

Definition awake_window (sched : SleepSchedule) : Duration :=
  wrap64 (AwakeWindowMinutes sched * Minute).

Definition Decide (now : Time) (nodeClass : string) (sched : SleepSchedule) (anchor : Time)
    (strategistInterval : Duration) : HibernationDecision :=
  if negb (str_eqb nodeClass nodeClassShadow) then {| Awake := true; d_Reason := "funded" |}
  else if negb (SleepBetween sched) then {| Awake := true; d_Reason := "hibernation_disabled" |}
  else if AwakeWindowMinutes sched <=? 0 then {| Awake := true; d_Reason := "shadow_no_window" |}
  else if strategistInterval <=? 0 then {| Awake := true; d_Reason := "hibernation_disabled" |}
  else
    let window := awake_window sched in
    if strategistInterval <=? window then {| Awake := true; d_Reason := "shadow_awake" |}
    else if isAwakeAt now anchor strategistInterval window then
      {| Awake := true; d_Reason := "shadow_awake" |}
    else {| Awake := false; d_Reason := "shadow_asleep" |}.

Definition IsAwake (now : Time) (nodeClass : string) (sched : SleepSchedule) (anchor : Time)
    (strategistInterval : Duration) : bool :=
  Awake (Decide now nodeClass sched anchor strategistInterval).

(** The sampling loop: one sample per minute from [start], [n] of them. *)
Fixpoint awake_samples (anchor start : Time) (interval window : Duration) (i : Z) (n : nat) : Z :=
  match n with
  | O => 0
  | S n' =>
      (if isAwakeAt (Add start (i * Minute)) anchor interval window then 1 else 0)
      + awake_samples anchor start interval window (i + 1) n'
  end.

Definition AwakeFractionOver24h (nodeClass : string) (sched : SleepSchedule)
    (anchor start : Time) (strategistInterval : Duration) : float :=
  if (strategistInterval <=? 0) || (AwakeWindowMinutes sched <=? 0)
     || negb (SleepBetween sched) || negb (str_eqb nodeClass nodeClassShadow) then 1%float
  else
    (float_of_int (awake_samples anchor start strategistInterval (awake_window sched) 0 1440)
     / 1440)%float.

(** ** The awake window *)

(** A tick of the cycle falls at [anchor + k * interval]. *)
Definition near_tick (now anchor : Time) (interval half : Z) : Prop :=
  exists k, anchor + k * interval - half <= now < anchor + k * interval + half.

Lemma phase_mod elapsed interval : 0 < interval ->
  (let p := Z.rem elapsed interval in if p <? 0 then p + interval else p) = elapsed mod interval.
Proof.
  intros Hi. cbv zeta. pose proof (Z.mod_pos_bound elapsed interval Hi) as Hm.
  pose proof (Z.div_mod elapsed interval ltac:(lia)) as Hd.
  pose proof (Z.quot_rem elapsed interval ltac:(lia)) as Hq.
  pose proof (Z.rem_bound_abs elapsed interval ltac:(lia)) as Hb.
  set (p := Z.rem elapsed interval) in *. set (r := elapsed mod interval) in *.
  assert (Hpr : p - r = interval * (elapsed / interval - elapsed ÷ interval)) by lia.
  set (d := elapsed / interval - elapsed ÷ interval) in *. clearbody d.
  assert (Hd1 : -2 < d < 1) by nia.
  assert (E : p = r \/ p = r - interval)
    by (assert (d = 0 \/ d = -1) as [->| ->] by lia; lia).
  destruct (Z.ltb_spec p 0); lia.
Qed.

Lemma isAwakeAt_mod now anchor interval window :
  0 < interval -> in_int64 (now - anchor) ->
  isAwakeAt now anchor interval window =
    ((now - anchor) mod interval <? Z.quot window 2)
    || (interval - Z.quot window 2 <=? (now - anchor) mod interval).
Proof.
  intros Hi Hn. unfold isAwakeAt. replace (interval <=? 0) with false by lia.
  cbv zeta. rewrite Sub_exact by done.
  pose proof (phase_mod (now - anchor) interval Hi) as E. cbv zeta in E. by rewrite E.
Qed.

Lemma isAwakeAt_near now anchor interval window :
  0 <= window < interval -> in_int64 (now - anchor) ->
  isAwakeAt now anchor interval window = true <->
  near_tick now anchor interval (Z.quot window 2).
Proof.
  intros Hw Hn. rewrite isAwakeAt_mod by (done || lia). unfold near_tick.
  assert (Hh : 0 <= 2 * Z.quot window 2 <= window).
  { pose proof (Z.quot_rem window 2 ltac:(lia)).
    pose proof (Z.rem_bound_pos window 2 ltac:(lia) ltac:(lia)). lia. }
  set (h := Z.quot window 2) in *. set (e := now - anchor).
  replace now with (anchor + e) by lia. clearbody h.
  pose proof (Z.mod_pos_bound e interval ltac:(lia)) as Hm.
  pose proof (Z.div_mod e interval ltac:(lia)) as Hd.
  rewrite orb_true_iff, Z.ltb_lt, Z.leb_le. split.
  - intros [H|H]; [exists (e / interval)|exists (e / interval + 1)]; lia.
  - intros [k Hk]. set (q := e / interval) in *. set (r := e mod interval) in *.
    assert (k = q \/ k = q + 1) as [->| ->] by nia; lia.
Qed.

(** The schedule describes a window shorter than the cycle that does not
    overflow. *)
Definition real_schedule (sched : SleepSchedule) (interval : Duration) : Prop :=
  SleepBetween sched = true /\ 0 < AwakeWindowMinutes sched /\
  AwakeWindowMinutes sched * Minute < interval <= max_int64.

Lemma real_schedule_window sched interval :
  real_schedule sched interval ->
  awake_window sched = AwakeWindowMinutes sched * Minute /\ 0 < awake_window sched < interval.
Proof.
  intros (_ & Hw & Hi). unfold awake_window, Minute, Second in *.
  rewrite wrap64_id by (unfold in_int64, min_int64, max_int64 in *; lia). lia.
Qed.

(** A shadow node with a schedule shorter than its cycle is awake exactly
    while the clock is within half a window of a strategist tick, and always
    on time for the tick itself; a node of any other class never sleeps. *)
Theorem Decide_window now nodeClass sched anchor interval :
  real_schedule sched interval -> in_int64 (now - anchor) ->
  Awake (Decide now nodeClass sched anchor interval) = true <->
  nodeClass <> "shadow" \/
  near_tick now anchor interval (Z.quot (AwakeWindowMinutes sched * Minute) 2).
Proof.
  intros Hs Hn. destruct (real_schedule_window _ _ Hs) as [Hw Hlt].
  destruct Hs as (Hb & Hpos & Hi). unfold Decide. rewrite Hb. cbn [negb].
  replace (AwakeWindowMinutes sched <=? 0) with false by lia.
  replace (interval <=? 0) with false by lia.
  replace (interval <=? awake_window sched) with false by lia.
  unfold str_eqb, nodeClassShadow.
  destruct (bool_decide_reflect (nodeClass = "shadow")) as [->|Hc]; cbn [negb].
  - rewrite <-Hw, <-isAwakeAt_near by (done || lia).
    destruct (isAwakeAt _ _ _ _); cbn; intuition discriminate.
  - by split; [left|].
Qed.

(** Nanoseconds of a cycle during which the node is awake. *)
Definition awake_ns (interval window : Z) : list Z :=
  List.filter (fun phase => isAwakeAt phase 0 interval window) (seqZ 0 interval).

(** Equality of two boolean range tests. *)
Ltac by_bounds :=
  apply eq_true_iff_eq; rewrite !orb_true_iff, !Z.ltb_lt, !Z.leb_le; lia.

Lemma filter_seqZ_count (f : Z -> bool) (n : nat) : forall m a b,
  0 <= a -> a <= b -> b <= Z.of_nat n ->
  (forall x, m <= x < m + Z.of_nat n -> f x = (x <? m + a) || (m + b <=? x)) ->
  Z.of_nat (length (List.filter f (seqZ m (Z.of_nat n)))) = a + (Z.of_nat n - b).
Proof.
  induction n as [|n IH]; intros m a b Ha Hab Hb Hf; [rewrite seqZ_nil by lia; cbn; lia|].
  rewrite seqZ_cons by lia.
  replace (Z.pred (Z.of_nat (S n))) with (Z.of_nat n) by lia. cbn [List.filter].
  rewrite Hf by lia.
  destruct (decide (a = 0)) as [->|Ha0].
  - destruct (decide (b = 0)) as [->|Hb0].
    + replace (m + 0 <=? m) with true by lia. rewrite orb_true_r. cbn [length].
      specialize (IH (Z.succ m) 0 0). rewrite Nat2Z.inj_succ, IH; try lia.
      intros x Hx. rewrite Hf by lia. by_bounds.
    + replace (m <? m + 0) with false by lia. replace (m + b <=? m) with false by lia. cbn [orb].
      rewrite (IH (Z.succ m) 0 (b - 1)); try lia.
      intros x Hx. rewrite Hf by lia. by_bounds.
  - replace (m <? m + a) with true by lia. cbn [orb length].
    rewrite Nat2Z.inj_succ, (IH (Z.succ m) (a - 1) (b - 1)); try lia.
    intros x Hx. rewrite Hf by lia. by_bounds.
Qed.

(** Over one full cycle a node is awake for exactly the window, rounded
    down to an even number of nanoseconds. *)
Theorem awake_per_cycle interval window :
  0 <= window < interval -> interval <= max_int64 ->
  Z.of_nat (length (awake_ns interval window)) = 2 * Z.quot window 2.
Proof.
  intros Hw Hi. unfold awake_ns.
  assert (Hh : 0 <= 2 * Z.quot window 2 <= window).
  { pose proof (Z.quot_rem window 2 ltac:(lia)).
    pose proof (Z.rem_bound_pos window 2 ltac:(lia) ltac:(lia)). lia. }
  set (h := Z.quot window 2) in *.
  rewrite <-(Z2Nat.id interval) by lia.
  rewrite (filter_seqZ_count _ _ 0 h (interval - h)); [lia..|].
  rewrite Z2Nat.id by lia. intros x Hx.
  rewrite isAwakeAt_mod by (unfold in_int64, min_int64 in *; lia).
  rewrite Z.sub_0_r, Z.mod_small by lia. fold h. by rewrite !Z.add_0_l.
Qed.

Lemma awake_samples_range anchor start interval window n : forall i,
  0 <= awake_samples anchor start interval window i n <= Z.of_nat n.
Proof.
  induction n as [|n IH]; intros i; cbn; [lia|]. specialize (IH (i + 1)).
  destruct (isAwakeAt _ _ _ _); lia.
Qed.

(** A zero anchor, the fallback of the configuration: from the year 293 on
    the elapsed time saturates, so the phase never moves again and the node
    sleeps for ever, or never. *)
Lemma zero_anchor_frozen now now' interval window :
  max_int64 <= now -> max_int64 <= now' ->
  isAwakeAt now zero_time interval window = isAwakeAt now' zero_time interval window.
Proof.
  intros H H'. unfold isAwakeAt, Sub, zero_time.
  replace (Z.max min_int64 (Z.min max_int64 (now - 0))) with max_int64
    by (unfold min_int64, max_int64 in *; lia).
  replace (Z.max min_int64 (Z.min max_int64 (now' - 0))) with max_int64
    by (unfold min_int64, max_int64 in *; lia). done.
Qed.

Definition sample_schedule : SleepSchedule :=
  {| AwakeWindowMinutes := 120; SleepBetween := true; WakeForBacktest := false |}.

Lemma Decide_window_witness :
  Awake (Decide (23 * Hour + 30 * Minute) "shadow" sample_schedule 0 (12 * Hour)) = true /\
  Awake (Decide (6 * Hour) "shadow" sample_schedule 0 (12 * Hour)) = false.
Proof.
  split; [|reflexivity].
  apply (Decide_window (23 * Hour + 30 * Minute) "shadow" sample_schedule 0 (12 * Hour)).
  - repeat split; vm_compute; (discriminate || reflexivity).
  - split; vm_compute; discriminate.
  - right. exists 2. split; vm_compute; (discriminate || reflexivity).
Defined.

Lemma awake_per_cycle_witness : Z.of_nat (length (awake_ns 100 30)) = 30.
Proof. apply (awake_per_cycle 100 30); unfold max_int64; lia. Defined.
