(* ===== verification/Lifecycle.v ===== *)
(** * Lifecycle transitions ([internal/runtime/lifecycle.go])

    The manager writes the database first and then publishes an event.  The
    database is an interface over an abstract state; an operation returns its
    error, the state the store left and the messages the bus accepted. *)
From Stdlib Require Import ZArith Lia Floats.
From stdpp Require Import base list strings.
From S2P Require Import Prelude GoBase GoFloat.
Open Scope Z_scope.

Definition ChannelLifecycleSpawn : string := "lifecycle:spawn".
Definition ChannelLifecycleKill : string := "lifecycle:kill".
Definition ChannelLifecyclePause : string := "lifecycle:pause".
Definition ChannelLifecycleResume : string := "lifecycle:resume".
Definition ChannelLifecyclePromote : string := "lifecycle:promote".
Definition ChannelLifecycleDemote : string := "lifecycle:demote".

Record LifecycleEvent := {
  ev_AgentID : string;
  ev_Reason : string;
  ev_NodeClass : string;
  ev_CorrelationID : string;
  ev_Timestamp : Time;
}.

(** The columns of an agent row ([db.Agent]) that the runtime reads; the
    other columns are kept as they are. *)
Record Agent := {
  ag_ID : string;
  ag_Name : string;
  ag_Chain : string;
  ag_TaskType : string;
  ag_StrategyConfig : string;
  ag_StrategistPrompt : string;
  ag_StrategistModel : string;
  ag_StrategistIntervalSeconds : Z;
  ag_BanditPolicies : string;
  ag_NodeClass : string;
  ag_Generation : Z;
  ag_LineageDepth : Z;
  ag_CapitalAllocated : float;
}.

Class LifecycleStore := {
  DB : Type;
  InsertAgent : Agent -> DB -> result string * DB;
  SetAgentStatus : string -> string -> string -> DB -> option gerror * DB;
  SetAgentNodeClass : string -> string -> DB -> option gerror * DB;
}.

(** [encoding/json] on events. *)
Class EventCodec := {
  payload : Type;
  Marshal : LifecycleEvent -> result payload;
  Unmarshal : payload -> result LifecycleEvent;
}.

Class EventCodecLaws (E : EventCodec) := {
  Unmarshal_Marshal ev p : Marshal ev = Ok p -> Unmarshal p = Ok ev;
}.

Record Message `{EventCodec} := { Channel : string; Payload : payload }.
Arguments Build_Message {_} _ _.
Arguments Channel {_} _.
Arguments Payload {_} _.

Section Manager.
Context {S : LifecycleStore} {E : EventCodec}.
(** [bus] is what publishing answers; [None] is a nil bus. *)
Context (bus : option (string -> payload -> option gerror)).
(** [now] is what the manager's clock reads during the call. *)
Context (now : Time).

Definition publish (channel : string) (ev : LifecycleEvent) : list Message :=
  match bus with
  | None => []
  | Some Publish =>
    match Marshal ev with
    | Fail _ => []
    | Ok p =>
      match Publish channel p with
      | Some _ => []
      | None => [Build_Message channel p]
      end
    end
  end.

Definition event (agentID reason class : string) : LifecycleEvent := {|
  ev_AgentID := agentID; ev_Reason := reason; ev_NodeClass := class;
  ev_CorrelationID := ""; ev_Timestamp := now |}.

Definition Spawn (agentRow : Agent) (reason : string) (db : DB)
    : result string * DB * list Message :=
  let '(r, db) := InsertAgent agentRow db in
  match r with
  | Fail err => (Fail (EWrap "lifecycle.Spawn: insert: %w" err), db, [])
  | Ok id =>
      (Ok id, db, publish ChannelLifecycleSpawn (event id reason (ag_NodeClass agentRow)))
  end.

Definition Kill (agentID reason : string) (db : DB) : option gerror * DB * list Message :=
  if str_eqb agentID "" then (Some (EMsg "lifecycle: Kill requires agent_id"), db, [])
  else
    let '(err, db) := SetAgentStatus agentID "dead" reason db in
    match err with
    | Some e => (Some (EWrap "lifecycle.Kill: %w" e), db, [])
    | None => (None, db, publish ChannelLifecycleKill (event agentID reason ""))
    end.

Definition Pause (agentID reason : string) (db : DB) : option gerror * DB * list Message :=
  if str_eqb agentID "" then (Some (EMsg "lifecycle: Pause requires agent_id"), db, [])
  else
    let '(err, db) := SetAgentStatus agentID "paused" reason db in
    match err with
    | Some e => (Some (EWrap "lifecycle.Pause: %w" e), db, [])
    | None => (None, db, publish ChannelLifecyclePause (event agentID reason ""))
    end.

Definition Resume (agentID reason : string) (db : DB) : option gerror * DB * list Message :=
  if str_eqb agentID "" then (Some (EMsg "lifecycle: Resume requires agent_id"), db, [])
  else
    let '(err, db) := SetAgentStatus agentID "active" reason db in
    match err with
    | Some e => (Some (EWrap "lifecycle.Resume: %w" e), db, [])
    | None => (None, db, publish ChannelLifecycleResume (event agentID reason ""))
    end.

Definition setClassAndEmit (agentID class reason channel : string) (db : DB)
    : option gerror * DB * list Message :=
  if str_eqb agentID "" then (Some (EMsg "lifecycle: agent_id required"), db, [])
  else
    let '(err, db) := SetAgentNodeClass agentID class db in
    match err with
    | Some e => (Some e, db, [])
    | None => (None, db, publish channel (event agentID reason class))
    end.

Definition Promote (agentID reason : string) (db : DB) : option gerror * DB * list Message :=
  let '(err, db, msgs) := setClassAndEmit agentID "funded" reason ChannelLifecyclePromote db in
  match err with
  | Some e => (Some (EWrap "lifecycle.Promote: %w" e), db, msgs)
  | None => (None, db, msgs)
  end.

Definition Demote (agentID reason : string) (db : DB) : option gerror * DB * list Message :=
  let '(err, db, msgs) := setClassAndEmit agentID "shadow" reason ChannelLifecycleDemote db in
  match err with
  | Some e => (Some (EWrap "lifecycle.Demote: %w" e), db, msgs)
  | None => (None, db, msgs)
  end.

(** ** The contract of every transition *)

Inductive transition := TKill | TPause | TResume | TPromote | TDemote.

Definition run (t : transition) : string -> string -> DB -> option gerror * DB * list Message :=
  match t with
  | TKill => Kill | TPause => Pause | TResume => Resume
  | TPromote => Promote | TDemote => Demote
  end.

Definition channel_of (t : transition) : string :=
  match t with
  | TKill => ChannelLifecycleKill | TPause => ChannelLifecyclePause
  | TResume => ChannelLifecycleResume
  | TPromote => ChannelLifecyclePromote | TDemote => ChannelLifecycleDemote
  end.

Definition class_of (t : transition) : string :=
  match t with TPromote => "funded" | TDemote => "shadow" | _ => "" end.

(** The write each transition makes. *)
Definition write_of (t : transition) (id reason : string) (db : DB) : option gerror * DB :=
  match t with
  | TKill => SetAgentStatus id "dead" reason db
  | TPause => SetAgentStatus id "paused" reason db
  | TResume => SetAgentStatus id "active" reason db
  | TPromote => SetAgentNodeClass id "funded" db
  | TDemote => SetAgentNodeClass id "shadow" db
  end.

Definition emitted (t : transition) (id reason : string) : LifecycleEvent :=
  event id reason (class_of t).

Lemma run_unfold t id reason db :
  id <> "" ->
  run t id reason db =
    let '(err, db') := write_of t id reason db in
    match err with
    | Some e => ((run t id reason db).1.1, db', [])
    | None => (None, db', publish (channel_of t) (emitted t id reason))
    end.
Proof.
  intros Hid.
  destruct t; cbn [run write_of]; unfold Kill, Pause, Resume, Promote, Demote, setClassAndEmit;
    unfold str_eqb; rewrite !bool_decide_eq_false_2 by done;
    [destruct (SetAgentStatus _ _ _ db) as [[e|] db']..
    |destruct (SetAgentNodeClass _ _ db) as [[e|] db']
    |destruct (SetAgentNodeClass _ _ db) as [[e|] db']]; done.
Qed.

Lemma publish_spec channel ev :
  publish channel ev = [] \/
  exists p, publish channel ev = [Build_Message channel p] /\ Marshal ev = Ok p.
Proof.
  unfold publish. destruct bus as [Publish|]; [|by left].
  destruct (Marshal ev) as [p|]; [|by left].
  destruct (Publish channel p); [by left|right]. by exists p.
Qed.

(** C21: a transition without an agent id touches nothing; one whose
    database write fails reports the failure and publishes nothing; one
    whose write succeeds reports success whatever the bus does, and what it
    publishes, at most one message, is its own event on its own channel,
    which a subscriber decodes back. *)
Theorem transition_spec `{!EventCodecLaws E} t id reason db :
  let '(err, db', msgs) := run t id reason db in
  if str_eqb id "" then is_Some err /\ db' = db /\ msgs = []
  else
    db' = (write_of t id reason db).2 /\
    (is_Some err <-> is_Some (write_of t id reason db).1) /\
    (is_Some err -> msgs = []) /\
    (msgs = [] \/
     exists m, msgs = [m] /\ Channel m = channel_of t /\
       Unmarshal (Payload m) = Ok (emitted t id reason)).
Proof.
  unfold str_eqb. destruct (bool_decide_reflect (id = "")) as [->|Hid].
  { destruct t; (split; [by eexists|done]). }
  pose proof (run_unfold t id reason db Hid) as Hr.
  assert (He : is_Some (run t id reason db).1.1 <-> is_Some (write_of t id reason db).1).
  { destruct t; cbn [run write_of]; unfold Kill, Pause, Resume, Promote, Demote, setClassAndEmit;
      unfold str_eqb; rewrite !bool_decide_eq_false_2 by done;
      [destruct (SetAgentStatus _ _ _ db) as [[e|] db']..
      |destruct (SetAgentNodeClass _ _ db) as [[e|] db']
      |destruct (SetAgentNodeClass _ _ db) as [[e|] db']]; cbn; split; (done || by eexists). }
  destruct (write_of t id reason db) as [[e|] db'] eqn:Ew.
  - destruct (run t id reason db) as [[err db1] msgs]. cbn in He, Hr. injection Hr as -> ->.
    cbn. auto.
  - rewrite Hr in *. cbn in He |- *. split; [done|]. split; [done|].
    split; [by intros [??]|].
    destruct (publish_spec (channel_of t) (emitted t id reason)) as [->|(p & -> & Hp)]; [by left|].
    right. eexists. split; [done|]. cbn. split; [done|]. by apply Unmarshal_Marshal.
Qed.
End Manager.

(** ** A concrete store and codec *)

Definition event_codec : EventCodec := {|
  payload := LifecycleEvent; Marshal := fun ev => Ok ev; Unmarshal := fun p => Ok p |}.

Lemma event_codec_laws : EventCodecLaws event_codec.
Proof. split. by intros ev p [= ->]. Qed.

(** A store that keeps the writes it is asked for; writing the empty status fails. *)
Definition journal : LifecycleStore := {|
  DB := list (string * string);
  InsertAgent := fun row db => (Ok (ag_ID row), db ++ [(ag_ID row, "active")]);
  SetAgentStatus := fun id status reason db =>
    if str_eqb reason "" then (Some (EMsg "reason"), db) else (None, db ++ [(id, status)]);
  SetAgentNodeClass := fun id class db => (None, db ++ [(id, class)]) |}.

Definition live_bus : option (string -> @payload event_codec -> option gerror) :=
  Some (fun _ _ => None).

Definition no_writes : @DB journal := [].

Lemma transition_spec_witness :
  (run (S := journal) (E := event_codec) live_bus 7 TKill "a" "dead" no_writes).1.2 = [("a", "dead")] /\
  (run (S := journal) (E := event_codec) live_bus 7 TKill "a" "" no_writes).2 = [].
Proof.
  split.
  - pose proof (@transition_spec journal event_codec live_bus 7 event_codec_laws TKill "a" "dead" no_writes) as H.
    destruct (run live_bus 7 TKill "a" "dead" no_writes) as [[err db'] msgs].
    destruct H as (-> & _). reflexivity.
  - pose proof (@transition_spec journal event_codec live_bus 7 event_codec_laws TKill "a" "" no_writes) as H.
    destruct (run live_bus 7 TKill "a" "" no_writes) as [[err db'] msgs].
    destruct H as (_ & He & Hm & _). apply Hm, He. by eexists.
Defined.
