(* ===== verification/NodeRunner.v ===== *)
(** * The scheduler ([internal/runtime/scheduler.go]) and the per-agent runner
    ([internal/runtime/node_runner.go])

    A running node is three goroutines, each at a position of its loop.  An
    event moves one of them by one step, or pauses, resumes or cancels the
    node, so a pause can fall between a guard and the work it guards.  What
    the moved goroutine reads there (the breaker, the clock, the answer of the
    task, the semaphore, the strategist or the store) comes with the event;
    what it does is the list of effects the step returns. *)
From Stdlib Require Import ZArith Lia Floats.
From stdpp Require Import base list strings gmap.
From S2P Require Import Prelude GoBase GoFloat Genome Task CircuitBreaker Hibernation.
Open Scope Z_scope.

(** ** Scheduler *)

Record Scheduler := { staggerStep : Duration; maxLLM : Z }.

Definition NewScheduler (maxConcurrentLLM : Z) (step : Duration) : Scheduler := {|
  staggerStep := if step <=? 0 then 500 * Millisecond else step;
  maxLLM := if maxConcurrentLLM <=? 0 then 4 else maxConcurrentLLM |}.

(** [None] is a nil receiver. *)
Definition StaggerOffset (s : option Scheduler) (i : Z) : Duration :=
  match s with
  | None => 0
  | Some s => if i <? 0 then 0 else wrap64 (i * staggerStep s)
  end.

Definition MaxStrategistConcurrency (s : option Scheduler) : Z :=
  match s with None => 0 | Some s => maxLLM s end.

(** Distinct nodes of a fleet that boots without overflow start at least
    one step apart, in the order of their indices. *)
Theorem StaggerOffset_spaced s i j :
  0 < staggerStep s -> 0 <= i < j -> j * staggerStep s <= max_int64 ->
  0 <= StaggerOffset (Some s) i /\
  StaggerOffset (Some s) i + staggerStep s <= StaggerOffset (Some s) j.
Proof.
  intros Hs Hij Hj. unfold StaggerOffset.
  replace (i <? 0) with false by lia. replace (j <? 0) with false by lia.
  assert (0 <= i * staggerStep s /\ i * staggerStep s + staggerStep s <= j * staggerStep s) by nia.
  rewrite !wrap64_id by (unfold in_int64, min_int64; lia). lia.
Qed.

(** ** Configuration *)

Record NodeRunnerConfig := {
  AgentID : string;
  cfg_Genome : AgentGenome;
  hasTask : bool;
  hasLLM : bool;
  hasStore : bool;
  cfg_Scheduler : option Scheduler;
  MonitorInterval : Duration;
  StrategistInterval : Duration;
  HeartbeatInterval : Duration;
  MaxOutputTokens : Z;
  hasBreaker : bool;
  hasHibernation : bool;
  cfg_NodeClass : string;
  HibernationAnchor : Time;
}.

Record NodeRunner := {
  cfg : NodeRunnerConfig;
  paused : bool;
  tickCount : Z;
  stratCount : Z;
  beatCount : Z;
}.

Definition with_defaults (c : NodeRunnerConfig) : NodeRunnerConfig := {|
  AgentID := AgentID c; cfg_Genome := cfg_Genome c; hasTask := hasTask c;
  hasLLM := hasLLM c; hasStore := hasStore c; cfg_Scheduler := cfg_Scheduler c;
  MonitorInterval := if MonitorInterval c =? 0 then 30 * Second else MonitorInterval c;
  StrategistInterval :=
    if StrategistInterval c =? 0 then
      let secs := StrategistIntervalSeconds (cfg_Genome c) in
      if 0 <? secs then wrap64 (secs * Second) else 4 * Hour
    else StrategistInterval c;
  HeartbeatInterval := if HeartbeatInterval c =? 0 then 30 * Second else HeartbeatInterval c;
  MaxOutputTokens := if MaxOutputTokens c <=? 0 then 1024 else MaxOutputTokens c;
  hasBreaker := hasBreaker c; hasHibernation := hasHibernation c;
  cfg_NodeClass := cfg_NodeClass c; HibernationAnchor := HibernationAnchor c |}.

Definition NewNodeRunner (c : NodeRunnerConfig) : result NodeRunner :=
  if str_eqb (AgentID c) "" then Fail (EMsg "noderunner: agent id required")
  else if negb (hasTask c) then Fail (EMsg "noderunner: task required")
  else if negb (hasLLM c) then Fail (EMsg "noderunner: llm client required")
  else if negb (hasStore c) then Fail (EMsg "noderunner: store required")
  else Ok {| cfg := with_defaults c; paused := false;
             tickCount := 0; stratCount := 0; beatCount := 0 |}.

Definition set_paused (n : NodeRunner) (p : bool) : NodeRunner := {|
  cfg := cfg n; paused := p; tickCount := tickCount n;
  stratCount := stratCount n; beatCount := beatCount n |}.

Definition Pause (n : NodeRunner) : NodeRunner := set_paused n true.
Definition Resume (n : NodeRunner) : NodeRunner := set_paused n false.
Definition IsPaused (n : NodeRunner) : bool := paused n.

(** ** The loops *)

(** [db.Trade]; [None] is a nil metadata column. *)
Record TradeRow := {
  row_AgentID : string;
  row_EpochID : string;
  row_Chain : string;
  row_TradeType : string;
  row_TokenPair : string;
  row_DEX : string;
  row_AmountIn : float;
  row_AmountOut : float;
  row_FeePaid : float;
  row_PnL : float;
  row_TxSignature : string;
  row_IsPaperTrade : bool;
  row_BanditPolicyUsed : string;
  row_Metadata : option string;
}.

(** [marshalMetadata] over [encoding/json]. *)
Definition marshalMetadata (json_Marshal : gmap string config_value -> result string)
    (m : gmap string config_value) : option string :=
  if bool_decide (m = ∅) then None
  else match json_Marshal m with Ok b => Some b | Fail _ => None end.

Definition trade_row (json_Marshal : gmap string config_value -> result string)
    (agentID : string) (t : Trade) : TradeRow := {|
  row_AgentID := agentID; row_EpochID := "";
  row_Chain := tr_Chain t; row_TradeType := tr_TradeType t;
  row_TokenPair := tr_TokenPair t; row_DEX := tr_DEX t;
  row_AmountIn := tr_AmountIn t; row_AmountOut := tr_AmountOut t;
  row_FeePaid := tr_FeePaid t; row_PnL := tr_PnL t;
  row_TxSignature := tr_TxSignature t; row_IsPaperTrade := tr_IsPaperTrade t;
  row_BanditPolicyUsed := tr_BanditPolicyUsed t;
  row_Metadata := marshalMetadata json_Marshal (tr_Metadata t) |}.

Inductive effect :=
  | ERunTick                      (* Task.RunTick *)
  | ELogTrade (row : TradeRow)    (* Store.LogTrade *)
  | EAcquire                      (* a strategist slot obtained *)
  | EStrategist                   (* Strategist.Run *)
  | ERelease                      (* the slot returned *)
  | EHeartbeat                    (* Store.UpdateHeartbeat *)
  | ECloseAll.                    (* Task.CloseAllPositions *)

(** Effects by kind. *)
Inductive kind := KTick | KTrade | KAcquire | KStrategist | KRelease | KHeartbeat | KClose.

#[export] Instance kind_eq_dec : EqDecision kind.
Proof. solve_decision. Defined.

Definition effect_kind (e : effect) : kind :=
  match e with
  | ERunTick => KTick | ELogTrade _ => KTrade | EAcquire => KAcquire
  | EStrategist => KStrategist | ERelease => KRelease | EHeartbeat => KHeartbeat
  | ECloseAll => KClose
  end.

Definition count (k : kind) (effs : list effect) : Z :=
  len (List.filter (fun e => bool_decide (effect_kind e = k)) effs).

Definition isAwake (n : NodeRunner) (now : Time) : bool :=
  if negb (hasHibernation (cfg n)) then true
  else IsAwake now (cfg_NodeClass (cfg n)) (g_SleepSchedule (cfg_Genome (cfg n)))
         (HibernationAnchor (cfg n)) (StrategistInterval (cfg n)).

Definition bump_ticks (n : NodeRunner) : NodeRunner := {|
  cfg := cfg n; paused := paused n; tickCount := wrap64 (tickCount n + 1);
  stratCount := stratCount n; beatCount := beatCount n |}.
Definition bump_strats (n : NodeRunner) : NodeRunner := {|
  cfg := cfg n; paused := paused n; tickCount := tickCount n;
  stratCount := wrap64 (stratCount n + 1); beatCount := beatCount n |}.
Definition bump_beats (n : NodeRunner) : NodeRunner := {|
  cfg := cfg n; paused := paused n; tickCount := tickCount n;
  stratCount := stratCount n; beatCount := wrap64 (beatCount n + 1) |}.

(** Where [monitorLoop] stands. *)
Inductive monitor_pc :=
  | MIdle                          (* at its select *)
  | MPaused | MBreaker | MAwake    (* a tick came in: about to read this guard *)
  | MCount | MTick                 (* past the guards: about to count, to call RunTick *)
  | MRunning                       (* inside RunTick *)
  | MLogging (trades : list Trade) (* these trades left to log *)
  | MDone.

(** One step of [monitorLoop].  A trade that cannot be logged is skipped. *)
Definition monitor_step (json_Marshal : gmap string config_value -> result string)
    (n : NodeRunner) (pc : monitor_pc) (breaker : CircuitBreaker) (now : Time)
    (RunTick : result (list Trade)) : NodeRunner * monitor_pc * list effect :=
  match pc with
  | MIdle => (n, MPaused, [])
  | MPaused => (n, if paused n then MIdle else MBreaker, [])
  | MBreaker => (n, if hasBreaker (cfg n) && Halted breaker then MIdle else MAwake, [])
  | MAwake => (n, if isAwake n now then MCount else MIdle, [])
  | MCount => (bump_ticks n, MTick, [])
  | MTick => (n, MRunning, [ERunTick])
  | MRunning => (n, match RunTick with Fail _ => MIdle | Ok trades => MLogging trades end, [])
  | MLogging [] => (n, MIdle, [])
  | MLogging (t :: ts) => (n, MLogging ts, [ELogTrade (trade_row json_Marshal (AgentID (cfg n)) t)])
  | MDone => (n, MDone, [])
  end.

(** Where [runStrategistOnce] stands. *)
Inductive once_pc :=
  | OAcquire      (* in AcquireStrategist, when there is a scheduler *)
  | OCall         (* about to call Strategist.Run *)
  | ORunning      (* inside Strategist.Run *)
  | OCount        (* it returned: about to count *)
  | ORelease.     (* in the deferred release *)

(** One step of [runStrategistOnce]; [None] is its return.  [acquire] is what
    the wait for a slot has come to: [None] while it blocks. *)
Definition once_step (n : NodeRunner) (pc : once_pc) (acquire : option (option gerror))
    : NodeRunner * option once_pc * list effect :=
  match pc, cfg_Scheduler (cfg n) with
  | OAcquire, None => (n, Some OCall, [])
  | OAcquire, Some _ =>
      match acquire with
      | None => (n, Some OAcquire, [])
      | Some (Some _) => (n, None, [])
      | Some None => (n, Some OCall, [EAcquire])
      end
  | OCall, _ => (n, Some ORunning, [EStrategist])
  | ORunning, _ => (n, Some OCount, [])
  | OCount, None => (bump_strats n, None, [])
  | OCount, Some _ => (bump_strats n, Some ORelease, [])
  | ORelease, _ => (n, None, [ERelease])
  end.

(** Where [strategistLoop] stands. *)
Inductive strategist_pc :=
  | SIdle | SPaused | SBreaker | SAwake
  | SOnce (o : once_pc)
  | SDone.

Definition strategist_step (n : NodeRunner) (pc : strategist_pc) (breaker : CircuitBreaker)
    (now : Time) (acquire : option (option gerror)) : NodeRunner * strategist_pc * list effect :=
  match pc with
  | SIdle => (n, SPaused, [])
  | SPaused => (n, if paused n then SIdle else SBreaker, [])
  | SBreaker => (n, if hasBreaker (cfg n) && Halted breaker then SIdle else SAwake, [])
  | SAwake => (n, if isAwake n now then SOnce OAcquire else SIdle, [])
  | SOnce o =>
      let '(n, o, effs) := once_step n o acquire in
      (n, match o with Some o => SOnce o | None => SIdle end, effs)
  | SDone => (n, SDone, [])
  end.

(** Where [heartbeatLoop] stands: it writes once before its loop. *)
Inductive heartbeat_pc := HFirst | HIdle | HCount | HDone.

Definition heartbeat_step (n : NodeRunner) (pc : heartbeat_pc) (UpdateHeartbeat : option gerror)
    : NodeRunner * heartbeat_pc * list effect :=
  match pc with
  | HFirst | HIdle =>
      (n, match UpdateHeartbeat with None => HCount | Some _ => HIdle end, [EHeartbeat])
  | HCount => (bump_beats n, HIdle, [])
  | HDone => (n, HDone, [])
  end.

(** [Run]'s shutdown: [err] is what [g.Wait] returns, [canceled] whether it is
    [context.Canceled]. *)
Definition Run_shutdown (err : option gerror) (canceled : bool) : list effect :=
  match err with
  | None => [ECloseAll]
  | Some _ => if canceled then [ECloseAll] else []
  end.

(** ** A running node *)

Record NodeState := {
  ns_runner : NodeRunner;
  monitor_at : monitor_pc;
  strategist_at : strategist_pc;
  heartbeat_at : heartbeat_pc;
  ctx_done : bool;          (* the context is cancelled *)
  returned : bool;          (* Run is over *)
}.

(** [Run] has started its three goroutines. *)
Definition started (n : NodeRunner) : NodeState := {|
  ns_runner := n; monitor_at := MIdle; strategist_at := SIdle; heartbeat_at := HFirst;
  ctx_done := false; returned := false |}.

Definition with_runner (n : NodeRunner) (s : NodeState) : NodeState := {|
  ns_runner := n; monitor_at := monitor_at s; strategist_at := strategist_at s;
  heartbeat_at := heartbeat_at s; ctx_done := ctx_done s; returned := returned s |}.
Definition with_monitor (m : NodeRunner * monitor_pc) (s : NodeState) : NodeState := {|
  ns_runner := m.1; monitor_at := m.2; strategist_at := strategist_at s;
  heartbeat_at := heartbeat_at s; ctx_done := ctx_done s; returned := returned s |}.
Definition with_strategist (m : NodeRunner * strategist_pc) (s : NodeState) : NodeState := {|
  ns_runner := m.1; monitor_at := monitor_at s; strategist_at := m.2;
  heartbeat_at := heartbeat_at s; ctx_done := ctx_done s; returned := returned s |}.
Definition with_heartbeat (m : NodeRunner * heartbeat_pc) (s : NodeState) : NodeState := {|
  ns_runner := m.1; monitor_at := monitor_at s; strategist_at := strategist_at s;
  heartbeat_at := m.2; ctx_done := ctx_done s; returned := returned s |}.

(** A step of the node.  A loop sees the cancellation only at its select,
    where a tick that is due may still be chosen instead; an event that the
    position does not allow changes nothing. *)
Inductive node_event :=
  | NPause
  | NResume
  | NCancel
  | NMonitor (breaker : CircuitBreaker) (now : Time) (RunTick : result (list Trade))
  | NStrategist (breaker : CircuitBreaker) (now : Time) (acquire : option (option gerror))
  | NHeartbeat (UpdateHeartbeat : option gerror)
  | NMonitorDone | NStrategistDone | NHeartbeatDone
  | NReturn.

Section Node.
Context (json_Marshal : gmap string config_value -> result string).

Definition node_step (s : NodeState) (e : node_event) : NodeState * list effect :=
  let n := ns_runner s in
  match e with
  | NPause => (with_runner (Pause n) s, [])
  | NResume => (with_runner (Resume n) s, [])
  | NCancel =>
      ({| ns_runner := n; monitor_at := monitor_at s; strategist_at := strategist_at s;
          heartbeat_at := heartbeat_at s; ctx_done := true; returned := returned s |}, [])
  | NMonitor b now r =>
      let '(n, pc, effs) := monitor_step json_Marshal n (monitor_at s) b now r in
      (with_monitor (n, pc) s, effs)
  | NStrategist b now a =>
      let '(n, pc, effs) := strategist_step n (strategist_at s) b now a in
      (with_strategist (n, pc) s, effs)
  | NHeartbeat u =>
      let '(n, pc, effs) := heartbeat_step n (heartbeat_at s) u in
      (with_heartbeat (n, pc) s, effs)
  | NMonitorDone =>
      (match monitor_at s with
       | MIdle => if ctx_done s then with_monitor (n, MDone) s else s | _ => s end, [])
  | NStrategistDone =>
      (match strategist_at s with
       | SIdle => if ctx_done s then with_strategist (n, SDone) s else s | _ => s end, [])
  | NHeartbeatDone =>
      (match heartbeat_at s with
       | HIdle => if ctx_done s then with_heartbeat (n, HDone) s else s | _ => s end, [])
  | NReturn =>
      match monitor_at s, strategist_at s, heartbeat_at s, returned s with
      | MDone, SDone, HDone, false =>
          ({| ns_runner := n; monitor_at := MDone; strategist_at := SDone; heartbeat_at := HDone;
              ctx_done := ctx_done s; returned := true |}, Run_shutdown None false)
      | _, _, _, _ => (s, [])
      end
  end.

Fixpoint node_run (s : NodeState) (events : list node_event) : NodeState * list effect :=
  match events with
  | [] => (s, [])
  | e :: events' =>
      let '(s, effs) := node_step s e in
      let '(s, rest) := node_run s events' in (s, effs ++ rest)
  end.

Lemma node_run_app l1 : forall s l2,
  node_run s (l1 ++ l2) =
    ((node_run (node_run s l1).1 l2).1, (node_run s l1).2 ++ (node_run (node_run s l1).1 l2).2).
Proof.
  induction l1 as [|e l1 IH]; intros s l2; cbn [app node_run fst snd]; [by destruct (node_run s l2)|].
  destruct (node_step s e) as [s1 effs]. rewrite IH. destruct (node_run s1 l1) as [s2 rest].
  cbn [fst snd]. by rewrite app_assoc.
Qed.

(** Splits a step by event and positions. *)
Ltac node_cases s e :=
  destruct e as [| | |b now r|b now a|u| | | |]; cbn [node_step];
  unfold monitor_step, strategist_step, once_step, heartbeat_step;
  destruct s as [n [| | | | | | |[|t ts]|] [| | | |[| | | |]|] [| | |] cd ret];
  cbn [monitor_at strategist_at heartbeat_at ns_runner ctx_done returned] in *.

(** *** Accounting *)

Lemma count_app k l1 l2 : count k (l1 ++ l2) = count k l1 + count k l2.
Proof. unfold count, len. rewrite List.filter_app, length_app. lia. Qed.

(** What is under way at a position: a tick counted and not yet made, a
    strategist cycle made and not yet counted, a slot held, a slot held by a
    cycle not yet made, a beat written and not yet counted. *)
Definition tick_counted (s : NodeState) : Z := match monitor_at s with MTick => 1 | _ => 0 end.
Definition cycle_uncounted (s : NodeState) : Z :=
  match strategist_at s with SOnce (ORunning | OCount) => 1 | _ => 0 end.
Definition slot_held (s : NodeState) : Z :=
  match strategist_at s with SOnce (OCall | ORunning | OCount | ORelease) => 1 | _ => 0 end.
Definition slot_idle (s : NodeState) : Z :=
  match strategist_at s with SOnce OCall => 1 | _ => 0 end.
Definition beat_uncounted (s : NodeState) : Z := match heartbeat_at s with HCount => 1 | _ => 0 end.

(** The books of a node that has done [effs]. *)
Record books (c : NodeRunnerConfig) (s : NodeState) (effs : list effect) : Prop := {
  bk_cfg : cfg (ns_runner s) = c;
  bk_ticks : tickCount (ns_runner s) = wrap64 (count KTick effs + tick_counted s);
  bk_strats : stratCount (ns_runner s) = wrap64 (count KStrategist effs - cycle_uncounted s);
  bk_slots : is_Some (cfg_Scheduler c) ->
    count KAcquire effs = count KRelease effs + slot_held s /\
    count KAcquire effs = count KStrategist effs + slot_idle s;
  bk_no_slots : cfg_Scheduler c = None ->
    count KAcquire effs = 0 /\ count KRelease effs = 0 /\ strategist_at s <> SOnce ORelease;
  bk_beats : exists beats, beatCount (ns_runner s) = wrap64 beats /\ 0 <= beats /\
    beats + beat_uncounted s <= count KHeartbeat effs;
  bk_done : monitor_at s = MDone \/ strategist_at s = SDone \/ heartbeat_at s = HDone ->
    ctx_done s = true;
  bk_returned : if returned s
    then monitor_at s = MDone /\ strategist_at s = SDone /\ heartbeat_at s = HDone /\
      count KClose effs = 1 /\ last effs = Some ECloseAll
    else count KClose effs = 0;
}.

(** What an effect is worth in a count. *)
Lemma count_one k e : count k [e] = if decide (effect_kind e = k) then 1 else 0.
Proof.
  unfold count. cbn [List.filter]. destruct (decide (effect_kind e = k)).
  - by rewrite bool_decide_eq_true_2.
  - by rewrite bool_decide_eq_false_2.
Qed.

Lemma count_nil k : count k [] = 0.
Proof. done. Qed.

(** Closes the fields of [books] after a step between known positions. *)
Ltac book H :=
  destruct H as [Hc Ht Hs Hl Hn (bts & Hb1 & Hb2 & Hb3) Hd Hr]; split;
  unfold tick_counted, cycle_uncounted, slot_held, slot_idle, beat_uncounted,
    with_monitor, with_strategist, with_heartbeat, with_runner in *;
  cbn [ns_runner monitor_at strategist_at heartbeat_at ctx_done returned fst snd
       Pause Resume set_paused bump_ticks bump_strats bump_beats cfg tickCount stratCount beatCount] in *;
  rewrite ?app_nil_r, ?count_app, ?count_one;
  repeat match goal with |- context [decide (effect_kind ?a = ?b)] =>
    destruct (decide (effect_kind a = b)) as [Hk|Hk]; [try discriminate Hk|try (by destruct Hk)]; clear Hk end;
  rewrite ?Z.add_0_r, ?Z.sub_0_r, ?Z.sub_simpl_r in *;
  try match goal with
      | |- cfg _ = _ => done
      | |- if ?ret then _ else _ => destruct ret
      | |- exists _, _ => first
          [ exists bts; split; [done|lia]
          | exists (bts + 1); split; [rewrite Hb1; apply wrap64_add|lia] ]
      end;
  try (rewrite Ht; apply wrap64_add);
  try (rewrite Hs, wrap64_add; f_equal; lia);
  try (rewrite Hs; f_equal; lia);
  try (intros [??]; congruence);
  try (intuition (discriminate || congruence || lia)).

Lemma books_monitor c s effs b now r :
  books c s effs ->
  books c (node_step s (NMonitor b now r)).1 (effs ++ (node_step s (NMonitor b now r)).2).
Proof.
  intros H. cbn [node_step]. destruct s as [n pc st hb cd ret]. cbn [monitor_at ns_runner].
  destruct pc as [| | | | | | |[|t ts]|]; cbn [monitor_step];
    repeat case_match; simplify_eq; cbn [fst snd]; book H.
Qed.

Lemma books_strategist c s effs b now a :
  books c s effs ->
  books c (node_step s (NStrategist b now a)).1 (effs ++ (node_step s (NStrategist b now a)).2).
Proof.
  intros H. cbn [node_step]. destruct s as [n pc st hb cd ret]. cbn [strategist_at ns_runner].
  pose proof (bk_cfg _ _ _ H) as E. cbn [ns_runner] in E.
  destruct st as [| | | |[| | | |]|]; cbn [strategist_step once_step];
    repeat case_match; simplify_eq; cbn [fst snd]; book H.
Qed.

(** A step that does nothing. *)
Ltac nothing := by cbn [fst snd monitor_at strategist_at heartbeat_at ctx_done returned]; rewrite app_nil_r.

Lemma books_step c s effs e :
  books c s effs -> books c (node_step s e).1 (effs ++ (node_step s e).2).
Proof.
  destruct e; [..|by apply books_monitor|by apply books_strategist| | | | |]; intros H;
    destruct s as [n pc st hb cd ret]; cbn [node_step].
  - book H.
  - book H.
  - book H.
  - destruct hb; cbn [heartbeat_step heartbeat_at]; repeat case_match; simplify_eq; book H.
  - destruct pc, cd; nothing || book H.
  - destruct st, cd; nothing || book H.
  - destruct hb, cd; nothing || book H.
  - destruct pc; try nothing. destruct st; try nothing. destruct hb, ret; try nothing. book H.
    unfold Run_shutdown. by rewrite last_snoc, Hr.
Qed.

Lemma books_run c events : forall s effs,
  books c s effs -> books c (node_run s events).1 (effs ++ (node_run s events).2).
Proof.
  induction events as [|e events IH]; intros s effs H; cbn [node_run fst snd]; [by rewrite app_nil_r|].
  apply (books_step c s effs e) in H. destruct (node_step s e) as [s1 e1]. cbn [fst snd] in *. apply IH in H.
  destruct (node_run s1 events). cbn [fst snd] in *. by rewrite app_assoc.
Qed.

(** Over any interleaving of its goroutines a new runner's counters are the
    ticks it made and the strategist cycles that came back, every strategist
    slot it took it gave back but the one it holds, one per cycle, it counts no
    heartbeat it did not write, no loop ends before the cancellation, and the
    positions are closed once, after the three loops have ended and as the
    last thing the node does. *)
Theorem node_run_accounting c n events :
  NewNodeRunner c = Ok n ->
  books (with_defaults c) (node_run (started n) events).1 (node_run (started n) events).2.
Proof.
  intros Hnew. unfold NewNodeRunner in Hnew.
  destruct (str_eqb _ _), (negb (hasTask c)), (negb (hasLLM c)), (negb (hasStore c)); try done.
  injection Hnew as <-. apply (books_run _ _ _ []).
  split; cbn; try done; [by exists 0|]. intros [?|[?|?]]; congruence.
Qed.

(** *** Heartbeats *)

Definition is_beat (e : node_event) : bool :=
  match e with NHeartbeat _ | NHeartbeatDone | NCancel => true | _ => false end.

Definition beats (effs : list effect) : list effect :=
  List.filter (fun e => bool_decide (effect_kind e = KHeartbeat)) effs.

(** What the heartbeat goroutine reads of a node. *)
Definition same_beat (s s' : NodeState) : Prop :=
  heartbeat_at s = heartbeat_at s' /\ ctx_done s = ctx_done s'.

Lemma beat_step s s' e :
  same_beat s s' ->
  if is_beat e
  then beats (node_step s e).2 = (node_step s' e).2 /\ same_beat (node_step s e).1 (node_step s' e).1
  else beats (node_step s e).2 = [] /\ same_beat (node_step s e).1 s'.
Proof.
  destruct s as [n pc st hb cd ret], s' as [n' pc' st' hb' cd' ret'].
  unfold same_beat. cbn [heartbeat_at ctx_done]. intros [-> ->].
  destruct e; cbn [is_beat node_step monitor_at strategist_at heartbeat_at ctx_done returned ns_runner];
    unfold monitor_step, strategist_step, once_step, heartbeat_step;
    repeat case_match; simplify_eq; done.
Qed.

(** The heartbeats of a run are those the heartbeat goroutine would write
    were nothing else to happen to the node, and it not paused. *)
Lemma beats_run events : forall s s',
  same_beat s s' -> beats (node_run s events).2 = (node_run s' (List.filter is_beat events)).2.
Proof.
  induction events as [|e events IH]; intros s s' H; [done|].
  pose proof (beat_step s s' e H) as He. cbn [node_run List.filter].
  destruct (is_beat e); cbn [node_run]; destruct He as [E1 H1];
    destruct (node_step s e) as [s1 e1]; cbn [fst snd] in *.
  - destruct (node_step s' e) as [s1' e1']. cbn [fst snd] in *. specialize (IH s1 s1' H1).
    destruct (node_run s1 events), (node_run s1' _). cbn [fst snd] in *.
    unfold beats in *. by rewrite List.filter_app, E1, IH.
  - specialize (IH s1 s' H1). destruct (node_run s1 events). cbn [fst snd] in *.
    unfold beats in *. by rewrite List.filter_app, E1, IH.
Qed.

(** *** Guards *)

(** The three things that keep a loop from its work. *)
Inductive guard := GPaused | GHalted | GAsleep.

(** Nothing a loop reads from here on lets it through the guard. *)
Definition keeps_shut (g : guard) (n : NodeRunner) (e : node_event) : Prop :=
  match g, e with
  | GPaused, NResume => False
  | GHalted, (NMonitor b _ _ | NStrategist b _ _) => Halted b = true
  | GAsleep, (NMonitor _ now _ | NStrategist _ now _) => isAwake n now = false
  | _, _ => True
  end.

Definition shut (g : guard) (n : NodeRunner) : Prop :=
  match g with
  | GPaused => paused n = true
  | GHalted => hasBreaker (cfg n) = true
  | GAsleep => True
  end.

(** The loop has read the guard and is about to work. *)
Definition tick_passed (g : guard) (pc : monitor_pc) : bool :=
  match pc, g with
  | (MCount | MTick), _ => true
  | MAwake, (GPaused | GHalted) => true
  | MBreaker, GPaused => true
  | _, _ => false
  end.

Definition cycle_passed (g : guard) (pc : strategist_pc) : bool :=
  match pc, g with
  | SOnce (OAcquire | OCall), _ => true
  | SAwake, (GPaused | GHalted) => true
  | SBreaker, GPaused => true
  | _, _ => false
  end.

(** The trades the monitor may still log: those it is logging, or those that
    the tick it has passed on to, or is in, answers. *)
Definition trades_due (g : guard) (pc : monitor_pc) (events : list node_event) (ts : list Trade) : Prop :=
  match pc with
  | MLogging ts' => ts = ts'
  | MRunning => ts = [] \/ exists b now, NMonitor b now (Ok ts) ∈ events
  | _ => ts = [] \/ (tick_passed g pc = true /\ exists b now, NMonitor b now (Ok ts) ∈ events)
  end.

Definition logged (effs : list effect) : list TradeRow :=
  omap (fun e => match e with ELogTrade row => Some row | _ => None end) effs.

(** The loop stands before the guard. *)
Definition monitor_before (g : guard) (pc : monitor_pc) : bool :=
  match pc with MRunning | MLogging _ => false | _ => negb (tick_passed g pc) end.
Definition strategist_before (g : guard) (pc : strategist_pc) : bool :=
  match pc with SOnce _ => false | _ => negb (cycle_passed g pc) end.

Definition before_guard (g : guard) (s : NodeState) : bool :=
  monitor_before g (monitor_at s) && strategist_before g (strategist_at s).

(** What a node shut out by a guard may still do. *)
Record only_in_flight (g : guard) (s : NodeState) (events : list node_event)
    (effs : list effect) : Prop := {
  fl_ticks : count KTick effs <= Z.b2z (tick_passed g (monitor_at s));
  fl_cycles : count KStrategist effs <= Z.b2z (cycle_passed g (strategist_at s));
  fl_trades : exists ts, trades_due g (monitor_at s) events ts /\
    logged effs `prefix_of` (trade_row json_Marshal (AgentID (cfg (ns_runner s))) <$> ts);
  fl_quiet : before_guard g s = true ->
    Forall (fun e => effect_kind e = KHeartbeat \/ effect_kind e = KClose) effs;
}.

Lemma isAwake_cfg n n' now : cfg n = cfg n' -> isAwake n now = isAwake n' now.
Proof. unfold isAwake. by intros ->. Qed.

Lemma node_step_cfg s e : cfg (ns_runner (node_step s e).1) = cfg (ns_runner s).
Proof.
  destruct s as [n pc st hb cd ret]. destruct e; cbn [node_step];
    unfold monitor_step, strategist_step, once_step, heartbeat_step; by repeat case_match; simplify_eq.
Qed.

Lemma shut_step g s e :
  shut g (ns_runner s) -> keeps_shut g (ns_runner s) e -> shut g (ns_runner (node_step s e).1).
Proof.
  destruct g; cbn [shut]; [|by rewrite node_step_cfg|done].
  destruct s as [n pc st hb cd ret]. destruct e; cbn [node_step keeps_shut]; try done;
    unfold monitor_step, strategist_step, once_step, heartbeat_step; by repeat case_match; simplify_eq.
Qed.

Lemma keeps_shut_cfg g n n' e : cfg n = cfg n' -> keeps_shut g n e -> keeps_shut g n' e.
Proof. intros E. destruct g, e; cbn; try done; by rewrite (isAwake_cfg n n' _ E). Qed.

(** The guards, one step at a time. *)
Lemma monitor_step_gated g n pc b now r :
  shut g n -> keeps_shut g n (NMonitor b now r) ->
  let '(_, pc', effs) := monitor_step json_Marshal n pc b now r in
  count KTick effs + Z.b2z (tick_passed g pc') <= Z.b2z (tick_passed g pc) /\
  count KStrategist effs = 0.
Proof.
  intros Hs Hk. destruct pc as [| | | | | | |[|t ts]|]; cbn [monitor_step]; try done;
    destruct g; cbn in Hs, Hk; rewrite ?Hs, ?Hk; cbn; repeat case_match; done.
Qed.

Lemma strategist_step_gated g n pc b now a :
  shut g n -> keeps_shut g n (NStrategist b now a) ->
  let '(_, pc', effs) := strategist_step n pc b now a in
  count KStrategist effs + Z.b2z (cycle_passed g pc') <= Z.b2z (cycle_passed g pc) /\
  count KTick effs = 0 /\ logged effs = [].
Proof.
  intros Hs Hk. destruct pc as [| | | |[| | | |]|]; cbn [strategist_step once_step]; try done;
    destruct g; cbn in Hs, Hk; rewrite ?Hs, ?Hk; cbn; repeat case_match; simplify_eq; done.
Qed.

Lemma trades_due_later g pc e events ts :
  trades_due g pc events ts -> trades_due g pc (e :: events) ts.
Proof.
  destruct pc; cbn; try done;
    (intros [?|H]; [by left|right]); decompose [and ex] H; repeat split; eauto using list_elem_of_further.
Qed.

(** The monitor's step: a trade due after it was due before it. *)
Lemma trades_step_monitor g n pc b now r events ts rows :
  shut g n -> keeps_shut g n (NMonitor b now r) ->
  let row t := trade_row json_Marshal (AgentID (cfg n)) t in
  let '(_, pc', effs) := monitor_step json_Marshal n pc b now r in
  trades_due g pc' events ts -> rows `prefix_of` (row <$> ts) ->
  exists ts', trades_due g pc (NMonitor b now r :: events) ts' /\
    logged effs ++ rows `prefix_of` (row <$> ts').
Proof.
  intros Hs Hk row. pose proof (monitor_step_gated g n pc b now r Hs Hk) as Hg.
  destruct pc as [| | | | | | |[|t ts']|]; cbn [monitor_step] in *.
  7: { intros Hd Hr. destruct r as [trades|err]; exists ts; (split; [|done]).
       - cbn in Hd |- *. subst. right. exists b, now. by left.
       - left. by destruct Hd as [?|[? _]]. }
  7: { intros [->|[? _]] Hr; [|done]. by exists []. }
  7: { cbn. intros -> Hr. exists (t :: ts'). split; [done|]. by apply prefix_cons. }
  all: intros Hd Hr; exists ts; (split; [|done]);
    repeat case_match; destruct g; cbn in Hs, Hk; simplify_eq;
    destruct Hd as [->|Hd]; try (by left); try (right; decompose [and ex] Hd);
    cbn in *; try congruence; try (exfalso; destruct Hg as [Hg _]; rewrite count_nil in Hg; lia);
    repeat split; eauto using list_elem_of_further.
Qed.

Lemma trades_step g s e events ts rows :
  shut g (ns_runner s) -> keeps_shut g (ns_runner s) e ->
  trades_due g (monitor_at (node_step s e).1) events ts ->
  rows `prefix_of` (trade_row json_Marshal (AgentID (cfg (ns_runner s))) <$> ts) ->
  exists ts', trades_due g (monitor_at s) (e :: events) ts' /\
    logged (node_step s e).2 ++ rows `prefix_of`
      (trade_row json_Marshal (AgentID (cfg (ns_runner s))) <$> ts').
Proof.
  intros Hs Hk. destruct e as [| | |b now r|b now a|u| | | |]; cbn [node_step].
  4: { pose proof (trades_step_monitor g (ns_runner s) (monitor_at s) b now r events ts rows Hs Hk) as H.
       by destruct (monitor_step _ _ _ _ _ _) as [[n' pc'] effs]. }
  4: { pose proof (strategist_step_gated g (ns_runner s) (strategist_at s) b now a Hs Hk) as H.
       destruct (strategist_step _ _ _ _ _) as [[n' pc'] effs]. destruct H as (_ & _ & H).
       intros Hd Hr. exists ts. split; [by apply trades_due_later|]. cbn [snd]. by rewrite H. }
  all: intros Hd Hr; exists ts; (split; [apply trades_due_later|]);
    destruct s as [n pc st hb cd ret]; cbn [monitor_at strategist_at heartbeat_at ctx_done returned ns_runner] in *;
    try done; unfold heartbeat_step in *; repeat case_match; simplify_eq; done.
Qed.

(** The counts of a step. *)
Lemma counts_step g s e :
  shut g (ns_runner s) -> keeps_shut g (ns_runner s) e ->
  count KTick (node_step s e).2 + Z.b2z (tick_passed g (monitor_at (node_step s e).1))
    <= Z.b2z (tick_passed g (monitor_at s)) /\
  count KStrategist (node_step s e).2 + Z.b2z (cycle_passed g (strategist_at (node_step s e).1))
    <= Z.b2z (cycle_passed g (strategist_at s)).
Proof.
  intros Hs Hk. destruct e as [| | |b now r|b now a|u| | | |]; cbn [node_step].
  4: { pose proof (monitor_step_gated g (ns_runner s) (monitor_at s) b now r Hs Hk) as H.
       destruct (monitor_step _ _ _ _ _ _) as [[n' pc'] effs]. destruct H as [H E].
       cbn [fst snd]. by rewrite E. }
  4: { pose proof (strategist_step_gated g (ns_runner s) (strategist_at s) b now a Hs Hk) as H.
       destruct (strategist_step _ _ _ _ _) as [[n' pc'] effs]. destruct H as (H & E & _).
       cbn [fst snd]. by rewrite E. }
  all: destruct s as [n pc st hb cd ret];
    cbn [monitor_at strategist_at heartbeat_at ctx_done returned ns_runner] in *; try done.
  - destruct hb, u; done.
  - destruct pc, cd, g; done.
  - destruct st, cd, g; done.
  - by destruct hb, cd.
  - destruct pc; try done. destruct st; try done. by destruct hb, ret.
Qed.

(** Before the guard a loop does nothing and stays there. *)
Lemma monitor_step_quiet g n pc b now r :
  shut g n -> keeps_shut g n (NMonitor b now r) -> monitor_before g pc = true ->
  let '(_, pc', effs) := monitor_step json_Marshal n pc b now r in
  monitor_before g pc' = true /\ effs = [].
Proof.
  intros Hs Hk. destruct pc; cbn [monitor_step]; try done;
    destruct g; cbn in Hs, Hk; rewrite ?Hs, ?Hk; cbn; repeat case_match; done.
Qed.

Lemma strategist_step_quiet g n pc b now a :
  shut g n -> keeps_shut g n (NStrategist b now a) -> strategist_before g pc = true ->
  let '(_, pc', effs) := strategist_step n pc b now a in
  strategist_before g pc' = true /\ effs = [].
Proof.
  intros Hs Hk. destruct pc; cbn [strategist_step]; try done;
    destruct g; cbn in Hs, Hk; rewrite ?Hs, ?Hk; cbn; repeat case_match; done.
Qed.

Lemma quiet_step g s e :
  shut g (ns_runner s) -> keeps_shut g (ns_runner s) e -> before_guard g s = true ->
  before_guard g (node_step s e).1 = true /\
  Forall (fun e => effect_kind e = KHeartbeat \/ effect_kind e = KClose) (node_step s e).2.
Proof.
  intros Hs Hk [Hm Hst]%andb_true_iff. unfold before_guard.
  destruct e as [| | |b now r|b now a|u| | | |]; cbn [node_step].
  4: { pose proof (monitor_step_quiet g (ns_runner s) (monitor_at s) b now r Hs Hk Hm) as H.
       destruct (monitor_step _ _ _ _ _ _) as [[n' pc'] effs]. destruct H as [H ->].
       cbn. by rewrite H, Hst. }
  4: { pose proof (strategist_step_quiet g (ns_runner s) (strategist_at s) b now a Hs Hk Hst) as H.
       destruct (strategist_step _ _ _ _ _) as [[n' pc'] effs]. destruct H as [H ->].
       cbn. by rewrite H, Hm. }
  all: destruct s as [n pc st hb cd ret]; cbn in *.
  - by rewrite Hm, Hst.
  - by rewrite Hm, Hst.
  - by rewrite Hm, Hst.
  - destruct hb, u; cbn; rewrite Hm, Hst; repeat constructor.
  - destruct pc, cd; cbn in *; rewrite ?Hst, ?Hm; by destruct g.
  - destruct st, cd; cbn in *; rewrite ?Hst, ?Hm; by destruct g.
  - destruct hb, cd; cbn; by rewrite Hm, Hst.
  - destruct pc; cbn in *; rewrite ?Hm, ?Hst; try done.
    destruct st; cbn in *; rewrite ?Hst; try done.
    destruct hb, ret; cbn; (split; [done|]); try apply Forall_nil_2.
    apply Forall_singleton. by right.
Qed.

Lemma in_flight_run g events : forall s,
  shut g (ns_runner s) -> Forall (keeps_shut g (ns_runner s)) events ->
  only_in_flight g s events (node_run s events).2.
Proof.
  induction events as [|e events IH]; intros s Hs Hk.
  - split; cbn [node_run snd].
    + by destruct (tick_passed _ _).
    + by destruct (cycle_passed _ _).
    + destruct (monitor_at s); try (exists []; split; [by left|done]).
      eexists. split; [done|]. apply prefix_nil.
    + constructor.
  - apply Forall_cons in Hk as [He Hk].
    pose proof (counts_step g s e Hs He) as [Ht Hc]. pose proof (quiet_step g s e Hs He) as Hq.
    pose proof (trades_step g s e events) as Htr. pose proof (shut_step g s e Hs He) as Hs1.
    pose proof (node_step_cfg s e) as Hcfg.
    assert (Hk1 : Forall (keeps_shut g (ns_runner (node_step s e).1)) events).
    { eapply Forall_impl; [exact Hk|]. intros e'. by apply keeps_shut_cfg. }
    cbn [node_run]. destruct (node_step s e) as [s1 effs]. cbn [fst snd] in *.
    destruct (IH s1 Hs1 Hk1) as [T Cy (ts & Hd & Hp) Q]. rewrite Hcfg in Hp.
    destruct (node_run s1 events) as [s2 rest]. cbn [fst snd] in *.
    split.
    + rewrite count_app. lia.
    + rewrite count_app. lia.
    + destruct (Htr ts (logged rest) Hs He Hd Hp) as (ts' & Hd' & Hp'). exists ts'.
      split; [done|]. unfold logged in *. by rewrite omap_app.
    + intros Hb. destruct (Hq Hb) as [Hb1 F]. apply Forall_app. auto.
Qed.

End Node.

(** ** The strategist slots of the swarm

    The weighted semaphore lets a caller in when the slots held stay within
    the capacity, and keeps it waiting otherwise. *)

Definition AcquireStrategist (s : option Scheduler) (held : Z) : result (option Z) :=
  match s with
  | None => Fail (EMsg "scheduler: nil receiver")
  | Some s => Ok (if held + 1 <=? maxLLM s then Some (held + 1) else None)
  end.

Definition ReleaseStrategist (s : option Scheduler) (held : Z) : Z :=
  match s with None => held | Some s => held - 1 end.

(** The runners that are inside [runStrategistOnce], and the slots held. *)
Inductive slot_step (s : Scheduler) : gset nat * Z -> gset nat * Z -> Prop :=
  | slot_acquire i inside held held' :
      i ∉ inside -> AcquireStrategist (Some s) held = Ok (Some held') ->
      slot_step s (inside, held) ({[i]} ∪ inside, held')
  | slot_release i inside held :
      i ∈ inside ->
      slot_step s (inside, held) (inside ∖ {[i]}, ReleaseStrategist (Some s) held).

(** However the runners interleave, the strategist calls in flight never
    exceed the configured cap, and a release always finds a slot held. *)
Theorem strategist_cap maxConcurrentLLM step inside held :
  let s := NewScheduler maxConcurrentLLM step in
  reach (slot_step s) (∅, 0) (inside, held) ->
  Z.of_nat (size inside) = held /\ held <= MaxStrategistConcurrency (Some s) /\
  (inside <> ∅ -> 1 <= held).
Proof.
  intros s Hr.
  assert (Hmax : 0 < maxLLM s) by (cbn; destruct (Z.leb_spec maxConcurrentLLM 0); lia).
  clearbody s.
  assert (Hinv : Z.of_nat (size (inside, held).1) = (inside, held).2 /\ (inside, held).2 <= maxLLM s).
  { refine (reach_invariant (slot_step s)
      (fun st => Z.of_nat (size st.1) = st.2 /\ st.2 <= maxLLM s) _ (∅, 0) _ Hr _).
    - intros st st' Hstep [H1 H2]. destruct Hstep as [i ins h h' Hi Ha|i ins h Hi]; cbn in *.
      + destruct (Z.leb_spec (h + 1) (maxLLM s)); [|done]. injection Ha as <-.
        rewrite size_union, size_singleton by set_solver. lia.
      + rewrite size_difference, size_singleton by set_solver. 
        assert (size ins <> 0%nat) by (rewrite size_non_empty_iff; set_solver). lia.
    - cbn. rewrite size_empty. lia. }
  destruct Hinv as [H1 H2]. cbn [fst snd] in H1, H2. split; [done|]. split; [done|].
  intros Hne. assert (size inside <> 0%nat) by (by rewrite size_non_empty_iff, leibniz_equiv_iff). lia.
Qed.

(** ** A concrete node *)

Definition no_json : gmap string config_value -> result string :=
  fun _ => Fail (EMsg "unsupported").

Definition node_genome : AgentGenome := {|
  Name := "n"; Generation := 0; LineageDepth := 0; TaskType := "momentum"; Chain := "solana";
  StrategyConfig := None; StrategistPrompt := ""; StrategistModel := "gpt-4o";
  StrategistIntervalSeconds := 0; BanditPolicies := []; LearnedRules := [];
  CapitalAllocation := 0;
  g_ReproductionPolicy := {| MinProfitableEpochs := 0; MinRealizedNetProfitUSD := 0;
    OffspringSeedCapitalUSD := 0; OffspringAPIReserveUSD := 0; OffspringFailureBufferUSD := 0;
    MaxDescendantsPerEpoch := 0; AllowTaskTypeMutation := false;
    AllowChainMutation := false; AllowModelMutation := false |};
  g_CostPolicy := {| MonthlyLLMBudgetUSD := 0; MonthlyInfraRentBudgetUSD := 0;
    PauseOnBudgetBreach := false |};
  g_CommunicationPolicy := {| SubscribeChannels := []; PublishChannels := [];
    MaxBroadcastsPerCycle := 0; IntelSummaryMaxItems := 0; RequireBullBearTag := false |};
  g_SleepSchedule := {| AwakeWindowMinutes := 0; SleepBetween := false; WakeForBacktest := false |};
|}.

Definition node_config (breaker : bool) : NodeRunnerConfig := {|
  AgentID := "a"; cfg_Genome := node_genome; hasTask := true; hasLLM := true; hasStore := true;
  cfg_Scheduler := Some (NewScheduler 0 0); MonitorInterval := 0; StrategistInterval := 0;
  HeartbeatInterval := 0; MaxOutputTokens := 0; hasBreaker := breaker; hasHibernation := true;
  cfg_NodeClass := "funded"; HibernationAnchor := 0 |}.

Definition node (breaker : bool) : NodeRunner := {|
  cfg := with_defaults (node_config breaker); paused := false;
  tickCount := 0; stratCount := 0; beatCount := 0 |}.

Definition open_breaker : CircuitBreaker := NewCircuitBreaker 0.
Definition tripped_breaker : CircuitBreaker := Trip "market_crash" 5 open_breaker.

Definition sample_trade : Trade := {|
  tr_ID := ""; tr_AgentID := ""; tr_EpochID := ""; tr_ExecutedAt := 0;
  tr_Chain := "solana"; tr_TradeType := "swap"; tr_TokenPair := "SOL/USDC"; tr_DEX := "jupiter";
  tr_AmountIn := 1; tr_AmountOut := 150; tr_FeePaid := 0; tr_PnL := 0; tr_TxSignature := "sig";
  tr_IsPaperTrade := false; tr_BanditPolicyUsed := ""; tr_Metadata := ∅ |}.

Definition monitors (k : nat) (b : CircuitBreaker) (now : Time) (r : result (list Trade)) : list node_event :=
  replicate k (NMonitor b now r).
Definition strategists (k : nat) (b : CircuitBreaker) (now : Time) (a : option (option gerror)) : list node_event :=
  replicate k (NStrategist b now a).

(** A tick that has passed its guards and a cycle that waits for its slot. *)
Definition mid_tick : list node_event :=
  [NHeartbeat None; NHeartbeat None] ++ monitors 4 open_breaker 1 (Ok []) ++
  strategists 5 open_breaker 2 None.

(** A pause that finds both there. *)
Definition pause_in_flight : list node_event :=
  monitors 4 open_breaker 4 (Ok [sample_trade]) ++ strategists 2 open_breaker 5 (Some None) ++
  [NHeartbeat None] ++ monitors 8 open_breaker 6 (Ok [sample_trade]) ++ strategists 9 open_breaker 7 (Some None).

(** The node still trades, takes its slot and asks the model, once. *)
Example paused_node_still_trades :
  let s := (node_run no_json (started (node true)) (mid_tick ++ [NPause])).1 in
  paused (ns_runner s) = true /\
  (node_run no_json s pause_in_flight).2 =
    [ERunTick; ELogTrade (trade_row no_json "a" sample_trade); EAcquire; EStrategist; EHeartbeat; ERelease].
Proof. by vm_compute. Qed.

(** A day of the node, to its shutdown. *)
Definition node_day : list node_event :=
  mid_tick ++ [NPause] ++ pause_in_flight ++ [NHeartbeat None; NResume] ++
  monitors 2 tripped_breaker 9 (Ok []) ++
  [NReturn; NCancel; NMonitorDone; NHeartbeatDone; NStrategistDone; NReturn; NReturn].

Lemma node_run_accounting_witness :
  (node_run no_json (started (node true)) node_day).2 =
    [EHeartbeat; ERunTick; ELogTrade (trade_row no_json "a" sample_trade); EAcquire; EStrategist;
     EHeartbeat; ERelease; ECloseAll] /\
  books (with_defaults (node_config true)) (node_run no_json (started (node true)) node_day).1
    (node_run no_json (started (node true)) node_day).2.
Proof.
  split; [by vm_compute|].
  exact (node_run_accounting no_json (node_config true) (node true) node_day eq_refl).
Defined.


Lemma strategist_cap_witness :
  exists st, reach (slot_step (NewScheduler 1 0)) (∅, 0) st /\
    Z.of_nat (size st.1) = 1 /\ st.2 <= 1.
Proof.
  assert (Hr : reach (slot_step (NewScheduler 1 0)) (∅, 0) ({[3%nat]} ∪ ∅, 1)).
  { eapply reach_step; [apply reach_refl|]. by apply slot_acquire. }
  exists ({[3%nat]} ∪ ∅, 1). split; [exact Hr|].
  destruct (strategist_cap 1 0 ({[3%nat]} ∪ ∅) 1 Hr) as (H1 & H2 & _).
  exact (conj H1 H2).
Defined.

Lemma StaggerOffset_spaced_witness :
  StaggerOffset (Some (NewScheduler 0 0)) 2 + 500000000 <= StaggerOffset (Some (NewScheduler 0 0)) 7.
Proof.
  apply (StaggerOffset_spaced (NewScheduler 0 0) 2 7); [reflexivity|lia|].
  vm_compute. discriminate.
Defined.
