(* ===== verification/Swarm.v ===== *)
(** * The swarm runtime ([internal/runtime/swarm.go])

    The runtime keeps a map from agent ids to runner handles.  A handle is a
    pointer: the map holds its index in [handles], where every runner ever
    started stays, so a runner that is no longer in the map but was never
    cancelled is still there.  Events are dispatched one at a time by the
    goroutine that runs [Run].  [tasks.Build], the model registry and the
    decoding of the bandit column are arguments. *)
From Stdlib Require Import ZArith Lia Floats.
From stdpp Require Import base list strings gmap.
From S2P Require Import Prelude GoBase GoFloat Genome CircuitBreaker Hibernation Lifecycle NodeRunner.
Open Scope Z_scope.

Record runnerHandle := {
  runner : NodeRunner;
  bandit : option (list string);  (* the arms of its bandit *)
  offset : Duration;
  cancelled : bool;
}.

Record SwarmRuntime := {
  scheduler : Scheduler;
  runners : gmap string nat;
  handles : list runnerHandle;
  staged : Z;
  monitorInterval : Duration;
  heartbeatInterval : Duration;
  strategistInterval : Duration;
}.

Definition NewSwarm (hasStore hasLLMs : bool) (sched : option Scheduler)
    (monitor heartbeat strategist : Duration) : result SwarmRuntime :=
  if negb hasStore then Fail (EMsg "swarm: store required")
  else if negb hasLLMs then Fail (EMsg "swarm: llm registry required")
  else Ok {| scheduler := default (NewScheduler 0 0) sched;
             runners := ∅; handles := []; staged := 0;
             monitorInterval := monitor; heartbeatInterval := heartbeat;
             strategistInterval := strategist |}.

Definition set_runners (s : SwarmRuntime) (rs : gmap string nat) (hs : list runnerHandle)
    (st : Z) : SwarmRuntime := {|
  scheduler := scheduler s; runners := rs; handles := hs; staged := st;
  monitorInterval := monitorInterval s; heartbeatInterval := heartbeatInterval s;
  strategistInterval := strategistInterval s |}.

Definition cancel (h : runnerHandle) : runnerHandle := {|
  runner := runner h; bandit := bandit h; offset := offset h; cancelled := true |}.

Definition on_runner (f : NodeRunner -> NodeRunner) (h : runnerHandle) : runnerHandle := {|
  runner := f (runner h); bandit := bandit h; offset := offset h; cancelled := cancelled h |}.

Definition RunnerCount (s : SwarmRuntime) : Z := Z.of_nat (size (runners s)).

Definition Runner (s : SwarmRuntime) (id : string) : option NodeRunner :=
  i ← runners s !! id; runner <$> handles s !! i.

Definition empty_policy : ReproductionPolicy := {|
  MinProfitableEpochs := 0; MinRealizedNetProfitUSD := 0; OffspringSeedCapitalUSD := 0;
  OffspringAPIReserveUSD := 0; OffspringFailureBufferUSD := 0; MaxDescendantsPerEpoch := 0;
  AllowTaskTypeMutation := false; AllowChainMutation := false; AllowModelMutation := false |}.

(** The genome rebuilt from a row: the fields the code leaves out keep their
    zero values. *)
Definition row_genome (row : Agent) : AgentGenome := {|
  Name := ag_Name row; Generation := ag_Generation row; LineageDepth := ag_LineageDepth row;
  TaskType := ag_TaskType row; Chain := ag_Chain row; StrategyConfig := None;
  StrategistPrompt := ag_StrategistPrompt row; StrategistModel := ag_StrategistModel row;
  StrategistIntervalSeconds := ag_StrategistIntervalSeconds row;
  BanditPolicies := []; LearnedRules := [];
  CapitalAllocation := ag_CapitalAllocated row;
  g_ReproductionPolicy := empty_policy;
  g_CostPolicy := {| MonthlyLLMBudgetUSD := 0; MonthlyInfraRentBudgetUSD := 0;
    PauseOnBudgetBreach := false |};
  g_CommunicationPolicy := {| SubscribeChannels := []; PublishChannels := [];
    MaxBroadcastsPerCycle := 0; IntelSummaryMaxItems := 0; RequireBullBearTag := false |};
  g_SleepSchedule := {| AwakeWindowMinutes := 0; SleepBetween := false; WakeForBacktest := false |};
|}.

Section Swarm.
Context (Build : string -> string -> option gerror).
Context (LLMGet : string -> option gerror).
Context (decode_names : string -> result (list string)).
Context {E : EventCodec}.

Definition row_bandit (row : Agent) : option (list string) :=
  if str_eqb (ag_BanditPolicies row) "" then None
  else match decode_names (ag_BanditPolicies row) with
       | Ok [] => None
       | Ok names => Some names
       | Fail _ => None
       end.

(** The configuration the swarm gives a runner. *)
Definition row_config (s : SwarmRuntime) (row : Agent) : NodeRunnerConfig := {|
  AgentID := ag_ID row; cfg_Genome := row_genome row;
  hasTask := true; hasLLM := true; hasStore := true;
  cfg_Scheduler := Some (scheduler s);
  MonitorInterval := monitorInterval s; StrategistInterval := strategistInterval s;
  HeartbeatInterval := heartbeatInterval s; MaxOutputTokens := 0;
  hasBreaker := false; hasHibernation := false; cfg_NodeClass := "";
  HibernationAnchor := zero_time |}.

Definition startFromRow (s : SwarmRuntime) (row : Agent) : option gerror * SwarmRuntime :=
  if str_eqb (ag_ID row) "" then (Some (EMsg "agent row missing id"), s)
  else
    match Build (ag_TaskType row) (ag_StrategyConfig row) with
    | Some err => (Some (EWrap "build task: %w" err), s)
    | None =>
    match LLMGet (ag_StrategistModel row) with
    | Some err => (Some (EWrap "resolve llm: %w" err), s)
    | None =>
    match NewNodeRunner (row_config s row) with
    | Fail err => (Some (EWrap "new runner: %w" err), s)
    | Ok nr =>
      let h := {| runner := nr; bandit := row_bandit row;
                  offset := StaggerOffset (Some (scheduler s)) (staged s);
                  cancelled := false |} in
      (None, set_runners s (<[ag_ID row := length (handles s)]> (runners s))
               (handles s ++ [h]) (wrap64 (staged s + 1)))
    end end end.

(** The loop of [LoadAndStart] over the rows. *)
Fixpoint start_rows (s : SwarmRuntime) (rows : list Agent) (started : Z) : Z * SwarmRuntime :=
  match rows with
  | [] => (started, s)
  | row :: rows' =>
      let '(err, s) := startFromRow s row in
      match err with
      | Some _ => start_rows s rows' started
      | None => start_rows s rows' (started + 1)
      end
  end.

Definition LoadAndStart (s : SwarmRuntime) (ListActiveAgents : result (list Agent))
    : result Z * SwarmRuntime :=
  match ListActiveAgents with
  | Fail err => (Fail (EWrap "swarm: list active agents: %w" err), s)
  | Ok rows => let '(started, s) := start_rows s rows 0 in (Ok started, s)
  end.

Definition spawnByID (s : SwarmRuntime) (ListActiveAgents : result (list Agent))
    (agentID : string) : option gerror * SwarmRuntime :=
  match runners s !! agentID with
  | Some _ => (None, s)
  | None =>
    match ListActiveAgents with
    | Fail err => (Some err, s)
    | Ok rows =>
      match List.find (fun row => str_eqb (ag_ID row) agentID) rows with
      | Some row => startFromRow s row
      | None => (Some (EMsg "agent %s not found among active"), s)
      end
    end
  end.

Definition stop (s : SwarmRuntime) (agentID : string) : SwarmRuntime :=
  match runners s !! agentID with
  | None => s
  | Some i => set_runners s (delete agentID (runners s)) (alter cancel i (handles s)) (staged s)
  end.

(** Every handle in the map is cancelled and the map emptied. *)
Definition stopAll (s : SwarmRuntime) : SwarmRuntime :=
  set_runners s ∅ (foldr (fun kv hs => alter cancel kv.2 hs) (handles s)
                     (map_to_list (runners s))) (staged s).

Definition withRunner (s : SwarmRuntime) (agentID : string) (f : NodeRunner -> NodeRunner)
    : SwarmRuntime :=
  match runners s !! agentID with
  | None => s
  | Some i => set_runners s (runners s) (alter (on_runner f) i (handles s)) (staged s)
  end.

(** One message, with what the database lists when it is handled. *)
Definition dispatch (s : SwarmRuntime) (ListActiveAgents : result (list Agent)) (m : Message)
    : SwarmRuntime :=
  match Unmarshal (Payload m) with
  | Fail _ => s
  | Ok ev =>
    let id := ev_AgentID ev in
    if str_eqb id "" then s
    else if str_eqb (Channel m) ChannelLifecycleSpawn then (spawnByID s ListActiveAgents id).2
    else if str_eqb (Channel m) ChannelLifecycleKill then stop s id
    else if str_eqb (Channel m) ChannelLifecyclePause then withRunner s id NodeRunner.Pause
    else if str_eqb (Channel m) ChannelLifecycleResume then withRunner s id NodeRunner.Resume
    else s
  end.

(** ** Run *)

Inductive run_phase :=
  | Booted                           (* Run not entered, or before Subscribe *)
  | Idling                           (* without a bus, waiting for the context *)
  | Serving                          (* in its loop *)
  | Stopping                         (* in stopAll *)
  | Ended (err : option gerror).     (* returned *)

Record fleet := {
  rt : SwarmRuntime;
  phase : run_phase;
  ctx_done : bool;            (* the context every runner's derives from is cancelled *)
  exited : gset nat;          (* the handles whose goroutine has ended *)
  waited : gset nat;          (* the handles stop or stopAll is waiting for *)
  given_up : gset nat;        (* the handles whose wait timed out *)
}.

(** The fleet when the runtime has booted. *)
Definition booted (s : SwarmRuntime) : fleet := {|
  rt := s; phase := Booted; ctx_done := false; exited := ∅; waited := ∅; given_up := ∅ |}.

Inductive fleet_event :=
  | FSubscribe (hasBus : bool) (Subscribe : option gerror)
  | FMessage (ListActiveAgents : result (list Agent)) (m : Message)
  | FEnd                      (* the context is cancelled, or the channel closed *)
  | FReturn
  | FCancel
  | FExit (i : nat)           (* the goroutine of a handle ends *)
  | FTimeout (i : nat).       (* fifteen seconds pass on the wait for it *)

(** The handle a message makes [stop] wait for. *)
Definition stops (s : SwarmRuntime) (m : Message) : option nat :=
  match Unmarshal (Payload m) with
  | Ok ev =>
      if negb (str_eqb (ev_AgentID ev) "") && str_eqb (Channel m) ChannelLifecycleKill
      then runners s !! ev_AgentID ev else None
  | Fail _ => None
  end.

Definition set_phase (f : fleet) (s : SwarmRuntime) (p : run_phase) (w : gset nat) : fleet := {|
  rt := s; phase := p; ctx_done := ctx_done f; exited := exited f; waited := w;
  given_up := given_up f |}.

(** One step of [Run] or of what goes on around it; [None] where it cannot
    happen.  [Run] serves no message while it waits, and a runner's goroutine
    ends only once its context is cancelled. *)
Definition fleet_step (f : fleet) (e : fleet_event) : option fleet :=
  match e, phase f with
  | FSubscribe true (Some err), Booted =>
      Some (set_phase f (rt f) (Ended (Some (EWrap "swarm: subscribe: %w" err))) ∅)
  | FSubscribe true None, Booted => Some (set_phase f (rt f) Serving ∅)
  | FSubscribe false _, Booted => Some (set_phase f (rt f) Idling ∅)
  | FMessage rows m, Serving =>
      if decide (waited f = ∅) then
        Some (set_phase f (dispatch (rt f) rows m) Serving
                (match stops (rt f) m with Some i => {[i]} | None => ∅ end))
      else None
  | FEnd, (Idling | Serving) =>
      if decide (waited f = ∅) then
        Some (set_phase f (stopAll (rt f)) Stopping
                (list_to_set (map_to_list (runners (rt f))).*2))
      else None
  | FReturn, Stopping =>
      if decide (waited f = ∅) then Some (set_phase f (rt f) (Ended None) ∅) else None
  | FCancel, _ =>
      Some {| rt := rt f; phase := phase f; ctx_done := true; exited := exited f;
              waited := waited f; given_up := given_up f |}
  | FExit i, _ =>
      match handles (rt f) !! i with
      | Some h =>
          if (ctx_done f || cancelled h) && bool_decide (i ∉ exited f) then
            Some {| rt := rt f; phase := phase f; ctx_done := ctx_done f; exited := {[i]} ∪ exited f;
                    waited := waited f ∖ {[i]}; given_up := given_up f |}
          else None
      | None => None
      end
  | FTimeout i, _ =>
      if decide (i ∈ waited f) then
        Some {| rt := rt f; phase := phase f; ctx_done := ctx_done f; exited := exited f;
                waited := waited f ∖ {[i]}; given_up := {[i]} ∪ given_up f |}
      else None
  | _, _ => None
  end.

Fixpoint fleet_run (f : fleet) (events : list fleet_event) : option fleet :=
  match events with
  | [] => Some f
  | e :: events' => f' ← fleet_step f e; fleet_run f' events'
  end.

(** ** One live runner per agent *)

(** The map and the uncancelled handles agree. *)
Record registered (s : SwarmRuntime) : Prop := {
  reg_live : forall i h, handles s !! i = Some h -> cancelled h = false ->
    runners s !! AgentID (NodeRunner.cfg (runner h)) = Some i;
  reg_map : forall id i, runners s !! id = Some i ->
    exists h, handles s !! i = Some h /\ AgentID (NodeRunner.cfg (runner h)) = id /\
      cancelled h = false;
}.

(** What a start leaves, when it succeeds. *)
Lemma startFromRow_ok s row :
  (startFromRow s row).1 = None ->
  exists h, (startFromRow s row).2 =
      set_runners s (<[ag_ID row := length (handles s)]> (runners s))
        (handles s ++ [h]) (wrap64 (staged s + 1)) /\
    AgentID (NodeRunner.cfg (runner h)) = ag_ID row /\ cancelled h = false /\
    paused (runner h) = false /\ hasBreaker (NodeRunner.cfg (runner h)) = false /\
    hasHibernation (NodeRunner.cfg (runner h)) = false /\ ag_ID row <> "".
Proof.
  unfold startFromRow. destruct (str_eqb (ag_ID row) "") eqn:Ei; [done|].
  destruct (Build _ _); [done|]. destruct (LLMGet _); [done|].
  unfold NewNodeRunner. cbn [AgentID row_config hasTask hasLLM hasStore negb]. rewrite Ei.
  intros _. eexists. split; [done|]. cbn. repeat split; try done.
  by apply bool_decide_eq_false in Ei.
Qed.

Lemma startFromRow_err s row : (startFromRow s row).1 <> None -> (startFromRow s row).2 = s.
Proof.
  unfold startFromRow. destruct (str_eqb _ _); [done|]. destruct (Build _ _); [done|].
  destruct (LLMGet _); [done|]. by destruct (NewNodeRunner _).
Qed.

Lemma registered_start s row :
  registered s -> runners s !! ag_ID row = None -> registered (startFromRow s row).2.
Proof.
  intros [Hl Hm] Hnone. destruct (startFromRow s row).1 as [e|] eqn:Ee.
  { rewrite startFromRow_err; [by split|by rewrite Ee]. }
  destruct (startFromRow_ok s row Ee) as (h & -> & Hid & Hc & _). split; cbn.
  - intros i h' Hi Hc'. apply lookup_app_Some in Hi as [Hi|[Hge Hi]].
    + pose proof (Hl _ _ Hi Hc') as Hr. rewrite lookup_insert_ne; [done|congruence].
    + apply list_lookup_singleton_Some in Hi as [Hi <-]. rewrite Hid, lookup_insert_eq.
      f_equal. lia.
  - intros id i Hi. destruct (decide (ag_ID row = id)) as [<-|Hne].
    + rewrite lookup_insert_eq in Hi. injection Hi as <-. exists h.
      by rewrite lookup_app_r, Nat.sub_diag by done.
    + rewrite lookup_insert_ne in Hi by done. destruct (Hm id i Hi) as (h' & Hh' & ?).
      exists h'. split; [|done]. by apply lookup_app_l_Some.
Qed.

Lemma lookup_alter_Some {A} (f : A -> A) (l : list A) i j x :
  alter f i l !! j = Some x ->
  exists y, l !! j = Some y /\ x = if decide (i = j) then f y else y.
Proof.
  destruct (decide (i = j)) as [<-|Hne].
  - rewrite list_lookup_alter_eq. intros (y & Hy & ->)%fmap_Some. by exists y.
  - rewrite list_lookup_alter_ne by done. intros H. by exists x.
Qed.

Lemma registered_stop s id : registered s -> registered (stop s id).
Proof.
  intros [Hl Hm]. unfold stop. destruct (runners s !! id) as [i|] eqn:Ei; [|by split].
  destruct (Hm id i Ei) as (h & Hh & Hid & Hc). split; cbn.
  - intros j h' Hj Hc'. apply lookup_alter_Some in Hj as (h0 & Hj & ->).
    destruct (decide (i = j)) as [<-|Hne]; [done|].
    pose proof (Hl j h0 Hj Hc') as Hr. rewrite lookup_delete_ne; [done|].
    intros E0. rewrite <-E0, Ei in Hr. congruence.
  - intros id' j Hj. apply lookup_delete_Some in Hj as [Hne Hj].
    destruct (Hm id' j Hj) as (h' & Hh' & Hid' & Hc'). exists h'. split; [|done].
    rewrite list_lookup_alter_ne; [done|]. intros ->. congruence.
Qed.

Lemma registered_withRunner s id f :
  (forall n, NodeRunner.cfg (f n) = NodeRunner.cfg n) ->
  registered s -> registered (withRunner s id f).
Proof.
  intros Hf [Hl Hm]. unfold withRunner. destruct (runners s !! id) as [i|] eqn:Ei; [|by split].
  split; cbn.
  - intros j h Hj Hc. apply lookup_alter_Some in Hj as (h0 & Hj & ->).
    destruct (decide (i = j)); cbn in *; rewrite ?Hf; by apply Hl.
  - intros id' j Hj. destruct (Hm id' j Hj) as (h & Hh & Hid & Hc).
    destruct (decide (i = j)) as [<-|Hne].
    + exists (on_runner f h). rewrite list_lookup_alter_eq, Hh. cbn. by rewrite Hf.
    + exists h. by rewrite list_lookup_alter_ne.
Qed.

Lemma find_row_id rows id row :
  List.find (fun row => str_eqb (ag_ID row) id) rows = Some row -> row ∈ rows /\ ag_ID row = id.
Proof.
  intros H. apply List.find_some in H as [Hin Hid]. apply bool_decide_eq_true in Hid.
  by rewrite list_elem_of_In.
Qed.

Lemma registered_spawnByID s rows id : registered s -> registered (spawnByID s rows id).2.
Proof.
  intros Hr. unfold spawnByID. destruct (runners s !! id) eqn:Ei; [done|].
  destruct rows as [rows|]; [|done].
  destruct (List.find _ rows) as [row|] eqn:Ef; [|done].
  apply find_row_id in Ef as [_ <-]. by apply registered_start.
Qed.

Lemma registered_dispatch s rows m : registered s -> registered (dispatch s rows m).
Proof.
  intros Hr. unfold dispatch. destruct (Unmarshal _); [|done].
  repeat match goal with |- context [if ?b then _ else _] => destruct b end;
    auto using registered_spawnByID, registered_stop, registered_withRunner.
Qed.

Lemma registered_start_rows rows : forall s n,
  registered s -> NoDup (ag_ID <$> rows) ->
  (forall id, id ∈ ag_ID <$> rows -> runners s !! id = None) ->
  registered (start_rows s rows n).2.
Proof.
  induction rows as [|row rows IH]; intros s n Hr Hnd Hfresh; cbn [start_rows]; [done|].
  rewrite fmap_cons in Hnd, Hfresh. apply NoDup_cons in Hnd as [Hrow Hnd].
  assert (Hr' : registered (startFromRow s row).2)
    by (apply registered_start; [done|apply Hfresh; by left]).
  assert (Hfresh' : forall id, id ∈ ag_ID <$> rows -> runners (startFromRow s row).2 !! id = None).
  { intros id Hid. destruct (startFromRow s row).1 as [e|] eqn:Ee.
    - rewrite startFromRow_err by (by rewrite Ee). apply Hfresh. by right.
    - destruct (startFromRow_ok s row Ee) as (h & -> & _). cbn.
      rewrite lookup_insert_ne by congruence. apply Hfresh. by right. }
  destruct (startFromRow s row) as [[e|] s']; by apply IH.
Qed.

Lemma foldr_cancel_spec (kvs : list (string * nat)) (hs : list runnerHandle) j h :
  foldr (fun kv hs => alter cancel kv.2 hs) hs kvs !! j = Some h ->
  exists h0, hs !! j = Some h0 /\
    (cancelled h = false -> h = h0 /\ j ∉ kvs.*2).
Proof.
  revert h. induction kvs as [|[k i] kvs IH]; intros h; cbn.
  - intros H. exists h. split; [done|]. intros _. split; [done|by apply not_elem_of_nil].
  - intros H. apply lookup_alter_Some in H as (h1 & H1 & ->).
    destruct (IH h1 H1) as (h0 & H0 & Hc). exists h0. split; [done|].
    destruct (decide (i = j)) as [->|Hne]; [done|]. intros Hh.
    destruct (Hc Hh) as [-> Hj]. split; [done|]. apply not_elem_of_cons. split; [congruence|done].
Qed.

Lemma stopAll_none s : registered s ->
  forall i h, handles (stopAll s) !! i = Some h -> cancelled h = true.
Proof.
  intros [Hl _] i h Hi. cbn in Hi. apply foldr_cancel_spec in Hi as (h0 & H0 & Hc).
  destruct (cancelled h) eqn:Ec; [done|]. destruct (Hc eq_refl) as [-> Hni].
  pose proof (Hl i h0 H0 Ec) as Hr. exfalso. apply Hni.
  apply list_elem_of_fmap. eexists (_, i). split; [done|]. by apply elem_of_map_to_list.
Qed.

(** ** The goroutines *)

Definition id_of (h : runnerHandle) : string := AgentID (NodeRunner.cfg (runner h)).

(** What a message does to the handles: it keeps them, cancels at most the
    one [stop] waits for, and adds at most one, for an agent the map lacks. *)
Lemma dispatch_handles s rows m i h :
  handles (dispatch s rows m) !! i = Some h ->
  (exists h0, handles s !! i = Some h0 /\ id_of h = id_of h0 /\
     (cancelled h = true -> cancelled h0 = true \/ stops s m = Some i)) \/
  (i = length (handles s) /\ cancelled h = false /\ runners s !! id_of h = None).
Proof.
  unfold dispatch, stops. destruct (Unmarshal _) as [ev|e]; [|by eauto 6].
  destruct (str_eqb (ev_AgentID ev) "") eqn:Eid; [by eauto 6|]. cbn [negb andb].
  destruct (str_eqb (Channel m) ChannelLifecycleSpawn).
  { unfold spawnByID. destruct (runners s !! ev_AgentID ev) eqn:Er; [by eauto 6|].
    destruct rows as [rows|e]; [|by eauto 6].
    destruct (List.find _ rows) as [row|] eqn:Ef; [|by eauto 6].
    apply find_row_id in Ef as [_ Hid]. destruct (startFromRow s row).1 as [e|] eqn:Ee.
    { rewrite startFromRow_err by (by rewrite Ee). by eauto 6. }
    destruct (startFromRow_ok s row Ee) as (h' & -> & Hh & Hc & _). cbn.
    intros [Hi|[Hge Hi]]%lookup_app_Some; [by eauto 6|].
    apply list_lookup_singleton_Some in Hi as [Hi <-]. right. split; [lia|].
    split; [done|]. unfold id_of. by rewrite Hh, Hid. }
  destruct (str_eqb (Channel m) ChannelLifecycleKill).
  { unfold stop. destruct (runners s !! ev_AgentID ev) as [k|]; [|by eauto 6]. cbn.
    intros (h0 & H0 & ->)%lookup_alter_Some. left. exists h0. split; [done|].
    destruct (decide (k = i)) as [->|]; [by auto|]. split; [done|by auto]. }
  assert (Hw : forall f, (forall n, NodeRunner.cfg (f n) = NodeRunner.cfg n) ->
    handles (withRunner s (ev_AgentID ev) f) !! i = Some h ->
    exists h0, handles s !! i = Some h0 /\ id_of h = id_of h0 /\
      (cancelled h = true -> cancelled h0 = true \/ (None : option nat) = Some i)).
  { intros f Hf. unfold withRunner. destruct (runners s !! ev_AgentID ev) as [k|]; [|by eauto 6]. cbn.
    intros (h0 & H0 & ->)%lookup_alter_Some. exists h0. split; [done|].
    unfold id_of. destruct (decide (k = i)); cbn; rewrite ?Hf; by auto. }
  destruct (str_eqb (Channel m) ChannelLifecyclePause); [left; by apply (Hw NodeRunner.Pause)|].
  destruct (str_eqb (Channel m) ChannelLifecycleResume); [left; by apply (Hw NodeRunner.Resume)|].
  by eauto 6.
Qed.

Lemma stopAll_handles s i h :
  handles (stopAll s) !! i = Some h ->
  exists h0, handles s !! i = Some h0 /\ id_of h = id_of h0 /\
    (cancelled h = true -> cancelled h0 = true \/ i ∈ (map_to_list (runners s)).*2).
Proof.
  unfold stopAll. cbn. generalize (map_to_list (runners s)) as kvs. intros kvs. revert h.
  induction kvs as [|[k j] kvs IH]; intros h; cbn; [by eauto 6|].
  intros (h1 & H1 & ->)%lookup_alter_Some. destruct (IH h1 H1) as (h0 & H0 & Hid & Hc).
  exists h0. split; [done|]. destruct (decide (j = i)) as [->|].
  - split; [done|]. intros _. right. by left.
  - split; [done|]. intros [?|?]%Hc; [by left|right; by right].
Qed.

(** The handles of [s] are still there in [s'], the cancelled ones cancelled. *)
Definition grows (s s' : SwarmRuntime) : Prop :=
  forall i h, handles s !! i = Some h -> exists h', handles s' !! i = Some h' /\
    (cancelled h = true -> cancelled h' = true).

Lemma grows_refl s : grows s s.
Proof. intros i h H. by exists h. Qed.

Lemma alter_grows (f : runnerHandle -> runnerHandle) (l : list runnerHandle) k i h :
  (forall h, cancelled h = true -> cancelled (f h) = true) ->
  l !! i = Some h -> exists h', alter f k l !! i = Some h' /\ (cancelled h = true -> cancelled h' = true).
Proof.
  intros Hf Hi. destruct (decide (k = i)) as [->|Hne].
  - exists (f h). by rewrite list_lookup_alter_eq, Hi; auto.
  - exists h. by rewrite list_lookup_alter_ne.
Qed.

Lemma dispatch_grows s rows m : grows s (dispatch s rows m).
Proof.
  unfold dispatch. destruct (Unmarshal _) as [ev|e]; [|apply grows_refl].
  destruct (str_eqb (ev_AgentID ev) ""); [apply grows_refl|].
  destruct (str_eqb (Channel m) ChannelLifecycleSpawn).
  { unfold spawnByID. destruct (runners s !! ev_AgentID ev); [apply grows_refl|].
    destruct rows as [rows|e]; [|apply grows_refl].
    destruct (List.find _ rows) as [row|]; [|apply grows_refl].
    destruct (startFromRow s row).1 as [e|] eqn:Ee.
    { rewrite startFromRow_err by (by rewrite Ee). apply grows_refl. }
    destruct (startFromRow_ok s row Ee) as (h' & -> & _). intros i h Hi. exists h.
    split; [by apply lookup_app_l_Some|done]. }
  destruct (str_eqb (Channel m) ChannelLifecycleKill).
  { unfold stop. destruct (runners s !! _); [|apply grows_refl]. intros i h. by apply alter_grows. }
  unfold withRunner. destruct (runners s !! _);
    repeat case_match; try apply grows_refl; intros ? ?; by apply alter_grows.
Qed.

Lemma stopAll_grows s : grows s (stopAll s).
Proof.
  intros i h Hi. unfold stopAll. cbn. induction (map_to_list (runners s)) as [|[k j] kvs IH]; cbn; [by eauto|].
  destruct IH as (h1 & H1 & Hc). destruct (alter_grows cancel _ j i h1 (fun _ _ => eq_refl) H1) as (h2 & H2 & Hc2).
  exists h2. auto.
Qed.

(** What holds of a fleet whatever happens to it. *)
Record fleet_ok (s1 : SwarmRuntime) (f : fleet) : Prop := {
  fo_registered : registered (rt f);
  fo_accounted : forall i h, handles (rt f) !! i = Some h -> cancelled h = true ->
    i ∈ exited f \/ i ∈ waited f \/ i ∈ given_up f;
  fo_one : forall i j h h', handles (rt f) !! i = Some h -> handles (rt f) !! j = Some h' ->
    id_of h = id_of h' -> i <> j -> i ∈ exited f ∪ given_up f \/ j ∈ exited f ∪ given_up f;
  fo_exited : forall i, i ∈ exited f -> ctx_done f = true \/
    exists h, handles (rt f) !! i = Some h /\ cancelled h = true;
  fo_phase : match phase f with
    | Booted => rt f = s1 /\ waited f = ∅
    | Idling | Serving => True
    | Stopping => forall i h, handles (rt f) !! i = Some h -> cancelled h = true
    | Ended None => waited f = ∅ /\ forall i h, handles (rt f) !! i = Some h -> cancelled h = true
    | Ended (Some e) => rt f = s1 /\ exists err, e = EWrap "swarm: subscribe: %w" err
    end;
}.

Lemma settled (ex w gu : gset nat) i :
  w = ∅ -> i ∈ ex \/ i ∈ w \/ i ∈ gu -> i ∈ ex \/ i ∈ gu.
Proof. intros -> [?|[H|?]]; [by left|by apply not_elem_of_empty in H|by right]. Qed.

Lemma fleet_ok_message s1 f rows m :
  fleet_ok s1 f -> waited f = ∅ -> phase f = Serving ->
  fleet_ok s1 (set_phase f (dispatch (rt f) rows m) Serving
                 (match stops (rt f) m with Some i => {[i]} | None => ∅ end)).
Proof.
  intros [Hr Ha Ho He _] Hw Hp. split; cbn.
  - by apply registered_dispatch.
  - intros i h Hi Hc. destruct (dispatch_handles _ _ _ _ _ Hi) as [(h0 & H0 & ? & Hc0)|(? & ? & ?)]; [|congruence].
    destruct (Hc0 Hc) as [Hc1|Hs].
    + destruct (settled _ _ _ i Hw (Ha i h0 H0 Hc1)); by auto.
    + right. left. rewrite Hs. by apply elem_of_singleton.
  - intros i j h h' Hi Hj Hid Hne.
    assert (Hnew : forall k g h0, handles (rt f) !! k = Some h0 -> id_of h0 = id_of g ->
      runners (rt f) !! id_of g = None -> k ∈ exited f ∪ given_up f).
    { intros k g h0 Hk Hidk Hnone. destruct (cancelled h0) eqn:Ec.
      - apply elem_of_union. exact (settled _ _ _ k Hw (Ha k h0 Hk Ec)).
      - pose proof (reg_live _ Hr k h0 Hk Ec) as Hm. unfold id_of in *. congruence. }
    destruct (dispatch_handles _ _ _ _ _ Hi) as [(h0 & H0 & E0 & ?)|(L0 & ? & N0)];
      destruct (dispatch_handles _ _ _ _ _ Hj) as [(h1 & H1 & E1 & ?)|(L1 & ? & N1)].
    + apply (Ho i j h0 h1); congruence.
    + left. apply (Hnew i h' h0); congruence.
    + right. apply (Hnew j h h1); congruence.
    + congruence.
  - intros i Hi. destruct (He i Hi) as [?|(h & Hh & Hc)]; [by left|right].
    destruct (dispatch_grows (rt f) rows m i h Hh) as (h' & ? & ?). exists h'. auto.
  - done.
Qed.

Lemma fleet_ok_stopAll s1 f :
  fleet_ok s1 f -> waited f = ∅ ->
  fleet_ok s1 (set_phase f (stopAll (rt f)) Stopping (list_to_set (map_to_list (runners (rt f))).*2)).
Proof.
  intros [Hr Ha Ho He _] Hw. split; cbn [rt phase ctx_done exited waited given_up set_phase].
  - split; [|intros id i; cbn; by rewrite lookup_empty].
    intros i h Hi Hc. pose proof (stopAll_none _ Hr i h Hi). congruence.
  - intros i h Hi Hc. destruct (stopAll_handles _ _ _ Hi) as (h0 & H0 & _ & Hc0).
    destruct (Hc0 Hc) as [Hc1|Hs].
    + destruct (settled _ _ _ i Hw (Ha i h0 H0 Hc1)); by auto.
    + right. left. by apply elem_of_list_to_set.
  - intros i j h h' Hi Hj Hid Hne.
    destruct (stopAll_handles _ _ _ Hi) as (h0 & H0 & E0 & _).
    destruct (stopAll_handles _ _ _ Hj) as (h1 & H1 & E1 & _).
    apply (Ho i j h0 h1); congruence.
  - intros i Hi. destruct (He i Hi) as [?|(h & Hh & Hc)]; [by left|right].
    destruct (stopAll_grows (rt f) i h Hh) as (h' & ? & ?). exists h'. auto.
  - by apply stopAll_none.
Qed.

(** What [fleet_ok] asks of a phase. *)
Definition phase_ok (s1 s : SwarmRuntime) (p : run_phase) : Prop :=
  match p with
  | Booted => s = s1
  | Idling | Serving => True
  | Stopping | Ended None => forall i h, handles s !! i = Some h -> cancelled h = true
  | Ended (Some e) => s = s1 /\ exists err, e = EWrap "swarm: subscribe: %w" err
  end.

Lemma fleet_ok_phase s1 f p :
  fleet_ok s1 f -> waited f = ∅ -> phase_ok s1 (rt f) p -> fleet_ok s1 (set_phase f (rt f) p ∅).
Proof.
  intros [Hr Ha Ho He _] Hw Hp. split; cbn; [done| |done|done|by destruct p as [| | | |[]]].
  intros i h. rewrite <- Hw. apply Ha.
Qed.

(** More goroutines ended or given up on: nothing else changes. *)
Lemma fleet_ok_settle s1 f cd ex w gu :
  fleet_ok s1 f -> exited f ⊆ ex -> given_up f ⊆ gu -> (ctx_done f = true -> cd = true) ->
  (forall i, i ∈ waited f -> i ∈ ex \/ i ∈ w \/ i ∈ gu) -> (waited f = ∅ -> w = ∅) ->
  (forall i, i ∈ ex -> i ∈ exited f \/ cd = true \/
     exists h, handles (rt f) !! i = Some h /\ cancelled h = true) ->
  fleet_ok s1 {| rt := rt f; phase := phase f; ctx_done := cd; exited := ex; waited := w; given_up := gu |}.
Proof.
  intros [Hr Ha Ho He Hp] Hex Hgu Hcd Hw Hw0 Hnew. split; cbn; [done|..].
  - intros i h Hi Hc. destruct (Ha i h Hi Hc) as [?|[?|?]]; [left; by apply Hex|by apply Hw|right; right; by apply Hgu].
  - intros i j h h' Hi Hj Hid Hne. destruct (Ho i j h h' Hi Hj Hid Hne) as [H|H]; [left|right]; revert H; by apply union_mono.
  - intros i [Hi|[?|?]]%Hnew; [|by left|by right]. destruct (He i Hi) as [?|?]; [left; by auto|by right].
  - destruct (phase f) as [| | | |[e|]]; try done; destruct Hp; auto.
Qed.

Lemma fleet_step_ok s1 f e f' : fleet_ok s1 f -> fleet_step f e = Some f' -> fleet_ok s1 f'.
Proof.
  intros Hf. pose proof (fo_phase _ _ Hf) as Hp. unfold fleet_step.
  destruct e as [hasBus sub|rows m| | | |i|i].
  - destruct (phase f); try (by destruct hasBus, sub). destruct Hp as [Hp Hw].
    destruct hasBus; [destruct sub as [err|]|]; intros [= <-];
      apply fleet_ok_phase; cbn; eauto.
  - destruct (phase f) eqn:Ep; try done. case_decide as Hw; [|done]. intros [= <-].
    by apply fleet_ok_message.
  - destruct (phase f); try done; (case_decide as Hw; [|done]; intros [= <-]; by apply fleet_ok_stopAll).
  - destruct (phase f); try done. case_decide as Hw; [|done]. intros [= <-]. by apply fleet_ok_phase.
  - intros [= <-]. apply fleet_ok_settle; auto.
  - destruct (handles (rt f) !! i) as [h|] eqn:Eh; [|done].
    destruct ((ctx_done f || cancelled h) && bool_decide (i ∉ exited f)) eqn:Ec; [|done]. intros [= <-].
    apply andb_true_iff in Ec as [Ec _]. apply orb_true_iff in Ec.
    apply fleet_ok_settle; auto.
    + clear. set_solver.
    + clear. intros j Hj. destruct (decide (j = i)); set_solver.
    + intros ->. apply subseteq_empty_difference_L, empty_subseteq.
    + intros j [->%elem_of_singleton|?]%elem_of_union; [|by auto]. right. destruct Ec; eauto.
  - case_decide as Hi; [|done]. intros [= <-].
    apply fleet_ok_settle; auto.
    + clear. set_solver.
    + clear. intros j Hj. destruct (decide (j = i)); set_solver.
    + intros ->. apply subseteq_empty_difference_L, empty_subseteq.
Qed.

Lemma fleet_run_ok s1 events : forall f f',
  fleet_ok s1 f -> fleet_run f events = Some f' -> fleet_ok s1 f'.
Proof.
  induction events as [|e events IH]; intros f f' Hf; cbn; [by intros [= <-]|].
  destruct (fleet_step f e) as [f1|] eqn:E1; [|done]. cbn. apply IH. by apply (fleet_step_ok s1 f e).
Qed.

Lemma fleet_run_timeouts events : forall f f' i,
  fleet_run f events = Some f' -> i ∈ given_up f' -> i ∈ given_up f \/ FTimeout i ∈ events.
Proof.
  induction events as [|e events IH]; intros f f' i; cbn; [intros [= <-]; by left|].
  destruct (fleet_step f e) as [f1|] eqn:E1; [|done]. cbn. intros Hr Hi.
  destruct (IH f1 f' i Hr Hi) as [Hi1|?]; [|right; by right].
  enough (given_up f1 = given_up f \/ exists j, e = FTimeout j /\ given_up f1 = {[j]} ∪ given_up f)
    as [Eg|(j & -> & Eg)].
  { left. by rewrite <- Eg. }
  { rewrite Eg in Hi1. apply elem_of_union in Hi1 as [->%elem_of_singleton|?]; [right|by left]. by left. }
  unfold fleet_step in E1. destruct e; repeat case_match; simplify_eq; cbn; eauto.
Qed.

Lemma start_rows_uncancelled rows : forall s n,
  (forall i h, handles s !! i = Some h -> cancelled h = false) ->
  forall i h, handles (start_rows s rows n).2 !! i = Some h -> cancelled h = false.
Proof.
  induction rows as [|row rows IH]; intros s n Hs; cbn [start_rows]; [done|].
  assert (Hs' : forall i h, handles (startFromRow s row).2 !! i = Some h -> cancelled h = false).
  { destruct (startFromRow s row).1 as [e|] eqn:Ee; [by rewrite startFromRow_err by (by rewrite Ee)|].
    destruct (startFromRow_ok s row Ee) as (h' & -> & _ & Hc & _). cbn.
    intros i h [Hi|[_ Hi]]%lookup_app_Some; [by eapply Hs|].
    by apply list_lookup_singleton_Some in Hi as [_ <-]. }
  destruct (startFromRow s row) as [[e|] s']; by apply IH.
Qed.

(** A fleet that has just booted: everything listed is started, nothing is
    cancelled. *)
Lemma fleet_ok_booted s0 listing :
  registered s0 -> runners s0 = ∅ -> handles s0 = [] ->
  (forall rows, listing = Ok rows -> NoDup (ag_ID <$> rows)) ->
  fleet_ok (LoadAndStart s0 listing).2 (booted (LoadAndStart s0 listing).2).
Proof.
  intros Hr0 He Hh Hnd. set (s1 := (LoadAndStart s0 listing).2).
  assert (H1 : registered s1 /\ forall i h, handles s1 !! i = Some h -> cancelled h = false).
  { unfold s1, LoadAndStart. destruct listing as [rows|e].
    - pose proof (registered_start_rows rows s0 0 Hr0 (Hnd rows eq_refl)) as H.
      pose proof (start_rows_uncancelled rows s0 0) as Hu.
      destruct (start_rows s0 rows 0). split.
      + apply H. intros id _. by rewrite He, lookup_empty.
      + apply Hu. by rewrite Hh.
    - split; [done|]. cbn. by rewrite Hh. }
  destruct H1 as [Hr Hu]. split; cbn; [done| | |done|done].
  - intros i h Hi Hc. rewrite (Hu i h Hi) in Hc. done.
  - intros i j h h' Hi Hj Hid Hne. exfalso. apply Hne.
    pose proof (reg_live _ Hr i h Hi (Hu i h Hi)). pose proof (reg_live _ Hr j h' Hj (Hu j h' Hj)).
    unfold id_of in Hid. congruence.
Qed.

(** C8: from start-up on, whatever messages arrive, whatever the database
    lists meanwhile and however long the cancelled runners take to end: every
    uncancelled runner is the one the map holds for its agent, so that a kill
    reaches it; two runners of one agent run at once only when one of them was
    cancelled and the wait of fifteen seconds for its end timed out; no runner
    ends before it or the whole process is cancelled; and when the runtime
    ends, every runner is cancelled and has ended but for such a timeout,
    except when the subscription failed: then [Run] returns at once and every
    runner started at boot is left as it was. *)
Theorem swarm_single_runner ok1 ok2 sched mi hi si s0 listing events f :
  NewSwarm ok1 ok2 sched mi hi si = Ok s0 ->
  (forall rows, listing = Ok rows -> NoDup (ag_ID <$> rows)) ->
  let s1 := (LoadAndStart s0 listing).2 in
  fleet_run (booted s1) events = Some f ->
  (forall i h, handles (rt f) !! i = Some h -> cancelled h = false ->
     runners (rt f) !! id_of h = Some i) /\
  (forall i j h h', handles (rt f) !! i = Some h -> handles (rt f) !! j = Some h' ->
     id_of h = id_of h' -> i ∉ exited f -> j ∉ exited f -> i <> j ->
     FTimeout i ∈ events \/ FTimeout j ∈ events) /\
  (forall i, i ∈ exited f -> ctx_done f = true \/
     exists h, handles (rt f) !! i = Some h /\ cancelled h = true) /\
  match phase f with
  | Ended None => forall i h, handles (rt f) !! i = Some h ->
      cancelled h = true /\ (i ∈ exited f \/ FTimeout i ∈ events)
  | Ended (Some e) => rt f = s1 /\ exists err, e = EWrap "swarm: subscribe: %w" err
  | _ => True
  end.
Proof.
  intros Hnew Hnd s1 Hrun.
  assert (Hr0 : registered s0 /\ runners s0 = ∅ /\ handles s0 = []).
  { unfold NewSwarm in Hnew. destruct (negb ok1), (negb ok2); try done.
    injection Hnew as <-. by repeat split. }
  destruct Hr0 as (Hr0 & He & Hh).
  assert (Hr1 : fleet_ok s1 (booted s1)) by (by apply fleet_ok_booted).
  pose proof (fleet_run_ok _ _ _ _ Hr1 Hrun) as [Hreg Ha Ho Hx Hp].
  assert (Hgu : forall i, i ∈ given_up f -> FTimeout i ∈ events).
  { intros i Hi. destruct (fleet_run_timeouts _ _ _ i Hrun Hi); [set_solver|done]. }
  split; [apply Hreg|]. split; [|split; [done|]].
  - intros i j h h' Hi Hj Hid Hni Hnj Hne. destruct (Ho i j h h' Hi Hj Hid Hne) as [H|H];
      apply elem_of_union in H as [?|?]; auto; done.
  - destruct (phase f) as [| | | |[e|]]; try done. destruct Hp as [Hw Hc]. intros i h Hi.
    split; [by apply (Hc i)|]. destruct (settled _ _ _ i Hw (Ha i h Hi (Hc i h Hi))); auto.
Qed.
End Swarm.

(** ** A concrete swarm *)

Definition sample_row (id : string) : Agent := {|
  ag_ID := id; ag_Name := id; ag_Chain := "solana"; ag_TaskType := "momentum";
  ag_StrategyConfig := "{}"; ag_StrategistPrompt := ""; ag_StrategistModel := "gpt-4o";
  ag_StrategistIntervalSeconds := 0; ag_BanditPolicies := ""; ag_NodeClass := "funded";
  ag_Generation := 0; ag_LineageDepth := 0; ag_CapitalAllocated := 0 |}.

Definition always_ok : string -> option gerror := fun _ => None.
Definition builds_all : string -> string -> option gerror := fun _ _ => None.
Definition no_names : string -> result (list string) := fun _ => Ok [].

Definition sample_message (channel id : string) : Message (H := event_codec) :=
  Build_Message (H := event_codec) channel
    {| ev_AgentID := id; ev_Reason := ""; ev_NodeClass := ""; ev_CorrelationID := "";
       ev_Timestamp := 0 |}.

Definition empty_swarm : SwarmRuntime := {|
  scheduler := NewScheduler 0 0; runners := ∅; handles := []; staged := 0;
  monitorInterval := 0; heartbeatInterval := 0; strategistInterval := 0 |}.

Definition sample_messages : list (result (list Agent) * Message (H := event_codec)) :=
  [(Ok [sample_row "a"; sample_row "c"], sample_message ChannelLifecycleSpawn "c");
   (Ok [sample_row "a"], sample_message ChannelLifecycleKill "b");
   (Ok [sample_row "a"], sample_message ChannelLifecyclePause "a")].

Definition sample_live : SwarmRuntime :=
  fold_left (fun s m => dispatch (E := event_codec) builds_all always_ok no_names s m.1 m.2)
    sample_messages
    (LoadAndStart builds_all always_ok no_names empty_swarm (Ok [sample_row "a"; sample_row "b"])).2.

Example sample_live_states :
  (fun h => (AgentID (NodeRunner.cfg (runner h)), paused (runner h), cancelled h)) <$> handles sample_live
  = [("a", true, false); ("b", false, true); ("c", false, false)].
Proof. reflexivity. Qed.

(** A kill whose runner ends in time, and at the end a runner that outlives
    the wait for it. *)
Definition sample_events : list (fleet_event (E := event_codec)) :=
  FSubscribe true None ::
  ((fun m => FMessage (E := event_codec) m.1 m.2) <$> take 2 sample_messages) ++ [FExit 1] ++
  ((fun m => FMessage (E := event_codec) m.1 m.2) <$> drop 2 sample_messages) ++
  [FEnd; FExit 0; FTimeout 2; FReturn].

Definition booted_sample : fleet :=
  booted (LoadAndStart builds_all always_ok no_names empty_swarm (Ok [sample_row "a"; sample_row "b"])).2.

Definition sample_run (events : list (fleet_event (E := event_codec))) : option fleet :=
  fleet_run builds_all always_ok no_names (E := event_codec) booted_sample events.

(** Nothing is served while [stop] waits. *)
Example kill_holds_the_bus :
  sample_run (take 3 sample_events ++ drop 4 sample_events) = None.
Proof. by vm_compute. Qed.

(** A subscription that fails leaves both runners running. *)
Example subscribe_error_leaves_runners :
  (fun f => (phase f, cancelled <$> handles (rt f), exited f)) <$>
    sample_run [FSubscribe true (Some (EMsg "down"))]
  = Some (Ended (Some (EWrap "swarm: subscribe: %w" (EMsg "down"))), [false; false], ∅).
Proof. by vm_compute. Qed.

Definition sample_end : fleet := default booted_sample (sample_run sample_events).

Lemma swarm_single_runner_witness :
  phase sample_end = Ended None /\ exited sample_end = {[0%nat; 1%nat]} /\
  (forall i h, handles (rt sample_end) !! i = Some h ->
    cancelled h = true /\ (i ∈ exited sample_end \/ FTimeout (E := event_codec) i ∈ sample_events)).
Proof.
  split; [by vm_compute|]. split; [apply (bool_decide_eq_true_1 _); by vm_compute|].
  refine (proj2 (proj2 (proj2 (swarm_single_runner builds_all always_ok no_names (E := event_codec)
    true true None 0 0 0 empty_swarm (Ok [sample_row "a"; sample_row "b"]) sample_events sample_end
    eq_refl _ _)))).
  - intros rows [= <-]. by apply (bool_decide_eq_true_1 _).
  - by vm_compute.
Defined.

(** Starting rows does not look at what already runs: loading a second time
    leaves the first runner of an agent live and out of the map's reach. *)
Lemma load_twice_two_runners :
  let load s := (LoadAndStart builds_all always_ok no_names s (Ok [sample_row "a"])).2 in
  let s := load (load empty_swarm) in
  cancelled <$> handles s = [false; false] /\ RunnerCount s = 1 /\
  (cancelled <$> handles (stop s "a")) = [false; true].
Proof. by vm_compute. Qed.

(** The configuration the swarm builds carries no circuit breaker: its
    runners go on ticking while the breaker is halted. *)
Lemma swarm_runner_ignores_breaker :
  exists n, NewNodeRunner (row_config empty_swarm (sample_row "a")) = Ok n /\
    (node_run no_json (started n) (monitors 6 tripped_breaker 6 (Ok []))).2 = [ERunTick].
Proof. eexists. by split. Qed.
