(* ===== verification/SwarmSync.v ===== *)
(** * Lifecycle manager and swarm together

    The manager writes the agents table and publishes; the swarm handles the
    messages later, in order, and reads the table as it then is.  The theorem
    says what this asynchrony preserves when the bus loses nothing. *)
From Stdlib Require Import ZArith Lia Floats.
From stdpp Require Import base list strings gmap.
From S2P Require Import Prelude GoBase GoFloat Genome CircuitBreaker Hibernation Lifecycle NodeRunner Swarm.
Open Scope Z_scope.

(** What the runtime relies on of the agents table: a row's status is what
    was last written to it, a new row is active, and the listing is the active
    rows. *)
Class AgentTable (S : LifecycleStore) := {
  status : DB -> string -> option string;
  ListActiveAgents : DB -> result (list Agent);
}.

Class AgentTableLaws (S : LifecycleStore) (T : AgentTable S) := {
  set_status_spec id st r db id' : status db id <> None ->
    let '(err, db') := SetAgentStatus id st r db in
    status db' id' =
      match err, status db id' with
      | None, Some _ => if decide (id = id') then Some st else status db id'
      | _, o => o
      end;
  set_class_spec id c db id' : status db id <> None ->
    let '(err, db') := SetAgentNodeClass id c db in status db' id' = status db id';
  insert_spec row db id' :
    let '(r, db') := InsertAgent row db in
    match r with
    | Fail _ => status db' id' = status db id'
    | Ok id => id <> "" /\ status db id = None /\
        status db' id' = if decide (id = id') then Some "active" else status db id'
    end;
  list_spec db rows : ListActiveAgents db = Ok rows ->
    NoDup (ag_ID <$> rows) /\ forall id, id ∈ ag_ID <$> rows -> status db id = Some "active";
}.

Section Sync.
Context {S : LifecycleStore} {T : AgentTable S} {L : AgentTableLaws S T}.
Context {E : EventCodec} {EL : EventCodecLaws E}.
Context (Build : string -> string -> option gerror) (LLMGet : string -> option gerror).
Context (decode_names : string -> result (list string)).

(** Every publish is accepted. *)
Definition reliable : option (string -> payload -> option gerror) := Some (fun _ _ => None).

Record world := { w_db : DB; w_queue : list Message; w_swarm : SwarmRuntime }.

(** The orchestrator makes a transition of an agent that exists or spawns an agent, or the swarm
    handles the oldest message. *)
Inductive w_step : world -> world -> Prop :=
  | w_transition w t id reason now err db msgs :
      status (w_db w) id <> None ->
      run reliable now t id reason (w_db w) = (err, db, msgs) ->
      w_step w {| w_db := db; w_queue := w_queue w ++ msgs; w_swarm := w_swarm w |}
  | w_spawn w row reason now r db msgs :
      Spawn reliable now row reason (w_db w) = (r, db, msgs) ->
      w_step w {| w_db := db; w_queue := w_queue w ++ msgs; w_swarm := w_swarm w |}
  | w_deliver w m queue :
      w_queue w = m :: queue ->
      w_step w {| w_db := w_db w; w_queue := queue;
                  w_swarm := dispatch Build LLMGet decode_names (w_swarm w)
                               (ListActiveAgents (w_db w)) m |}.

(** ** The state of an agent's runner *)

(** Whether an agent has a runner, and if so whether it is paused. *)
Definition run_status (s : SwarmRuntime) (id : string) : option bool :=
  i ← runners s !! id; h ← handles s !! i; Some (paused (runner h)).

Lemma run_status_start s row : registered s ->
  (startFromRow Build LLMGet decode_names s row).1 = None ->
  forall id, run_status (startFromRow Build LLMGet decode_names s row).2 id =
    if decide (ag_ID row = id) then Some false else run_status s id.
Proof.
  intros [_ Hm] Hok id. destruct (startFromRow_ok _ _ _ s row Hok) as (h & -> & _ & _ & Hp & _).
  unfold run_status. cbn. destruct (decide (ag_ID row = id)) as [<-|Hne].
  - rewrite lookup_insert_eq. cbn. rewrite lookup_app_r, Nat.sub_diag by done. cbn. by rewrite Hp.
  - rewrite lookup_insert_ne by done. destruct (runners s !! id) as [i|] eqn:Ei; [|done]. cbn.
    destruct (Hm id i Ei) as (h' & Hh' & _). by rewrite (lookup_app_l_Some _ _ _ _ Hh'), Hh'.
Qed.

Lemma run_status_stop s id : registered s ->
  forall id', run_status (stop s id) id' = if decide (id = id') then None else run_status s id'.
Proof.
  intros [_ Hm] id'. unfold stop. destruct (runners s !! id) as [i|] eqn:Ei.
  - unfold run_status. cbn. destruct (decide (id = id')) as [<-|Hne].
    + by rewrite lookup_delete_eq.
    + rewrite lookup_delete_ne by done. destruct (runners s !! id') as [j|] eqn:Ej; [|done]. cbn.
      rewrite list_lookup_alter_ne; [done|]. intros ->.
      destruct (Hm _ _ Ei) as (h & Hh & H1 & _), (Hm _ _ Ej) as (h' & Hh' & H2 & _). congruence.
  - destruct (decide (id = id')) as [<-|]; [|done]. unfold run_status. by rewrite Ei.
Qed.

Lemma run_status_withRunner s id p : registered s ->
  forall id', run_status (withRunner s id (fun n => set_paused n p)) id' =
    if decide (id = id') then ((fun _ => p) <$> run_status s id') else run_status s id'.
Proof.
  intros [_ Hm] id'. unfold withRunner. destruct (runners s !! id) as [i|] eqn:Ei.
  - unfold run_status. cbn. destruct (decide (id = id')) as [<-|Hne].
    + rewrite Ei. cbn. rewrite list_lookup_alter_eq. by destruct (handles s !! i).
    + destruct (runners s !! id') as [j|] eqn:Ej; [|done]. cbn.
      rewrite list_lookup_alter_ne; [done|]. intros ->.
      destruct (Hm _ _ Ei) as (h & Hh & H1 & _), (Hm _ _ Ej) as (h' & Hh' & H2 & _). congruence.
  - destruct (decide (id = id')) as [<-|]; [|done]. unfold run_status. by rewrite Ei.
Qed.

Lemma start_rows_status rows : forall s n,
  registered s -> NoDup (ag_ID <$> rows) ->
  (forall id, id ∈ ag_ID <$> rows -> runners s !! id = None) ->
  let s' := (start_rows Build LLMGet decode_names s rows n).2 in
  registered s' /\
  forall id, run_status s' id = run_status s id \/
    (run_status s' id = Some false /\ id ∈ ag_ID <$> rows).
Proof.
  intros s n Hr Hnd Hfresh. split; [by apply registered_start_rows|].
  revert s n Hr Hnd Hfresh. induction rows as [|row rows IH]; intros s n Hr Hnd Hfresh id;
    cbn [start_rows]; [by left|].
  rewrite fmap_cons in Hnd, Hfresh |- *. apply NoDup_cons in Hnd as [Hrow Hnd].
  destruct (startFromRow Build LLMGet decode_names s row) as [[e|] s'] eqn:Es.
  - assert (s' = s) as ->.
    { pose proof (startFromRow_err Build LLMGet decode_names s row) as H. rewrite Es in H. by apply H. }
    destruct (IH s n Hr Hnd (fun i Hi => Hfresh i (list_elem_of_further _ _ _ Hi)) id)
      as [H|[H1 H2]]; [by left|]. right. split; [done|by right].
  - pose proof (registered_start Build LLMGet decode_names s row Hr
      (Hfresh _ (list_elem_of_here _ _))) as Hr'.
    pose proof (run_status_start s row Hr) as Hst.
    pose proof (startFromRow_ok Build LLMGet decode_names s row) as Hok.
    rewrite Es in Hr', Hst, Hok. cbn [fst snd] in *.
    destruct (Hok eq_refl) as (h & -> & _).
    destruct (IH _ (n + 1) Hr' Hnd) with (id := id) as [H|[H1 H2]].
    + intros i Hi. cbn. rewrite lookup_insert_ne by congruence. apply Hfresh. by right.
    + rewrite H, Hst by done. destruct (decide (ag_ID row = id)) as [<-|]; [right|by left].
      split; [done|by left].
    + right. split; [done|by right].
Qed.

(** ** Messages *)

Definition msg_id (m : Message) : string :=
  match Unmarshal (Payload m) with Ok ev => ev_AgentID ev | Fail _ => "" end.

(** The status a message announces. *)
Definition announced (m : Message) : option string :=
  if str_eqb (Channel m) ChannelLifecycleKill then Some "dead"
  else if str_eqb (Channel m) ChannelLifecyclePause then Some "paused"
  else if str_eqb (Channel m) ChannelLifecycleResume then Some "active"
  else None.

(** The runner's state after a message announced [st]. *)
Definition obey (st : string) (r : option bool) : option bool :=
  if str_eqb st "dead" then None
  else if str_eqb st "paused" then (fun _ => true) <$> r else (fun _ => false) <$> r.

Lemma run_status_dispatch s rows m id :
  registered s -> msg_id m <> "" ->
  let s' := dispatch Build LLMGet decode_names s rows m in
  match announced m with
  | Some st => run_status s' id = if decide (msg_id m = id) then obey st (run_status s id)
                                  else run_status s id
  | None =>
      run_status s' id = run_status s id \/
      (run_status s' id = Some false /\
       exists l, rows = Ok l /\ id ∈ ag_ID <$> l)
  end.
Proof.
  intros Hr Hid. unfold msg_id in *. unfold dispatch, announced.
  destruct (Unmarshal (Payload m)) as [ev|]; [|done].
  assert (E0 : str_eqb (ev_AgentID ev) "" = false) by (by apply bool_decide_eq_false_2).
  rewrite E0. clear E0.
  destruct (str_eqb (Channel m) ChannelLifecycleSpawn) eqn:Es.
  { apply bool_decide_eq_true in Es. rewrite Es.
    change (str_eqb ChannelLifecycleSpawn ChannelLifecycleKill) with false.
    change (str_eqb ChannelLifecycleSpawn ChannelLifecyclePause) with false.
    change (str_eqb ChannelLifecycleSpawn ChannelLifecycleResume) with false. cbv iota.
    unfold spawnByID. destruct (runners s !! ev_AgentID ev); [by left|].
    destruct rows as [rows|]; [|by left].
    destruct (List.find _ rows) as [row|] eqn:Ef; [|by left].
    apply find_row_id in Ef as [Hin Hrow].
    destruct (startFromRow Build LLMGet decode_names s row).1 as [e|] eqn:Ee.
    - left. by rewrite startFromRow_err by (by rewrite Ee).
    - rewrite (run_status_start s row Hr Ee). destruct (decide (ag_ID row = id)) as [<-|]; [right|by left].
      split; [done|]. exists rows. split; [done|]. by apply list_elem_of_fmap_2. }
  destruct (str_eqb (Channel m) ChannelLifecycleKill); [rewrite run_status_stop by done; reflexivity|].
  destruct (str_eqb (Channel m) ChannelLifecyclePause);
    [unfold Pause; rewrite run_status_withRunner by done; reflexivity|].
  destruct (str_eqb (Channel m) ChannelLifecycleResume);
    [unfold Resume; rewrite run_status_withRunner by done; reflexivity|].
  by left.
Qed.

(** The last announcement about [id] still in the queue. *)
Fixpoint last_status (id : string) (q : list Message) : option string :=
  match q with
  | [] => None
  | m :: q' =>
      match last_status id q' with
      | Some st => Some st
      | None => if decide (msg_id m = id) then announced m else None
      end
  end.

Lemma last_status_snoc id q m :
  last_status id (q ++ [m]) =
    match (if decide (msg_id m = id) then announced m else None) with
    | Some st => Some st
    | None => last_status id q
    end.
Proof.
  induction q as [|x q IH]; cbn; [by destruct (decide _); [destruct (announced m)|]|].
  rewrite IH. by destruct (decide (msg_id m = id)); [destruct (announced m)|].
Qed.

(** ** What the manager does to the table and the queue *)

Context (Marshal_total : forall ev, exists p, Marshal ev = Ok p).

Lemma publish_reliable channel ev :
  exists m, publish reliable channel ev = [m] /\ Channel m = channel /\
    msg_id m = ev_AgentID ev.
Proof.
  unfold publish, reliable. destruct (Marshal_total ev) as [p Hp]. rewrite Hp.
  eexists. split; [done|]. unfold msg_id. cbn. by rewrite (Unmarshal_Marshal _ _ Hp).
Qed.

(** The statuses after a message about [id] announcing [a]. *)
Definition status_after (a : option string) (id : string) (db : DB) (id' : string)
    : option string :=
  match a, status db id' with
  | Some st, Some _ => if decide (id = id') then Some st else status db id'
  | _, o => o
  end.

(** One transition: the write, then the message. *)
Ltac effect_case Hrow Hs m Hc Hm x :=
  match goal with
  | |- context [SetAgentStatus ?i ?st ?r ?d] =>
      pose proof (fun y => set_status_spec i st r d y Hrow) as Hs;
      destruct (SetAgentStatus i st r d) as [[?|] ?]
  | |- context [SetAgentNodeClass ?i ?c ?d] =>
      pose proof (fun y => set_class_spec i c d y Hrow) as Hs;
      destruct (SetAgentNodeClass i c d) as [[?|] ?]
  end; [by left|right];
  match goal with
  | |- context [publish reliable ?c ?ev] =>
      destruct (publish_reliable c ev) as (m & -> & Hc & Hm)
  end;
  exists m; (split; [done|]); (split; [done|]); (split; [done|]);
  intros x; rewrite Hs; unfold announced; rewrite Hc; reflexivity.

Lemma run_effect now t id reason db : status db id <> None ->
  let '(err, db', msgs) := run reliable now t id reason db in
  (msgs = [] /\ forall id', status db' id' = status db id') \/
  (exists m, msgs = [m] /\ msg_id m = id /\ id <> "" /\
     forall id', status db' id' = status_after (announced m) id db id').
Proof.
  intros Hrow. unfold run, status_after.
  destruct (decide (id = "")) as [->|Hid].
  { destruct t; cbn; left; done. }
  assert (E0 : str_eqb id "" = false) by (by apply bool_decide_eq_false_2).
  destruct t; unfold Kill, Lifecycle.Pause, Lifecycle.Resume, Promote, Demote, setClassAndEmit;
    rewrite E0; effect_case Hrow Hs m Hc Hm x.
Qed.

(** ** The invariant *)

(** A runner's state against the table's status. *)
Definition agrees (r : option bool) (st : option string) : Prop :=
  match r with
  | None => True
  | Some true => st <> None /\ st <> Some "dead"
  | Some false => st = Some "active"
  end.

Record w_inv (w : world) : Prop := {
  wi_reg : registered (w_swarm w);
  wi_ids : Forall (fun m => msg_id m <> "") (w_queue w);
  wi_known : forall id, run_status (w_swarm w) id <> None -> status (w_db w) id <> None;
  wi_queue : forall id st, last_status id (w_queue w) = Some st ->
    status (w_db w) id = Some st;
  wi_live : forall id, last_status id (w_queue w) = None ->
    agrees (run_status (w_swarm w) id) (status (w_db w) id);
}.

Lemma status_after_none a id db id' :
  status_after a id db id' = None <-> status db id' = None.
Proof. unfold status_after. destruct a, (status db id'), (decide (id = id')); done. Qed.

Lemma inv_message w db' m :
  w_inv w -> msg_id m <> "" -> status (w_db w) (msg_id m) <> None ->
  (forall id', status db' id' = status_after (announced m) (msg_id m) (w_db w) id') ->
  w_inv {| w_db := db'; w_queue := w_queue w ++ [m]; w_swarm := w_swarm w |}.
Proof.
  intros [Hr Hids Hk Hq Hl] Hm Hrow Hst. split; cbn.
  - done.
  - by apply Forall_app_single.
  - intros id Hid. rewrite Hst, status_after_none. by apply Hk.
  - intros id st. rewrite last_status_snoc, Hst. unfold status_after.
    destruct (decide (msg_id m = id)) as [<-|Hne], (announced m) as [a|].
    + intros [= ->]. by destruct (status (w_db w) (msg_id m)).
    + intros Hs. by rewrite (Hq _ _ Hs).
    + intros Hs. by rewrite (Hq _ _ Hs).
    + intros Hs. by rewrite (Hq _ _ Hs).
  - intros id. rewrite last_status_snoc, Hst. unfold status_after.
    destruct (decide (msg_id m = id)) as [Hid|Hne], (announced m) as [a|]; try done;
      intros Hs; pose proof (Hl id Hs) as Ha; by destruct (status (w_db w) id).
Qed.

Lemma inv_same_status w db' :
  w_inv w -> (forall id', status db' id' = status (w_db w) id') ->
  w_inv {| w_db := db'; w_queue := w_queue w ++ []; w_swarm := w_swarm w |}.
Proof.
  intros [Hr Hids Hk Hq Hl] Hst. rewrite app_nil_r.
  split; cbn; [done|done|intros id|intros id st|intros id]; rewrite Hst; auto.
Qed.

Lemma obey_agrees st r cur :
  cur = Some st -> st = "dead" \/ st = "paused" \/ st = "active" -> agrees (obey st r) cur.
Proof.
  intros -> [-> | [-> | ->]]; unfold obey, agrees; by destruct r as [b|].
Qed.

Lemma announced_cases m st : announced m = Some st -> st = "dead" \/ st = "paused" \/ st = "active".
Proof.
  unfold announced. repeat match goal with |- context [if ?b then _ else _] => destruct b end;
    intros [= <-]; auto.
Qed.

Lemma inv_deliver w m queue :
  w_queue w = m :: queue -> w_inv w ->
  w_inv {| w_db := w_db w; w_queue := queue;
           w_swarm := dispatch Build LLMGet decode_names (w_swarm w) (ListActiveAgents (w_db w)) m |}.
Proof.
  intros Eq [Hr Hids Hk Hq Hl]. rewrite Eq in *. apply Forall_cons in Hids as [Hm Hids].
  set (s' := dispatch _ _ _ _ _ _).
  pose proof (fun id => run_status_dispatch (w_swarm w) (ListActiveAgents (w_db w)) m id Hr Hm) as Hd.
  cbn zeta in Hd. fold s' in Hd. cbn [last_status] in Hq, Hl.
  assert (Hactive : forall id, (exists l, ListActiveAgents (w_db w) = Ok l /\ id ∈ ag_ID <$> l) ->
    status (w_db w) id = Some "active").
  { intros id (l & Hlist & Hin). by apply (list_spec _ _ Hlist). }
  split; cbn [w_db w_queue w_swarm].
  - by apply registered_dispatch.
  - done.
  - intros id Hid. specialize (Hd id). destruct (announced m) as [st|].
    + rewrite Hd in Hid. apply Hk. intros E0. apply Hid. rewrite E0.
      destruct (decide _); [|done]. unfold obey. by destruct (str_eqb st "dead"), (str_eqb st "paused").
    + destruct Hd as [Hd|[_ Ha]]; [rewrite Hd in Hid; by apply Hk|by rewrite (Hactive id Ha)].
  - intros id st Hs. apply (Hq id st). by rewrite Hs.
  - intros id Hs. specialize (Hd id). specialize (Hl id). specialize (Hq id).
    rewrite Hs in Hl, Hq. destruct (announced m) as [st|] eqn:Ea.
    + rewrite Hd. destruct (decide (msg_id m = id)) as [<-|Hne]; [|by apply Hl].
      apply obey_agrees; [apply Hq; by destruct (decide (msg_id m = msg_id m))|by eapply announced_cases].
    + assert (Hl' : agrees (run_status (w_swarm w) id) (status (w_db w) id))
        by (apply Hl; by destruct (decide _)).
      destruct Hd as [-> | [-> Ha]]; [done|]. by apply Hactive.
Qed.

Lemma inv_spawn w row reason now r db msgs :
  Spawn reliable now row reason (w_db w) = (r, db, msgs) -> w_inv w ->
  w_inv {| w_db := db; w_queue := w_queue w ++ msgs; w_swarm := w_swarm w |}.
Proof.
  intros Hsp Hi. unfold Spawn in Hsp.
  pose proof (fun id' => insert_spec row (w_db w) id') as Hins.
  destruct (InsertAgent row (w_db w)) as [[id|e] db'];
    [|injection Hsp as <- <- <-; by apply inv_same_status].
  destruct (publish_reliable ChannelLifecycleSpawn
    (event now id reason (ag_NodeClass row))) as (m & Hpub & Hc & Hm).
  rewrite Hpub in Hsp. injection Hsp as <- <- <-.
  assert (Ha : announced m = None) by (unfold announced; by rewrite Hc).
  destruct (Hins id) as (Hid & Hnone & _).
  assert (Hst : forall id', status db' id' = if decide (id = id') then Some "active"
                            else status (w_db w) id') by (intros id'; apply Hins).
  destruct Hi as [Hr Hids Hk Hq Hl]. split; cbn.
  - done.
  - apply Forall_app_single; [done|]. by rewrite Hm.
  - intros i Hi. rewrite Hst. destruct (decide (id = i)); [done|by apply Hk].
  - intros i st. rewrite last_status_snoc, Ha, Hst.
    replace (if decide (msg_id m = i) then None else None : option string) with (@None string)
      by (by destruct (decide _)).
    intros Hs. apply Hq in Hs. destruct (decide (id = i)) as [<-|]; congruence.
  - intros i. rewrite last_status_snoc, Ha, Hst.
    replace (if decide (msg_id m = i) then None else None : option string) with (@None string)
      by (by destruct (decide _)).
    intros Hs. specialize (Hl i Hs). destruct (decide (id = i)) as [<-|]; [|done].
    destruct (run_status (w_swarm w) id) eqn:Er; [|done].
    exfalso. apply (Hk id); [by rewrite Er|done].
Qed.

Lemma w_step_inv w w' : w_step w w' -> w_inv w -> w_inv w'.
Proof.
  intros Hstep Hi.
  destruct Hstep as [w t id reason now err db msgs Hrow Hrun|w row reason now r db msgs Hsp|w m q Hq].
  - pose proof (run_effect now t id reason (w_db w) Hrow) as H. rewrite Hrun in H.
    destruct H as [[-> H]|(m & -> & <- & Hm & H)]; [by apply inv_same_status|by apply inv_message].
  - by eapply inv_spawn.
  - by apply inv_deliver.
Qed.

Lemma runners_agree db0 rows s0 w :
  registered s0 -> runners s0 = ∅ -> ListActiveAgents db0 = Ok rows ->
  let s1 := (LoadAndStart Build LLMGet decode_names s0 (Ok rows)).2 in
  reach w_step {| w_db := db0; w_queue := []; w_swarm := s1 |} w ->
  w_queue w = [] ->
  forall id,
    match run_status (w_swarm w) id with
    | Some false => status (w_db w) id = Some "active"
    | Some true => status (w_db w) id <> None /\ status (w_db w) id <> Some "dead"
    | None => True
    end.
Proof.
  intros Hr He Hlist s1 Hreach Hq id.
  destruct (list_spec _ _ Hlist) as [Hnd Hact].
  destruct (start_rows_status rows s0 0 Hr Hnd) as [Hr1 Hs1].
  { intros i _. by rewrite He, lookup_empty. }
  assert (Hrun1 : forall i, run_status s1 i = None \/
    (run_status s1 i = Some false /\ i ∈ ag_ID <$> rows)).
  { intros i. unfold s1, LoadAndStart. specialize (Hs1 i).
    destruct (start_rows _ _ _ s0 rows 0). cbn in *. destruct Hs1 as [Hs1|Hs1]; [left|by right].
    rewrite Hs1. unfold run_status. by rewrite He, lookup_empty. }
  assert (Hi : w_inv w).
  { refine (reach_invariant w_step w_inv w_step_inv _ _ Hreach _). split; cbn.
    - unfold s1, LoadAndStart. by destruct (start_rows _ _ _ s0 rows 0).
    - constructor.
    - intros i Hi. destruct (Hrun1 i) as [H|[_ H]]; [done|]. by rewrite (Hact i H).
    - done.
    - intros i _. destruct (Hrun1 i) as [-> | [-> H]]; [done|]. by apply Hact. }
  pose proof (wi_live w Hi id) as Hl. rewrite Hq in Hl. specialize (Hl eq_refl).
  exact Hl.
Qed.

(** C3: with a bus that loses nothing, however the orchestrator's writes and
    the swarm's handling of the messages are interleaved, whenever the
    messages have all been handled the runners agree with the table: a
    running agent is active, a paused runner's agent is not dead, and a
    dead agent has no runner. *)
Theorem runners_follow_table db0 rows s0 w :
  registered s0 -> runners s0 = ∅ -> ListActiveAgents db0 = Ok rows ->
  let s1 := (LoadAndStart Build LLMGet decode_names s0 (Ok rows)).2 in
  reach w_step {| w_db := db0; w_queue := []; w_swarm := s1 |} w ->
  w_queue w = [] ->
  forall id,
    match run_status (w_swarm w) id with
    | Some false => status (w_db w) id = Some "active"
    | Some true => status (w_db w) id <> None /\ status (w_db w) id <> Some "dead"
    | None => True
    end.
Proof. exact (runners_agree db0 rows s0 w). Qed.
End Sync.

(** ** An agents table in memory *)

Definition with_id (row : Agent) (id : string) : Agent := {|
  ag_ID := id; ag_Name := ag_Name row; ag_Chain := ag_Chain row; ag_TaskType := ag_TaskType row;
  ag_StrategyConfig := ag_StrategyConfig row; ag_StrategistPrompt := ag_StrategistPrompt row;
  ag_StrategistModel := ag_StrategistModel row;
  ag_StrategistIntervalSeconds := ag_StrategistIntervalSeconds row;
  ag_BanditPolicies := ag_BanditPolicies row; ag_NodeClass := ag_NodeClass row;
  ag_Generation := ag_Generation row; ag_LineageDepth := ag_LineageDepth row;
  ag_CapitalAllocated := ag_CapitalAllocated row |}.

(** New rows come with the id they are to get. *)
Definition memory_store : LifecycleStore := {|
  DB := gmap string (Agent * string);
  InsertAgent := fun row db =>
    if str_eqb (ag_ID row) "" then (Fail (EMsg "no id"), db)
    else match db !! ag_ID row with
         | Some _ => (Fail (EMsg "duplicate id"), db)
         | None => (Ok (ag_ID row), <[ag_ID row := (row, "active")]> db)
         end;
  SetAgentStatus := fun id st _ db => (None, alter (fun e => (e.1, st)) id db);
  SetAgentNodeClass := fun id _ db => (None, db);
|}.

Definition active_row (kv : string * (Agent * string)) : option Agent :=
  if str_eqb kv.2.2 "active" then Some (with_id kv.2.1 kv.1) else None.

Definition memory_table : AgentTable memory_store := {|
  status := fun (db : @DB memory_store) id => snd <$> (db : gmap string (Agent * string)) !! id;
  ListActiveAgents := fun db => Ok (omap active_row (map_to_list db));
|}.

Lemma active_rows_ids (l : list (string * (Agent * string))) :
  NoDup l.*1 ->
  NoDup (ag_ID <$> omap active_row l) /\
  forall id, id ∈ ag_ID <$> omap active_row l -> exists row, (id, (row, "active")) ∈ l.
Proof.
  induction l as [|[k [row st]] l IH]; cbn; intros Hnd.
  { split; [constructor|]. intros id H. by apply not_elem_of_nil in H. }
  apply NoDup_cons in Hnd as [Hk Hnd]. destruct (IH Hnd) as [H1 H2].
  assert (Ea : active_row (k, (row, st))
    = if str_eqb st "active" then Some (with_id row k) else None) by done.
  rewrite Ea. destruct (str_eqb st "active") eqn:Es; cbn.
  - apply bool_decide_eq_true in Es as ->. split.
    + apply NoDup_cons. split; [|done]. intros Hin. apply Hk.
      destruct (H2 k Hin) as [row' Hrow]. apply list_elem_of_fmap. by exists (k, (row', "active")).
    + intros id [->|Hid]%elem_of_cons; [exists row; by left|].
      destruct (H2 id Hid) as [row' ?]. exists row'. by right.
  - split; [done|]. intros id Hid. destruct (H2 id Hid) as [row' ?]. exists row'. by right.
Qed.

Lemma memory_table_laws : AgentTableLaws memory_store memory_table.
Proof.
  split.
  - intros id st r db id'. cbn. destruct (decide (id = id')) as [<-|Hne].
    + rewrite lookup_alter_eq. by destruct ((db : gmap string (Agent * string)) !! id).
    + rewrite lookup_alter_ne by done. by destruct ((db : gmap string (Agent * string)) !! id').
  - done.
  - intros row db id'. cbn. destruct (str_eqb (ag_ID row) "") eqn:E0; [done|].
    destruct ((db : gmap string (Agent * string)) !! ag_ID row) eqn:E1; [done|].
    split; [by apply bool_decide_eq_false in E0|]. split; [by rewrite E1|].
    destruct (decide (ag_ID row = id')) as [<-|Hne]; [by rewrite lookup_insert_eq|].
    by rewrite lookup_insert_ne.
  - intros db rows [= <-].
    destruct (active_rows_ids (map_to_list db) (NoDup_fst_map_to_list db)) as [H1 H2].
    split; [done|]. intros id Hid. destruct (H2 id Hid) as [row Hrow].
    apply (elem_of_map_to_list (db : gmap string (Agent * string))) in Hrow.
    cbn. by rewrite Hrow.
Qed.

(** One agent is loaded, paused and killed; the swarm handles both messages
    afterwards. *)
Definition day0 : @DB memory_store := {[ "a" := (sample_row "a", "active") ]}.

Definition start_world : world (S := memory_store) (E := event_codec) := {|
  w_db := day0; w_queue := [];
  w_swarm := (LoadAndStart builds_all always_ok no_names empty_swarm
                (ListActiveAgents (AgentTable := memory_table) day0)).2 |}.

Definition paused_world : world (S := memory_store) (E := event_codec) :=
  let '(_, db, msgs) :=
    run (S := memory_store) (E := event_codec) reliable 0 TPause "a" "" day0 in
  {| w_db := db; w_queue := w_queue start_world ++ msgs; w_swarm := w_swarm start_world |}.

Definition end_world : world (S := memory_store) (E := event_codec) :=
  {| w_db := w_db paused_world; w_queue := [];
     w_swarm := dispatch (E := event_codec) builds_all always_ok no_names (w_swarm paused_world)
       (ListActiveAgents (AgentTable := memory_table) (w_db paused_world))
       (sample_message ChannelLifecyclePause "a") |}.

Lemma runners_follow_table_witness :
  run_status (w_swarm end_world) "a" = Some true /\
  status (AgentTable := memory_table) (w_db end_world) "a" <> Some "dead".
Proof.
  split; [vm_compute; reflexivity|].
  refine (proj2 (runners_follow_table (S := memory_store) (T := memory_table)
    (L := memory_table_laws) (E := event_codec) (EL := event_codec_laws)
    builds_all always_ok no_names (fun ev => ex_intro _ ev eq_refl)
    day0 [sample_row "a"] empty_swarm end_world _ eq_refl eq_refl _ eq_refl "a")).
  - split; cbn; intros *; [by rewrite lookup_nil|by rewrite lookup_empty].
  - eapply reach_step; [eapply reach_step; [apply reach_refl|]|].
    + apply (w_transition (S := memory_store) (E := event_codec) builds_all always_ok no_names
        start_world TPause "a" "" 0 None (w_db paused_world) (w_queue paused_world)); done.
    + exact (w_deliver (S := memory_store) (T := memory_table) (E := event_codec)
        builds_all always_ok no_names paused_world
        (sample_message ChannelLifecyclePause "a") [] eq_refl).
Defined.

(** The status alone does not bring a runner back: an agent that was paused
    when the swarm started has no runner, and resuming it starts none. *)
Lemma resume_starts_nothing :
  let db := {[ "a" := (sample_row "a", "paused") ]} : @DB memory_store in
  let s := (LoadAndStart builds_all always_ok no_names empty_swarm
              (ListActiveAgents (AgentTable := memory_table) db)).2 in
  let '(_, db', _) := run (S := memory_store) (E := event_codec) reliable 0 TResume "a" "" db in
  status (AgentTable := memory_table) db' "a" = Some "active" /\
  RunnerCount (dispatch (E := event_codec) builds_all always_ok no_names s
    (ListActiveAgents (AgentTable := memory_table) db')
    (sample_message ChannelLifecycleResume "a")) = 0.
Proof. by vm_compute. Qed.
