(* ===== verification/Bandit.v ===== *)
(** * The tick bandit ([internal/agent/bandit.go])

    Thompson sampling over Beta arms.  A Go map may be nil: reading a nil map
    finds nothing, writing one panics.  An operation that can panic returns
    [None] then.  The rejection sampler draws until a draw is accepted; its
    model takes the number of draws it may make as fuel and has a result as
    soon as one of them is accepted.  [math.Log], [math.Pow] and
    [NormFloat64] are arguments, [encoding/json] an interface. *)
From Stdlib Require Import ZArith Lia Floats.
From stdpp Require Import base list strings gmap sorting.
From S2P Require Import Prelude GoBase GoFloat GoRound GoRand.
Set Warnings "-inexact-float".
Open Scope Z_scope.

Definition go_map : Type := option (gmap string float).

Definition entries (m : go_map) : gmap string float := default ∅ m.

(** [m[k] = v]; [None] is the panic of writing a nil map. *)
Definition map_set (m : go_map) (k : string) (v : float) : option go_map :=
  match m with None => None | Some m => Some (Some (<[k := v]> m)) end.

(** [m[k]], with the zero value for a missing key. *)
Definition map_get (m : go_map) (k : string) : float := default 0%float (entries m !! k).

Record TickBandit := { Alphas : go_map; Betas : go_map }.

Definition newBandit (policies : list string) : TickBandit :=
  let a := foldl (fun m p => <[p := 1%float]> m) ∅ policies in
  let b := foldl (fun m p => <[p := 1%float]> m) ∅ policies in
  {| Alphas := Some a; Betas := Some b |}.

(** The arm names, in the order of one visit of the map, sorted. *)
Definition sortedPolicies (range : range_order string float) (b : TickBandit) : list string :=
  insertion_sort str_lt ((range (entries (Alphas b))).*1).

Definition Policies := sortedPolicies.

Definition Update (b : TickBandit) (policy : string) (reward : float)
    : option (option gerror * TickBandit) :=
  match entries (Alphas b) !! policy with
  | None => Some (Some (EMsg "bandit: unknown policy %q"), b)
  | Some _ =>
    if (0 <? reward)%float then
      a ← map_set (Alphas b) policy (map_get (Alphas b) policy + 1)%float;
      Some (None, {| Alphas := a; Betas := Betas b |})
    else
      be ← map_set (Betas b) policy (map_get (Betas b) policy + 1)%float;
      Some (None, {| Alphas := Alphas b; Betas := be |})
  end.

Definition AddPolicy (b : TickBandit) (policy : string) : option TickBandit :=
  match entries (Alphas b) !! policy with
  | Some _ => Some b
  | None =>
      a ← map_set (Alphas b) policy 1%float;
      be ← map_set (Betas b) policy 1%float;
      Some {| Alphas := a; Betas := be |}
  end.

(** ** Persistence *)

(** [encoding/json] on [banditState]; the blob is a string. *)
Class StateCodec := {
  Marshal : TickBandit -> result string;
  Unmarshal : string -> result TickBandit;
}.

Class StateCodecLaws (C : StateCodec) := {
  Marshal_nonempty s blob : Marshal s = Ok blob -> blob <> "";
  Unmarshal_Marshal s blob : Marshal s = Ok blob -> Unmarshal blob = Ok s;
}.

Definition SaveState {C : StateCodec} (b : TickBandit) : result string := Marshal b.

Definition LoadState {C : StateCodec} (b : TickBandit) (blob : string)
    : option gerror * TickBandit :=
  if str_eqb blob "" then (Some (EMsg "bandit: empty state"), b)
  else
    match Unmarshal blob with
    | Fail err => (Some (EWrap "bandit: decode state: %w" err), b)
    | Ok s =>
      if negb (bool_decide (size (entries (Alphas s)) = size (entries (Betas s)))) then
        (Some (EMsg "bandit: alpha/beta size mismatch (%d vs %d)"), b)
      else if forallb (fun kv => bool_decide (is_Some (entries (Betas s) !! kv.1)))
                (map_to_list (entries (Alphas s)))
      then (None, s)
      else (Some (EMsg "bandit: missing beta for %q"), b)
    end.

(** ** Sampling *)

Section Sampling.
Context {R : Rand}.
Context (NormFloat64 : rng -> float * rng).
Context (Log : float -> float) (Pow : float -> float -> float).

(** One draw of the Marsaglia-Tsang loop: accepted with a value, or not. *)
Definition gamma_draw (d c : float) (r : rng) : option float * rng :=
  let '(x, r) := NormFloat64 r in
  let v := (1.0 + c * x)%float in
  if (v <=? 0)%float then (None, r)
  else
    let v := (v * v * v)%float in
    let '(u, r) := Float64 r in
    if (u <? 1.0 - 0.0331 * x * x * x * x)%float then (Some (d * v)%float, r)
    else if (Log u <? 0.5 * x * x + d * (1.0 - v + Log v))%float
    then (Some (d * v)%float, r)
    else (None, r).

Fixpoint gamma_loop (fuel : nat) (d c : float) (r : rng) : option (float * rng) :=
  match fuel with
  | O => None
  | S fuel' =>
      match gamma_draw d c r with
      | (Some g, r) => Some (g, r)
      | (None, r) => gamma_loop fuel' d c r
      end
  end.

(** The loop at a shape of at least one. *)
Definition gamma_base (fuel : nat) (r : rng) (shape : float) : option (float * rng) :=
  let d := (shape - 1.0 / 3.0)%float in
  let c := (1.0 / PrimFloat.sqrt (9.0 * d))%float in
  gamma_loop fuel d c r.

(** The recursive call is at [shape+1]; [betaSample] only asks for positive
    shapes, so that one level is all there is. *)
Definition gammaSample (fuel : nat) (r : rng) (shape : float) : option (float * rng) :=
  if (shape <? 1)%float then
    '(y, r) ← gamma_base fuel r (shape + 1)%float;
    let '(u, r) := Float64 r in
    Some ((y * Pow u (1.0 / shape))%float, r)
  else gamma_base fuel r shape.

Definition betaSample (fuel : nat) (r : rng) (alpha beta : float) : option (float * rng) :=
  if (alpha <=? 0)%float || (beta <=? 0)%float then Some (0.5%float, r)
  else
    '(ga, r) ← gammaSample fuel r alpha;
    '(gb, r) ← gammaSample fuel r beta;
    if (ga + gb =? 0)%float then Some (0.5%float, r)
    else Some ((ga / (ga + gb))%float, r).

(** [-math.MaxFloat64]. *)
Definition min_float : float := (-0x1.fffffffffffffp1023)%float.

Fixpoint select_loop (fuel : nat) (b : TickBandit) (policies : list string) (r : rng)
    (best : string * float) : option (string * rng) :=
  match policies with
  | [] => Some (best.1, r)
  | p :: rest =>
      '(s, r) ← betaSample fuel r (map_get (Alphas b) p) (map_get (Betas b) p);
      select_loop fuel b rest r (if (best.2 <? s)%float then (p, s) else best)
  end.

Definition Select (fuel : nat) (range : range_order string float) (b : TickBandit) (r : rng)
    : option (string * rng) :=
  if bool_decide (size (entries (Alphas b)) = 0%nat) then Some ("", r)
  else select_loop fuel b (sortedPolicies range b) r ("", min_float).

(** *** The samples behind a selection *)

(** The samples drawn for [policies], in order. *)
Fixpoint samples (fuel : nat) (b : TickBandit) (policies : list string) (r : rng)
    : option (list (string * float) * rng) :=
  match policies with
  | [] => Some ([], r)
  | p :: rest =>
      '(s, r) ← betaSample fuel r (map_get (Alphas b) p) (map_get (Betas b) p);
      '(l, r) ← samples fuel b rest r;
      Some ((p, s) :: l, r)
  end.

Definition best_step (best : string * float) (x : string * float) : string * float :=
  if (best.2 <? x.2)%float then x else best.

Lemma select_samples fuel b policies : forall r best,
  select_loop fuel b policies r best =
    '(l, r) ← samples fuel b policies r; Some ((fold_left best_step l best).1, r).
Proof.
  induction policies as [|p policies IH]; intros r best; cbn [select_loop samples]; [done|].
  destruct (betaSample _ _ _ _) as [[s r1]|]; [|done]. cbn. rewrite IH.
  by destruct (samples fuel b policies r1) as [[l r2]|].
Qed.

(** No sample is NaN, and all are above the start value. *)
Definition proper_samples (l : list (string * float)) : Prop :=
  Forall (fun x => is_nan x.2 = false /\ (min_float <? x.2)%float = true) l.

(** [x] has the largest sample of [l], and is the first that has it. *)
Definition first_max (l : list (string * float)) (x : string * float) : Prop :=
  exists l1 l2, l = l1 ++ x :: l2 /\
    Forall (fun y => (y.2 <? x.2)%float = true) l1 /\
    Forall (fun y => (x.2 <? y.2)%float = false) l2.

Lemma fold_best_spec (l : list (string * float)) :
  proper_samples l ->
  (l = [] /\ fold_left best_step l ("", min_float) = ("", min_float)) \/
  first_max l (fold_left best_step l ("", min_float)).
Proof.
  induction l as [|x l IH] using rev_ind; intros Hp; [by left|right].
  apply Forall_app in Hp as [Hp [[Hx Hxm] _]%Forall_cons].
  rewrite fold_left_app. cbn [fold_left]. unfold best_step at 1.
  destruct (IH Hp) as [[-> ->]|(l1 & l2 & El & H1 & H2)].
  { cbn [snd fold_left]. rewrite Hxm. exists [], []. repeat split; constructor. }
  set (best := fold_left best_step l ("", min_float)) in *.
  assert (Hb : is_nan best.2 = false).
  { apply (Forall_forall _ l) with (x := best) in Hp; [apply Hp|].
    rewrite El. apply elem_of_app. right. by left. }
  destruct (best.2 <? x.2)%float eqn:E.
  - exists l, []. repeat split; [|constructor]. apply Forall_forall. intros y Hy.
    assert (Hy' : is_nan y.2 = false) by (by apply (Forall_forall _ l) with (x := y) in Hp as [? _]).
    rewrite El in Hy. apply elem_of_app in Hy as [Hy|Hy].
    + rewrite Forall_forall in H1. specialize (H1 y Hy). rewrite fltb_rank in * by done. lia.
    + apply elem_of_cons in Hy as [->|Hy]; [done|].
      rewrite Forall_forall in H2. specialize (H2 y Hy). rewrite fltb_rank in * by done. lia.
  - exists l1, (l2 ++ [x]). split; [rewrite El at 1; by rewrite <-app_assoc|]. split; [done|].
    by apply Forall_app_single.
Qed.

Lemma samples_policies fuel b policies : forall r l r',
  samples fuel b policies r = Some (l, r') -> l.*1 = policies.
Proof.
  induction policies as [|p policies IH]; intros r l r'; cbn; [by intros [= <- _]|].
  destruct (betaSample _ _ _ _) as [[s r1]|]; cbn; [|done].
  destruct (samples fuel b policies r1) as [[l2 r2]|] eqn:E; cbn; [|done].
  intros [= <- <-]. cbn. f_equal. by eapply IH.
Qed.

(** *** Sorting makes the visit order of the map irrelevant *)

Lemma str_lt_weak : strict_weak (fun _ => True) str_lt.
Proof.
  split.
  - intros x _. apply str_lt_irrefl.
  - intros x y z _ _ _. apply str_lt_trans.
  - intros x y z _ _ _ Hyx Hzy. destruct (str_lt z x) eqn:E; [|done].
    destruct (str_lt x y) eqn:Exy.
    + by rewrite (str_lt_trans _ _ _ E Exy) in Hzy.
    + by rewrite (str_lt_total x y Exy Hyx), Hzy in E.
Qed.

#[local] Instance str_nlt_antisym : AntiSymm eq (fun x y => str_lt y x = false).
Proof. intros x y H1 H2. by apply str_lt_total. Qed.

Lemma sortedPolicies_order range1 range2 b :
  range_ok range1 -> range_ok range2 -> sortedPolicies range1 b = sortedPolicies range2 b.
Proof.
  intros H1 H2. unfold sortedPolicies.
  eapply (StronglySorted_unique (fun x y => str_lt y x = false)).
  - apply (insertion_sort_sorted _ _ _ str_lt_weak). by apply Forall_true.
  - apply (insertion_sort_sorted _ _ _ str_lt_weak). by apply Forall_true.
  - by rewrite !insertion_sort_perm, (H1 _), (H2 _).
Qed.

Lemma sortedPolicies_spec range b p : range_ok range ->
  p ∈ sortedPolicies range b <-> p ∈ dom (entries (Alphas b)).
Proof.
  intros Hr. unfold sortedPolicies. rewrite insertion_sort_perm, (Hr _).
  rewrite elem_of_dom, list_elem_of_fmap. split.
  - intros ([k v] & -> & Hin). apply elem_of_map_to_list in Hin. by exists v.
  - intros [v Hv]. exists (p, v). split; [done|]. by apply elem_of_map_to_list.
Qed.

(** A bandit with arms whose samples are real numbers selects the arm
    with the largest sample, the first in name order among equals; the
    choice does not depend on the order in which the map is visited, and a
    bandit without arms selects none. *)
Theorem Select_spec fuel range b r l r' :
  range_ok range ->
  samples fuel b (sortedPolicies range b) r = Some (l, r') -> proper_samples l ->
  exists p, Select fuel range b r = Some (p, if bool_decide (l = []) then r else r') /\
    (p = "" /\ dom (entries (Alphas b)) = ∅ \/
     p ∈ dom (entries (Alphas b)) /\ exists s, first_max l (p, s)) /\
    (forall range', range_ok range' -> Select fuel range' b r = Select fuel range b r).
Proof.
  intros Hr Hs Hp.
  assert (Hl : l.*1 = sortedPolicies range b) by (by eapply samples_policies).
  assert (Hord : forall range', range_ok range' -> Select fuel range' b r = Select fuel range b r).
  { intros range' Hr'. unfold Select. by rewrite (sortedPolicies_order range' range b). }
  destruct (decide (dom (entries (Alphas b)) = ∅)) as [He|He].
  - assert (sortedPolicies range b = []) as Hn.
    { destruct (sortedPolicies range b) as [|p ps] eqn:E; [done|].
      assert (p ∈ dom (entries (Alphas b))) as Hin
        by (apply (sortedPolicies_spec range); [done|]; rewrite E; by left).
      by rewrite He in Hin. }
    rewrite Hn in Hl. apply fmap_nil_inv in Hl as ->.
    exists "". unfold Select. rewrite bool_decide_eq_true_2; [by auto|].
    rewrite <-size_dom, He. apply size_empty.
  - destruct (fold_best_spec l Hp) as [[-> _]|Hf].
    { exfalso. apply He. apply elem_of_equiv_empty_L. intros p Hin.
      apply (sortedPolicies_spec range) in Hin; [|done]. rewrite <-Hl in Hin.
      by apply not_elem_of_nil in Hin. }
    set (best := fold_left best_step l ("", min_float)) in *.
    assert (Hsize : size (entries (Alphas b)) <> 0%nat).
    { rewrite <-size_dom. intros Hz. apply He. by apply leibniz_equiv, size_empty_iff. }
    exists best.1. split; [|split; [right|done]].
    + unfold Select. rewrite bool_decide_eq_false_2 by done. rewrite select_samples, Hs. cbn.
      rewrite bool_decide_eq_false_2; [done|]. intros El. rewrite El in Hf.
      clear -Hf. clearbody best. destruct Hf as (l1 & l2 & E & _). by destruct l1.
    + clearbody best. split; [|exists best.2; by destruct best].
      apply (sortedPolicies_spec range); [done|]. rewrite <-Hl.
      destruct Hf as (l1 & l2 & -> & _). apply list_elem_of_fmap_2.
      apply elem_of_app. right. by left.
Qed.

(** From [r], [n] draws are rejected and the next is accepted with [g]. *)
Fixpoint accepted_after (d c : float) (n : nat) (r : rng) (g : float) (r' : rng) : Prop :=
  match n with
  | O => gamma_draw d c r = (Some g, r')
  | S n' => (gamma_draw d c r).1 = None /\ accepted_after d c n' (gamma_draw d c r).2 g r'
  end.

(** The sampling loop returns as soon as a draw is accepted: any fuel
    past that draw gives the same value. *)
Theorem gamma_loop_returns d c n : forall r g r',
  accepted_after d c n r g r' ->
  forall fuel, (n < fuel)%nat -> gamma_loop fuel d c r = Some (g, r').
Proof.
  induction n as [|n IH]; intros r g r' H fuel Hf; (destruct fuel as [|fuel]; [lia|]);
    cbn [gamma_loop].
  - by rewrite H.
  - destruct H as [H1 H2]. destruct (gamma_draw d c r) as [o r1]. cbn in H1, H2. rewrite H1.
    apply (IH r1 g r' H2). lia.
Qed.
End Sampling.

(** ** The posteriors *)

Definition at_least_one (x : float) : Prop := is_nan x = false /\ frank 1%float <= frank x.

(** Both maps exist, have the same arms, and every count is at least one. *)
Record bandit_ok (b : TickBandit) : Prop := {
  ok_alphas : is_Some (Alphas b);
  ok_betas : is_Some (Betas b);
  ok_arms : dom (entries (Alphas b)) = dom (entries (Betas b));
  ok_counts : map_Forall (fun _ x => at_least_one x) (entries (Alphas b)) /\
              map_Forall (fun _ x => at_least_one x) (entries (Betas b));
}.

Lemma one_at_least : at_least_one 1%float.
Proof. split; [reflexivity|lia]. Qed.

Lemma incr_at_least x : at_least_one x -> at_least_one (x + 1)%float.
Proof.
  intros [Hn H1]. destruct (is_fin x) eqn:Hf.
  - destruct (fadd_nonneg x 1%float Hf eq_refl) as (Hn' & Hx & _);
      [rewrite frank_one in H1; lia|rewrite frank_one; lia|]. split; [done|lia].
  - assert (E : Prim2SF x = S754_infinity false).
    { apply not_nan_spec in Hn. unfold is_fin in Hf. rewrite frank_one in H1. unfold frank in H1.
      pose proof (pow2_pos 2098 ltac:(lia)). pose proof (pow2_pos 1074 ltac:(lia)).
      destruct (Prim2SF x) as [|[]| |]; done. }
    assert (E' : Prim2SF (x + 1)%float = S754_infinity false)
      by (by rewrite FloatAxioms.add_spec, E).
    split; [apply not_nan_spec; by rewrite E'|].
    unfold frank at 2. rewrite E'. unfold frank at 2 in H1. by rewrite E in H1.
Qed.

Lemma new_counts policies (m : gmap string float) : map_Forall (fun _ x => at_least_one x) m ->
  map_Forall (fun _ x => at_least_one x) (foldl (fun m p => <[p := 1%float]> m) m policies).
Proof.
  revert m. induction policies as [|p ps IH]; intros m Hm; cbn; [done|].
  apply IH. apply map_Forall_insert_2; [apply one_at_least|done].
Qed.

Lemma newBandit_ok policies : bandit_ok (newBandit policies).
Proof.
  split; cbn; [by eexists|by eexists|done|].
  split; apply new_counts, map_Forall_empty.
Qed.

Lemma map_get_counts m p : map_Forall (fun _ x => at_least_one x) (entries m) ->
  p ∈ dom (entries m) -> at_least_one (map_get m p).
Proof.
  intros Hm Hp. apply elem_of_dom in Hp as [x Hx]. unfold map_get. rewrite Hx. by apply (Hm p).
Qed.

(** On a bandit with matching arms no operation panics; updating a
    registered arm reinforces it, on the side of the reward's sign, and
    nothing else; an unknown arm is refused and changes nothing; adding an
    arm starts it at one-one and is idempotent; the invariant is kept. *)
Theorem bandit_operations b p reward : bandit_ok b ->
  (exists err b', Update b p reward = Some (err, b') /\ bandit_ok b' /\
     dom (entries (Alphas b')) = dom (entries (Alphas b)) /\
     if bool_decide (p ∈ dom (entries (Alphas b))) then
       err = None /\
       (entries (Alphas b'), entries (Betas b')) =
         if (0 <? reward)%float
         then (<[p := (map_get (Alphas b) p + 1)%float]> (entries (Alphas b)), entries (Betas b))
         else (entries (Alphas b), <[p := (map_get (Betas b) p + 1)%float]> (entries (Betas b)))
     else is_Some err /\ b' = b) /\
  (exists b', AddPolicy b p = Some b' /\ bandit_ok b' /\ AddPolicy b' p = Some b' /\
     if bool_decide (p ∈ dom (entries (Alphas b))) then b' = b
     else entries (Alphas b') = <[p := 1%float]> (entries (Alphas b)) /\
          entries (Betas b') = <[p := 1%float]> (entries (Betas b))).
Proof.
  intros [[a Ha] [be Hb] Harms [Hca Hcb]]. destruct b as [A B]. cbn in *. subst A B.
  change (dom a = dom be) in Harms.
  unfold Update, AddPolicy. cbn [Alphas Betas].
  change (entries (Some a)) with a in *. change (entries (Some be)) with be in *.
  destruct (a !! p) as [x|] eqn:Ea.
  - assert (Hp : p ∈ dom a) by (apply elem_of_dom; by eexists).
    rewrite bool_decide_eq_true_2 by done.
    pose proof (map_get_counts (Some a) p Hca Hp) as Ga.
    assert (Hpb : p ∈ dom be) by (by rewrite <-Harms).
    pose proof (map_get_counts (Some be) p Hcb Hpb) as Gb.
    assert (Hins : forall (m : gmap string float) y, p ∈ dom m -> dom (<[p := y]> m) = dom m)
      by (intros m y Hm; rewrite dom_insert_L;
          by apply subseteq_union_1_L, singleton_subseteq_l).
    split.
    + destruct (0 <? reward)%float; cbn; eexists _, _; (split; [done|]); cbn.
      * rewrite Hins by done. split; [|done].
        split; cbn; [by eexists|by eexists|by rewrite Hins|].
        split; [|done]. apply map_Forall_insert_2; [by apply incr_at_least|done].
      * split; [|done]. split; cbn; [by eexists|by eexists|by rewrite Hins|].
        split; [done|]. apply map_Forall_insert_2; [by apply incr_at_least|done].
    + eexists. split; [done|]. split; [by split; cbn; eauto|]. cbn. by rewrite Ea.
  - assert (Hp : p ∉ dom a) by (by apply not_elem_of_dom).
    rewrite bool_decide_eq_false_2 by done. split.
    + eexists _, _. split; [done|]. split; [by split; cbn; eauto|]. split; [done|].
      split; [by eexists|done].
    + cbn. eexists. split; [done|]. cbn. split; [|split; [by rewrite lookup_insert_eq|done]].
      split; cbn; [by eexists|by eexists|rewrite !dom_insert_L; f_equal; exact Harms|].
      split; (apply map_Forall_insert_2; [apply one_at_least|done]).
Qed.

(** Loading what was saved restores the posteriors exactly, whatever the
    bandit held before; a blob that is accepted has the same arms on both
    sides; a blob that is refused changes nothing. *)
Theorem LoadState_roundtrip {C : StateCodec} {CL : StateCodecLaws C} b0 :
  (forall b blob, bandit_ok b -> SaveState b = Ok blob -> LoadState b0 blob = (None, b)) /\
  (forall blob, let '(err, b') := LoadState b0 blob in
     match err with
     | Some _ => b' = b0
     | None => dom (entries (Alphas b')) = dom (entries (Betas b'))
     end).
Proof.
  assert (Hsub : forall s, 
    forallb (fun kv => bool_decide (is_Some (entries (Betas s) !! kv.1)))
      (map_to_list (entries (Alphas s))) = true <->
    dom (entries (Alphas s)) ⊆ dom (entries (Betas s))).
  { intros s. rewrite forallb_forall. split.
    - intros H p Hp. apply elem_of_dom in Hp as [x Hx].
      specialize (H (p, x)). rewrite bool_decide_eq_true in H. apply elem_of_dom, H.
      by apply list_elem_of_In, elem_of_map_to_list.
    - intros H [p x] Hin. apply list_elem_of_In, elem_of_map_to_list in Hin.
      apply bool_decide_eq_true. cbn. apply elem_of_dom, H, elem_of_dom. by eexists. }
  split.
  - intros b blob [_ _ Harms _] Hs. unfold SaveState in Hs. unfold LoadState.
    unfold str_eqb. rewrite (bool_decide_eq_false_2 _ (Marshal_nonempty _ _ Hs)).
    rewrite (Unmarshal_Marshal _ _ Hs), bool_decide_eq_true_2.
    + cbn [negb]. by rewrite (proj2 (Hsub b)) by (by rewrite Harms).
    + by rewrite <-!size_dom, Harms.
  - intros blob. unfold LoadState. destruct (str_eqb blob ""); [done|].
    destruct (Unmarshal blob) as [s|]; [|done].
    destruct (bool_decide_reflect (size (entries (Alphas s)) = size (entries (Betas s)))) as [Hsz|];
      [cbn [negb]|done].
    destruct (forallb _ _) eqn:Ef; [|done].
    apply Hsub in Ef. apply set_eq. intros p. split; [apply Ef|].
    rewrite <-!size_dom in Hsz.
    assert (Hd : size (dom (entries (Betas s)) ∖ dom (entries (Alphas s))) = 0%nat)
      by (rewrite size_difference by done; lia).
    apply size_empty_inv in Hd. intros Hp. destruct (decide (p ∈ dom (entries (Alphas s)))); [done|].
    exfalso. assert (p ∈ dom (entries (Betas s)) ∖ dom (entries (Alphas s))) as Hin
      by (by apply elem_of_difference). rewrite Hd in Hin. by apply not_elem_of_empty in Hin.
Qed.

(** ** Concrete bandits *)

#[local] Instance float_eq_dec : EqDecision float.
Proof.
  intros x y. destruct (Leibniz.eqb x y) eqn:E; [left|right].
  - by apply Leibniz.eqb_spec.
  - intros H. apply Leibniz.eqb_spec in H. congruence.
Defined.

#[local] Instance TickBandit_eq_dec : EqDecision TickBandit.
Proof. solve_decision. Defined.

Definition sample_bandit : TickBandit := newBandit ["default"; "aggressive"].

(** A codec that knows one state. *)
Definition sample_codec : StateCodec := {|
  Marshal := fun s => if decide (s = sample_bandit) then Ok "sample" else Fail (EMsg "unknown");
  Unmarshal := fun blob => if str_eqb blob "sample" then Ok sample_bandit else Fail (EMsg "unknown");
|}.

Lemma sample_codec_laws : StateCodecLaws sample_codec.
Proof.
  split; intros s blob; cbn; destruct (decide (s = sample_bandit)) as [->|]; try done;
    by intros [= <-].
Qed.

Lemma LoadState_roundtrip_witness :
  LoadState (C := sample_codec) (newBandit []) "sample" = (None, sample_bandit).
Proof.
  apply (LoadState_roundtrip (C := sample_codec) (CL := sample_codec_laws) (newBandit [])).
  - apply newBandit_ok.
  - vm_compute. reflexivity.
Defined.

Lemma bandit_operations_witness :
  exists b', AddPolicy sample_bandit "momentum" = Some b' /\ bandit_ok b'.
Proof.
  destruct (bandit_operations sample_bandit "momentum" 0 (newBandit_ok _)) as [_ (b' & H1 & H2 & _)].
  exists b'. exact (conj H1 H2).
Defined.

Definition sample_order : range_order string float := fun m => map_to_list m.

(** A sampler whose normal draws are zero accepts at once. *)
Definition zero_normal (r : @rng script_rand) : float * @rng script_rand := (0%float, r).

Definition no_log (x : float) : float := 0%float.
Definition no_pow (x y : float) : float := x.

Lemma Select_spec_witness :
  exists p, Select (R := script_rand) zero_normal no_log no_pow 1 sample_order sample_bandit ([], [])
    = Some (p, ([], [])) /\ p = "aggressive".
Proof.
  assert (Hr : range_ok sample_order) by (intros m; reflexivity).
  destruct (Select_spec (R := script_rand) zero_normal no_log no_pow 1 sample_order sample_bandit
    ([], []) [("aggressive", 0.5%float); ("default", 0.5%float)] ([], []) Hr) as (p & H1 & _).
  - vm_compute. reflexivity.
  - repeat constructor.
  - exists p. split; [exact H1|].
    assert (E : Select (R := script_rand) zero_normal no_log no_pow 1 sample_order sample_bandit
      ([], []) = Some ("aggressive", ([], []))) by (vm_compute; reflexivity).
    rewrite E in H1. by injection H1 as <-.
Defined.

Lemma gamma_loop_returns_witness :
  gamma_loop (R := script_rand) zero_normal no_log 5 2 0.5 ([], []) = Some (2%float, ([], [])).
Proof.
  apply (gamma_loop_returns (R := script_rand) zero_normal no_log 2 0.5 0); [|lia].
  vm_compute. reflexivity.
Defined.

(** A blob whose maps are both null is accepted, and leaves nil maps: the
    next registration of an arm panics. *)
Definition null_codec : StateCodec := {|
  Marshal := fun _ => Fail (EMsg "unused");
  Unmarshal := fun _ => Ok {| Alphas := None; Betas := None |} |}.

Lemma null_state_panics :
  let '(err, b) := LoadState (C := null_codec) sample_bandit "{}" in
  err = None /\ AddPolicy b "default" = None.
Proof. by split. Qed.
