(* ===== verification/Throttle.v ===== *)
(** * The notification throttle ([internal/notifications/throttle.go])

    A token bucket with continuous refill and a cooldown per event type; every
    call holds the mutex throughout.  [now] is what the clock reads. *)
From Stdlib Require Import ZArith Lia Floats.
From stdpp Require Import base list strings gmap.
From S2P Require Import Prelude GoBase GoFloat GoRound.
Set Warnings "-inexact-float".
Open Scope Z_scope.

Record Throttle := {
  hourlyCap : float;
  tokens : float;
  refillRate : float;
  cooldown : Duration;
  lastByType : gmap string Time;
  lastRefill : Time;
}.

Definition NewThrottle (HourlyCap : Z) (Cooldown : Duration) (now : Time) : Throttle :=
  let HourlyCap := if HourlyCap <=? 0 then 20 else HourlyCap in
  let Cooldown := if Cooldown <=? 0 then 60 * Second else Cooldown in
  let cap := float_of_int HourlyCap in
  {| hourlyCap := cap; tokens := cap; refillRate := (cap / 3600.0)%float;
     cooldown := Cooldown; lastByType := ∅; lastRefill := now |}.

(** [d.Seconds()]. *)
Definition Seconds (d : Duration) : float :=
  (float_of_int (Z.quot d Second) + float_of_int (Z.rem d Second) / 1e9)%float.

Definition set_refill (t : Throttle) (tok : float) (last : Time) : Throttle := {|
  hourlyCap := hourlyCap t; tokens := tok; refillRate := refillRate t;
  cooldown := cooldown t; lastByType := lastByType t; lastRefill := last |}.

Definition refillLocked (now : Time) (t : Throttle) : Throttle :=
  if Before now (lastRefill t) then set_refill t (tokens t) now
  else
    let elapsed := Seconds (Sub now (lastRefill t)) in
    if (elapsed <=? 0)%float then t
    else
      let tok := (tokens t + elapsed * refillRate t)%float in
      let tok := if (hourlyCap t <? tok)%float then hourlyCap t else tok in
      set_refill t tok now.

Definition Allow (now : Time) (eventType : string) (t : Throttle) : (bool * string) * Throttle :=
  let t := refillLocked now t in
  let cooling := match lastByType t !! eventType with
                 | Some last => Sub now last <? cooldown t
                 | None => false
                 end in
  if cooling then ((false, "cooldown"), t)
  else if (tokens t <? 1.0)%float then ((false, "hourly_cap"), t)
  else
    ((true, ""),
     {| hourlyCap := hourlyCap t; tokens := (tokens t - 1.0)%float; refillRate := refillRate t;
        cooldown := cooldown t; lastByType := <[eventType := now]> (lastByType t);
        lastRefill := lastRefill t |}).

Definition Tokens (now : Time) (t : Throttle) : float * Throttle :=
  let t := refillLocked now t in (tokens t, t).

(** The deliveries a sequence of calls admits, in order. *)
Fixpoint deliveries (calls : list (Time * string)) (t : Throttle) : list (Time * string) * Throttle :=
  match calls with
  | [] => ([], t)
  | (now, ty) :: calls' =>
      let '((ok, _), t) := Allow now ty t in
      let '(out, t) := deliveries calls' t in
      (if ok then (now, ty) :: out else out, t)
  end.

(** ** Cooldown *)

(** Any two deliveries of a type are a cooldown apart. *)
Fixpoint spaced (cd : Duration) (out : list (Time * string)) : Prop :=
  match out with
  | [] => True
  | (now, ty) :: out' => Forall (fun d => d.2 = ty -> now + cd <= d.1) out' /\ spaced cd out'
  end.

Lemma refillLocked_frame now t :
  cooldown (refillLocked now t) = cooldown t /\ lastByType (refillLocked now t) = lastByType t /\
  hourlyCap (refillLocked now t) = hourlyCap t /\ refillRate (refillLocked now t) = refillRate t.
Proof.
  unfold refillLocked. destruct (Before now (lastRefill t)); [done|].
  by destruct (_ <=? 0)%float.
Qed.

Lemma Allow_last now ty t :
  0 < cooldown t <= max_int64 ->
  let '((ok, _), t') := Allow now ty t in
  cooldown t' = cooldown t /\
  (ok = true ->
     (forall last, lastByType t !! ty = Some last -> last + cooldown t <= now) /\
     lastByType t' = <[ty := now]> (lastByType t)) /\
  (ok = false -> lastByType t' = lastByType t).
Proof.
  intros Hc. unfold Allow. destruct (refillLocked_frame now t) as (H1 & H2 & _ & _).
  set (t1 := refillLocked now t) in *. rewrite H1, H2.
  destruct (match lastByType t !! ty with Some _ => _ | None => _ end) eqn:E; [done|].
  destruct (tokens t1 <? 1)%float; [done|]. cbn. split; [done|]. split; [|done].
  intros _. split; [|done]. intros last Hl. rewrite Hl in E. apply Z.ltb_ge in E.
  apply Sub_ge in E; [|unfold in_int64, min_int64; lia].
  unfold min_int64 in E. lia.
Qed.

Lemma deliveries_spaced calls : forall t,
  0 < cooldown t <= max_int64 ->
  spaced (cooldown t) (deliveries calls t).1 /\
  forall now ty last, (now, ty) ∈ (deliveries calls t).1 -> lastByType t !! ty = Some last ->
    last + cooldown t <= now.
Proof.
  induction calls as [|[now ty] calls IH]; intros t Hc; cbn [deliveries].
  { split; [done|]. intros ??? H. by apply not_elem_of_nil in H. }
  pose proof (Allow_last now ty t Hc) as HA. destruct (Allow now ty t) as [[ok why] t'].
  destruct HA as (Hcd & Hok & Hno). specialize (IH t'). rewrite Hcd in IH.
  destruct (IH Hc) as [IH1 IH2]. destruct (deliveries calls t') as [out t'']. cbn [fst] in *.
  destruct ok.
  - destruct (Hok eq_refl) as [Hlast Hmap]. cbn. split; [split; [|done]|].
    + apply Forall_forall. intros [now' ty'] Hin Ety. cbn in *. subst ty'.
      apply (IH2 now' ty now); [done|]. by rewrite Hmap, lookup_insert_eq.
    + intros now' ty' last [[= -> ->]|Hin]%elem_of_cons Hl; [by apply Hlast|].
      destruct (decide (ty = ty')) as [<-|Hne].
      * specialize (Hlast last Hl). pose proof (IH2 now' ty now Hin) as H.
        rewrite Hmap, lookup_insert_eq in H. specialize (H eq_refl). lia.
      * apply (IH2 now' ty'); [done|]. by rewrite Hmap, lookup_insert_ne.
  - rewrite (Hno eq_refl) in IH2. done.
Qed.

(** ** The bucket *)

(** The tokens are a real number between zero and the cap. *)
Record bucket_ok (t : Throttle) : Prop := {
  bk_fin : is_fin (tokens t) = true;
  bk_range : 0 <= frank (tokens t) <= frank (hourlyCap t);
  bk_cap : is_fin (hourlyCap t) = true /\ frank (hourlyCap t) <= frank 0x1p63;
  bk_rate : is_fin (refillRate t) = true /\ 0 <= frank (refillRate t) <= frank 0x1p63;
}.

Lemma consts_63 :
  frank 0x1p63 = 2 ^ 63 * 2 ^ 1074 /\ frank 3600 = 3600 * 2 ^ 1074 /\
  frank 1e9 = 1000000000 * 2 ^ 1074 /\ frank 0x1p64 = 2 ^ 64 * 2 ^ 1074 /\
  frank 0x1p127 = 2 ^ 127 * 2 ^ 1074 /\ frank 0x1p128 = 2 ^ 128 * 2 ^ 1074 /\
  frank 0x1p128 < 2 ^ 2098.
Proof. vm_compute. done. Qed.

Lemma fin_below x K : is_fin K = true -> is_nan x = false -> 0 <= frank x <= frank K -> is_fin x = true.
Proof.
  intros HK Hn Hr. apply is_fin_rank in HK as [_ HK]. apply is_fin_rank. split; [done|lia].
Qed.

Lemma Seconds_bounds d : 0 <= d <= max_int64 ->
  is_fin (Seconds d) = true /\ 0 <= frank (Seconds d) <= frank 0x1p64.
Proof.
  intros Hd. unfold Seconds. destruct consts_63 as (H63 & _ & H9 & H64 & _).
  pose proof (pow2_pos 1074 ltac:(lia)) as Hp.
  assert (Hq : 0 <= Z.quot d Second <= max_int64).
  { split; [apply Z.quot_pos; unfold Second; lia|].
    etransitivity; [|apply Hd]. apply Z.quot_le_upper_bound; unfold Second; lia. }
  assert (Hr : 0 <= Z.rem d Second < 1000000000) by (apply Z.rem_bound_pos; unfold Second; lia).
  assert (Iq : in_int64 (Z.quot d Second)) by (unfold in_int64, min_int64; lia).
  assert (Ir : in_int64 (Z.rem d Second)) by (unfold in_int64, min_int64, max_int64; lia).
  destruct (fdiv_bounds (float_of_int (Z.rem d Second)) 1e9) as (Hn & H0 & HK).
  { by apply float_of_int_fin. } { reflexivity. }
  { apply float_of_int_nonneg; [done|lia]. } { rewrite H9. lia. }
  specialize (HK 1%float eq_refl).
  rewrite frank_one, H9, (float_of_int_exact (Z.rem d Second)) in HK by lia.
  specialize (HK ltac:(nia)). rewrite <-frank_one in HK.
  assert (Hf : is_fin (float_of_int (Z.rem d Second) / 1e9)%float = true).
  { apply is_fin_between; [exact Hn|]. split; [exact H0|exact HK]. }
  pose proof (float_of_int_fin _ Iq) as Fq. pose proof (float_of_int_nonneg _ Iq ltac:(lia)) as Nq.
  destruct (float_of_int_rounds _ Iq) as (_ & Hqle & _).
  specialize (Hqle 0x1p63%float eq_refl). rewrite H63 in Hqle. unfold max_int64 in Hq.
  specialize (Hqle ltac:(nia)).
  destruct (fadd_nonneg _ _ Fq Hf Nq H0) as (Hsn & Hsge & _).
  destruct (fadd_rounds _ _ Fq Hf) as (_ & Hsle & _).
  rewrite frank_one in HK.
  specialize (Hsle 0x1p64%float eq_refl ltac:(rewrite H64; lia)).
  split; [|lia]. eapply (fin_below _ 0x1p64%float); [done|done|lia].
Qed.

Lemma refill_bucket now t : bucket_ok t -> bucket_ok (refillLocked now t).
Proof.
  intros [Hf Hr [Hcf Hc] [Hrf Hrr]]. unfold refillLocked, Before.
  destruct (Z.ltb_spec now (lastRefill t)); [by split|].
  destruct (Seconds_bounds (Sub now (lastRefill t))) as [Sf Sr];
    [unfold Sub, min_int64, max_int64; lia|].
  set (e := Seconds _) in *. destruct (e <=? 0)%float; [by split|].
  destruct consts_63 as (H63 & _ & _ & H64 & H127 & H128 & _).
  pose proof (pow2_pos 1074 ltac:(lia)) as Hp.
  destruct (fmul_bounds e (refillRate t)) as (Mn & M0 & MK); [done|done|lia|lia|].
  specialize (MK 0x1p127%float eq_refl). rewrite H127 in MK.
  specialize (MK ltac:(rewrite H64 in Sr; rewrite H63 in Hrr; nia)).
  assert (Mf : is_fin (e * refillRate t)%float = true)
    by (eapply (fin_below _ 0x1p127%float); [done|done|rewrite H127; lia]).
  destruct (fadd_nonneg _ _ Hf Mf ltac:(lia) M0) as (An & A1 & A2).
  destruct (fadd_rounds _ _ Hf Mf) as (_ & Ale & _).
  rewrite H63 in Hc.
  specialize (Ale 0x1p128%float eq_refl ltac:(rewrite H128; lia)).
  assert (Af : is_fin (tokens t + e * refillRate t)%float = true)
    by (eapply (fin_below _ 0x1p128%float); [done|done|lia]).
  clearbody e. split; cbn -[frank]; [| |split; [exact Hcf|rewrite H63; exact Hc]|split; [exact Hrf|exact Hrr]].
  - by destruct (_ <? _)%float.
  - destruct (hourlyCap t <? _)%float eqn:E; [lia|].
    rewrite fltb_rank in E by auto with float. lia.
Qed.

Lemma Allow_bucket now ty t : bucket_ok t -> bucket_ok (Allow now ty t).2.
Proof.
  intros Hb. unfold Allow. apply (refill_bucket now) in Hb.
  set (t1 := refillLocked now t) in *. destruct (match _ with Some _ => _ | None => _ end); [done|].
  destruct (tokens t1 <? 1)%float eqn:E; [done|].
  destruct Hb as [Hf Hr Hc Hrt]. rewrite fltb_rank in E by auto with float.
  apply Z.ltb_ge in E. destruct (fsub_le (tokens t1) 1) as [F R]; [done|done|rewrite frank_one in *; lia|].
  split; cbn; [done|lia|done|done].
Qed.

Lemma NewThrottle_bucket cap cd now : cap <= max_int64 -> bucket_ok (NewThrottle cap cd now).
Proof.
  intros Hcap. destruct consts_63 as (H63 & H36 & _).
  pose proof (pow2_pos 1074 ltac:(lia)) as Hp.
  unfold NewThrottle. set (c := if cap <=? 0 then 20 else cap).
  assert (Hc : 0 <= c <= max_int64) by (unfold c, max_int64 in *; destruct (Z.leb_spec cap 0); lia).
  assert (Ic : in_int64 c) by (unfold in_int64, min_int64; lia).
  pose proof (float_of_int_fin c Ic) as Fc.
  pose proof (float_of_int_nonneg c Ic ltac:(lia)) as Nc.
  destruct (float_of_int_rounds c Ic) as (_ & Hle & _).
  specialize (Hle 0x1p63%float eq_refl). rewrite H63 in Hle. unfold max_int64 in Hc.
  specialize (Hle ltac:(nia)).
  destruct (fdiv_bounds (float_of_int c) 3600) as (Dn & D0 & DK);
    [done|reflexivity|done|rewrite H36; lia|].
  specialize (DK 0x1p63%float eq_refl). rewrite H63, H36 in DK. specialize (DK ltac:(nia)).
  clearbody c. split; cbn -[frank]; rewrite ?H63.
  - exact Fc.
  - split; [exact Nc|reflexivity].
  - split; [exact Fc|exact Hle].
  - split; [|split; [exact D0|exact DK]].
    eapply (fin_below _ 0x1p63%float); [reflexivity|exact Dn|rewrite H63; split; [exact D0|exact DK]].
Qed.

Lemma deliveries_bucket calls : forall t, bucket_ok t -> bucket_ok (deliveries calls t).2.
Proof.
  induction calls as [|[now ty] calls IH]; intros t Hb; cbn [deliveries]; [done|].
  pose proof (Allow_bucket now ty t Hb) as Ha. destruct (Allow now ty t) as [[ok why] t'].
  specialize (IH t' Ha). by destruct (deliveries calls t').
Qed.

(** Whatever the clock does, two deliveries of one type are never closer
    than the cooldown, and the bucket always holds a finite number of tokens
    between zero and the cap. *)
Theorem throttle_spec cap cd now calls :
  cap <= max_int64 -> cd <= max_int64 ->
  let t := NewThrottle cap cd now in
  spaced (cooldown t) (deliveries calls t).1 /\ bucket_ok (deliveries calls t).2.
Proof.
  intros Hcap Hcd t. split.
  - apply deliveries_spaced. cbn. unfold Second, max_int64 in *.
    destruct (Z.leb_spec cd 0); lia.
  - by apply deliveries_bucket, NewThrottle_bucket.
Qed.

Lemma throttle_spec_witness :
  let calls := [(0, "epoch"); (10 * Second, "epoch"); (61 * Second, "epoch")] in
  spaced (60 * Second) (deliveries calls (NewThrottle 0 0 0)).1 /\
  bucket_ok (deliveries calls (NewThrottle 0 0 0)).2.
Proof.
  intros calls. apply (throttle_spec 0 0 0 calls); unfold max_int64; lia.
Defined.

(** With a cap of two an hour, three messages go out within thirty minutes: the
    full bucket and the refill add up. *)
Lemma rolling_hour_exceeds_cap :
  (deliveries [(0, "a"); (0, "b"); (1800 * Second, "a")] (NewThrottle 2 0 0)).1 =
  [(0, "a"); (0, "b"); (1800 * Second, "a")].
Proof. vm_compute. reflexivity. Qed.
