(* ===== verification/TxValidator.v ===== *)
(** * Pre-flight validation of transactions ([internal/security/tx_validator.go],
      [policy.go])

    The destination allowlists, which a lock guards for the whole of every
    call, and the ordered checks a transaction passes before submission.
    [unicode_lower] is what [strings.ToLower] does to a string with a byte
    above 0x7f. *)
From Stdlib Require Import ZArith Lia Floats.
From stdpp Require Import base list strings gmap.
From S2P Require Import Prelude GoBase GoFmt GoFloat GoRound.
Set Warnings "-inexact-float".
Open Scope Z_scope.

(** ** Envelopes of [internal/chain/types.go] *)

Record Transaction := {
  tx_Chain : string;
  Raw : string;
  Meta : gmap string string;
}.

Record SimResult := {
  WouldSucceed : bool;
  ExpectedOutput : float;
  GasEstimate : Z;
  ErrorMsg : string;
}.

(** ** Allowlists *)

Abbreviation allowlists := (gmap string (gset string)) (only parsing).

(** The default the package starts with and a reset returns to. *)
Definition destinationAllowlists : allowlists :=
  {[ "solana" := list_to_set [
       "JUP6LkbZbjS1jKKwapdHNy74zcZ3tLUZoi5QNyVTaV4";
       "TokenkegQfeZyiNwAJbNbGKPFXCWuBvf9Ss623VQ5DA";
       "MFv2hWf31Z9kbCa1snEPYctwafyhdvnV7FZnsebVacA";
       "KLend2g3cP87fffoy8q1mQqGKjrxjC8boSyAYavgmjD" ];
     "base" := list_to_set [
       "0x111111125421ca6dc452d289314280a0f8842a65";
       "0xa238dd80c259a72e81d7e4664a9801593f98d1c5";
       "0xbbbbbbbbbb9cc5e90e3b3af64bdaf62c37eeffcb";
       "0x4200000000000000000000000000000000000006" ] ]}.

Section Policy.
Context (unicode_lower : string -> string).

Definition lower (s : string) : string := ToLower unicode_lower s.

Definition IsDestinationAllowed (chainName address : string) (lists : allowlists) : bool :=
  match lists !! lower chainName with
  | None => false
  | Some set => bool_decide (address ∈ set) || bool_decide (lower address ∈ set)
  end.

Definition AllowDestination (chainName address : string) (lists : allowlists) : allowlists :=
  let cn := lower chainName in
  let lists := match lists !! cn with Some _ => lists | None => <[cn := ∅]> lists end in
  <[cn := {[address]} ∪ default ∅ (lists !! cn)]> lists.

Definition ResetDestinationAllowlistsForTest (lists : allowlists) : allowlists :=
  destinationAllowlists.

(** ** Validation *)

Record ValidationInput := {
  Tx : option Transaction;
  Sim : option SimResult;
  Destination : string;
  EstimatedSlippagePct : float;
  MaxAllowedSlippagePct : float;
}.

Record ValidationError := { Reason : string; Detail : string }.

Definition ReasonNilTx : string := "nil_transaction".
Definition ReasonNilSim : string := "nil_sim_result".
Definition ReasonSimRevert : string := "sim_revert".
Definition ReasonSlippageExceeded : string := "slippage_exceeded".
Definition ReasonDestinationDenied : string := "destination_not_allowed".
Definition ReasonMissingDestination : string := "missing_destination".

Definition em_dash : string := byte_str [226; 128; 148]%N.

Definition Error (e : ValidationError) : string :=
  if str_eqb (Detail e) "" then "tx validation: " +:+ Reason e
  else "tx validation: " +:+ Reason e +:+ " " +:+ em_dash +:+ " " +:+ Detail e.

Definition verr (reason detail : string) : option ValidationError :=
  Some {| Reason := reason; Detail := detail |}.

Definition Validate (input : ValidationInput) (lists : allowlists) : option ValidationError :=
  match Tx input with
  | None => verr ReasonNilTx "ValidationInput.Tx is nil"
  | Some tx =>
      match Sim input with
      | None => verr ReasonNilSim "ValidationInput.Sim is nil"
      | Some sim =>
          if negb (WouldSucceed sim) then verr ReasonSimRevert (ErrorMsg sim)
          else if (MaxAllowedSlippagePct input <=? 0)%float then
            verr ReasonSlippageExceeded "MaxAllowedSlippagePct must be > 0"
          else if (MaxAllowedSlippagePct input <=? EstimatedSlippagePct input)%float then
            verr ReasonSlippageExceeded
              ("estimated " +:+ fmt_f 4 (EstimatedSlippagePct input) +:+ "% >= cap " +:+
               fmt_f 4 (MaxAllowedSlippagePct input) +:+ "%")
          else if str_eqb (Destination input) "" then
            verr ReasonMissingDestination "Destination required for allowlist check"
          else if negb (IsDestinationAllowed (tx_Chain tx) (Destination input) lists) then
            verr ReasonDestinationDenied
              ("destination " +:+ Destination input +:+ " not on " +:+ tx_Chain tx +:+ " allowlist")
          else None
      end
  end.

(** ** Histories of the allowlists *)

Inductive policy_op := PAllow (chainName address : string) | PReset.

Definition policy_step (lists : allowlists) (o : policy_op) : allowlists :=
  match o with
  | PAllow c a => AllowDestination c a lists
  | PReset => ResetDestinationAllowlistsForTest lists
  end.

(** The addresses registered for a chain since the last reset. *)
Fixpoint registered (ops : list policy_op) (chain : string) (acc : gset string) : gset string :=
  match ops with
  | [] => acc
  | PAllow c a :: ops' =>
      registered ops' chain (if str_eqb (lower c) chain then {[a]} ∪ acc else acc)
  | PReset :: ops' => registered ops' chain ∅
  end.

Definition defaults (chain : string) : gset string :=
  default ∅ (destinationAllowlists !! chain).

Lemma AllowDestination_lookup c a lists chain :
  default ∅ (AllowDestination c a lists !! chain) =
    (if str_eqb (lower c) chain then {[a]} ∪ default ∅ (lists !! chain) else default ∅ (lists !! chain)).
Proof.
  unfold AllowDestination, str_eqb. destruct (bool_decide_reflect (lower c = chain)) as [<-|Hne].
  - rewrite lookup_insert_eq. cbn. destruct (lists !! lower c) eqn:E; [by rewrite E|].
    by rewrite lookup_insert_eq.
  - rewrite lookup_insert_ne by done. destruct (lists !! lower c); [done|].
    by rewrite lookup_insert_ne.
Qed.

Lemma policy_run_lookup ops : forall lists acc chain,
  default ∅ (lists !! chain) = defaults chain ∪ acc ->
  default ∅ (foldl policy_step lists ops !! chain) = defaults chain ∪ registered ops chain acc.
Proof.
  induction ops as [|[c a|] ops IH]; intros lists acc chain H; cbn [foldl registered policy_step];
    [done| |].
  - apply IH. rewrite AllowDestination_lookup, H. destruct (str_eqb _ _); [|done].
    apply leibniz_equiv. intros x. rewrite !elem_of_union. tauto.
  - apply IH. apply leibniz_equiv. intros x. rewrite elem_of_union.
    split; [by left|]. intros [?|[]%not_elem_of_empty]. done.
Qed.

Lemma allowed_lookup c a lists :
  IsDestinationAllowed c a lists = true <->
  a ∈ default ∅ (lists !! lower c) \/ lower a ∈ default ∅ (lists !! lower c).
Proof.
  unfold IsDestinationAllowed. destruct (lists !! lower c) as [set|]; cbn.
  - rewrite orb_true_iff, !bool_decide_eq_true. done.
  - split; [done|]. by intros [[]%not_elem_of_empty|[]%not_elem_of_empty].
Qed.

(** A comparison that fails: the other way round, or not numbers. *)
Lemma not_leb x y : (x <=? y)%float = false <-> (y <? x)%float = true \/ is_nan x = true \/ is_nan y = true.
Proof.
  destruct (is_nan x) eqn:Ex; [|destruct (is_nan y) eqn:Ey].
  1, 2: split; [by auto|intros _; destruct (x <=? y)%float eqn:E; [|done]; apply fleb_not_nan in E as [? ?]; congruence].
  rewrite fleb_rank, fltb_rank by done. rewrite Z.leb_gt, Z.ltb_lt. split; [by left|]. by intros [?|[?|?]].
Qed.

Lemma cap_leb x : (x <=? 0)%float = false <-> (0 <? x)%float = true \/ is_nan x = true.
Proof. rewrite not_leb. split; [intros [?|[?|?]]; auto; done|intros []; auto]. Qed.

(** A transaction the policy lets out.  A cap or an estimate that is not a
    number limits nothing. *)
Record admissible (input : ValidationInput) (allowed : string -> gset string) : Prop := {
  ad_tx : exists tx, Tx input = Some tx /\
    (Destination input ∈ allowed (lower (tx_Chain tx)) \/
     lower (Destination input) ∈ allowed (lower (tx_Chain tx)));
  ad_sim : exists sim, Sim input = Some sim /\ WouldSucceed sim = true;
  ad_cap : (0 <? MaxAllowedSlippagePct input)%float = true \/ is_nan (MaxAllowedSlippagePct input) = true;
  ad_slip : (EstimatedSlippagePct input <? MaxAllowedSlippagePct input)%float = true \/
    is_nan (MaxAllowedSlippagePct input) = true \/ is_nan (EstimatedSlippagePct input) = true;
  ad_dest : Destination input <> "";
}.

(** The refusals, in the order in which they are made. *)
Definition refusals (input : ValidationInput) (lists : allowlists) : list (bool * string) := [
  (match Tx input with None => true | _ => false end, ReasonNilTx);
  (match Sim input with None => true | _ => false end, ReasonNilSim);
  (match Sim input with Some sim => negb (WouldSucceed sim) | None => false end, ReasonSimRevert);
  ((MaxAllowedSlippagePct input <=? 0)%float, ReasonSlippageExceeded);
  ((MaxAllowedSlippagePct input <=? EstimatedSlippagePct input)%float, ReasonSlippageExceeded);
  (str_eqb (Destination input) "", ReasonMissingDestination);
  (match Tx input with
   | Some tx => negb (IsDestinationAllowed (tx_Chain tx) (Destination input) lists)
   | None => false
   end, ReasonDestinationDenied) ].

Lemma Validate_reason input lists :
  Reason <$> Validate input lists = snd <$> List.find fst (refusals input lists).
Proof.
  unfold Validate, refusals, verr. destruct (Tx input) as [tx|]; [|done].
  destruct (Sim input) as [sim|]; [|done]. cbn [List.find fst].
  repeat match goal with |- context [if ?b then _ else _] => destruct b; [done|] end.
  done.
Qed.

(** C25: with the allowlists any history of registrations and resets leaves, a
    transaction passes exactly when it is simulated to succeed, its cap is
    positive or NaN, its slippage is below the cap or one of the two is NaN,
    and its destination, as written or in lower case, is a default of its
    chain or was registered for it since the last reset; any other is refused
    for the first check it fails.  So a NaN cap lets any slippage out, and a
    NaN slippage passes any positive cap. *)
Theorem admission_spec input ops :
  let lists := foldl policy_step destinationAllowlists ops in
  (Validate input lists = None <->
   admissible input (fun chain => defaults chain ∪ registered ops chain ∅)) /\
  Reason <$> Validate input lists = snd <$> List.find fst (refusals input lists).
Proof.
  intros lists. split; [|apply Validate_reason].
  assert (Hl : forall c a, IsDestinationAllowed c a lists = true <->
    a ∈ defaults (lower c) ∪ registered ops (lower c) ∅ \/
    lower a ∈ defaults (lower c) ∪ registered ops (lower c) ∅).
  { intros c a. rewrite allowed_lookup. unfold lists.
    rewrite (policy_run_lookup ops _ ∅); [done|]. unfold defaults. apply leibniz_equiv.
    intros x. rewrite elem_of_union. split; [by left|]. by intros [?|[]%not_elem_of_empty]. }
  clearbody lists. unfold Validate, verr, str_eqb.
  destruct (Tx input) as [tx|] eqn:Et; [|split; [done|]; intros [(? & ? & _) _ _ _ _]; congruence].
  destruct (Sim input) as [sim|] eqn:Es; [|split; [done|]; intros [_ (? & ? & _) _ _ _]; congruence].
  destruct (WouldSucceed sim) eqn:Ew; cbn [negb];
    [|split; [done|]; intros [_ (? & ? & ?) _ _ _]; congruence].
  destruct (MaxAllowedSlippagePct input <=? 0)%float eqn:E1;
    [split; [done|]; intros [_ _ H%cap_leb _ _]; congruence|].
  destruct (MaxAllowedSlippagePct input <=? EstimatedSlippagePct input)%float eqn:E2;
    [split; [done|]; intros [_ _ _ H%not_leb _]; congruence|].
  destruct (bool_decide_reflect (Destination input = "")) as [|Hd];
    [split; [done|]; by intros [_ _ _ _ ?]|].
  specialize (Hl (tx_Chain tx) (Destination input)).
  destruct (IsDestinationAllowed _ _ lists); cbn [negb]; split; try done.
  - intros _. split; [exists tx; split; [done|by apply Hl]|by exists sim|by apply cap_leb|by apply not_leb|done].
  - intros [(tx' & E & Ha) _ _ _ _]. assert (tx' = tx) as -> by congruence.
    by apply Hl in Ha.
Qed.
End Policy.

Definition no_unicode (s : string) : string := s.

Definition sample_input (chain dest : string) (est : float) : ValidationInput := {|
  Tx := Some {| tx_Chain := chain; Raw := ""; Meta := ∅ |};
  Sim := Some {| WouldSucceed := true; ExpectedOutput := 1; GasEstimate := 21000; ErrorMsg := "" |};
  Destination := dest; EstimatedSlippagePct := est; MaxAllowedSlippagePct := 1 |}.

Example Validate_ex :
  Validate no_unicode (sample_input "Base" "0x111111125421CA6DC452D289314280A0F8842A65" 0.5)
    destinationAllowlists = None /\
  Reason <$> Validate no_unicode (sample_input "base" "0xdead" 0.5) destinationAllowlists =
    Some ReasonDestinationDenied /\
  Detail <$> Validate no_unicode (sample_input "base" "0xdead" 1.5) destinationAllowlists =
    Some "estimated 1.5000% >= cap 1.0000%".
Proof. vm_compute. repeat split. Qed.

(** A registered checksummed address is not found in lower case, although the
    same address in the default list is found in any case. *)
Lemma registered_case_sensitive :
  let lists := AllowDestination no_unicode "base" "0xDEAD" destinationAllowlists in
  IsDestinationAllowed no_unicode "base" "0xDEAD" lists = true /\
  IsDestinationAllowed no_unicode "base" "0xdead" lists = false /\
  IsDestinationAllowed no_unicode "base" "0x111111125421CA6DC452D289314280A0F8842A65" lists = true.
Proof. vm_compute. repeat split. Qed.

(** A slippage estimate that is not a number passes every cap. *)
Lemma nan_slippage_passes :
  Validate no_unicode (sample_input "base" "0x111111125421ca6dc452d289314280a0f8842a65" (0 / 0)%float)
    destinationAllowlists = None.
Proof. vm_compute. reflexivity. Qed.

(** Nor does a cap that is not a number refuse any. *)
Lemma nan_cap_passes :
  Validate no_unicode {| Tx := Tx (sample_input "base" "" 0); Sim := Sim (sample_input "base" "" 0);
    Destination := "0x111111125421ca6dc452d289314280a0f8842a65"; EstimatedSlippagePct := 99;
    MaxAllowedSlippagePct := (0 / 0)%float |} destinationAllowlists = None.
Proof. vm_compute. reflexivity. Qed.
