(* ===== verification/KnowledgeGraph.v ===== *)
(** * The market knowledge graph ([internal/intelligence/knowledge_graph.go],
      [decay_job.go])

    Typed edges under their full natural key, with an index by the key less
    the direction.  Every method holds the graph's lock throughout; the
    methods that iterate the edge map take the order Go visits it in. *)
From Stdlib Require Import ZArith Lia Floats.
From stdpp Require Import base list strings gmap.
From S2P Require Import Prelude GoBase GoFloat GoRound.
Set Warnings "-inexact-float".
Open Scope Z_scope.

Abbreviation Direction := string (only parsing).
Definition DirectionPositive : Direction := "positive".
Definition DirectionNegative : Direction := "negative".
Definition DirectionNeutral : Direction := "neutral".

Definition Opposite (d : Direction) : Direction :=
  if str_eqb d DirectionPositive then DirectionNegative
  else if str_eqb d DirectionNegative then DirectionPositive
  else "".

Record Edge := {
  EntityA : string;
  Relationship : string;
  EntityB : string;
  e_Direction : Direction;
  Strength : float;
  EvidenceCount : Z;
  DiscoveredBy : string;
  LastValidated : Time;
  CreatedAt : Time;
}.

(** (entity_a, relationship, entity_b), and the same with the direction. *)
Abbreviation EdgeKey := (string * string * string)%type (only parsing).
Abbreviation edgeID := (string * string * string * string)%type (only parsing).

Definition Key (e : Edge) : EdgeKey := (EntityA e, Relationship e, EntityB e).

Definition DecayInterval : Duration := 30 * 24 * Hour.
Definition DecayFactor : float := 0.95.
Definition DeletionThreshold : float := 0.1.
Definition ContradictionPenalty : float := 0.2.
Definition MaxStrength : float := 1.0.
Definition MinStrength : float := 0.0.

Record UpsertResult := {
  Inserted : bool;
  Reinforced : bool;
  ContradictionApplied : bool;
  PrevStrength : float;
  NewStrength : float;
}.

Record KnowledgeGraph := {
  edges : gmap edgeID Edge;
  byKey : gmap EdgeKey (list edgeID);
}.

Definition NewKnowledgeGraph : KnowledgeGraph := {| edges := ∅; byKey := ∅ |}.

Definition clampStrength (s : float) : float :=
  if (s <? MinStrength)%float then MinStrength
  else if (MaxStrength <? s)%float then MaxStrength
  else s.

Definition max1 (n : Z) : Z := if n <? 1 then 1 else n.

Definition validateEdge (e : Edge) : option gerror :=
  if str_eqb (TrimSpace (EntityA e)) "" then Some (EMsg "knowledge_graph: entity_a required")
  else if str_eqb (TrimSpace (EntityB e)) "" then Some (EMsg "knowledge_graph: entity_b required")
  else if str_eqb (TrimSpace (Relationship e)) ""
    then Some (EMsg "knowledge_graph: relationship required")
  else if negb (mem (e_Direction e) [DirectionPositive; DirectionNegative; DirectionNeutral])
    then Some (EMsg "knowledge_graph: direction must be positive/negative/neutral")
  else if (Strength e <? 0)%float || (1 <? Strength e)%float
    then Some (EMsg "knowledge_graph: strength out of [0,1]")
  else None.

Definition removeLocked (id : edgeID) (g : KnowledgeGraph) : KnowledgeGraph :=
  let list := default [] (byKey g !! id.1) in
  let idx := if mem id list then <[id.1 := remove_first id list]> (byKey g) else byKey g in
  let idx := if decide (default [] (idx !! id.1) = []) then delete id.1 idx else idx in
  {| edges := delete id (edges g); byKey := idx |}.

Definition set_edge (id : edgeID) (e : Edge) (g : KnowledgeGraph) : KnowledgeGraph :=
  {| edges := <[id := e]> (edges g); byKey := byKey g |}.

Definition with_strength (e : Edge) (s : float) : Edge := {|
  EntityA := EntityA e; Relationship := Relationship e; EntityB := EntityB e;
  e_Direction := e_Direction e; Strength := s; EvidenceCount := EvidenceCount e;
  DiscoveredBy := DiscoveredBy e; LastValidated := LastValidated e; CreatedAt := CreatedAt e |}.

Definition zero_result : UpsertResult := {|
  Inserted := false; Reinforced := false; ContradictionApplied := false;
  PrevStrength := 0; NewStrength := 0 |}.

(** The first half of [Upsert]: the edge in the opposite direction pays for
    the contradiction, and goes when it falls below the threshold. *)
Definition contradict (e : Edge) (g : KnowledgeGraph) : bool * KnowledgeGraph :=
  let opposite := Opposite (e_Direction e) in
  if str_eqb opposite "" then (false, g)
  else
    let id := (Key e, opposite) in
    match edges g !! id with
    | None => (false, g)
    | Some existing =>
        let s := clampStrength (Strength existing - ContradictionPenalty)%float in
        let g := set_edge id (with_strength existing s) g in
        (true, if (s <? DeletionThreshold)%float then removeLocked id g else g)
    end.

Definition reinforce (now : Time) (e existing : Edge) : Edge := {|
  EntityA := EntityA existing; Relationship := Relationship existing; EntityB := EntityB existing;
  e_Direction := e_Direction existing;
  Strength := clampStrength ((Strength existing + clampStrength (Strength e)) / 2)%float;
  EvidenceCount := wrap64 (EvidenceCount existing + 1);
  DiscoveredBy := DiscoveredBy existing; LastValidated := now; CreatedAt := CreatedAt existing |}.

Definition new_edge (now : Time) (e : Edge) : Edge := {|
  EntityA := EntityA e; Relationship := Relationship e; EntityB := EntityB e;
  e_Direction := e_Direction e; Strength := clampStrength (Strength e);
  EvidenceCount := max1 (EvidenceCount e); DiscoveredBy := DiscoveredBy e;
  LastValidated := now;
  CreatedAt := if IsZero (CreatedAt e) then now else CreatedAt e |}.

Definition Upsert (now : Time) (e : Edge) (g : KnowledgeGraph)
    : result UpsertResult * KnowledgeGraph :=
  match validateEdge e with
  | Some err => (Fail err, g)
  | None =>
      let '(contradicted, g) := contradict e g in
      let id := (Key e, e_Direction e) in
      match edges g !! id with
      | Some existing =>
          let existing' := reinforce now e existing in
          (Ok {| Inserted := false; Reinforced := true; ContradictionApplied := contradicted;
                 PrevStrength := Strength existing; NewStrength := Strength existing' |},
           set_edge id existing' g)
      | None =>
          let edge := new_edge now e in
          (Ok {| Inserted := true; Reinforced := false; ContradictionApplied := contradicted;
                 PrevStrength := 0; NewStrength := Strength edge |},
           {| edges := <[id := edge]> (edges g);
              byKey := <[Key e := default [] (byKey g !! Key e) ++ [id]]> (byKey g) |})
      end
  end.

Definition Get (key : EdgeKey) (dir : Direction) (g : KnowledgeGraph) : option Edge :=
  edges g !! (key, dir).

Definition Len (g : KnowledgeGraph) : Z := Z.of_nat (size (edges g)).

(** ** Decay *)

Definition stale (cutoff : Time) (e : Edge) : bool := negb (After (LastValidated e) cutoff).

Definition decayed_strength (e : Edge) : float := clampStrength (Strength e * DecayFactor)%float.

Fixpoint decay_loop (cutoff : Time) (entries : list (edgeID * Edge))
    (g : KnowledgeGraph) (decayed deleted : Z) : (Z * Z) * KnowledgeGraph :=
  match entries with
  | [] => ((decayed, deleted), g)
  | (id, e) :: entries' =>
      if After (LastValidated e) cutoff then decay_loop cutoff entries' g decayed deleted
      else
        let s := decayed_strength e in
        let g := set_edge id (with_strength e s) g in
        if (s <? DeletionThreshold)%float
        then decay_loop cutoff entries' (removeLocked id g) (decayed + 1) (deleted + 1)
        else decay_loop cutoff entries' g (decayed + 1) deleted
  end.

Definition Decay (now : Time) (range : range_order edgeID Edge) (g : KnowledgeGraph)
    : (Z * Z) * KnowledgeGraph :=
  decay_loop (Add now (- DecayInterval)) (range (edges g)) g 0 0.

(** [DecayJob.RunOnce] on a job with a graph, and without one. *)
Definition RunOnce (now : Time) (range : range_order edgeID Edge) (g : option KnowledgeGraph)
    : (Z * Z) * option KnowledgeGraph :=
  match g with
  | None => ((0, 0), None)
  | Some g => let '(counts, g) := Decay now range g in (counts, Some g)
  end.

(** [DecayJob.Run] until its context is cancelled: one pass at once, then one
    per tick. *)
Fixpoint job_ticks (ticks : list (Time * range_order edgeID Edge)) (g : option KnowledgeGraph)
    : option KnowledgeGraph :=
  match ticks with
  | [] => g
  | (now, range) :: ticks' => job_ticks ticks' (RunOnce now range g).2
  end.

Definition Run (start : Time * range_order edgeID Edge) (ticks : list (Time * range_order edgeID Edge))
    (g : option KnowledgeGraph) : option KnowledgeGraph :=
  match g with
  | None => None
  | Some _ => job_ticks (start :: ticks) g
  end.

(** ** Reads in order *)

Definition edges_less (a b : Edge) : bool :=
  if negb (str_eqb (EntityA a) (EntityA b)) then str_lt (EntityA a) (EntityA b)
  else if negb (str_eqb (Relationship a) (Relationship b)) then str_lt (Relationship a) (Relationship b)
  else if negb (str_eqb (EntityB a) (EntityB b)) then str_lt (EntityB a) (EntityB b)
  else str_lt (e_Direction a) (e_Direction b).

Definition Edges {S : SliceSort} (range : range_order edgeID Edge) (g : KnowledgeGraph) : list Edge :=
  sort_slice edges_less (range (edges g)).*2.

Definition other (e : Edge) (entity : string) : string :=
  if str_eqb (EntityA e) entity then EntityB e else EntityA e.

Definition incident (entity : string) (e : Edge) : bool :=
  str_eqb (EntityA e) entity || str_eqb (EntityB e) entity.

Definition neighbors_less (entity : string) (a b : Edge) : bool :=
  if negb (Strength a =? Strength b)%float then (Strength b <? Strength a)%float
  else
    let ai := other a entity in
    let bi := other b entity in
    if negb (str_eqb ai bi) then str_lt ai bi else str_lt (e_Direction a) (e_Direction b).

Definition Neighbors {S : SliceSort} (range : range_order edgeID Edge) (entity : string)
    (g : KnowledgeGraph) : list Edge :=
  sort_slice (neighbors_less entity) (List.filter (incident entity) (range (edges g)).*2).

(** ** The index by key *)

(** Every key of an edge, and no other, has an entry that lists its ids once. *)
Definition index_ok (g : KnowledgeGraph) : Prop := forall k,
  match byKey g !! k with
  | Some l => l <> [] /\ NoDup l /\ forall id, id ∈ l <-> id.1 = k /\ is_Some (edges g !! id)
  | None => forall d, edges g !! (k, d) = None
  end.

Lemma index_ids g k : index_ok g ->
  NoDup (default [] (byKey g !! k)) /\
  forall id, id ∈ default [] (byKey g !! k) <-> id.1 = k /\ is_Some (edges g !! id).
Proof.
  intros Hi. specialize (Hi k). destruct (byKey g !! k) as [l|]; cbn; [tauto|].
  split; [constructor|]. intros [k' d]. split; [by intros ?%not_elem_of_nil|].
  cbn. intros [-> Hs]. rewrite Hi in Hs. by apply is_Some_None in Hs.
Qed.

Lemma set_edge_index id e e' g :
  index_ok g -> edges g !! id = Some e -> index_ok (set_edge id e' g).
Proof.
  intros Hi He k. specialize (Hi k). cbn. destruct (byKey g !! k) as [l|].
  - destruct Hi as (H1 & H2 & H3). split; [done|]. split; [done|]. intros id'.
    rewrite H3. destruct (decide (id = id')) as [->|Hne].
    + rewrite lookup_insert_eq, He. by split; intros [-> _]; eauto.
    + by rewrite lookup_insert_ne.
  - intros d. destruct (decide (id = (k, d))) as [->|Hne]; [by rewrite Hi in He|].
    by rewrite lookup_insert_ne.
Qed.

Lemma removeLocked_index id g : index_ok g -> index_ok (removeLocked id g).
Proof.
  intros Hi. destruct (index_ids g id.1 Hi) as [Hnd Hel]. unfold removeLocked.
  set (list := default [] (byKey g !! id.1)) in *.
  set (idx := if mem id list then _ else _).
  assert (Hidx : default [] (idx !! id.1) = remove_first id list /\
                 forall k, k <> id.1 -> idx !! k = byKey g !! k).
  { subst idx. destruct (mem id list) eqn:E.
    - split; [by rewrite lookup_insert_eq|]. intros k Hk. by rewrite lookup_insert_ne.
    - split; [|done]. fold list. clear Hel. induction list as [|v l IH]; [done|]. cbn.
      cbn in E. apply orb_false_iff in E as [E1 E2]. apply bool_decide_eq_false in E1.
      rewrite decide_False by done. f_equal. apply IH; [|done]. by apply NoDup_cons in Hnd as [_ ?]. }
  clearbody idx. destruct Hidx as [Hself Hother].
  assert (Hin : forall id', id' ∈ remove_first id list <->
            id'.1 = id.1 /\ is_Some (delete id (edges g) !! id')).
  { intros id'. rewrite elem_remove_first, Hel by done. destruct (decide (id = id')) as [->|Hne].
    - rewrite lookup_delete_eq. split; [tauto|]. by intros [_ ?%is_Some_None].
    - rewrite lookup_delete_ne by done. split; [tauto|]. intros [? ?]. by repeat split. }
  intros k. cbn. destruct (decide (k = id.1)) as [->|Hk].
  - rewrite Hself. destruct (decide (remove_first id list = [])) as [Hnil|Hne].
    + rewrite lookup_delete_eq. intros d. rewrite Hnil in Hin.
      destruct (delete id (edges g) !! (id.1, d)) eqn:E; [|done].
      exfalso. eapply not_elem_of_nil. apply (Hin (id.1, d)). by rewrite E.
    + destruct (idx !! id.1) as [l|] eqn:E; cbn in Hself; [subst l|by rewrite <- Hself in Hne].
      split; [done|]. split; [by apply NoDup_remove_first|done].
  - assert (Hk' : (if decide (default [] (idx !! id.1) = []) then delete id.1 idx else idx) !! k
                  = byKey g !! k).
    { destruct (decide _); [rewrite lookup_delete_ne by done|]; by apply Hother. }
    rewrite Hk'. specialize (Hi k). destruct (byKey g !! k) as [l|].
    + destruct Hi as (H1 & H2 & H3). split; [done|]. split; [done|]. intros id'.
      rewrite H3. split; intros [<- Hs]; (split; [done|]); [|by eapply lookup_delete_is_Some in Hs as [_ ?]].
      apply lookup_delete_is_Some. split; [by intros ->|done].
    + intros d. apply lookup_delete_None. right. apply Hi.
Qed.

Lemma insert_index id e g :
  index_ok g -> edges g !! id = None ->
  index_ok {| edges := <[id := e]> (edges g);
              byKey := <[id.1 := default [] (byKey g !! id.1) ++ [id]]> (byKey g) |}.
Proof.
  intros Hi Hnone k. destruct (index_ids g id.1 Hi) as [Hnd Hel]. cbn.
  destruct (decide (k = id.1)) as [->|Hk].
  - rewrite lookup_insert_eq. split; [by intros [_ ?]%app_nil|]. split.
    + apply NoDup_app. split; [done|]. split; [|apply NoDup_singleton].
      intros id' Hin Heq. apply list_elem_of_singleton in Heq as ->. apply Hel in Hin as [_ Hs].
      rewrite Hnone in Hs. by apply is_Some_None in Hs.
    + intros id'. rewrite elem_of_app, Hel, list_elem_of_singleton.
      destruct (decide (id = id')) as [->|Hne].
      * rewrite lookup_insert_eq. split; [intros [[? _]|_]; eauto|tauto].
      * rewrite lookup_insert_ne by done. split; [by intros [?|?]|tauto].
  - rewrite lookup_insert_ne by done. specialize (Hi k). destruct (byKey g !! k) as [l|].
    + destruct Hi as (H1 & H2 & H3). split; [done|]. split; [done|]. intros id'.
      rewrite H3. split; intros [<- Hs]; (split; [done|]).
      * apply lookup_insert_is_Some'. by right.
      * apply lookup_insert_is_Some in Hs as [->|[_ ?]]; done.
    + intros d. rewrite lookup_insert_ne; [done|]. by intros ->.
Qed.

(** ** Upsert *)

(** An edge that contradicting evidence reaches. *)
Definition penalised (x : Edge) : option Edge :=
  let s := clampStrength (Strength x - ContradictionPenalty)%float in
  if (s <? DeletionThreshold)%float then None else Some (with_strength x s).

(** What an accepted [Upsert] leaves under each id. *)
Definition upserted (now : Time) (e : Edge) (E : gmap edgeID Edge) (id : edgeID) : option Edge :=
  if decide (id = (Key e, e_Direction e)) then
    Some (match E !! id with Some x => reinforce now e x | None => new_edge now e end)
  else if decide (id = (Key e, Opposite (e_Direction e)) /\ Opposite (e_Direction e) <> "") then
    E !! id ≫= penalised
  else E !! id.

Lemma Opposite_ne d : Opposite d <> "" -> Opposite d <> d.
Proof.
  unfold Opposite, str_eqb. destruct (bool_decide_reflect (d = DirectionPositive)) as [->|]; [done|].
  by destruct (bool_decide_reflect (d = DirectionNegative)) as [->|].
Qed.

Lemma contradict_spec e g : index_ok g ->
  let opp := (Key e, Opposite (e_Direction e)) in
  let '(b, g') := contradict e g in
  index_ok g' /\
  b = bool_decide (Opposite (e_Direction e) <> "" /\ is_Some (edges g !! opp)) /\
  forall id, edges g' !! id =
    if decide (id = opp /\ Opposite (e_Direction e) <> "") then edges g !! id ≫= penalised
    else edges g !! id.
Proof.
  intros Hi opp. unfold contradict, str_eqb. fold opp.
  destruct (bool_decide_reflect (Opposite (e_Direction e) = "")) as [E|E].
  { split; [done|]. split; [rewrite bool_decide_eq_false_2; tauto|]. intros id.
    rewrite decide_False; tauto. }
  destruct (edges g !! opp) as [x|] eqn:Ex.
  - split; [|split; [rewrite bool_decide_eq_true_2; [done|by split]|]].
    { pose proof (set_edge_index opp x
        (with_strength x (clampStrength (Strength x - ContradictionPenalty)%float)) g Hi Ex).
      destruct (_ <? DeletionThreshold)%float; [by apply removeLocked_index|done]. }
    intros id. destruct (decide (id = opp)) as [->|Hne].
    + rewrite decide_True, Ex by done. unfold penalised; cbn -[opp].
      destruct (_ <? DeletionThreshold)%float; [apply lookup_delete_eq|apply lookup_insert_eq].
    + rewrite decide_False by tauto.
      destruct (_ <? DeletionThreshold)%float; cbn -[opp];
        rewrite ?lookup_delete_ne, lookup_insert_ne; done.
  - split; [done|]. split; [rewrite bool_decide_eq_false_2; [done|]; by intros [_ ?%is_Some_None]|].
    intros id. destruct (decide (id = opp /\ _)) as [[-> _]|]; [by rewrite Ex|done].
Qed.

Lemma Upsert_map now e g : index_ok g ->
  let '(r, g') := Upsert now e g in
  match validateEdge e with
  | Some err => r = Fail err /\ g' = g
  | None =>
      index_ok g' /\ (forall id, edges g' !! id = upserted now e (edges g) id) /\
      let prev := edges g !! (Key e, e_Direction e) in
      r = Ok {|
        Inserted := negb (bool_decide (is_Some prev));
        Reinforced := bool_decide (is_Some prev);
        ContradictionApplied := bool_decide (Opposite (e_Direction e) <> "" /\
          is_Some (edges g !! (Key e, Opposite (e_Direction e))));
        PrevStrength := from_option Strength 0%float prev;
        NewStrength := from_option Strength 0%float (edges g' !! (Key e, e_Direction e)) |}
  end.
Proof.
  intros Hi. unfold Upsert. destruct (validateEdge e) as [err|]; [done|].
  pose proof (contradict_spec e g Hi) as Hc. destruct (contradict e g) as [b g1].
  destruct Hc as (Hi1 & -> & Hmap). set (id := (Key e, e_Direction e)) in *.
  assert (Hid : edges g1 !! id = edges g !! id).
  { rewrite Hmap, decide_False; [done|]. intros [Heq Hne]. injection Heq as Heq.
    by apply (Opposite_ne _ Hne). }
  rewrite Hid. destruct (edges g !! id) as [x|] eqn:Ex; (split; [|split]).
  - by eapply set_edge_index.
  - intros id'. unfold upserted. fold id. destruct (decide (id' = id)) as [->|Hne].
    + rewrite Ex. apply lookup_insert_eq.
    + cbn -[id]. rewrite lookup_insert_ne by done. apply Hmap.
  - cbn -[id]. rewrite lookup_insert_eq. done.
  - apply (insert_index id); [done|by rewrite Hid].
  - intros id'. unfold upserted. fold id. destruct (decide (id' = id)) as [->|Hne].
    + rewrite Ex. apply lookup_insert_eq.
    + cbn -[id]. rewrite lookup_insert_ne by done. apply Hmap.
  - cbn -[id]. rewrite lookup_insert_eq. done.
Qed.

(** ** Decay *)

Definition decay_edge (cutoff : Time) (e : Edge) : option Edge :=
  if stale cutoff e then
    let s := decayed_strength e in
    if (s <? DeletionThreshold)%float then None else Some (with_strength e s)
  else Some e.

Definition stale_entries (cutoff : Time) (l : list (edgeID * Edge)) : list (edgeID * Edge) :=
  List.filter (fun p => stale cutoff p.2) l.

Definition doomed_entries (cutoff : Time) (l : list (edgeID * Edge)) : list (edgeID * Edge) :=
  List.filter (fun p => (decayed_strength p.2 <? DeletionThreshold)%float) (stale_entries cutoff l).

Lemma decay_loop_spec cutoff entries : forall g dc dl,
  index_ok g -> NoDup entries.*1 ->
  (forall id e, (id, e) ∈ entries -> edges g !! id = Some e) ->
  let '((dc', dl'), g') := decay_loop cutoff entries g dc dl in
  index_ok g' /\
  (forall id, edges g' !! id =
     match (list_to_map entries : gmap edgeID Edge) !! id with
     | Some e => decay_edge cutoff e
     | None => edges g !! id
     end) /\
  dc' = dc + len (stale_entries cutoff entries) /\ dl' = dl + len (doomed_entries cutoff entries).
Proof.
  induction entries as [|[id e] entries IH]; intros g dc dl Hi Hnd Hin; cbn [decay_loop].
  { unfold len. cbn. repeat split; [done|lia|lia]. }
  cbn in Hnd. apply NoDup_cons in Hnd as [Hid Hnd].
  assert (He : edges g !! id = Some e) by (apply Hin; left).
  assert (Hfresh : forall id' e', (id', e') ∈ entries -> id' <> id).
  { intros id' e' Hel ->. apply Hid. by apply (list_elem_of_fmap_2 fst) in Hel. }
  assert (Hnone : (list_to_map entries : gmap edgeID Edge) !! id = None).
  { by apply not_elem_of_list_to_map_1. }
  unfold stale_entries, doomed_entries, stale_entries, stale. cbn [List.filter snd].
  cbn [list_to_map foldr fst]. unfold decay_edge, stale.
  destruct (After (LastValidated e) cutoff) eqn:Ea; cbn [negb].
  - specialize (IH g dc dl Hi Hnd). destruct (decay_loop _ entries g dc dl) as [[dc' dl'] g'].
    destruct IH as (IH1 & IH2 & IH3); [intros; apply Hin; by right|].
    split; [done|]. split; [|done]. intros id'. rewrite IH2.
    destruct (decide (id = id')) as [<-|Hne].
    + rewrite lookup_insert_eq, Hnone, He. cbn [snd]. by rewrite Ea.
    + by rewrite lookup_insert_ne.
  - set (s := decayed_strength e) in *.
    pose proof (set_edge_index id e (with_strength e s) g Hi He) as Hi'.
    destruct (s <? DeletionThreshold)%float eqn:Es.
    + specialize (IH (removeLocked id (set_edge id (with_strength e s) g)) (dc + 1) (dl + 1)
        (removeLocked_index _ _ Hi') Hnd).
      destruct (decay_loop _ entries _ _ _) as [[dc' dl'] g'].
      destruct IH as (IH1 & IH2 & IH3 & IH4).
      { intros id' e' Hel. pose proof (Hfresh _ _ Hel). cbn.
        rewrite lookup_delete_ne, lookup_insert_ne by done. apply Hin. by right. }
      split; [done|]. split; [|unfold len, stale_entries, doomed_entries, stale_entries, stale in *;
        cbn [length List.filter snd]; fold s; rewrite Es; cbn [length]; lia].
      intros id'. rewrite IH2. destruct (decide (id = id')) as [<-|Hne].
      * rewrite lookup_insert_eq, Hnone. cbn [snd]. rewrite Ea. cbn [negb]. fold s. rewrite Es. apply lookup_delete_eq.
      * rewrite lookup_insert_ne by done. destruct (_ !! id'); [done|]. cbn.
        by rewrite lookup_delete_ne, lookup_insert_ne.
    + specialize (IH (set_edge id (with_strength e s) g) (dc + 1) dl Hi' Hnd).
      destruct (decay_loop _ entries _ _ _) as [[dc' dl'] g'].
      destruct IH as (IH1 & IH2 & IH3 & IH4).
      { intros id' e' Hel. pose proof (Hfresh _ _ Hel). cbn.
        rewrite lookup_insert_ne by done. apply Hin. by right. }
      split; [done|]. split; [|unfold len, stale_entries, doomed_entries, stale_entries, stale in *;
        cbn [length List.filter snd]; fold s; rewrite Es; cbn [length]; lia].
      intros id'. rewrite IH2. destruct (decide (id = id')) as [<-|Hne].
      * rewrite lookup_insert_eq, Hnone. cbn [snd]. rewrite Ea. cbn [negb]. fold s. rewrite Es. apply lookup_insert_eq.
      * rewrite lookup_insert_ne by done. destruct (_ !! id'); [done|]. cbn.
        by rewrite lookup_insert_ne.
Qed.

Lemma range_entries (range : range_order edgeID Edge) m : range_ok range ->
  NoDup (range m).*1 /\ (forall id e, (id, e) ∈ range m -> m !! id = Some e) /\
  list_to_map (range m) = m.
Proof.
  intros Hr. specialize (Hr m).
  assert (Hnd : NoDup (range m).*1) by (rewrite Hr; apply NoDup_fst_map_to_list).
  split; [done|]. split.
  - intros id e. rewrite Hr. apply elem_of_map_to_list.
  - rewrite (list_to_map_proper _ (map_to_list m)) by done. apply list_to_map_to_list.
Qed.

(** The pass depends on the edges alone, whatever the order of the visits. *)
Lemma Decay_map now range g : index_ok g -> range_ok range ->
  let cutoff := now - DecayInterval in
  let '((decayed, deleted), g') := Decay now range g in
  index_ok g' /\ edges g' = omap (decay_edge cutoff) (edges g) /\
  decayed = len (stale_entries cutoff (map_to_list (edges g))) /\
  deleted = len (doomed_entries cutoff (map_to_list (edges g))).
Proof.
  intros Hi Hr cutoff. destruct (range_entries range (edges g) Hr) as (Hnd & Hin & Hmap).
  pose proof (decay_loop_spec cutoff (range (edges g)) g 0 0 Hi Hnd Hin) as Hd.
  unfold Decay. change (Add now (- DecayInterval)) with cutoff.
  destruct (decay_loop cutoff _ g 0 0) as [[dc dl] g'].
  destruct Hd as (H1 & H2 & H3 & H4). split; [done|]. split.
  - apply map_eq. intros id. rewrite H2, lookup_omap, Hmap. by destruct (edges g !! id).
  - assert (Hp : Permutation (stale_entries cutoff (range (edges g)))
                   (stale_entries cutoff (map_to_list (edges g))))
      by (unfold stale_entries; by rewrite (Hr (edges g))).
    assert (Hp' : Permutation (doomed_entries cutoff (range (edges g)))
                    (doomed_entries cutoff (map_to_list (edges g))))
      by (unfold doomed_entries; by rewrite Hp).
    unfold len in *. rewrite <- Hp, <- Hp'. lia.
Qed.

(** ** Histories *)

Definition opposed (e : Edge) (E : gmap edgeID Edge) : gmap edgeID Edge :=
  if str_eqb (Opposite (e_Direction e)) "" then E
  else partial_alter (fun x => x ≫= penalised) (Key e, Opposite (e_Direction e)) E.

(** What a graph promises: a map that refuses invalid evidence, reinforces and
    contradicts by direction, and forgets stale edges. *)
Definition upsert_map (now : Time) (e : Edge) (E : gmap edgeID Edge) : gmap edgeID Edge :=
  match validateEdge e with
  | Some _ => E
  | None =>
      <[(Key e, e_Direction e) :=
          match E !! (Key e, e_Direction e) with
          | Some x => reinforce now e x
          | None => new_edge now e
          end]> (opposed e E)
  end.

Inductive graph_op :=
  | OUpsert (now : Time) (e : Edge)
  | ODecay (now : Time) (range : range_order edgeID Edge).

Definition graph_step (g : KnowledgeGraph) (o : graph_op) : KnowledgeGraph :=
  match o with
  | OUpsert now e => (Upsert now e g).2
  | ODecay now range => (Decay now range g).2
  end.

Definition map_step (E : gmap edgeID Edge) (o : graph_op) : gmap edgeID Edge :=
  match o with
  | OUpsert now e => upsert_map now e E
  | ODecay now _ => omap (decay_edge (now - DecayInterval)) E
  end.

(** The clock, the evidence and the maps' orders are arbitrary. *)
Definition op_fair (o : graph_op) : Prop :=
  match o with
  | OUpsert _ _ => True
  | ODecay _ range => range_ok range
  end.

(** An upsert of evidence that is not a number, to the edge [id]. *)
Definition nan_evidence (id : edgeID) (o : graph_op) : Prop :=
  match o with
  | OUpsert _ e => id = (Key e, e_Direction e) /\ is_nan (Strength e) = true
  | ODecay _ _ => False
  end.

(** A stored edge sits under its own key, is directed, and has a strength in
    the unit interval, or NaN if [D] holds of its key. *)
Record edge_ok (D : edgeID -> Prop) (id : edgeID) (e : Edge) : Prop := {
  eo_id : id = (Key e, e_Direction e);
  eo_dir : e_Direction e ∈ [DirectionPositive; DirectionNegative; DirectionNeutral];
  eo_unit : in_unit (Strength e) = true \/ (is_nan (Strength e) = true /\ D id);
}.

Lemma clampStrength_unit s : is_nan s = false -> in_unit (clampStrength s) = true.
Proof. exact (clamp_unit_in s). Qed.

(** Neither comparison of the clamp holds of NaN. *)
Lemma clampStrength_nan s : is_nan s = true -> clampStrength s = s.
Proof.
  intros Hn. unfold clampStrength. destruct (s <? MinStrength)%float eqn:E1.
  { apply fltb_not_nan in E1 as [E1 _]. congruence. }
  destruct (MaxStrength <? s)%float eqn:E2; [|done]. apply fltb_not_nan in E2 as [_ E2]. congruence.
Qed.

(** A clamped strength is in the unit interval, or was NaN. *)
Lemma clampStrength_ok (D : Prop) s : (is_nan s = true -> D) ->
  in_unit (clampStrength s) = true \/ (is_nan (clampStrength s) = true /\ D).
Proof.
  intros HD. destruct (is_nan s) eqn:E; [right; rewrite clampStrength_nan by done; by auto|left].
  by apply clampStrength_unit.
Qed.

Lemma clampStrength_id s : in_unit s = true -> clampStrength s = s.
Proof. exact (clamp_unit_id s). Qed.

Section Edges.
Context (D : edgeID -> Prop).

Lemma edge_ok_strength id e s : edge_ok D id e -> (is_nan s = true -> D id) ->
  edge_ok D id (with_strength e (clampStrength s)).
Proof. intros [H1 H2 _] Hs. split; [done|done|]. by apply clampStrength_ok. Qed.

Lemma penalised_ok id e e' : edge_ok D id e -> penalised e = Some e' -> edge_ok D id e'.
Proof.
  intros He. unfold penalised. destruct (_ <? _)%float; [done|]. intros [= <-].
  apply edge_ok_strength; [done|]. destruct (eo_unit _ _ _ He) as [Hu|[_ Hd]]; [|done]. intros Hn. exfalso.
  destruct (fsub_rounds (Strength e) ContradictionPenalty (in_unit_fin _ Hu) eq_refl) as [Hn' _]. congruence.
Qed.

Lemma decay_edge_ok cutoff id e e' : edge_ok D id e -> decay_edge cutoff e = Some e' -> edge_ok D id e'.
Proof.
  intros He. unfold decay_edge. destruct (stale _ _); [|by intros [= <-]].
  destruct (_ <? _)%float; [done|]. intros [= <-]. apply edge_ok_strength; [done|].
  destruct (eo_unit _ _ _ He) as [Hu|[_ Hd]]; [|done]. intros Hn. exfalso.
  assert (Hm : in_unit (Strength e * DecayFactor)%float = true) by (apply fmul_in_unit; [done|reflexivity]).
  apply in_unit_rank in Hm as [Hm _]. congruence.
Qed.

Lemma half_sum_unit x y : in_unit x = true -> in_unit y = true ->
  is_nan ((x + y) / 2)%float = false.
Proof.
  intros Hx Hy. pose proof (in_unit_fin _ Hx) as Fx. pose proof (in_unit_fin _ Hy) as Fy.
  apply in_unit_rank in Hx as [_ Hx]. apply in_unit_rank in Hy as [_ Hy].
  destruct (fadd_nonneg x y Fx Fy ltac:(lia) ltac:(lia)) as (Hn & H0 & _).
  destruct (fadd_rounds x y Fx Fy) as (_ & Hle & _).
  assert (H2 : frank 2%float = 2 * 2 ^ 1074) by (vm_compute; reflexivity).
  specialize (Hle 2%float eq_refl ltac:(rewrite H2, <- frank_one; lia)).
  assert (F2 : frank 2%float <= frank 0x1p63%float) by (vm_compute; discriminate).
  assert (Fin : is_fin (x + y)%float = true).
  { apply is_fin_rank. split; [done|].
    assert (frank 2%float < 2 ^ 2098) by (rewrite H2; vm_compute; reflexivity). lia. }
  destruct (fdiv_bounds (x + y)%float 2%float) as (Hd & _); [done|reflexivity|lia| |done].
  rewrite H2. pose proof (pow2_pos 1074 ltac:(lia)). lia.
Qed.

Lemma validateEdge_ok e : validateEdge e = None ->
  e_Direction e ∈ [DirectionPositive; DirectionNegative; DirectionNeutral] /\
  (is_nan (Strength e) = false -> in_unit (Strength e) = true).
Proof.
  unfold validateEdge. destruct (str_eqb _ _); [done|]. destruct (str_eqb _ _); [done|].
  destruct (str_eqb _ _); [done|]. destruct (mem _ _) eqn:E; [|done]. cbn [negb].
  apply mem_spec in E. destruct (_ || _) eqn:Es; [done|]. intros _. split; [done|].
  intros Hn. apply orb_false_iff in Es as [E1 E2]. rewrite fltb_rank in E1, E2 by done.
  apply in_unit_rank. rewrite frank_zero in E1. split; [done|lia].
Qed.

Definition edges_ok (E : gmap edgeID Edge) : Prop := map_Forall (edge_ok D) E.

Lemma reinforce_ok now e x : (is_nan (Strength e) = false -> in_unit (Strength e) = true) ->
  (is_nan (Strength e) = true -> D (Key e, e_Direction e)) ->
  edge_ok D (Key e, e_Direction e) x -> edge_ok D (Key e, e_Direction e) (reinforce now e x).
Proof.
  intros He HD [H1 H2 H3]. split; [done|done|]. cbn [Strength reinforce]. apply clampStrength_ok. intros Hn.
  destruct H3 as [H3|[_ H3]]; [|done]. destruct (is_nan (Strength e)) eqn:En; [by apply HD|]. exfalso.
  rewrite (clampStrength_id (Strength e)) in Hn by auto.
  pose proof (half_sum_unit (Strength x) (Strength e) H3 (He eq_refl)). congruence.
Qed.

Lemma new_edge_ok now e : (is_nan (Strength e) = true -> D (Key e, e_Direction e)) ->
  e_Direction e ∈ [DirectionPositive; DirectionNegative; DirectionNeutral] ->
  edge_ok D (Key e, e_Direction e) (new_edge now e).
Proof. intros HD Hd. split; [done|done|]. by apply clampStrength_ok. Qed.

Lemma opposed_ok e E : edges_ok E -> edges_ok (opposed e E).
Proof.
  intros HE. unfold opposed. destruct (str_eqb _ _); [done|]. intros id x Hx.
  destruct (decide (id = (Key e, Opposite (e_Direction e)))) as [->|Hne].
  - rewrite lookup_partial_alter_eq in Hx. apply bind_Some in Hx as (y & Hy & Hx).
    eapply penalised_ok; [|done]. by apply HE.
  - rewrite lookup_partial_alter_ne in Hx by done. by apply HE.
Qed.

Lemma map_step_ok E o : edges_ok E -> (forall id, nan_evidence id o -> D id) -> edges_ok (map_step E o).
Proof.
  intros HE HD. destruct o as [now e|now range]; cbn [map_step nan_evidence] in *.
  - unfold upsert_map. destruct (validateEdge e) eqn:Ev; [done|].
    apply validateEdge_ok in Ev as [Hd Hu].
    assert (HD' : is_nan (Strength e) = true -> D (Key e, e_Direction e)) by auto.
    apply map_Forall_insert_2; [|by apply opposed_ok].
    destruct (E !! _) as [x|] eqn:Ex; [|by apply new_edge_ok].
    apply reinforce_ok; [done|done|]. by apply HE.
  - intros id x Hx. apply lookup_omap_Some in Hx as (y & Hy & Hx).
    eapply decay_edge_ok; [|done]. by apply HE.
Qed.
End Edges.

Lemma graph_step_refines g o : index_ok g -> op_fair o ->
  index_ok (graph_step g o) /\ edges (graph_step g o) = map_step (edges g) o.
Proof.
  intros Hi Ho. destruct o as [now e|now range]; cbn [graph_step map_step op_fair] in *.
  - pose proof (Upsert_map now e g Hi) as Hu. destruct (Upsert now e g) as [r g'].
    unfold upsert_map. destruct (validateEdge e); [by destruct Hu as [_ ->]|].
    destruct Hu as (Hi' & Hm & _). split; [done|]. apply map_eq. intros id. cbn [snd].
    rewrite Hm. unfold upserted, opposed, str_eqb.
    destruct (decide (id = (Key e, e_Direction e))) as [->|Hne]; [by rewrite lookup_insert_eq|].
    rewrite lookup_insert_ne by done.
    destruct (bool_decide_reflect (Opposite (e_Direction e) = "")) as [Ho'|Ho'].
    + rewrite decide_False by tauto. done.
    + destruct (decide (id = (Key e, Opposite (e_Direction e)))) as [->|Hne'].
      * by rewrite decide_True, lookup_partial_alter_eq.
      * rewrite decide_False by tauto. by rewrite lookup_partial_alter_ne.
  - pose proof (Decay_map now range g Hi Ho) as Hd.
    destruct (Decay now range g) as [[dc dl] g']. by destruct Hd as (? & ? & _).
Qed.

Lemma history_refines D ops : forall g,
  index_ok g -> edges_ok D (edges g) -> Forall op_fair ops ->
  (forall id o, o ∈ ops -> nan_evidence id o -> D id) ->
  index_ok (foldl graph_step g ops) /\
  edges (foldl graph_step g ops) = foldl map_step (edges g) ops /\
  edges_ok D (foldl map_step (edges g) ops).
Proof.
  induction ops as [|o ops IH]; intros g Hi HE Hops HD; cbn [foldl]; [done|].
  apply Forall_cons in Hops as [Ho Hops].
  destruct (graph_step_refines g o Hi Ho) as [Hi' He]. rewrite <- He.
  apply IH; [done| |done|].
  - rewrite He. apply map_step_ok; [done|]. intros id. apply HD. by left.
  - intros id o' Ho'. apply HD. by right.
Qed.

Lemma NewKnowledgeGraph_index : index_ok NewKnowledgeGraph.
Proof. intros k. unfold NewKnowledgeGraph. cbn [byKey edges]. rewrite lookup_empty. intros d. apply lookup_empty. Qed.

(** C17: after any history of upserts of any evidence and of decay passes,
    whatever the clock does and in whatever order Go visits the map, the
    graph's edges are those of the abstract edge map, every edge sits under its
    own key with a valid direction, the index by key lists exactly the stored
    edges, and every strength is in [0, 1], but for an edge that was given NaN
    as evidence, which the validation lets through, and that may stay NaN. *)
Theorem graph_refines_map ops :
  Forall op_fair ops ->
  let g := foldl graph_step NewKnowledgeGraph ops in
  edges g = foldl map_step ∅ ops /\
  edges_ok (fun id => Exists (nan_evidence id) ops) (edges g) /\ index_ok g.
Proof.
  intros Hops g.
  destruct (history_refines (fun id => Exists (nan_evidence id) ops) ops NewKnowledgeGraph
    NewKnowledgeGraph_index) as (H1 & H2 & H3);
    [done|done|intros id o Ho Hn; apply Exists_exists; eauto|].
  subst g. by rewrite H2.
Qed.

(** An upsert of invalid evidence fails and changes nothing; otherwise it
    reinforces or creates the edge of its direction, makes the edge of the
    opposite direction pay, removing it under the threshold, leaves every
    other edge alone and reports exactly that. *)
Theorem Upsert_spec now e g :
  index_ok g ->
  let '(r, g') := Upsert now e g in
  match validateEdge e with
  | Some err => r = Fail err /\ g' = g
  | None =>
      (forall id, edges g' !! id = upserted now e (edges g) id) /\ index_ok g' /\
      let prev := edges g !! (Key e, e_Direction e) in
      r = Ok {|
        Inserted := negb (bool_decide (is_Some prev));
        Reinforced := bool_decide (is_Some prev);
        ContradictionApplied := bool_decide (Opposite (e_Direction e) <> "" /\
          is_Some (edges g !! (Key e, Opposite (e_Direction e))));
        PrevStrength := from_option Strength 0%float prev;
        NewStrength := from_option Strength 0%float (edges g' !! (Key e, e_Direction e)) |}
  end.
Proof.
  intros Hi. pose proof (Upsert_map now e g Hi) as H. destruct (Upsert now e g) as [r g'].
  destruct (validateEdge e); [done|]. tauto.
Qed.

Definition sample_edge (a r b : string) (d : Direction) (s : float) : Edge := {|
  EntityA := a; Relationship := r; EntityB := b; e_Direction := d; Strength := s;
  EvidenceCount := 0; DiscoveredBy := "agent-1"; LastValidated := 0; CreatedAt := 0 |}.

Definition listed : range_order edgeID Edge := fun m => map_to_list m.
Definition listed_back : range_order edgeID Edge := fun m => reverse (map_to_list m).

Lemma listed_ok : range_ok listed.
Proof. intros m. done. Qed.

Lemma listed_back_ok : range_ok listed_back.
Proof. intros m. apply reverse_Permutation. Qed.

Definition year : Time := 365 * 24 * Hour.

Definition sample_history : list graph_op := [
  OUpsert year (sample_edge "SOL" "correlates_with" "ETH" "positive" 0.5);
  OUpsert (year + 1) (sample_edge "SOL" "correlates_with" "ETH" "negative" 0.1);
  ODecay (year + 31 * 24 * Hour) listed;
  OUpsert (year + 31 * 24 * Hour) (sample_edge "SOL" "leads" "JUP" "neutral" 1);
  ODecay (year + 40 * 24 * Hour) listed_back ].

Lemma sample_history_fair : Forall op_fair sample_history.
Proof. repeat (apply Forall_cons; split; [first [exact I|apply listed_ok|apply listed_back_ok]|]). constructor. Qed.

Lemma graph_refines_map_witness :
  edges_ok (fun _ => False) (edges (foldl graph_step NewKnowledgeGraph sample_history)) /\
  Len (foldl graph_step NewKnowledgeGraph sample_history) = 2.
Proof.
  split; [|vm_compute; reflexivity].
  pose proof (proj1 (proj2 (graph_refines_map sample_history sample_history_fair))) as H.
  intros id e He. destruct (H id e He) as [H1 H2 H3]. split; [exact H1|exact H2|].
  destruct H3 as [H3|[_ H3]]; [by left|exfalso].
  repeat (apply Exists_cons in H3 as [H3|H3]; [first [exact H3|destruct H3 as [_ H3]; vm_compute in H3; discriminate H3]|]).
  by apply Exists_nil in H3.
Defined.

Lemma Upsert_spec_witness :
  let e := sample_edge "SOL" "leads" "JUP" "neutral" 1 in
  validateEdge e = None /\
  edges (Upsert 5 e NewKnowledgeGraph).2 !! (Key e, "neutral") = upserted 5 e ∅ (Key e, "neutral").
Proof.
  intros e. assert (Hv : validateEdge e = None) by (vm_compute; reflexivity). split; [exact Hv|].
  pose proof (Upsert_spec 5 e NewKnowledgeGraph NewKnowledgeGraph_index) as H.
  destruct (Upsert 5 e NewKnowledgeGraph) as [r g']. rewrite Hv in H.
  exact (proj1 H (Key e, "neutral")).
Defined.

(** Evidence that is not a number is accepted, and the edge it leaves is never
    pruned, however stale. *)
Lemma nan_edge_persists :
  let g := graph_step NewKnowledgeGraph
             (OUpsert year (sample_edge "SOL" "leads" "JUP" "neutral" (0 / 0)%float)) in
  Len (foldl graph_step g (replicate 60 (ODecay (10 * year) listed))) = 1 /\
  Len (foldl graph_step (graph_step NewKnowledgeGraph
         (OUpsert year (sample_edge "SOL" "leads" "JUP" "neutral" 1)))
         (replicate 60 (ODecay (10 * year) listed))) = 0.
Proof. vm_compute. done. Qed.

(** ** Reads in order *)

Lemma str_weak {A} (P : A -> Prop) (f : A -> string) :
  strict_weak P (fun x y => str_lt (f x) (f y)).
Proof. by apply (strict_weak_on _ (fun _ => True)), str_lt_strict_weak. Qed.

Lemma edges_less_weak : strict_weak (fun _ => True) edges_less.
Proof.
  apply (strict_weak_ext _ _
    (then_by (fun a b => str_lt (EntityA a) (EntityA b))
    (then_by (fun a b => str_lt (Relationship a) (Relationship b))
    (then_by (fun a b => str_lt (EntityB a) (EntityB b))
      (fun a b => str_lt (e_Direction a) (e_Direction b)))))).
  - intros x y _ _. unfold edges_less, then_by. by rewrite !str_chain.
  - repeat apply strict_weak_then; apply str_weak.
Qed.

Lemma edges_less_total a b :
  edges_less a b = false -> edges_less b a = false ->
  (Key a, e_Direction a) = (Key b, e_Direction b).
Proof.
  unfold edges_less. rewrite !str_chain.
  destruct (str_lt (EntityA a) _) eqn:E1; [done|]. destruct (str_lt (EntityA b) _) eqn:E2; [done|].
  destruct (str_lt (Relationship a) _) eqn:E3; [done|].
  destruct (str_lt (Relationship b) _) eqn:E4; [done|].
  destruct (str_lt (EntityB a) _) eqn:E5; [done|]. destruct (str_lt (EntityB b) _) eqn:E6; [done|].
  cbn. intros E7 E8. unfold Key.
  by rewrite (str_lt_total _ _ E1 E2), (str_lt_total _ _ E3 E4), (str_lt_total _ _ E5 E6),
    (str_lt_total _ _ E7 E8).
Qed.

Lemma stored_edge_inj D E e1 e2 : edges_ok D E ->
  e1 ∈ (map_to_list E).*2 -> e2 ∈ (map_to_list E).*2 ->
  (Key e1, e_Direction e1) = (Key e2, e_Direction e2) -> e1 = e2.
Proof.
  intros HE H1 H2 Heq.
  apply list_elem_of_fmap in H1 as ([id1 x1] & -> & H1%elem_of_map_to_list).
  apply list_elem_of_fmap in H2 as ([id2 x2] & -> & H2%elem_of_map_to_list). cbn in *.
  pose proof (eo_id _ _ _ (HE _ _ H1)) as E1. pose proof (eo_id _ _ _ (HE _ _ H2)) as E2.
  congruence.
Qed.

(** The snapshot of the edges is the same list, every edge once in the
    order of its key, whatever order Go visits the map in and whatever
    [sort.Slice] does with the slice. *)
Theorem Edges_deterministic (S1 S2 : SliceSort) (L1 : SliceSortLaws S1) (L2 : SliceSortLaws S2)
    D range1 range2 g :
  range_ok range1 -> range_ok range2 -> edges_ok D (edges g) ->
  Edges (S := S1) range1 g = Edges (S := S2) range2 g /\
  Permutation (Edges (S := S1) range1 g) (map_to_list (edges g)).*2 /\
  sorted_by edges_less (Edges (S := S1) range1 g).
Proof.
  intros Hr1 Hr2 HE.
  assert (Hs : forall (S : SliceSort), SliceSortLaws S -> forall range, range_ok range ->
    Permutation (Edges (S := S) range g) (map_to_list (edges g)).*2 /\
    sorted_by edges_less (Edges (S := S) range g)).
  { intros S L range Hr. unfold Edges. split.
    - rewrite sort_slice_perm. by rewrite (Hr (edges g)).
    - apply (sort_slice_sorted (fun _ => True)); [apply edges_less_weak|by apply Forall_true]. }
  destruct (Hs S1 L1 range1 Hr1) as [P1 D1]. destruct (Hs S2 L2 range2 Hr2) as [P2 D2].
  split; [|done]. apply (sorted_by_unique edges_less); [|done|done|by rewrite P1, P2].
  intros x y Hx Hy Hxy Hyx. rewrite P1 in Hx, Hy.
  apply (stored_edge_inj D (edges g)); [done..|]. by apply edges_less_total.
Qed.

Definition sample_graph : KnowledgeGraph := foldl graph_step NewKnowledgeGraph sample_history.

Lemma Edges_deterministic_witness :
  Edges (S := insertion_slice_sort) listed sample_graph =
  Edges (S := insertion_slice_sort) listed_back sample_graph.
Proof.
  exact (proj1 (Edges_deterministic insertion_slice_sort insertion_slice_sort
    insertion_slice_sort_laws insertion_slice_sort_laws (fun _ => True) listed listed_back sample_graph
    listed_ok listed_back_ok
    (proj2 (proj2 (history_refines (fun _ => True) sample_history NewKnowledgeGraph NewKnowledgeGraph_index
      (map_Forall_empty _) sample_history_fair (fun _ _ _ _ => I)))))).
Defined.

(** Two relationships between the same entities tie: the neighbours come in the
    order the map was visited in. *)
Lemma Neighbors_not_deterministic :
  let g := foldl graph_step NewKnowledgeGraph [
    OUpsert year (sample_edge "SOL" "leads" "JUP" "positive" 0.5);
    OUpsert year (sample_edge "SOL" "correlates_with" "JUP" "positive" 0.5) ] in
  Relationship <$> Neighbors (S := insertion_slice_sort) listed "SOL" g <>
  Relationship <$> Neighbors (S := insertion_slice_sort) listed_back "SOL" g.
Proof. vm_compute. discriminate. Qed.
