(* ===== verification/AccuracyTracker.v ===== *)
(** * Signal accuracy ([internal/intelligence/accuracy_tracker.go])

    Outcomes of published signals per source agent, over a rolling window that
    every read trims.  The mutex is held for a whole ingest or score;
    [AllScores] releases it between its pass over the sources and the scores,
    so it reads the clock once per score. *)
From Stdlib Require Import ZArith Lia Floats Sorted.
From stdpp Require Import base list strings gmap sorting.
From S2P Require Import Prelude GoBase GoFloat GoRound.
Set Warnings "-inexact-float".
Open Scope Z_scope.

Record SignalOutcome := {
  SourceAgentID : string;
  SignalType : string;
  ObservedAt : Time;
  Correct : bool;
}.

Record SourceAccuracy := {
  sa_SourceAgentID : string;
  Observations : Z;
  sa_Correct : Z;
  Accuracy : float;
}.

Record AccuracyTracker := {
  window : Duration;
  bySource : gmap string (list SignalOutcome);
}.

Definition DefaultAccuracyWindow : Duration := 30 * 24 * Hour.
Definition MinObservations : Z := 5.

Definition NewAccuracyTracker (window : Duration) : AccuracyTracker := {|
  window := if window <=? 0 then DefaultAccuracyWindow else window;
  bySource := ∅ |}.

(** The outcomes of a source: a missing key reads as the nil slice. *)
Definition outcomes (t : AccuracyTracker) (source : string) : list SignalOutcome :=
  default [] (bySource t !! source).

Definition set_source (t : AccuracyTracker) (m : gmap string (list SignalOutcome)) : AccuracyTracker :=
  {| window := window t; bySource := m |}.

(** The slice from the first outcome after the cutoff on. *)
Fixpoint trim (cutoff : Time) (obs : list SignalOutcome) : list SignalOutcome :=
  match obs with
  | [] => []
  | o :: obs' => if negb (After (ObservedAt o) cutoff) then trim cutoff obs' else obs
  end.

Definition evictExpiredLocked (source : string) (cutoff : Time) (t : AccuracyTracker)
    : AccuracyTracker :=
  let obs := outcomes t source in
  match obs with
  | [] => t
  | _ =>
      let remaining := trim cutoff obs in
      if (length remaining =? length obs)%nat then t
      else match remaining with
           | [] => set_source t (delete source (bySource t))
           | _ => set_source t (<[source := remaining]> (bySource t))
           end
  end.

Definition Ingest (now : Time) (o : SignalOutcome) (t : AccuracyTracker) : AccuracyTracker :=
  if str_eqb (SourceAgentID o) "" then t
  else
    let cutoff := Add now (- window t) in
    if negb (After (ObservedAt o) cutoff) then t
    else
      let t := set_source t (<[SourceAgentID o := outcomes t (SourceAgentID o) ++ [o]]> (bySource t)) in
      evictExpiredLocked (SourceAgentID o) cutoff t.

Definition score_of (source : string) (obs : list SignalOutcome) : SourceAccuracy :=
  let n := len obs in
  let c := len (List.filter Correct obs) in
  {| sa_SourceAgentID := source; Observations := n; sa_Correct := c;
     Accuracy := if 0 <? n then (float_of_int c / float_of_int n)%float else 0%float |}.

Definition Score (now : Time) (source : string) (t : AccuracyTracker)
    : SourceAccuracy * AccuracyTracker :=
  let t := evictExpiredLocked source (Add now (- window t)) t in
  (score_of source (outcomes t source), t).

Definition Weight (now : Time) (source : string) (t : AccuracyTracker) : float * AccuracyTracker :=
  let '(s, t) := Score now source t in
  (if Observations s <? MinObservations then 0.5%float else Accuracy s, t).

(** The locked pass of [AllScores] over the sources, in Go's order. *)
Fixpoint live_sources (cutoff : Time) (sources : list string) (t : AccuracyTracker)
    : list string * AccuracyTracker :=
  match sources with
  | [] => ([], t)
  | s :: sources' =>
      let t := evictExpiredLocked s cutoff t in
      let keep := 0 <? len (outcomes t s) in
      let '(out, t) := live_sources cutoff sources' t in
      (if keep then s :: out else out, t)
  end.

Fixpoint score_each (clock : nat -> Time) (i : nat) (sources : list string) (t : AccuracyTracker)
    : list SourceAccuracy * AccuracyTracker :=
  match sources with
  | [] => ([], t)
  | s :: sources' =>
      let '(a, t) := Score (clock i) s t in
      let '(out, t) := score_each clock (S i) sources' t in
      (a :: out, t)
  end.

Definition scores_less (a b : SourceAccuracy) : bool :=
  if negb (Accuracy a =? Accuracy b)%float then (Accuracy b <? Accuracy a)%float
  else if negb (Observations a =? Observations b) then Observations b <? Observations a
  else str_lt (sa_SourceAgentID a) (sa_SourceAgentID b).

Definition AllScores {S : SliceSort} (clock : nat -> Time)
    (range : range_order string (list SignalOutcome)) (t : AccuracyTracker)
    : list SourceAccuracy * AccuracyTracker :=
  let cutoff := Add (clock 0%nat) (- window t) in
  let '(sources, t) := live_sources cutoff (range (bySource t)).*1 t in
  let '(out, t) := score_each clock 1 sources t in
  (sort_slice scores_less out, t).

(** ** The rolling window *)

(** What the window promises: the outcomes a source logged after the cutoff. *)
Definition in_window (source : string) (cutoff : Time) (log : list SignalOutcome) : list SignalOutcome :=
  List.filter (fun o => str_eqb (SourceAgentID o) source && After (ObservedAt o) cutoff) log.

Inductive tracker_op :=
  | TIngest (now : Time) (o : SignalOutcome)
  | TScore (now : Time) (source : string).

Definition op_time (o : tracker_op) : Time :=
  match o with TIngest now _ => now | TScore now _ => now end.

Definition tracker_step (t : AccuracyTracker) (o : tracker_op) : AccuracyTracker :=
  match o with
  | TIngest now o => Ingest now o t
  | TScore now source => (Score now source t).2
  end.

Definition logged (ops : list tracker_op) : list SignalOutcome :=
  omap (fun o => match o with TIngest _ o => Some o | TScore _ _ => None end) ops.

Definition in_order (l : list SignalOutcome) : Prop :=
  StronglySorted (fun a b => ObservedAt a <= ObservedAt b) l.

(** The outcomes of a source that were reported, in the order of the reports. *)
Definition of_source (source : string) (log : list SignalOutcome) : list SignalOutcome :=
  List.filter (fun o => str_eqb (SourceAgentID o) source) log.

(** An operation trims a source when it scores it or takes an outcome of it;
    one that is out of the window at once is not taken. *)
Definition takes (w : Duration) (source : string) (now : Time) (o : SignalOutcome) : bool :=
  str_eqb (SourceAgentID o) source && negb (str_eqb source "") && After (ObservedAt o) (now - w).

Definition trims (w : Duration) (source : string) (op : tracker_op) : bool :=
  match op with TIngest now o => takes w source now o | TScore _ s => str_eqb s source end.

(** The operations on a source. *)
Definition concerns (source : string) (op : tracker_op) : bool :=
  match op with TIngest _ o => str_eqb (SourceAgentID o) source | TScore _ s => str_eqb s source end.

(** When the operations that trim a source read the clock. *)
Definition trimmed_at (w : Duration) (source : string) (ops : list tracker_op) : list Time :=
  op_time <$> List.filter (trims w source) ops.

(** The outcomes of a source that are in the window whenever, from their report
    on, the source is trimmed, and at the times [last] besides. *)
Fixpoint surviving (w : Duration) (source : string) (last : list Time) (ops : list tracker_op) : list SignalOutcome :=
  match ops with
  | [] => []
  | op :: ops' =>
      match op with
      | TIngest now o =>
          if takes w source now o && forallb (fun t => After (ObservedAt o) (t - w)) (trimmed_at w source ops' ++ last)
          then [o] else []
      | TScore _ _ => []
      end ++ surviving w source last ops'
  end.

Definition after (c : Time) (l : list SignalOutcome) : list SignalOutcome :=
  List.filter (fun o => After (ObservedAt o) c) l.

Lemma trim_in_order c l : in_order l -> trim c l = after c l.
Proof.
  unfold in_order. induction l as [|o l IH]; intros Hs; [done|].
  apply StronglySorted_inv in Hs as [Hs Hall]. cbn. unfold after. cbn [List.filter].
  destruct (After (ObservedAt o) c) eqn:E; cbn [negb]; [|by apply IH].
  f_equal. symmetry. clear IH Hs. unfold After in *. apply Z.ltb_lt in E.
  induction Hall as [|x l Hx Hall IH]; cbn; [done|].
  replace (c <? ObservedAt x) with true by lia. by f_equal.
Qed.

Lemma after_app c l1 l2 : after c (l1 ++ l2) = after c l1 ++ after c l2.
Proof. apply List.filter_app. Qed.

Lemma evict_outcomes s c t s' :
  in_order (outcomes t s) ->
  outcomes (evictExpiredLocked s c t) s' =
    (if decide (s' = s) then after c (outcomes t s) else outcomes t s') /\
  window (evictExpiredLocked s c t) = window t.
Proof.
  intros Hs. unfold evictExpiredLocked. rewrite trim_in_order by done.
  destruct (outcomes t s) as [|o l] eqn:Eo.
  { split; [|done]. by destruct (decide (s' = s)) as [->|]. }
  destruct (Nat.eqb_spec (length (after c (o :: l))) (length (o :: l))) as [El|El].
  { split; [|done]. destruct (decide (s' = s)) as [->|]; [|done]. rewrite Eo.
    symmetry. unfold after in *. apply List.forallb_filter_id.
    apply List.forallb_forall. intros x Hx.
    pose proof (List.filter_length_forallb (fun o => After (ObservedAt o) c) (o :: l) El) as H.
    rewrite List.forallb_forall in H. by apply H. }
  destruct (after c (o :: l)) as [|o' l'] eqn:Ea; (split; [|done]); unfold outcomes; cbn.
  all: destruct (decide (s' = s)) as [->|Hne];
    rewrite ?lookup_delete_eq, ?lookup_insert_eq; [done|].
  all: by rewrite ?lookup_delete_ne, ?lookup_insert_ne.
Qed.

(** A source that is not trimmed keeps its outcomes. *)
Lemma evict_other s c t s' : s' <> s ->
  outcomes (evictExpiredLocked s c t) s' = outcomes t s' /\ window (evictExpiredLocked s c t) = window t.
Proof.
  intros Hne. unfold evictExpiredLocked. destruct (outcomes t s); [done|]. destruct (_ =? _)%nat; [done|].
  destruct (trim _ _); (split; [|done]); unfold outcomes; cbn; by rewrite ?lookup_delete_ne, ?lookup_insert_ne.
Qed.

Lemma in_order_sublist l1 l2 : l1 `sublist_of` l2 -> in_order l2 -> in_order l1.
Proof.
  unfold in_order. induction 1 as [|x l1 l2 Hl IH|x l1 l2 Hl IH]; [done| |].
  - intros [Hs Hall]%StronglySorted_inv. constructor; [by apply IH|].
    rewrite Forall_forall in *. intros y Hy. apply Hall. by eapply elem_of_sublist.
  - intros [Hs _]%StronglySorted_inv. by apply IH.
Qed.

Lemma in_order_app l1 l2 : in_order (l1 ++ l2) -> in_order l1.
Proof. apply in_order_sublist, sublist_inserts_r. done. Qed.

Lemma filter_sublist_of {A} (f : A -> bool) l : List.filter f l `sublist_of` l.
Proof. induction l as [|x l IH]; cbn; [done|]. destruct (f x); by constructor. Qed.

Lemma surviving_sublist w s op : surviving w s [] [op] `sublist_of` of_source s (logged [op]).
Proof.
  destruct op as [now o|]; [|done]. cbn. unfold takes. destruct (str_eqb _ _); cbn; [|done].
  destruct (_ && _); [done|]. apply sublist_nil_l.
Qed.

(** What a step does to the outcomes of a source. *)
Lemma step_outcomes s op t : in_order (outcomes t s ++ of_source s (logged [op])) ->
  window (tracker_step t op) = window t /\
  outcomes (tracker_step t op) s =
    (if trims (window t) s op then after (op_time op - window t) (outcomes t s) else outcomes t s) ++
    surviving (window t) s [] [op].
Proof.
  intros Ho. destruct op as [now o|now s0]; cbn [tracker_step].
  - cbn [trims op_time surviving trimmed_at List.filter app fmap list_fmap forallb]. rewrite app_nil_r, andb_true_r.
    cbn [logged omap list_omap of_source List.filter] in Ho.
    unfold Ingest, takes, str_eqb in *. change (Add now (- window t)) with (now - window t).
    destruct (bool_decide_reflect (SourceAgentID o = s)) as [<-|Hne]; cbn [andb].
    + destruct (bool_decide_reflect (SourceAgentID o = "")); cbn [negb andb]; [by rewrite app_nil_r|].
      destruct (After (ObservedAt o) (now - window t)) eqn:Ea; cbn [negb]; [|by rewrite app_nil_r].
      set (t1 := set_source _ _). assert (Et : outcomes t1 (SourceAgentID o) = outcomes t (SourceAgentID o) ++ [o])
        by (unfold outcomes at 1; cbn; by rewrite lookup_insert_eq).
      destruct (evict_outcomes (SourceAgentID o) (now - window t) t1 (SourceAgentID o)) as [-> ->]; [by rewrite Et|].
      rewrite decide_True, Et, after_app by done. split; [done|]. unfold after at 2. cbn. by rewrite Ea.
    + rewrite app_nil_r. destruct (bool_decide _); [done|]. destruct (negb _); [done|].
      destruct (evict_other (SourceAgentID o) (now - window t)
        (set_source t (<[SourceAgentID o := outcomes t (SourceAgentID o) ++ [o]]> (bySource t))) s ltac:(done)) as [-> ->].
      split; [done|]. unfold outcomes at 1. cbn. by rewrite lookup_insert_ne.
  - cbn [trims op_time surviving]. rewrite !app_nil_r. unfold Score, str_eqb. cbn [snd].
    change (Add now (- window t)) with (now - window t). destruct (bool_decide_reflect (s0 = s)) as [->|Hne].
    + destruct (evict_outcomes s (now - window t) t s) as [-> ->]; [by eapply in_order_app|]. by rewrite decide_True.
    + by apply and_comm, evict_other.
Qed.

(** The outcomes of the source that pass every one of some cutoffs. *)
Definition after_all (w : Duration) (ts : list Time) (l : list SignalOutcome) : list SignalOutcome :=
  List.filter (fun o => forallb (fun t => After (ObservedAt o) (t - w)) ts) l.

Lemma after_all_cons w t ts l : after_all w (t :: ts) l = after_all w ts (after (t - w) l).
Proof.
  unfold after_all, after. induction l as [|o l IH]; [done|]. cbn. destruct (After (ObservedAt o) (t - w)); cbn; [|exact IH].
  destruct (forallb _ ts); [by f_equal|exact IH].
Qed.

Lemma after_all_app w ts l1 l2 : after_all w ts (l1 ++ l2) = after_all w ts l1 ++ after_all w ts l2.
Proof. apply List.filter_app. Qed.

Lemma after_one w t l : after (t - w) l = after_all w [t] l.
Proof. apply List.filter_ext. intros o. cbn. by rewrite andb_true_r. Qed.

Lemma surviving_cons w s last op ops : surviving w s last (op :: ops) =
  after_all w (trimmed_at w s ops ++ last) (surviving w s [] [op]) ++ surviving w s last ops.
Proof.
  destruct op as [now o|now s0]; cbn [surviving trimmed_at List.filter fmap list_fmap forallb app]; [|done].
  rewrite andb_true_r, app_nil_r. f_equal. destruct (takes w s now o); [|done]. cbn [andb]. unfold after_all. cbn.
  by destruct (forallb _ _).
Qed.

(** The outcomes a source has after some operations. *)
Lemma run_outcomes s ops : forall t, in_order (outcomes t s ++ of_source s (logged ops)) ->
  let t' := foldl tracker_step t ops in
  window t' = window t /\
  outcomes t' s = after_all (window t) (trimmed_at (window t) s ops) (outcomes t s) ++ surviving (window t) s [] ops.
Proof.
  induction ops as [|op ops IH]; intros t Ho; cbn [foldl].
  { split; [done|]. unfold after_all. cbn. by rewrite List.filter_true, app_nil_r. }
  assert (El : of_source s (logged (op :: ops)) = of_source s (logged [op]) ++ of_source s (logged ops)).
  { change (op :: ops) with ([op] ++ ops). unfold logged, of_source. by rewrite omap_app, List.filter_app. }
  rewrite El, app_assoc in Ho. destruct (step_outcomes s op t) as [Hw Hs]; [by eapply in_order_app|].
  assert (Ho' : in_order (outcomes (tracker_step t op) s ++ of_source s (logged ops))).
  { eapply in_order_sublist; [|exact Ho]. rewrite Hs. apply sublist_app; [|done].
    apply sublist_app; [|apply surviving_sublist]. destruct (trims _ _ _); [apply filter_sublist_of|done]. }
  destruct (IH _ Ho') as [IHw ->]. rewrite IHw, Hw, Hs. split; [done|].
  rewrite after_all_app, <- app_assoc. rewrite (surviving_cons _ _ _ op ops), (app_nil_r (trimmed_at _ _ ops)).
  f_equal. unfold trimmed_at. cbn [List.filter]. destruct (trims (window t) s op); [|done]. cbn. by rewrite after_all_cons.
Qed.

Lemma surviving_all_sublist w s ops : surviving w s [] ops `sublist_of` of_source s (logged ops).
Proof.
  induction ops as [|op ops IH]; [done|]. rewrite surviving_cons.
  change (op :: ops) with ([op] ++ ops). unfold logged, of_source. rewrite omap_app, List.filter_app.
  apply sublist_app; [|exact IH]. etrans; [apply filter_sublist_of|apply surviving_sublist].
Qed.

Lemma surviving_last w s last ops t :
  after_all w [t] (surviving w s last ops) = surviving w s (last ++ [t]) ops.
Proof.
  induction ops as [|op ops IH]; [done|]. cbn [surviving]. rewrite after_all_app, IH. f_equal.
  destruct op as [now o|]; [|done]. rewrite app_assoc, (forallb_app _ (_ ++ last) [t]). destruct (takes w s now o); [|done]. cbn [andb].
  destruct (forallb _ (trimmed_at w s ops ++ last)); [|done]. unfold after_all. cbn. by destruct (_ && true).
Qed.

(** When no operation on the source read the clock later than [now], being in
    the window at [now] is all that counts. *)
Lemma surviving_window w s now ops : s <> "" ->
  Forall (fun op => concerns s op = true -> op_time op <= now) ops ->
  surviving w s [now] ops = in_window s (now - w) (logged ops).
Proof.
  intros Hs. induction ops as [|op ops IH]; [done|]. intros [Hop Hall]%Forall_cons.
  cbn [surviving]. rewrite (IH Hall). destruct op as [t o|]; [|done].
  change (logged (TIngest t o :: ops)) with ([o] ++ logged ops). unfold in_window at 2. rewrite List.filter_app. f_equal.
  cbn [List.filter]. cbn in Hop. unfold takes, str_eqb in *.
  destruct (bool_decide (SourceAgentID o = s)); cbn [andb]; [|done]. specialize (Hop eq_refl).
  rewrite (bool_decide_eq_false_2 (s = "")) by done. cbn [negb andb]. rewrite forallb_app. cbn [forallb]. rewrite andb_true_r.
  destruct (After (ObservedAt o) (now - w)) eqn:Ea; [|by rewrite !andb_false_r].
  assert (Et : After (ObservedAt o) (t - w) = true) by (unfold After in *; lia). rewrite Et, andb_true_r. cbn [andb].
  replace (forallb _ _) with true; [done|]. symmetry. apply forallb_forall. intros x Hx%list_elem_of_In.
  apply list_elem_of_fmap in Hx as (op & -> & Hop'%list_elem_of_In%List.filter_In). destruct Hop' as [Hin Htr].
  rewrite List.Forall_forall in Hall. specialize (Hall op Hin).
  assert (Hc : concerns s op = true).
  { destruct op as [t' o'|t' s']; [|exact Htr]. cbn in *. unfold takes in Htr. by destruct (str_eqb _ s). }
  specialize (Hall Hc). unfold After in *. lia.
Qed.


(** ** The weight of a source *)

Lemma fraction_unit c n : 0 <= c <= n -> 0 < n < 2 ^ 53 ->
  in_unit (float_of_int c / float_of_int n)%float = true.
Proof.
  intros Hc Hn. assert (Ic : in_int64 c) by (unfold in_int64, min_int64, max_int64; lia).
  assert (In : in_int64 n) by (unfold in_int64, min_int64, max_int64; lia).
  pose proof (pow2_pos 1074 ltac:(lia)) as Hp.
  apply fdiv_unit; [by apply float_of_int_fin|by apply float_of_int_fin| |];
    rewrite ?(float_of_int_exact c), (float_of_int_exact n) by lia; nia.
Qed.

Lemma len_filter {A} (f : A -> bool) l : 0 <= len (List.filter f l) <= len l.
Proof. unfold len. pose proof (List.filter_length_le f l). lia. Qed.

Lemma trim_len c l : len (trim c l) <= len l.
Proof. unfold len. induction l as [|x l IH]; cbn; [lia|]. destruct (negb _); cbn; lia. Qed.

Lemma evict_len s c t s' : len (outcomes (evictExpiredLocked s c t) s') <= len (outcomes t s').
Proof.
  unfold evictExpiredLocked. destruct (outcomes t s) as [|o l] eqn:Eo; [done|]. rewrite <- Eo.
  pose proof (trim_len c (outcomes t s)) as Htrim. destruct (_ =? _)%nat; [done|].
  destruct (trim c (outcomes t s)) as [|x l'] eqn:Et; unfold outcomes at 1; cbn [bySource set_source];
    (destruct (decide (s = s')) as [<-|Hne];
     [rewrite ?lookup_delete_eq, ?lookup_insert_eq|by rewrite ?lookup_delete_ne, ?lookup_insert_ne]).
  - unfold len. cbn. lia.
  - exact Htrim.
Qed.

Lemma Weight_outcomes now s t s' : len (outcomes (Weight now s t).2 s') <= len (outcomes t s').
Proof. unfold Weight, Score. cbn [snd]. apply evict_len. Qed.

Lemma Weight_cases now s t :
  let sc := (Score now s t).1 in
  (Weight now s t).1 =
    (if Observations sc <? 5 then 0.5%float
     else (float_of_int (sa_Correct sc) / float_of_int (Observations sc))%float) /\
  0 <= sa_Correct sc <= Observations sc /\ Observations sc <= len (outcomes t s).
Proof.
  intros sc. unfold sc, Weight, Score. cbn [fst]. set (t' := evictExpiredLocked _ _ t).
  pose proof (evict_len s (Add now (- window t)) t s) as Hle. fold t' in Hle.
  cbn [Observations sa_Correct Accuracy score_of]. pose proof (len_filter Correct (outcomes t' s)).
  unfold MinObservations. destruct (Z.ltb_spec (len (outcomes t' s)) 5); [by split|].
  replace (0 <? len (outcomes t' s)) with true by lia. by split.
Qed.

Lemma Weight_unit now s t : len (outcomes t s) < 2 ^ 53 -> in_unit (Weight now s t).1 = true.
Proof.
  intros Hlen. destruct (Weight_cases now s t) as (-> & Hc & Hn).
  destruct (Z.ltb_spec (Observations (Score now s t).1) 5); [reflexivity|].
  apply fraction_unit; lia.
Qed.

(** The weight of a source is its accuracy, a number between zero and one,
    from the fifth outcome in the window on, and one half before that. *)
Theorem Weight_spec now s t :
  len (outcomes t s) < 2 ^ 53 ->
  let sc := (Score now s t).1 in
  in_unit (Weight now s t).1 = true /\
  (Observations sc < 5 -> (Weight now s t).1 = 0.5%float) /\
  (5 <= Observations sc -> (Weight now s t).1 =
     (float_of_int (sa_Correct sc) / float_of_int (Observations sc))%float) /\
  (Weight now s t).2 = (Score now s t).2.
Proof.
  intros Hlen sc. split; [by apply Weight_unit|].
  destruct (Weight_cases now s t) as (-> & _). fold sc.
  destruct (Z.ltb_spec (Observations sc) 5); (split; [intros; (done || lia)|]);
    (split; [intros; (done || lia)|done]).
Qed.

Definition outcome (source : string) (t : Time) (ok : bool) : SignalOutcome := {|
  SourceAgentID := source; SignalType := "trend"; ObservedAt := t; Correct := ok |}.

Definition day : Time := 24 * Hour.

Definition sample_ops : list tracker_op := [
  TIngest (100 * day) (outcome "a" (80 * day) true);
  TIngest (101 * day) (outcome "b" (60 * day) true);
  TScore (105 * day) "a";
  TIngest (108 * day) (outcome "a" (107 * day) false) ].


Lemma Weight_spec_witness :
  in_unit (Weight (120 * day) "a" (foldl tracker_step (NewAccuracyTracker 0) sample_ops)).1 = true.
Proof.
  refine (proj1 (Weight_spec (120 * day) "a" _ _)). vm_compute. reflexivity.
Defined.

(** An outcome reported late stays behind a newer one: a score still counts it
    when it has left the window. *)
Lemma late_outcome_outlives_window :
  let t := foldl tracker_step (NewAccuracyTracker 0) [
    TIngest (100 * day) (outcome "a" (99 * day) true);
    TIngest (100 * day) (outcome "a" (75 * day) false) ] in
  Observations (Score (120 * day) "a" t).1 = 2 /\
  in_window "a" (90 * day) [outcome "a" (99 * day) true; outcome "a" (75 * day) false] =
    [outcome "a" (99 * day) true].
Proof. vm_compute. done. Qed.
