(* ===== verification/FakeRedis.v ===== *)
(** * The in-memory Redis ([internal/redis/fake.go])

    Key-value entries with lazy expiry and synchronous fan-out to buffered
    inboxes.  A call is one critical section, except [Publish], which copies
    the receivers under the lock and sends after releasing it; [None] stands
    for a panic (a send on a closed channel). *)
From Stdlib Require Import ZArith Lia.
From stdpp Require Import base list strings gmap.
From S2P Require Import Prelude GoBase.
Open Scope Z_scope.

Record Message := { Channel : string; Payload : string }.

#[export] Instance Message_eq_dec : EqDecision Message.
Proof. solve_decision. Defined.

Record fakeEntry := { value : string; expiresAt : Time }.

(** A subscription: the channels it asked for, its buffer, and whether its Go
    channel is still open. *)
Record Inbox := { in_channels : list string; buffer : list Message; open : bool }.

Record FakeRedis := {
  kv : gmap string fakeEntry;
  subs : gmap string (list nat);
  inboxes : gmap nat Inbox;
  closed : bool;
}.

Definition NewFake : FakeRedis := {| kv := ∅; subs := ∅; inboxes := ∅; closed := false |}.

(** The capacity [Subscribe] gives an inbox. *)
Definition inbox_cap : nat := 64.

Inductive payload_value :=
  | VBytes (b : string)
  | VString (s : string)
  | VOther (json_Marshal : result string).

Definition encodePayload (v : payload_value) : result string :=
  match v with
  | VBytes b => Ok b
  | VString s => Ok s
  | VOther (Ok b) => Ok b
  | VOther (Fail err) => Fail (EWrap "redis: marshal payload: %w" err)
  end.

Definition set_inboxes (f : FakeRedis) (m : gmap nat Inbox) : FakeRedis :=
  {| kv := kv f; subs := subs f; inboxes := m; closed := closed f |}.

Definition set_subs (f : FakeRedis) (m : gmap string (list nat)) : FakeRedis :=
  {| kv := kv f; subs := m; inboxes := inboxes f; closed := closed f |}.

Definition set_kv (f : FakeRedis) (m : gmap string fakeEntry) : FakeRedis :=
  {| kv := m; subs := subs f; inboxes := inboxes f; closed := closed f |}.

Definition receivers (f : FakeRedis) (channel : string) : list nat :=
  default [] (subs f !! channel).

(** The locked half of [Publish]: the receivers and the message. *)
Definition Publish_begin (channel : string) (v : payload_value) (f : FakeRedis)
    : result (list nat * Message) :=
  match encodePayload v with
  | Fail err => Fail err
  | Ok payload =>
      if closed f then Fail (EMsg "redis(fake): closed")
      else Ok (receivers f channel, {| Channel := channel; Payload := payload |})
  end.

(** One non-blocking send: dropped when the buffer is full. *)
Definition send (msg : Message) (r : nat) (f : FakeRedis) : option FakeRedis :=
  match inboxes f !! r with
  | None => Some f
  | Some ib =>
      if negb (open ib) then None
      else
        let buf := if (length (buffer ib) <? inbox_cap)%nat then buffer ib ++ [msg] else buffer ib in
        Some (set_inboxes f
          (<[r := {| in_channels := in_channels ib; buffer := buf; open := true |}]> (inboxes f)))
  end.

Fixpoint send_all (msg : Message) (rs : list nat) (f : FakeRedis) : option FakeRedis :=
  match rs with
  | [] => Some f
  | r :: rs' => f ← send msg r f; send_all msg rs' f
  end.

Definition Publish (channel : string) (v : payload_value) (f : FakeRedis)
    : option (option gerror * FakeRedis) :=
  match Publish_begin channel v f with
  | Fail err => Some (Some err, f)
  | Ok (rs, msg) => f ← send_all msg rs f; Some (None, f)
  end.

Fixpoint register (inbox : nat) (channels : list string) (m : gmap string (list nat))
    : gmap string (list nat) :=
  match channels with
  | [] => m
  | ch :: channels' => register inbox channels' (<[ch := default [] (m !! ch) ++ [inbox]]> m)
  end.

(** [inbox] is the fresh channel [make] returns. *)
Definition Subscribe (inbox : nat) (channels : list string) (f : FakeRedis)
    : result nat * FakeRedis :=
  match channels with
  | [] => (Fail (EMsg "redis(fake): Subscribe requires at least one channel"), f)
  | _ =>
      if closed f then (Fail (EMsg "redis(fake): closed"), f)
      else
        (Ok inbox,
         {| kv := kv f; subs := register inbox channels (subs f);
            inboxes := <[inbox := {| in_channels := channels; buffer := []; open := true |}]> (inboxes f);
            closed := closed f |})
  end.

Fixpoint unregister (inbox : nat) (channels : list string) (m : gmap string (list nat))
    : gmap string (list nat) :=
  match channels with
  | [] => m
  | ch :: channels' =>
      let list := default [] (m !! ch) in
      unregister inbox channels'
        (if mem inbox list then <[ch := remove_first inbox list]> m else m)
  end.

(** Runs once per subscription, when its context is done. *)
Definition detach (inbox : nat) (f : FakeRedis) : FakeRedis :=
  match inboxes f !! inbox with
  | Some ib =>
      if open ib then
        set_inboxes (set_subs f (unregister inbox (in_channels ib) (subs f)))
          (<[inbox := {| in_channels := in_channels ib; buffer := buffer ib; open := false |}]> (inboxes f))
      else f
  | None => f
  end.

Definition Set_ (now : Time) (key val : string) (ttl : Duration) (f : FakeRedis)
    : option gerror * FakeRedis :=
  if closed f then (Some (EMsg "redis(fake): closed"), f)
  else
    (None, set_kv f (<[key := {| value := val;
                                 expiresAt := if 0 <? ttl then Add now ttl else zero_time |}]> (kv f))).

Definition Get (now : Time) (key : string) (f : FakeRedis) : result (option string) * FakeRedis :=
  if closed f then (Fail (EMsg "redis(fake): closed"), f)
  else
    match kv f !! key with
    | None => (Ok None, f)
    | Some e =>
        if negb (IsZero (expiresAt e)) && After now (expiresAt e)
        then (Ok None, set_kv f (delete key (kv f)))
        else (Ok (Some (value e)), f)
    end.

Definition Close (f : FakeRedis) : FakeRedis :=
  {| kv := kv f; subs := subs f; inboxes := inboxes f; closed := true |}.

(** ** Calls in sequence *)

Inductive call :=
  | CPublish (channel : string) (v : payload_value)
  | CSubscribe (inbox : nat) (channels : list string)
  | CDetach (inbox : nat)
  | CReceive (inbox : nat)
  | CSet (now : Time) (key val : string) (ttl : Duration)
  | CGet (now : Time) (key : string)
  | CClose.

(** A receive takes the head of the buffer, if there is one. *)
Definition receive (inbox : nat) (f : FakeRedis) : FakeRedis :=
  match inboxes f !! inbox with
  | Some ib =>
      set_inboxes f (<[inbox := {| in_channels := in_channels ib; buffer := tail (buffer ib);
                                   open := open ib |}]> (inboxes f))
  | None => f
  end.

Definition step (f : FakeRedis) (c : call) : option FakeRedis :=
  match c with
  | CPublish channel v => p ← Publish channel v f; Some p.2
  | CSubscribe inbox channels => Some (Subscribe inbox channels f).2
  | CDetach inbox => Some (detach inbox f)
  | CReceive inbox => Some (receive inbox f)
  | CSet now key val ttl => Some (Set_ now key val ttl f).2
  | CGet now key => Some (Get now key f).2
  | CClose => Some (Close f)
  end.

Fixpoint run (f : FakeRedis) (calls : list call) : option FakeRedis :=
  match calls with
  | [] => Some f
  | c :: calls' => f ← step f c; run f calls'
  end.

(** [make] returns a channel no earlier call returned. *)
Definition call_ok (f : FakeRedis) (c : call) : Prop :=
  match c with CSubscribe inbox _ => inboxes f !! inbox = None | _ => True end.

Fixpoint calls_ok (f : FakeRedis) (calls : list call) : Prop :=
  match calls with
  | [] => True
  | c :: calls' => call_ok f c /\ forall f', step f c = Some f' -> calls_ok f' calls'
  end.

Fixpoint calls_okb (f : FakeRedis) (calls : list call) : bool :=
  match calls with
  | [] => true
  | c :: calls' =>
      match c with CSubscribe inbox _ => bool_decide (inboxes f !! inbox = None) | _ => true end &&
      match step f c with Some f' => calls_okb f' calls' | None => true end
  end.

Lemma calls_okb_ok calls : forall f, calls_okb f calls = true -> calls_ok f calls.
Proof.
  induction calls as [|c calls IH]; intros f; cbn [calls_okb calls_ok]; [done|].
  intros [H1 H2]%andb_prop. split.
  - destruct c; try exact I. by apply bool_decide_eq_true in H1.
  - intros f' Hs. rewrite Hs in H2. by apply IH.
Qed.

(** A channel lists an inbox as often as the subscription named it, and only
    open inboxes. *)
Record redis_ok (f : FakeRedis) : Prop := {
  ok_subs : forall ch r, occurs r (receivers f ch) =
    match inboxes f !! r with
    | Some ib => if open ib then occurs ch (in_channels ib) else 0%nat
    | None => 0%nat
    end;
  ok_cap : forall r ib, inboxes f !! r = Some ib -> (length (buffer ib) <= inbox_cap)%nat;
}.

(** ** The subscription lists *)

Lemma register_occurs inbox channels : forall m ch r,
  occurs r (default [] (register inbox channels m !! ch)) =
    (occurs r (default [] (m !! ch)) + if decide (r = inbox) then occurs ch channels else 0)%nat.
Proof.
  induction channels as [|c channels IH]; intros m ch r; cbn [register].
  { change (occurs ch []) with 0%nat. destruct (decide _); lia. }
  rewrite IH, occurs_cons. destruct (bool_decide_reflect (c = ch)) as [->|Hne].
  - rewrite lookup_insert_eq. cbn [default from_option id]. rewrite occurs_app, occurs_cons.
    destruct (decide (r = inbox)) as [->|Hr].
    + rewrite bool_decide_eq_true_2 by done. change (occurs inbox []) with 0%nat. lia.
    + rewrite bool_decide_eq_false_2 by done. change (occurs r []) with 0%nat. lia.
  - rewrite lookup_insert_ne by done. destruct (decide _); lia.
Qed.

Lemma occurs_mem (x : nat) l : mem x l = false -> occurs x l = 0%nat.
Proof.
  intros H. destruct (occurs x l) eqn:E; [done|]. assert (x ∈ l) by (apply occurs_elem; lia).
  by apply mem_spec in H0; rewrite H0 in H.
Qed.

Lemma unregister_occurs inbox channels : forall m ch r,
  occurs r (default [] (unregister inbox channels m !! ch)) =
    (occurs r (default [] (m !! ch)) - if decide (r = inbox) then occurs ch channels else 0)%nat.
Proof.
  induction channels as [|c channels IH]; intros m ch r; cbn [unregister].
  { change (occurs ch []) with 0%nat. destruct (decide _); lia. }
  rewrite IH, occurs_cons. set (l := default [] (m !! c)) in *. destruct (mem inbox l) eqn:E.
  - destruct (bool_decide_reflect (c = ch)) as [->|Hne].
    + rewrite lookup_insert_eq. cbn [default from_option id]. rewrite occurs_remove_first. fold l.
      destruct (decide (r = inbox)) as [->|Hr].
      * rewrite bool_decide_eq_true_2 by done. lia.
      * rewrite bool_decide_eq_false_2 by done. lia.
    + rewrite lookup_insert_ne by done. destruct (decide _); lia.
  - destruct (bool_decide_reflect (c = ch)) as [->|Hne]; [|destruct (decide _); lia].
    fold l. destruct (decide (r = inbox)) as [->|Hr]; [|lia]. rewrite (occurs_mem _ _ E). lia.
Qed.

(** ** Sends *)

Definition delivered (ms : list Message) (ib : Inbox) : Inbox := {|
  in_channels := in_channels ib; buffer := take inbox_cap (buffer ib ++ ms); open := open ib |}.

Lemma push_take (l ms : list Message) m :
  (length l <= inbox_cap)%nat ->
  take inbox_cap ((if (length l <? inbox_cap)%nat then l ++ [m] else l) ++ ms) =
  take inbox_cap (l ++ m :: ms).
Proof.
  intros Hl. destruct (Nat.ltb_spec (length l) inbox_cap).
  - by rewrite <- app_assoc.
  - rewrite !take_app_ge by lia. by replace (inbox_cap - length l)%nat with 0%nat by lia.
Qed.

Lemma send_all_spec msg rs : forall f,
  (forall r, r ∈ rs -> exists ib, inboxes f !! r = Some ib /\ open ib = true) ->
  (forall r ib, inboxes f !! r = Some ib -> (length (buffer ib) <= inbox_cap)%nat) ->
  exists f', send_all msg rs f = Some f' /\ kv f' = kv f /\ subs f' = subs f /\ closed f' = closed f /\
    forall r, inboxes f' !! r = delivered (replicate (occurs r rs) msg) <$> inboxes f !! r.
Proof.
  induction rs as [|r rs IH]; intros f Hopen Hcap; cbn [send_all].
  { exists f. split; [done|]. split; [done|]. split; [done|]. split; [done|]. intros r.
    destruct (inboxes f !! r) as [[chs buf op]|] eqn:E; [|done]. cbn. unfold delivered. cbn.
    specialize (Hcap _ _ E). cbn in Hcap. by rewrite app_nil_r, take_ge. }
  destruct (Hopen r) as (ib & Hr & Ho); [left|]. unfold send. rewrite Hr, Ho. cbn [negb mbind option_bind].
  set (buf := if (length (buffer ib) <? inbox_cap)%nat then _ else _).
  set (f1 := set_inboxes f _).
  assert (Hbuf : (length buf <= inbox_cap)%nat).
  { subst buf. specialize (Hcap _ _ Hr). destruct (Nat.ltb_spec (length (buffer ib)) inbox_cap); [|done].
    rewrite length_app. cbn. lia. }
  destruct (IH f1) as (f' & -> & H1 & H2 & H3 & H4).
  - intros r' Hin. unfold f1. cbn. destruct (decide (r = r')) as [->|Hne].
    + rewrite lookup_insert_eq. eexists. by split.
    + rewrite lookup_insert_ne by done. apply Hopen. by right.
  - intros r' ib'. unfold f1. cbn. destruct (decide (r = r')) as [->|Hne].
    + rewrite lookup_insert_eq. by intros [= <-].
    + rewrite lookup_insert_ne by done. apply Hcap.
  - exists f'. split; [done|]. split; [done|]. split; [done|]. split; [done|]. intros r'.
    rewrite H4, occurs_cons. unfold f1. cbn. destruct (bool_decide_reflect (r = r')) as [->|Hne].
    + rewrite lookup_insert_eq, Hr. cbn. f_equal. unfold delivered. cbn. rewrite Ho. f_equal.
      subst buf. by apply push_take, (Hcap _ _ Hr).
    + by rewrite lookup_insert_ne.
Qed.

Lemma receivers_open f ch r : redis_ok f -> r ∈ receivers f ch ->
  exists ib, inboxes f !! r = Some ib /\ open ib = true.
Proof.
  intros Hok Hr. apply occurs_elem in Hr. rewrite (ok_subs f Hok) in Hr.
  destruct (inboxes f !! r) as [ib|]; [|lia]. destruct (open ib) eqn:E; [|lia]. by exists ib.
Qed.

(** What a publish that goes through sends to an inbox. *)
Definition sends (c : call) (channels : list string) : list Message :=
  match c with
  | CPublish ch v =>
      match encodePayload v with
      | Ok p => replicate (occurs ch channels) {| Channel := ch; Payload := p |}
      | Fail _ => []
      end
  | _ => []
  end.

Lemma delivered_nil ib : (length (buffer ib) <= inbox_cap)%nat -> delivered [] ib = ib.
Proof. destruct ib. cbn. intros H. unfold delivered. cbn. by rewrite app_nil_r, take_ge. Qed.

Lemma Publish_spec channel v f : redis_ok f ->
  exists err f', Publish channel v f = Some (err, f') /\ redis_ok f' /\ closed f' = closed f /\
    forall r, inboxes f' !! r =
      (fun ib => if negb (closed f) && open ib
                 then delivered (sends (CPublish channel v) (in_channels ib)) ib else ib)
      <$> inboxes f !! r.
Proof.
  intros Hok. unfold Publish, Publish_begin, sends.
  assert (Hid : forall r, inboxes f !! r = (fun ib => if negb (closed f) && open ib
            then delivered [] ib else ib) <$> inboxes f !! r).
  { intros r. destruct (inboxes f !! r) as [ib|] eqn:E; [|done]. cbn. f_equal.
    rewrite delivered_nil by (by apply (ok_cap f Hok r)). by destruct (_ && _). }
  destruct (encodePayload v) as [p|e]; [|by exists (Some e), f].
  destruct (closed f) eqn:Ec; [eexists _, f; by rewrite Ec|]. cbn [negb andb] in *.
  set (msg := {| Channel := channel; Payload := p |}).
  destruct (send_all_spec msg (receivers f channel) f) as (f' & -> & H1 & H2 & H3 & H4).
  { intros r. by apply receivers_open. } { apply (ok_cap f Hok). }
  exists None, f'. split; [done|].
  assert (Hlk : forall r, inboxes f' !! r = (fun ib => if open ib
     then delivered (replicate (occurs channel (in_channels ib)) msg) ib else ib) <$> inboxes f !! r).
  { intros r. rewrite H4, (ok_subs f Hok). destruct (inboxes f !! r) as [ib|] eqn:E; [|done]. cbn.
    destruct (open ib) eqn:Eo; [done|]. f_equal. apply delivered_nil. by apply (ok_cap f Hok r). }
  split; [|by rewrite H3]. split.
  - intros ch r. unfold receivers. rewrite H2, Hlk. fold (receivers f ch). rewrite (ok_subs f Hok).
    destruct (inboxes f !! r) as [ib|]; [|done]. cbn. destruct (open ib) eqn:Eo; cbn; by rewrite Eo.
  - intros r ib. rewrite Hlk. destruct (inboxes f !! r) as [ib'|] eqn:E; [|done]. cbn.
    intros [= <-]. destruct (open ib'); [|by apply (ok_cap f Hok r)].
    unfold delivered. cbn [buffer]. rewrite length_take. lia.
Qed.

(** ** Every call keeps the lists *)

Definition touches (id : nat) (c : call) : bool :=
  match c with
  | CDetach r | CReceive r | CSubscribe r _ => bool_decide (r = id)
  | _ => false
  end.

(** What a call does to the subscriptions: it keeps the lists, and an open
    inbox it does not name receives what the call sends it. *)
Definition step_ok (f : FakeRedis) (c : call) (f' : FakeRedis) : Prop :=
  redis_ok f' /\
  closed f' = (closed f || match c with CClose => true | _ => false end) /\
  forall id ib, touches id c = false -> inboxes f !! id = Some ib -> open ib = true ->
    inboxes f' !! id = Some (delivered (if closed f then [] else sends c (in_channels ib)) ib).

Lemma undelivered f id ib : redis_ok f -> inboxes f !! id = Some ib ->
  Some (delivered (if closed f then [] else []) ib) = Some ib.
Proof.
  intros Hok Hi. f_equal. replace (if closed f then [] else []) with (@nil Message) by (by destruct (closed f)).
  apply delivered_nil. by apply (ok_cap f Hok id).
Qed.

(** A call that sends nothing and leaves the other inboxes and all lists right. *)
Lemma quiet_step_ok f c f' :
  redis_ok f -> redis_ok f' -> closed f' = (closed f || match c with CClose => true | _ => false end) ->
  (forall chs, sends c chs = []) ->
  (forall id, touches id c = false -> inboxes f' !! id = inboxes f !! id) ->
  step_ok f c f'.
Proof.
  intros Hok Hok' Hcl Hs Hin. split; [done|]. split; [done|]. intros id ib Ht Hi Ho.
  by rewrite Hin, Hs, (undelivered f id ib).
Qed.

Lemma Subscribe_ok id chs f : redis_ok f -> inboxes f !! id = None ->
  step_ok f (CSubscribe id chs) (Subscribe id chs f).2.
Proof.
  intros Hok Hc. unfold Subscribe. destruct chs as [|c chs].
  { apply quiet_step_ok; [done|done|by rewrite orb_false_r|done|done]. }
  destruct (closed f) eqn:Ecl; cbn [snd].
  { apply quiet_step_ok; [done|done|by rewrite Ecl|done|done]. }
  apply quiet_step_ok; [done| |by cbn; rewrite Ecl|done|].
  - split.
    + intros ch r. unfold receivers. cbn [subs inboxes]. rewrite register_occurs.
      fold (receivers f ch). rewrite (ok_subs f Hok). destruct (decide (r = id)) as [->|Hne].
      * by rewrite Hc, lookup_insert_eq.
      * rewrite lookup_insert_ne by done. lia.
    + intros r ib. cbn [inboxes]. destruct (decide (id = r)) as [->|Hne].
      * rewrite lookup_insert_eq. intros [= <-]. cbn. unfold inbox_cap. lia.
      * rewrite lookup_insert_ne by done. apply (ok_cap f Hok).
  - intros id' Ht. apply bool_decide_eq_false in Ht. cbn [inboxes]. by rewrite lookup_insert_ne.
Qed.

Lemma detach_ok id f : redis_ok f -> step_ok f (CDetach id) (detach id f).
Proof.
  intros Hok. unfold detach.
  assert (Hno : step_ok f (CDetach id) f).
  { apply quiet_step_ok; [done|done|by rewrite orb_false_r|done|done]. }
  destruct (inboxes f !! id) as [ib|] eqn:Ei; [|done]. destruct (open ib) eqn:Eo; [|done]. clear Hno.
  apply quiet_step_ok; [done| |by cbn; rewrite orb_false_r|done|].
  - split.
    + intros ch r. unfold receivers. cbn [subs inboxes set_subs set_inboxes]. rewrite unregister_occurs.
      fold (receivers f ch). rewrite (ok_subs f Hok). destruct (decide (r = id)) as [->|Hne].
      * rewrite Ei, Eo, lookup_insert_eq. cbn. lia.
      * rewrite lookup_insert_ne by done. lia.
    + intros r ib'. cbn [inboxes set_subs set_inboxes]. destruct (decide (id = r)) as [->|Hne].
      * rewrite lookup_insert_eq. intros [= <-]. exact (ok_cap f Hok r ib Ei).
      * rewrite lookup_insert_ne by done. apply (ok_cap f Hok).
  - intros id' Ht. apply bool_decide_eq_false in Ht. cbn [inboxes set_subs set_inboxes].
    by rewrite lookup_insert_ne.
Qed.

Lemma receive_ok id f : redis_ok f -> step_ok f (CReceive id) (receive id f).
Proof.
  intros Hok. unfold receive. destruct (inboxes f !! id) as [ib|] eqn:Ei.
  2: { apply quiet_step_ok; [done|done|by rewrite orb_false_r|done|done]. }
  apply quiet_step_ok; [done| |by cbn; rewrite orb_false_r|done|].
  - split.
    + intros ch r. unfold receivers. cbn [subs inboxes set_inboxes]. fold (receivers f ch).
      rewrite (ok_subs f Hok). destruct (decide (id = r)) as [->|Hne].
      * by rewrite Ei, lookup_insert_eq.
      * by rewrite lookup_insert_ne.
    + intros r ib'. cbn [inboxes set_inboxes]. destruct (decide (id = r)) as [->|Hne].
      * rewrite lookup_insert_eq. intros [= <-]. cbn [buffer]. pose proof (ok_cap f Hok r ib Ei).
        destruct (buffer ib); cbn in *; lia.
      * rewrite lookup_insert_ne by done. apply (ok_cap f Hok).
  - intros id' Ht. apply bool_decide_eq_false in Ht. cbn [inboxes set_inboxes].
    by rewrite lookup_insert_ne.
Qed.

Lemma redis_ok_same f f' :
  subs f' = subs f -> inboxes f' = inboxes f -> redis_ok f -> redis_ok f'.
Proof.
  intros Hs Hi [H1 H2]. split; unfold receivers in *; intros *; rewrite ?Hs, ?Hi; [apply H1|apply H2].
Qed.

Lemma step_spec c f : redis_ok f -> call_ok f c ->
  exists f', step f c = Some f' /\ step_ok f c f'.
Proof.
  intros Hok Hc. destruct c as [ch v|id chs|id|id|now key val ttl|now key|]; cbn [step call_ok] in *.
  - destruct (Publish_spec ch v f Hok) as (err & f' & -> & Hok' & Hcl & Hin). cbn [mbind option_bind].
    exists f'. split; [done|]. split; [done|]. split; [by rewrite Hcl, orb_false_r|].
    intros id ib _ Hi Ho. cbn [snd]. rewrite Hin, Hi. cbn [fmap option_fmap option_map]. rewrite Ho.
    destruct (closed f); cbn [negb andb]; [|done].
    by rewrite delivered_nil by (by apply (ok_cap f Hok id)).
  - eexists. split; [done|]. by apply Subscribe_ok.
  - eexists. split; [done|]. by apply detach_ok.
  - eexists. split; [done|]. by apply receive_ok.
  - eexists. split; [done|]. unfold Set_. destruct (closed f) eqn:E; apply quiet_step_ok; try done.
    all: cbn; rewrite ?E; try done. by apply (redis_ok_same f).
  - eexists. split; [done|]. unfold Get. destruct (closed f) eqn:E;
      [|destruct (kv f !! key); [destruct (_ && _)|]]; apply quiet_step_ok; try done.
    all: cbn; rewrite ?E; try done. by apply (redis_ok_same f).
  - eexists. split; [done|]. apply quiet_step_ok; try done; [by apply (redis_ok_same f)|].
    cbn. by rewrite orb_true_r.
Qed.

(** ** Fan-out *)

(** The messages the calls publish to a subscription of [channels], in order,
    until the client is closed. *)
Fixpoint accepted (cl : bool) (channels : list string) (calls : list call) : list Message :=
  match calls with
  | [] => []
  | c :: calls' =>
      (if cl then [] else sends c channels) ++
      accepted (cl || match c with CClose => true | _ => false end) channels calls'
  end.

Lemma delivered_app ib ms1 ms2 : delivered ms2 (delivered ms1 ib) = delivered (ms1 ++ ms2) ib.
Proof.
  unfold delivered. cbn [in_channels buffer open]. f_equal.
  rewrite app_assoc. set (l := buffer ib ++ ms1).
  destruct (Nat.le_gt_cases (length l) inbox_cap).
  - by rewrite (take_ge l) by lia.
  - rewrite !take_app_le; [by rewrite take_take, Nat.min_id|lia|rewrite length_take; lia].
Qed.

Lemma run_spec calls : forall f, redis_ok f -> calls_ok f calls ->
  exists f', run f calls = Some f' /\ redis_ok f' /\
    forall id ib, Forall (fun c => touches id c = false) calls ->
      inboxes f !! id = Some ib -> open ib = true ->
      inboxes f' !! id = Some (delivered (accepted (closed f) (in_channels ib) calls) ib).
Proof.
  induction calls as [|c calls IH]; intros f Hok Hcs; cbn [run accepted].
  { exists f. split; [done|]. split; [done|]. intros id ib _ Hi _.
    by rewrite delivered_nil by (by apply (ok_cap f Hok id)). }
  destruct Hcs as [Hc Hcs]. destruct (step_spec c f Hok Hc) as (f1 & E & Hok1 & Hcl & Hin).
  rewrite E. cbn [mbind option_bind]. destruct (IH f1 Hok1 (Hcs f1 E)) as (f' & Hr & Hok' & H).
  exists f'. split; [done|]. split; [done|]. intros id ib Ht Hi Ho.
  apply Forall_cons in Ht as [Ht Hts]. specialize (Hin id ib Ht Hi Ho).
  by rewrite (H id _ Hts Hin Ho), delivered_app, Hcl.
Qed.

(** No sequence of calls panics; and a subscription that is neither read
    nor cancelled holds, after any calls of anyone, the first sixty-four
    messages published on its channels since it was made, in order. *)
Theorem fanout f id channels calls :
  redis_ok f -> closed f = false -> channels <> [] -> call_ok f (CSubscribe id channels) ->
  calls_ok (Subscribe id channels f).2 calls ->
  exists f', run (Subscribe id channels f).2 calls = Some f' /\ redis_ok f' /\
    (Forall (fun c => touches id c = false) calls ->
     buffer <$> inboxes f' !! id = Some (take inbox_cap (accepted false channels calls))).
Proof.
  intros Hok Hcl Hne Hfresh Hcs. pose proof (Subscribe_ok id channels f Hok Hfresh) as (Hok' & Hcl' & _).
  destruct (run_spec calls _ Hok' Hcs) as (f' & Hr & Hokf & H). exists f'. split; [done|].
  split; [done|]. intros Ht.
  assert (Hsub : inboxes (Subscribe id channels f).2 !! id =
            Some {| in_channels := channels; buffer := []; open := true |}).
  { unfold Subscribe. destruct channels; [done|]. rewrite Hcl. cbn. apply lookup_insert_eq. }
  rewrite (H id _ Ht Hsub eq_refl). cbn [fmap option_fmap option_map delivered buffer in_channels].
  by rewrite Hcl', Hcl.
Qed.

Lemma NewFake_ok : redis_ok NewFake.
Proof.
  split; unfold receivers, NewFake; cbn [subs inboxes].
  - intros ch r. by rewrite !lookup_empty.
  - intros r ib. by rewrite lookup_empty.
Qed.

Definition sample_calls : list call := [
  CPublish "intel:warnings" (VBytes "w1"); CSubscribe 1 ["lifecycle:spawn"];
  CPublish "lifecycle:spawn" (VString "s1"); CPublish "intel:warnings" (VOther (Fail (EMsg "json")));
  CDetach 1; CPublish "intel:warnings" (VOther (Ok "w2")); CClose;
  CPublish "intel:warnings" (VBytes "w3") ].

Lemma fanout_witness :
  exists f', run (Subscribe 0 ["intel:warnings"] NewFake).2 sample_calls = Some f' /\
    buffer <$> inboxes f' !! 0%nat =
      Some [ {| Channel := "intel:warnings"; Payload := "w1" |};
             {| Channel := "intel:warnings"; Payload := "w2" |} ].
Proof.
  destruct (fanout NewFake 0 ["intel:warnings"] sample_calls) as (f' & Hr & _ & Hb).
  - apply NewFake_ok.
  - reflexivity.
  - discriminate.
  - apply lookup_empty.
  - apply calls_okb_ok. vm_compute. reflexivity.
  - exists f'. split; [exact Hr|]. apply Hb. repeat constructor.
Defined.

(** A publish that copied its receivers before a subscription was cancelled
    sends on the closed channel. *)
Lemma publish_detach_race :
  let f := (Subscribe 0 ["intel:warnings"] NewFake).2 in
  Publish_begin "intel:warnings" (VBytes "w") f =
    Ok ([0%nat], {| Channel := "intel:warnings"; Payload := "w" |}) /\
  send_all {| Channel := "intel:warnings"; Payload := "w" |} [0%nat] (detach 0 f) = None.
Proof. vm_compute. done. Qed.
