(* ===== verification/IntelBus.v ===== *)
(** * The intelligence bus ([internal/intelligence/bus.go])

    Typed signals over a redis client: validation against the channel's rules,
    the timestamp, the JSON payload.  The JSON codec is a parameter, and so is the
    client, of which the in-memory one of [FakeRedis] is an instance. *)
From Stdlib Require Import ZArith Lia Ascii Floats.
From stdpp Require Import base list strings gmap.
From S2P Require Import Prelude GoBase GoFloat GoRound FakeRedis.
Set Warnings "-inexact-float".
Open Scope Z_scope.

Abbreviation Sentiment := string (only parsing).
Definition SentimentBull : Sentiment := "bull".
Definition SentimentBear : Sentiment := "bear".
Definition SentimentNeutral : Sentiment := "neutral".

Definition Valid (s : Sentiment) : bool := mem s [SentimentBull; SentimentBear; SentimentNeutral].

Record Signal := {
  SourceAgentID : string;
  SignalType : string;
  s_Sentiment : Sentiment;
  s_Chain : string;
  TaskType : string;
  Confidence : float;
  Data : string;
  PublishedAt : Time;
}.

Definition ChannelSignalsPrefix : string := "intel:signals:".
Definition ChannelStrategiesPrefix : string := "intel:strategies:".
Definition ChannelWarnings : string := "intel:warnings".
Definition ChannelLiquidationsPrefix : string := "intel:liquidations:".
Definition ChannelYieldsPrefix : string := "intel:yields:".

Definition SignalsChannel (chain : string) (sentiment : Sentiment) : string :=
  ChannelSignalsPrefix +:+ chain +:+ ":" +:+ sentiment.
Definition StrategiesChannel (taskType : string) : string := ChannelStrategiesPrefix +:+ taskType.
Definition LiquidationsChannel (chain : string) : string := ChannelLiquidationsPrefix +:+ chain.
Definition YieldsChannel (chain : string) : string := ChannelYieldsPrefix +:+ chain.

Definition colon : ascii := ":".

Definition validateSignal (channel : string) (sig : Signal) : option gerror :=
  if str_eqb (SourceAgentID sig) "" then Some (EMsg "intelbus: source_agent_id required")
  else if str_eqb (SignalType sig) "" then Some (EMsg "intelbus: signal_type required")
  else if (Confidence sig <? 0)%float || (1 <? Confidence sig)%float
    then Some (EMsg "intelbus: confidence %v out of [0,1]")
  else if HasPrefix channel ChannelSignalsPrefix then
    if negb (Valid (s_Sentiment sig)) || str_eqb (s_Sentiment sig) ""
      then Some (EMsg "intelbus: signals channel requires bull/bear/neutral sentiment, got %q")
    else
      match Split (TrimPrefix channel ChannelSignalsPrefix) colon with
      | [p0; p1] =>
          if str_eqb p0 ""
            then Some (EMsg "intelbus: signals channel must be intel:signals:{chain}:{sentiment}, got %q")
          else if negb (str_eqb p1 (s_Sentiment sig))
            then Some (EMsg "intelbus: channel sentiment %q does not match signal sentiment %q")
          else None
      | _ => Some (EMsg "intelbus: signals channel must be intel:signals:{chain}:{sentiment}, got %q")
      end
  else if negb (str_eqb (s_Sentiment sig) "") && negb (Valid (s_Sentiment sig))
    then Some (EMsg "intelbus: unknown sentiment %q")
  else None.

(** [encoding/json] on a [Signal].  What is marshalled need not read back as it
    was: invalid UTF-8 is replaced and raw data is compacted.  A signal is [plain]
    when its strings are valid UTF-8 and its raw data is compact JSON: those come
    back unchanged. *)
Class SignalCodec := {
  Marshal : Signal -> result string;
  Unmarshal : string -> result Signal;
  plain : Signal -> Prop;
}.

Class SignalCodecLaws (C : SignalCodec) := {
  Unmarshal_Marshal : forall sig p, plain sig -> Marshal sig = Ok p -> Unmarshal p = Ok sig;
}.

(** [redis.Client], as far as the bus publishes; [None] is a panic of it. *)
Class BusClient := {
  client : Type;
  client_Publish : string -> payload_value -> client -> option (option gerror * client);
}.

#[export] Instance fake_client : BusClient := {| client := FakeRedis; client_Publish := FakeRedis.Publish |}.

Definition stamped (now : Time) (sig : Signal) : Signal :=
  if IsZero (PublishedAt sig) then {|
    SourceAgentID := SourceAgentID sig; SignalType := SignalType sig; s_Sentiment := s_Sentiment sig;
    s_Chain := s_Chain sig; TaskType := TaskType sig; Confidence := Confidence sig;
    Data := Data sig; PublishedAt := now |}
  else sig.

Section Bus.
Context {C : SignalCodec}.

(** The payload [Publish] hands to the client, if it gets that far. *)
Definition bus_payload (now : Time) (channel : string) (sig : Signal) : result string :=
  match validateSignal channel sig with
  | Some err => Fail err
  | None =>
      match Marshal (stamped now sig) with
      | Fail err => Fail (EWrap "intelbus: marshal: %w" err)
      | Ok payload => Ok payload
      end
  end.

(** [None] is a panic of the client. *)
Definition Publish {B : BusClient} (now : Time) (channel : string) (sig : Signal) (c : option client)
    : option (option gerror * option client) :=
  match c with
  | None => Some (Some (EMsg "intelbus: nil client"), None)
  | Some c =>
      match bus_payload now channel sig with
      | Fail err => Some (Some err, Some c)
      | Ok payload =>
          p ← client_Publish channel (VBytes payload) c; Some (p.1, Some p.2)
      end
  end.

Definition Subscribe (inbox : nat) (channels : list string) (client : option FakeRedis)
    : result nat * option FakeRedis :=
  match client with
  | None => (Fail (EMsg "intelbus: nil client"), None)
  | Some f =>
      match channels with
      | [] => (Fail (EMsg "intelbus: at least one channel required"), Some f)
      | _ =>
          let '(r, f) := FakeRedis.Subscribe inbox channels f in
          (match r with
           | Ok i => Ok i
           | Fail err => Fail (EWrap "intelbus: subscribe: %w" err)
           end, Some f)
      end
  end.

(** The subscription's goroutine: what it sends on for the messages it reads. *)
Definition decode (raw : list Message) : list Signal :=
  omap (fun m => match Unmarshal (Payload m) with Ok sig => Some sig | Fail _ => None end) raw.

(** Publications of one bus, in order; failures change nothing. *)
Fixpoint publish_all {B : BusClient} (pubs : list (Time * string * Signal)) (c : client) : option client :=
  match pubs with
  | [] => Some c
  | (now, channel, sig) :: pubs' =>
      p ← Publish now channel sig (Some c);
      match p.2 with Some c => publish_all pubs' c | None => None end
  end.

(** ** Validation *)

Lemma Split_nonnil s : Split s colon <> [].
Proof. destruct s as [|c s]; cbn; [done|]. destruct (Ascii.eqb c colon); [done|]. by destruct (Split s colon). Qed.

Lemma Split_one s a : Split s colon = [a] -> s = a /\ no_byte colon a = true.
Proof.
  revert a. induction s as [|c s IH]; cbn; intros a H; [by simplify_eq|].
  destruct (Ascii.eqb c colon) eqn:E.
  - injection H as _ H. by apply Split_nonnil in H.
  - destruct (Split s colon) as [|w ws] eqn:Es; [by apply Split_nonnil in Es|].
    injection H as <- ->. destruct (IH w eq_refl) as [-> Hn]. cbn. by rewrite E, Hn.
Qed.

Lemma Split_two s a b :
  Split s colon = [a; b] -> s = a +:+ ":" +:+ b /\ no_byte colon a = true /\ no_byte colon b = true.
Proof.
  revert a. induction s as [|c s IH]; cbn; intros a H; [done|].
  destruct (Ascii.eqb c colon) eqn:E.
  - injection H as <- H. apply Ascii.eqb_eq in E as ->. apply Split_one in H as [-> Hb]. done.
  - destruct (Split s colon) as [|w ws] eqn:Es; [by apply Split_nonnil in Es|].
    injection H as <- ->. destruct (IH w eq_refl) as (-> & Ha & Hb).
    cbn. rewrite E, Ha. done.
Qed.

Lemma HasPrefix_inv s p : HasPrefix s p = true -> exists t, s = p +:+ t.
Proof.
  revert s. induction p as [|c p IH]; intros s H; [by exists s|].
  destruct s as [|d s]; [done|]. cbn in H. apply andb_prop in H as [E H].
  apply Ascii.eqb_eq in E as ->. destruct (IH s H) as [t ->]. by exists t.
Qed.

Lemma Valid_no_colon s : Valid s = true -> no_byte colon s = true /\ s <> "".
Proof.
  unfold Valid. intros H%mem_spec. rewrite !elem_of_cons in H.
  by destruct H as [->|[->|[->|H%not_elem_of_nil]]].
Qed.

(** A signal its channel accepts. *)
Record signal_ok (channel : string) (sig : Signal) : Prop := {
  so_source : SourceAgentID sig <> "";
  so_type : SignalType sig <> "";
  so_conf : (Confidence sig <? 0)%float = false /\ (1 <? Confidence sig)%float = false;
  so_channel :
    if HasPrefix channel ChannelSignalsPrefix then
      Valid (s_Sentiment sig) = true /\
      exists chain, chain <> "" /\ no_byte colon chain = true /\
        channel = SignalsChannel chain (s_Sentiment sig)
    else s_Sentiment sig = "" \/ Valid (s_Sentiment sig) = true;
}.

Lemma signals_channel_ok channel sig :
  HasPrefix channel ChannelSignalsPrefix = true -> Valid (s_Sentiment sig) = true ->
  (match Split (TrimPrefix channel ChannelSignalsPrefix) colon with
   | [p0; p1] => p0 <> "" /\ p1 = s_Sentiment sig
   | _ => False
   end) <->
  exists chain, chain <> "" /\ no_byte colon chain = true /\
    channel = SignalsChannel chain (s_Sentiment sig).
Proof.
  intros Hp Hv. destruct (HasPrefix_inv _ _ Hp) as [t ->]. rewrite TrimPrefix_app. split.
  - destruct (Split t colon) as [|p0 [|p1 [|? ?]]] eqn:E; try done. intros [H0 ->].
    apply Split_two in E as (-> & Ha & _). by exists p0.
  - intros (chain & H0 & Hc & Heq). unfold SignalsChannel in Heq.
    assert (t = chain +:+ String colon (s_Sentiment sig)) as ->.
    { apply (f_equal (str_drop (String.length ChannelSignalsPrefix))) in Heq.
      by rewrite !str_drop_app in Heq. }
    rewrite Split_app by done. apply Valid_no_colon in Hv as [Hv _].
    by rewrite (Split_no_sep _ _ Hv).
Qed.

Lemma validateSignal_iff channel sig : validateSignal channel sig = None <-> signal_ok channel sig.
Proof.
  unfold validateSignal, str_eqb.
  destruct (bool_decide_reflect (SourceAgentID sig = "")) as [|H1]; [by split; [|intros [? _ _ _]]|].
  destruct (bool_decide_reflect (SignalType sig = "")) as [|H2]; [by split; [|intros [_ ? _ _]]|].
  destruct (Confidence sig <? 0)%float eqn:C1; cbn [orb];
    [split; [done|intros [_ _ [? _] _]; congruence]|].
  destruct (1 <? Confidence sig)%float eqn:C2; [split; [done|intros [_ _ [_ ?] _]; congruence]|].
  assert (Hiff : forall P, (P <-> if HasPrefix channel ChannelSignalsPrefix then
      Valid (s_Sentiment sig) = true /\
      exists chain, chain <> "" /\ no_byte colon chain = true /\
        channel = SignalsChannel chain (s_Sentiment sig)
    else s_Sentiment sig = "" \/ Valid (s_Sentiment sig) = true) -> P <-> signal_ok channel sig).
  { intros P HP. rewrite HP. split; [by intros H; split|by intros [_ _ _ H]]. }
  apply Hiff. clear Hiff. destruct (HasPrefix channel ChannelSignalsPrefix) eqn:Hp.
  - destruct (Valid (s_Sentiment sig)) eqn:Hv; cbn [negb orb]; [|split; [done|by intros [? _]]].
    pose proof (Valid_no_colon _ Hv) as [_ Hne].
    rewrite bool_decide_eq_false_2 by done. rewrite <- (signals_channel_ok channel sig Hp Hv).
    destruct (Split _ colon) as [|p0 [|p1 [|? ?]]]; try tauto; try (by split; [|intros [_ ?]]).
    destruct (bool_decide_reflect (p0 = "")) as [->|]; [by split; [|intros [_ [? _]]]|].
    destruct (bool_decide_reflect (p1 = s_Sentiment sig)) as [->|]; [done|].
    by split; [|intros [_ [_ ?]]].
  - destruct (bool_decide_reflect (s_Sentiment sig = "")) as [->|]; cbn [negb andb]; [by split; [left|]|].
    destruct (Valid (s_Sentiment sig)); cbn [negb]; [by split; [right|]|]. by split; [|intros [?|?]].
Qed.

(** A signal is accepted exactly when it names its source and type, its
    confidence is not outside [0, 1] and its channel allows its sentiment:
    a signals channel is the canonical channel of some chain and of the
    signal's own sentiment, any other takes a known sentiment or none.  A
    refused signal reaches no subscriber. *)
Theorem validateSignal_spec {B : BusClient} channel sig now (c : client) :
  (validateSignal channel sig = None <-> signal_ok channel sig) /\
  (~ signal_ok channel sig ->
   exists err, Publish now channel sig (Some c) = Some (Some err, Some c)).
Proof.
  split; [apply validateSignal_iff|]. intros Hn. unfold Publish, bus_payload.
  destruct (validateSignal channel sig) as [err|] eqn:E; [by exists err|].
  by apply validateSignal_iff in E.
Qed.

(** ** From publisher to subscriber *)

Definition accepts (now : Time) (channel : string) (sig : Signal) : bool :=
  is_ok (bus_payload now channel sig).

(** What the codec makes of a signal, there and back. *)
Definition read_back (sig : Signal) : option Signal :=
  match Marshal sig with
  | Ok p => match Unmarshal p with Ok sig => Some sig | Fail _ => None end
  | Fail _ => None
  end.

(** The accepted signals of some channels, in order and stamped, each as often as
    its channel is listed. *)
Definition signals_on (channels : list string) (pubs : list (Time * string * Signal)) : list Signal :=
  pubs ≫= fun '(now, ch, sig) =>
    if accepts now ch sig then replicate (occurs ch channels) (stamped now sig) else [].

(** The publications that reach the client, and the client's calls for them. *)
Definition bus_publishes (pubs : list (Time * string * Signal)) : list (string * string) :=
  omap (fun '(now, ch, sig) => match bus_payload now ch sig with Ok p => Some (ch, p) | Fail _ => None end) pubs.

Fixpoint client_publishes {B : BusClient} (l : list (string * string)) (c : client) : option client :=
  match l with
  | [] => Some c
  | (ch, p) :: l' => r ← client_Publish ch (VBytes p) c; client_publishes l' r.2
  end.

(** The messages of these publications for a subscription. *)
Definition messages_on (channels : list string) (pubs : list (Time * string * Signal)) : list Message :=
  bus_publishes pubs ≫= fun '(ch, p) => replicate (occurs ch channels) {| Channel := ch; Payload := p |}.

Lemma bus_publishes_cons now ch sig pubs : bus_publishes ((now, ch, sig) :: pubs) =
  match bus_payload now ch sig with Ok p => [(ch, p)] | Fail _ => [] end ++ bus_publishes pubs.
Proof. unfold bus_publishes. cbn. by destruct (bus_payload now ch sig). Qed.

Lemma publish_all_calls {B : BusClient} pubs : forall c : client,
  publish_all pubs c = client_publishes (bus_publishes pubs) c.
Proof.
  induction pubs as [|[[now ch] sig] pubs IH]; intros c; cbn [publish_all]; [done|].
  rewrite bus_publishes_cons. unfold Publish. destruct (bus_payload now ch sig) as [p|e]; cbn; [|apply IH].
  destruct (client_Publish ch (VBytes p) c) as [[err c']|]; cbn; [apply IH|done].
Qed.

Definition fake_calls (l : list (string * string)) : list call := (fun '(ch, p) => CPublish ch (VBytes p)) <$> l.

Lemma fake_run l : forall f : FakeRedis, client_publishes (B := fake_client) l f = run f (fake_calls l).
Proof.
  induction l as [|[ch p] l IH]; intros f; cbn; [done|].
  destruct (FakeRedis.Publish ch (VBytes p) f) as [[err f']|]; cbn; [apply IH|done].
Qed.

Lemma fake_calls_ok l : forall f, calls_ok f (fake_calls l).
Proof. induction l as [|[ch p] l IH]; intros f; cbn; [done|]. split; [done|]. intros f' _. apply IH. Qed.

Lemma fake_messages channels pubs : accepted false channels (fake_calls (bus_publishes pubs)) = messages_on channels pubs.
Proof. unfold messages_on. induction (bus_publishes pubs) as [|[ch p] l IH]; cbn; [done|]. f_equal. exact IH. Qed.

Lemma decode_app l1 l2 : decode (l1 ++ l2) = decode l1 ++ decode l2.
Proof. apply omap_app. Qed.

Lemma decode_sublist l1 l2 : l1 `sublist_of` l2 -> decode l1 `sublist_of` decode l2.
Proof.
  unfold decode. induction 1 as [|m l1 l2 Hl IH|m l1 l2 Hl IH]; cbn; [done| |];
    destruct (Unmarshal (Payload m)); by try constructor.
Qed.

Lemma decode_replicate n ch p : decode (replicate n {| Channel := ch; Payload := p |}) =
  match Unmarshal p with Ok sig => replicate n sig | Fail _ => [] end.
Proof.
  unfold decode. induction n as [|n IH]; cbn; [by destruct (Unmarshal p)|]. rewrite IH. by destruct (Unmarshal p).
Qed.

Lemma decode_messages channels pubs : decode (messages_on channels pubs) = omap read_back (signals_on channels pubs).
Proof.
  induction pubs as [|[[now ch] sig] pubs IH]; [done|].
  assert (E : messages_on channels ((now, ch, sig) :: pubs) =
    match bus_payload now ch sig with
    | Ok p => replicate (occurs ch channels) {| Channel := ch; Payload := p |} | Fail _ => [] end ++ messages_on channels pubs).
  { unfold messages_on. rewrite bus_publishes_cons, bind_app. f_equal. destruct (bus_payload now ch sig); [|done].
    cbn. by rewrite app_nil_r. }
  rewrite E, decode_app, IH. unfold signals_on. cbn [mbind list_bind]. rewrite omap_app. f_equal.
  unfold accepts, bus_payload. destruct (validateSignal ch sig); [done|].
  destruct (Marshal (stamped now sig)) as [p|] eqn:Em; cbn [is_ok]; [|done]. rewrite decode_replicate.
  assert (Er : read_back (stamped now sig) = match Unmarshal p with Ok s => Some s | Fail _ => None end)
    by (unfold read_back; by rewrite Em).
  generalize (occurs ch channels). intros n. induction n as [|n IHn]; cbn; [by destruct (Unmarshal p)|].
  rewrite Er. destruct (Unmarshal p); cbn; by rewrite <- IHn.
Qed.

Lemma plain_read_back `{!SignalCodecLaws C} channels pubs :
  Forall (fun '(now, ch, sig) => plain (stamped now sig)) pubs ->
  omap read_back (signals_on channels pubs) = signals_on channels pubs.
Proof.
  induction pubs as [|[[now ch] sig] pubs IH]; intros Hp; [done|]. apply Forall_cons in Hp as [Hp Hps].
  unfold signals_on. cbn [mbind list_bind]. rewrite omap_app. f_equal; [|by apply IH].
  unfold accepts, bus_payload. destruct (validateSignal ch sig); [done|].
  destruct (Marshal (stamped now sig)) as [p|] eqn:Em; cbn [is_ok]; [|done].
  generalize (occurs ch channels). intros n. induction n as [|n IHn]; [done|]. cbn. unfold read_back at 1.
  rewrite Em, (Unmarshal_Marshal _ _ Hp Em). by f_equal.
Qed.

(** C36: Over any client, the publications that reach it are the payloads of the
    accepted signals, in order.  A subscription that is handed some of their
    messages, none out of order, decodes some of the accepted signals of its
    channels, in order, stamped where they had no time, each as the codec reads it
    back, which is unchanged when it is plain; one that is handed all of them
    decodes all that read back.  The in-memory client hands over the first
    [inbox_cap] of them to a subscriber that does not read meanwhile. *)
Theorem bus_end_to_end `{!SignalCodecLaws C} {B : BusClient} channels pubs :
  (forall c : client, publish_all pubs c = client_publishes (bus_publishes pubs) c) /\
  (forall raw, raw `sublist_of` messages_on channels pubs ->
    decode raw `sublist_of` omap read_back (signals_on channels pubs)) /\
  decode (messages_on channels pubs) = omap read_back (signals_on channels pubs) /\
  (Forall (fun '(now, ch, sig) => plain (stamped now sig)) pubs ->
    omap read_back (signals_on channels pubs) = signals_on channels pubs) /\
  (forall (f : FakeRedis) id, redis_ok f -> closed f = false -> channels <> [] -> inboxes f !! id = None ->
    exists f', publish_all (B := fake_client) pubs (FakeRedis.Subscribe id channels f).2 = Some f' /\
      buffer <$> inboxes f' !! id = Some (take inbox_cap (messages_on channels pubs))).
Proof.
  split_and!.
  - apply publish_all_calls.
  - intros raw Hr. rewrite <- decode_messages. by apply decode_sublist.
  - apply decode_messages.
  - apply plain_read_back.
  - intros f id Hok Hcl Hne Hfresh. destruct (Subscribe_ok id channels f Hok Hfresh) as (Hok' & Hcl' & _).
    destruct (run_spec (fake_calls (bus_publishes pubs)) _ Hok' (fake_calls_ok _ _)) as (f' & Hr & _ & H).
    exists f'. rewrite publish_all_calls, fake_run. split; [exact Hr|].
    assert (Hsub : inboxes (FakeRedis.Subscribe id channels f).2 !! id =
              Some {| in_channels := channels; buffer := []; open := true |}).
    { unfold FakeRedis.Subscribe. destruct channels; [done|]. rewrite Hcl. cbn. apply lookup_insert_eq. }
    rewrite (H id _ ltac:(clear; induction (bus_publishes pubs) as [|[ch p] l IH]; by constructor) Hsub eq_refl).
    cbn [fmap option_fmap option_map delivered buffer in_channels]. rewrite Hcl', Hcl. cbn [orb app].
    by rewrite fake_messages.
Qed.
End Bus.

(** ** A concrete codec *)

Definition toy_encode (sig : Signal) : string := SourceAgentID sig.

Definition toy_signal (s : string) : Signal := {|
  SourceAgentID := s; SignalType := "trend"; s_Sentiment := "bull"; s_Chain := "solana";
  TaskType := ""; Confidence := 0.5; Data := ""; PublishedAt := 7 |}.

Definition toy_codec : SignalCodec := {|
  Marshal := fun sig => Ok (toy_encode sig);
  Unmarshal := fun p => if str_eqb p "" then Fail (EMsg "json") else Ok (toy_signal p);
  plain := fun sig => sig = toy_signal (SourceAgentID sig) /\ SourceAgentID sig <> "" |}.

Lemma toy_codec_laws : SignalCodecLaws toy_codec.
Proof.
  split. intros sig p [Hs Hne] [= <-]. cbn. unfold str_eqb, toy_encode.
  rewrite bool_decide_eq_false_2 by done. by rewrite Hs at 2.
Qed.

Definition unstamped (s : string) : Signal := {|
  SourceAgentID := s; SignalType := "trend"; s_Sentiment := "bull"; s_Chain := "solana";
  TaskType := ""; Confidence := 0.5; Data := ""; PublishedAt := 0 |}.

Definition sample_pubs : list (Time * string * Signal) := [
  (7, SignalsChannel "solana" "bull", unstamped "a");
  (7, SignalsChannel "solana" "bear", unstamped "b");
  (7, ChannelWarnings, toy_signal "c");
  (9, SignalsChannel "solana" "bull", toy_signal "d") ].

Lemma validateSignal_spec_witness :
  exists err, Publish (C := toy_codec) (B := fake_client) 7 (SignalsChannel "solana" "bear") (unstamped "b") (Some NewFake) =
    Some (Some err, Some NewFake).
Proof.
  apply (validateSignal_spec (C := toy_codec) (B := fake_client) (SignalsChannel "solana" "bear") (unstamped "b") 7 NewFake).
  intros H. apply validateSignal_iff in H. vm_compute in H. discriminate.
Defined.

Lemma bus_end_to_end_witness :
  exists f', publish_all (C := toy_codec) (B := fake_client) sample_pubs
      (FakeRedis.Subscribe 0 [SignalsChannel "solana" "bull"] NewFake).2 = Some f' /\
    (fun ib => decode (C := toy_codec) (buffer ib)) <$> inboxes f' !! 0%nat =
      Some [toy_signal "a"; toy_signal "d"].
Proof.
  destruct (@bus_end_to_end toy_codec toy_codec_laws fake_client [SignalsChannel "solana" "bull"] sample_pubs)
    as (_ & _ & _ & _ & H).
  destruct (H NewFake 0%nat NewFake_ok eq_refl ltac:(discriminate) (lookup_empty _)) as (f' & Hp & Hd).
  exists f'. split; [exact Hp|]. destruct (inboxes f' !! 0%nat) as [ib|]; [|done]. injection Hd as Hd. cbn. rewrite Hd.
  vm_compute. reflexivity.
Defined.

(** Raw data that is not compact is accepted, and reads back compacted. *)
Definition spaced_codec : SignalCodec := {|
  Marshal := fun sig => Ok (String.string_of_list_ascii (List.filter (fun c => negb (Ascii.eqb c " ")) (String.list_ascii_of_string (Data sig))));
  Unmarshal := fun p => Ok {|
    SourceAgentID := "a"; SignalType := "trend"; s_Sentiment := ""; s_Chain := ""; TaskType := ""; Confidence := 0.5;
    Data := p; PublishedAt := 7 |};
  plain := fun _ => False |}.

Example data_compacted : exists sig, accepts (C := spaced_codec) 7 ChannelWarnings sig = true /\
  Data sig = "[1, 2]" /\ Data <$> read_back (C := spaced_codec) sig = Some "[1,2]".
Proof.
  exists {| SourceAgentID := "a"; SignalType := "trend"; s_Sentiment := ""; s_Chain := ""; TaskType := ""; Confidence := 0.5;
    Data := "[1, 2]"; PublishedAt := 7 |}. vm_compute. done.
Qed.

(** A confidence that is not a number is not out of range. *)
Lemma nan_confidence_accepted :
  validateSignal ChannelWarnings {|
    SourceAgentID := "a"; SignalType := "t"; s_Sentiment := ""; s_Chain := ""; TaskType := "";
    Confidence := (0 / 0)%float; Data := ""; PublishedAt := 0 |} = None.
Proof. reflexivity. Qed.
