(* ===== verification/Aggregator.v ===== *)
(** * The intel aggregator ([internal/intelligence/aggregator.go])

    Per-agent snapshots for the strategist's prompt: the best signal per source
    and type, weighted by the source's accuracy, the graph's edges around the
    agent's entities, and the cut to the token budget.  The feed and the
    accuracy tracker are interfaces. *)
From Stdlib Require Import ZArith Lia Ascii Floats Sorted.
From stdpp Require Import base list strings gmap sorting.
From S2P Require Import Prelude GoBase GoFmt GoFloat GoRound KnowledgeGraph AccuracyTracker FakeRedis IntelBus.
Set Warnings "-inexact-float".
Open Scope Z_scope.

Record SignalDigest := {
  sd_Source : string;
  sd_Type : string;
  sd_Sentiment : Sentiment;
  sd_Chain : string;
  sd_Confidence : float;
  sd_Accuracy : float;
  Weighted : float;
  sd_PublishedAt : Time;
  Summary : string;
}.

Record EdgeDigest := {
  ed_EntityA : string;
  ed_Relationship : string;
  ed_EntityB : string;
  ed_Direction : Direction;
  ed_Strength : float;
}.

Record SourceWeight := { sw_Source : string; sw_Weight : float }.

Record IntelSnapshot := {
  AgentID : string;
  GeneratedAt : Time;
  TopSignals : list SignalDigest;
  KnowledgeEdges : list EdgeDigest;
  SourceWeights : list SourceWeight;
  EstimatedTokens : Z;
  Truncated : bool;
}.

Record AggregatorConfig := {
  MaxSignals : Z;
  MaxEdges : Z;
  TokenBudget : Z;
  SignalFreshness : Duration;
}.

Definition withDefaults (c : AggregatorConfig) : AggregatorConfig := {|
  MaxSignals := if MaxSignals c <=? 0 then 10 else MaxSignals c;
  MaxEdges := if MaxEdges c <=? 0 then 8 else MaxEdges c;
  TokenBudget := if TokenBudget c <=? 0 then 1000 else TokenBudget c;
  SignalFreshness := if SignalFreshness c <=? 0 then 24 * Hour else SignalFreshness c |}.

(** ** The feed *)

(** Signals of a channel newer than an instant. *)
Class SignalFeed := { Recent : string -> Time -> list Signal }.

Class SignalFeedLaws (F : SignalFeed) := {
  Recent_fresh : forall ch since s, s ∈ Recent ch since -> since < PublishedAt s;
}.

Abbreviation feed_state := (gmap string (list Signal)) (only parsing).

Definition Append (channel : string) (sig : Signal) (f : feed_state) : feed_state :=
  <[channel := default [] (f !! channel) ++ [sig]]> f.

Definition memory_Recent {S : SliceSort} (f : feed_state) (channel : string) (since : Time) : list Signal :=
  sort_slice (fun a b => After (PublishedAt a) (PublishedAt b))
    (List.filter (fun s => After (PublishedAt s) since) (default [] (f !! channel))).

Definition memory_feed {S : SliceSort} (f : feed_state) : SignalFeed := {| Recent := memory_Recent f |}.

(** ** The weights *)

(** The tracker as the aggregator uses it: a weight per source, and a state
    that reading it moves on. *)
Class Weigher := {
  wstate : Type;
  weigh : string -> wstate -> float * wstate;
}.

Class WeigherLaws (W : Weigher) := {
  weights_ok : wstate -> Prop;
  weigh_unit : forall s w, weights_ok w -> in_unit (weigh s w).1 = true /\ weights_ok (weigh s w).2;
}.

(** The tracker with the clock readings its coming scores make. *)
Definition tracker_weigher (now : Time) : Weigher := {|
  wstate := AccuracyTracker * list Time;
  weigh := fun s w =>
    let clock := default now (head w.2) in
    let '(x, t) := Weight clock s w.1 in
    (x, (t, tail w.2)) |}.

Definition byte_ellipsis : string := byte_str [226; 128; 166]%N.

Definition summarise (s : Signal) : string :=
  if negb (str_eqb (Data s) "") then
    if 160 <? str_len (Data s) then str_take 160 (Data s) +:+ byte_ellipsis else Data s
  else SignalType s +:+ "/" +:+ s_Sentiment s.

Definition str_join (l : list string) : string := foldr (fun a b => a +:+ b) "" l.

Definition nl : string := String (ascii_of_N 10) "".

(** [IntelSnapshot.Render]. *)
Definition render_signal (s : SignalDigest) : string :=
  str_join ["- ["; sd_Sentiment s; "] "; sd_Chain s; "/"; sd_Type s; " from="; sd_Source s;
    " w="; fmt_f 2 (Weighted s); " (conf="; fmt_f 2 (sd_Confidence s); " "; byte_str [195; 151]%N;
    " src="; fmt_f 2 (sd_Accuracy s); ") "; Summary s; nl].

Definition render_edge (e : EdgeDigest) : string :=
  str_join ["- "; ed_EntityA e; " --"; ed_Relationship e; "("; ed_Direction e; ",";
    fmt_f 2 (ed_Strength e); ")--> "; ed_EntityB e; nl].

Definition Render (s : IntelSnapshot) : string :=
  str_join ["# Intel for "; AgentID s; " (generated "; FormatRFC3339 (GeneratedAt s); ")"; nl] +:+
  (if Truncated s then "_(truncated to fit token budget)_" +:+ nl else "") +:+
  nl +:+ "## Top signals" +:+ nl +:+
  (if (length (TopSignals s) =? 0)%nat then "(none)" +:+ nl else "") +:+
  str_join (render_signal <$> TopSignals s) +:+
  nl +:+ "## Known relationships" +:+ nl +:+
  (if (length (KnowledgeEdges s) =? 0)%nat then "(none)" +:+ nl else "") +:+
  str_join (render_edge <$> KnowledgeEdges s).

Definition estimateTokens (s : IntelSnapshot) : Z := str_len (Render s) / 4.

Definition weights_less (a b : SourceWeight) : bool :=
  if negb (sw_Weight a =? sw_Weight b)%float then (sw_Weight b <? sw_Weight a)%float
  else str_lt (sw_Source a) (sw_Source b).

Definition digests_less (a b : SignalDigest) : bool :=
  if negb (Weighted a =? Weighted b)%float then (Weighted b <? Weighted a)%float
  else if negb (sd_PublishedAt a =? sd_PublishedAt b)
    then After (sd_PublishedAt a) (sd_PublishedAt b)
  else str_lt (sd_Source a) (sd_Source b).

Definition edge_digests_less (a b : EdgeDigest) : bool :=
  if negb (ed_Strength a =? ed_Strength b)%float then (ed_Strength b <? ed_Strength a)%float
  else if negb (str_eqb (ed_EntityA a) (ed_EntityA b)) then str_lt (ed_EntityA a) (ed_EntityA b)
  else str_lt (ed_EntityB a) (ed_EntityB b).

(** The orders Go visits the maps of one call in. *)
Record orders := {
  best_order : range_order (string * string) SignalDigest;
  seen_order : range_order string float;
  graph_order : nat -> range_order edgeID Edge;
}.

Section Aggregator.
Context {S : SliceSort} {F : SignalFeed} {W : Weigher}.
Context (ord : orders).

Definition digest (s : Signal) (w : option wstate) : SignalDigest * option wstate :=
  let '(weight, w) := match w with
                      | Some st => let '(x, st) := weigh (SourceAgentID s) st in (x, Some st)
                      | None => (0.5%float, None)
                      end in
  ({| sd_Source := SourceAgentID s; sd_Type := SignalType s; sd_Sentiment := s_Sentiment s;
      sd_Chain := s_Chain s; sd_Confidence := Confidence s; sd_Accuracy := weight;
      Weighted := (Confidence s * weight)%float; sd_PublishedAt := PublishedAt s;
      Summary := summarise s |}, w).

Definition digest_key (d : SignalDigest) : string * string := (sd_Source d, sd_Type d).

(** Whether a digest takes the place of the best so far of its key. *)
Definition beats (d cur : SignalDigest) : bool :=
  (Weighted cur <? Weighted d)%float ||
  ((Weighted d =? Weighted cur)%float && After (sd_PublishedAt d) (sd_PublishedAt cur)).

Definition keep_best (best : gmap (string * string) SignalDigest) (d : SignalDigest)
    : gmap (string * string) SignalDigest :=
  match best !! digest_key d with
  | None => <[digest_key d := d]> best
  | Some cur => if beats d cur then <[digest_key d := d]> best else best
  end.

Fixpoint collect_loop (sigs : list Signal) (best : gmap (string * string) SignalDigest)
    (w : option wstate) : gmap (string * string) SignalDigest * option wstate :=
  match sigs with
  | [] => (best, w)
  | s :: sigs' => let '(d, w) := digest s w in collect_loop sigs' (keep_best best d) w
  end.

Definition collectSignals (cfg : AggregatorConfig) (channels : list string) (since : Time)
    (w : option wstate) : list SignalDigest * option wstate :=
  let '(best, w) := collect_loop (channels ≫= fun ch => Recent ch since) ∅ w in
  let out := sort_slice digests_less (best_order ord best).*2 in
  (take (Z.to_nat (MaxSignals cfg)) out, w).

Fixpoint edges_loop (i : nat) (g : KnowledgeGraph) (entities : list string) (seen : gset edgeID)
    : list EdgeDigest :=
  match entities with
  | [] => []
  | ent :: entities' =>
      (fix incident_loop (es : list Edge) (seen : gset edgeID) : list EdgeDigest :=
         match es with
         | [] => edges_loop (i + 1) g entities' seen
         | e :: es' =>
             let id := (Key e, e_Direction e) in
             if decide (id ∈ seen) then incident_loop es' seen
             else
               {| ed_EntityA := EntityA e; ed_Relationship := Relationship e; ed_EntityB := EntityB e;
                  ed_Direction := e_Direction e; ed_Strength := Strength e |}
               :: incident_loop es' ({[id]} ∪ seen)
         end) (Neighbors (graph_order ord i) ent g) seen
  end.

Definition collectEdges (cfg : AggregatorConfig) (g : KnowledgeGraph) (entities : list string)
    : list EdgeDigest :=
  match entities with
  | [] => []
  | _ => take (Z.to_nat (MaxEdges cfg)) (sort_slice edge_digests_less (edges_loop 0 g entities ∅))
  end.

Definition weightsAudit (sigs : list SignalDigest) : list SourceWeight :=
  let seen : gmap string float :=
    foldl (fun m s => <[sd_Source s := sd_Accuracy s]> m) ∅ sigs in
  sort_slice weights_less
    ((fun kv => {| sw_Source := kv.1; sw_Weight := kv.2 |}) <$> seen_order ord seen).

Definition with_lists (s : IntelSnapshot) (sigs : list SignalDigest) (es : list EdgeDigest)
    (truncated : bool) : IntelSnapshot := {|
  AgentID := AgentID s; GeneratedAt := GeneratedAt s; TopSignals := sigs; KnowledgeEdges := es;
  SourceWeights := SourceWeights s; EstimatedTokens := EstimatedTokens s; Truncated := truncated |}.

(** The loop of [enforceBudget]; it drops an item per turn. *)
Fixpoint enforce_loop (fuel : nat) (budget : Z) (s : IntelSnapshot) : IntelSnapshot :=
  match fuel with
  | O => s
  | Datatypes.S fuel' =>
      if estimateTokens s <=? budget then s
      else if (0 <? len (TopSignals s)) then
        enforce_loop fuel' budget
          (with_lists s (take (length (TopSignals s) - 1) (TopSignals s)) (KnowledgeEdges s) true)
      else if (0 <? len (KnowledgeEdges s)) then
        enforce_loop fuel' budget
          (with_lists s (TopSignals s) (take (length (KnowledgeEdges s) - 1) (KnowledgeEdges s)) true)
      else s
  end.

Definition finish (s : IntelSnapshot) : IntelSnapshot := {|
  AgentID := AgentID s; GeneratedAt := GeneratedAt s; TopSignals := TopSignals s;
  KnowledgeEdges := KnowledgeEdges s;
  SourceWeights := if Truncated s then weightsAudit (TopSignals s) else SourceWeights s;
  EstimatedTokens := estimateTokens s; Truncated := Truncated s |}.

Definition enforceBudget (cfg : AggregatorConfig) (s : IntelSnapshot) : IntelSnapshot :=
  finish (enforce_loop (Datatypes.S (length (TopSignals s) + length (KnowledgeEdges s)))
            (TokenBudget cfg) s).

(** [NewIntelAggregator] applies the defaults to the configuration. *)
Definition Summarize (cfg : AggregatorConfig) (now : Time) (agentID : string)
    (channels entities : list string) (has_feed : bool) (graph : option KnowledgeGraph)
    (w : option wstate) : IntelSnapshot * option wstate :=
  let cfg := withDefaults cfg in
  let since := Add now (- SignalFreshness cfg) in
  let '(sigs, w) := if has_feed then collectSignals cfg channels since w else ([], w) in
  let es := match graph with Some g => collectEdges cfg g entities | None => [] end in
  let snap := {| AgentID := agentID; GeneratedAt := now; TopSignals := sigs; KnowledgeEdges := es;
                 SourceWeights := weightsAudit sigs; EstimatedTokens := 0; Truncated := false |} in
  (enforceBudget cfg {|
     AgentID := AgentID snap; GeneratedAt := GeneratedAt snap; TopSignals := TopSignals snap;
     KnowledgeEdges := KnowledgeEdges snap; SourceWeights := SourceWeights snap;
     EstimatedTokens := estimateTokens snap; Truncated := Truncated snap |}, w).
End Aggregator.

(** ** The best signal per source and type *)

Definition not_nan (d : SignalDigest) : Prop := is_nan (Weighted d) = false.

Definition outweighs (d' d : SignalDigest) : Prop := (Weighted d <=? Weighted d')%float = true.

Lemma outweighs_rank d' d : not_nan d' -> not_nan d ->
  (outweighs d' d <-> frank (Weighted d) <= frank (Weighted d')).
Proof. intros H1 H2. unfold outweighs. rewrite fleb_rank by done. lia. Qed.

(** What [keep_best] has found among the digests [ds]. *)
Record best_of (ds : list SignalDigest) (best : gmap (string * string) SignalDigest) : Prop := {
  bo_from : forall k d, best !! k = Some d -> digest_key d = k /\ d ∈ ds;
  bo_all : forall d, d ∈ ds -> exists d', best !! digest_key d = Some d' /\ outweighs d' d;
}.

Lemma keep_best_step ds best d :
  Forall not_nan (ds ++ [d]) -> best_of ds best -> best_of (ds ++ [d]) (keep_best best d).
Proof.
  intros Hn [Hfrom Hall]. rewrite Forall_app in Hn. destruct Hn as [Hds Hd].
  apply Forall_cons in Hd as [Hd _]. rewrite Forall_forall in Hds.
  assert (Hself : outweighs d d) by (apply outweighs_rank; (done || lia)).
  assert (Hput : (forall cur, best !! digest_key d = Some cur -> outweighs d cur) ->
            best_of (ds ++ [d]) (<[digest_key d := d]> best)).
  { intros Hup. split.
    - intros k x. destruct (decide (digest_key d = k)) as [<-|Hne].
      + rewrite lookup_insert_eq. intros [= <-]. rewrite elem_of_app, list_elem_of_singleton. auto.
      + rewrite lookup_insert_ne by done. intros [? ?]%Hfrom. rewrite elem_of_app. auto.
    - intros x Hx. destruct (decide (digest_key d = digest_key x)) as [E|Hne].
      + rewrite <- E, lookup_insert_eq. exists d. split; [done|].
        apply elem_of_app in Hx as [Hx|Hx]; [|by apply list_elem_of_singleton in Hx as ->].
        destruct (Hall x Hx) as (x' & Hx' & Ho). rewrite <- E in Hx'.
        pose proof (Hup x' Hx') as Hu. pose proof (Hds x Hx). pose proof (Hds x' (proj2 (Hfrom _ _ Hx'))).
        rewrite outweighs_rank in * by done. lia.
      + rewrite lookup_insert_ne by done. apply elem_of_app in Hx as [Hx|Hx]; [by apply Hall|].
        by apply list_elem_of_singleton in Hx as ->. }
  unfold keep_best. destruct (best !! digest_key d) as [cur|] eqn:Ec; [|apply Hput; done].
  pose proof (Hds cur (proj2 (Hfrom _ _ Ec))) as Hcur. destruct (beats d cur) eqn:Eb.
  - apply Hput. intros cur' [= <-]. apply outweighs_rank; [done|done|]. unfold beats in Eb.
    rewrite fltb_rank, feqb_rank in Eb by done.
    destruct (Z.ltb_spec (frank (Weighted cur)) (frank (Weighted d))); [lia|].
    cbn in Eb. apply andb_prop in Eb as [Eb _]. lia.
  - split.
    + intros k x Hx. destruct (Hfrom k x Hx). rewrite elem_of_app. auto.
    + intros x Hx. apply elem_of_app in Hx as [Hx|Hx]; [by apply Hall|].
      apply list_elem_of_singleton in Hx as ->. exists cur. split; [done|].
      apply outweighs_rank; [done|done|]. unfold beats in Eb. apply orb_false_iff in Eb as [Eb _].
      rewrite fltb_rank in Eb by done. lia.
Qed.

Lemma keep_best_all ds2 : forall ds1 best,
  Forall not_nan (ds1 ++ ds2) -> best_of ds1 best -> best_of (ds1 ++ ds2) (foldl keep_best best ds2).
Proof.
  induction ds2 as [|d ds2 IH]; intros ds1 best Hn Hb; cbn; [by rewrite app_nil_r|].
  replace (ds1 ++ d :: ds2) with ((ds1 ++ [d]) ++ ds2) in * by (by rewrite <- app_assoc).
  apply IH; [done|]. apply keep_best_step; [|done]. by apply Forall_app in Hn as [? _].
Qed.

Lemma digests_less_weak : strict_weak not_nan digests_less.
Proof.
  apply (strict_weak_ext _ _
    (then_by (fun a b => (Weighted b <? Weighted a)%float)
    (then_by (fun a b => sd_PublishedAt b <? sd_PublishedAt a)
      (fun a b => str_lt (sd_Source a) (sd_Source b))))).
  - intros x y Hx Hy. unfold digests_less, then_by, After. rewrite float_chain by done. do 2 f_equal.
    destruct (Z.eqb_spec (sd_PublishedAt x) (sd_PublishedAt y)),
      (Z.ltb_spec (sd_PublishedAt y) (sd_PublishedAt x)),
      (Z.ltb_spec (sd_PublishedAt x) (sd_PublishedAt y)); cbn; (done || lia).
  - apply strict_weak_then; [by apply float_desc_weak|]. apply strict_weak_then; [|apply str_weak].
    by apply (strict_weak_desc _ _ sd_PublishedAt).
Qed.

Lemma digests_less_outweighs a b :
  not_nan a -> not_nan b -> digests_less b a = false -> outweighs a b.
Proof.
  intros Ha Hb. unfold digests_less. rewrite float_chain by done. intros [H _]%orb_false_iff.
  apply outweighs_rank; [done|done|]. rewrite fltb_rank in H by done. lia.
Qed.

(** The first [n] of the best digests, in order. *)
Record top_of (n : nat) (ds out : list SignalDigest) : Prop := {
  top_len : (length out <= n)%nat;
  top_keys : NoDup (digest_key <$> out);
  top_from : forall d, d ∈ out -> d ∈ ds;
  top_sorted : sorted_by digests_less out;
  top_best : forall d, d ∈ ds ->
    (exists d', d' ∈ out /\ digest_key d' = digest_key d /\ outweighs d' d) \/
    (length out = n /\ forall d', d' ∈ out -> outweighs d' d);
}.

Lemma best_elem ds best sorted : best_of ds best -> Permutation sorted (map_to_list best).*2 ->
  NoDup (digest_key <$> sorted) /\ forall d, d ∈ sorted <-> best !! digest_key d = Some d.
Proof.
  intros Hbest Hperm. split.
  - assert (E : digest_key <$> (map_to_list best).*2 = (map_to_list best).*1).
    { rewrite <- list_fmap_compose. apply list_fmap_ext. intros i [k x] Hx. cbn.
      apply list_elem_of_lookup_2, elem_of_map_to_list in Hx. by apply (bo_from _ _ Hbest). }
    rewrite Hperm, E. apply NoDup_fst_map_to_list.
  - intros d. rewrite Hperm, list_elem_of_fmap. split.
    + intros ([k x] & -> & Hx%elem_of_map_to_list). cbn.
      by destruct (bo_from _ _ Hbest k x Hx) as [<- _].
    + intros Hd. exists (digest_key d, d). split; [done|]. by apply elem_of_map_to_list.
Qed.

Lemma top_of_best n ds best sorted :
  Forall not_nan ds -> best_of ds best -> Permutation sorted (map_to_list best).*2 ->
  sorted_by digests_less sorted -> top_of n ds (take n sorted).
Proof.
  intros Hnn Hbest Hperm Hsort. destruct (best_elem ds best sorted Hbest Hperm) as [Hkeys Hin].
  rewrite Forall_forall in Hnn. pose proof (take_drop n sorted) as Htd.
  assert (Hsub : forall d, d ∈ take n sorted -> d ∈ ds).
  { intros d Hd. assert (Hs : d ∈ sorted) by (rewrite <- Htd; apply elem_of_app; by left).
    apply Hin in Hs. by apply (bo_from _ _ Hbest) in Hs as [_ ?]. }
  split.
  - rewrite length_take. lia.
  - rewrite <- Htd, fmap_app in Hkeys. by apply NoDup_app in Hkeys as [? _].
  - done.
  - unfold sorted_by in *. rewrite <- Htd in Hsort. by apply StronglySorted_app_1_l in Hsort.
  - intros d Hd. destruct (bo_all _ _ Hbest d Hd) as (d' & Hd' & Ho).
    destruct (bo_from _ _ Hbest _ _ Hd') as [Hk Hd'in].
    assert (Hs : d' ∈ sorted) by (apply Hin; by rewrite Hk).
    rewrite <- Htd in Hs. apply elem_of_app in Hs as [Hs|Hs]; [left; by exists d'|right].
    assert (Hlen : (n < length sorted)%nat).
    { destruct (Nat.lt_ge_cases n (length sorted)); [done|].
      rewrite drop_ge in Hs by done. by apply not_elem_of_nil in Hs. }
    split; [rewrite length_take; lia|]. intros x Hx. pose proof (Hsub x Hx) as Hxs.
    rewrite <- Htd in Hsort. pose proof (sorted_by_app _ _ _ x d' Hsort Hx Hs) as Hle.
    apply digests_less_outweighs in Hle; [|by apply Hnn|by apply Hnn].
    pose proof (Hnn x Hxs). pose proof (Hnn d Hd). pose proof (Hnn d' Hd'in).
    rewrite outweighs_rank in * by done. lia.
Qed.

Section Collect.
Context {S : SliceSort} {F : SignalFeed} {W : Weigher}.
Context {SL : SliceSortLaws S} {FL : SignalFeedLaws F} {WL : WeigherLaws W}.
Context (ord : orders) (Hord : range_ok (best_order ord)).

(** The digests a call considers, in the order it considers them. *)
Fixpoint digest_all (sigs : list Signal) (w : option wstate) : list SignalDigest * option wstate :=
  match sigs with
  | [] => ([], w)
  | s :: sigs' =>
      let '(d, w) := digest s w in
      let '(ds, w) := digest_all sigs' w in
      (d :: ds, w)
  end.

Definition tracked (w : option wstate) : Prop := forall st, w = Some st -> weights_ok st.

Lemma collect_loop_fold sigs : forall best w,
  collect_loop sigs best w =
    (foldl keep_best best (digest_all sigs w).1, (digest_all sigs w).2).
Proof.
  induction sigs as [|s sigs IH]; intros best w; cbn [collect_loop digest_all]; [done|].
  destruct (digest s w) as [d w1]. rewrite IH. by destruct (digest_all sigs w1).
Qed.

Lemma digest_spec s w : in_unit (Confidence s) = true -> tracked w ->
  in_unit (Weighted (digest s w).1) = true /\ sd_PublishedAt (digest s w).1 = PublishedAt s /\
  tracked (digest s w).2.
Proof.
  intros Hc Hw. unfold digest. destruct w as [st|].
  - destruct (weigh_unit (SourceAgentID s) st (Hw st eq_refl)) as [Hu Hok].
    destruct (weigh (SourceAgentID s) st) as [x st']. cbn [fst snd Weighted sd_PublishedAt] in *.
    split; [by apply fmul_in_unit|]. split; [done|]. by intros ? [= <-].
  - cbn [fst snd Weighted sd_PublishedAt]. split; [by apply fmul_in_unit|done].
Qed.

Lemma digest_all_spec since sigs : forall w,
  (forall s, s ∈ sigs -> in_unit (Confidence s) = true /\ since < PublishedAt s) -> tracked w ->
  Forall (fun d => in_unit (Weighted d) = true /\ since < sd_PublishedAt d) (digest_all sigs w).1.
Proof.
  induction sigs as [|s sigs IH]; intros w Hs Hw; cbn [digest_all]; [constructor|].
  destruct (Hs s) as [Hc Hp]; [left|]. pose proof (digest_spec s w Hc Hw) as (H1 & H2 & H3).
  destruct (digest s w) as [d w1]. cbn [fst snd] in *.
  specialize (IH w1 ltac:(intros; apply Hs; by right) H3).
  destruct (digest_all sigs w1) as [ds w2]. cbn [fst] in *. constructor; [by rewrite H2|done].
Qed.

(** The signals a snapshot starts from are at most the configured number,
    one per source and type, each of a fresh signal of a subscribed channel,
    in the order of their weight; and a signal that was considered is
    outweighed by the entry of its own key, or the list is full and every
    entry outweighs it. *)
Theorem collectSignals_spec cfg channels since w :
  tracked w ->
  (forall ch s, s ∈ Recent ch since -> in_unit (Confidence s) = true) ->
  let ds := (digest_all (channels ≫= fun ch => Recent ch since) w).1 in
  let out := (collectSignals ord cfg channels since w).1 in
  top_of (Z.to_nat (MaxSignals cfg)) ds out /\
  forall d, d ∈ out -> in_unit (Weighted d) = true /\ since < sd_PublishedAt d.
Proof.
  intros Hw Hconf ds out. set (sigs := channels ≫= fun ch => Recent ch since) in *.
  assert (Hds : Forall (fun d => in_unit (Weighted d) = true /\ since < sd_PublishedAt d) ds).
  { apply digest_all_spec; [|done]. intros s Hs. apply list_elem_of_bind in Hs as (ch & Hs & _).
    split; [by apply (Hconf ch)|by apply (Recent_fresh ch)]. }
  assert (Hnn : Forall not_nan ds).
  { eapply Forall_impl; [exact Hds|]. intros d [Hu _]. by apply in_unit_rank in Hu as [? _]. }
  set (best := foldl keep_best ∅ ds).
  assert (Hbest : best_of ds best).
  { apply (keep_best_all ds []); [done|]. split; [intros ??; by rewrite lookup_empty|].
    intros d Hd. by apply not_elem_of_nil in Hd. }
  assert (Hout : out = take (Z.to_nat (MaxSignals cfg))
                         (sort_slice digests_less (best_order ord best).*2)).
  { unfold out, collectSignals. fold sigs. by rewrite collect_loop_fold. }
  assert (Htop : top_of (Z.to_nat (MaxSignals cfg)) ds out).
  { rewrite Hout. apply (top_of_best _ _ best); [done|done| |].
    - rewrite sort_slice_perm. by rewrite (Hord best).
    - apply (sort_slice_sorted not_nan); [apply digests_less_weak|].
      rewrite (Hord best), Forall_fmap. apply Forall_forall. intros [k x] Hx%elem_of_map_to_list.
      cbn. rewrite Forall_forall in Hnn. apply Hnn. by apply (bo_from _ _ Hbest k x). }
  split; [done|]. intros d Hd. rewrite Forall_forall in Hds. by apply Hds, (top_from _ _ _ Htop).
Qed.
End Collect.

(** ** The token budget *)

(** The snapshot without its last [k] items: signals first, then edges. *)
Definition cut (k : nat) (s : IntelSnapshot) : IntelSnapshot :=
  with_lists s (take (length (TopSignals s) - k) (TopSignals s))
    (take (length (KnowledgeEdges s) - (k - length (TopSignals s))) (KnowledgeEdges s))
    (Truncated s || (0 <? k)%nat).

Definition items (s : IntelSnapshot) : nat := length (TopSignals s) + length (KnowledgeEdges s).

Lemma cut_0 s : cut 0 s = s.
Proof.
  destruct s as [a g S E w t b]. unfold cut, with_lists. cbn. rewrite !Nat.sub_0_r, !take_ge by lia.
  by rewrite orb_false_r.
Qed.

(** One turn of the loop: an item less, or none left. *)
Definition drop_one (s : IntelSnapshot) : option IntelSnapshot :=
  if 0 <? len (TopSignals s) then
    Some (with_lists s (take (length (TopSignals s) - 1) (TopSignals s)) (KnowledgeEdges s) true)
  else if 0 <? len (KnowledgeEdges s) then
    Some (with_lists s (TopSignals s) (take (length (KnowledgeEdges s) - 1) (KnowledgeEdges s)) true)
  else None.

Lemma drop_one_spec s :
  match drop_one s with
  | Some s' => items s = Datatypes.S (items s') /\ forall k, cut k s' = cut (Datatypes.S k) s
  | None => items s = 0%nat
  end.
Proof.
  destruct s as [a g S E w t b]. unfold drop_one, items, cut, with_lists, len. cbn.
  destruct (Z.ltb_spec 0 (Z.of_nat (length S))).
  - cbn. rewrite !length_take. split; [lia|]. intros k. f_equal.
    + rewrite take_take. f_equal. lia.
    + f_equal. lia.
    + by destruct b.
  - destruct (Z.ltb_spec 0 (Z.of_nat (length E))); cbn; [|lia].
    rewrite !length_take. split; [lia|]. intros k. f_equal.
    + destruct S; [by rewrite !take_nil|cbn in *; lia].
    + rewrite take_take. f_equal. lia.
    + by destruct b.
Qed.

Lemma enforce_loop_spec fuel budget : forall s,
  (items s < fuel)%nat ->
  exists k, enforce_loop fuel budget s = cut k s /\ (k <= items s)%nat /\
    (forall j, (j < k)%nat -> budget < estimateTokens (cut j s)) /\
    (estimateTokens (cut k s) <= budget \/ k = items s).
Proof.
  induction fuel as [|fuel IH]; intros s Hf; [lia|]. cbn [enforce_loop].
  destruct (Z.leb_spec (estimateTokens s) budget) as [Hb|Hb].
  { exists 0%nat. rewrite cut_0. split; [done|]. split; [lia|]. split; [lia|by left]. }
  pose proof (drop_one_spec s) as Hd.
  assert (Hstep : forall s', drop_one s = Some s' -> exists k, enforce_loop fuel budget s' = cut k s /\
    (k <= items s)%nat /\ (forall j, (j < k)%nat -> budget < estimateTokens (cut j s)) /\
    (estimateTokens (cut k s) <= budget \/ k = items s)).
  { intros s' E. rewrite E in Hd. destruct Hd as [Hi Hc].
    destruct (IH s' ltac:(lia)) as (k & -> & Hk & Hj & Hend). exists (Datatypes.S k).
    rewrite Hc. split; [done|]. split; [lia|]. split.
    - intros [|j] Hlt; [by rewrite cut_0|]. rewrite <- Hc. apply Hj. lia.
    - rewrite <- Hc. destruct Hend; [by left|right; lia]. }
  unfold drop_one in *. destruct (0 <? len (TopSignals s)); [by apply Hstep|].
  destruct (0 <? len (KnowledgeEdges s)); [by apply Hstep|].
  exists 0%nat. rewrite cut_0. split; [done|]. split; [lia|]. split; [lia|by right].
Qed.

(** Cutting a snapshot to the budget drops the last signals, and edges only
    once no signal is left, one at a time and no more than needed: every
    longer cut exceeds the budget, and the result fits it unless nothing is
    left to drop.  The estimate and the flag reported are the result's own. *)
Theorem enforceBudget_spec {S : SliceSort} ord cfg s :
  exists k, (k <= items s)%nat /\
    let r := enforceBudget ord cfg s in
    TopSignals r = take (length (TopSignals s) - k) (TopSignals s) /\
    KnowledgeEdges r =
      take (length (KnowledgeEdges s) - (k - length (TopSignals s))) (KnowledgeEdges s) /\
    Truncated r = Truncated s || (0 <? k)%nat /\
    EstimatedTokens r = estimateTokens r /\
    (forall j, (j < k)%nat -> TokenBudget cfg < estimateTokens (cut j s)) /\
    (EstimatedTokens r <= TokenBudget cfg \/ (TopSignals r = [] /\ KnowledgeEdges r = [])).
Proof.
  destruct (enforce_loop_spec (Datatypes.S (items s)) (TokenBudget cfg) s) as (k & E & Hk & Hj & Hend);
    [lia|].
  exists k. split; [done|]. unfold enforceBudget. fold (items s). rewrite E.
  split; [done|]. split; [done|]. split; [done|]. split; [done|]. split; [done|].
  destruct Hend as [Hend | ->]; [by left|right]. cbn. unfold items. split.
  - by replace (length (TopSignals s) - _)%nat with 0%nat by lia.
  - by replace (length (KnowledgeEdges s) - _)%nat with 0%nat by lia.
Qed.

(** ** The interfaces' instances *)

Lemma memory_feed_laws {S : SliceSort} {L : SliceSortLaws S} f : SignalFeedLaws (memory_feed f).
Proof.
  split. intros ch since s. cbn. unfold memory_Recent. rewrite sort_slice_perm, list_elem_of_In.
  intros [_ H]%List.filter_In. unfold After in H. lia.
Qed.

#[export] Program Instance tracker_weigher_laws now : WeigherLaws (tracker_weigher now) := {|
  weights_ok := fun w => forall s, len (outcomes w.1 s) < 2 ^ 53 |}.
Next Obligation.
  intros now s [t clocks] Hw. cbn [weigh tracker_weigher fst snd] in *.
  pose proof (Weight_unit (default now (head clocks)) s t (Hw s)) as Hu.
  pose proof (Weight_outcomes (default now (head clocks)) s t) as Hl.
  destruct (Weight _ s t) as [x t']. cbn [fst snd] in *. split; [done|].
  intros s'. specialize (Hl s'). specialize (Hw s'). lia.
Qed.

(** Every signal of the feed reports a probability. *)
Definition confident (f : feed_state) : Prop :=
  forall ch, Forall (fun s => in_unit (Confidence s) = true) (default [] (f !! ch)).

Lemma Append_confident ch sig f :
  in_unit (Confidence sig) = true -> confident f -> confident (Append ch sig f).
Proof.
  intros Hs Hf ch'. unfold Append. destruct (decide (ch = ch')) as [<-|Hne].
  - rewrite lookup_insert_eq. apply Forall_app_single; [apply Hf|done].
  - rewrite lookup_insert_ne by done. apply Hf.
Qed.

Lemma memory_confidences {S : SliceSort} {L : SliceSortLaws S} f ch since s :
  confident f -> s ∈ @Recent (memory_feed f) ch since -> in_unit (Confidence s) = true.
Proof.
  intros Hf. cbn. unfold memory_Recent. rewrite sort_slice_perm, list_elem_of_In.
  intros [Hin _]%List.filter_In. specialize (Hf ch). rewrite Forall_forall in Hf.
  apply Hf. by apply list_elem_of_In.
Qed.

Definition sample_feed : feed_state :=
  let bull := SignalsChannel "solana" "bull" in
  Append bull (toy_signal "d")
    (Append ChannelWarnings (toy_signal "c") (Append bull (toy_signal "a") ∅)).

Definition sample_orders : orders := {|
  best_order := fun m => map_to_list m; seen_order := fun m => map_to_list m;
  graph_order := fun _ => listed |}.

Definition small_config : AggregatorConfig := {|
  MaxSignals := 2; MaxEdges := 0; TokenBudget := 60; SignalFreshness := 0 |}.

Definition sample_summary : IntelSnapshot * option (@wstate (tracker_weigher 20)) :=
  Summarize (S := insertion_slice_sort) (F := memory_feed (S := insertion_slice_sort) sample_feed)
    (W := tracker_weigher 20) sample_orders small_config 20 "agent"
    [SignalsChannel "solana" "bull"; ChannelWarnings] ["SOL"] true (Some sample_graph)
    (Some (NewAccuracyTracker 0, [])).

(** Within a budget of sixty tokens no signal is left, and both edges are. *)
Example sample_summary_ex :
  length (TopSignals sample_summary.1) = 0%nat /\
  length (KnowledgeEdges sample_summary.1) = 2%nat /\
  Truncated sample_summary.1 = true /\ EstimatedTokens sample_summary.1 = 53.
Proof. vm_compute. repeat split. Qed.

Lemma collectSignals_spec_witness :
  let F := memory_feed (S := insertion_slice_sort) sample_feed in
  let out := (collectSignals (S := insertion_slice_sort) (F := F) (W := tracker_weigher 20) sample_orders
    small_config [SignalsChannel "solana" "bull"; ChannelWarnings] 5
    (Some (NewAccuracyTracker 0, []))).1 in
  NoDup (digest_key <$> out) /\ length out = 2%nat.
Proof.
  intros F out. split; [|vm_compute; reflexivity].
  refine (top_keys _ _ _ (proj1 (@collectSignals_spec insertion_slice_sort F (tracker_weigher 20)
    insertion_slice_sort_laws (@memory_feed_laws _ insertion_slice_sort_laws sample_feed)
    (tracker_weigher_laws 20) sample_orders _ small_config
    [SignalsChannel "solana" "bull"; ChannelWarnings] 5 (Some (NewAccuracyTracker 0, [])) _ _))).
  - intros m. done.
  - intros st [= <-] s. unfold outcomes. cbn [bySource NewAccuracyTracker fst].
    rewrite lookup_empty. reflexivity.
  - intros ch' s. apply (@memory_confidences _ insertion_slice_sort_laws).
    apply Append_confident; [reflexivity|]. apply Append_confident; [reflexivity|].
    apply Append_confident; [reflexivity|]. intros ch. rewrite lookup_empty. constructor.
Defined.

(** The digest kept for a source and type is the heaviest, however old, and
    not the most recent. *)
Lemma older_signal_kept :
  let sig (t : Time) (c : float) := {|
    SourceAgentID := "a"; SignalType := "trend"; s_Sentiment := "bull"; s_Chain := "solana";
    TaskType := ""; Confidence := c; Data := ""; PublishedAt := t |} in
  let f := Append "ch" (sig 19 0.2%float) (Append "ch" (sig 6 0.9%float) ∅) in
  sd_PublishedAt <$> (collectSignals (S := insertion_slice_sort)
    (F := memory_feed (S := insertion_slice_sort) f) (W := tracker_weigher 20) sample_orders
    small_config ["ch"] 5 None).1 = [6].
Proof. vm_compute. reflexivity. Qed.
