(* ===== verification/Diversity.v ===== *)
(** * Diversity of the swarm ([internal/orchestrator/diversity.go])

    The Gini-Simpson score over (task, chain, model) triples, summed in the
    order Go visits the counts, and the bonus of a candidate. *)
From Stdlib Require Import ZArith Lia Floats.
From stdpp Require Import base list strings gmap.
From S2P Require Import Prelude GoBase GoFloat GoRound Genome.
Set Warnings "-inexact-float".
Open Scope Z_scope.

Definition tripleKey (task chain model : string) : string :=
  task +:+ "|" +:+ chain +:+ "|" +:+ model.

Definition genome_key (g : AgentGenome) : string := tripleKey (TaskType g) (Chain g) (StrategistModel g).

Definition tripleCounts (swarm : list AgentGenome) : gmap string Z :=
  foldl (fun out g => <[genome_key g := default 0 (out !! genome_key g) + 1]> out) ∅ swarm.

Definition DiversityScore (range : range_order string Z) (swarm : list AgentGenome) : float :=
  if len swarm <=? 1 then 0%float
  else
    let total := float_of_int (len swarm) in
    let sumSq := foldl (fun sumSq '(_, c) =>
                   let p := (float_of_int c / total)%float in (sumSq + p * p)%float)
                 0%float (range (tripleCounts swarm)) in
    (1 - sumSq)%float.

Definition matches (candidate : AgentGenome) (swarm : list AgentGenome) : Z :=
  len (List.filter (fun g => str_eqb (genome_key g) (genome_key candidate)) swarm).

Definition DiversityBonus (candidate : AgentGenome) (swarm : list AgentGenome) : float :=
  if len swarm =? 0 then 1%float
  else (1 - float_of_int (matches candidate swarm) / float_of_int (len swarm))%float.

(** The counts are the multiplicities of the triples. *)
Lemma tripleCounts_spec swarm k :
  default 0 (tripleCounts swarm !! k) =
    len (List.filter (fun g => str_eqb (genome_key g) k) swarm).
Proof.
  unfold tripleCounts.
  assert (H : forall m, default 0 (foldl (fun (out : gmap string Z) g =>
      <[genome_key g := default 0 (out !! genome_key g) + 1]> out) m swarm !! k) =
    default 0 (m !! k) + len (List.filter (fun g => str_eqb (genome_key g) k) swarm)).
  { induction swarm as [|g swarm IH]; intros m; cbn [foldl List.filter]; [unfold len; cbn; lia|].
    rewrite IH. unfold str_eqb. destruct (bool_decide_reflect (genome_key g = k)) as [<-|Hne].
    - rewrite lookup_insert_eq. unfold len. cbn. lia.
    - by rewrite lookup_insert_ne. }
  by rewrite H, lookup_empty.
Qed.

(** The bonus is a number between zero and one. *)
Lemma DiversityBonus_unit candidate swarm :
  len swarm < 2 ^ 53 -> in_unit (DiversityBonus candidate swarm) = true.
Proof.
  intros Hlen. unfold DiversityBonus. destruct (Z.eqb_spec (len swarm) 0) as [|Hne]; [reflexivity|].
  assert (Hn : 0 < len swarm) by (unfold len in *; lia).
  assert (Hm : 0 <= matches candidate swarm <= len swarm).
  { unfold matches, len. pose proof (List.filter_length_le
      (fun g => str_eqb (genome_key g) (genome_key candidate)) swarm). lia. }
  assert (Im : in_int64 (matches candidate swarm)) by (unfold in_int64, min_int64, max_int64; lia).
  assert (In : in_int64 (len swarm)) by (unfold in_int64, min_int64, max_int64; lia).
  pose proof (pow2_pos 1074 ltac:(lia)) as Hp.
  assert (Hu : in_unit (float_of_int (matches candidate swarm) / float_of_int (len swarm))%float = true).
  { apply fdiv_unit; [by apply float_of_int_fin|by apply float_of_int_fin| |];
      rewrite ?(float_of_int_exact (matches candidate swarm)), (float_of_int_exact (len swarm)) by lia; nia. }
  pose proof (in_unit_fin _ Hu) as Hf. apply in_unit_rank in Hu as [_ Hu].
  destruct (fsub_le 1%float _ eq_refl Hf Hu) as [H1 H2]. apply in_unit_rank.
  split; [by apply is_fin_not_nan|done].
Qed.
