(* ===== verification/JsonExtract.v ===== *)
(** * Finding the JSON object in a model's answer
      ([extractJSONObject] of [internal/orchestrator/quality_check.go] and, the
      same code, of [internal/agent/strategist.go])

    The scanner follows string literals and escapes so that braces inside
    strings do not count; the grammar below says what it finds. *)
From Stdlib Require Import ZArith Lia Ascii.
From stdpp Require Import base list strings.
From S2P Require Import Prelude GoBase.
Open Scope Z_scope.

Definition lbrace : ascii := ascii_of_N 123.
Definition rbrace : ascii := ascii_of_N 125.
Definition dquote : ascii := ascii_of_N 34.
Definition backslash : ascii := ascii_of_N 92.

(** [strings.IndexByte]. *)
Fixpoint IndexByte (s : string) (c : ascii) : option nat :=
  match s with
  | EmptyString => None
  | String d s' => if Ascii.eqb d c then Some 0%nat else S <$> IndexByte s' c
  end.

(** The loop from [start] on: how many bytes up to the brace that closes. *)
Fixpoint scan_object (s : string) (depth : Z) (inString escape : bool) : option nat :=
  match s with
  | EmptyString => None
  | String c s' =>
      S <$>
      (if escape then scan_object s' depth inString false
       else if inString then
         scan_object s' depth (negb (Ascii.eqb c dquote)) (Ascii.eqb c backslash)
       else if Ascii.eqb c dquote then scan_object s' depth true false
       else if Ascii.eqb c lbrace then scan_object s' (depth + 1) false false
       else if Ascii.eqb c rbrace then
         if depth - 1 =? 0 then Some 0%nat else scan_object s' (depth - 1) false false
       else scan_object s' depth false false)
  end.

Definition extractJSONObject (s : string) : string :=
  match IndexByte s lbrace with
  | None => ""
  | Some start =>
      let t := str_drop start s in
      match scan_object t 0 false false with
      | Some n => str_take n t
      | None => ""
      end
  end.

(** [truncate]. *)
Definition truncate (s : string) (n : nat) : string :=
  if (String.length s <=? n)%nat then s else str_take n s +:+ "...".

(** ** What it finds *)

(** The rest of a string literal, with its closing quote. *)
Inductive str_body : string -> Prop :=
  | sb_end : str_body (String dquote "")
  | sb_escape c s : str_body s -> str_body (String backslash (String c s))
  | sb_char c s : c <> dquote -> c <> backslash -> str_body s -> str_body (String c s).

(** Text whose literals end and whose braces balance. *)
Inductive items : string -> Prop :=
  | it_nil : items ""
  | it_char c s : c <> dquote -> c <> lbrace -> c <> rbrace -> items s -> items (String c s)
  | it_str t s : str_body t -> items s -> items (String dquote (t +:+ s))
  | it_obj i s : items i -> items s -> items (String lbrace (i +:+ String rbrace s)).

(** A braced object. *)
Definition object (o : string) : Prop := exists i, items i /\ o = String lbrace (i +:+ String rbrace "").

Lemma str_app_nil (a : string) : a +:+ "" = a.
Proof. induction a as [|x a IH]; [done|]. rewrite str_app_cons. by rewrite IH. Qed.

Lemma plus_fmap (n m : nat) (o : option nat) :
  (fun k => n + k)%nat <$> ((fun k => m + k)%nat <$> o) = (fun k => (n + m) + k)%nat <$> o.
Proof. destruct o; cbn; [|done]. by rewrite Nat.add_assoc. Qed.

Lemma scan_str_body t : str_body t -> forall rest d,
  scan_object (t +:+ rest) d true false = (fun k => String.length t + k)%nat <$> scan_object rest d false false.
Proof.
  induction 1 as [|c s _ IH|c s Hq Hb _ IH]; intros rest d; rewrite ?str_app_cons.
  - cbn [scan_object]. rewrite Ascii.eqb_refl. cbn [negb].
    replace (Ascii.eqb dquote backslash) with false by reflexivity. by destruct (scan_object _ _ _ _).
  - cbn [scan_object]. rewrite Ascii.eqb_refl.
    replace (Ascii.eqb backslash dquote) with false by reflexivity. cbn [negb]. rewrite IH.
    by destruct (scan_object _ _ _ _).
  - cbn [scan_object]. apply Ascii.eqb_neq in Hq as ->, Hb as ->. cbn [negb]. rewrite IH.
    by destruct (scan_object _ _ _ _).
Qed.

Lemma scan_items i : items i -> forall rest d, 1 <= d ->
  scan_object (i +:+ rest) d false false = (fun k => String.length i + k)%nat <$> scan_object rest d false false.
Proof.
  induction 1 as [|c s Hq Hl Hr _ IH|t s Ht _ IH|i s _ IHi _ IHs]; intros rest d Hd.
  - change ("" +:+ rest) with rest. by destruct (scan_object _ _ _ _).
  - rewrite str_app_cons. cbn [scan_object].
    apply Ascii.eqb_neq in Hq as ->, Hl as ->, Hr as ->. rewrite IH by done.
    by destruct (scan_object _ _ _ _).
  - rewrite str_app_cons, <- str_app_assoc. cbn [scan_object]. rewrite Ascii.eqb_refl.
    rewrite scan_str_body, IH, plus_fmap by done.
    destruct (scan_object rest d false false); cbn; [|done]. f_equal. rewrite str_len_app. lia.
  - rewrite str_app_cons, <- str_app_assoc, str_app_cons. cbn [scan_object].
    replace (Ascii.eqb lbrace dquote) with false by reflexivity. rewrite Ascii.eqb_refl.
    rewrite IHi by lia. cbn [scan_object].
    replace (Ascii.eqb rbrace dquote) with false by reflexivity.
    replace (Ascii.eqb rbrace lbrace) with false by reflexivity. rewrite Ascii.eqb_refl.
    replace (d + 1 - 1) with d by lia. replace (d =? 0) with false by lia. rewrite IHs by done.
    destruct (scan_object rest d false false); cbn; [|done]. f_equal. rewrite !str_len_app. cbn. lia.
Qed.

Lemma scan_object_complete o rest : object o ->
  scan_object (o +:+ rest) 0 false false = Some (String.length o).
Proof.
  intros (i & Hi & ->). rewrite str_app_cons, <- str_app_assoc, str_app_cons. cbn [scan_object].
  replace (Ascii.eqb lbrace dquote) with false by reflexivity. rewrite Ascii.eqb_refl.
  rewrite (scan_items i Hi) by lia. cbn [scan_object].
  replace (Ascii.eqb rbrace dquote) with false by reflexivity.
  replace (Ascii.eqb rbrace lbrace) with false by reflexivity. rewrite Ascii.eqb_refl.
  replace (0 + 1 - 1) with 0 by lia. cbn. do 2 f_equal. rewrite str_len_app. cbn. lia.
Qed.

(** Text that closes [d] open braces, the last byte the last of them. *)
Inductive closes : nat -> string -> Prop :=
  | cl_one i : items i -> closes 1 (i +:+ String rbrace "")
  | cl_more d i u : items i -> closes d u -> closes (S d) (i +:+ String rbrace u).

Lemma closes_item d u (p : string) :
  (forall i, items i -> items (p +:+ i)) -> closes d u -> closes d (p +:+ u).
Proof.
  intros Hp Hc. destruct Hc as [i Hi|d i u Hi Hc]; rewrite str_app_assoc; constructor; auto.
Qed.

Lemma closes_open d u : closes (S (S d)) u -> closes (S d) (String lbrace u).
Proof.
  intros Hc. remember (S (S d)) as n eqn:En. destruct Hc as [i Hi|n i u Hi Hc]; [done|].
  injection En as ->. apply (closes_item (S d) u (String lbrace (i +:+ String rbrace ""))) in Hc.
  - rewrite str_app_cons, <- str_app_assoc, str_app_cons in Hc. exact Hc.
  - intros j Hj. rewrite str_app_cons, <- str_app_assoc, str_app_cons. by constructor.
Qed.

(** The bytes the scan consumes, by the state it starts in. *)
Definition consumed (d : nat) (inString escape : bool) (u : string) : Prop :=
  if inString then
    exists t u', closes d u' /\ u = t +:+ u' /\
      if escape then exists c t', t = String c t' /\ str_body t' else str_body t
  else closes d u.

Lemma scan_object_sound s : forall d inString escape n,
  (1 <= d)%nat -> (escape = true -> inString = true) ->
  scan_object s (Z.of_nat d) inString escape = Some n ->
  exists u rest, s = u +:+ rest /\ String.length u = n /\ consumed d inString escape u.
Proof.
  induction s as [|c s IH]; intros d inString escape n Hd He H; [done|]. cbn [scan_object] in H.
  assert (Hcons : forall d' i' e' n', (1 <= d')%nat -> (e' = true -> i' = true) ->
    S <$> scan_object s (Z.of_nat d') i' e' = Some n' ->
    exists u rest, String c s = String c u +:+ rest /\ String.length (String c u) = n' /\ consumed d' i' e' u).
  { intros d' i' e' n' Hd' He' E. destruct (scan_object s (Z.of_nat d') i' e') eqn:Es; [|done].
    injection E as <-. destruct (IH d' i' e' _ Hd' He' Es) as (u & rest & -> & <- & Hu).
    by exists u, rest. }
  destruct escape.
  { rewrite (He eq_refl) in *. destruct (Hcons d true false n Hd ltac:(done) H) as (u & rest & E & Hl & Hu).
    exists (String c u), rest. split; [done|]. split; [done|].
    destruct Hu as (t & u' & Hc & -> & Ht). exists (String c t), u'. split; [done|]. split; [done|].
    by exists c, t. }
  destruct inString.
  { destruct (Ascii.eqb_spec c dquote) as [->|Hq].
    - replace (Ascii.eqb dquote backslash) with false in H by reflexivity. cbn [negb] in H.
      destruct (Hcons d false false n Hd ltac:(done) H) as (u & rest & E & Hl & Hu).
      exists (String dquote u), rest. split; [done|]. split; [done|].
      exists (String dquote ""), u. split; [done|]. split; [done|constructor].
    - cbn [negb] in H. destruct (Ascii.eqb_spec c backslash) as [->|Hb].
      + destruct (Hcons d true true n Hd ltac:(done) H) as (u & rest & E & Hl & Hu).
        exists (String backslash u), rest. split; [done|]. split; [done|].
        destruct Hu as (t & u' & Hc & -> & c & t' & -> & Ht).
        exists (String backslash (String c t')), u'. split; [done|]. split; [done|by constructor].
      + destruct (Hcons d true false n Hd ltac:(done) H) as (u & rest & E & Hl & Hu).
        exists (String c u), rest. split; [done|]. split; [done|].
        destruct Hu as (t & u' & Hc & -> & Ht). exists (String c t), u'. split; [done|].
        split; [done|by constructor]. }
  destruct (Ascii.eqb_spec c dquote) as [->|Hq].
  { destruct (Hcons d true false n Hd ltac:(done) H) as (u & rest & E & Hl & Hu).
    exists (String dquote u), rest. split; [done|]. split; [done|].
    destruct Hu as (t & u' & Hc & -> & Ht). cbn [consumed].
    apply (closes_item d u' (String dquote t)) in Hc; [by rewrite str_app_cons in Hc|].
    intros i Hi. rewrite str_app_cons. by constructor. }
  destruct (Ascii.eqb_spec c lbrace) as [->|Hl'].
  { replace (Z.of_nat d + 1) with (Z.of_nat (S d)) in H by lia.
    destruct (Hcons (S d) false false n ltac:(lia) ltac:(done) H) as (u & rest & E & Hl & Hu).
    exists (String lbrace u), rest. split; [done|]. split; [done|]. cbn [consumed] in *.
    destruct d as [|d]; [lia|]. by apply closes_open. }
  destruct (Ascii.eqb_spec c rbrace) as [->|Hr].
  { destruct (Z.eqb_spec (Z.of_nat d - 1) 0) as [E1|E1].
    - injection H as <-. exists (String rbrace ""), s. split; [done|]. split; [done|].
      replace d with 1%nat by lia. exact (cl_one "" it_nil).
    - replace (Z.of_nat d - 1) with (Z.of_nat (d - 1)) in H by lia.
      destruct (Hcons (d - 1)%nat false false n ltac:(lia) ltac:(done) H) as (u & rest & E & Hl & Hu).
      exists (String rbrace u), rest. split; [done|]. split; [done|].
      replace d with (S (d - 1)) by lia. exact (cl_more _ "" u it_nil Hu). }
  destruct (Hcons d false false n Hd ltac:(done) H) as (u & rest & E & Hl & Hu).
  exists (String c u), rest. split; [done|]. split; [done|]. cbn [consumed] in *.
  apply (closes_item d u (String c "")); [|done]. intros i Hi. by apply it_char.
Qed.

Lemma IndexByte_none s c : IndexByte s c = None <-> no_byte c s = true.
Proof.
  induction s as [|d s IH]; cbn; [done|]. destruct (Ascii.eqb d c); cbn; [done|].
  rewrite <- IH. by destruct (IndexByte s c).
Qed.

Lemma IndexByte_some s c n : IndexByte s c = Some n ->
  exists p t, s = p +:+ String c t /\ String.length p = n /\ no_byte c p = true.
Proof.
  revert n. induction s as [|d s IH]; cbn; intros n H; [done|].
  destruct (Ascii.eqb_spec d c) as [->|Hne].
  - injection H as <-. by exists "", s.
  - destruct (IndexByte s c) as [m|]; [|done]. injection H as <-.
    destruct (IH m eq_refl) as (p & t & -> & Hl & Hn). exists (String d p), t. rewrite str_app_cons. cbn.
    apply Ascii.eqb_neq in Hne as ->. by rewrite Hl, Hn.
Qed.

Lemma IndexByte_app p c t : no_byte c p = true -> IndexByte (p +:+ String c t) c = Some (String.length p).
Proof.
  induction p as [|d p IH].
  - intros _. change ("" +:+ String c t) with (String c t). cbn. by rewrite Ascii.eqb_refl.
  - rewrite str_app_cons. cbn. intros [H1 H2]%andb_prop. apply negb_true_iff in H1. rewrite H1.
    by rewrite IH.
Qed.

Lemma extract_object p o t : no_byte lbrace p = true -> object o ->
  extractJSONObject (p +:+ (o +:+ t)) = o.
Proof.
  intros Hp Ho. pose proof Ho as (i & Hi & E). unfold extractJSONObject.
  assert (Eidx : IndexByte (p +:+ (o +:+ t)) lbrace = Some (String.length p)).
  { rewrite E, str_app_cons. by apply IndexByte_app. }
  rewrite Eidx, str_drop_app, scan_object_complete by done. apply str_take_app.
Qed.

(** C28: the object returned is exactly the braced object of the grammar that
    starts at the first opening brace, whatever prose surrounds it; nothing is
    returned exactly when no such object is there. *)
Theorem extractJSONObject_spec s r :
  (r <> "" ->
   (extractJSONObject s = r <->
    exists p t, s = p +:+ (r +:+ t) /\ no_byte lbrace p = true /\ object r)) /\
  (extractJSONObject s = "" <->
   ~ exists p o t, s = p +:+ (o +:+ t) /\ no_byte lbrace p = true /\ object o).
Proof.
  assert (Hsound : extractJSONObject s <> "" -> exists p t,
    s = p +:+ (extractJSONObject s +:+ t) /\ no_byte lbrace p = true /\ object (extractJSONObject s)).
  { unfold extractJSONObject. destruct (IndexByte s lbrace) as [start|] eqn:Ei; [|done].
    apply IndexByte_some in Ei as (p & t & -> & <- & Hp). rewrite str_drop_app. cbn [scan_object].
    replace (Ascii.eqb lbrace dquote) with false by reflexivity. rewrite Ascii.eqb_refl.
    change (0 + 1) with (Z.of_nat 1).
    destruct (scan_object t (Z.of_nat 1) false false) as [n|] eqn:Es; [|done]. intros _.
    destruct (scan_object_sound t 1 false false n ltac:(lia) ltac:(done) Es) as (u & rest & -> & <- & Hu).
    exists p, rest. cbn [fmap option_fmap option_map str_take]. rewrite str_take_app.
    rewrite str_app_cons. split; [done|]. split; [done|]. cbn [consumed] in Hu.
    remember 1%nat as one eqn:E1. destruct Hu as [i Hi|d i u Hi Hc]; [by exists i|].
    injection E1 as ->. by inversion Hc. }
  split.
  - intros Hr. split; [intros <-; by apply Hsound|]. intros (p & t & -> & Hp & Ho). by apply extract_object.
  - split.
    + intros E (p & o & t & -> & Hp & Ho). rewrite extract_object in E by done.
      destruct Ho as (i & _ & ->). done.
    + intros Hn. destruct (decide (extractJSONObject s = "")) as [|Hne]; [done|].
      destruct (Hsound Hne) as (p & t & E & Hp & Ho). destruct Hn. by exists p, (extractJSONObject s), t.
Qed.

(** A fenced answer with a brace inside a string. *)
Definition sample_answer : string :=
  "Here: " +:+ byte_str [123; 34; 97; 125; 34; 58; 123; 125; 125]%N +:+ " -- done }".

Lemma extractJSONObject_spec_witness :
  extractJSONObject sample_answer = byte_str [123; 34; 97; 125; 34; 58; 123; 125; 125]%N /\
  exists p t, sample_answer = p +:+ (byte_str [123; 34; 97; 125; 34; 58; 123; 125; 125]%N +:+ t) /\
    no_byte lbrace p = true /\ object (byte_str [123; 34; 97; 125; 34; 58; 123; 125; 125]%N).
Proof.
  assert (E : extractJSONObject sample_answer = byte_str [123; 34; 97; 125; 34; 58; 123; 125; 125]%N)
    by (vm_compute; reflexivity).
  split; [exact E|]. apply (proj1 (extractJSONObject_spec sample_answer _)); [|exact E].
  discriminate.
Defined.
