(* ===== verification/Json.v ===== *)
(** * JSON text

    What the program uses of [encoding/json] to read a model's answer: the
    grammar of the scanner with its nesting limit, the bytes of a string
    literal, the number a [json.Number] stands for, and the field of a struct a
    key selects.  A member of an object keeps the text of its value, which is
    what a [json.RawMessage] field receives. *)
From Stdlib Require Import ZArith Lia Ascii Floats.
From stdpp Require Import base list strings gmap.
From S2P Require Import Prelude GoBase GoFloat JsonExtract.
Set Warnings "-inexact-float,-register-all".
Open Scope Z_scope.

Inductive json :=
  | JsonNull
  | JsonBool (b : bool)
  | JsonNumber (lit : string)
  | JsonString (s : string)
  | JsonArray (items : list json)
  | JsonObject (members : list (string * string * json)).

(** ** Characters *)

Definition byte (c : ascii) : Z := Z.of_N (N_of_ascii c).

Definition chr (z : Z) : ascii := ascii_of_N (Z.to_N z).

Definition between (lo z hi : Z) : bool := (lo <=? z) && (z <=? hi).

Definition is_digit (c : ascii) : bool := between 48 (byte c) 57.

Definition is_json_space (c : ascii) : bool := mem (byte c) [32; 9; 13; 10].

Definition hex_value (c : ascii) : option Z :=
  let b := byte c in
  if between 48 b 57 then Some (b - 48)
  else if between 97 b 102 then Some (b - 87)
  else if between 65 b 70 then Some (b - 55)
  else None.

Definition hex4 (a b c d : ascii) : option Z :=
  match hex_value a, hex_value b, hex_value c, hex_value d with
  | Some a, Some b, Some c, Some d => Some (((a * 16 + b) * 16 + c) * 16 + d)
  | _, _, _, _ => None
  end.

(** The byte a one-letter escape stands for. *)
Definition escape_byte (c : ascii) : option ascii :=
  match byte c with
  | 34 | 92 | 47 => Some c
  | 98 => Some (chr 8)
  | 102 => Some (chr 12)
  | 110 => Some (chr 10)
  | 114 => Some (chr 13)
  | 116 => Some (chr 9)
  | _ => None
  end.

Fixpoint skip_space (s : string) : string :=
  match s with
  | String c s' => if is_json_space c then skip_space s' else s
  | EmptyString => ""
  end.

(** ** The grammar *)

(** The digits in front of [s], and the rest. *)
Fixpoint span_digits (s : string) : string * string :=
  match s with
  | String c s' =>
      if is_digit c then let '(ds, rest) := span_digits s' in (String c ds, rest) else ("", s)
  | EmptyString => ("", "")
  end.

(** At least one digit, after [prefix]. *)
Definition some_digits (prefix s : string) : option (string * string) :=
  let '(ds, rest) := span_digits s in
  if str_eqb ds "" then None else Some (prefix +:+ ds, rest).

Definition take_sign (s : string) : string * string :=
  match s with
  | String c s' => if byte c =? 45 then (String c "", s') else ("", s)
  | EmptyString => ("", "")
  end.

Definition int_part (s : string) : option (string * string) :=
  match s with
  | String c s' => if byte c =? 48 then Some (String c "", s') else some_digits "" s
  | EmptyString => None
  end.

Definition frac_part (s : string) : option (string * string) :=
  match s with
  | String c s' => if byte c =? 46 then some_digits (String c "") s' else Some ("", s)
  | EmptyString => Some ("", "")
  end.

Definition exp_part (s : string) : option (string * string) :=
  match s with
  | String c s' =>
      if mem (byte c) [101; 69] then
        match s' with
        | String d s'' =>
            if mem (byte d) [43; 45] then some_digits (String c (String d "")) s''
            else some_digits (String c "") s'
        | EmptyString => None
        end
      else Some ("", s)
  | EmptyString => Some ("", "")
  end.

(** A number: its text and the rest. *)
Definition number (s : string) : option (string * string) :=
  let '(sign, s) := take_sign s in
  match int_part s with
  | None => None
  | Some (i, s) =>
      match frac_part s with
      | None => None
      | Some (f, s) =>
          match exp_part s with
          | None => None
          | Some (e, s) => Some (sign +:+ i +:+ f +:+ e, s)
          end
      end
  end.

(** The rest of a string literal, after the opening quote: what is between the
    quotes, and the rest. *)
Fixpoint str_lit (s : string) : option (string * string) :=
  match s with
  | EmptyString => None
  | String c s1 =>
      if Ascii.eqb c dquote then Some ("", s1)
      else if Ascii.eqb c backslash then
        match s1 with
        | EmptyString => None
        | String d s2 =>
            if byte d =? 117 then
              match s2 with
              | String h1 (String h2 (String h3 (String h4 s3))) =>
                  match hex4 h1 h2 h3 h4, str_lit s3 with
                  | Some _, Some (body, rest) =>
                      Some (String c (String d (String h1 (String h2 (String h3 (String h4 body))))), rest)
                  | _, _ => None
                  end
              | _ => None
              end
            else
              match escape_byte d, str_lit s2 with
              | Some _, Some (body, rest) => Some (String c (String d body), rest)
              | _, _ => None
              end
        end
      else if byte c <? 32 then None
      else
        match str_lit s1 with
        | Some (body, rest) => Some (String c body, rest)
        | None => None
        end
  end.

(** ** The bytes of a string *)

(** The size of the UTF-8 sequence in front of [s], [0] when it is not one. *)
Definition utf8_size (s : string) : nat :=
  match s with
  | String a (String b s2) =>
      let cont c := between 128 (byte c) 191 in
      if between 194 (byte a) 223 then if cont b then 2%nat else 0%nat
      else
        match s2 with
        | String c s3 =>
            let lo := if byte a =? 224 then 160 else 128 in
            let hi := if byte a =? 237 then 159 else 191 in
            if between 224 (byte a) 239 then
              if between lo (byte b) hi && cont c then 3%nat else 0%nat
            else
              match s3 with
              | String d _ =>
                  let lo := if byte a =? 240 then 144 else 128 in
                  let hi := if byte a =? 244 then 143 else 191 in
                  if between 240 (byte a) 244 && between lo (byte b) hi && cont c && cont d
                  then 4%nat else 0%nat
              | EmptyString => 0%nat
              end
        | EmptyString => 0%nat
        end
  | _ => 0%nat
  end.

(** [utf8.EncodeRune]. *)
Definition encode_rune (r : Z) : string :=
  if r <? 128 then String (chr r) ""
  else if r <? 2048 then String (chr (192 + r / 64)) (String (chr (128 + r mod 64)) "")
  else if r <? 65536 then
    String (chr (224 + r / 4096)) (String (chr (128 + r / 64 mod 64)) (String (chr (128 + r mod 64)) ""))
  else
    String (chr (240 + r / 262144)) (String (chr (128 + r / 4096 mod 64))
      (String (chr (128 + r / 64 mod 64)) (String (chr (128 + r mod 64)) ""))).

Definition replacement : Z := 65533.

Definition is_surrogate (r : Z) : bool := between 55296 r 57343.

(** [utf16.DecodeRune] on a pair, when it is one. *)
Definition surrogate_pair (r1 r2 : Z) : option Z :=
  if between 55296 r1 56319 && between 56320 r2 57343
  then Some ((r1 - 55296) * 1024 + (r2 - 56320) + 65536) else None.

(** The code of a unicode escape in front of [s], if there is one. *)
Definition escaped_rune (s : string) : option Z :=
  match s with
  | String c (String d (String h1 (String h2 (String h3 (String h4 _))))) =>
      if Ascii.eqb c backslash && (byte d =? 117) then hex4 h1 h2 h3 h4 else None
  | _ => None
  end.

(** [unquote], on what is between the quotes of a literal; [fuel] is its
    length. *)
Fixpoint unquote (fuel : nat) (s : string) : string :=
  match fuel, s with
  | S fuel, String c s1 =>
      if Ascii.eqb c backslash then
        match escaped_rune s, s1 with
        | Some r, _ =>
            let rest := str_drop 6 s in
            if is_surrogate r then
              match escaped_rune rest with
              | Some r2 =>
                  match surrogate_pair r r2 with
                  | Some rune => encode_rune rune +:+ unquote fuel (str_drop 6 rest)
                  | None => encode_rune replacement +:+ unquote fuel rest
                  end
              | None => encode_rune replacement +:+ unquote fuel rest
              end
            else encode_rune r +:+ unquote fuel rest
        | None, String d s2 =>
            match escape_byte d with
            | Some b => String b (unquote fuel s2)
            | None => ""
            end
        | None, EmptyString => ""
        end
      else if byte c <? 128 then String c (unquote fuel s1)
      else
        match utf8_size s with
        | O => encode_rune replacement +:+ unquote fuel s1
        | n => str_take n s +:+ unquote fuel (str_drop n s)
        end
  | _, _ => ""
  end.

Definition unquoted (body : string) : string := unquote (String.length body) body.

(** ** Values *)

(** The nesting the scanner allows. *)
Definition maxNestingDepth : Z := 10000.

(** The text in front of [rest] in [s]. *)
Definition before (s rest : string) : string := str_take (String.length s - String.length rest) s.

(** The value in front of [s], inside [depth] brackets, and the rest; [object_fields]
    and [array_items] continue an object and an array. *)
Fixpoint json_value (fuel : nat) (depth : Z) (s : string) {struct fuel} : option (json * string) :=
  match fuel with
  | O => None
  | S fuel =>
      let s := skip_space s in
      match s with
      | EmptyString => None
      | String c s1 =>
          if Ascii.eqb c lbrace then
            if maxNestingDepth <=? depth then None
            else
              match skip_space s1 with
              | String d s2 =>
                  if Ascii.eqb d rbrace then Some (JsonObject [], s2)
                  else
                    match object_fields fuel (depth + 1) s1 with
                    | Some (ms, rest) => Some (JsonObject ms, rest)
                    | None => None
                    end
              | EmptyString => None
              end
          else if byte c =? 91 then
            if maxNestingDepth <=? depth then None
            else
              match skip_space s1 with
              | String d s2 =>
                  if byte d =? 93 then Some (JsonArray [], s2)
                  else
                    match array_items fuel (depth + 1) s1 with
                    | Some (vs, rest) => Some (JsonArray vs, rest)
                    | None => None
                    end
              | EmptyString => None
              end
          else if Ascii.eqb c dquote then
            match str_lit s1 with
            | Some (body, rest) => Some (JsonString (unquoted body), rest)
            | None => None
            end
          else if HasPrefix s "true" then Some (JsonBool true, str_drop 4 s)
          else if HasPrefix s "false" then Some (JsonBool false, str_drop 5 s)
          else if HasPrefix s "null" then Some (JsonNull, str_drop 4 s)
          else
            match number s with
            | Some (lit, rest) => Some (JsonNumber lit, rest)
            | None => None
            end
      end
  end
with object_fields (fuel : nat) (depth : Z) (s : string) {struct fuel}
    : option (list (string * string * json) * string) :=
  match fuel with
  | O => None
  | S fuel =>
      match skip_space s with
      | String c s1 =>
          if Ascii.eqb c dquote then
            match str_lit s1 with
            | None => None
            | Some (key, s2) =>
                match skip_space s2 with
                | String d s3 =>
                    if byte d =? 58 then
                      match json_value fuel depth s3 with
                      | None => None
                      | Some (v, s4) =>
                          let m := (unquoted key, before (skip_space s3) s4, v) in
                          match skip_space s4 with
                          | String e s5 =>
                              if byte e =? 44 then
                                match object_fields fuel depth s5 with
                                | Some (ms, rest) => Some (m :: ms, rest)
                                | None => None
                                end
                              else if Ascii.eqb e rbrace then Some ([m], s5)
                              else None
                          | EmptyString => None
                          end
                      end
                    else None
                | EmptyString => None
                end
            end
          else None
      | EmptyString => None
      end
  end
with array_items (fuel : nat) (depth : Z) (s : string) {struct fuel} : option (list json * string) :=
  match fuel with
  | O => None
  | S fuel =>
      match json_value fuel depth s with
      | None => None
      | Some (v, s4) =>
          match skip_space s4 with
          | String e s5 =>
              if byte e =? 44 then
                match array_items fuel depth s5 with
                | Some (vs, rest) => Some (v :: vs, rest)
                | None => None
                end
              else if byte e =? 93 then Some ([v], s5)
              else None
          | EmptyString => None
          end
      end
  end.

(** Two turns for every byte, and one for the end. *)
Definition json_fuel (s : string) : nat := S (2 * String.length s).

(** [json.NewDecoder(...).Decode]: the first value of the text. *)
Definition DecodeFirst (s : string) : option (json * string) := json_value (json_fuel s) 0 s.

(** [json.Unmarshal]: the text is one value. *)
Definition Parse (s : string) : option json :=
  match DecodeFirst s with
  | Some (v, rest) => if str_eqb (skip_space rest) "" then Some v else None
  | None => None
  end.

(** ** Numbers *)

(** A digit more in front of a decimal exponent; it stops growing at five
    digits, as [strconv]'s does. *)
Fixpoint exponent (acc : Z) (s : string) : Z :=
  match s with
  | String c s' => exponent (if acc <? 10000 then acc * 10 + (byte c - 48) else acc) s'
  | EmptyString => acc
  end.

(** The mantissa of a literal read from [s], the number of digits after the
    point, and the exponent. *)
Fixpoint mantissa (s : string) (m scale : Z) (point : bool) : Z * Z * Z :=
  match s with
  | String c s' =>
      if is_digit c then mantissa s' (m * 10 + (byte c - 48)) (if point then scale + 1 else scale) point
      else if byte c =? 46 then mantissa s' m scale true
      else
        let '(sign, ds) := take_sign (match s' with
                                      | String d s'' => if byte d =? 43 then s'' else s'
                                      | EmptyString => "" end) in
        (m, scale, if str_eqb sign "" then exponent 0 ds else - exponent 0 ds)
  | EmptyString => (m, scale, 0)
  end.

(** The float nearest to [(-1)^neg * m * 10^e], to even. *)
Definition round_decimal (neg : bool) (m e : Z) : float :=
  match m with
  | Zpos p =>
      SF2Prim (SFdiv 53 1024 (S754_finite neg (p * Z.to_pos (10 ^ Z.max e 0)) 0)
                             (S754_finite false (Z.to_pos (10 ^ Z.max (- e) 0)) 0))
  | _ => SF2Prim (S754_zero neg)
  end.

(** [strconv.ParseFloat(lit, 64)] on a number's text. *)
Definition ParseFloat (lit : string) : result float :=
  let '(sign, s) := take_sign lit in
  let '(m, scale, e) := mantissa s 0 0 false in
  let f := round_decimal (negb (str_eqb sign "")) m (e - scale) in
  if is_fin f then Ok f else Fail (EMsg "value out of range").

(** ** Struct fields *)

(** [foldName]: letters in upper case, with the two other runes that fold to
    letters. *)
Fixpoint foldName (s : string) : string :=
  match s with
  | EmptyString => ""
  | String a s1 =>
      let up := if between 97 (byte a) 122 then chr (byte a - 32) else a in
      match s1 with
      | String b s2 =>
          if (byte a =? 197) && (byte b =? 191) then String "S" (foldName s2)
          else
            match s2 with
            | String c s3 =>
                if (byte a =? 226) && (byte b =? 132) && (byte c =? 170)
                then String "K" (foldName s3) else String up (foldName s1)
            | EmptyString => String up (foldName s1)
            end
      | EmptyString => String up ""
      end
  end.

(** The key of a member selects the field [name]. *)
Definition is_field (name key : string) : bool := str_eqb (foldName key) (foldName name).

(** ** Writing a string *)

Definition hex_digit (z : Z) : ascii := chr (if z <? 10 then 48 + z else 87 + z).

Definition u_escape (r : Z) : string :=
  String backslash (String "u" (String (hex_digit (r / 4096)) (String (hex_digit (r / 256 mod 16))
    (String (hex_digit (r / 16 mod 16)) (String (hex_digit (r mod 16)) ""))))).

(** The text of an ASCII byte, with HTML escaped. *)
Definition encode_byte (c : ascii) : string :=
  match byte c with
  | 34 | 92 => String backslash (String c "")
  | 8 => String backslash "b"
  | 12 => String backslash "f"
  | 10 => String backslash "n"
  | 13 => String backslash "r"
  | 9 => String backslash "t"
  | 60 | 62 | 38 => u_escape (byte c)
  | b => if b <? 32 then u_escape b else String c ""
  end.

(** A line or paragraph separator. *)
Definition is_separator (s : string) : bool := HasPrefix s (encode_rune 8232) || HasPrefix s (encode_rune 8233).

(** [appendString] of [encoding/json], between the quotes; [fuel] is the
    length. *)
Fixpoint encode_string (fuel : nat) (s : string) : string :=
  match fuel, s with
  | S fuel, String c s1 =>
      if byte c <? 128 then encode_byte c +:+ encode_string fuel s1
      else
        match utf8_size s with
        | O => u_escape replacement +:+ encode_string fuel s1
        | n =>
            (if is_separator s then u_escape (8232 + from_option byte 0 (String.get 2 s) mod 8) else str_take n s)
            +:+ encode_string fuel (str_drop n s)
        end
  | _, _ => ""
  end.

Definition json_string (s : string) : string :=
  String dquote (encode_string (String.length s) s +:+ String dquote "").

(** [s] is UTF-8. *)
Fixpoint valid_utf8 (fuel : nat) (s : string) : bool :=
  match fuel, s with
  | _, EmptyString => true
  | S fuel, String c s1 =>
      if byte c <? 128 then valid_utf8 fuel s1
      else match utf8_size s with O => false | n => valid_utf8 fuel (str_drop n s) end
  | O, _ => false
  end.

Definition utf8 (s : string) : bool := valid_utf8 (String.length s) s.

(** ** What a value takes of its text *)

Lemma items_app a b : items a -> items b -> items (a +:+ b).
Proof.
  intros Ha Hb. induction Ha as [|c s Hq Hl Hr _ IH|t s Ht _ IH|i s Hi _ _ IH]; [exact Hb| | |].
  - rewrite str_app_cons. by constructor.
  - rewrite str_app_cons, <- str_app_assoc. by constructor.
  - rewrite str_app_cons, <- str_app_assoc, str_app_cons. by constructor.
Qed.

Definition plain_char (c : ascii) : Prop := c <> dquote /\ c <> lbrace /\ c <> rbrace.

Lemma items_char c : plain_char c -> items (String c "").
Proof. intros (Hq & Hl & Hr). by apply it_char; [..|constructor]. Qed.

(** [s] is balanced text and then [rest]. *)
Definition takes (s rest : string) : Prop := exists pre, s = pre +:+ rest /\ items pre.

Lemma takes_refl s : takes s s.
Proof. exists "". split; [done|constructor]. Qed.

Lemma takes_trans a b c : takes a b -> takes b c -> takes a c.
Proof.
  intros (p & -> & Hp) (q & -> & Hq). exists (p +:+ q). split; [by rewrite str_app_assoc|].
  by apply items_app.
Qed.

Lemma takes_char c s rest : plain_char c -> takes s rest -> takes (String c s) rest.
Proof. intros Hc. apply takes_trans. exists (String c ""). split; [done|]. by apply items_char. Qed.

Lemma takes_length a b : takes a b -> (String.length b <= String.length a)%nat.
Proof. intros (p & -> & _). rewrite str_len_app. lia. Qed.

Lemma byte_plain c : byte c <> 34 -> byte c <> 123 -> byte c <> 125 -> plain_char c.
Proof. intros H1 H2 H3. repeat split; intros ->; first [by apply H1|by apply H2|by apply H3]. Qed.

Lemma takes_skip s : takes s (skip_space s).
Proof.
  induction s as [|c s IH]; [apply takes_refl|]. cbn [skip_space].
  destruct (is_json_space c) eqn:E; [|apply takes_refl].
  apply takes_char; [|done]. unfold is_json_space in E. apply mem_spec in E.
  apply byte_plain; intros Eb; rewrite Eb in E; by apply mem_spec in E.
Qed.

Lemma takes_plain n : forall s, (forall i c, (i < n)%nat -> String.get i s = Some c -> plain_char c) ->
  takes s (str_drop n s).
Proof.
  induction n as [|n IH]; intros [|c s] H; [apply takes_refl..|].
  cbn [str_drop]. apply takes_char; [by apply (H 0%nat c); [lia|]|].
  apply IH. intros i d Hi. apply (H (S i)). lia.
Qed.

Lemma span_digits_takes s ds rest : span_digits s = (ds, rest) -> takes s rest.
Proof.
  revert ds. induction s as [|c s IH]; intros ds; cbn [span_digits].
  - intros [= <- <-]. apply takes_refl.
  - destruct (is_digit c) eqn:E; [|intros [= <- <-]; apply takes_refl].
    destruct (span_digits s) as [ds' rest'] eqn:Es. intros [= <- <-].
    apply takes_char; [|by apply (IH ds')]. unfold is_digit, between in E.
    apply byte_plain; lia.
Qed.

Lemma some_digits_takes prefix s lit rest : some_digits prefix s = Some (lit, rest) -> takes s rest.
Proof.
  unfold some_digits. destruct (span_digits s) as [ds r] eqn:E. destruct (str_eqb ds ""); [done|].
  intros [= _ <-]. by apply (span_digits_takes s ds).
Qed.

Lemma number_takes s lit rest : number s = Some (lit, rest) -> takes s rest.
Proof.
  unfold number. destruct (take_sign s) as [sign s1] eqn:E1.
  assert (H1 : takes s s1).
  { destruct s as [|c s]; cbn [take_sign] in E1; [injection E1 as _ <-; apply takes_refl|].
    destruct (Z.eqb_spec (byte c) 45) as [Ec|]; injection E1 as _ <-; [|apply takes_refl].
    apply takes_char; [apply byte_plain; lia|apply takes_refl]. }
  destruct (int_part s1) as [[i s2]|] eqn:E2; [|done].
  assert (H2 : takes s1 s2).
  { destruct s1 as [|c s1]; cbn [int_part] in E2; [done|].
    destruct (Z.eqb_spec (byte c) 48) as [Ec|]; [injection E2 as _ <-|by apply (some_digits_takes "" _ i)].
    apply takes_char; [apply byte_plain; lia|apply takes_refl]. }
  destruct (frac_part s2) as [[f s3]|] eqn:E3; [|done].
  assert (H3 : takes s2 s3).
  { destruct s2 as [|c s2]; cbn [frac_part] in E3; [injection E3 as _ <-; apply takes_refl|].
    destruct (Z.eqb_spec (byte c) 46) as [Ec|]; [|injection E3 as _ <-; apply takes_refl].
    apply takes_char; [apply byte_plain; lia|by apply some_digits_takes in E3]. }
  destruct (exp_part s3) as [[e s4]|] eqn:E4; [|done]. intros [= _ <-].
  assert (H4 : takes s3 s4).
  { destruct s3 as [|c s3]; cbn [exp_part] in E4; [injection E4 as _ <-; apply takes_refl|].
    destruct (mem (byte c) [101; 69]) eqn:Ec; [|injection E4 as _ <-; apply takes_refl].
    apply mem_spec in Ec.
    apply takes_char; [apply byte_plain; intros Eb; rewrite Eb in Ec; by apply mem_spec in Ec|].
    destruct s3 as [|d s3]; [done|].
    destruct (mem (byte d) [43; 45]) eqn:Ed; [|by apply some_digits_takes in E4].
    apply mem_spec in Ed.
    apply takes_char; [apply byte_plain; intros Eb; rewrite Eb in Ed; by apply mem_spec in Ed|].
    by apply some_digits_takes in E4. }
  exact (takes_trans _ _ _ H1 (takes_trans _ _ _ H2 (takes_trans _ _ _ H3 H4))).
Qed.

Lemma str_lit_body s : forall body rest, str_lit s = Some (body, rest) ->
  exists t, s = t +:+ rest /\ str_body t.
Proof.
  enough (H : forall n s, (String.length s < n)%nat -> forall body rest,
    str_lit s = Some (body, rest) -> exists t, s = t +:+ rest /\ str_body t) by exact (H (S (String.length s)) s ltac:(lia)).
  clear s. induction n as [|n IH]; intros s Hn body rest; [lia|]. destruct s as [|c s1]; [done|].
  cbn [str_lit String.length] in *.
  destruct (Ascii.eqb_spec c dquote) as [->|Hq].
  { intros [= _ <-]. exists (String dquote ""). split; [done|constructor]. }
  destruct (Ascii.eqb_spec c backslash) as [->|Hb].
  - destruct s1 as [|d s2]; [done|]. cbn [String.length] in Hn.
    destruct (byte d =? 117) eqn:Ed.
    + destruct s2 as [|h1 [|h2 [|h3 [|h4 s3]]]]; try done. cbn [String.length] in Hn.
      destruct (hex4 h1 h2 h3 h4) eqn:Eh; [|done].
      destruct (str_lit s3) as [[b r]|] eqn:Es; [|done]. intros [= _ <-].
      destruct (IH s3 ltac:(lia) _ _ Es) as (t & -> & Ht).
      exists (String backslash (String d (String h1 (String h2 (String h3 (String h4 t)))))).
      split; [done|]. apply sb_escape.
      unfold hex4 in Eh.
      destruct (hex_value h1) eqn:H1; [|done]. destruct (hex_value h2) eqn:H2; [|done].
      destruct (hex_value h3) eqn:H3; [|done]. destruct (hex_value h4) eqn:H4; [|done].
      assert (Hx : forall h k, hex_value h = Some k -> h <> dquote /\ h <> backslash)
        by (intros h k Hh; split; intros ->; discriminate Hh).
      destruct (Hx _ _ H1), (Hx _ _ H2), (Hx _ _ H3), (Hx _ _ H4).
      by repeat (apply sb_char; [done..|]).
    + destruct (escape_byte d); [|done]. destruct (str_lit s2) as [[b r]|] eqn:Es; [|done].
      intros [= _ <-]. destruct (IH s2 ltac:(lia) _ _ Es) as (t & -> & Ht).
      exists (String backslash (String d t)). split; [done|by constructor].
  - destruct (byte c <? 32); [done|]. destruct (str_lit s1) as [[b r]|] eqn:Es; [|done].
    intros [= _ <-]. destruct (IH s1 ltac:(lia) _ _ Es) as (t & -> & Ht).
    exists (String c t). split; [done|by constructor].
Qed.

Lemma str_lit_takes s body rest : str_lit s = Some (body, rest) -> takes (String dquote s) rest.
Proof.
  intros H. destruct (str_lit_body s body rest H) as (t & -> & Ht).
  exists (String dquote t). split; [done|].
  rewrite <- (str_app_nil t). constructor; [done|constructor].
Qed.

(** [s] is balanced text, a closing brace, and then [rest]. *)
Definition takes_close (s rest : string) : Prop := exists s', takes s s' /\ s' = String rbrace rest.

Lemma takes_close_trans s s' rest : takes s s' -> takes_close s' rest -> takes_close s rest.
Proof. intros H (t & Ht & ->). exists (String rbrace rest). split; [by eapply takes_trans|done]. Qed.

Lemma takes_object s rest : takes_close s rest -> takes (String lbrace s) rest.
Proof.
  intros (? & (p & -> & Hp) & ->). exists (String lbrace (p +:+ String rbrace "")).
  rewrite str_app_cons, <- str_app_assoc. split; [done|]. constructor; [done|constructor].
Qed.

(** Every value, and every rest of an object or an array, takes balanced
    text. *)
Lemma json_takes fuel : forall depth s,
  (forall v rest, json_value fuel depth s = Some (v, rest) -> takes s rest) /\
  (forall ms rest, object_fields fuel depth s = Some (ms, rest) -> takes_close s rest) /\
  (forall vs rest, array_items fuel depth s = Some (vs, rest) -> takes s rest).
Proof.
  induction fuel as [|fuel IH]; intros depth s; [done|].
  assert (IHv := fun d s => proj1 (IH d s)). assert (IHf := fun d s => proj1 (proj2 (IH d s))).
  assert (IHi := fun d s => proj2 (proj2 (IH d s))). clear IH.
  split; [|split]; cbn [json_value object_fields array_items].
  - intros v rest H. apply (takes_trans _ _ _ (takes_skip s)).
    destruct (skip_space s) as [|c s1]; [done|].
    destruct (Ascii.eqb_spec c lbrace) as [->|Hl].
    { destruct (maxNestingDepth <=? depth); [done|]. apply takes_object.
      pose proof (takes_skip s1) as Hs. destruct (skip_space s1) as [|d s2]; [done|].
      destruct (Ascii.eqb_spec d rbrace) as [->|].
      - injection H as _ <-. by exists (String rbrace s2).
      - destruct (object_fields _ _ s1) as [[ms r]|] eqn:E; [|done]. injection H as _ <-. by apply IHf in E. }
    destruct (Z.eqb_spec (byte c) 91) as [Ec|].
    { destruct (maxNestingDepth <=? depth); [done|]. apply takes_char; [apply byte_plain; lia|].
      pose proof (takes_skip s1) as Hs. destruct (skip_space s1) as [|d s2]; [done|].
      destruct (Z.eqb_spec (byte d) 93) as [Ed|].
      - injection H as _ <-. apply (takes_trans _ _ _ Hs).
        apply takes_char; [apply byte_plain; lia|apply takes_refl].
      - destruct (array_items _ _ s1) as [[vs r]|] eqn:E; [|done]. injection H as _ <-. by apply IHi in E. }
    destruct (Ascii.eqb_spec c dquote) as [->|Hq].
    { destruct (str_lit s1) as [[b r]|] eqn:E; [|done]. injection H as _ <-. by apply str_lit_takes in E. }
    assert (Hlit : forall w, items w -> HasPrefix (String c s1) w = true ->
      takes (String c s1) (str_drop (String.length w) (String c s1))).
    { intros w Hw Hp. exists w. split; [by apply HasPrefix_drop|done]. }
    destruct (HasPrefix (String c s1) "true") eqn:Et.
    { injection H as _ <-. refine (Hlit "true" _ Et). by repeat (apply it_char; [done..|]); constructor. }
    destruct (HasPrefix (String c s1) "false") eqn:Ef.
    { injection H as _ <-. refine (Hlit "false" _ Ef). by repeat (apply it_char; [done..|]); constructor. }
    destruct (HasPrefix (String c s1) "null") eqn:En.
    { injection H as _ <-. refine (Hlit "null" _ En). by repeat (apply it_char; [done..|]); constructor. }
    destruct (number (String c s1)) as [[lit r]|] eqn:E; [|done]. injection H as _ <-. by apply number_takes in E.
  - intros ms rest H. apply (takes_close_trans _ _ _ (takes_skip s)).
    destruct (skip_space s) as [|c s1]; [done|].
    destruct (Ascii.eqb_spec c dquote) as [->|]; [|done].
    destruct (str_lit s1) as [[key s2]|] eqn:Es; [|done].
    apply str_lit_takes in Es. apply (takes_close_trans _ _ _ Es).
    apply (takes_close_trans _ _ _ (takes_skip s2)). destruct (skip_space s2) as [|d s3]; [done|].
    destruct (Z.eqb_spec (byte d) 58) as [Ed|]; [|done].
    apply (takes_close_trans _ s3); [apply takes_char; [apply byte_plain; lia|apply takes_refl]|].
    destruct (json_value fuel depth s3) as [[v s4]|] eqn:Ev; [|done]. apply IHv in Ev.
    apply (takes_close_trans _ _ _ Ev). apply (takes_close_trans _ _ _ (takes_skip s4)).
    destruct (skip_space s4) as [|e s5]; [done|].
    destruct (Z.eqb_spec (byte e) 44) as [Ee|].
    + apply (takes_close_trans _ s5); [apply takes_char; [apply byte_plain; lia|apply takes_refl]|].
      destruct (object_fields fuel depth s5) as [[ms' r]|] eqn:Ef; [|done]. injection H as _ <-.
      by apply IHf in Ef.
    + destruct (Ascii.eqb_spec e rbrace) as [->|]; [|done]. injection H as _ <-.
      exists (String rbrace s5). split; [apply takes_refl|done].
  - intros vs rest H. destruct (json_value fuel depth s) as [[v s4]|] eqn:Ev; [|done]. apply IHv in Ev.
    apply (takes_trans _ _ _ Ev). apply (takes_trans _ _ _ (takes_skip s4)).
    destruct (skip_space s4) as [|e s5]; [done|].
    assert (Hc : byte e = 44 \/ byte e = 93 -> takes (String e s5) s5)
      by (intros ?; apply takes_char; [apply byte_plain; lia|apply takes_refl]).
    destruct (Z.eqb_spec (byte e) 44) as [Ee|].
    + apply (takes_trans _ s5); [auto|].
      destruct (array_items fuel depth s5) as [[vs' r]|] eqn:Ei; [|done]. injection H as _ <-. by apply IHi in Ei.
    + destruct (Z.eqb_spec (byte e) 93) as [Ee'|]; [|done]. injection H as _ <-. auto.
Qed.

(** More fuel than the length asks for changes nothing. *)
Lemma json_fuel_enough n : forall m depth s, (n <= m)%nat ->
  ((2 * String.length s < n)%nat -> json_value m depth s = json_value n depth s) /\
  ((2 * String.length s < n)%nat -> object_fields m depth s = object_fields n depth s) /\
  ((2 * String.length s + 1 < n)%nat -> array_items m depth s = array_items n depth s).
Proof.
  induction n as [|n IH]; intros [|m] depth s Hm; try (split; [|split]; intros; lia).
  assert (IHv := fun d s => proj1 (IH m d s ltac:(lia))).
  assert (IHf := fun d s => proj1 (proj2 (IH m d s ltac:(lia)))).
  assert (IHi := fun d s => proj2 (proj2 (IH m d s ltac:(lia)))). clear IH.
  pose proof (takes_length _ _ (takes_skip s)) as Hs.
  split; [|split]; intros Hn; cbn [json_value object_fields array_items].
  - destruct (skip_space s) as [|c s1]; [done|]. cbn [String.length] in Hs.
    rewrite IHf, IHi by lia. done.
  - destruct (skip_space s) as [|c s1]; [done|]. cbn [String.length] in Hs.
    destruct (Ascii.eqb c dquote); [|done]. destruct (str_lit s1) as [[key s2]|] eqn:Es; [|done].
    apply str_lit_takes, takes_length in Es. cbn [String.length] in Es.
    pose proof (takes_length _ _ (takes_skip s2)) as H2.
    destruct (skip_space s2) as [|d s3]; [done|]. cbn [String.length] in H2.
    rewrite IHv by lia. destruct (byte d =? 58); [|done].
    destruct (json_value n depth s3) as [[v s4]|] eqn:Ev; [|done].
    apply json_takes, takes_length in Ev.
    pose proof (takes_length _ _ (takes_skip s4)) as H4.
    destruct (skip_space s4) as [|e s5]; [done|]. cbn [String.length] in H4.
    by rewrite IHf by lia.
  - rewrite IHv by lia. destruct (json_value n depth s) as [[v s4]|] eqn:Ev; [|done].
    apply json_takes, takes_length in Ev.
    pose proof (takes_length _ _ (takes_skip s4)) as H4.
    destruct (skip_space s4) as [|e s5]; [done|]. cbn [String.length] in H4.
    by rewrite IHi by lia.
Qed.

(** ** Objects in prose *)

Lemma object_text fuel depth s v rest : json_value fuel depth (String lbrace s) = Some (v, rest) ->
  exists text, object text /\ String lbrace s = text +:+ rest.
Proof.
  destruct fuel as [|fuel]; [done|]. cbn [json_value].
  replace (skip_space (String lbrace s)) with (String lbrace s) by reflexivity.
  rewrite Ascii.eqb_refl. destruct (maxNestingDepth <=? depth); [done|].
  assert (Hclose : takes_close s rest -> exists text, object text /\ String lbrace s = text +:+ rest).
  { intros (? & (p & -> & Hp) & ->). exists (String lbrace (p +:+ String rbrace "")).
    split; [by exists p|]. by rewrite str_app_cons, <- str_app_assoc. }
  pose proof (takes_skip s) as Hs. destruct (skip_space s) as [|d s2]; [done|].
  destruct (Ascii.eqb_spec d rbrace) as [->|].
  - intros [= _ <-]. apply Hclose. by exists (String rbrace s2).
  - destruct (object_fields fuel (depth + 1) s) as [[ms r]|] eqn:E; [|done]. intros [= _ <-].
    apply Hclose. by apply json_takes in E.
Qed.

(** An object that decodes is found in any text that has no brace before it. *)
Lemma object_extracted pre text post v : no_byte lbrace pre = true ->
  DecodeFirst (String lbrace text) = Some (v, "") ->
  extractJSONObject (pre +:+ String lbrace text +:+ post) = String lbrace text.
Proof.
  intros Hpre H. apply object_text in H as (o & Ho & E). rewrite str_app_nil in E. subst o.
  rewrite str_app_cons. unfold extractJSONObject.
  rewrite (IndexByte_app pre _ _ Hpre), str_drop_app, <- str_app_cons.
  rewrite (scan_object_complete _ post Ho). by rewrite str_take_app.
Qed.

(** *** Numbers *)

Lemma ParseFloat_fin lit f : ParseFloat lit = Ok f -> is_fin f = true.
Proof.
  unfold ParseFloat. destruct (take_sign lit) as [sign s]. destruct (mantissa s 0 0 false) as [[m scale] e].
  cbv zeta. destruct (is_fin _) eqn:E; [|done]. by intros [= <-].
Qed.


(** *** Strings read back *)

Lemma encode_byte_read c : byte c < 128 -> forall fuel t,
  unquote (S fuel) (encode_byte c +:+ t) = String c (unquote fuel t) /\
  str_lit (encode_byte c +:+ t) =
    match str_lit t with Some (b, r) => Some (encode_byte c +:+ b, r) | None => None end.
Proof.
  intros H fuel t. destruct c as [[] [] [] [] [] [] [] []]; try (exfalso; by vm_compute in H);
    (split; [|reflexivity]); first [reflexivity|by destruct t as [|? [|? [|? [|? ?]]]]].
Qed.

(** A sequence of two to four bytes, none of them ASCII. *)
Lemma utf8_size_spec s n : utf8_size s = S n -> exists p t, s = p +:+ t /\ String.length p = S n /\
  (forall x, utf8_size (p +:+ x) = S n) /\
  (forall x, str_lit (p +:+ x) = match str_lit x with Some (b, r) => Some (p +:+ b, r) | None => None end).
Proof.
  assert (Hplain : forall c, 128 <= byte c -> forall x, str_lit (String c x) =
    match str_lit x with Some (b, r) => Some (String c b, r) | None => None end).
  { intros c Hc x. cbn [str_lit].
    destruct (Ascii.eqb_spec c dquote) as [->|]; [by vm_compute in Hc|].
    destruct (Ascii.eqb_spec c backslash) as [->|]; [by vm_compute in Hc|].
    replace (byte c <? 32) with false by lia. done. }
  destruct s as [|a [|b s2]]; try done. cbn [utf8_size]. unfold between. intros H.
  destruct ((194 <=? byte a) && (byte a <=? 223)) eqn:Ea.
  { destruct ((128 <=? byte b) && (byte b <=? 191)) eqn:Eb; [|done]. injection H as <-.
    exists (String a (String b "")), s2. split; [done|]. split; [done|]. split.
    - intros x. rewrite !str_app_cons. cbn [utf8_size]. unfold between. by rewrite Ea, Eb.
    - intros x. rewrite !str_app_cons, !Hplain by lia.
      change ("" +:+ x) with x. by destruct (str_lit x) as [[]|]. }
  destruct s2 as [|c s3]; [done|].
  destruct ((224 <=? byte a) && (byte a <=? 239)) eqn:Ea3.
  { destruct (_ && ((128 <=? byte c) && (byte c <=? 191))) eqn:Eb; [|done]. injection H as <-.
    exists (String a (String b (String c ""))), s3. split; [done|]. split; [done|]. split.
    - intros x. rewrite !str_app_cons. cbn [utf8_size]. unfold between. by rewrite Ea, Ea3, Eb.
    - assert (128 <= byte b) by (destruct (byte a =? 224); lia).
      intros x. rewrite !str_app_cons, !Hplain by lia.
      change ("" +:+ x) with x. by destruct (str_lit x) as [[]|]. }
  destruct s3 as [|d s4]; [done|].
  destruct (_ && ((128 <=? byte d) && (byte d <=? 191))) eqn:Eb; [|done]. injection H as <-.
  exists (String a (String b (String c (String d "")))), s4. split; [done|]. split; [done|]. split.
  - intros x. rewrite !str_app_cons. cbn [utf8_size]. unfold between. by rewrite Ea, Ea3, Eb.
  - assert (128 <= byte b) by (destruct (byte a =? 240); lia).
    intros x. rewrite !str_app_cons, !Hplain by lia.
    change ("" +:+ x) with x. by destruct (str_lit x) as [[]|].
Qed.

Lemma separator_spec s : is_separator s = true ->
  exists r t, (r = 8232 \/ r = 8233) /\ s = encode_rune r +:+ t /\
    8232 + from_option byte 0 (String.get 2 s) mod 8 = r.
Proof.
  unfold is_separator. intros [H|H]%orb_prop; apply HasPrefix_drop in H; rewrite H; eexists _, _;
    (split; [|split; [reflexivity|reflexivity]]); vm_compute; auto.
Qed.

Lemma u_escape_read r : r = 8232 \/ r = 8233 -> forall fuel t,
  unquote (S fuel) (u_escape r +:+ t) = encode_rune r +:+ unquote fuel t.
Proof. by intros [-> | ->]. Qed.

Lemma u_escape_lit r t : r = 8232 \/ r = 8233 \/ r = replacement ->
  String.length (u_escape r) = 6%nat /\
  str_lit (u_escape r +:+ t) = match str_lit t with Some (b, x) => Some (u_escape r +:+ b, x) | None => None end.
Proof. by intros [-> | [-> | ->]]. Qed.

(** The text of any string is a literal. *)
Lemma encode_string_lit n : forall s rest, (String.length s <= n)%nat ->
  str_lit (encode_string n s +:+ String dquote rest) = Some (encode_string n s, rest).
Proof.
  induction n as [|n IH]; intros s rest Hn; [by destruct s|].
  destruct s as [|c s1]; [done|]. cbn [encode_string String.length] in *.
  destruct (Z.ltb_spec (byte c) 128) as [Hc|Hc].
  - rewrite <- str_app_assoc. destruct (encode_byte_read c Hc 0 (encode_string n s1 +:+ String dquote rest)) as [_ ->].
    by rewrite IH by lia.
  - destruct (utf8_size (String c s1)) as [|k] eqn:Es.
    { rewrite <- str_app_assoc. destruct (u_escape_lit replacement (encode_string n s1 +:+ String dquote rest)) as [_ ->];
        [by right; right|]. by rewrite IH by lia. }
    destruct (utf8_size_spec _ _ Es) as (p & t & Ep & Hp & _ & Hlit).
    assert (Ht : (S (String.length s1) = String.length p + String.length t)%nat)
      by (rewrite <- str_len_app, <- Ep; done).
    rewrite Ep, <- Hp, str_drop_app, <- str_app_assoc.
    destruct (is_separator (p +:+ t)) eqn:Esep.
    + destruct (separator_spec _ Esep) as (r & t' & Hr & _ & Er). rewrite Er.
      destruct (u_escape_lit r (encode_string n t +:+ String dquote rest)) as [_ ->];
        [destruct Hr as [-> | ->]; auto|]. by rewrite IH by lia.
    + by rewrite str_take_app, Hlit, IH by lia.
Qed.

(** Unquoting the text of a string that is UTF-8. *)
Lemma encode_string_unquote n : forall s fuel, (String.length s <= n)%nat -> valid_utf8 n s = true ->
  (String.length (encode_string n s) <= fuel)%nat -> unquote fuel (encode_string n s) = s.
Proof.
  induction n as [|n IH]; intros s fuel Hn Hv Hf; [destruct s; [by destruct fuel|done]|].
  destruct s as [|c s1]; [by destruct fuel|]. cbn [encode_string valid_utf8 String.length] in *.
  destruct (Z.ltb_spec (byte c) 128) as [Hc|Hc].
  - assert (He : (1 <= String.length (encode_byte c))%nat)
      by (apply Nat.leb_le; destruct c as [[] [] [] [] [] [] [] []]; by vm_compute).
    rewrite str_len_app in Hf. destruct fuel as [|fuel]; [lia|].
    destruct (encode_byte_read c Hc fuel (encode_string n s1)) as [-> _]. by rewrite IH by (done || lia).
  - destruct (utf8_size (String c s1)) as [|k] eqn:Es; [done|].
    destruct (utf8_size_spec _ _ Es) as (p & t & Ep & Hp & Hsize & _).
    rewrite Ep in Hv, Hf |- *. rewrite <- Hp, str_drop_app in Hv, Hf |- *.
    assert (Ht : (S (String.length s1) = String.length p + String.length t)%nat)
      by (rewrite <- str_len_app, <- Ep; done).
    destruct (is_separator (p +:+ t)) eqn:Esep.
    + destruct (separator_spec _ Esep) as (r & t' & Hr & E & Er).
      rewrite Er in Hf |- *.
      assert (Epr : p = encode_rune r /\ t = t').
      { assert (H3 : k = 2%nat) by (rewrite Ep, E in Es; destruct Hr as [-> | ->]; by injection Es).
        rewrite H3 in Hp.
        assert (Hl : String.length (encode_rune r) = String.length p) by (rewrite Hp; by destruct Hr as [-> | ->]).
        split.
        - by rewrite <- (str_take_app p t), <- Hl, E, str_take_app.
        - by rewrite <- (str_drop_app p t), <- Hl, E, str_drop_app. }
      destruct Epr as [-> ->]. rewrite str_len_app in Hf.
      assert (1 <= String.length (u_escape r))%nat by (destruct Hr as [-> | ->]; cbn; lia).
      destruct fuel as [|fuel]; [lia|].
      rewrite (u_escape_read r Hr fuel (encode_string n t')). by rewrite IH by (done || lia).
    + rewrite str_take_app in Hf |- *. rewrite str_len_app in Hf. destruct fuel as [|fuel]; [lia|].
      destruct p as [|c' p]; [done|]. rewrite str_app_cons in Ep. injection Ep as <- _.
      rewrite str_app_cons. cbn [unquote]. rewrite <- str_app_cons.
      destruct (Ascii.eqb_spec c backslash) as [->|]; [by vm_compute in Hc|].
      replace (byte c <? 128) with false by lia. rewrite Hsize, <- Hp, str_take_app, str_drop_app.
      by rewrite IH by (done || lia).
Qed.

(** A string that is UTF-8 is read back from its text. *)
Lemma json_string_read s depth fuel rest : utf8 s = true ->
  json_value (S fuel) depth (json_string s +:+ rest) = Some (JsonString s, rest).
Proof.
  intros Hu. unfold json_string. rewrite str_app_cons. cbn [json_value skip_space].
  replace (is_json_space dquote) with false by reflexivity.
  replace (Ascii.eqb dquote lbrace) with false by reflexivity.
  replace (byte dquote =? 91) with false by reflexivity. rewrite Ascii.eqb_refl.
  rewrite <- str_app_assoc, str_app_cons.
  rewrite encode_string_lit by lia. unfold unquoted. by rewrite encode_string_unquote.
Qed.

(** Any string has a text that is a string value. *)
Lemma json_string_value s depth fuel rest : exists v,
  json_value (S fuel) depth (json_string s +:+ rest) = Some (JsonString v, rest).
Proof.
  unfold json_string. rewrite str_app_cons. cbn [json_value skip_space].
  replace (is_json_space dquote) with false by reflexivity.
  replace (Ascii.eqb dquote lbrace) with false by reflexivity.
  replace (byte dquote =? 91) with false by reflexivity. rewrite Ascii.eqb_refl.
  rewrite <- str_app_assoc, str_app_cons, encode_string_lit by lia. by eexists.
Qed.
