(* ===== verification/JsonCodec.v ===== *)
(** * Typed JSON: decoding into structs, and writing requests

    The decoders are [encoding/json]'s for the types the clients' responses are
    made of: a value of the wrong type is skipped, the decoding goes on, and its
    first error is returned at the end.  The writers are [json.Marshal]'s for
    structs of strings, integers and slices; what they write is read back. *)
From Stdlib Require Import ZArith Lia Ascii Floats.
From stdpp Require Import base list strings gmap.
From S2P Require Import Prelude GoBase GoFmt GoFloat JsonExtract Json.
Set Warnings "-inexact-float".
Open Scope Z_scope.

(** ** Decoding *)

(** From a value and what the variable held: what it holds then, and an
    error. *)
Definition decoder (A : Type) : Type := json -> A -> A * option gerror.

Definition unmarshal_type_error : gerror := EMsg "json: cannot unmarshal %s into Go value of type %s".

Definition first_error (a b : option gerror) : option gerror :=
  match a with Some _ => a | None => b end.

Definition d_string : decoder string := fun v old =>
  match v with
  | JsonString s => (s, None)
  | JsonNull => (old, None)
  | _ => (old, Some unmarshal_type_error)
  end.

(** [strconv.ParseInt(lit, 10, 64)] on a number's text. *)
Fixpoint all_digits (s : string) : bool :=
  match s with
  | EmptyString => true
  | String c s' => is_digit c && all_digits s'
  end.

Fixpoint digits_value (acc : Z) (s : string) : Z :=
  match s with
  | EmptyString => acc
  | String c s' => digits_value (acc * 10 + (byte c - 48)) s'
  end.

Definition ParseInt (lit : string) : option Z :=
  let '(sign, ds) := take_sign lit in
  if all_digits ds && negb (str_eqb ds "") then
    let z := if str_eqb sign "" then digits_value 0 ds else - digits_value 0 ds in
    if (min_int64 <=? z) && (z <=? max_int64) then Some z else None
  else None.

Definition d_int : decoder Z := fun v old =>
  match v with
  | JsonNumber lit =>
      match ParseInt lit with Some z => (z, None) | None => (old, Some unmarshal_type_error) end
  | JsonNull => (old, None)
  | _ => (old, Some unmarshal_type_error)
  end.

Definition d_float : decoder float := fun v old =>
  match v with
  | JsonNull => (old, None)
  | JsonNumber lit =>
      match ParseFloat lit with Ok x => (x, None) | Fail _ => (old, Some unmarshal_type_error) end
  | _ => (old, Some unmarshal_type_error)
  end.

Definition d_bool : decoder bool := fun v old =>
  match v with
  | JsonBool b => (b, None)
  | JsonNull => (old, None)
  | _ => (old, Some unmarshal_type_error)
  end.

(** A struct, by the decoders of its fields. *)
Definition d_member {A} (fields : list (string * decoder A)) (acc : A * option gerror)
    (m : string * string * json) : A * option gerror :=
  match List.find (fun f => is_field f.1 m.1.1) fields with
  | Some f => let '(a, err) := f.2 m.2 acc.1 in (a, first_error acc.2 err)
  | None => acc
  end.

Definition d_struct {A} (fields : list (string * decoder A)) : decoder A := fun v old =>
  match v with
  | JsonObject ms => fold_left (d_member fields) ms (old, None)
  | JsonNull => (old, None)
  | _ => (old, Some unmarshal_type_error)
  end.

(** A slice: an element is decoded over the one there was. *)
Fixpoint d_elements {A} (zero : A) (d : decoder A) (vs : list json) (old : list A)
    : list A * option gerror :=
  match vs with
  | [] => ([], None)
  | v :: vs' =>
      let '(a, err) := d v (default zero (head old)) in
      let '(rest, err') := d_elements zero d vs' (tail old) in
      (a :: rest, first_error err err')
  end.

Definition d_slice {A} (zero : A) (d : decoder A) : decoder (list A) := fun v old =>
  match v with
  | JsonArray vs => d_elements zero d vs old
  | JsonNull => ([], None)
  | _ => (old, Some unmarshal_type_error)
  end.

(** [json.Unmarshal] into a zero variable. *)
Definition Unmarshal {A} (d : decoder A) (zero : A) (text : string) : result A :=
  match Parse text with
  | None => Fail (EMsg "invalid JSON")
  | Some v =>
      match d v zero with
      | (a, None) => Ok a
      | (_, Some err) => Fail err
      end
  end.

(** ** Writing *)

Fixpoint join (sep : string) (l : list string) : string :=
  match l with
  | [] => ""
  | [x] => x
  | x :: l' => x +:+ sep +:+ join sep l'
  end.

Definition write_member (m : string * string) : string := json_string m.1 +:+ ":" +:+ m.2.

Definition write_object (ms : list (string * string)) : string :=
  String lbrace (join "," (write_member <$> ms) +:+ String rbrace "").

Definition write_array (vs : list string) : string := "[" +:+ join "," vs +:+ "]".

(** ** Reading back *)

(** A value is followed by a comma, a closing bracket, or nothing. *)
Definition ended (rest : string) : bool :=
  match rest with
  | EmptyString => true
  | String c _ => mem (byte c) [44; 93; 125]
  end.

(** [text] reads as [v], at any place with room for [nest] brackets. *)
Record reads (nest : Z) (text : string) (v : json) : Prop := {
  reads_head : skip_space text = text /\ text <> "";
  reads_value : forall fuel depth rest, depth + nest <= maxNestingDepth -> ended rest = true ->
    (2 * String.length (text +:+ rest) < fuel)%nat ->
    json_value fuel depth (text +:+ rest) = Some (v, rest);
}.

Lemma skip_space_head c s t : is_json_space c = false -> skip_space (String c s +:+ t) = String c s +:+ t.
Proof. intros H. rewrite str_app_cons. cbn [skip_space]. by rewrite H. Qed.

Lemma skip_space_app text rest : skip_space text = text -> text <> "" ->
  skip_space (text +:+ rest) = text +:+ rest.
Proof.
  destruct text as [|c s]; [done|]. cbn [skip_space]. destruct (is_json_space c) eqn:E.
  - intros H _. exfalso. pose proof (takes_length _ _ (takes_skip s)) as Hl. rewrite H in Hl.
    cbn [String.length] in Hl. lia.
  - intros _ _. by apply skip_space_head.
Qed.

Lemma reads_string nest s : utf8 s = true -> 0 <= nest -> reads nest (json_string s) (JsonString s).
Proof.
  intros Hu _. split; [by split|]. intros [|fuel] depth rest _ _ Hf; [lia|]. by apply json_string_read.
Qed.

Lemma before_app a b : before (a +:+ b) b = a.
Proof. unfold before. rewrite str_len_app, Nat.add_sub. apply str_take_app. Qed.

Lemma ended_skip rest : ended rest = true -> skip_space rest = rest.
Proof.
  destruct rest as [|c rest]; [done|]. cbn [ended skip_space]. intros H%mem_spec.
  destruct (is_json_space c) eqn:E; [|done]. unfold is_json_space in E. apply mem_spec in E.
  set_unfold in H. set_unfold in E. lia.
Qed.

Lemma write_member_text (k text tail : string) :
  write_member (k, text) +:+ tail =
  String dquote (encode_string (String.length k) k +:+ String dquote (String ":" (text +:+ tail))).
Proof.
  unfold write_member, json_string. cbn [fst snd]. rewrite <- !str_app_assoc, !str_app_cons.
  by rewrite <- !str_app_assoc, !str_app_cons.
Qed.

(** One member, and what is after it. *)
Lemma member_read nest (m : string * string) v fuel depth tail :
  utf8 m.1 = true -> reads nest m.2 v -> depth + nest <= maxNestingDepth -> ended tail = true ->
  (2 * String.length (write_member m +:+ tail) < S fuel)%nat ->
  object_fields (S fuel) depth (write_member m +:+ tail) =
    match tail with
    | String e s5 =>
        if byte e =? 44 then
          match object_fields fuel depth s5 with
          | Some (ms, rest) => Some ((m.1, m.2, v) :: ms, rest)
          | None => None
          end
        else if Ascii.eqb e rbrace then Some ([(m.1, m.2, v)], s5) else None
    | EmptyString => None
    end.
Proof.
  intros Hu [[Hh Hne] Hv] Hd Ht Hf. destruct m as [k text]. cbn [fst snd] in *.
  rewrite write_member_text in Hf |- *. cbn [object_fields skip_space].
  replace (is_json_space dquote) with false by reflexivity. rewrite Ascii.eqb_refl.
  rewrite encode_string_lit by lia. unfold unquoted. rewrite encode_string_unquote by done. cbn [skip_space].
  replace (is_json_space ":") with false by reflexivity. replace (byte ":" =? 58) with true by reflexivity.
  cbn [String.length] in Hf. rewrite str_len_app in Hf. cbn [String.length] in Hf.
  rewrite Hv by (done || lia).
  rewrite (skip_space_app text tail Hh Hne), before_app, ended_skip by done. done.
Qed.

(** The members an object's text gives. *)
Definition members_of (ms : list (string * string)) (vs : list json) : list (string * string * json) :=
  zip_with (fun m v => (m.1, m.2, v)) ms vs.

Definition reads_members (nest : Z) (ms : list (string * string)) (vs : list json) : Prop :=
  Forall2 (fun m v => utf8 m.1 = true /\ reads nest m.2 v) ms vs.

Lemma fields_read nest ms vs : reads_members nest ms vs -> ms <> [] -> forall fuel depth rest,
  depth + nest <= maxNestingDepth ->
  (2 * String.length (join "," (write_member <$> ms) +:+ String rbrace rest) < fuel)%nat ->
  object_fields fuel depth (join "," (write_member <$> ms) +:+ String rbrace rest) =
    Some (members_of ms vs, rest).
Proof.
  induction 1 as [|m v ms vs [Hu Hr] Hms IH]; [done|]. intros _ [|fuel] depth rest Hd Hf; [lia|].
  destruct Hms as [|m' v' ms vs Hm' Hms].
  - cbn [fmap list_fmap join] in *. by rewrite (member_read nest m v fuel depth (String rbrace rest) Hu Hr).
  - assert (E : join "," (write_member <$> m :: m' :: ms) +:+ String rbrace rest =
      write_member m +:+ String "," (join "," (write_member <$> m' :: ms) +:+ String rbrace rest))
      by (cbn [fmap list_fmap join]; by rewrite <- !str_app_assoc).
    rewrite E in Hf |- *. rewrite (member_read nest m v) by done.
    replace (byte "," =? 44) with true by reflexivity.
    rewrite str_len_app in Hf. cbn [String.length] in Hf. rewrite IH; [done|done|done|lia].
Qed.

Lemma reads_object nest ms vs : reads_members nest ms vs -> 0 <= nest ->
  reads (nest + 1) (write_object ms) (JsonObject (members_of ms vs)).
Proof.
  intros Hms Hn. split; [by split|]. intros [|fuel] depth rest Hd Hrest Hf; [lia|].
  unfold write_object in *. rewrite str_app_cons, <- str_app_assoc, str_app_cons in *.
  change ("" +:+ rest) with rest in *. cbn [json_value skip_space].
  replace (is_json_space lbrace) with false by reflexivity. rewrite Ascii.eqb_refl.
  replace (maxNestingDepth <=? depth) with false by lia. cbn [String.length] in Hf.
  destruct (decide (ms = [])) as [->|Hne].
  - inversion Hms; subst. cbn [fmap list_fmap join]. change ("" +:+ ?x) with x. cbn [skip_space].
    replace (is_json_space rbrace) with false by reflexivity. by rewrite Ascii.eqb_refl.
  - pose proof (fields_read nest ms vs Hms Hne fuel (depth + 1) rest ltac:(lia) ltac:(lia)) as Hfr.
    destruct ms as [|[k text] ms]; [done|].
    assert (E : exists s, join "," (write_member <$> (k, text) :: ms) +:+ String rbrace rest = String dquote s).
    { destruct ms; cbn [fmap list_fmap join];
        [|rewrite <- str_app_assoc]; rewrite write_member_text; by eexists. }
    destruct E as [s E]. rewrite E in *. cbn [skip_space].
    replace (is_json_space dquote) with false by reflexivity.
    replace (Ascii.eqb dquote rbrace) with false by reflexivity. by rewrite Hfr.
Qed.

Lemma items_read nest texts vs : Forall2 (reads nest) texts vs -> texts <> [] -> forall fuel depth rest,
  depth + nest <= maxNestingDepth ->
  (2 * String.length (join "," texts +:+ String "]" rest) + 1 < fuel)%nat ->
  array_items fuel depth (join "," texts +:+ String "]" rest) = Some (vs, rest).
Proof.
  induction 1 as [|t v ts vs Hr Hts IH]; [done|]. intros _ [|fuel] depth rest Hd Hf; [lia|].
  destruct Hts as [|t' v' ts vs Ht' Hts].
  - cbn [join] in *. cbn [array_items]. by rewrite (reads_value _ _ _ Hr) by (done || lia).
  - assert (E : join "," (t :: t' :: ts) +:+ String "]" rest =
      t +:+ String "," (join "," (t' :: ts) +:+ String "]" rest))
      by (cbn [join]; by rewrite <- !str_app_assoc).
    rewrite E in Hf |- *. cbn [array_items]. rewrite (reads_value _ _ _ Hr) by (done || lia). cbn [skip_space].
    replace (is_json_space ",") with false by reflexivity. replace (byte "," =? 44) with true by reflexivity.
    rewrite str_len_app in Hf. cbn [String.length] in Hf. rewrite IH; [done|done|done|lia].
Qed.

Lemma reads_array nest texts vs : Forall2 (reads nest) texts vs -> texts <> [] -> 0 <= nest ->
  reads (nest + 1) (write_array texts) (JsonArray vs).
Proof.
  intros Hts Hne Hn. split; [by split|]. intros [|fuel] depth rest Hd Hrest Hf; [lia|].
  unfold write_array in *. change ("[" +:+ ?x) with (String "[" x) in *.
  rewrite str_app_cons, <- str_app_assoc in *. change ("]" +:+ ?x) with (String "]" x) in *.
  cbn [json_value skip_space]. replace (is_json_space "[") with false by reflexivity.
  replace (Ascii.eqb "[" lbrace) with false by reflexivity. replace (byte "[" =? 91) with true by reflexivity.
  replace (maxNestingDepth <=? depth) with false by lia. cbn [String.length] in Hf.
  pose proof (items_read nest texts vs Hts Hne fuel (depth + 1) rest ltac:(lia) ltac:(lia)) as Hir.
  destruct Hts as [|t v ts vs Hr Hts]; [done|].
  assert (E : exists c s, join "," (t :: ts) +:+ String "]" rest = String c s /\ is_json_space c = false /\ byte c <> 93).
  { destruct (reads_head _ _ _ Hr) as [Hh Hnt]. destruct t as [|c t]; [done|].
    exists c, (match ts with [] => t | _ => t +:+ String "," (join "," ts) end +:+ String "]" rest).
    split; [by destruct ts|]. split.
    - cbn [skip_space] in Hh. destruct (is_json_space c); [|done]. exfalso.
      pose proof (takes_length _ _ (takes_skip t)) as Hl. rewrite Hh in Hl. cbn [String.length] in Hl. lia.
    - intros Hc. assert (c = "]"%char) as ->.
      { apply (f_equal (fun z => ascii_of_N (Z.to_N z))) in Hc. unfold byte in Hc.
        rewrite N2Z.id, ascii_N_embedding in Hc. exact Hc. }
      pose proof (reads_value _ _ _ Hr (S (2 * String.length (String "]" t +:+ ""))) (maxNestingDepth - nest) "" ltac:(lia) eq_refl ltac:(lia)) as Hv.
      rewrite str_app_cons in Hv. discriminate Hv. }
  destruct E as (c & s & E & Hc & Hc93). rewrite E in *. cbn [skip_space]. rewrite Hc.
  destruct (Z.eqb_spec (byte c) 93); [done|]. by rewrite Hir.
Qed.

(** *** Integers *)

Lemma digit_char n : 0 <= n -> byte (ascii_of_N (48 + Z.to_N (n mod 10))) = 48 + n mod 10.
Proof.
  intros Hn. pose proof (Z.mod_pos_bound n 10). unfold byte. rewrite N_ascii_embedding; lia.
Qed.

Lemma is_digit_char n : 0 <= n -> is_digit (ascii_of_N (48 + Z.to_N (n mod 10))) = true.
Proof. intros Hn. pose proof (Z.mod_pos_bound n 10). unfold is_digit, between. rewrite digit_char; lia. Qed.

(** The digits of a positive number: the first is not a zero. *)
Lemma digits_text fuel : forall n acc, 0 < n < 10 ^ Z.of_nat fuel -> all_digits acc = true ->
  exists c s, digits fuel n acc = String c s /\ byte c <> 48 /\ all_digits (String c s) = true.
Proof.
  induction fuel as [|fuel IH]; intros n acc Hn Ha; [cbn in Hn; lia|]. cbn [digits].
  rewrite Nat2Z.inj_succ, Z.pow_succ_r in Hn by lia. pose proof (Z.mod_pos_bound n 10).
  assert (Hd : all_digits (String (ascii_of_N (48 + Z.to_N (n mod 10))) acc) = true)
    by (cbn [all_digits]; rewrite is_digit_char by lia; exact Ha).
  destruct (Z.ltb_spec n 10).
  - eexists _, _. split; [reflexivity|]. split; [|exact Hd]. rewrite digit_char, Z.mod_small by lia. lia.
  - apply IH; [|exact Hd]. split; [|apply Z.div_lt_upper_bound; lia].
    apply Z.div_str_pos. lia.
Qed.

Lemma span_all_digits s rest : all_digits s = true ->
  match rest with String c _ => is_digit c = false | EmptyString => True end ->
  span_digits (s +:+ rest) = (s, rest).
Proof.
  intros Hs Hr. induction s as [|c s IH].
  - change ("" +:+ rest) with rest. destruct rest as [|c rest]; [done|]. cbn [span_digits]. by rewrite Hr.
  - rewrite str_app_cons. cbn [span_digits all_digits] in *. apply andb_prop in Hs as [-> Hs].
    by rewrite IH.
Qed.

Lemma reads_int nest n : 0 < n -> 0 <= nest -> reads nest (Itoa n) (JsonNumber (Itoa n)).
Proof.
  intros Hn _. unfold Itoa. rewrite Z.abs_eq by lia. destruct (Z.ltb_spec n 0); [lia|].
  set (fuel := S (Z.to_nat (Z.log2 n))).
  destruct (digits_text fuel n "") as (c & s & E & Hc & Hd); [|done|].
  { split; [lia|]. subst fuel. rewrite Nat2Z.inj_succ, Z2Nat.id by apply Z.log2_nonneg.
    pose proof (Z.log2_spec n ltac:(lia)) as [_ Hlog]. pose proof (Z.log2_nonneg n).
    eapply Z.lt_le_trans; [exact Hlog|]. apply Z.pow_le_mono_l. lia. }
  rewrite E. pose proof Hd as Hd'. cbn [all_digits] in Hd'. apply andb_prop in Hd' as [Hcd _].
  unfold is_digit, between in Hcd.
  assert (Hsp : is_json_space c = false).
  { unfold is_json_space. destruct (mem _ _) eqn:Em; [|done]. apply mem_spec in Em. set_unfold in Em. lia. }
  split; [split; [|done]; cbn [skip_space]; by rewrite Hsp|].
  intros [|fuel'] depth rest _ Hrest Hf; [lia|]. rewrite str_app_cons. cbn [json_value skip_space]. rewrite Hsp.
  assert (Hne : forall d, byte d <> byte c -> Ascii.eqb c d = false)
    by (intros d Hd0; apply Ascii.eqb_neq; congruence).
  rewrite (Hne lbrace), (Hne dquote) by (change (byte lbrace) with 123; change (byte dquote) with 34; lia).
  replace (byte c =? 91) with false by lia.
  assert (Hp : forall w d s', w = String d s' -> byte d <> byte c -> HasPrefix (String c (s +:+ rest)) w = false).
  { intros w d s' -> Hd0. cbn [HasPrefix]. replace (Ascii.eqb d c) with false; [done|].
    symmetry. apply Ascii.eqb_neq. congruence. }
  assert (Hb : byte "t" = 116 /\ byte "f" = 102 /\ byte "n" = 110) by done.
  rewrite (Hp "true" "t"%char "rue" eq_refl), (Hp "false" "f"%char "alse" eq_refl), (Hp "null" "n"%char "ull" eq_refl)
    by lia.
  unfold number, take_sign, int_part. replace (byte c =? 45) with false by lia.
  replace (byte c =? 48) with false by lia.
  assert (Hspan : some_digits "" (String c (s +:+ rest)) = Some (String c s, rest)).
  { unfold some_digits. rewrite <- str_app_cons, span_all_digits; [done|exact Hd|].
    destruct rest as [|d rest]; [done|]. cbn [ended] in Hrest. apply mem_spec in Hrest. set_unfold in Hrest.
    unfold is_digit, between. lia. }
  rewrite Hspan. destruct rest as [|d rest]; cbn [frac_part exp_part]; [by rewrite !str_app_nil|].
  cbn [ended] in Hrest. apply mem_spec in Hrest. set_unfold in Hrest.
  replace (byte d =? 46) with false by lia. cbn [exp_part].
  destruct (mem (byte d) [101; 69]) eqn:Em; [apply mem_spec in Em; set_unfold in Em; lia|].
  by rewrite !str_app_nil.
Qed.
