(* ===== verification/Review.v ===== *)
(** * The language-model reviews of an offspring and of a dead agent
      ([internal/orchestrator/quality_check.go], [adversarial.go],
      [postmortem.go])

    Every review turns a model's answer into a closed set of verdicts.  The
    client is an interface over a state of its own; [encoding/json] on the
    prompts and on the answers is a parameter, and so is the text of an error. *)
From Stdlib Require Import ZArith Lia Floats.
From stdpp Require Import base list strings gmap.
From S2P Require Import Prelude GoBase GoFloat GoRound Genome JsonExtract.
Set Warnings "-inexact-float".
Open Scope Z_scope.

(** [llm.LLMResponse]. *)
Record LLMResponse := {
  Content : string;
  InputTokens : Z;
  OutputTokens : Z;
  CostUSD : float;
  Model : string;
}.

(** [llm.LLMClient]: completions in sequence. *)
Class LLMClient := {
  llm_state : Type;
  Complete : string -> string -> Z -> llm_state -> result LLMResponse * llm_state;
}.

(** ** Data *)

Inductive QualityVerdict := VerdictApprove | VerdictReject | VerdictRevise.

Record QualityResult := {
  q_Verdict : QualityVerdict;
  q_Reasoning : string;
  SuggestedRevisions : string;
  q_CostUSD : float;
  q_ModelUsed : string;
  q_InputTokens : Z;
  q_OutputTokens : Z;
}.

Record GenomeSummary := {
  gs_AgentID : string;
  gs_Name : string;
  gs_TaskType : string;
  gs_Chain : string;
  gs_Model : string;
  gs_Generation : Z;
}.

Record SwarmContext := { DiversityScore_ : float; ExistingGenomes : list GenomeSummary }.

Record rawQualityResponse := {
  rq_Verdict : string; rq_Reasoning : string; rq_SuggestedRevisions : string }.

Inductive AdversarialVerdict := AdversarialApprove | AdversarialReject | AdversarialRevise.

Record AdversarialResult := {
  a_Verdict : AdversarialVerdict;
  BullCase : string;
  BearCase : string;
  Synthesis : string;
  a_CostUSD : float;
  a_ModelUsed : string;
  a_InputTokens : Z;
  a_OutputTokens : Z;
}.

Record rawSynthesisResponse := { rs_Verdict : string; rs_Synthesis : string }.

Inductive LessonCategory :=
  | LessonStrategyDrift | LessonRegimeMismatch | LessonCostBreach | LessonUnrecoverableLoss
  | LessonUnknown.

Record PostmortemInput := {
  pm_AgentID : string;
  pm_Name : string;
  pm_TaskType : string;
  pm_Chain : string;
  pm_Model : string;
  pm_Generation : Z;
  KillReason : string;
  FinalBalanceUSD : float;
  FinalDrawdown : float;
  LifetimeNetProfitUSD : float;
  LifetimeLLMCostUSD : float;
  EpochsLived : Z;
  LastStrategistNote : string;
}.

Record PostmortemResult := {
  Category : LessonCategory;
  pr_Summary : string;
  Diagnosis : string;
  pr_CostUSD : float;
  pr_ModelUsed : string;
  pr_InputTokens : Z;
  pr_OutputTokens : Z;
}.

Record rawPostmortemResponse := { rp_Category : string; rp_Summary : string; rp_Diagnosis : string }.

(** [encoding/json] as the reviews use it; the decoders take the first JSON
    value of their input. *)
Class ReviewCodec := {
  marshal_candidate : AgentGenome -> SwarmContext -> result string;
  marshal_postmortem : PostmortemInput -> result string;
  decode_quality : string -> result rawQualityResponse;
  decode_synthesis : string -> result rawSynthesisResponse;
  decode_postmortem : string -> result rawPostmortemResponse;
  error_text : gerror -> string;
}.

(** The system prompts: their text plays no part beyond being sent. *)
Class Prompts := {
  qualityCheckSystem : string;
  promptRewriteSystem : string;
  adversarialBullSystem : string;
  adversarialBearSystem : string;
  adversarialSynthesisSystem : string;
  postmortemSystem : string;
}.

Section Reviews.
Context {C : ReviewCodec} {P : Prompts} {L : LLMClient}.
Context (unicode_lower : string -> string).

Definition normal (s : string) : string := ToLower unicode_lower (TrimSpace s).

Definition max_tokens (default maxTokens : Z) : Z := if maxTokens <=? 0 then default else maxTokens.

(** ** Quality check *)

Definition buildQualityUserPrompt (candidate : AgentGenome) (swarm : SwarmContext) : result string :=
  marshal_candidate candidate swarm.

Definition parseQualityResponse (s : string) : result rawQualityResponse :=
  let body := extractJSONObject s in
  if str_eqb body "" then Fail (EMsg "no JSON object found")
  else match decode_quality body with
       | Fail err => Fail err
       | Ok out =>
           if str_eqb (rq_Verdict out) "" then Fail (EMsg "missing verdict")
           else if str_eqb (rq_Reasoning out) "" then Fail (EMsg "missing reasoning")
           else Ok out
       end.

Definition normalizeVerdict (s : string) : QualityVerdict :=
  if str_eqb (normal s) "approve" then VerdictApprove
  else if str_eqb (normal s) "reject" then VerdictReject
  else if str_eqb (normal s) "revise" then VerdictRevise
  else VerdictRevise.

(** The result for an answer. *)
Definition quality_result (resp : LLMResponse) : QualityResult :=
  match parseQualityResponse (Content resp) with
  | Fail parseErr => {|
      q_Verdict := VerdictRevise;
      q_Reasoning := "parse_error: " +:+ error_text parseErr +:+ "; raw=" +:+ truncate (Content resp) 240;
      SuggestedRevisions := ""; q_CostUSD := CostUSD resp; q_ModelUsed := Model resp;
      q_InputTokens := InputTokens resp; q_OutputTokens := OutputTokens resp |}
  | Ok raw =>
      let verdict := normalizeVerdict (rq_Verdict raw) in {|
      q_Verdict := verdict;
      q_Reasoning :=
        if (match verdict with VerdictRevise => true | _ => false end) && str_eqb (rq_Reasoning raw) ""
        then "verdict downgraded to revise: " +:+ truncate (rq_Verdict raw) 80
        else rq_Reasoning raw;
      SuggestedRevisions := rq_SuggestedRevisions raw;
      q_CostUSD := CostUSD resp; q_ModelUsed := Model resp;
      q_InputTokens := InputTokens resp; q_OutputTokens := OutputTokens resp |}
  end.

(** [client] tells whether there is one. *)
Definition QualityCheck (client : bool) (candidate : AgentGenome) (swarm : SwarmContext)
    (maxTokens : Z) (st : llm_state) : result QualityResult * llm_state :=
  if negb client then (Fail (EMsg "quality_check: nil llm client"), st)
  else
    match buildQualityUserPrompt candidate swarm with
    | Fail err => (Fail (EWrap "quality_check: build prompt: %w" err), st)
    | Ok user =>
        match Complete qualityCheckSystem user (max_tokens 1024 maxTokens) st with
        | (Fail err, st) => (Fail (EWrap "quality_check: llm.Complete: %w" err), st)
        | (Ok resp, st) => (Ok (quality_result resp), st)
        end
    end.

Definition nl : string := String (Ascii.ascii_of_N 10) "".

Definition rewrite_prompt (parentPrompt mutationMarker : string) : string :=
  "PARENT PROMPT:" +:+ nl +:+ parentPrompt +:+ nl +:+ nl +:+ "MUTATION MARKER: " +:+ mutationMarker +:+
  nl +:+ nl +:+ "Rewrite the parent prompt with a single small variation. Output the rewritten prompt only, no commentary, no markdown fences.".

Definition RewriteStrategistPrompt (client : bool) (parentPrompt mutationMarker : string)
    (maxTokens : Z) (st : llm_state) : result (string * float) * llm_state :=
  if negb client then (Fail (EMsg "quality_check: nil llm client"), st)
  else if str_eqb parentPrompt "" then (Fail (EMsg "quality_check: empty parent prompt"), st)
  else
    match Complete promptRewriteSystem (rewrite_prompt parentPrompt mutationMarker)
            (max_tokens 512 maxTokens) st with
    | (Fail err, st) => (Fail (EWrap "quality_check: rewrite: %w" err), st)
    | (Ok resp, st) =>
        let rewritten := TrimSpace (Content resp) in
        if str_eqb rewritten "" then (Ok (parentPrompt, CostUSD resp), st)
        else (Ok (rewritten, CostUSD resp), st)
    end.

(** ** Adversarial review *)

Definition marshalAdversarialPayload (candidate : AgentGenome) (swarm : SwarmContext) : result string :=
  marshal_candidate candidate swarm.

Definition normalizeAdversarialVerdict (s : string) : AdversarialVerdict :=
  if str_eqb (normal s) "approve" then AdversarialApprove
  else if str_eqb (normal s) "reject" then AdversarialReject
  else if str_eqb (normal s) "revise" then AdversarialRevise
  else AdversarialRevise.

Definition parseSynthesis (s : string) : result (AdversarialVerdict * string) :=
  let body := extractJSONObject s in
  if str_eqb body "" then Fail (EMsg "no JSON object in synthesis")
  else match decode_synthesis body with
       | Fail err => Fail err
       | Ok raw =>
           if str_eqb (rs_Verdict raw) "" then Fail (EMsg "missing verdict")
           else if str_eqb (rs_Synthesis raw) "" then Fail (EMsg "missing synthesis")
           else Ok (normalizeAdversarialVerdict (rs_Verdict raw), rs_Synthesis raw)
       end.

Definition synth_prompt (payload bullText bearText : string) : string :=
  payload +:+ nl +:+ nl +:+ "BULL CASE:" +:+ nl +:+ bullText +:+ nl +:+ nl +:+ "BEAR CASE:" +:+ nl +:+
  bearText.

Definition adversarial_result (bull bear synth : LLMResponse) : AdversarialResult :=
  let '(verdict, synthesis) :=
    match parseSynthesis (Content synth) with
    | Fail parseErr =>
        (AdversarialRevise,
         "parse_error: " +:+ error_text parseErr +:+ "; raw=" +:+ truncate (Content synth) 240)
    | Ok vs => vs
    end in
  {| a_Verdict := verdict; BullCase := TrimSpace (Content bull); BearCase := TrimSpace (Content bear);
     Synthesis := synthesis;
     a_CostUSD := (CostUSD bull + CostUSD bear + CostUSD synth)%float; a_ModelUsed := Model synth;
     a_InputTokens := wrap64 (wrap64 (InputTokens bull + InputTokens bear) + InputTokens synth);
     a_OutputTokens := wrap64 (wrap64 (OutputTokens bull + OutputTokens bear) + OutputTokens synth) |}.

Definition AdversarialReview (client : bool) (candidate : AgentGenome) (swarm : SwarmContext)
    (maxTokens : Z) (st : llm_state) : result AdversarialResult * llm_state :=
  if negb client then (Fail (EMsg "adversarial: nil llm client"), st)
  else
    let maxTokens := max_tokens 1024 maxTokens in
    match marshalAdversarialPayload candidate swarm with
    | Fail err => (Fail (EWrap "adversarial: build payload: %w" err), st)
    | Ok payload =>
        match Complete adversarialBullSystem payload maxTokens st with
        | (Fail err, st) => (Fail (EWrap "adversarial: bull call: %w" err), st)
        | (Ok bull, st) =>
            match Complete adversarialBearSystem payload maxTokens st with
            | (Fail err, st) => (Fail (EWrap "adversarial: bear call: %w" err), st)
            | (Ok bear, st) =>
                match Complete adversarialSynthesisSystem
                        (synth_prompt payload (TrimSpace (Content bull)) (TrimSpace (Content bear)))
                        maxTokens st with
                | (Fail err, st) => (Fail (EWrap "adversarial: synthesis call: %w" err), st)
                | (Ok synth, st) => (Ok (adversarial_result bull bear synth), st)
                end
            end
        end
    end.

(** ** Postmortem *)

Definition normalizeLessonCategory (s : string) : LessonCategory :=
  if str_eqb (normal s) "strategy_drift" then LessonStrategyDrift
  else if str_eqb (normal s) "regime_mismatch" then LessonRegimeMismatch
  else if str_eqb (normal s) "cost_breach" then LessonCostBreach
  else if str_eqb (normal s) "unrecoverable_loss" then LessonUnrecoverableLoss
  else LessonUnknown.

Definition lesson (resp : LLMResponse) (c : LessonCategory) (summary diagnosis : string)
    : PostmortemResult := {|
  Category := c; pr_Summary := summary; Diagnosis := diagnosis; pr_CostUSD := CostUSD resp;
  pr_ModelUsed := Model resp; pr_InputTokens := InputTokens resp; pr_OutputTokens := OutputTokens resp |}.

Definition postmortem_result (resp : LLMResponse) : PostmortemResult :=
  let raw_text := truncate (Content resp) 240 in
  let body := extractJSONObject (Content resp) in
  if str_eqb body "" then
    lesson resp LessonUnknown "" ("parse_error: no JSON object; raw=" +:+ raw_text)
  else match decode_postmortem body with
       | Fail err =>
           lesson resp LessonUnknown "" ("parse_error: " +:+ error_text err +:+ "; raw=" +:+ raw_text)
       | Ok raw =>
           if str_eqb (rp_Category raw) "" || str_eqb (rp_Summary raw) "" || str_eqb (rp_Diagnosis raw) ""
           then lesson resp LessonUnknown (rp_Summary raw) ("incomplete_response: " +:+ raw_text)
           else lesson resp (normalizeLessonCategory (rp_Category raw)) (rp_Summary raw) (rp_Diagnosis raw)
       end.

Definition GeneratePostmortem (client : bool) (input : PostmortemInput) (maxTokens : Z) (st : llm_state)
    : result PostmortemResult * llm_state :=
  if negb client then (Fail (EMsg "postmortem: nil llm client"), st)
  else if str_eqb (pm_AgentID input) "" then (Fail (EMsg "postmortem: empty agent id"), st)
  else
    match marshal_postmortem input with
    | Fail err => (Fail (EWrap "postmortem: marshal input: %w" err), st)
    | Ok user =>
        match Complete postmortemSystem user (max_tokens 768 maxTokens) st with
        | (Fail err, st) => (Fail (EWrap "postmortem: llm.Complete: %w" err), st)
        | (Ok resp, st) => (Ok (postmortem_result resp), st)
        end
    end.

(** ** What the verdicts mean *)

(** The answer holds an object that decodes to a verdict and its reasons. *)
Definition says (resp : LLMResponse) (word : string) : Prop :=
  exists body raw, extractJSONObject (Content resp) = body /\ body <> "" /\
    decode_quality body = Ok raw /\ rq_Verdict raw <> "" /\ rq_Reasoning raw <> "" /\
    normal (rq_Verdict raw) = word.

Lemma parseQualityResponse_iff s raw :
  parseQualityResponse s = Ok raw <->
  extractJSONObject s <> "" /\ decode_quality (extractJSONObject s) = Ok raw /\
  rq_Verdict raw <> "" /\ rq_Reasoning raw <> "".
Proof.
  unfold parseQualityResponse, str_eqb.
  destruct (bool_decide_reflect (extractJSONObject s = "")) as [E|E]; [split; [done|tauto]|].
  destruct (decode_quality (extractJSONObject s)) as [out|err].
  2: { split; [done|]. by intros (_ & ? & _). }
  destruct (bool_decide_reflect (rq_Verdict out = "")) as [E1|E1].
  { split; [done|]. intros (_ & [= ->] & ? & _). tauto. }
  destruct (bool_decide_reflect (rq_Reasoning out = "")) as [E2|E2].
  { split; [done|]. intros (_ & [= ->] & _ & ?). tauto. }
  split; [by intros [= ->]|]. by intros (_ & ? & _).
Qed.

Lemma says_iff resp word :
  says resp word <->
  exists raw, parseQualityResponse (Content resp) = Ok raw /\ normal (rq_Verdict raw) = word.
Proof.
  unfold says. setoid_rewrite parseQualityResponse_iff. split.
  - intros (body & raw & <- & ?). exists raw. tauto.
  - intros (raw & ? & ?). exists (extractJSONObject (Content resp)), raw. tauto.
Qed.

Lemma normalizeVerdict_iff s :
  (normalizeVerdict s = VerdictApprove <-> normal s = "approve") /\
  (normalizeVerdict s = VerdictReject <-> normal s = "reject").
Proof.
  unfold normalizeVerdict, str_eqb. generalize (normal s). intros w.
  destruct (bool_decide_reflect (w = "approve")) as [->|]; [by split; split|].
  destruct (bool_decide_reflect (w = "reject")) as [->|]; [by split; split|].
  destruct (bool_decide _); by split; split.
Qed.

(** The check asks the model once, and only with a client and a prompt
    that marshals; an answer is always charged, approves or rejects exactly
    when its JSON object says so with a reason, and is a revise otherwise,
    malformed answers included. *)
Theorem QualityCheck_spec client candidate swarm maxTokens st :
  let '(r, st') := QualityCheck client candidate swarm maxTokens st in
  match client, marshal_candidate candidate swarm with
  | true, Ok user =>
      let '(c, st1) := Complete qualityCheckSystem user (max_tokens 1024 maxTokens) st in
      st' = st1 /\
      match c with
      | Fail err => r = Fail (EWrap "quality_check: llm.Complete: %w" err)
      | Ok resp =>
          exists q, r = Ok q /\ q_CostUSD q = CostUSD resp /\
            (q_Verdict q = VerdictApprove <-> says resp "approve") /\
            (q_Verdict q = VerdictReject <-> says resp "reject") /\
            q_Reasoning q <> ""
      end
  | _, _ => is_ok r = false /\ st' = st
  end.
Proof.
  unfold QualityCheck, buildQualityUserPrompt. destruct client; [|done]. cbn [negb].
  destruct (marshal_candidate candidate swarm) as [user|err]; [|done].
  destruct (Complete _ _ _ st) as [[resp|err] st1]; [|done]. split; [done|].
  exists (quality_result resp). split; [done|]. unfold quality_result. rewrite !says_iff.
  destruct (parseQualityResponse (Content resp)) as [raw|err] eqn:E; cbn.
  - apply parseQualityResponse_iff in E as (_ & _ & _ & Hr).
    destruct (normalizeVerdict_iff (rq_Verdict raw)) as [Ha Hj].
    split; [done|]. rewrite Ha, Hj. split; [|split].
    + split; [intros ?; by exists raw|]. by intros (? & [= <-] & ?).
    + split; [intros ?; by exists raw|]. by intros (? & [= <-] & ?).
    + unfold str_eqb. rewrite (bool_decide_eq_false_2 (rq_Reasoning raw = "")) by done.
      by rewrite andb_false_r.
  - split; [done|]. split; [|split].
    + split; [done|]. by intros (? & ? & _).
    + split; [done|]. by intros (? & ? & _).
    + done.
Qed.

(** The three calls of a review that gets all its answers, in order. *)
Definition debate (payload : string) (maxTokens : Z) (st : llm_state)
    (bull bear synth : LLMResponse) (st3 : llm_state) : Prop :=
  exists st1 st2,
    Complete adversarialBullSystem payload maxTokens st = (Ok bull, st1) /\
    Complete adversarialBearSystem payload maxTokens st1 = (Ok bear, st2) /\
    Complete adversarialSynthesisSystem
      (synth_prompt payload (TrimSpace (Content bull)) (TrimSpace (Content bear))) maxTokens st2 =
    (Ok synth, st3).

(** A review has a verdict exactly when all three calls, bull, bear and
    synthesis in that order, are answered; it charges the three and follows
    the synthesis: only an object with a verdict of its own and a synthesis
    approves or rejects, anything else is a revise. *)
Theorem AdversarialReview_spec client candidate swarm maxTokens st a st' :
  AdversarialReview client candidate swarm maxTokens st = (Ok a, st') <->
  client = true /\
  exists payload bull bear synth,
    marshal_candidate candidate swarm = Ok payload /\
    debate payload (max_tokens 1024 maxTokens) st bull bear synth st' /\
    a_CostUSD a = (CostUSD bull + CostUSD bear + CostUSD synth)%float /\
    BullCase a = TrimSpace (Content bull) /\ BearCase a = TrimSpace (Content bear) /\
    match parseSynthesis (Content synth) with
    | Ok (v, s) => a_Verdict a = v /\ Synthesis a = s
    | Fail err => a_Verdict a = AdversarialRevise /\
        Synthesis a = "parse_error: " +:+ error_text err +:+ "; raw=" +:+ truncate (Content synth) 240
    end /\
    a_ModelUsed a = Model synth /\
    a_InputTokens a = wrap64 (wrap64 (InputTokens bull + InputTokens bear) + InputTokens synth) /\
    a_OutputTokens a = wrap64 (wrap64 (OutputTokens bull + OutputTokens bear) + OutputTokens synth).
Proof.
  unfold AdversarialReview, marshalAdversarialPayload, debate.
  destruct client; cbn [negb]; [|split; [done|by intros [? _]]].
  destruct (marshal_candidate candidate swarm) as [payload|err].
  2: { split; [done|]. by intros (_ & ? & ? & ? & ? & ? & _). }
  set (mt := max_tokens 1024 maxTokens). split.
  - intros H. split; [done|].
    destruct (Complete adversarialBullSystem payload mt st) as [[bull|] st1] eqn:E1; [|done].
    destruct (Complete adversarialBearSystem payload mt st1) as [[bear|] st2] eqn:E2; [|done].
    destruct (Complete adversarialSynthesisSystem _ mt st2) as [[synth|] st3] eqn:E3; [|done].
    injection H as <- <-. exists payload, bull, bear, synth. split; [done|].
    split; [by exists st1, st2|]. unfold adversarial_result.
    by destruct (parseSynthesis (Content synth)) as [[v s]|err].
  - intros (_ & p & bull & bear & synth & [= <-] & (st1 & st2 & E1 & E2 & E3) & H).
    rewrite E1, E2, E3. f_equal. f_equal. unfold adversarial_result.
    destruct H as (H1 & H2 & H3 & H4 & H5 & H6 & H7), a. cbn in *.
    destruct (parseSynthesis (Content synth)) as [[v s]|err]; destruct H4; congruence.
Qed.

(** A postmortem is asked for once, and only for a named agent; every
    answer gives a lesson that is charged, and a lesson with a category
    other than unknown is one the answer's object names with a summary and a
    diagnosis. *)
Theorem GeneratePostmortem_spec client input maxTokens st r st' :
  GeneratePostmortem client input maxTokens st = (Ok r, st') ->
  client = true /\ pm_AgentID input <> "" /\
  exists user resp,
    marshal_postmortem input = Ok user /\
    Complete postmortemSystem user (max_tokens 768 maxTokens) st = (Ok resp, st') /\
    pr_CostUSD r = CostUSD resp /\
    (Category r <> LessonUnknown ->
     exists raw, decode_postmortem (extractJSONObject (Content resp)) = Ok raw /\
       normalizeLessonCategory (rp_Category raw) = Category r /\
       pr_Summary r = rp_Summary raw /\ Diagnosis r = rp_Diagnosis raw /\
       pr_Summary r <> "" /\ Diagnosis r <> "").
Proof.
  unfold GeneratePostmortem, str_eqb. destruct client; cbn [negb]; [|done].
  destruct (bool_decide_reflect (pm_AgentID input = "")) as [|Hid]; [done|].
  destruct (marshal_postmortem input) as [user|]; [|done].
  destruct (Complete _ _ _ st) as [[resp|] st1] eqn:E; [|done]. intros [= <- <-].
  split; [done|]. split; [done|]. exists user, resp. split; [done|]. split; [done|].
  unfold postmortem_result, str_eqb.
  destruct (bool_decide (extractJSONObject (Content resp) = "")); [done|].
  destruct (decode_postmortem (extractJSONObject (Content resp))) as [raw|err]; [|done].
  destruct (bool_decide_reflect (rp_Category raw = "")); [done|].
  destruct (bool_decide_reflect (rp_Summary raw = "")); [done|].
  destruct (bool_decide_reflect (rp_Diagnosis raw = "")); [done|]. cbn.
  split; [done|]. intros _. by exists raw.
Qed.
End Reviews.
