(* ===== verification/Strategist.v ===== *)
(** * The strategist ([internal/agent/strategist.go])

    The slow loop of one agent: the state of its task is sent to the model, the
    JSON object in the answer is decoded and its changes go to the task, and a
    decision row is stored.  The answer is read by the JSON model of [Json]; the
    task is any strategy of the [Task] interface, the client and the store are
    interfaces, and [json.Marshal] of what is sent and stored is a parameter. *)
From Stdlib Require Import ZArith Lia Ascii Floats.
From stdpp Require Import base list strings gmap.
From S2P Require Import Prelude GoBase GoFloat GoRound NodeRunner LiquidityProvision LearnedRules Genome Task Bandit JsonExtract Json Review.
Set Warnings "-inexact-float".
Open Scope Z_scope.

(** ** The answer *)

(** A value of a decoded [map[string]interface{}], under [UseNumber]. *)
Inductive interface :=
  | INumber (lit : string)
  | IFloat64 (x : float)
  | IJson (v : json).

(** A [json.RawMessage] is its bytes, none of them when it is nil. *)
Record StrategistResponse := {
  Reasoning : string;
  ConfigChanges : option (gmap string interface);
  ActionSignal : string;
  OffspringProposal : string;
  IntelBroadcasts : string;
  NewLearnedRule : string;
}.

Definition validActionSignals : list string := ["continue"; "pause"; "aggressive"; "defensive"].

Definition no_response : StrategistResponse := {|
  Reasoning := ""; ConfigChanges := None; ActionSignal := ""; OffspringProposal := "";
  IntelBroadcasts := ""; NewLearnedRule := "" |}.

Definition with_reasoning (r : StrategistResponse) (x : string) : StrategistResponse := {|
  Reasoning := x; ConfigChanges := ConfigChanges r; ActionSignal := ActionSignal r;
  OffspringProposal := OffspringProposal r; IntelBroadcasts := IntelBroadcasts r;
  NewLearnedRule := NewLearnedRule r |}.

Definition with_changes (r : StrategistResponse) (x : option (gmap string interface)) : StrategistResponse := {|
  Reasoning := Reasoning r; ConfigChanges := x; ActionSignal := ActionSignal r;
  OffspringProposal := OffspringProposal r; IntelBroadcasts := IntelBroadcasts r;
  NewLearnedRule := NewLearnedRule r |}.

Definition with_signal (r : StrategistResponse) (x : string) : StrategistResponse := {|
  Reasoning := Reasoning r; ConfigChanges := ConfigChanges r; ActionSignal := x;
  OffspringProposal := OffspringProposal r; IntelBroadcasts := IntelBroadcasts r;
  NewLearnedRule := NewLearnedRule r |}.

Definition with_raw (r : StrategistResponse) (proposal broadcasts rule : string) : StrategistResponse := {|
  Reasoning := Reasoning r; ConfigChanges := ConfigChanges r; ActionSignal := ActionSignal r;
  OffspringProposal := proposal; IntelBroadcasts := broadcasts; NewLearnedRule := rule |}.

(** *** Decoding into the struct *)

Definition type_error : gerror := EMsg "json: cannot unmarshal %s into Go struct field %s of type %s".

Definition interface_of (v : json) : interface :=
  match v with JsonNumber lit => INumber lit | _ => IJson v end.

(** A string field keeps its value on null. *)
Definition string_field (v : json) (old : string) : result string :=
  match v with
  | JsonString s => Ok s
  | JsonNull => Ok old
  | _ => Fail type_error
  end.

(** An object is merged into the map there is; null makes it nil. *)
Definition map_field (v : json) (old : option (gmap string interface))
    : result (option (gmap string interface)) :=
  match v with
  | JsonObject ms =>
      Ok (Some (fold_left (fun m x => <[x.1.1 := interface_of x.2]> m) ms (default ∅ old)))
  | JsonNull => Ok None
  | _ => Fail type_error
  end.

(** A member goes to the field its key selects; a member of the wrong type is
    skipped and makes the decoding fail. *)
Definition decode_member (r : StrategistResponse) (m : string * string * json) : result StrategistResponse :=
  let '(key, raw, v) := m in
  if is_field "reasoning" key then
    match string_field v (Reasoning r) with Ok x => Ok (with_reasoning r x) | Fail err => Fail err end
  else if is_field "config_changes" key then
    match map_field v (ConfigChanges r) with Ok x => Ok (with_changes r x) | Fail err => Fail err end
  else if is_field "action_signal" key then
    match string_field v (ActionSignal r) with Ok x => Ok (with_signal r x) | Fail err => Fail err end
  else if is_field "offspring_proposal" key then
    Ok (with_raw r raw (IntelBroadcasts r) (NewLearnedRule r))
  else if is_field "intel_broadcasts" key then
    Ok (with_raw r (OffspringProposal r) raw (NewLearnedRule r))
  else if is_field "new_learned_rule" key then
    Ok (with_raw r (OffspringProposal r) (IntelBroadcasts r) raw)
  else Ok r.

Definition decode_step (acc : StrategistResponse * option gerror) (m : string * string * json)
    : StrategistResponse * option gerror :=
  match decode_member acc.1 m with
  | Ok r => (r, acc.2)
  | Fail err => (acc.1, match acc.2 with None => Some err | Some _ => acc.2 end)
  end.

Definition decode_response (body : string) : result StrategistResponse :=
  match DecodeFirst body with
  | None => Fail (EMsg "invalid JSON")
  | Some (JsonObject ms, _) =>
      match fold_left decode_step ms (no_response, None) with
      | (r, None) => Ok r
      | (_, Some err) => Fail err
      end
  | Some _ => Fail type_error
  end.

(** A number becomes a [float64] when it is in range. *)
Definition normalized (v : interface) : interface :=
  match v with
  | INumber lit => match ParseFloat lit with Ok f => IFloat64 f | Fail _ => v end
  | _ => v
  end.

Definition normalizeNumbers (m : gmap string interface) : gmap string interface := normalized <$> m.

Definition parseStrategistResponse (s : string) : result StrategistResponse :=
  let body := extractJSONObject s in
  if str_eqb body "" then Fail (EMsg "no JSON object found in response")
  else
    match decode_response body with
    | Fail err => Fail err
    | Ok out => Ok (with_changes out (normalizeNumbers <$> ConfigChanges out))
    end.

(** How a task's [ApplyAdjustments] sees a value. *)
Definition to_any (v : interface) : any :=
  match v with
  | INumber lit => ANumber (ParseFloat lit)
  | IFloat64 x => AFloat64 x
  | IJson (JsonBool b) => ABool b
  | IJson JsonNull => AOther "nil"
  | IJson (JsonString _) => AOther "string"
  | IJson (JsonArray _) => AOther "[]interface {}"
  | IJson (JsonObject _) => AOther "map[string]interface {}"
  | IJson (JsonNumber lit) => ANumber (ParseFloat lit)
  end.

Definition appendNote (prev note : string) : string :=
  if str_eqb prev "" then note else prev +:+ " | " +:+ note.

(** ** A cycle *)

Record StrategistInput := {
  si_AgentName : string;
  si_TaskType : string;
  si_Chain : string;
  si_State : list (string * jval);
  si_Bandit : option (list (string * string * json));
  si_Postmortems : list string;
  si_IntelSummary : list string;
  si_LearnedRules : list LearnedRule;
}.

(** [db.StrategistDecision]. *)
Record StrategistDecision := {
  d_AgentID : string;
  d_InputSummary : string;
  d_OutputRaw : string;
  d_ConfigChanges : string;
  d_Reasoning : string;
  d_IntelBroadcasts : string;
  d_OffspringProposalSubmitted : bool;
  d_NewLearnedRule : string;
  d_ModelUsed : string;
  d_InputTokens : Z;
  d_OutputTokens : Z;
  d_CostUSD : float;
}.

Class DecisionStore := {
  store_state : Type;
  LogStrategistDecision : StrategistDecision -> store_state -> option gerror * store_state;
}.

(** [json.Marshal] of what is sent and stored, and the text of an error. *)
Class StrategistCodec := {
  marshal_input : StrategistInput -> result string;
  marshal_changes : gmap string interface -> result string;
  strategist_error : gerror -> string;
}.

(** [GetStateSummary] of a task. *)
Class Summary (T : Type) := { state_summary : Env -> T -> result (list (string * jval)) }.

Section Strategist.
Context {T : Type} {K : Task T} {SM : Summary T} {L : LLMClient} {DS : DecisionStore}
  {C : StrategistCodec} {BC : StateCodec} (defaultStrategistSystem : string).

Record Strategist := {
  AgentID : string;
  AgentName : string;
  st_Genome : AgentGenome;
  st_LLM : option llm_state;
  st_Task : option T;
  st_Bandit : option TickBandit;
  st_Store : option store_state;
  MaxOutputTokens : Z;
}.

(** The client, the task and the store are shared: a cycle leaves them in a new
    state. *)
Definition left (s : Strategist) (llm : llm_state) (task : T) (store : store_state) : Strategist := {|
  AgentID := AgentID s; AgentName := AgentName s; st_Genome := st_Genome s; st_LLM := Some llm;
  st_Task := Some task; st_Bandit := st_Bandit s; st_Store := Some store;
  MaxOutputTokens := MaxOutputTokens s |}.

Definition buildInput (e : Env) (s : Strategist) (task : T) : result StrategistInput :=
  match state_summary e task with
  | Fail err => Fail (EWrap "task.GetStateSummary: %w" err)
  | Ok state =>
      Ok {| si_AgentName := AgentName s; si_TaskType := TaskType (st_Genome s);
            si_Chain := Chain (st_Genome s); si_State := state;
            si_Bandit :=
              match st_Bandit s with
              | Some b =>
                  match SaveState b with
                  | Ok raw =>
                      if 0 <? str_len raw then
                        match Parse raw with Some (JsonObject m) => Some m | _ => None end
                      else None
                  | Fail _ => None
                  end
              | None => None
              end;
            si_Postmortems := []; si_IntelSummary := []; si_LearnedRules := LearnedRules (st_Genome s) |}
  end.

(** The row of an answer, before its fields are filled in. *)
Definition new_decision (s : Strategist) (inputJSON : string) (resp : LLMResponse) (reasoning : string)
    : StrategistDecision := {|
  d_AgentID := AgentID s; d_InputSummary := inputJSON; d_OutputRaw := Content resp; d_ConfigChanges := "";
  d_Reasoning := reasoning; d_IntelBroadcasts := ""; d_OffspringProposalSubmitted := false;
  d_NewLearnedRule := ""; d_ModelUsed := Model resp; d_InputTokens := InputTokens resp;
  d_OutputTokens := OutputTokens resp; d_CostUSD := CostUSD resp |}.

Definition filled (d : StrategistDecision) (changes reasoning : string) (parsed : StrategistResponse)
    : StrategistDecision := {|
  d_AgentID := d_AgentID d; d_InputSummary := d_InputSummary d; d_OutputRaw := d_OutputRaw d;
  d_ConfigChanges := changes; d_Reasoning := reasoning; d_IntelBroadcasts := IntelBroadcasts parsed;
  d_OffspringProposalSubmitted := 0 <? str_len (OffspringProposal parsed);
  d_NewLearnedRule := NewLearnedRule parsed; d_ModelUsed := d_ModelUsed d;
  d_InputTokens := d_InputTokens d; d_OutputTokens := d_OutputTokens d; d_CostUSD := d_CostUSD d |}.

(** The check of the signal: the reasoning it leaves, and the log. *)
Definition check_signal (parsed : StrategistResponse) : string * list string :=
  if str_eqb (ActionSignal parsed) "" || mem (ActionSignal parsed) validActionSignals
  then (Reasoning parsed, [])
  else (appendNote (Reasoning parsed) ("unknown_action_signal=" +:+ ActionSignal parsed),
        ["strategist_unknown_action_signal"]).

(** The changes: the [config_changes] column, the reasoning, the task and the
    log. *)
Definition apply_changes (e : Env) (range : range_order string any) (parsed : StrategistResponse)
    (reasoning : string) (task : T) : string * string * T * list string :=
  match ConfigChanges parsed with
  | None => ("", reasoning, task, [])
  | Some changes =>
      if bool_decide (changes = ∅) then ("", reasoning, task, [])
      else
        match ApplyAdjustments e (range (to_any <$> changes)) task with
        | (Some err, task) =>
            ("", appendNote reasoning ("apply_error: " +:+ strategist_error err), task,
             ["strategist_apply_adjustments_failed"])
        | (None, task) =>
            (match marshal_changes changes with Ok b => b | Fail _ => "" end, reasoning, task, [])
        end
  end.

(** What follows the model's answer; [e] is what [ApplyAdjustments] reads. *)
Definition decide_answer (e : Env) (range : range_order string any) (s : Strategist) (inputJSON : string)
    (resp : LLMResponse) (llm : llm_state) (task : T) (store : store_state)
    : option gerror * Strategist * list string :=
  match parseStrategistResponse (Content resp) with
  | Fail parseErr =>
      let d := new_decision s inputJSON resp ("parse_error: " +:+ strategist_error parseErr) in
      let '(err, store) := LogStrategistDecision d store in
      (None, left s llm task store,
       "strategist_parse_failed" :: match err with Some _ => ["strategist_persist_failed"] | None => [] end)
  | Ok parsed =>
      let '(reasoning, log1) := check_signal parsed in
      let '(changes, reasoning, task, log2) := apply_changes e range parsed reasoning task in
      let d := filled (new_decision s inputJSON resp reasoning) changes reasoning parsed in
      match LogStrategistDecision d store with
      | (Some err, store) =>
          (Some (EWrap "strategist: persist decision: %w" err), left s llm task store,
           log1 ++ log2 ++ ["strategist_persist_failed"])
      | (None, store) => (None, left s llm task store, log1 ++ log2)
      end
  end.

(** [Run]; [es] is what the summary reads. *)
Definition Run (es e : Env) (range : range_order string any) (s : Strategist)
    : option gerror * Strategist * list string :=
  match st_LLM s, st_Task s, st_Store s with
  | None, _, _ => (gerr "strategist: nil LLM client", s, [])
  | _, None, _ => (gerr "strategist: nil task", s, [])
  | _, _, None => (gerr "strategist: nil store", s, [])
  | Some llm, Some task, Some store =>
      let maxTokens := if MaxOutputTokens s <=? 0 then 1024 else MaxOutputTokens s in
      match buildInput es s task with
      | Fail err => (Some (EWrap "strategist: build input: %w" err), s, [])
      | Ok input =>
          match marshal_input input with
          | Fail err => (Some (EWrap "strategist: marshal input: %w" err), s, [])
          | Ok inputJSON =>
              let system := if str_eqb (StrategistPrompt (st_Genome s)) "" then defaultStrategistSystem
                            else StrategistPrompt (st_Genome s) in
              match Complete system inputJSON maxTokens llm with
              | (Fail err, llm) =>
                  (Some (EWrap "strategist: llm.Complete: %w" err), left s llm task store,
                   ["strategist_llm_call_failed"])
              | (Ok resp, llm) => decide_answer e range s inputJSON resp llm task store
              end
          end
      end
  end.
End Strategist.

(** ** What the answer can do *)

(** The changes of a parsed answer hold no NaN: a task's clamps work on
    them. *)
Lemma to_any_number v x : toFloat (to_any v) = Some x -> (forall y, v = IFloat64 y -> is_fin y = true) ->
  is_nan x = false.
Proof.
  intros H Hf. destruct v as [lit|y|[]]; cbn in H; try done.
  - destruct (ParseFloat lit) as [f|] eqn:E; [|done]. injection H as <-.
    by apply is_fin_not_nan, (ParseFloat_fin lit).
  - injection H as <-. apply is_fin_not_nan. by apply Hf.
  - destruct (ParseFloat lit) as [f|] eqn:E; [|done]. injection H as <-.
    by apply is_fin_not_nan, (ParseFloat_fin lit).
Qed.

(** A value [normalizeNumbers] leaves: its floats came from a text. *)
Definition from_text (v : interface) : Prop := forall y, v = IFloat64 y -> is_fin y = true.

Lemma normalized_from_text v : (forall y, v <> IFloat64 y) -> from_text (normalized v).
Proof.
  intros H y E. destruct v as [lit|x|j]; cbn in E; [|by destruct (H x)|done].
  destruct (ParseFloat lit) as [f|] eqn:Ep; [|done]. injection E as <-. by apply (ParseFloat_fin lit).
Qed.

(** No value of a map that was decoded is a [float64] yet. *)
Definition undecided (m : option (gmap string interface)) : Prop :=
  forall k v, default ∅ m !! k = Some v -> forall y, v <> IFloat64 y.

Lemma map_field_undecided v old m : undecided old -> map_field v old = Ok m -> undecided m.
Proof.
  intros Ho. destruct v; cbn; try done; [intros [= <-] k v; cbn; by rewrite lookup_empty|].
  intros [= <-]. cbn. unfold undecided in Ho. cbn [default] in *. unfold undecided. cbn [default].
  change (default ∅ (Some ?x)) with x.
  revert Ho. generalize (default ∅ old) as m0. induction members as [|[[k raw] v] ms IH]; intros m0 Ho; [exact Ho|].
  cbn [fold_left fst snd]. apply IH. intros k' v'. destruct (decide (k' = k)) as [->|Hne].
  - rewrite lookup_insert_eq. intros [= <-] y. by destruct v.
  - rewrite lookup_insert_ne by done. apply Ho.
Qed.

Lemma decode_member_undecided r m r' : undecided (ConfigChanges r) -> decode_member r m = Ok r' ->
  undecided (ConfigChanges r').
Proof.
  destruct m as [[key raw] v]. unfold decode_member. intros Hr H.
  repeat match type of H with (if ?b then _ else _) = _ => destruct b end;
    repeat match type of H with (match ?x with Ok _ => _ | Fail _ => _ end) = _ => destruct x eqn:E; [|done] end;
    injection H as <-; try exact Hr.
  by eapply map_field_undecided.
Qed.

Lemma decode_response_undecided body r : decode_response body = Ok r -> undecided (ConfigChanges r).
Proof.
  unfold decode_response. destruct (DecodeFirst body) as [[[] rest]|]; try done.
  enough (H : forall acc, undecided (ConfigChanges acc.1) ->
            undecided (ConfigChanges (fold_left decode_step members acc).1)).
  { specialize (H (no_response, None)). destruct (fold_left _ _ _) as [r' [err|]]; [done|].
    intros [= <-]. apply H. intros k v. cbn. by rewrite lookup_empty. }
  induction members as [|m ms IH]; intros acc Ha; [exact Ha|]. cbn [fold_left]. apply IH.
  unfold decode_step. destruct (decode_member acc.1 m) eqn:E; [|exact Ha].
  by apply decode_member_undecided in E.
Qed.

Lemma parse_from_text s r m k v : parseStrategistResponse s = Ok r -> ConfigChanges r = Some m ->
  m !! k = Some v -> from_text v.
Proof.
  unfold parseStrategistResponse. destruct (str_eqb _ _); [done|].
  destruct (decode_response _) as [out|] eqn:E; [|done]. intros [= <-]. cbn.
  apply decode_response_undecided in E. destruct (ConfigChanges out) as [m0|]; [|done].
  intros [= <-] H. apply lookup_fmap_Some in H as (v0 & <- & H). apply normalized_from_text. by apply (E k).
Qed.

Lemma changes_fine (range : range_order string any) s r m : range_ok range ->
  parseStrategistResponse s = Ok r -> ConfigChanges r = Some m -> adjustments_ok (range (to_any <$> m)).
Proof.
  intros Hr Hp Hm. unfold adjustments_ok. rewrite Hr. apply Forall_forall. intros [k a] Hin x Hx.
  apply elem_of_map_to_list in Hin. apply lookup_fmap_Some in Hin as (v & <- & Hv). cbn in Hx.
  eapply to_any_number; [exact Hx|]. by apply (parse_from_text s r m k).
Qed.

(** ** A cycle *)

Section Cycle.
Context {T : Type} {K : Task T} {SM : Summary T} {L : LLMClient} {DS : DecisionStore}
  {C : StrategistCodec} {BC : StateCodec} (defaultStrategistSystem : string).

Lemma apply_changes_task e range r reasoning task :
  let '(changes, _, task', _) := apply_changes e range r reasoning task in
  (task' = task /\ changes = "") \/
  exists m err, ConfigChanges r = Some m /\
    ApplyAdjustments e (range (to_any <$> m)) task = (err, task') /\
    (changes <> "" -> err = None /\ marshal_changes m = Ok changes).
Proof.
  unfold apply_changes. destruct (ConfigChanges r) as [m|] eqn:Em; [|by left].
  destruct (bool_decide_reflect (m = ∅)); [by left|].
  destruct (ApplyAdjustments e (range (to_any <$> m)) task) as [[err|] task'] eqn:E; right; exists m.
  - by exists (Some err).
  - exists None. split; [done|]. split; [done|]. intros Hc. split; [done|].
    by destruct (marshal_changes m).
Qed.

(** The row of a cycle repeats what was sent and what came back. *)
Record audited (s : Strategist (T := T)) (inputJSON : string) (resp : LLMResponse) (d : StrategistDecision) : Prop := {
  aud_agent : d_AgentID d = AgentID s;
  aud_input : d_InputSummary d = inputJSON;
  aud_output : d_OutputRaw d = Content resp;
  aud_model : d_ModelUsed d = Model resp;
  aud_tokens : d_InputTokens d = InputTokens resp /\ d_OutputTokens d = OutputTokens resp;
  aud_cost : d_CostUSD d = CostUSD resp;
}.

(** What a row says of an answer, next to what was done: [t'] is the task after
    the cycle and [r] what the cycle returns. *)
Definition row_truthful (e : Env) (range : range_order string any) (resp : LLMResponse) (t t' : T)
    (d : StrategistDecision) (stored r : option gerror) : Prop :=
  match parseStrategistResponse (Content resp) with
  | Fail err =>
      r = None /\ t' = t /\ d_ConfigChanges d = "" /\ d_OffspringProposalSubmitted d = false /\
      d_NewLearnedRule d = "" /\ d_Reasoning d = "parse_error: " +:+ strategist_error err
  | Ok p =>
      r = EWrap "strategist: persist decision: %w" <$> stored /\
      d_OffspringProposalSubmitted d = negb (str_eqb (OffspringProposal p) "") /\
      d_NewLearnedRule d = NewLearnedRule p /\ d_IntelBroadcasts d = IntelBroadcasts p /\
      (t' = t /\ d_ConfigChanges d = "" \/
       exists m err, ConfigChanges p = Some m /\
         ApplyAdjustments e (range (to_any <$> m)) t = (err, t') /\
         (d_ConfigChanges d <> "" -> err = None /\ marshal_changes m = Ok (d_ConfigChanges d)))
  end.

(** C11: A cycle asks the model once.  If the model does not answer, the error
    is returned and nothing else happens; if it answers, exactly one row goes to
    the store, win or lose, with the answer, the tokens and the cost, and it does
    not misreport: changes it lists were accepted by the task, an answer that
    does not parse changes nothing and is no error, and an error of the store is
    returned for an answer that parses. *)
Theorem cycle_spec es e range (s : Strategist (T := T)) llm t store input inputJSON :
  st_LLM s = Some llm -> st_Task s = Some t -> st_Store s = Some store ->
  buildInput es s t = Ok input -> marshal_input input = Ok inputJSON ->
  let prompt := StrategistPrompt (st_Genome s) in
  let asked := Complete (if str_eqb prompt "" then defaultStrategistSystem else prompt) inputJSON
                 (if MaxOutputTokens s <=? 0 then 1024 else MaxOutputTokens s) llm in
  let '(r, s', _) := Run defaultStrategistSystem es e range s in
  st_LLM s' = Some asked.2 /\
  match asked.1 with
  | Fail err =>
      r = Some (EWrap "strategist: llm.Complete: %w" err) /\ st_Task s' = Some t /\ st_Store s' = Some store
  | Ok resp =>
      exists d t', audited s inputJSON resp d /\ st_Task s' = Some t' /\
        st_Store s' = Some (LogStrategistDecision d store).2 /\
        row_truthful e range resp t t' d (LogStrategistDecision d store).1 r
  end.
Proof.
  intros Hl Ht Hs Hb Hm. cbv zeta. unfold Run. rewrite Hl, Ht, Hs, Hb, Hm. cbv zeta.
  destruct (Complete _ inputJSON _ llm) as [[resp|err] llm']; [|by repeat split].
  unfold decide_answer, row_truthful. cbn [fst snd].
  destruct (parseStrategistResponse (Content resp)) as [p|err] eqn:Ep.
  - destruct (check_signal p) as [reasoning log1].
    pose proof (apply_changes_task e range p reasoning t) as Ha.
    destruct (apply_changes e range p reasoning t) as [[[changes reasoning'] t'] log2].
    set (d := filled _ changes reasoning' p).
    assert (Hd : audited s inputJSON resp d) by (by repeat split).
    assert (Hsub : (0 <? str_len (OffspringProposal p)) = negb (str_eqb (OffspringProposal p) "")).
    { unfold str_eqb, str_len. destruct (OffspringProposal p); [done|]. cbn [String.length].
      by rewrite bool_decide_eq_false_2. }
    destruct (LogStrategistDecision d store) as [[err|] store'] eqn:Es;
      (split; [done|]); exists d, t'; rewrite Es; (split; [done|]); (split; [done|]); (split; [done|]);
      (split; [done|]); (split; [exact Hsub|]); done.
  - set (d := new_decision s inputJSON resp _). destruct (LogStrategistDecision d store) as [err' store'] eqn:Es.
    split; [done|]. exists d, t. rewrite Es. by repeat split.
Qed.
End Cycle.

(** Prose and fences around the answer do not matter: an object that is
    valid JSON is read the same wherever it stands, as long as no brace comes
    before it. *)
Theorem answer_in_prose pre text post v :
  no_byte lbrace pre = true -> DecodeFirst (String lbrace text) = Some (v, "") ->
  parseStrategistResponse (pre +:+ String lbrace text +:+ post) =
    parseStrategistResponse (String lbrace text) /\
  extractJSONObject (pre +:+ String lbrace text +:+ post) = String lbrace text.
Proof.
  intros Hpre Hd. pose proof (object_extracted pre text post v Hpre Hd) as H.
  pose proof (object_extracted "" text "" v eq_refl Hd) as H0. rewrite str_app_nil in H0.
  change ("" +:+ String lbrace text) with (String lbrace text) in H0.
  unfold parseStrategistResponse. by rewrite H, H0.
Qed.

(** ** A cycle on a pool *)

Definition quoted (s : string) : string := String dquote (s +:+ String dquote "").

Definition member (key text : string) : string := quoted key +:+ ": " +:+ text.

Definition braces (s : string) : string := String lbrace (s +:+ String rbrace "").

(** A model that says [answer]. *)
Definition says (answer : string) : LLMClient := {|
  llm_state := nat;
  Complete := fun _ _ _ n => (Ok {| Content := answer; InputTokens := 400; OutputTokens := 60; CostUSD := 0.001;
                                    Model := "claude-haiku-4-5-20251001" |}, S n) |}.

(** A store that keeps its rows. *)
Definition ledger_store : DecisionStore := {|
  store_state := list StrategistDecision; LogStrategistDecision := fun d ds => (None, ds ++ [d]) |}.

Definition plain_marshal : StrategistCodec := {|
  marshal_input := fun _ => Ok "input"; marshal_changes := fun _ => Ok "changes";
  strategist_error := fun e => match e with EMsg m => m | EWrap m _ => m end |}.

#[local] Instance lp_summary : Summary LiquidityProvision := {|
  state_summary := fun e l => Ok (GetStateSummary e l) |}.

(** The pool, once open. *)
Definition open_lp : LiquidityProvision := (session sample_lp (take 1 drifting)).2.

Definition pool_strategist (answer : string) :
    Strategist (T := LiquidityProvision) (L := says answer) (DS := ledger_store) := {|
  AgentID := "a1"; AgentName := "pool"; st_Genome := node_genome; st_LLM := Some (0%nat : @llm_state (says answer));
  st_Task := Some open_lp; st_Bandit := Some sample_bandit;
  st_Store := Some ([] : @store_state ledger_store); MaxOutputTokens := 0 |}.

Definition cycle (answer : string) (range : range_order string any) :=
  Run (L := says answer) (DS := ledger_store) (C := plain_marshal) (BC := sample_codec) "system"
    (market (minute 5) 104) (market (minute 5) 104) range (pool_strategist answer).

Definition rows_of_cycle (answer : string) (range : range_order string any) : list StrategistDecision :=
  default [] (st_Store (cycle answer range).1.2).

Definition pool_after (answer : string) (range : range_order string any) : option LiquidityProvision :=
  st_Task (cycle answer range).1.2.

(** An answer in a fence, with a number far out of range. *)
Definition fenced : string :=
  "Here is my decision: ```json " +:+
  braces (member "reasoning" (quoted "quiet") +:+ ", " +:+
          member "config_changes" (braces (member "range_width_pct" "9.9e2")) +:+ ", " +:+
          member "action_signal" (quoted "panic")) +:+ " ``` Good luck.".

Example fenced_cycle :
  (d_Reasoning <$> rows_of_cycle fenced map_to_list, d_ConfigChanges <$> rows_of_cycle fenced map_to_list,
   (fun l => RangeWidthPct (cfg l)) <$> pool_after fenced map_to_list) =
  (["quiet | unknown_action_signal=panic"], ["changes"], Some rangeWidthCeil).
Proof. vm_compute. reflexivity. Qed.

Lemma cycle_spec_witness :
  exists d t', rows_of_cycle fenced map_to_list = [d] /\ pool_after fenced map_to_list = Some t' /\
    d_OutputRaw d = fenced /\ d_CostUSD d = 0.001%float /\
    row_truthful (C := plain_marshal) (market (minute 5) 104) map_to_list
      {| Content := fenced; InputTokens := 400; OutputTokens := 60; CostUSD := 0.001;
         Model := "claude-haiku-4-5-20251001" |} open_lp t' d None None.
Proof.
  pose proof (cycle_spec (K := lp_task) (SM := lp_summary) (L := says fenced) (DS := ledger_store) (C := plain_marshal) (BC := sample_codec)
    "system" (market (minute 5) 104) (market (minute 5) 104) map_to_list (pool_strategist fenced) 0%nat open_lp []
    {| si_AgentName := "pool"; si_TaskType := TaskType node_genome; si_Chain := Chain node_genome;
       si_State := GetStateSummary (market (minute 5) 104) open_lp; si_Bandit := None; si_Postmortems := [];
       si_IntelSummary := []; si_LearnedRules := LearnedRules node_genome |} "input"
    eq_refl eq_refl eq_refl ltac:(vm_compute; reflexivity) eq_refl) as H.
  cbv zeta in H.
  change (Run "system" (market (minute 5) 104) (market (minute 5) 104) map_to_list (pool_strategist fenced))
    with (cycle fenced map_to_list) in H.
  destruct (cycle fenced map_to_list) as [[r s'] log] eqn:E.
  destruct H as [_ (d & t' & Ha & Ht & Hs & Hr)].
  assert (Er : r = None) by exact (f_equal (fun x => x.1.1) (eq_sym E)).
  exists d, t'. unfold rows_of_cycle, pool_after. rewrite E. cbn [fst snd].
  split; [by rewrite Hs|]. split; [exact Ht|]. split; [apply Ha|]. split; [apply Ha|].
  by rewrite Er in Hr.
Defined.

Lemma answer_in_prose_witness :
  parseStrategistResponse ("Sure. " +:+ braces (member "reasoning" (quoted "fine")) +:+ " {}") =
  Ok (with_reasoning no_response "fine").
Proof.
  pose proof (answer_in_prose "Sure. " (member "reasoning" (quoted "fine") +:+ String rbrace "") " {}"
    (JsonObject [("reasoning", quoted "fine", JsonString "fine")]) eq_refl ltac:(vm_compute; reflexivity)) as [H _].
  exact (eq_trans H ltac:(vm_compute; reflexivity)).
Defined.

(** *** What the row does not say *)

(** A null proposal counts as a proposal. *)
Lemma null_proposal_submitted :
  d_OffspringProposalSubmitted <$> rows_of_cycle (braces (member "offspring_proposal" "null")) map_to_list = [true].
Proof. vm_compute. reflexivity. Qed.

(** Two changes of which the second is of the wrong type: the row lists none,
    and the width has changed. *)
Definition half_wrong : string :=
  braces (member "config_changes"
    (braces (member "range_width_pct" "40" +:+ ", " +:+ member "pull_liquidity" "1"))).

Definition width_first : range_order string any :=
  fun m => sort_slice (SliceSort := insertion_slice_sort) (fun a b => str_lt b.1 a.1) (map_to_list m).

Lemma partial_changes_unrecorded :
  (d_ConfigChanges <$> rows_of_cycle half_wrong width_first,
   (fun l => RangeWidthPct (cfg l)) <$> pool_after half_wrong width_first, RangeWidthPct (cfg open_lp)) =
  ([""], Some rangeWidthCeil, 0.1%float).
Proof. vm_compute. reflexivity. Qed.
