(* ===== verification/Llm.v ===== *)
(** * The model providers ([internal/llm])

    The clients of the two providers ([anthropic.go], [openai.go]) over a
    connection that is an interface, their requests and responses in the JSON
    model; the registry that resolves a model's name ([registry.go]) and the
    scripted client of the tests ([fake.go]).  Prices are in [Genome]. *)
From Stdlib Require Import ZArith Lia Ascii Floats.
From stdpp Require Import base list strings gmap sorting.
From S2P Require Import Prelude GoBase GoFmt GoFloat Genome JsonExtract Json JsonCodec Review.
Set Warnings "-inexact-float".
Open Scope Z_scope.

(** ** Requests *)

Record http_request := {
  hr_url : string;
  hr_headers : list (string * string);
  hr_body : string;
}.

(** [net/http]: a URL may not parse, sending may fail, and the body may not be
    readable to its end. *)
Class HTTP := {
  http_state : Type;
  bad_url : string -> option gerror;
  http_do : http_request -> http_state -> result (Z * result string) * http_state;
}.

Record APIClient := {
  baseURL : string;
  apiKey : string;
  cl_model : string;
}.

Definition anthropicDefaultBaseURL : string := "https://api.anthropic.com/v1".
Definition anthropicVersion : string := "2023-06-01".
Definition openaiDefaultBaseURL : string := "https://api.openai.com/v1".

Definition NewAnthropicClient (key model : string) : result APIClient :=
  if str_eqb key "" then Fail (EMsg "llm/anthropic: api key required")
  else
    match modelRates !! model with
    | None => Fail (EMsg "llm/anthropic: unknown model %q (no rate)")
    | Some _ => Ok {| baseURL := anthropicDefaultBaseURL; apiKey := key; cl_model := model |}
    end.

Definition NewOpenAIClient (key model : string) : result APIClient :=
  if str_eqb key "" then Fail (EMsg "llm/openai: api key required")
  else
    match modelRates !! model with
    | None => Fail (EMsg "llm/openai: unknown model %q (no rate)")
    | Some _ => Ok {| baseURL := openaiDefaultBaseURL; apiKey := key; cl_model := model |}
    end.

Definition WithBaseURL (c : APIClient) (url : string) : APIClient := {|
  baseURL := url; apiKey := apiKey c; cl_model := cl_model c |}.

Definition CalculateCost (c : APIClient) (inputTokens outputTokens : Z) : float :=
  computeCost (cl_model c) inputTokens outputTokens.

(** The ellipsis is one rune of three bytes. *)
Definition truncateForLog (s : string) (n : nat) : string :=
  if (String.length s <=? n)%nat then s else str_take n s +:+ encode_rune 8230.

(** *** Messages *)

Definition message (role content : string) : list (string * string) :=
  [("role", json_string role); ("content", json_string content)].

Definition anthropicMsgRequest (model : string) (maxTokens : Z) (system user : string)
    : list (string * string) :=
  [("model", json_string model); ("max_tokens", Itoa maxTokens)] ++
  (if str_eqb system "" then [] else [("system", json_string system)]) ++
  [("messages", write_array [write_object (message "user" user)])].

Definition openaiChatRequest (model : string) (maxTokens : Z) (system user : string)
    : list (string * string) :=
  [("model", json_string model);
   ("messages", write_array
      ((if str_eqb system "" then [] else [write_object (message "system" system)]) ++
       [write_object (message "user" user)]))] ++
  (if maxTokens =? 0 then [] else [("max_tokens", Itoa maxTokens)]).

(** ** Responses *)

Record part := { part_Type : string; part_Text : string }.

Record anthropicMsgResponse := {
  ar_Content : list part;
  ar_Model : string;
  ar_InputTokens : Z;
  ar_OutputTokens : Z;
  ar_Type : string;
  ar_ErrorType : string;
  ar_ErrorMessage : string;
}.

Definition no_part : part := {| part_Type := ""; part_Text := "" |}.

Definition no_anthropic : anthropicMsgResponse := {|
  ar_Content := []; ar_Model := ""; ar_InputTokens := 0; ar_OutputTokens := 0; ar_Type := "";
  ar_ErrorType := ""; ar_ErrorMessage := "" |}.

(** The decoder of one field of a struct. *)
Definition d_field {A B} (get : A -> B) (set : B -> A -> A) (d : decoder B) : decoder A := fun v a =>
  let '(b, err) := d v (get a) in (set b a, err).

Definition d_part : decoder part := d_struct
  [("type", d_field part_Type (fun x p => {| part_Type := x; part_Text := part_Text p |}) d_string);
   ("text", d_field part_Text (fun x p => {| part_Type := part_Type p; part_Text := x |}) d_string)].

Definition with_content (x : list part) (r : anthropicMsgResponse) : anthropicMsgResponse := {|
  ar_Content := x; ar_Model := ar_Model r; ar_InputTokens := ar_InputTokens r;
  ar_OutputTokens := ar_OutputTokens r; ar_Type := ar_Type r; ar_ErrorType := ar_ErrorType r;
  ar_ErrorMessage := ar_ErrorMessage r |}.

Definition with_model (x : string) (r : anthropicMsgResponse) : anthropicMsgResponse := {|
  ar_Content := ar_Content r; ar_Model := x; ar_InputTokens := ar_InputTokens r;
  ar_OutputTokens := ar_OutputTokens r; ar_Type := ar_Type r; ar_ErrorType := ar_ErrorType r;
  ar_ErrorMessage := ar_ErrorMessage r |}.

Definition with_usage (inn out : Z) (r : anthropicMsgResponse) : anthropicMsgResponse := {|
  ar_Content := ar_Content r; ar_Model := ar_Model r; ar_InputTokens := inn; ar_OutputTokens := out;
  ar_Type := ar_Type r; ar_ErrorType := ar_ErrorType r; ar_ErrorMessage := ar_ErrorMessage r |}.

Definition with_type (x : string) (r : anthropicMsgResponse) : anthropicMsgResponse := {|
  ar_Content := ar_Content r; ar_Model := ar_Model r; ar_InputTokens := ar_InputTokens r;
  ar_OutputTokens := ar_OutputTokens r; ar_Type := x; ar_ErrorType := ar_ErrorType r;
  ar_ErrorMessage := ar_ErrorMessage r |}.

Definition with_error (type msg : string) (r : anthropicMsgResponse) : anthropicMsgResponse := {|
  ar_Content := ar_Content r; ar_Model := ar_Model r; ar_InputTokens := ar_InputTokens r;
  ar_OutputTokens := ar_OutputTokens r; ar_Type := ar_Type r; ar_ErrorType := type; ar_ErrorMessage := msg |}.

(** The struct's tags; [usage] and [error] are structs inside it. *)
Definition d_anthropic : decoder anthropicMsgResponse := d_struct
  [("content", d_field ar_Content with_content (d_slice no_part d_part));
   ("model", d_field ar_Model with_model d_string);
   ("usage", d_struct
      [("input_tokens", d_field ar_InputTokens (fun x r => with_usage x (ar_OutputTokens r) r) d_int);
       ("output_tokens", d_field ar_OutputTokens (fun x r => with_usage (ar_InputTokens r) x r) d_int)]);
   ("type", d_field ar_Type with_type d_string);
   ("error", d_struct
      [("type", d_field ar_ErrorType (fun x r => with_error x (ar_ErrorMessage r) r) d_string);
       ("message", d_field ar_ErrorMessage (fun x r => with_error (ar_ErrorType r) x r) d_string)])].

Record openaiChatResponse := {
  or_Choices : list (string * string);
  or_Model : string;
  or_PromptTokens : Z;
  or_CompletionTokens : Z;
  or_ErrorMessage : string;
}.

Definition no_openai : openaiChatResponse := {|
  or_Choices := []; or_Model := ""; or_PromptTokens := 0; or_CompletionTokens := 0; or_ErrorMessage := "" |}.

(** A choice is its message, a role and a content. *)
Definition d_choice : decoder (string * string) := d_struct
  [("message", d_struct
      [("role", d_field fst (fun x m => (x, m.2)) d_string);
       ("content", d_field snd (fun x m => (m.1, x)) d_string)])].

Definition with_choices (x : list (string * string)) (r : openaiChatResponse) : openaiChatResponse := {|
  or_Choices := x; or_Model := or_Model r; or_PromptTokens := or_PromptTokens r;
  or_CompletionTokens := or_CompletionTokens r; or_ErrorMessage := or_ErrorMessage r |}.

Definition with_rest (model : string) (inn out : Z) (msg : string) (r : openaiChatResponse)
    : openaiChatResponse := {|
  or_Choices := or_Choices r; or_Model := model; or_PromptTokens := inn; or_CompletionTokens := out;
  or_ErrorMessage := msg |}.

Definition d_openai : decoder openaiChatResponse := d_struct
  [("choices", d_field or_Choices with_choices (d_slice ("", "") d_choice));
   ("model", d_field or_Model
      (fun x r => with_rest x (or_PromptTokens r) (or_CompletionTokens r) (or_ErrorMessage r) r) d_string);
   ("usage", d_struct
      [("prompt_tokens", d_field or_PromptTokens
          (fun x r => with_rest (or_Model r) x (or_CompletionTokens r) (or_ErrorMessage r) r) d_int);
       ("completion_tokens", d_field or_CompletionTokens
          (fun x r => with_rest (or_Model r) (or_PromptTokens r) x (or_ErrorMessage r) r) d_int)]);
   ("error", d_struct
      [("message", d_field or_ErrorMessage
          (fun x r => with_rest (or_Model r) (or_PromptTokens r) (or_CompletionTokens r) x r) d_string)])].

(** ** Completion *)

Section Clients.
Context {H : HTTP}.

(** The exchange both clients make: the body of a response of status 2xx. *)
Definition exchange (who : string) (req : http_request) (s : http_state) : result string * http_state :=
  match bad_url (hr_url req) with
  | Some err => (Fail (EWrap (who +:+ ": build request: %w") err), s)
  | None =>
      match http_do req s with
      | (Fail err, s) => (Fail (EWrap (who +:+ ": do: %w") err), s)
      | (Ok (_, Fail err), s) => (Fail (EWrap (who +:+ ": read: %w") err), s)
      | (Ok (status, Ok respBody), s) =>
          if negb (Z.quot status 100 =? 2)
          then (Fail (EMsg (who +:+ ": status %d: " +:+ truncateForLog respBody 256)), s)
          else (Ok respBody, s)
      end
  end.

Definition text_of (parts : list part) : string :=
  fold_left (fun content p => if str_eqb (part_Type p) "text" then content +:+ part_Text p else content) parts "".

Definition anthropic_request (c : APIClient) (system user : string) (maxTokens : Z) : http_request := {|
  hr_url := baseURL c +:+ "/messages";
  hr_headers := [("Content-Type", "application/json"); ("Accept", "application/json");
                 ("x-api-key", apiKey c); ("anthropic-version", anthropicVersion)];
  hr_body := write_object (anthropicMsgRequest (cl_model c) maxTokens system user) |}.

Definition anthropic_Complete (c : APIClient) (system user : string) (maxTokens : Z) (s : http_state)
    : result LLMResponse * http_state :=
  if maxTokens <=? 0 then (Fail (EMsg "llm/anthropic: maxTokens must be > 0"), s)
  else
    match exchange "llm/anthropic" (anthropic_request c system user maxTokens) s with
    | (Fail err, s) => (Fail err, s)
    | (Ok respBody, s) =>
        match Unmarshal d_anthropic no_anthropic respBody with
        | Fail err => (Fail (EWrap "llm/anthropic: decode: %w" err), s)
        | Ok parsed =>
            if str_eqb (ar_Type parsed) "error" || negb (str_eqb (ar_ErrorMessage parsed) "")
            then (Fail (EMsg ("llm/anthropic: api error: " +:+ ar_ErrorMessage parsed)), s)
            else
              (Ok {| Content := text_of (ar_Content parsed); InputTokens := ar_InputTokens parsed;
                     OutputTokens := ar_OutputTokens parsed;
                     CostUSD := computeCost (cl_model c) (ar_InputTokens parsed) (ar_OutputTokens parsed);
                     Model := cl_model c |}, s)
        end
    end.

Definition openai_request (c : APIClient) (system user : string) (maxTokens : Z) : http_request := {|
  hr_url := baseURL c +:+ "/chat/completions";
  hr_headers := [("Content-Type", "application/json"); ("Accept", "application/json");
                 ("Authorization", "Bearer " +:+ apiKey c)];
  hr_body := write_object (openaiChatRequest (cl_model c) maxTokens system user) |}.

Definition openai_Complete (c : APIClient) (system user : string) (maxTokens : Z) (s : http_state)
    : result LLMResponse * http_state :=
  if maxTokens <=? 0 then (Fail (EMsg "llm/openai: maxTokens must be > 0"), s)
  else
    match exchange "llm/openai" (openai_request c system user maxTokens) s with
    | (Fail err, s) => (Fail err, s)
    | (Ok respBody, s) =>
        match Unmarshal d_openai no_openai respBody with
        | Fail err => (Fail (EWrap "llm/openai: decode: %w" err), s)
        | Ok parsed =>
            if negb (str_eqb (or_ErrorMessage parsed) "")
            then (Fail (EMsg ("llm/openai: api error: " +:+ or_ErrorMessage parsed)), s)
            else
              match or_Choices parsed with
              | [] => (Fail (EMsg "llm/openai: empty choices"), s)
              | m :: _ =>
                  (Ok {| Content := m.2; InputTokens := or_PromptTokens parsed;
                         OutputTokens := or_CompletionTokens parsed;
                         CostUSD := computeCost (cl_model c) (or_PromptTokens parsed) (or_CompletionTokens parsed);
                         Model := cl_model c |}, s)
              end
        end
    end.
End Clients.

(** ** The registry *)

(** What [Get] returns: an override, by the pointer it was registered as, or a
    client of a provider. *)
Inductive llm_client :=
  | Override (id : nat)
  | Anthropic (c : APIClient)
  | OpenAI (c : APIClient).

Record LLMRegistry := {
  overrides : gmap string nat;
  anthropicAPIKey : string;
  openaiAPIKey : string;
}.

Definition empty_registry : LLMRegistry := {| overrides := ∅; anthropicAPIKey := ""; openaiAPIKey := "" |}.

Definition Configure (r : LLMRegistry) (anthropicKey openaiKey : string) : LLMRegistry := {|
  overrides := overrides r; anthropicAPIKey := anthropicKey; openaiAPIKey := openaiKey |}.

(** A nil client removes the override. *)
Definition SetClient (r : LLMRegistry) (model : string) (c : option nat) : LLMRegistry := {|
  overrides := match c with None => delete model (overrides r) | Some id => <[model := id]> (overrides r) end;
  anthropicAPIKey := anthropicAPIKey r; openaiAPIKey := openaiAPIKey r |}.

Definition ResetOverrides (r : LLMRegistry) : LLMRegistry := {|
  overrides := ∅; anthropicAPIKey := anthropicAPIKey r; openaiAPIKey := openaiAPIKey r |}.

Definition Get (r : LLMRegistry) (model : string) : result llm_client :=
  match overrides r !! model with
  | Some id => Ok (Override id)
  | None =>
      match modelRates !! model with
      | None => Fail (EMsg "llm: unknown model %q (registered: %v)")
      | Some _ =>
          if HasPrefix model "claude-" then
            if str_eqb (anthropicAPIKey r) "" then Fail (EMsg "llm: anthropic api key not configured")
            else match NewAnthropicClient (anthropicAPIKey r) model with Ok c => Ok (Anthropic c) | Fail err => Fail err end
          else if HasPrefix model "gpt-" then
            if str_eqb (openaiAPIKey r) "" then Fail (EMsg "llm: openai api key not configured")
            else match NewOpenAIClient (openaiAPIKey r) model with Ok c => Ok (OpenAI c) | Fail err => Fail err end
          else Fail (EMsg "llm: model %q has no provider mapping")
      end
  end.

(** [range] is the order in which the loop visits the names seen. *)
Definition listModelsLocked {SS : SliceSort} (range : gset string -> list string) (r : LLMRegistry) : list string :=
  sort_slice str_lt (range (dom modelRates ∪ dom (overrides r))).

Definition Models {SS : SliceSort} := listModelsLocked (SS := SS).

(** ** The scripted client *)

Record FakeCall := { fc_System : string; fc_User : string; fc_MaxTokens : Z }.

Record FakeLLMClient := {
  fake_model : string;
  response : string;
  responseQueue : list string;
  fake_inputTokens : Z;
  fake_outputTokens : Z;
  failNext : option gerror;
  fake_calls : list FakeCall;
}.

Definition NewFakeLLMClient (model : string) : FakeLLMClient := {|
  fake_model := model; response := ""; responseQueue := []; fake_inputTokens := 0; fake_outputTokens := 0;
  failNext := None; fake_calls := [] |}.

Definition WithResponse (f : FakeLLMClient) (s : string) : FakeLLMClient := {|
  fake_model := fake_model f; response := s; responseQueue := responseQueue f;
  fake_inputTokens := fake_inputTokens f; fake_outputTokens := fake_outputTokens f;
  failNext := failNext f; fake_calls := fake_calls f |}.

Definition WithResponseQueue (f : FakeLLMClient) (rs : list string) : FakeLLMClient := {|
  fake_model := fake_model f; response := response f; responseQueue := rs;
  fake_inputTokens := fake_inputTokens f; fake_outputTokens := fake_outputTokens f;
  failNext := failNext f; fake_calls := fake_calls f |}.

Definition WithTokenUsage (f : FakeLLMClient) (inn out : Z) : FakeLLMClient := {|
  fake_model := fake_model f; response := response f; responseQueue := responseQueue f;
  fake_inputTokens := inn; fake_outputTokens := out; failNext := failNext f; fake_calls := fake_calls f |}.

Definition WithError (f : FakeLLMClient) (err : option gerror) : FakeLLMClient := {|
  fake_model := fake_model f; response := response f; responseQueue := responseQueue f;
  fake_inputTokens := fake_inputTokens f; fake_outputTokens := fake_outputTokens f;
  failNext := err; fake_calls := fake_calls f |}.

Definition with_calls (f : FakeLLMClient) (calls : list FakeCall) (queue : list string) : FakeLLMClient := {|
  fake_model := fake_model f; response := response f; responseQueue := queue;
  fake_inputTokens := fake_inputTokens f; fake_outputTokens := fake_outputTokens f;
  failNext := None; fake_calls := calls |}.

(** [ResetCalls]; the rest of the fake keeps. *)
Definition ResetCalls (f : FakeLLMClient) : FakeLLMClient := {|
  fake_model := fake_model f; response := response f; responseQueue := responseQueue f;
  fake_inputTokens := fake_inputTokens f; fake_outputTokens := fake_outputTokens f;
  failNext := failNext f; fake_calls := [] |}.

Definition Fake_Complete (system user : string) (maxTokens : Z) (f : FakeLLMClient)
    : result LLMResponse * FakeLLMClient :=
  let calls := fake_calls f ++ [{| fc_System := system; fc_User := user; fc_MaxTokens := maxTokens |}] in
  match failNext f with
  | Some err => (Fail err, with_calls f calls (responseQueue f))
  | None =>
      if maxTokens <=? 0 then (Fail (EMsg "fake llm: maxTokens must be > 0"), with_calls f calls (responseQueue f))
      else
        let '(content, queue) := match responseQueue f with [] => (response f, []) | x :: q => (x, q) end in
        (Ok {| Content := content; InputTokens := fake_inputTokens f; OutputTokens := fake_outputTokens f;
               CostUSD := computeCost (fake_model f) (fake_inputTokens f) (fake_outputTokens f);
               Model := fake_model f |}, with_calls f calls queue)
  end.

(** ** A client of the registry at work *)

Section Resolved.
Context {H : HTTP}.

(** The connection, and the fakes by their pointers. *)
Definition llm_world : Type := http_state * gmap nat FakeLLMClient.

Definition Complete (c : llm_client) (system user : string) (maxTokens : Z) (w : llm_world)
    : result LLMResponse * llm_world :=
  match c with
  | Anthropic c => let '(r, s) := anthropic_Complete c system user maxTokens w.1 in (r, (s, w.2))
  | OpenAI c => let '(r, s) := openai_Complete c system user maxTokens w.1 in (r, (s, w.2))
  | Override id =>
      match w.2 !! id with
      | None => (Fail (EMsg "nil pointer dereference"), w)
      | Some f => let '(r, f) := Fake_Complete system user maxTokens f in (r, (w.1, <[id := f]> w.2))
      end
  end.

(** A resolved client is a client of the brain modules. *)
#[export] Instance resolved_client (c : llm_client) : LLMClient := {|
  llm_state := llm_world; Review.Complete := Complete c |}.

(** The model a client bills for. *)
Definition billed_model (c : llm_client) (fakes : gmap nat FakeLLMClient) : option string :=
  match c with
  | Anthropic c | OpenAI c => Some (cl_model c)
  | Override id => fake_model <$> fakes !! id
  end.
End Resolved.

(** ** The registry's promises *)

Lemma rated_models : dom modelRates =
  list_to_set ["claude-haiku-4-5-20251001"; "claude-sonnet-4-6"; "claude-opus-4-7"; "gpt-4o"; "gpt-4o-mini"].
Proof. apply (bool_decide_unpack _). vm_compute. exact I. Qed.

Lemma rated_provider model : is_Some (modelRates !! model) ->
  HasPrefix model "claude-" = true \/ HasPrefix model "claude-" = false /\ HasPrefix model "gpt-" = true.
Proof.
  intros Hm. apply elem_of_dom in Hm. rewrite rated_models, elem_of_list_to_set in Hm.
  repeat (apply list_elem_of_In in Hm; destruct Hm as [<-|Hm]; [first [by left|by right]|apply list_elem_of_In in Hm]).
  by apply elem_of_nil in Hm.
Qed.

(** An override wins.  Otherwise a name without a rate is refused, so that
    nothing is ever billed at zero, and a name with one resolves, as soon as its
    provider's key is set, to a client of that provider, with that key, for that
    very model: no rated model is without a provider. *)
Theorem Get_spec r model :
  match Get r model with
  | Ok (Override id) => overrides r !! model = Some id
  | Ok (Anthropic c) =>
      overrides r !! model = None /\ is_Some (RateFor model) /\ anthropicAPIKey r <> "" /\
      c = {| baseURL := anthropicDefaultBaseURL; apiKey := anthropicAPIKey r; cl_model := model |}
  | Ok (OpenAI c) =>
      overrides r !! model = None /\ is_Some (RateFor model) /\ openaiAPIKey r <> "" /\
      c = {| baseURL := openaiDefaultBaseURL; apiKey := openaiAPIKey r; cl_model := model |}
  | Fail _ =>
      overrides r !! model = None /\
      (RateFor model = None \/
       HasPrefix model "claude-" = true /\ anthropicAPIKey r = "" \/
       HasPrefix model "gpt-" = true /\ openaiAPIKey r = "")
  end.
Proof.
  unfold Get, RateFor. destruct (overrides r !! model) eqn:Eo; [done|].
  destruct (modelRates !! model) eqn:Em; [|by split; [|left]].
  destruct (rated_provider model) as [Hc|[Hc Hg]]; [by eexists| |].
  - rewrite Hc. unfold NewAnthropicClient, str_eqb.
    destruct (bool_decide_reflect (anthropicAPIKey r = "")); [by split; [|right; left]|].
    rewrite Em. split; [done|]. split; [by eexists|done].
  - rewrite Hc, Hg. unfold NewOpenAIClient, str_eqb.
    destruct (bool_decide_reflect (openaiAPIKey r = "")); [by split; [|right; right]|].
    rewrite Em. split; [done|]. split; [by eexists|done].
Qed.

(** The models are listed once each, in order, whatever order the maps are
    ranged over in, and they are exactly the names that have a rate or an
    override. *)
Theorem Models_spec {SS : SliceSort} {SL : SliceSortLaws SS} range r :
  (forall X, Permutation (range X) (elements X)) ->
  names_of (dom modelRates ∪ dom (overrides r)) (Models range r) /\
  (forall range', (forall X, Permutation (range' X) (elements X)) -> Models range' r = Models range r) /\
  (forall model, model ∉ Models range r -> is_ok (Get r model) = false).
Proof.
  intros Hr. unfold Models, listModelsLocked.
  assert (Hn := sort_names range (dom modelRates ∪ dom (overrides r)) (Hr _)).
  split; [exact Hn|]. split.
  - intros range' Hr'. exact (names_unique _ _ _ (sort_names range' _ (Hr' _)) Hn).
  - intros model Hm. rewrite (names_all _ _ Hn), not_elem_of_union, !not_elem_of_dom in Hm.
    destruct Hm as [Hrate Ho]. unfold Get. by rewrite Ho, Hrate.
Qed.

(** ** What a completion costs *)

Section Billing.
Context {H : HTTP}.

Lemma exchange_ok who req s body s' : exchange who req s = (Ok body, s') ->
  bad_url (hr_url req) = None /\
  exists status, http_do req s = (Ok (status, Ok body), s') /\ Z.quot status 100 = 2.
Proof.
  unfold exchange. destruct (bad_url _); [done|].
  destruct (http_do req s) as [[[status [b|err]]|err] s1]; try done.
  destruct (Z.eqb_spec (Z.quot status 100) 2); cbn; [|done]. intros [= -> ->]. split; [done|]. by exists status.
Qed.

(** Whatever the client, a completion is billed at the rate of the model it
    was resolved for, from the tokens the response reports, and says so; the
    provider's own claim about the model is ignored, and nothing is sent or
    billed for a bound that is not positive. *)
Theorem completion_billed c system user maxTokens w resp w' :
  Complete c system user maxTokens w = (Ok resp, w') ->
  0 < maxTokens /\ billed_model c w.2 = Some (Model resp) /\
  CostUSD resp = computeCost (Model resp) (InputTokens resp) (OutputTokens resp).
Proof.
  destruct c as [id|c|c]; cbn [Complete billed_model].
  - destruct (w.2 !! id) as [f|] eqn:Ef; [|done]. unfold Fake_Complete.
    destruct (failNext f); [done|]. destruct (Z.leb_spec maxTokens 0); [done|].
    destruct (responseQueue f); intros [= <- _]; by split.
  - unfold anthropic_Complete. destruct (Z.leb_spec maxTokens 0); [done|].
    destruct (exchange _ _ _) as [[body|err] s]; [|done].
    destruct (Unmarshal _ _ body) as [parsed|]; [|done].
    destruct (_ || _); [done|]. intros [= <- _]. by split.
  - unfold openai_Complete. destruct (Z.leb_spec maxTokens 0); [done|].
    destruct (exchange _ _ _) as [[body|err] s]; [|done].
    destruct (Unmarshal _ _ body) as [parsed|]; [|done].
    destruct (negb _); [done|]. destruct (or_Choices parsed); [done|]. intros [= <- _]. by split.
Qed.
End Billing.

(** ** What is sent *)

Lemma reads_parse nest text v : reads nest text v -> nest <= maxNestingDepth -> Parse text = Some v.
Proof.
  intros Hr Hn. unfold Parse, DecodeFirst, json_fuel.
  pose proof (reads_value _ _ _ Hr (S (2 * String.length text)) 0 "" ltac:(lia) eq_refl) as H.
  rewrite str_app_nil in H. by rewrite H by lia.
Qed.

(** Both sides of a [Forall2], one by one. *)
Ltac pairwise := repeat first [apply List.Forall2_cons | apply List.Forall2_nil].

(** The value of a member of an object. *)
Definition at_key (key : string) (v : json) : option json :=
  match v with
  | JsonObject ms => snd <$> List.find (fun m => str_eqb m.1.1 key) ms
  | _ => None
  end.

Definition is_message (role content : string) (v : json) : Prop :=
  at_key "role" v = Some (JsonString role) /\ at_key "content" v = Some (JsonString content).

Lemma reads_message role content : utf8 role = true -> utf8 content = true ->
  exists v, reads 1 (write_object (message role content)) v /\ is_message role content v.
Proof.
  intros Hr Hc. eexists. split; [apply (reads_object 0 _ [JsonString role; JsonString content]); [|done]|by split].
  unfold reads_members, message. pairwise; (split; [done|by apply reads_string]).
Qed.

(** The body of a request to Anthropic is JSON and reads back as what was
    asked: the model, the bound, the system prompt unless it is empty, and the
    user's prompt as the only message, for all prompts that are UTF-8. *)
Theorem anthropic_request_roundtrip {H : HTTP} c system user maxTokens :
  utf8 (cl_model c) = true -> utf8 system = true -> utf8 user = true -> 0 < maxTokens ->
  exists v m, Parse (hr_body (anthropic_request c system user maxTokens)) = Some v /\
    at_key "model" v = Some (JsonString (cl_model c)) /\
    at_key "max_tokens" v = Some (JsonNumber (Itoa maxTokens)) /\
    at_key "system" v = (if str_eqb system "" then None else Some (JsonString system)) /\
    at_key "messages" v = Some (JsonArray [m]) /\ is_message "user" user m.
Proof.
  intros Hm Hs Hu Hn. destruct (reads_message "user" user eq_refl Hu) as (m & Hrm & Him).
  set (vs := [JsonString (cl_model c); JsonNumber (Itoa maxTokens)] ++
             (if str_eqb system "" then [] else [JsonString system]) ++ [JsonArray [m]]).
  assert (Hr : reads_members 2 (anthropicMsgRequest (cl_model c) maxTokens system user) vs).
  { unfold reads_members, anthropicMsgRequest. subst vs.
    assert (Hmsgs : reads 2 (write_array [write_object (message "user" user)]) (JsonArray [m]))
      by (apply (reads_array 1); [by pairwise|done|done]).
    destruct (str_eqb system ""); cbn [app]; pairwise;
      (split; [done|first [exact Hmsgs|by apply reads_string|by apply reads_int]]). }
  eexists _, m. split; [exact (reads_parse 3 _ _ (reads_object 2 _ _ Hr ltac:(done)) ltac:(done))|].
  subst vs. unfold anthropicMsgRequest. destruct (str_eqb system ""); by repeat split; try apply Him.
Qed.

(** The same for OpenAI, where the system prompt, unless it is empty, is
    the first of the messages. *)
Theorem openai_request_roundtrip {H : HTTP} c system user maxTokens :
  utf8 (cl_model c) = true -> utf8 system = true -> utf8 user = true -> 0 < maxTokens ->
  exists v ms, Parse (hr_body (openai_request c system user maxTokens)) = Some v /\
    at_key "model" v = Some (JsonString (cl_model c)) /\
    at_key "max_tokens" v = Some (JsonNumber (Itoa maxTokens)) /\
    at_key "messages" v = Some (JsonArray ms) /\
    Forall2 (fun m v => is_message m.1 m.2 v)
      ((if str_eqb system "" then [] else [("system", system)]) ++ [("user", user)]) ms.
Proof.
  intros Hm Hs Hu Hn. destruct (reads_message "user" user eq_refl Hu) as (mu & Hru & Hiu).
  destruct (reads_message "system" system eq_refl Hs) as (msys & Hrs & His).
  set (ms := (if str_eqb system "" then [] else [msys]) ++ [mu]).
  assert (Hmsgs : reads 2 (write_array ((if str_eqb system "" then [] else [write_object (message "system" system)]) ++
                                        [write_object (message "user" user)])) (JsonArray ms)).
  { subst ms. apply (reads_array 1); [|by destruct (str_eqb system "")|done].
    destruct (str_eqb system ""); cbn [app]; by pairwise. }
  assert (Hr : reads_members 2 (openaiChatRequest (cl_model c) maxTokens system user)
                 [JsonString (cl_model c); JsonArray ms; JsonNumber (Itoa maxTokens)]).
  { unfold reads_members, openaiChatRequest. replace (maxTokens =? 0) with false by lia.
    cbn [app]; pairwise;
      (split; [done|first [exact Hmsgs|by apply reads_string|by apply reads_int]]). }
  eexists _, ms. split; [exact (reads_parse 3 _ _ (reads_object 2 _ _ Hr ltac:(done)) ltac:(done))|].
  unfold openaiChatRequest. replace (maxTokens =? 0) with false by lia.
  split; [done|]. split; [done|]. split; [done|]. subst ms.
  destruct (str_eqb system ""); cbn [app]; by pairwise.
Qed.

(** ** The script of the fake *)

(** The contents of a run of calls. *)
Fixpoint fake_run (f : FakeLLMClient) (prompts : list (string * string)) (maxTokens : Z)
    : list (option string) * FakeLLMClient :=
  match prompts with
  | [] => ([], f)
  | (system, user) :: prompts' =>
      let '(r, f) := Fake_Complete system user maxTokens f in
      let '(cs, f) := fake_run f prompts' maxTokens in
      (match r with Ok resp => Some (Content resp) | Fail _ => None end :: cs, f)
  end.

(** The fake answers the queue in order and then the one response, and
    records every prompt in order. *)
Theorem fake_serves_queue prompts maxTokens : forall f, failNext f = None -> 0 < maxTokens ->
  let '(cs, f') := fake_run f prompts maxTokens in
  cs = Some <$> take (length prompts) (responseQueue f ++ replicate (length prompts) (response f)) /\
  responseQueue f' = drop (length prompts) (responseQueue f) /\
  fake_calls f' = fake_calls f ++ ((fun p => {| fc_System := p.1; fc_User := p.2; fc_MaxTokens := maxTokens |}) <$> prompts).
Proof.
  induction prompts as [|[system user] prompts IH]; intros f Hf Hn; [split; [done|split; [done|by rewrite app_nil_r]]|].
  cbn [fake_run]. unfold Fake_Complete. rewrite Hf. replace (maxTokens <=? 0) with false by lia.
  set (calls := fake_calls f ++ _). set (q := match responseQueue f with [] => _ | x :: q => _ end).
  assert (Hq : q = (default (response f) (head (responseQueue f)), tail (responseQueue f)))
    by (subst q; by destruct (responseQueue f)).
  rewrite Hq. specialize (IH (with_calls f calls (tail (responseQueue f))) eq_refl Hn).
  destruct (fake_run _ prompts maxTokens) as [cs f']. destruct IH as (-> & -> & ->). cbn [Content].
  split; [|split].
  - cbn [length]. destruct (responseQueue f) as [|x rest] eqn:Er; cbn; [done|].
    do 2 f_equal.
    change (response f :: replicate (length prompts) (response f)) with (replicate (S (length prompts)) (response f)).
    rewrite replicate_S_end, (app_assoc rest), (take_app_le (rest ++ _)); [done|].
    rewrite length_app, length_replicate. lia.
  - cbn. by destruct (responseQueue f); cbn; rewrite ?drop_nil.
  - cbn. unfold calls. by rewrite <- app_assoc.
Qed.

(** ** A provider at work *)

(** A provider that answers every request with one status and one text, and
    keeps the requests. *)
Definition replies (status : Z) (text : string) : HTTP := {|
  http_state := list http_request; bad_url := fun _ => None;
  http_do := fun req s => (Ok (status, Ok text), s ++ [req]) |}.

Definition pair_text (key text : string) : string := json_string key +:+ ": " +:+ text.

Definition obj (members : list string) : string := String lbrace (join ", " members +:+ String rbrace "").

(** A message of two text parts around a part of another type. *)
Definition two_parts : string :=
  obj [pair_text "content" (write_array
         [obj [pair_text "type" (json_string "text"); pair_text "text" (json_string "ab")];
          obj [pair_text "type" (json_string "tool_use"); pair_text "text" (json_string "x")];
          obj [pair_text "type" (json_string "text"); pair_text "text" (json_string "cd")]]);
       pair_text "usage" (obj [pair_text "input_tokens" "1000"; pair_text "output_tokens" "200"])].

Definition sample_keys : LLMRegistry := Configure empty_registry "k-anthropic" "k-openai".

Definition haiku : llm_client :=
  Anthropic {| baseURL := anthropicDefaultBaseURL; apiKey := "k-anthropic"; cl_model := "claude-haiku-4-5-20251001" |}.

Example haiku_resolved : Get sample_keys "claude-haiku-4-5-20251001" = Ok haiku.
Proof. vm_compute. reflexivity. Qed.

Definition first_answer : result LLMResponse :=
  (Complete (H := replies 200 two_parts) haiku "be brief" "go" 256 ([] : @http_state (replies 200 two_parts), ∅)).1.

Example first_answer_text : first_answer = Ok {|
  Content := "abcd"; InputTokens := 1000; OutputTokens := 200;
  CostUSD := computeCost "claude-haiku-4-5-20251001" 1000 200; Model := "claude-haiku-4-5-20251001" |}.
Proof. vm_compute. reflexivity. Qed.

(** A fraction of a token is refused, and so is a status that is not 2xx. *)
Example odd_answers :
  (is_ok (Complete (H := replies 200 (obj [pair_text "usage" (obj [pair_text "input_tokens" "1.5"])])) haiku "" "go" 256
            ([] : list http_request, ∅)).1,
   is_ok (Complete (H := replies 301 two_parts) haiku "" "go" 256 ([] : list http_request, ∅)).1,
   is_ok (Complete (H := replies 200 "null") haiku "" "go" 256 ([] : list http_request, ∅)).1) = (false, false, true).
Proof. vm_compute. reflexivity. Qed.

Lemma completion_billed_witness :
  exists resp, first_answer = Ok resp /\
    CostUSD resp = computeCost (Model resp) (InputTokens resp) (OutputTokens resp).
Proof.
  unfold first_answer.
  destruct (Complete (H := replies 200 two_parts) haiku "be brief" "go" 256
    ([] : @http_state (replies 200 two_parts), ∅)) as [[resp|err] w'] eqn:E; [|discriminate E].
  exists resp. split; [reflexivity|].
  exact (proj2 (proj2 (completion_billed (H := replies 200 two_parts) haiku "be brief" "go" 256 _ resp w' E))).
Defined.

Lemma anthropic_request_roundtrip_witness :
  exists v, Parse (hr_body (anthropic_request
    {| baseURL := ""; apiKey := ""; cl_model := "claude-opus-4-7" |} "" (String dquote "a<b") 256)) = Some v /\
    at_key "system" v = None.
Proof.
  destruct (anthropic_request_roundtrip (H := replies 200 "")
    {| baseURL := ""; apiKey := ""; cl_model := "claude-opus-4-7" |} "" (String dquote "a<b") 256
    eq_refl eq_refl eq_refl ltac:(lia)) as (v & m & Hv & _ & _ & Hs & _).
  exists v. exact (conj Hv Hs).
Defined.

Lemma openai_request_roundtrip_witness :
  exists v, Parse (hr_body (openai_request
    {| baseURL := ""; apiKey := ""; cl_model := "gpt-4o" |} "s" "u" 256)) = Some v /\
    at_key "max_tokens" v = Some (JsonNumber "256").
Proof.
  destruct (openai_request_roundtrip (H := replies 200 "")
    {| baseURL := ""; apiKey := ""; cl_model := "gpt-4o" |} "s" "u" 256
    eq_refl eq_refl eq_refl ltac:(lia)) as (v & ms & Hv & _ & Hn & _).
  exists v. exact (conj Hv Hn).
Defined.

Definition scripted : FakeLLMClient := WithResponseQueue (WithResponse (NewFakeLLMClient "gpt-4o") "last") ["one"; "two"].

Lemma fake_serves_queue_witness :
  (fake_run scripted [("s", "a"); ("s", "b"); ("s", "c"); ("s", "d")] 10).1 =
  [Some "one"; Some "two"; Some "last"; Some "last"].
Proof.
  pose proof (fake_serves_queue [("s", "a"); ("s", "b"); ("s", "c"); ("s", "d")] 10 scripted eq_refl ltac:(lia)) as H.
  destruct (fake_run scripted _ 10) as [cs f']. exact (proj1 H).
Defined.

Lemma Models_spec_witness :
  forall model, model ∉ Models (SS := insertion_slice_sort) elements empty_registry ->
  is_ok (Get empty_registry model) = false.
Proof.
  exact (proj2 (proj2 (Models_spec (SS := insertion_slice_sort) (SL := insertion_slice_sort_laws)
    elements empty_registry (fun X => Permutation_refl _)))).
Defined.
