(* ===== verification/RootOrchestrator.v ===== *)
(** * The root orchestrator ([internal/orchestrator/parent.go])

    One epoch: the lifecycle policy and its execution, the gates of every
    offspring proposal, the postmortems, the breaker's verdict, the log and the
    event.  The collaborators (store, executor, model, backtest, breaker, bus)
    answer from the history of the calls made so far, so a run is its result
    and its calls in order. *)
From Stdlib Require Import ZArith Lia Floats.
From stdpp Require Import base list strings gmap.
From S2P Require Import Prelude GoBase GoFloat GoRound Genome Economics LifecyclePolicy Diversity JsonExtract Review.
Set Warnings "-inexact-float".
Open Scope Z_scope.

Record OffspringProposal := {
  ProposalID : string;
  ParentID : string;
  Candidate : AgentGenome;
  ReproductionReserveUSD : float;
  ParentLedger : Ledger;
  ParentCarriedDebt : float;
}.

Record EpochState := {
  EpochID : string;
  StartedAt : Time;
  Snapshots : list AgentSnapshot;
  Genomes : gmap string AgentGenome;
  SwarmGenomes : list AgentGenome;
  CarriedDebt_ : gmap string float;
  BudgetTight_ : bool;
  OffspringProposals : list OffspringProposal;
  DeadAgents : list PostmortemInput;
}.

Inductive OffspringOutcome := OffspringApproved | OffspringRejected | OffspringRevise.

Record OffspringDecision := {
  od_ProposalID : string;
  od_ParentID : string;
  Outcome : OffspringOutcome;
  RejectTag : string;
  od_CostUSD : float;
  Quality : option QualityResult;
  Adversarial : option AdversarialResult;
}.

Record EpochResult := {
  er_EpochID : string;
  LifecycleActions : list LifecycleAction;
  OffspringDecisions : list OffspringDecision;
  Postmortems : list PostmortemResult;
  BreakerTripped : bool;
  BreakerReason : string;
  EndedAt : Time;
}.

Record EpochBreakerOutcome := {
  FundedNodes : Z;
  NodesHitStopLoss : Z;
  RPCRequests : Z;
  RPCErrors : Z;
  WindowDuration : Duration;
}.

(** The calls an epoch makes on its collaborators. *)
Inductive ecall :=
  | ELoad (epochID : string)
  | EAct (k : LifecycleActionKind) (agentID reason : string)
  | EComplete (system user : string) (maxTokens : Z)
  | EBacktest (candidate : AgentGenome)
  | EPersistDecision (d : OffspringDecision)
  | EPersistPostmortem (p : PostmortemResult) (agentID : string)
  | EBreaker (o : EpochBreakerOutcome)
  | ELog (r : EpochResult)
  | EPublish (channel payload : string).

(** What the collaborators answer after a history of calls.  The results of
    the persists and of the publish are discarded by the code. *)
Record World := {
  w_load : list ecall -> string -> result EpochState;
  w_act : list ecall -> LifecycleActionKind -> string -> string -> option gerror;
  w_complete : list ecall -> string -> string -> Z -> result LLMResponse;
  w_backtest : option (list ecall -> AgentGenome -> result bool);
  w_breaker : list ecall -> EpochBreakerOutcome -> string;
  w_log : list ecall -> EpochResult -> option gerror;
}.

Record RootOrchestratorConfig := {
  hasStore : bool; hasLifecycle : bool; hasBreaker : bool; hasBus : bool; hasLLM : bool;
  LifecyclePolicyCfg : LifecyclePolicyConfig;
  MaxLLMTokens : Z;
}.

Definition NewRootOrchestrator (c : RootOrchestratorConfig) : result RootOrchestratorConfig :=
  if negb (hasStore c) then Fail (EMsg "root: store required")
  else if negb (hasLifecycle c) then Fail (EMsg "root: lifecycle executor required")
  else if negb (hasBreaker c) then Fail (EMsg "root: breaker required")
  else if negb (hasBus c) then Fail (EMsg "root: event bus required")
  else if negb (hasLLM c) then Fail (EMsg "root: llm client required")
  else Ok {| hasStore := true; hasLifecycle := true; hasBreaker := true; hasBus := true; hasLLM := true;
             LifecyclePolicyCfg := LifecyclePolicyCfg c;
             MaxLLMTokens := if MaxLLMTokens c <=? 0 then 1024 else MaxLLMTokens c |}.

Definition summarizeSwarm (swarm : list AgentGenome) : list GenomeSummary :=
  (fun g => {| gs_AgentID := ""; gs_Name := Name g; gs_TaskType := TaskType g; gs_Chain := Chain g;
               gs_Model := StrategistModel g; gs_Generation := Generation g |}) <$> swarm.

Definition stop_out (a : LifecycleAction) : bool :=
  match Kind a with
  | ActionKill => str_eqb (a_Reason a) "max_drawdown_exceeded"
  | _ => false
  end.

Definition breakerOutcome (state : EpochState) (actions : list LifecycleAction) : EpochBreakerOutcome := {|
  FundedNodes := len (List.filter (fun s => str_eqb (NodeClass s) "funded") (Snapshots state));
  NodesHitStopLoss := len (List.filter stop_out actions);
  RPCRequests := 0; RPCErrors := 0; WindowDuration := 5 * Minute |}.

Definition zero_snapshot : AgentSnapshot := {|
  s_AgentID := ""; Status := ""; BalanceUSD := 0; Drawdown := 0; ConsecutiveLosingEpochs := 0;
  OperatingDebtUSD := 0; LastHeartbeat := 0; LastStrategistVerdict := ""; NetProfitWindowUSD := 0;
  NodeClass := "" |}.

Definition postmortemInputFor (state : EpochState) (a : LifecycleAction) : option PostmortemInput :=
  match Genomes state !! a_AgentID a with
  | None => None
  | Some g =>
      let snap := default zero_snapshot
        (List.find (fun s => str_eqb (s_AgentID s) (a_AgentID a)) (Snapshots state)) in
      Some {| pm_AgentID := a_AgentID a; pm_Name := Name g; pm_TaskType := TaskType g;
              pm_Chain := Chain g; pm_Model := StrategistModel g; pm_Generation := Generation g;
              KillReason := a_Reason a; FinalBalanceUSD := BalanceUSD snap;
              FinalDrawdown := Drawdown snap; LifetimeNetProfitUSD := NetProfitWindowUSD snap;
              LifetimeLLMCostUSD := 0; EpochsLived := 0;
              LastStrategistNote := LastStrategistVerdict snap |}
  end.

Section Orchestrator.
Context {C : ReviewCodec} {P : Prompts}.
Context (unicode_lower : string -> string).
Context (cfg : RootOrchestratorConfig) (w : World).

(** The model the orchestrator holds, as the reviews see it. *)
#[local] Instance orchestrator_llm : LLMClient := {|
  llm_state := list ecall;
  Complete := fun system user maxTokens h =>
    (w_complete w h system user maxTokens, h ++ [EComplete system user maxTokens]) |}.

Definition executeAction (a : LifecycleAction) (h : list ecall) : option gerror * list ecall :=
  (w_act w h (Kind a) (a_AgentID a) (a_Reason a), h ++ [EAct (Kind a) (a_AgentID a) (a_Reason a)]).

(** The loop over the actions; the agents it leaves to examine. *)
Fixpoint act_loop (state : EpochState) (actions : list LifecycleAction) (dead : list PostmortemInput)
    (h : list ecall) : list PostmortemInput * list ecall :=
  match actions with
  | [] => (dead, h)
  | a :: actions' =>
      let '(err, h) := executeAction a h in
      let dead :=
        match err, Kind a with
        | None, ActionKill => match postmortemInputFor state a with
                              | Some pm => dead ++ [pm]
                              | None => dead
                              end
        | _, _ => dead
        end in
      act_loop state actions' dead h
  end.

Definition insolvent (p : OffspringProposal) : bool :=
  (RealizedNetProfit (ParentLedger p) <=? 0)%float || (0 <? ParentCarriedDebt p)%float ||
  (RealizedNetProfit (ParentLedger p) <? ReproductionReserveUSD p)%float.

Definition decide_ (p : OffspringProposal) (o : OffspringOutcome) (tag : string) (cost : float)
    (q : option QualityResult) (a : option AdversarialResult) : OffspringDecision := {|
  od_ProposalID := ProposalID p; od_ParentID := ParentID p; Outcome := o; RejectTag := tag;
  od_CostUSD := cost; Quality := q; Adversarial := a |}.

Definition is_quality_reject (q : option QualityResult) : bool :=
  match q with Some r => match q_Verdict r with VerdictReject => true | _ => false end | None => false end.
Definition is_quality_revise (q : option QualityResult) : bool :=
  match q with Some r => match q_Verdict r with VerdictRevise => true | _ => false end | None => false end.
Definition is_adversarial_reject (a : option AdversarialResult) : bool :=
  match a with Some r => match a_Verdict r with AdversarialReject => true | _ => false end | None => false end.
Definition is_adversarial_revise (a : option AdversarialResult) : bool :=
  match a with Some r => match a_Verdict r with AdversarialRevise => true | _ => false end | None => false end.

Definition answered {A} (r : result A) : option A := match r with Ok x => Some x | Fail _ => None end.

(** Gate 4 and the verdict of a proposal that passed the first three. *)
Definition backtest_gate (p : OffspringProposal) (cost : float) (q : option QualityResult)
    (a : option AdversarialResult) (h : list ecall) : OffspringDecision * list ecall :=
  let verdict :=
    decide_ p (if is_quality_revise q || is_adversarial_revise a then OffspringRevise
               else OffspringApproved) "" cost q a in
  match w_backtest w with
  | None => (verdict, h)
  | Some run =>
      let passed := match run h (Candidate p) with Ok b => b | Fail _ => false end in
      let h := h ++ [EBacktest (Candidate p)] in
      if passed then (verdict, h) else (decide_ p OffspringRejected "backtest_failed" cost q a, h)
  end.

Definition processOffspring (range : range_order string Z) (state : EpochState) (p : OffspringProposal)
    (h : list ecall) : OffspringDecision * list ecall :=
  if insolvent p then (decide_ p OffspringRejected "insolvent" 0%float None None, h)
  else
    let swarmCtx := {| DiversityScore_ := DiversityScore range (SwarmGenomes state);
                       ExistingGenomes := summarizeSwarm (SwarmGenomes state) |} in
    let '(qr, h) := QualityCheck unicode_lower (hasLLM cfg) (Candidate p) swarmCtx (MaxLLMTokens cfg) h in
    let q := answered qr in
    let cost := match q with Some r => (0 + q_CostUSD r)%float | None => 0%float end in
    if is_quality_reject q then (decide_ p OffspringRejected "quality_reject" cost q None, h)
    else
      let '(ar, h) :=
        AdversarialReview unicode_lower (hasLLM cfg) (Candidate p) swarmCtx (MaxLLMTokens cfg) h in
      let a := answered ar in
      let cost := match a with Some r => (cost + a_CostUSD r)%float | None => cost end in
      if is_adversarial_reject a then (decide_ p OffspringRejected "adversarial_reject" cost q a, h)
      else backtest_gate p cost q a h.

Fixpoint offspring_loop (ranges : nat -> range_order string Z) (i : nat) (state : EpochState)
    (props : list OffspringProposal) (h : list ecall) : list OffspringDecision * list ecall :=
  match props with
  | [] => ([], h)
  | p :: props' =>
      let '(d, h) := processOffspring (ranges i) state p h in
      let h := h ++ [EPersistDecision d] in
      let '(ds, h) := offspring_loop ranges (S i) state props' h in
      (d :: ds, h)
  end.

Fixpoint postmortem_loop (dead : list PostmortemInput) (h : list ecall)
    : list PostmortemResult * list ecall :=
  match dead with
  | [] => ([], h)
  | input :: dead' =>
      let '(r, h) := GeneratePostmortem unicode_lower (hasLLM cfg) input (MaxLLMTokens cfg) h in
      match r with
      | Fail _ => postmortem_loop dead' h
      | Ok pm =>
          let h := h ++ [EPersistPostmortem pm (pm_AgentID input)] in
          let '(pms, h) := postmortem_loop dead' h in
          (pm :: pms, h)
      end
  end.

Definition empty_result : EpochResult := {|
  er_EpochID := ""; LifecycleActions := []; OffspringDecisions := []; Postmortems := [];
  BreakerTripped := false; BreakerReason := ""; EndedAt := zero_time |}.

(** [startedAt] and [endedAt] are what the clock reads. *)
Definition RunEpoch (startedAt endedAt : Time) (ranges : nat -> range_order string Z)
    (epochID : string) (h : list ecall) : (EpochResult * option gerror) * list ecall :=
  let loaded := w_load w h epochID in
  let h := h ++ [ELoad epochID] in
  match loaded with
  | Fail err => ((empty_result, Some (EWrap "run epoch %s: load state: %w" err)), h)
  | Ok state =>
      let actions := DeterministicLifecyclePolicy startedAt (LifecyclePolicyCfg cfg)
                       (Snapshots state) (BudgetTight_ state) in
      let '(dead, h) := act_loop state actions (DeadAgents state) h in
      let '(ds, h) := offspring_loop ranges 0 state (OffspringProposals state) h in
      let '(pms, h) := postmortem_loop dead h in
      let outcome := breakerOutcome state actions in
      let reason := w_breaker w h outcome in
      let h := h ++ [EBreaker outcome] in
      let res := {| er_EpochID := epochID; LifecycleActions := actions; OffspringDecisions := ds;
                    Postmortems := pms; BreakerTripped := negb (str_eqb reason "");
                    BreakerReason := reason; EndedAt := endedAt |} in
      let err := w_log w h res in
      let h := h ++ [ELog res] in
      match err with
      | Some e => ((res, Some (EWrap "run epoch %s: log: %w" e)), h)
      | None => ((res, None), h ++ [EPublish "events:epoch_completed" epochID])
      end
  end.
End Orchestrator.

(** ** The breaker adapter of [cmd/swarm/main.go] *)

Definition adapter_EvaluateEpoch (o : EpochBreakerOutcome) : string :=
  if (0 <? FundedNodes o) &&
     (0.5 <=? float_of_int (NodesHitStopLoss o) / float_of_int (FundedNodes o))%float
  then "mass_stop_out" else "".

(** ** Traces *)

(** The calls the reviews of an offspring make. *)
Definition review_call (c : ecall) : Prop :=
  match c with EComplete _ _ _ | EBacktest _ => True | _ => False end.

Definition act_call (a : LifecycleAction) : ecall := EAct (Kind a) (a_AgentID a) (a_Reason a).

Section Epoch.
Context {C : ReviewCodec} {P : Prompts}.
Context (unicode_lower : string -> string).
Context (cfg : RootOrchestratorConfig) (w : World).

#[local] Existing Instance orchestrator_llm.

(** [extends n Q h h']: the run went on from [h] to [h'] with at most [n]
    calls, all of them [Q]. *)
Definition extends (n : nat) (Q : ecall -> Prop) (h h' : list ecall) : Prop :=
  exists tr, h' = h ++ tr /\ Forall Q tr /\ (length tr <= n)%nat.

Lemma extends_refl n Q h : extends n Q h h.
Proof. exists []. split; [by rewrite app_nil_r|]. split; [constructor|cbn; lia]. Qed.

Lemma extends_snoc n Q h h' c : extends n Q h h' -> Q c -> extends (S n) Q h (h' ++ [c]).
Proof.
  intros (tr & -> & F & L) Hc. exists (tr ++ [c]). split; [by rewrite app_assoc|].
  split; [by apply Forall_app_single|]. rewrite length_app. cbn. lia.
Qed.

Lemma extends_weaken n m Q h h' : (n <= m)%nat -> extends n Q h h' -> extends m Q h h'.
Proof. intros Hn (t & -> & F & L). exists t. split; [done|]. split; [done|lia]. Qed.

(** Completions made one after the other. *)
Ltac completions n :=
  apply (extends_weaken n); [lia|]; repeat (apply extends_snoc; [|exact I]); apply extends_refl.

Lemma QualityCheck_calls b cand sw mt h :
  extends 1 review_call h (@QualityCheck _ _ (orchestrator_llm w) unicode_lower b cand sw mt h).2.
Proof.
  unfold QualityCheck. destruct b; cbn [negb]; [|apply extends_refl].
  destruct (buildQualityUserPrompt cand sw) as [u|]; [|apply extends_refl].
  cbn [Complete orchestrator_llm]. destruct (w_complete w h _ _ _); completions 1%nat.
Qed.

Lemma AdversarialReview_calls b cand sw mt h :
  extends 3 review_call h (@AdversarialReview _ _ (orchestrator_llm w) unicode_lower b cand sw mt h).2.
Proof.
  unfold AdversarialReview. destruct b; cbn [negb]; [|apply extends_refl].
  destruct (marshalAdversarialPayload cand sw) as [u|]; [|apply extends_refl].
  cbn [Complete orchestrator_llm].
  destruct (w_complete w h _ _ _); [|completions 1%nat].
  destruct (w_complete w (h ++ _) _ _ _); [|completions 2%nat].
  destruct (w_complete w ((h ++ _) ++ _) _ _ _); completions 3%nat.
Qed.

Lemma GeneratePostmortem_calls b input mt h :
  extends 1 review_call h (@GeneratePostmortem _ _ (orchestrator_llm w) unicode_lower b input mt h).2.
Proof.
  unfold GeneratePostmortem. destruct b; cbn [negb]; [|apply extends_refl].
  destruct (str_eqb _ _); [apply extends_refl|].
  destruct (marshal_postmortem input) as [u|]; [|apply extends_refl].
  cbn [Complete orchestrator_llm]. destruct (w_complete w h _ _ _); completions 1%nat.
Qed.

(** ** The gates *)

(** What an approval means. *)
Record approvable (p : OffspringProposal) (d : OffspringDecision) (tr : list ecall) : Prop := {
  ap_solvent : insolvent p = false;
  ap_quality : forall q, Quality d = Some q -> q_Verdict q = VerdictApprove;
  ap_adversarial : forall a, Adversarial d = Some a -> a_Verdict a = AdversarialApprove;
  ap_backtest : forall run, w_backtest w = Some run -> EBacktest (Candidate p) ∈ tr /\
    exists h, run h (Candidate p) = Ok true;
}.

(** The sum of the reviews' costs, in the order they were charged. *)
Definition review_cost (q : option QualityResult) (a : option AdversarialResult) : float :=
  let c := match q with Some r => (0 + q_CostUSD r)%float | None => 0%float end in
  match a with Some r => (c + a_CostUSD r)%float | None => c end.

(** A decision on a proposal and the calls made to reach it. *)
Record gated (p : OffspringProposal) (d : OffspringDecision) (tr : list ecall) : Prop := {
  g_id : od_ProposalID d = ProposalID p /\ od_ParentID d = ParentID p;
  g_calls : Forall review_call tr /\ (length tr <= 5)%nat;
  g_insolvent : insolvent p = true -> Outcome d = OffspringRejected /\ RejectTag d = "insolvent" /\ tr = [];
  g_approved : Outcome d = OffspringApproved -> approvable p d tr;
  g_rejected : Outcome d = OffspringRejected <-> RejectTag d <> "";
  g_reject : is_quality_reject (Quality d) || is_adversarial_reject (Adversarial d) = true ->
    Outcome d = OffspringRejected;
  g_cost : od_CostUSD d = review_cost (Quality d) (Adversarial d);
}.

Lemma verdict_cases q a :
  (if is_quality_revise q || is_adversarial_revise a then OffspringRevise else OffspringApproved)
    = OffspringApproved ->
  is_quality_reject q = false -> is_adversarial_reject a = false ->
  (forall r, q = Some r -> q_Verdict r = VerdictApprove) /\
  (forall r, a = Some r -> a_Verdict r = AdversarialApprove).
Proof.
  unfold is_quality_revise, is_adversarial_revise, is_quality_reject, is_adversarial_reject.
  intros H1 H2 H3. split; intros r ->.
  - destruct (q_Verdict r); done.
  - destruct (a_Verdict r); try done.
    destruct q as [q|]; [destruct (q_Verdict q)|]; done.
Qed.

Lemma backtest_gate_gated p q a h1 h tr :
  h = h1 ++ tr -> Forall review_call tr -> (length tr <= 4)%nat ->
  insolvent p = false -> is_quality_reject q = false -> is_adversarial_reject a = false ->
  let '(d, h') := backtest_gate w p (review_cost q a) q a h in
  exists tr', h' = h1 ++ tr' /\ gated p d tr'.
Proof.
  intros -> Htr Hlen Hs Hq Ha. unfold backtest_gate.
  set (o := if is_quality_revise q || is_adversarial_revise a then _ else _).
  assert (Ho : o <> OffspringRejected) by (unfold o; destruct (_ || _); done).
  assert (Happ : o = OffspringApproved ->
    (forall r, q = Some r -> q_Verdict r = VerdictApprove) /\
    (forall r, a = Some r -> a_Verdict r = AdversarialApprove)) by (intros; by apply verdict_cases).
  assert (Hrej : is_quality_reject q || is_adversarial_reject a = false) by (by rewrite Hq, Ha).
  destruct (w_backtest w) as [run|] eqn:Eb.
  - set (tr' := tr ++ [EBacktest (Candidate p)]).
    assert (Hcalls : Forall review_call tr' /\ (length tr' <= 5)%nat).
    { split; [by apply Forall_app_single|]. unfold tr'. rewrite length_app. cbn. lia. }
    assert (Hin : EBacktest (Candidate p) ∈ tr')
      by (apply elem_of_app; right; by apply list_elem_of_singleton).
    destruct (run (h1 ++ tr) (Candidate p)) as [[]|e] eqn:Er;
      (exists tr'; split; [unfold tr'; by rewrite app_assoc|]); split; cbn -[tr']; try done; try congruence.
    intros E. destruct (Happ E) as [H1 H2]. split; [done|done|done|].
    intros run' Hrun. rewrite Eb in Hrun. injection Hrun as <-. eauto.
  - exists tr. split; [done|]. split; cbn; try done; try congruence; [split; [done|lia]|].
    intros E. destruct (Happ E) as [H1 H2]. split; [done|done|done|]. intros run. by rewrite Eb.
Qed.

Lemma processOffspring_gated range state p h :
  let '(d, h') := processOffspring unicode_lower cfg w range state p h in
  exists tr, h' = h ++ tr /\ gated p d tr.
Proof.
  unfold processOffspring. destruct (insolvent p) eqn:Es.
  { exists []. split; [by rewrite app_nil_r|]. split; cbn; try done; try congruence.
    split; [constructor|lia]. }
  set (sw := {| DiversityScore_ := _; ExistingGenomes := _ |}).
  pose proof (QualityCheck_calls (hasLLM cfg) (Candidate p) sw (MaxLLMTokens cfg) h) as Hq.
  destruct (QualityCheck (L := orchestrator_llm w) _ _ _ _ _ h) as [qr h1]. cbn [snd] in Hq. destruct Hq as (t1 & -> & F1 & L1).
  set (q := answered qr). destruct (is_quality_reject q) eqn:Eq.
  { exists t1. split; [done|]. split; cbn; try done; try congruence. split; [done|lia]. }
  pose proof (AdversarialReview_calls (hasLLM cfg) (Candidate p) sw (MaxLLMTokens cfg) (h ++ t1)) as Ha.
  destruct (AdversarialReview (L := orchestrator_llm w) _ _ _ _ _ (h ++ t1)) as [ar h2]. cbn [snd] in Ha. destruct Ha as (t2 & -> & F2 & L2).
  set (a := answered ar).
  assert (Hcalls : Forall review_call (t1 ++ t2) /\ (length (t1 ++ t2) <= 4)%nat).
  { split; [by apply Forall_app|]. rewrite length_app. lia. }
  change (match a with Some r => _ | None => _ end) with (review_cost q a).
  destruct (is_adversarial_reject a) eqn:Ea.
  { exists (t1 ++ t2). split; [by rewrite app_assoc|]. split; cbn; try done; try congruence.
    split; [apply Hcalls|lia]. }
  apply (backtest_gate_gated p q a h _ (t1 ++ t2)); [by rewrite app_assoc|apply Hcalls..|done|done|done].
Qed.

(** C2: a proposal of an insolvent parent is rejected before anyone is asked;
    a rejection carries a tag and nothing else does; an approved proposal
    has a solvent parent, no review that asks for anything but approval, and
    a passed backtest where one is configured; the decision is charged with
    exactly the reviews it reports; and at most five calls are made. *)
Theorem processOffspring_spec range state p h :
  let '(d, h') := processOffspring unicode_lower cfg w range state p h in
  exists tr, h' = h ++ tr /\ gated p d tr.
Proof. apply processOffspring_gated. Qed.

(** ** The epoch *)

(** The lifecycle step: the agents it adds to those awaiting a postmortem. *)
Fixpoint killed (state : EpochState) (actions : list LifecycleAction) (h : list ecall)
    : list PostmortemInput :=
  match actions with
  | [] => []
  | a :: actions' =>
      (match w_act w h (Kind a) (a_AgentID a) (a_Reason a), Kind a with
       | None, ActionKill => option_list (postmortemInputFor state a)
       | _, _ => []
       end) ++ killed state actions' (h ++ [act_call a])
  end.

Lemma act_loop_spec state actions : forall dead h,
  act_loop w state actions dead h = (dead ++ killed state actions h, h ++ (act_call <$> actions)).
Proof.
  induction actions as [|a actions IH]; intros dead h; cbn [act_loop killed fmap list_fmap].
  { by rewrite !app_nil_r. }
  unfold executeAction. rewrite IH. fold (act_call a). f_equal.
  - destruct (w_act w h _ _ _), (Kind a); try done.
    destruct (postmortemInputFor state a); cbn; [by rewrite <- app_assoc|done].
  - by rewrite <- app_assoc.
Qed.

(** Proposals, their decisions and the calls of the step, proposal by
    proposal: the reviews, then the persisted decision. *)
Inductive offspring_trace : list OffspringProposal -> list OffspringDecision -> list ecall -> Prop :=
  | ot_nil : offspring_trace [] [] []
  | ot_cons p d ps ds rs tr :
      gated p d rs -> offspring_trace ps ds tr ->
      offspring_trace (p :: ps) (d :: ds) (rs ++ EPersistDecision d :: tr).

Lemma offspring_loop_spec ranges state props : forall i h,
  let '(ds, h') := offspring_loop unicode_lower cfg w ranges i state props h in
  exists tr, h' = h ++ tr /\ offspring_trace props ds tr.
Proof.
  induction props as [|p props IH]; intros i h; cbn [offspring_loop].
  { exists []. split; [by rewrite app_nil_r|constructor]. }
  pose proof (processOffspring_gated (ranges i) state p h) as Hp.
  destruct (processOffspring _ _ _ (ranges i) state p h) as [d h1]. destruct Hp as (rs & -> & Hg).
  specialize (IH (S i) ((h ++ rs) ++ [EPersistDecision d])).
  destruct (offspring_loop _ _ _ _ (S i) state props _) as [ds h2]. destruct IH as (tr & -> & Ht).
  exists (rs ++ EPersistDecision d :: tr). split; [by rewrite <- !app_assoc|by constructor].
Qed.

(** Agents awaiting a postmortem after the calls [h], the postmortems they got
    and the calls of the step: each is generated where the calls so far stand;
    one that is generated is persisted at once, and none is skipped unless its
    generation fails there. *)
Inductive postmortem_trace : list ecall -> list PostmortemInput -> list PostmortemResult -> list ecall -> Prop :=
  | pt_nil h : postmortem_trace h [] [] []
  | pt_fail h input dead e pms rs tr :
      @GeneratePostmortem _ _ (orchestrator_llm w) unicode_lower (hasLLM cfg) input (MaxLLMTokens cfg) h
        = (Fail e, h ++ rs) ->
      Forall review_call rs -> (length rs <= 1)%nat -> postmortem_trace (h ++ rs) dead pms tr ->
      postmortem_trace h (input :: dead) pms (rs ++ tr)
  | pt_done h input dead pm pms rs tr :
      @GeneratePostmortem _ _ (orchestrator_llm w) unicode_lower (hasLLM cfg) input (MaxLLMTokens cfg) h
        = (Ok pm, h ++ rs) ->
      Forall review_call rs -> (length rs <= 1)%nat ->
      postmortem_trace ((h ++ rs) ++ [EPersistPostmortem pm (pm_AgentID input)]) dead pms tr ->
      postmortem_trace h (input :: dead) (pm :: pms) (rs ++ EPersistPostmortem pm (pm_AgentID input) :: tr).

Lemma postmortem_loop_spec dead : forall h,
  let '(pms, h') := postmortem_loop unicode_lower cfg w dead h in
  exists tr, h' = h ++ tr /\ postmortem_trace h dead pms tr.
Proof.
  induction dead as [|input dead IH]; intros h; cbn [postmortem_loop].
  { exists []. split; [by rewrite app_nil_r|constructor]. }
  pose proof (GeneratePostmortem_calls (hasLLM cfg) input (MaxLLMTokens cfg) h) as Hg.
  destruct (GeneratePostmortem (L := orchestrator_llm w) _ _ input _ h) as [[pm|e] h1] eqn:Eg;
    cbn [snd] in Hg; destruct Hg as (rs & -> & F & L).
  - specialize (IH ((h ++ rs) ++ [EPersistPostmortem pm (pm_AgentID input)])).
    destruct (postmortem_loop _ _ _ dead _) as [pms h2]. destruct IH as (tr & -> & Ht).
    exists (rs ++ EPersistPostmortem pm (pm_AgentID input) :: tr).
    split; [by rewrite <- !app_assoc|by econstructor].
  - specialize (IH (h ++ rs)). destruct (postmortem_loop _ _ _ dead _) as [pms h2].
    destruct IH as (tr & -> & Ht). exists (rs ++ tr). split; [by rewrite <- app_assoc|by econstructor].
Qed.

(** The calls of an epoch whose state loads. *)
Definition epoch_trace (state : EpochState) (actions : list LifecycleAction) (h : list ecall)
    (res : EpochResult) (logged : option gerror) (tr : list ecall) : Prop :=
  exists offs pms,
    tr = (act_call <$> actions) ++ offs ++ pms ++
         [EBreaker (breakerOutcome state actions); ELog res] ++
         (match logged with None => [EPublish "events:epoch_completed" (er_EpochID res)] | Some _ => [] end) /\
    offspring_trace (OffspringProposals state) (OffspringDecisions res) offs /\
    postmortem_trace (h ++ (act_call <$> actions) ++ offs) (DeadAgents state ++ killed state actions h)
      (Postmortems res) pms.

End Epoch.

(** ** Concrete epochs *)

Definition plain_codec : ReviewCodec := {|
  marshal_candidate := fun _ _ => Ok "candidate";
  marshal_postmortem := fun _ => Ok "agent";
  decode_quality := fun _ => Ok {| rq_Verdict := "approve"; rq_Reasoning := "r"; rq_SuggestedRevisions := "" |};
  decode_synthesis := fun _ => Ok {| rs_Verdict := "reject"; rs_Synthesis := "s" |};
  decode_postmortem := fun _ => Ok {| rp_Category := "cost_breach"; rp_Summary := "s"; rp_Diagnosis := "d" |};
  error_text := fun _ => "error" |}.

Definition plain_prompts : Prompts := {|
  qualityCheckSystem := "quality"; promptRewriteSystem := "rewrite"; adversarialBullSystem := "bull";
  adversarialBearSystem := "bear"; adversarialSynthesisSystem := "synthesis";
  postmortemSystem := "postmortem" |}.

Definition sample_cfg : RootOrchestratorConfig := {|
  hasStore := true; hasLifecycle := true; hasBreaker := true; hasBus := true; hasLLM := true;
  LifecyclePolicyCfg := DefaultLifecyclePolicyConfig; MaxLLMTokens := 1024 |}.

Definition ledger (profit : float) : Ledger := {|
  l_AgentID := "a"; l_EpochID := "e"; RealizedTradingPnL := profit; TradingFees := 0; SlippageCost := 0;
  LLMCost := 0; InfraRent := 0; RPCCost := 0; UpstreamPaidToParent := 0; UpstreamPaidToRoot := 0;
  RealizedNetProfit := profit |}.

Definition proposal (g : AgentGenome) (profit : float) : OffspringProposal := {|
  ProposalID := "p"; ParentID := "a"; Candidate := g; ReproductionReserveUSD := 10;
  ParentLedger := ledger profit; ParentCarriedDebt := 0 |}.

Definition one_proposal (g : AgentGenome) (profit : float) : EpochState := {|
  EpochID := "e"; StartedAt := 0; Snapshots := []; Genomes := ∅; SwarmGenomes := [];
  CarriedDebt_ := ∅; BudgetTight_ := false; OffspringProposals := [proposal g profit]; DeadAgents := [] |}.

(** A model whose every completion is [answer]. *)
Definition sample_world (state : EpochState) (answer : result LLMResponse) : World := {|
  w_load := fun _ _ => Ok state; w_act := fun _ _ _ _ => None; w_complete := fun _ _ _ _ => answer;
  w_backtest := None; w_breaker := fun _ _ => ""; w_log := fun _ _ => None |}.

Definition counts : range_order string Z := fun m => map_to_list m.

Definition run_sample (state : EpochState) (answer : result LLMResponse) :=
  (RunEpoch (C := plain_codec) (P := plain_prompts) (fun s => s) sample_cfg (sample_world state answer)
    5 6 (fun _ => counts) "e" []).1.1.

Definition braces : LLMResponse := {|
  Content := byte_str [123; 125]%N; InputTokens := 1; OutputTokens := 1; CostUSD := 0.5; Model := "m" |}.

(** The synthesis rejects, after four answers were charged. *)
Example rejected_ex g :
  (fun d => (Outcome d, RejectTag d, od_CostUSD d)) <$>
    OffspringDecisions (run_sample (one_proposal g 20) (Ok braces)) =
  [(OffspringRejected, "adversarial_reject", 2%float)].
Proof. vm_compute. reflexivity. Qed.

(** When the model cannot be reached a solvent parent's offspring is approved
    without a review. *)
Lemma unreviewed_approved g :
  (fun d => (Outcome d, Quality d, Adversarial d)) <$>
    OffspringDecisions (run_sample (one_proposal g 20) (Fail (EMsg "timeout"))) =
  [(OffspringApproved, None, None)].
Proof. vm_compute. reflexivity. Qed.

(** A profit that is not a number is not insolvent. *)
Lemma nan_profit_solvent g : insolvent (proposal g (0 / 0)%float) = false.
Proof. reflexivity. Qed.
