(* ===== verification/PriceCache.v ===== *)
(** * The price cache

    [internal/chain/prices.go]: prices by chain and pair, served from memory
    for a while, fetched once for all the callers that wait.  Calls run
    concurrently: a [Get] is a thread that takes one atomic step at a time (a
    section under the lock, an atomic counter, a call of a client), and any
    interleaving of the steps is a run.  [singleflight.Group] is a package of
    its own: [sf_leads] says who runs a flight, and its documented behaviour is
    that a caller does when there is no flight for its key; the others wait and
    get the same result. *)
From Stdlib Require Import ZArith Lia Ascii Floats.
From stdpp Require Import base list strings gmap.
From S2P Require Import Prelude GoBase GoFloat Genome Task.
Set Warnings "-inexact-float".
Open Scope Z_scope.

Record priceEntry := { pe_price : float; pe_fetchedAt : Time }.

Section Cache.
Context (unicode_upper : string -> string) (clients : gset string) (ttl : Duration).
Context (sf_leads : gset string -> string -> bool).

Abbreviation upper := (ToUpper unicode_upper).

(** ** Keys *)

Definition cacheKey (chainName pair : string) : string := chainName +:+ "|" +:+ upper pair.

Definition splitCacheKey (k : string) : option (string * string) :=
  let i := Index k "|"%char in
  if (i <=? 0) || (str_len k - 1 <=? i) then None
  else Some (str_take (Z.to_nat i) k, str_drop (Z.to_nat (i + 1)) k).

Fixpoint split_seps (pair : string) (seps : list ascii) : result (string * string) :=
  match seps with
  | [] => Fail (EMsg "price_cache: pair %q must look like TOKEN_A/TOKEN_B")
  | sep :: seps' =>
      let i := Index pair sep in
      if (0 <? i) && (i <? str_len pair - 1)
      then Ok (upper (str_take (Z.to_nat i) pair), upper (str_drop (Z.to_nat (i + 1)) pair))
      else split_seps pair seps'
  end.

Definition splitPair (pair : string) : result (string * string) := split_seps pair ["/"; "-"; ":"]%char.

(** ** Fetching *)

Definition quoted_price (q : Quote) : float :=
  if ((q_Price q <=? 0) && (0 <? q_AmountIn q))%float%bool
  then (q_AmountOut q / q_AmountIn q)%float else q_Price q.

(** [get_quote] is the client of each chain. *)
Definition fetchPrice (get_quote : string -> string -> string -> result Quote) (chainName pair : string)
    : result float :=
  if negb (bool_decide (chainName ∈ clients)) then Fail (EMsg "price_cache: no client for chain %q")
  else
    match splitPair pair with
    | Fail err => Fail err
    | Ok (tokenIn, tokenOut) =>
        match get_quote chainName tokenIn tokenOut with
        | Fail err => Fail (EWrap "price_cache: %s GetQuote(%s, %s): %w" err)
        | Ok q =>
            let price := quoted_price q in
            if (price <=? 0)%float then Fail (EMsg "price_cache: non-positive price for %s/%s on %s")
            else Ok price
        end
    end.

(** ** Threads *)

(** Where a [Get] is: before its read of the entries; about to count a hit or
    a miss; about to enter a flight; waiting for one; and, for the caller that
    runs the flight, before the second read, the count, the client's answer, the
    write of the entry, and the landing. *)
Inductive get_pc :=
  | GLookup
  | GHit (price : float)
  | GMiss
  | GDo
  | GWait
  | GRecheck
  | GCount
  | GFetch
  | GStore (price : float)
  | GLand (r : result float)
  | GDone (r : result float).

Record get_call := {
  gc_chain : string;
  gc_pair : string;
  gc_pc : get_pc;
}.

Record PriceCache := {
  clock : Time;
  entries : gmap string priceEntry;
  pinned : gset string;
  flights : gset string;
  calls : gmap nat get_call;
  hits : Z;
  misses : Z;
  fetches : Z;
}.

Definition NewPriceCache (now : Time) : PriceCache := {|
  clock := now; entries := ∅; pinned := ∅; flights := ∅; calls := ∅; hits := 0; misses := 0; fetches := 0 |}.

Definition with_call (c : PriceCache) (i : nat) (g : get_call) : PriceCache := {|
  clock := clock c; entries := entries c; pinned := pinned c; flights := flights c;
  calls := <[i := g]> (calls c); hits := hits c; misses := misses c; fetches := fetches c |}.

Definition with_entries (c : PriceCache) (es : gmap string priceEntry) : PriceCache := {|
  clock := clock c; entries := es; pinned := pinned c; flights := flights c; calls := calls c;
  hits := hits c; misses := misses c; fetches := fetches c |}.

Definition with_pinned (c : PriceCache) (ps : gset string) : PriceCache := {|
  clock := clock c; entries := entries c; pinned := ps; flights := flights c; calls := calls c;
  hits := hits c; misses := misses c; fetches := fetches c |}.

Definition with_flights (c : PriceCache) (fs : gset string) : PriceCache := {|
  clock := clock c; entries := entries c; pinned := pinned c; flights := fs; calls := calls c;
  hits := hits c; misses := misses c; fetches := fetches c |}.

Definition with_clock (c : PriceCache) (now : Time) : PriceCache := {|
  clock := now; entries := entries c; pinned := pinned c; flights := flights c; calls := calls c;
  hits := hits c; misses := misses c; fetches := fetches c |}.

(** [c.hits.Add(1)], [c.misses.Add(1)], [c.fetches.Add(1)]. *)
Definition counted (c : PriceCache) (h m f : Z) : PriceCache := {|
  clock := clock c; entries := entries c; pinned := pinned c; flights := flights c; calls := calls c;
  hits := wrap64 (hits c + h); misses := wrap64 (misses c + m); fetches := wrap64 (fetches c + f) |}.

Definition at_pc (g : get_call) (pc : get_pc) : get_call := {|
  gc_chain := gc_chain g; gc_pair := gc_pair g; gc_pc := pc |}.

Definition call_key (g : get_call) : string := cacheKey (gc_chain g) (gc_pair g).

(** The entry of a key, when it is inside the TTL. *)
Definition fresh_price (c : PriceCache) (key : string) : option float :=
  match entries c !! key with
  | Some e => if Sub (clock c) (pe_fetchedAt e) <? ttl then Some (pe_price e) else None
  | None => None
  end.

(** The flight of [key] lands: its callers have the result. *)
Definition land (key : string) (r : result float) (g : get_call) : get_call :=
  match gc_pc g with
  | GWait => if str_eqb (call_key g) key then at_pc g (GDone r) else g
  | _ => g
  end.

Definition landed (c : PriceCache) (i : nat) (g : get_call) (r : result float) : PriceCache :=
  let key := call_key g in {|
  clock := clock c; entries := entries c; pinned := pinned c; flights := flights c ∖ {[ key ]};
  calls := <[i := at_pc g (GDone r)]> (land key r <$> calls c);
  hits := hits c; misses := misses c; fetches := fetches c |}.

(** One step of the call [g] of thread [i]; [quote] is what the client answers
    if the step asks it. *)
Definition get_step (c : PriceCache) (i : nat) (g : get_call) (quote : result Quote) : option PriceCache :=
  let key := call_key g in
  match gc_pc g with
  | GLookup =>
      match fresh_price c key with
      | Some price => Some (with_call c i (at_pc g (GHit price)))
      | None => Some (with_call c i (at_pc g GMiss))
      end
  | GHit price => Some (with_call (counted c 1 0 0) i (at_pc g (GDone (Ok price))))
  | GMiss => Some (with_call (counted c 0 1 0) i (at_pc g GDo))
  | GDo =>
      if sf_leads (flights c) key
      then Some (with_call (with_flights c ({[ key ]} ∪ flights c)) i (at_pc g GRecheck))
      else Some (with_call c i (at_pc g GWait))
  | GWait => None
  | GRecheck =>
      match fresh_price c key with
      | Some price => Some (with_call c i (at_pc g (GLand (Ok price))))
      | None => Some (with_call c i (at_pc g GCount))
      end
  | GCount => Some (with_call (counted c 0 0 1) i (at_pc g GFetch))
  | GFetch =>
      match fetchPrice (fun _ _ _ => quote) (gc_chain g) (gc_pair g) with
      | Fail err => Some (with_call c i (at_pc g (GLand (Fail err))))
      | Ok price => Some (with_call c i (at_pc g (GStore price)))
      end
  | GStore price =>
      Some (with_call (with_entries c
              (<[key := {| pe_price := price; pe_fetchedAt := clock c |}]> (entries c)))
            i (at_pc g (GLand (Ok price))))
  | GLand r => Some (landed c i g r)
  | GDone _ => None
  end.

Definition Invalidate (c : PriceCache) (chainName pair : string) : PriceCache :=
  with_entries c (delete (cacheKey chainName pair) (entries c)).

Definition Pin (c : PriceCache) (chainName pair : string) : PriceCache :=
  with_pinned c ({[ cacheKey chainName pair ]} ∪ pinned c).

Definition Unpin (c : PriceCache) (chainName pair : string) : PriceCache :=
  with_pinned c (pinned c ∖ {[ cacheKey chainName pair ]}).

(** [Pinned], in the order one visit of the map gives. *)
Definition Pinned (range : gset string -> list string) (c : PriceCache) : list (string * string) :=
  omap splitCacheKey (range (pinned c)).

Definition Stats (c : PriceCache) : Z * Z * Z := (hits c, misses c, fetches c).

(** ** Runs *)

(** A call of [Get] on a new thread, a step of a thread, the other operations,
    and the clock. *)
Inductive act :=
  | AGet (i : nat) (chainName pair : string)
  | AStep (i : nat) (quote : result Quote)
  | AInvalidate (chainName pair : string)
  | APin (chainName pair : string)
  | AUnpin (chainName pair : string)
  | AClock (now : Time).

Definition step (c : PriceCache) (a : act) : option PriceCache :=
  match a with
  | AGet i chainName tokens =>
      match calls c !! i with
      | None => Some (with_call c i {| gc_chain := chainName; gc_pair := tokens; gc_pc := GLookup |})
      | Some _ => None
      end
  | AStep i quote => match calls c !! i with Some g => get_step c i g quote | None => None end
  | AInvalidate chainName tokens => Some (Invalidate c chainName tokens)
  | APin chainName tokens => Some (Pin c chainName tokens)
  | AUnpin chainName tokens => Some (Unpin c chainName tokens)
  | AClock now => Some (with_clock c now)
  end.

Fixpoint run (c : PriceCache) (acts : list act) : option PriceCache :=
  match acts with
  | [] => Some c
  | a :: acts' => match step c a with Some c => run c acts' | None => None end
  end.

(** The calls of a pass of the refresh loop: each pinned pair is forgotten and
    fetched again. *)
Inductive refresh_call :=
  | RInvalidate (chainName tokens : string)
  | RGet (chainName tokens : string).

Definition refreshPinned (range : gset string -> list string) (c : PriceCache) : list refresh_call :=
  flat_map (fun p => [RInvalidate p.1 p.2; RGet p.1 p.2]) (Pinned range c).

(** ** Keys *)

Lemma index_from_app i s t sep : no_byte sep s = true ->
  index_from i (s +:+ String sep t) sep = i + str_len s.
Proof.
  revert i. unfold str_len. induction s as [|d s IH]; intros i H.
  - change (index_from i (String sep t) sep = i + 0). cbn [index_from]. rewrite Ascii.eqb_refl. lia.
  - cbn in H. apply andb_prop in H as [Hd Hs]. apply negb_true_iff in Hd.
    change (String d s +:+ String sep t) with (String d (s +:+ String sep t)).
    cbn [index_from String.length]. rewrite Hd, IH by done. lia.
Qed.

(** The background loop gets back from a key the chain and the pair it was
    made of, the pair in upper case. *)
Theorem cacheKey_roundtrip chainName pair :
  chainName <> "" -> no_byte "|" chainName = true -> upper pair <> "" ->
  splitCacheKey (cacheKey chainName pair) = Some (chainName, upper pair).
Proof.
  intros Hne Hno Hup. unfold splitCacheKey, cacheKey, Index.
  change ("|" +:+ upper pair) with (String "|" (upper pair)).
  rewrite index_from_app by done. rewrite Z.add_0_l.
  assert (Hc : 0 < str_len chainName) by (destruct chainName; [done|unfold str_len; cbn; lia]).
  assert (Hl : str_len (chainName +:+ String "|" (upper pair)) = str_len chainName + 1 + str_len (upper pair)).
  { unfold str_len. rewrite str_len_app. cbn. lia. }
  assert (Hu : 0 < str_len (upper pair)) by (destruct (upper pair); [done|unfold str_len; cbn; lia]).
  rewrite Hl, (proj2 (Z.leb_gt _ _) Hc), (proj2 (Z.leb_gt _ _)) by lia. cbn [orb]. f_equal.
  unfold str_len. rewrite Nat2Z.id. f_equal; [apply str_take_app|].
  replace (Z.to_nat (Z.of_nat (String.length chainName) + 1)) with (String.length (chainName +:+ "|"))
    by (rewrite str_len_app; cbn; lia).
  replace (chainName +:+ String "|" (upper pair)) with ((chainName +:+ "|") +:+ upper pair)
    by (by rewrite <- str_app_assoc).
  apply str_drop_app.
Qed.

Lemma ascii_upper_sep c sep : sep ∈ ["/"; "-"; ":"]%char ->
  Ascii.eqb (ascii_upper c) sep = Ascii.eqb c sep.
Proof.
  intros Hs. unfold ascii_upper. destruct ((97 <=? N_of_ascii c)%N && (N_of_ascii c <=? 122)%N) eqn:E; [|done].
  apply andb_prop in E as [E1 E2]. apply N.leb_le in E1, E2.
  assert (Hn : (N_of_ascii sep < 60)%N)
    by (rewrite !elem_of_cons in Hs; by destruct Hs as [->|[->|[->|[]%not_elem_of_nil]]]).
  assert (H1 : c <> sep) by (intros ->; lia).
  assert (H2 : ascii_of_N (N_of_ascii c - 32) <> sep)
    by (intros <-; rewrite N_ascii_embedding in Hn by lia; lia).
  apply Ascii.eqb_neq in H1, H2. by rewrite H1, H2.
Qed.

Lemma ascii_upper_twice c : ascii_upper (ascii_upper c) = ascii_upper c.
Proof.
  unfold ascii_upper at 2 3. destruct (_ && _) eqn:E; [|unfold ascii_upper; by rewrite E].
  apply andb_prop in E as [E1 E2]. apply N.leb_le in E1, E2. unfold ascii_upper.
  rewrite N_ascii_embedding by lia. by rewrite (proj2 (N.leb_gt _ _)) by lia.
Qed.

Lemma ascii_upper_ascii c : (N_of_ascii c <? 128)%N = true -> (N_of_ascii (ascii_upper c) <? 128)%N = true.
Proof.
  rewrite !N.ltb_lt. intros H. unfold ascii_upper. destruct (_ && _); [|done].
  rewrite N_ascii_embedding by lia. lia.
Qed.

Lemma map_upper_twice s : map_upper (map_upper s) = map_upper s.
Proof. induction s as [|c s IH]; [done|]. cbn. by rewrite ascii_upper_twice, IH. Qed.

Lemma map_upper_ascii s : is_ascii s = true -> is_ascii (map_upper s) = true.
Proof.
  induction s as [|c s IH]; [done|]. cbn [is_ascii map_upper]. intros [Hc Hs]%andb_prop.
  by rewrite ascii_upper_ascii, IH.
Qed.

Lemma map_upper_length s : String.length (map_upper s) = String.length s.
Proof. induction s as [|c s IH]; [done|]. cbn. by rewrite IH. Qed.

Lemma map_upper_take n : forall s, str_take n (map_upper s) = map_upper (str_take n s).
Proof. induction n as [|n IH]; intros [|c s]; [done..|]. cbn. by rewrite IH. Qed.

Lemma map_upper_drop n : forall s, str_drop n (map_upper s) = map_upper (str_drop n s).
Proof. induction n as [|n IH]; intros [|c s]; [done..|]. cbn. apply IH. Qed.

Lemma ascii_take n : forall s, is_ascii s = true -> is_ascii (str_take n s) = true.
Proof.
  induction n as [|n IH]; intros [|c s]; [done..|]. cbn. intros [Hc Hs]%andb_prop. by rewrite Hc, IH.
Qed.

Lemma ascii_drop n : forall s, is_ascii s = true -> is_ascii (str_drop n s) = true.
Proof. induction n as [|n IH]; intros [|c s]; [done..|]. cbn. intros [Hc Hs]%andb_prop. by apply IH. Qed.

Lemma map_upper_index sep s : sep ∈ ["/"; "-"; ":"]%char -> forall i,
  index_from i (map_upper s) sep = index_from i s sep.
Proof.
  intros Hs. induction s as [|c s IH]; intros i; [done|]. cbn. by rewrite ascii_upper_sep, IH.
Qed.

Lemma upper_ascii s : is_ascii s = true -> upper s = map_upper s.
Proof. unfold ToUpper. by intros ->. Qed.

Lemma splitPair_upper pair : is_ascii pair = true -> splitPair (map_upper pair) = splitPair pair.
Proof.
  intros Ha. unfold splitPair. assert (H : forall sep, sep ∈ ["/"; "-"; ":"]%char -> sep ∈ ["/"; "-"; ":"]%char) by done.
  revert H. generalize ["/"; "-"; ":"]%char at 1 3 4 as seps. intros seps.
  induction seps as [|sep seps IH]; intros H; [done|]. cbn [split_seps]. unfold Index.
  rewrite map_upper_index by (apply H; by left). unfold str_len. rewrite map_upper_length.
  rewrite map_upper_take, map_upper_drop, IH by (intros; apply H; by right).
  rewrite !upper_ascii by (try apply map_upper_ascii; by (apply ascii_take || apply ascii_drop)).
  by rewrite !map_upper_twice.
Qed.

Lemma cacheKey_inj c1 c2 p1 p2 : no_byte "|" c1 = true -> no_byte "|" c2 = true ->
  cacheKey c1 p1 = cacheKey c2 p2 -> c1 = c2 /\ upper p1 = upper p2.
Proof.
  intros H1 H2 H. unfold cacheKey in H.
  change (c1 +:+ String "|" (upper p1) = c2 +:+ String "|" (upper p2)) in H. pose proof (f_equal (fun s => Split s "|") H) as Hs. cbn beta in Hs.
  rewrite !Split_app in Hs by done. injection Hs as -> _. split; [done|].
  apply (inj (String.append c2)) in H. by injection H.
Qed.

(** Calls that share a key ask the same question: for chains with plain
    names, two pairs with one key name the same tokens, so that every caller of
    a flight gets a price of the pair it asked for. *)
Theorem same_key_same_quote c1 c2 p1 p2 get_quote :
  no_byte "|" c1 = true -> no_byte "|" c2 = true -> is_ascii p1 = true -> is_ascii p2 = true ->
  cacheKey c1 p1 = cacheKey c2 p2 -> fetchPrice get_quote c1 p1 = fetchPrice get_quote c2 p2.
Proof.
  intros H1 H2 A1 A2 H. destruct (cacheKey_inj _ _ _ _ H1 H2 H) as [-> Hu].
  rewrite !upper_ascii in Hu by done. unfold fetchPrice.
  by rewrite <- (splitPair_upper p1), <- (splitPair_upper p2), Hu.
Qed.

(** ** What the cache holds *)

Definition leading (pc : get_pc) : bool :=
  match pc with GRecheck | GCount | GFetch | GStore _ | GLand _ => true | _ => false end.

Section Runs.
Context (sf_doc : forall fs key, sf_leads fs key = true <-> key ∉ fs).
Context (answers : string -> string -> string -> Quote -> Prop).

(** A price a client of the cache answered for the key. *)
Definition genuine (key : string) (price : float) : Prop :=
  exists chainName pair tokenIn tokenOut q, cacheKey chainName pair = key /\ chainName ∈ clients /\
    splitPair pair = Ok (tokenIn, tokenOut) /\ answers chainName tokenIn tokenOut q /\
    price = quoted_price q /\ (price <=? 0)%float = false.

(** The answers in a run come from the clients. *)
Definition act_ok (c : PriceCache) (a : act) : Prop :=
  match a with
  | AStep i (Ok q) =>
      forall g tokenIn tokenOut, calls c !! i = Some g -> gc_pc g = GFetch -> gc_chain g ∈ clients ->
        splitPair (gc_pair g) = Ok (tokenIn, tokenOut) -> answers (gc_chain g) tokenIn tokenOut q
  | _ => True
  end.

Fixpoint run_ok (c : PriceCache) (acts : list act) : Prop :=
  match acts with
  | [] => True
  | a :: acts' => act_ok c a /\ forall c', step c a = Some c' -> run_ok c' acts'
  end.

Definition priced_call (g : get_call) : Prop :=
  match gc_pc g with
  | GHit price | GStore price | GLand (Ok price) | GDone (Ok price) => genuine (call_key g) price
  | _ => True
  end.

Record cache_inv (c : PriceCache) : Prop := {
  ci_entries : forall key e, entries c !! key = Some e -> genuine key (pe_price e);
  ci_calls : forall i g, calls c !! i = Some g -> priced_call g;
  ci_waits : forall i g, calls c !! i = Some g -> gc_pc g = GWait \/ leading (gc_pc g) = true ->
    call_key g ∈ flights c;
  ci_leads : forall key, key ∈ flights c ->
    exists i g, calls c !! i = Some g /\ leading (gc_pc g) = true /\ call_key g = key;
  ci_unique : forall i j g h, calls c !! i = Some g -> calls c !! j = Some h ->
    leading (gc_pc g) = true -> leading (gc_pc h) = true -> call_key g = call_key h -> i = j;
}.

Lemma fetchPrice_genuine g q price :
  (forall tokenIn tokenOut, gc_chain g ∈ clients -> splitPair (gc_pair g) = Ok (tokenIn, tokenOut) ->
     answers (gc_chain g) tokenIn tokenOut q) ->
  fetchPrice (fun _ _ _ => Ok q) (gc_chain g) (gc_pair g) = Ok price -> genuine (call_key g) price.
Proof.
  intros Ha. unfold fetchPrice. destruct (bool_decide_reflect (gc_chain g ∈ clients)) as [Hc|]; [|done].
  cbn [negb]. destruct (splitPair (gc_pair g)) as [[a b]|] eqn:Es; [|done].
  destruct (quoted_price q <=? 0)%float eqn:Ep; [done|]. intros [= <-].
  exists (gc_chain g), (gc_pair g), a, b, q. repeat split; [done|exact Es|by apply Ha|exact Ep].
Qed.

Lemma call_key_at g pc : call_key (at_pc g pc) = call_key g.
Proof. done. Qed.

(** A step that moves one call without entering or leaving a flight. *)
Lemma cache_inv_move c c' i g pc :
  cache_inv c -> calls c !! i = Some g ->
  (forall key e, entries c' !! key = Some e -> genuine key (pe_price e)) -> flights c' = flights c ->
  calls c' = <[i := at_pc g pc]> (calls c) -> priced_call (at_pc g pc) ->
  leading pc = leading (gc_pc g) -> (pc = GWait -> call_key g ∈ flights c) -> cache_inv c'.
Proof.
  intros [He Hp Hw Hl Hu] Hg He' Hf Hc Hpr Hlead Hwait.
  constructor; rewrite ?Hf, ?Hc; [done|..].
  - intros j h [[<- <-]|[Hne Hj]]%lookup_insert_Some; [done|by apply (Hp j)].
  - intros j h [[<- <-]|[Hne Hj]]%lookup_insert_Some Hpc; [|by apply (Hw j h)].
    rewrite call_key_at. cbn [gc_pc at_pc] in Hpc. rewrite Hlead in Hpc.
    destruct Hpc as [Hpc|Hpc]; [by apply Hwait|by apply (Hw i g); [|right]].
  - intros key Hk. destruct (Hl key Hk) as (j & h & Hj & Hld & Hkey). destruct (decide (i = j)) as [<-|Hne].
    + rewrite Hg in Hj. injection Hj as <-. exists i, (at_pc g pc). rewrite lookup_insert_eq.
      split; [done|]. split; [cbn [gc_pc at_pc]; by rewrite Hlead|done].
    + exists j, h. by rewrite lookup_insert_ne.
  - intros j1 j2 g1 g2 H1 H2 L1 L2 Hk.
    assert (Hback : forall j h, <[i := at_pc g pc]> (calls c) !! j = Some h -> leading (gc_pc h) = true ->
      exists h', calls c !! j = Some h' /\ leading (gc_pc h') = true /\ call_key h' = call_key h).
    { intros j h [[<- <-]|[Hne Hj]]%lookup_insert_Some Hl'; [|by exists h].
      exists g. cbn [gc_pc at_pc] in Hl'. by rewrite <- Hlead. }
    destruct (Hback _ _ H1 L1) as (h1 & E1 & M1 & K1). destruct (Hback _ _ H2 L2) as (h2 & E2 & M2 & K2).
    apply (Hu j1 j2 h1 h2); [done..|]. by rewrite K1, K2.
Qed.

Lemma cache_inv_other c c' : cache_inv c ->
  (forall key e, entries c' !! key = Some e -> genuine key (pe_price e)) ->
  calls c' = calls c -> flights c' = flights c -> cache_inv c'.
Proof. intros [He Hp Hw Hl Hu] He' Hc Hf. constructor; rewrite ?Hc, ?Hf; done. Qed.

Lemma fresh_price_genuine c key price : cache_inv c -> fresh_price c key = Some price -> genuine key price.
Proof.
  intros Hi. unfold fresh_price. destruct (entries c !! key) as [e|] eqn:E; [|done].
  destruct (_ <? ttl); [|done]. intros [= <-]. by apply (ci_entries c Hi).
Qed.

(** The caller that finds no flight starts one. *)
Lemma cache_inv_lead c i g : cache_inv c -> calls c !! i = Some g -> gc_pc g = GDo ->
  call_key g ∉ flights c ->
  cache_inv (with_call (with_flights c ({[ call_key g ]} ∪ flights c)) i (at_pc g GRecheck)).
Proof.
  intros [He Hp Hw Hl Hu] Hg Hpc Hno.
  assert (Hfresh : forall j h, calls c !! j = Some h -> leading (gc_pc h) = true -> call_key h <> call_key g).
  { intros j h Hj Hld E. apply Hno. rewrite <- E. apply (Hw j h Hj). by right. }
  constructor; cbn [entries flights calls with_call with_flights]; [done|..].
  - intros j h [[<- <-]|[Hne Hj]]%lookup_insert_Some; [done|by apply (Hp j)].
  - intros j h [[<- <-]|[Hne Hj]]%lookup_insert_Some Hh; [apply elem_of_union_l, elem_of_singleton_2; done|].
    apply elem_of_union_r. by apply (Hw j h).
  - intros key [->%elem_of_singleton|Hk]%elem_of_union.
    + exists i, (at_pc g GRecheck). by rewrite lookup_insert_eq.
    + destruct (Hl key Hk) as (j & h & Hj & Hld & Hkey). exists j, h. rewrite lookup_insert_ne; [done|].
      intros <-. rewrite Hg in Hj. injection Hj as <-. by rewrite Hpc in Hld.
  - intros j1 j2 g1 g2 [[<- <-]|[N1 H1]]%lookup_insert_Some [[<- <-]|[N2 H2]]%lookup_insert_Some L1 L2 Hk.
    + done.
    + by destruct (Hfresh j2 g2 H2 L2).
    + by destruct (Hfresh j1 g1 H1 L1).
    + by apply (Hu j1 j2 g1 g2).
Qed.

Lemma land_pc key r g : leading (gc_pc (land key r g)) = leading (gc_pc g) /\ call_key (land key r g) = call_key g.
Proof. unfold land. destruct (gc_pc g) eqn:E; rewrite ?E; try done. destruct (str_eqb _ _); by rewrite ?E. Qed.

(** A flight lands. *)
Lemma cache_inv_landed c i g r : cache_inv c -> calls c !! i = Some g -> gc_pc g = GLand r ->
  cache_inv (landed c i g r).
Proof.
  intros [He Hp Hw Hl Hu] Hg Hpc.
  assert (Hr : match r with Ok price => genuine (call_key g) price | Fail _ => True end)
    by (pose proof (Hp i g Hg) as H; unfold priced_call in H; rewrite Hpc in H; by destruct r).
  assert (Hlg : leading (gc_pc g) = true) by (by rewrite Hpc).
  assert (Hinv : forall j h, <[i := at_pc g (GDone r)]> (land (call_key g) r <$> calls c) !! j = Some h ->
    (j = i /\ h = at_pc g (GDone r)) \/
    (j <> i /\ exists h', calls c !! j = Some h' /\ h = land (call_key g) r h')).
  { intros j h [[<- <-]|[Hne Hj]]%lookup_insert_Some; [by left|right]. split; [done|].
    rewrite lookup_fmap in Hj. destruct (calls c !! j) as [h'|]; [|done]. injection Hj as <-. by exists h'. }
  constructor; cbn [entries flights calls landed]; [done|..].
  - intros j h Hj. destruct (Hinv j h Hj) as [[-> ->]|(_ & h' & Hj' & ->)].
    + unfold priced_call. cbn. by destruct r.
    + pose proof (Hp j h' Hj') as Hpr. unfold land. destruct (gc_pc h') eqn:E; try exact Hpr.
      unfold str_eqb. destruct (bool_decide_reflect (call_key h' = call_key g)) as [Hk|]; [|exact Hpr].
      unfold priced_call. cbn [gc_pc at_pc]. rewrite call_key_at, Hk. by destruct r.
  - intros j h Hj Hw'. destruct (Hinv j h Hj) as [[-> ->]|(Hne & h' & Hj' & ->)].
    { cbn in Hw'. by destruct Hw'. }
    destruct (land_pc (call_key g) r h') as [El Ek]. rewrite Ek.
    apply elem_of_difference. split.
    + apply (Hw j h' Hj'). destruct Hw' as [Hw'|Hw']; [left|right; by rewrite El in Hw'].
      unfold land in Hw'. destruct (gc_pc h') eqn:E; try done; by rewrite E in Hw'.
    + intros Hk%elem_of_singleton. destruct Hw' as [Hw'|Hw'].
      * unfold land, str_eqb in Hw'. destruct (gc_pc h') eqn:E; rewrite ?E in Hw'; try done.
        rewrite (bool_decide_eq_true_2 (call_key h' = call_key g)) in Hw' by done. done.
      * rewrite El in Hw'. apply Hne. by apply (Hu j i h' g).
  - intros key [Hk Hne]%elem_of_difference. destruct (Hl key Hk) as (j & h & Hj & Hld & Hkey).
    assert (Hij : i <> j) by (intros <-; rewrite Hg in Hj; injection Hj as <-; apply Hne, elem_of_singleton; done).
    destruct (land_pc (call_key g) r h) as [El Ek]. exists j, (land (call_key g) r h).
    rewrite lookup_insert_ne, lookup_fmap, Hj by done. by rewrite El, Ek.
  - intros j1 j2 g1 g2 H1 H2 L1 L2 Hk.
    destruct (Hinv j1 g1 H1) as [[-> ->]|(_ & h1 & E1 & ->)]; [done|].
    destruct (Hinv j2 g2 H2) as [[-> ->]|(_ & h2 & E2 & ->)]; [done|].
    destruct (land_pc (call_key g) r h1) as [A1 B1], (land_pc (call_key g) r h2) as [A2 B2].
    rewrite A1 in L1. rewrite A2 in L2. rewrite B1, B2 in Hk. by apply (Hu j1 j2 h1 h2).
Qed.

Lemma get_step_inv c i g quote c' : cache_inv c -> calls c !! i = Some g -> act_ok c (AStep i quote) ->
  get_step c i g quote = Some c' -> cache_inv c'.
Proof.
  intros Hi Hg Hok H. pose proof (ci_calls c Hi i g Hg) as Hpr. unfold priced_call in Hpr.
  assert (Hmove : forall c1 pc,
    (forall key e, entries c1 !! key = Some e -> genuine key (pe_price e)) -> flights c1 = flights c ->
    calls c1 = <[i := at_pc g pc]> (calls c) -> priced_call (at_pc g pc) ->
    leading pc = leading (gc_pc g) -> (pc = GWait -> call_key g ∈ flights c) -> cache_inv c1)
    by (intros c1 pc; by apply (cache_inv_move c c1 i g pc)).
  pose proof (ci_entries c Hi) as He. unfold get_step in H.
  destruct (gc_pc g) as [|price| | | | | | |price|r|r] eqn:Epc; try discriminate H.
  - destruct (fresh_price c (call_key g)) as [price|] eqn:Ef; injection H as <-.
    + apply (Hmove _ (GHit price)); try done. unfold priced_call. cbn. by apply (fresh_price_genuine c).
    + by apply (Hmove _ GMiss).
  - injection H as <-. by apply (Hmove _ (GDone (Ok price))).
  - injection H as <-. by apply (Hmove _ GDo).
  - destruct (sf_leads (flights c) (call_key g)) eqn:El; injection H as <-.
    + apply sf_doc in El. by apply cache_inv_lead.
    + apply (Hmove _ GWait); try done. intros _. destruct (decide (call_key g ∈ flights c)) as [|Hn]; [done|].
      apply sf_doc in Hn. by rewrite Hn in El.
  - destruct (fresh_price c (call_key g)) as [price|] eqn:Ef; injection H as <-.
    + apply (Hmove _ (GLand (Ok price))); try done. unfold priced_call. cbn. by apply (fresh_price_genuine c).
    + by apply (Hmove _ GCount).
  - injection H as <-. by apply (Hmove _ GFetch).
  - destruct (fetchPrice _ _ _) as [price|err] eqn:Ef; injection H as <-; [|by apply (Hmove _ (GLand (Fail err)))].
    apply (Hmove _ (GStore price)); try done. unfold priced_call. cbn.
    destruct quote as [q|]; [|unfold fetchPrice in Ef; destruct (negb _); [done|];
      destruct (splitPair _) as [[]|]; done].
    apply (fetchPrice_genuine g q); [|exact Ef]. intros a b. by apply (Hok g a b Hg).
  - injection H as <-. apply (Hmove _ (GLand (Ok price))); try done. cbn [entries with_call with_entries].
    intros key e [[<- <-]|[_ Hk]]%lookup_insert_Some; [exact Hpr|by apply He].
  - injection H as <-. by apply cache_inv_landed.
Qed.

Lemma step_inv c a c' : cache_inv c -> act_ok c a -> step c a = Some c' -> cache_inv c'.
Proof.
  intros Hi Hok H. destruct a as [i chainName tokens|i quote|chainName tokens|chainName tokens|chainName tokens|now];
    cbn [step] in H.
  - destruct (calls c !! i) eqn:E; [done|]. injection H as <-. destruct Hi as [He Hp Hw Hl Hu].
    set (g := {| gc_chain := chainName; gc_pair := tokens; gc_pc := GLookup |}).
    constructor; cbn [entries flights calls with_call]; [done|..].
    + intros j h [[<- <-]|[_ Hj]]%lookup_insert_Some; [done|by apply (Hp j)].
    + intros j h [[<- <-]|[_ Hj]]%lookup_insert_Some Hh; [by destruct Hh|by apply (Hw j)].
    + intros key Hk. destruct (Hl key Hk) as (j & h & Hj & Hh). exists j, h.
      rewrite lookup_insert_ne by (intros <-; by rewrite E in Hj). by split.
    + intros j1 j2 g1 g2 H1 H2 L1 L2 Hk.
      apply lookup_insert_Some in H1 as [[_ <-]|[_ H1]]; [done|].
      apply lookup_insert_Some in H2 as [[_ <-]|[_ H2]]; [done|]. by apply (Hu j1 j2 g1 g2).
  - destruct (calls c !! i) as [g|] eqn:E; [|done]. by apply (get_step_inv c i g quote).
  - injection H as <-. apply (cache_inv_other c); try done. cbn [entries Invalidate with_entries].
    intros key e [_ Hk]%lookup_delete_Some. by apply (ci_entries c Hi).
  - injection H as <-. apply (cache_inv_other c); try done. apply (ci_entries c Hi).
  - injection H as <-. apply (cache_inv_other c); try done. apply (ci_entries c Hi).
  - injection H as <-. apply (cache_inv_other c); try done. apply (ci_entries c Hi).
Qed.

Lemma run_inv acts : forall c c', cache_inv c -> run_ok c acts -> run c acts = Some c' -> cache_inv c'.
Proof.
  induction acts as [|a acts IH]; intros c c' Hi Hok H; cbn [run] in H; [by injection H as <-|].
  destruct Hok as [Hok Hrest]. destruct (step c a) as [c1|] eqn:E; [|done]. apply (IH c1); [by apply (step_inv c a)|by apply Hrest|done].
Qed.

Lemma new_cache_inv now : cache_inv (NewPriceCache now).
Proof. by constructor. Qed.

(** However the calls interleave, every price a [Get] returns is positive
    (or not a number) and was answered by the client of the chain for the
    pair's key, and for each key at most one call is talking to a client. *)
Theorem prices_genuine now acts c : run_ok (NewPriceCache now) acts -> run (NewPriceCache now) acts = Some c ->
  (forall i g price, calls c !! i = Some g -> gc_pc g = GDone (Ok price) -> genuine (call_key g) price) /\
  (forall i j g h, calls c !! i = Some g -> calls c !! j = Some h ->
     leading (gc_pc g) = true -> leading (gc_pc h) = true -> call_key g = call_key h -> i = j).
Proof.
  intros Hok H. pose proof (run_inv acts _ _ (new_cache_inv now) Hok H) as Hi. split.
  - intros i g price Hg Hpc. pose proof (ci_calls c Hi i g Hg) as Hp. unfold priced_call in Hp.
    by rewrite Hpc in Hp.
  - apply (ci_unique c Hi).
Qed.

(** ** Every call returns *)

Section Weight.
Context (w : get_call -> Z).

Definition total (m : gmap nat get_call) : Z := map_fold (fun _ g n => w g + n) 0 m.

Lemma total_new m i g : m !! i = None -> total (<[i := g]> m) = w g + total m.
Proof. intros Hi. unfold total. rewrite map_fold_insert_L; [done| |done]. intros. lia. Qed.

Lemma total_set m i g g' : m !! i = Some g -> total (<[i := g']> m) = total m - w g + w g'.
Proof.
  intros Hi. rewrite <- (insert_id m i g) at 2 by done.
  rewrite <- (insert_delete_eq m i g), <- (insert_delete_eq m i g').
  rewrite !total_new by apply lookup_delete_eq. lia.
Qed.

Lemma total_fmap (f : get_call -> get_call) m : (forall g, w (f g) <= w g) -> total (f <$> m) <= total m.
Proof.
  intros Hf. induction m as [|i g m Hi IH] using map_ind; [by rewrite fmap_empty|].
  rewrite fmap_insert, !total_new; [specialize (Hf g); lia|done|by rewrite lookup_fmap, Hi].
Qed.

Lemma total_nonneg m : (forall g, 0 <= w g) -> 0 <= total m.
Proof.
  intros Hw. induction m as [|i g m Hi IH] using map_ind; [done|]. rewrite total_new by done.
  specialize (Hw g). lia.
Qed.
End Weight.

(** How many steps a call may still take. *)
Definition left_of (g : get_call) : Z :=
  match gc_pc g with
  | GLookup => 8 | GMiss => 7 | GDo => 6 | GRecheck => 5 | GCount => 4 | GFetch => 3 | GStore _ => 2
  | GHit _ | GWait | GLand _ => 1
  | GDone _ => 0
  end.

Lemma land_left key r g : left_of (land key r g) <= left_of g.
Proof. unfold land, left_of. destruct (gc_pc g) eqn:E; rewrite ?E; try lia. destruct (str_eqb _ _); [cbn; lia|by rewrite E]. Qed.

Lemma get_step_left c i g quote c' : calls c !! i = Some g -> get_step c i g quote = Some c' ->
  total left_of (calls c') < total left_of (calls c).
Proof.
  intros Hg H. unfold get_step in H.
  assert (Hset : forall pc, left_of (at_pc g pc) < left_of g ->
    total left_of (<[i := at_pc g pc]> (calls c)) < total left_of (calls c))
    by (intros pc Hlt; rewrite (total_set _ _ _ g) by done; lia).
  unfold left_of in Hset at 2.
  destruct (gc_pc g) as [|price| | | | | | |price|r|r] eqn:Epc; try discriminate H;
    repeat match type of H with context [match ?x with _ => _ end] => destruct x eqn:? end;
    injection H as <-; try (apply Hset; cbn; lia).
  cbn [calls landed]. rewrite (total_set _ _ _ (land (call_key g) r g)).
  - pose proof (total_fmap left_of (land (call_key g) r) (calls c) (land_left _ r)).
    assert (E : land (call_key g) r g = g) by (unfold land; by rewrite Epc). rewrite E.
    unfold left_of at 2 3. rewrite Epc. cbn. lia.
  - by rewrite lookup_fmap, Hg.
Qed.

Definition is_step (a : act) : bool := match a with AStep _ _ => true | _ => false end.
Definition is_get (a : act) : bool := match a with AGet _ _ _ => true | _ => false end.

Lemma run_left acts : forall c c', run c acts = Some c' ->
  len (List.filter is_step acts) + total left_of (calls c') <= 8 * len (List.filter is_get acts) + total left_of (calls c).
Proof.
  induction acts as [|a acts IH]; intros c c' H; cbn [run] in H; [injection H as <-; unfold len; cbn; lia|].
  destruct (step c a) as [c1|] eqn:E; [|done]. specialize (IH c1 c' H). unfold len in *.
  destruct a as [i chainName tokens|i quote|? ?|? ?|? ?|now]; cbn [step] in E;
    cbn [List.filter is_step is_get length]; try (injection E as <-; cbn [calls] in IH; exact IH).
  - destruct (calls c !! i) eqn:Ei; [done|]. injection E as <-. cbn [calls with_call] in IH.
    rewrite total_new in IH by done. unfold left_of in IH at 2. cbn [gc_pc] in IH. lia.
  - destruct (calls c !! i) as [g|] eqn:Ei; [|done]. pose proof (get_step_left c i g quote c1 Ei E). lia.
Qed.

(** A [Get] never blocks for good: a run takes at most eight steps per call,
    and as long as some call has not returned, some call has a step to take
    (the one that waits for a flight, because the one that flies it does). *)
Theorem cache_no_deadlock now acts c : run_ok (NewPriceCache now) acts -> run (NewPriceCache now) acts = Some c ->
  len (List.filter is_step acts) <= 8 * len (List.filter is_get acts) /\
  (forall i g, calls c !! i = Some g -> (forall r, gc_pc g <> GDone r) ->
     forall quote, exists j, is_Some (step c (AStep j quote))).
Proof.
  intros Hok H. split.
  - pose proof (run_left acts _ _ H) as Hl. cbn [calls NewPriceCache] in Hl.
    pose proof (total_nonneg left_of (calls c)
      ltac:(intros g; unfold left_of; destruct (gc_pc g); lia)).
    change (total left_of ∅) with 0 in Hl. lia.
  - intros i g Hg Hnd quote. pose proof (run_inv acts _ _ (new_cache_inv now) Hok H) as Hi.
    assert (Hgo : forall j h, calls c !! j = Some h -> gc_pc h <> GWait -> (forall r, gc_pc h <> GDone r) ->
      exists j, is_Some (step c (AStep j quote))).
    { intros j h Hj Hw Hd. exists j. cbn [step]. rewrite Hj. unfold get_step.
      destruct (gc_pc h) as [|price| | | | | | |price|r|r]; try done;
        repeat match goal with |- context [match ?x with _ => _ end] => destruct x end; try done.
      by destruct (Hd r). }
    assert (Hcase : gc_pc g = GWait \/ gc_pc g <> GWait) by (destruct (gc_pc g); auto).
    destruct Hcase as [Hw|Hw]; [|by apply (Hgo i g)].
    destruct (ci_leads c Hi (call_key g)) as (j & h & Hj & Hl & _); [by apply (ci_waits c Hi i g Hg); left|].
    apply (Hgo j h Hj); [intros E; by rewrite E in Hl|intros r E; by rewrite E in Hl].
Qed.

(** ** The counters *)

(** The calls that have counted their miss and may still count a fetch. *)
Definition pending (g : get_call) : Z :=
  match gc_pc g with GDo | GRecheck | GCount => 1 | _ => 0 end.

Record counts (c : PriceCache) (m f : Z) : Prop := {
  ct_misses : misses c = wrap64 m;
  ct_fetches : fetches c = wrap64 f;
  ct_order : f + total pending (calls c) <= m;
}.

Lemma land_pending key r g : pending (land key r g) <= pending g.
Proof. unfold land, pending. destruct (gc_pc g) eqn:E; rewrite ?E; try lia. destruct (str_eqb _ _); [cbn; lia|by rewrite E]. Qed.

Lemma get_step_counts c i g quote c' m f : calls c !! i = Some g -> get_step c i g quote = Some c' ->
  counts c m f -> exists m' f', counts c' m' f'.
Proof.
  intros Hg H [Hm Hf Ho]. unfold get_step in H.
  assert (Hset : forall pc, total pending (<[i := at_pc g pc]> (calls c)) = total pending (calls c) - pending g
    + pending (at_pc g pc)) by (intros pc; by apply total_set).
  assert (Hw : forall a, wrap64 (wrap64 a + 0) = wrap64 a) by (intros a; by rewrite Z.add_0_r, wrap64_wrap).
  unfold pending in Hset at 3 4.
  destruct (gc_pc g) as [|price| | | | | | |price|r|r] eqn:Epc; try discriminate H;
    repeat match type of H with context [match ?x with _ => _ end] => destruct x eqn:? end;
    injection H as <-;
    first [exists m, f; constructor; cbn -[wrap64]; rewrite ?Hset, ?Hm, ?Hf, ?Hw; cbn [gc_pc at_pc]; (done || lia)|idtac].
  - exists (m + 1), f. constructor; cbn -[wrap64]; rewrite ?Hset, ?Hm, ?Hf, ?Hw, ?wrap64_add; cbn [gc_pc at_pc]; (done || lia).
  - exists m, (f + 1). constructor; cbn -[wrap64]; rewrite ?Hset, ?Hm, ?Hf, ?Hw, ?wrap64_add; cbn [gc_pc at_pc]; (done || lia).
  - exists m, f. constructor; cbn [misses fetches calls landed]; [done..|].
    rewrite (total_set _ _ _ (land (call_key g) r g)) by (by rewrite lookup_fmap, Hg).
    pose proof (total_fmap pending (land (call_key g) r) (calls c) (land_pending _ r)).
    assert (E : land (call_key g) r g = g) by (unfold land; by rewrite Epc). rewrite E.
    unfold pending at 2 3. rewrite Epc. cbn. lia.
Qed.

(** The counters tell how much the cache saves: whatever the interleaving,
    there are no more fetches than misses. *)
Theorem fetches_at_most_misses now acts c : run (NewPriceCache now) acts = Some c ->
  exists m f, Stats c = (hits c, wrap64 m, wrap64 f) /\ f <= m.
Proof.
  assert (H : forall l c c' m f, counts c m f -> run c l = Some c' -> exists m' f', counts c' m' f').
  { induction l as [|a l IH]; intros c0 c' m f Hc H; cbn [run] in H; [injection H as <-; by exists m, f|].
    destruct (step c0 a) as [c1|] eqn:E; [|done].
    assert (Hc1 : exists m' f', counts c1 m' f').
    { destruct a as [i chainName tokens|i quote|? ?|? ?|? ?|t]; cbn [step] in E;
        try (injection E as <-; exists m, f; by destruct Hc).
      - destruct (calls c0 !! i) eqn:Ei; [done|]. injection E as <-. exists m, f. destruct Hc as [Hm Hf Ho].
        constructor; cbn [misses fetches calls with_call]; [done..|]. by rewrite total_new.
      - destruct (calls c0 !! i) as [g|] eqn:Ei; [|done]. by apply (get_step_counts c0 i g quote c1 m f). }
    destruct Hc1 as (m1 & f1 & Hc1). by apply (IH c1 c' m1 f1). }
  intros Hrun. destruct (H acts _ _ 0 0 (Build_counts (NewPriceCache now) 0 0 eq_refl eq_refl ltac:(done)) Hrun)
    as (m & f & [Hm Hf Ho]).
  exists m, f. unfold Stats. rewrite Hm, Hf. split; [done|].
  pose proof (total_nonneg pending (calls c) ltac:(intros g; unfold pending; destruct (gc_pc g); lia)). lia.
Qed.
End Runs.
End Cache.

(** ** A run *)

Definition alone (fs : gset string) (key : string) : bool := negb (bool_decide (key ∈ fs)).

Lemma alone_doc fs key : alone fs key = true <-> key ∉ fs.
Proof. unfold alone. by rewrite negb_true_iff, bool_decide_eq_false. Qed.

Definition no_unicode (s : string) : string := s.

Definition sample_chains : gset string := {[ "base" ]}.

Definition sample_ttl : Duration := 30 * Second.

Definition sample_run : list act -> option PriceCache :=
  run no_unicode sample_chains sample_ttl alone (NewPriceCache 1000).

Definition ask (i : nat) (price : float) : act := AStep i (Ok (price_quote 1 price price)).

(** Two calls for one pair: the second waits for the first, and both have the
    price it fetched. *)
Definition shared : list act :=
  [AGet 0 "base" "weth/usdc"; AGet 1 "base" "WETH/usdc"; ask 0 0; ask 0 0; ask 1 0; ask 1 0; ask 0 0; ask 1 0;
   ask 0 0; ask 0 0; ask 0 42; ask 0 0; ask 0 0].

Example shared_prices :
  match sample_run shared with
  | Some c => (gc_pc <$> calls c !! 0%nat, gc_pc <$> calls c !! 1%nat, Stats c)
              = (Some (GDone (Ok 42%float)), Some (GDone (Ok 42%float)), (0, 2, 1))
  | None => False
  end.
Proof. vm_compute. reflexivity. Qed.

(** The client of the sample answers its own price. *)
Definition any_answer (chainName a b : string) (q : Quote) : Prop := chainName = "base".

Lemma run_ok_any now acts : run_ok no_unicode sample_chains sample_ttl alone any_answer (NewPriceCache now) acts.
Proof.
  generalize (NewPriceCache now) as c. induction acts as [|a acts IH]; intros c; [done|]. split; [|intros c' _; apply IH].
  destruct a as [| i [q|] | | | |]; try done. intros g a b _ _ Hc _. by apply elem_of_singleton in Hc.
Qed.

Lemma prices_genuine_witness :
  genuine no_unicode sample_chains any_answer "base|WETH/USDC" 42.
Proof.
  destruct (sample_run shared) as [c|] eqn:E; [|exfalso; revert E; vm_compute; discriminate].
  destruct (prices_genuine no_unicode sample_chains sample_ttl alone alone_doc any_answer 1000 shared c
    (run_ok_any 1000 shared) E) as [H _].
  apply (H 0%nat {| gc_chain := "base"; gc_pair := "weth/usdc"; gc_pc := GDone (Ok 42%float) |}); [|reflexivity].
  revert E. vm_compute. intros [= <-]. reflexivity.
Defined.

Lemma cache_no_deadlock_witness : len (List.filter is_step shared) <= 8 * len (List.filter is_get shared).
Proof.
  destruct (sample_run shared) as [c|] eqn:E; [|exfalso; revert E; vm_compute; discriminate].
  exact (proj1 (cache_no_deadlock no_unicode sample_chains sample_ttl alone alone_doc any_answer 1000 shared c
    (run_ok_any 1000 shared) E)).
Defined.

Lemma fetches_at_most_misses_witness :
  match sample_run shared with
  | Some c => exists m f, Stats c = (hits c, wrap64 m, wrap64 f) /\ f <= m
  | None => False
  end.
Proof.
  destruct (sample_run shared) as [c|] eqn:E; [|revert E; vm_compute; discriminate].
  exact (fetches_at_most_misses no_unicode sample_chains sample_ttl alone 1000 shared c E).
Defined.

Lemma cacheKey_roundtrip_witness : splitCacheKey (cacheKey no_unicode "base" "weth/usdc") = Some ("base", "WETH/USDC").
Proof. by apply (cacheKey_roundtrip no_unicode "base" "weth/usdc"). Defined.

Lemma same_key_same_quote_witness :
  fetchPrice no_unicode sample_chains (fun _ _ _ => Ok (price_quote 1 2 2)) "base" "weth/usdc" =
  fetchPrice no_unicode sample_chains (fun _ _ _ => Ok (price_quote 1 2 2)) "base" "WETH/USDC".
Proof. by apply (same_key_same_quote no_unicode sample_chains "base" "base" "weth/usdc" "WETH/USDC"). Defined.

(** The refresh forgets an entry while a fetch of it is in the air; the fetch
    lands after, and the old price is back, as fresh as new. *)
Lemma invalidated_price_returns :
  match sample_run
    [AGet 0 "base" "weth/usdc"; ask 0 0; ask 0 0; ask 0 0; ask 0 0; ask 0 0; ask 0 42;
     AClock 60000; AInvalidate "base" "weth/usdc"; ask 0 0; ask 0 0] with
  | Some c => entries c !! "base|WETH/USDC" = Some {| pe_price := 42; pe_fetchedAt := 60000 |}
  | None => False
  end.
Proof. vm_compute. reflexivity. Qed.

(** A price that is not a number passes the test for positive prices. *)
Lemma nan_price_cached :
  fetchPrice no_unicode sample_chains (fun _ _ _ => Ok (price_quote 1 nan nan)) "base" "weth/usdc" = Ok nan.
Proof. vm_compute. reflexivity. Qed.
