(* ===== verification/MockChain.v ===== *)
(** * The price history and the replayed chain

    [internal/backtesting/price_collector.go] and [mock_chain.go]: the
    observations the collector writes, and the chain client that answers
    quotes from them at a cursor.  [unicode_upper] is [strings.ToUpper] outside
    of ASCII; amounts are IEEE floats. *)
From Stdlib Require Import ZArith Lia Ascii Floats.
From stdpp Require Import base list strings gmap.
From S2P Require Import Prelude GoBase GoFmt GoFloat Genome Task TxValidator.
Set Warnings "-inexact-float".
Open Scope Z_scope.

(** ** Observations *)

Record PriceRow := {
  row_Chain : string;
  row_TokenPair : string;
  row_Price : float;
  row_Volume24h : float;
  row_RecordedAt : Time;
}.

(** [InMemoryPriceStore] is its rows. *)
Definition InsertPriceRow (rows : list PriceRow) (row : PriceRow) : list PriceRow := rows ++ [row].

Section Upper.
Context (unicode_upper : string -> string).

Abbreviation upper := (ToUpper unicode_upper).

Definition RowsFor (rows : list PriceRow) (chainName pair : string) : list PriceRow :=
  let want := upper pair in
  List.filter (fun r => str_eqb (row_Chain r) chainName && str_eqb (row_TokenPair r) want) rows.

(** What a pass of the collector reads: the price of a pair, the clock, and the
    answer of the store, by the number of pairs before. *)
Record CollectEnv := {
  c_price : nat -> string -> string -> result float;
  c_now : nat -> Time;
  c_insert : nat -> PriceRow -> option gerror;
}.

(** The loop of [CollectOnce], from the [k]-th pair on: the rows written and the
    errors, in order. *)
Fixpoint collect_loop (e : CollectEnv) (k : nat) (pairs : list (string * string))
    : list PriceRow * list gerror :=
  match pairs with
  | [] => ([], [])
  | (chainName, tokens) :: pairs' =>
      let '(rows, errs) := collect_loop e (S k) pairs' in
      match c_price e k chainName tokens with
      | Fail err => (rows, err :: errs)
      | Ok price =>
          let row := {|
            row_Chain := chainName; row_TokenPair := upper tokens; row_Price := price; row_Volume24h := 0;
            row_RecordedAt := c_now e k |} in
          match c_insert e k row with
          | Some err => (rows, err :: errs)
          | None => (row :: rows, errs)
          end
      end
  end.

(** [CollectOnce]: the number written is the length of the first list. *)
Definition CollectOnce (e : CollectEnv) (pairs : list (string * string)) : list PriceRow * list gerror :=
  collect_loop e 0 pairs.

(** [PriceCollector.Run] until its context is cancelled: one pass at once, one
    per tick. *)
Definition Run (passes : list (CollectEnv * list (string * string))) : list PriceRow :=
  concat ((fun p => (CollectOnce p.1 p.2).1) <$> passes).

(** ** The replayed chain *)

Record MockChainConfig := {
  m_ChainName : string;
  m_NativeToken : string;
  m_SlippageBps : Z;
  m_FeeBps : Z;
  m_InitialBalance : float;
}.

(** [chain.Trade]. *)
Record ChainTrade := {
  ct_Chain : string;
  ct_DEX : string;
  ct_TokenPair : string;
  ct_AmountIn : float;
  ct_AmountOut : float;
  ct_FeePaid : float;
  ct_PnL : float;
  ct_TxSignature : string;
  ct_IsPaper : bool;
  ct_ExecutedAt : Time;
}.

Record MockChainClient := {
  m_cfg : MockChainConfig;
  pricesByPair : gmap string (list PriceRow);
  m_cursor : Time;
  m_balances : gmap string float;
  tokenBals : gmap string float;
  m_trades : list ChainTrade;
  txSequence : Z;
}.

Definition recorded_before (a b : PriceRow) : bool := Before (row_RecordedAt a) (row_RecordedAt b).

(** [m.pricesByPair[k] = append(m.pricesByPair[k], r)]. *)
Definition add_row (m : gmap string (list PriceRow)) (r : PriceRow) : gmap string (list PriceRow) :=
  let k := upper (row_TokenPair r) in <[k := default [] (m !! k) ++ [r]]> m.

Definition by_pair (rows : list PriceRow) : gmap string (list PriceRow) := fold_left add_row rows ∅.

Definition NewMockChainClient {S : SliceSort} (cfg : MockChainConfig) (rows : list PriceRow)
    : MockChainClient := {|
  m_cfg := {|
    m_ChainName := if str_eqb (m_ChainName cfg) "" then "mock" else m_ChainName cfg;
    m_NativeToken := if str_eqb (m_NativeToken cfg) "" then "MOCK" else m_NativeToken cfg;
    m_SlippageBps := m_SlippageBps cfg; m_FeeBps := m_FeeBps cfg;
    m_InitialBalance := m_InitialBalance cfg |};
  pricesByPair := sort_slice recorded_before <$> by_pair rows;
  m_cursor := zero_time; m_balances := ∅; tokenBals := ∅; m_trades := []; txSequence := 0 |}.

Definition SetCursor (m : MockChainClient) (t : Time) : MockChainClient := {|
  m_cfg := m_cfg m; pricesByPair := pricesByPair m; m_cursor := t; m_balances := m_balances m;
  tokenBals := tokenBals m; m_trades := m_trades m; txSequence := txSequence m |}.

(** The binary search for the last row at or before the cursor. *)
Fixpoint search (fuel : nat) (rows : list PriceRow) (cursor : Time) (lo hi : Z) : Z :=
  match fuel with
  | O => lo
  | S fuel =>
      if lo <? hi then
        let mid := (lo + hi + 1) / 2 in
        match rows !! Z.to_nat mid with
        | None => lo
        | Some r =>
            if After (row_RecordedAt r) cursor then search fuel rows cursor lo (mid - 1)
            else search fuel rows cursor mid hi
        end
      else lo
  end.

(** The row a lookup answers with. *)
Definition row_at (rows : list PriceRow) (cursor : Time) : option PriceRow :=
  if IsZero cursor then head rows
  else
    match rows !! Z.to_nat (search (length rows) rows cursor 0 (len rows - 1)) with
    | None => None
    | Some r => if After (row_RecordedAt r) cursor then head rows else Some r
    end.

Definition priceAtCursor (m : MockChainClient) (pair : string) : result (float * Time) :=
  match row_at (default [] (pricesByPair m !! pair)) (m_cursor m) with
  | None => Fail (EMsg "mock_chain: no price history for pair %q")
  | Some r => Ok (row_Price r, row_RecordedAt r)
  end.

Definition GetBalance (m : MockChainClient) (address : string) : float :=
  match m_balances m !! address with Some v => v | None => m_InitialBalance (m_cfg m) end.

Definition GetTokenBalance (m : MockChainClient) (address tokenAddr : string) : float :=
  default 0%float (tokenBals m !! (address +:+ "|" +:+ upper tokenAddr)).

Definition GetQuote (m : MockChainClient) (tokenIn tokenOut : string) (amount : float) : result Quote :=
  if (amount <=? 0)%float then Fail (EMsg "mock_chain: amount must be positive, got %v")
  else
    match priceAtCursor m (upper (tokenIn +:+ "/" +:+ tokenOut)) with
    | Fail err => Fail err
    | Ok (price, at_) =>
        let gross := (amount * price)%float in
        let fee := (gross * float_of_int (m_FeeBps (m_cfg m)) / 10000)%float in
        let netAfterFee := (gross - fee)%float in
        let slip := (netAfterFee * float_of_int (m_SlippageBps (m_cfg m)) / 10000)%float in
        Ok {|
          q_Chain := m_ChainName (m_cfg m); q_DEX := "mock"; q_TokenIn := upper tokenIn;
          q_TokenOut := upper tokenOut; q_AmountIn := amount; q_AmountOut := (netAfterFee - slip)%float;
          q_Price := price; q_PriceImpact := (float_of_int (m_SlippageBps (m_cfg m)) / 10000)%float;
          q_FeeAmount := fee; q_SlippageBps := m_SlippageBps (m_cfg m); q_GeneratedAt := at_;
          q_RouteRaw := "" |}
    end.

(** [fmt.Sprintf("mock-tx-%06d", m.txSequence)]. *)
Definition mock_signature (sequence : Z) : string := "mock-tx-" +:+ pad0 6 (Itoa sequence).

Definition add_balance (m : gmap string float) (key : string) (x : float) : gmap string float :=
  <[key := (default 0 (m !! key) + x)%float]> m.

Definition sub_balance (m : gmap string float) (key : string) (x : float) : gmap string float :=
  <[key := (default 0 (m !! key) - x)%float]> m.

(** [quote] and the wallet's address are [None] for nil. *)
Definition ExecuteSwap (m : MockChainClient) (quote : option Quote) (wallet : option string)
    : result TxResult * MockChainClient :=
  match quote, wallet with
  | None, _ => (Fail (EMsg "mock_chain: nil quote"), m)
  | Some _, None => (Fail (EMsg "mock_chain: nil wallet"), m)
  | Some q, Some addr =>
      let bals := sub_balance (tokenBals m) (addr +:+ "|" +:+ q_TokenIn q) (q_AmountIn q) in
      let bals := add_balance bals (addr +:+ "|" +:+ q_TokenOut q) (q_AmountOut q) in
      let sequence := wrap64 (txSequence m + 1) in
      let sig := mock_signature sequence in
      let t := {|
        ct_Chain := q_Chain q; ct_DEX := q_DEX q; ct_TokenPair := q_TokenIn q +:+ "/" +:+ q_TokenOut q;
        ct_AmountIn := q_AmountIn q; ct_AmountOut := q_AmountOut q; ct_FeePaid := q_FeeAmount q; ct_PnL := 0;
        ct_TxSignature := sig; ct_IsPaper := true; ct_ExecutedAt := m_cursor m |} in
      (Ok {| tx_Signature := sig; tx_Success := true; tx_GasUsed := 0; tx_GasPriceWei := 0;
             tx_FeePaidUSD := q_FeeAmount q; tx_BlockNumber := 0; tx_ErrorMsg := "" |},
       {| m_cfg := m_cfg m; pricesByPair := pricesByPair m; m_cursor := m_cursor m;
          m_balances := m_balances m; tokenBals := bals; m_trades := m_trades m ++ [t];
          txSequence := sequence |})
  end.

Definition SendTransaction (m : MockChainClient) : result TxResult * MockChainClient :=
  let sequence := wrap64 (txSequence m + 1) in
  (Ok (tx_result (mock_signature sequence) true), {|
     m_cfg := m_cfg m; pricesByPair := pricesByPair m; m_cursor := m_cursor m; m_balances := m_balances m;
     tokenBals := tokenBals m; m_trades := m_trades m; txSequence := sequence |}).

Definition ExecuteLiquidation : result (option TxResult) :=
  Ok (Some {|
    tx_Signature := ""; tx_Success := false; tx_GasUsed := 0; tx_GasPriceWei := 0; tx_FeePaidUSD := 0;
    tx_BlockNumber := 0; tx_ErrorMsg := "mock_chain: ExecuteLiquidation not supported in backtest" |}).

(** What a task reads when the mock is its client for every chain. *)
Definition mock_env (m : MockChainClient) (clock : nat -> Time)
    (range : nat -> forall V : Type, range_order string V) : Env := {|
  e_now := clock;
  e_quote := fun _ => GetQuote m;
  e_yields := fun _ _ => Ok [];
  e_positions := fun _ _ _ => Ok [];
  e_liquidate := fun _ _ _ => ExecuteLiquidation;
  e_range := range |}.
End Upper.

(** ** What a lookup answers *)

Definition timed (rows : list PriceRow) : Prop := sorted_by recorded_before rows.

Lemma timed_le rows i j a b : timed rows -> (i <= j)%nat -> rows !! i = Some a -> rows !! j = Some b ->
  row_RecordedAt a <= row_RecordedAt b.
Proof.
  intros Hs Hij Ha Hb. destruct (decide (i = j)) as [->|]; [rewrite Ha in Hb; injection Hb as ->; lia|].
  pose proof (sorted_by_lookup _ _ i j a b Hs ltac:(lia) Ha Hb) as H.
  unfold recorded_before, Before in H. lia.
Qed.

(** The rows after [k] are after the cursor, and [k] is not, unless it is the
    first. *)
Record search_ok (rows : list PriceRow) (cursor : Time) (lo hi : Z) : Prop := {
  so_range : 0 <= lo <= hi /\ hi < len rows;
  so_above : forall j r, (Z.to_nat hi < j)%nat -> rows !! j = Some r -> cursor < row_RecordedAt r;
  so_below : lo = 0 \/ exists r, rows !! Z.to_nat lo = Some r /\ row_RecordedAt r <= cursor;
}.

Lemma search_spec fuel rows cursor : timed rows -> forall lo hi,
  search_ok rows cursor lo hi -> hi - lo <= Z.of_nat fuel ->
  let k := search fuel rows cursor lo hi in search_ok rows cursor k k.
Proof.
  intros Hs. induction fuel as [|fuel IH]; intros lo hi [Hr Ha Hb] Hf; cbn [search]; cbn zeta.
  { assert (lo = hi) as -> by lia. constructor; [lia|done..]. }
  destruct (Z.ltb_spec lo hi) as [Hlt|]; [|assert (lo = hi) as -> by lia; constructor; [lia|done..]].
  set (mid := (lo + hi + 1) / 2). assert (Hmid : lo < mid <= hi)
    by (subst mid; Z.to_euclidean_division_equations; lia).
  destruct (lookup_lt_is_Some_2 rows (Z.to_nat mid)) as [r Er]; [unfold len in Hr; lia|]. rewrite Er.
  unfold After. destruct (Z.ltb_spec cursor (row_RecordedAt r)) as [Haft|Hnot].
  - apply IH; [|lia]. constructor; [lia| |done]. intros j r' Hj Er'.
    pose proof (timed_le rows (Z.to_nat mid) j r r' Hs ltac:(lia) Er Er'). lia.
  - apply IH; [|lia]. constructor; [lia|done|]. right. by exists r.
Qed.

(** The row of [rows] a price at [cursor] is read from: the latest one at or
    before the cursor, the earliest one when there is none or no cursor. *)
Definition answers (rows : list PriceRow) (cursor : Time) (r : PriceRow) : Prop :=
  r ∈ rows /\
  ((cursor <> zero_time /\ row_RecordedAt r <= cursor /\
    forall r', r' ∈ rows -> row_RecordedAt r' <= cursor -> row_RecordedAt r' <= row_RecordedAt r) \/
   ((cursor = zero_time \/ forall r', r' ∈ rows -> cursor < row_RecordedAt r') /\
    forall r', r' ∈ rows -> row_RecordedAt r <= row_RecordedAt r')).

Lemma head_earliest rows r : timed rows -> head rows = Some r ->
  r ∈ rows /\ forall r', r' ∈ rows -> row_RecordedAt r <= row_RecordedAt r'.
Proof.
  intros Hs Hh. destruct rows as [|r0 rows]; [done|]. injection Hh as ->. split; [by left|].
  intros r' [j Hj]%list_elem_of_lookup. exact (timed_le (r :: rows) 0 j r r' Hs ltac:(lia) eq_refl Hj).
Qed.

Lemma row_at_answers rows cursor : timed rows ->
  match row_at rows cursor with
  | Some r => answers rows cursor r
  | None => rows = []
  end.
Proof.
  intros Hs. unfold row_at, IsZero. destruct (Z.eqb_spec cursor 0) as [->|Hz].
  { destruct (head rows) as [r|] eqn:E; [|by destruct rows].
    destruct (head_earliest rows r Hs E) as [Hin Hle]. split; [done|]. right. by split; [left|]. }
  destruct rows as [|r0 rows']; [done|]. set (rows := r0 :: rows') in *.
  assert (Hok : search_ok rows cursor 0 (len rows - 1)).
  { constructor; [unfold len, rows; cbn [length]; lia| |by left].
    intros j r Hj E. apply lookup_lt_Some in E. unfold len in Hj. lia. }
  pose proof (search_spec (length rows) rows cursor Hs 0 (len rows - 1) Hok ltac:(unfold len; lia)) as [Hr Ha Hb].
  set (k := search _ _ _ _ _) in *.
  destruct (lookup_lt_is_Some_2 rows (Z.to_nat k)) as [r Er]; [unfold len in Hr; lia|]. rewrite Er.
  unfold After. destruct (Z.ltb_spec cursor (row_RecordedAt r)) as [Haft|Hnot].
  - destruct Hb as [Hk|(r' & Er' & Hle)]; [|rewrite Er in Er'; injection Er' as ->; lia].
    rewrite Hk in Er, Ha. injection Er as ->. cbn [head rows].
    destruct (head_earliest rows r Hs eq_refl) as [Hin Hle]. split; [done|]. right. split; [|done].
    right. intros r' Hr'. specialize (Hle r' Hr'). lia.
  - split; [by eapply list_elem_of_lookup_2|]. left. split; [done|]. split; [done|].
    intros r' [j Hj]%list_elem_of_lookup Hle.
    destruct (le_lt_dec j (Z.to_nat k)) as [Hjk|Hjk]; [exact (timed_le rows j (Z.to_nat k) _ _ Hs Hjk Hj Er)|].
    specialize (Ha j r' Hjk Hj). lia.
Qed.

Section Replay.
Context (unicode_upper : string -> string) (S : SliceSort) (SL : SliceSortLaws S).

Definition rows_of (rows : list PriceRow) (tokens : string) : list PriceRow :=
  List.filter (fun r => str_eqb (ToUpper unicode_upper (row_TokenPair r)) tokens) rows.

Lemma by_pair_lookup rows : forall m tokens,
  default [] (fold_left (add_row unicode_upper) rows m !! tokens)
  = default [] (m !! tokens) ++ rows_of rows tokens.
Proof.
  induction rows as [|r rows IH]; intros m tokens; [by rewrite app_nil_r|].
  cbn [fold_left]. rewrite IH. unfold add_row, rows_of, str_eqb. cbn [List.filter].
  destruct (bool_decide_reflect (ToUpper unicode_upper (row_TokenPair r) = tokens)) as [<-|Hne].
  - rewrite lookup_insert_eq. cbn. by rewrite <- app_assoc.
  - by rewrite lookup_insert_ne by done.
Qed.

Lemma stored_rows cfg rows tokens :
  let stored := default [] (pricesByPair (NewMockChainClient unicode_upper cfg rows) !! tokens) in
  timed stored /\ stored ≡ₚ rows_of rows tokens.
Proof.
  cbn. rewrite lookup_fmap. unfold by_pair. pose proof (by_pair_lookup rows ∅ tokens) as H.
  rewrite lookup_empty in H. cbn [app default] in H.
  destruct (fold_left _ rows ∅ !! tokens) as [l|] eqn:E; cbn in H |- *.
  - split; [|by rewrite sort_slice_perm, H]. apply (sort_slice_sorted (fun _ => True)); [|by apply Forall_true].
    apply (strict_weak_ext _ _ (fun a b => - row_RecordedAt b <? - row_RecordedAt a)).
    + intros a b _ _. unfold recorded_before, Before. lia.
    + by apply (strict_weak_desc _ _ (fun a => - row_RecordedAt a)).
  - split; [constructor|]. by rewrite <- H.
Qed.

(** The replayed chain answers a pair with the latest of its observations
    at or before the cursor, and with the earliest one when the cursor is
    before all of them or was never set; it fails exactly when the pair has no
    observation at all. *)
Theorem replay_spec cfg rows t tokens :
  match priceAtCursor (SetCursor (NewMockChainClient unicode_upper cfg rows) t) tokens with
  | Ok (price, at_) => exists r, answers (rows_of rows tokens) t r /\
      price = row_Price r /\ at_ = row_RecordedAt r
  | Fail _ => rows_of rows tokens = []
  end.
Proof.
  unfold priceAtCursor. cbn [pricesByPair m_cursor SetCursor].
  destruct (stored_rows cfg rows tokens) as [Hs Hp]. cbn zeta in *.
  set (stored := default [] _) in *. pose proof (row_at_answers stored t Hs) as H.
  destruct (row_at stored t) as [r|].
  - exists r. split; [|done]. unfold answers in *. by setoid_rewrite <- Hp.
  - rewrite H in Hp. by apply Permutation_nil in Hp.
Qed.

(** ** Signatures *)

Inductive mock_op :=
  | OSwap (q : Quote) (address : string)
  | OSend.

Definition mock_step (m : MockChainClient) (op : mock_op) : result TxResult * MockChainClient :=
  match op with
  | OSwap q address => ExecuteSwap m (Some q) (Some address)
  | OSend => SendTransaction m
  end.

Fixpoint signatures (m : MockChainClient) (ops : list mock_op) : list string :=
  match ops with
  | [] => []
  | op :: ops' =>
      match mock_step m op with
      | (Ok res, m') => tx_Signature res :: signatures m' ops'
      | (Fail _, m') => signatures m' ops'
      end
  end.

Lemma mock_signature_inj i j : 0 <= i -> 0 <= j -> mock_signature i = mock_signature j -> i = j.
Proof.
  intros Hi Hj H. unfold mock_signature in H.
  apply (inj (String.append "mock-tx-")) in H.
  apply (f_equal (numeral 0)) in H. by rewrite !numeral_pad0 in H.
Qed.

Lemma signatures_from ops : forall m, 0 <= txSequence m -> txSequence m + len ops <= max_int64 ->
  signatures m ops = (fun k => mock_signature (txSequence m + 1 + Z.of_nat k)) <$> seq 0 (length ops).
Proof.
  unfold len. induction ops as [|op ops IH]; intros m H0 Hm; [done|]. cbn [length] in Hm.
  assert (E : wrap64 (txSequence m + 1) = txSequence m + 1)
    by (apply wrap64_id; unfold in_int64, min_int64, max_int64 in *; lia).
  assert (Hrest : forall m', txSequence m' = txSequence m + 1 ->
    mock_signature (txSequence m + 1) :: signatures m' ops
    = (fun k => mock_signature (txSequence m + 1 + Z.of_nat k)) <$> seq 0 (length (op :: ops))).
  { intros m' Em. rewrite IH by lia. rewrite Em. cbn [length seq]. rewrite fmap_cons, Z.add_0_r. f_equal.
    rewrite <- fmap_S_seq, <- list_fmap_compose. apply list_fmap_ext. intros _ k _. cbn. f_equal. lia. }
  destruct op; cbn [signatures mock_step ExecuteSwap SendTransaction tx_Signature tx_result];
    rewrite E; by apply Hrest.
Qed.

(** The transactions of a replay carry distinct signatures, swaps and
    sends alike, for as many as a counter can number. *)
Theorem mock_signatures_distinct cfg rows ops : len ops <= max_int64 ->
  length (signatures (NewMockChainClient unicode_upper cfg rows) ops) = length ops /\
  NoDup (signatures (NewMockChainClient unicode_upper cfg rows) ops).
Proof.
  intros Hlen. rewrite signatures_from by (cbn; lia). split; [by rewrite length_fmap, length_seq|].
  apply NoDup_fmap_2_strong; [|apply NoDup_seq].
  intros i j _ _ H. cbn [txSequence NewMockChainClient] in H. apply mock_signature_inj in H; lia.
Qed.
End Replay.

(** ** A replay *)

Definition plain (s : string) : string := s.

Definition observed (t : Time) (p : float) : PriceRow := {|
  row_Chain := "base"; row_TokenPair := "weth/usdc"; row_Price := p; row_Volume24h := 0; row_RecordedAt := t |}.

Definition sample_mock : MockChainConfig := {|
  m_ChainName := "base"; m_NativeToken := "ETH"; m_SlippageBps := 50; m_FeeBps := 100; m_InitialBalance := 0 |}.

Definition replayed (t : Time) : MockChainClient :=
  SetCursor (NewMockChainClient (S := insertion_slice_sort) plain sample_mock
    [observed 300 3; observed 100 1; observed 200 2]) t.

Example replayed_prices :
  (fun t => priceAtCursor (replayed t) "WETH/USDC") <$> [0; 50; 100; 250; 999] =
  [Ok (1%float, 100); Ok (1%float, 100); Ok (1%float, 100); Ok (2%float, 200); Ok (3%float, 300)].
Proof. vm_compute. reflexivity. Qed.

Lemma mock_signatures_distinct_witness :
  NoDup (signatures (replayed 0) [OSend; OSwap (price_quote 1 2 2) "0xabc"; OSend]).
Proof.
  exact (proj2 (mock_signatures_distinct plain insertion_slice_sort sample_mock
    [observed 300 3; observed 100 1; observed 200 2] [OSend; OSwap (price_quote 1 2 2) "0xabc"; OSend]
    ltac:(discriminate))).
Defined.
