(* ===== verification/Backtest.v ===== *)
(** * The backtest engine

    [internal/backtesting/engine.go]: a task driven over the replayed chain,
    one tick per interval, its equity curve, and the metrics an offspring is
    judged by.  The task is any state with a tick and a position value over the
    chain, as the builder's closure gives it; the strategies of
    [internal/agent/tasks] are an instance, reading the mock for every chain. *)
From Stdlib Require Import ZArith Lia Ascii Floats.
From stdpp Require Import base list strings gmap.
From S2P Require Import Prelude GoBase GoFmt GoFloat GoRound Genome Crossover Task LiquidityProvision MockChain.
Set Warnings "-inexact-float".
Open Scope Z_scope.

(** ** The engine *)

Record EquityPoint := { eq_At : Time; eq_Equity : float }.

Record BacktestPeriod := {
  per_Start : Time;
  per_End : Time;
  TickInterval : Duration;
}.

Record BacktestResult := {
  GenomeName : string;
  Period : BacktestPeriod;
  StartCapital : float;
  EndEquity : float;
  TotalPnL : float;
  MaxDrawdown : float;
  WinRate : float;
  Sharpe : float;
  TradeCount : Z;
  EquityCurve : list EquityPoint;
  Trades : list Trade;
  Notes : string;
}.

(** What the engine calls of the task it built, on the chain they share. *)
Class Replayed (T : Type) := {
  bt_tick : MockChainClient -> T -> result (list Trade) * (MockChainClient * T);
  bt_value : MockChainClient -> T -> result float;
}.

Record BacktestEngineConfig (T : Type) := {
  Builder : option (MockChainClient -> AgentGenome -> result (MockChainClient * T));
  MockConfig : MockChainConfig;
  PriceRows : list PriceRow;
  bc_StartCapital : float;
  PnLValuation : option (MockChainClient -> result float);
}.
Arguments Builder {T}. Arguments MockConfig {T}. Arguments PriceRows {T}.
Arguments bc_StartCapital {T}. Arguments PnLValuation {T}.

Definition NewBacktestEngine {T} (cfg : BacktestEngineConfig T) : result (BacktestEngineConfig T) :=
  match Builder cfg with
  | None => Fail (EMsg "backtesting: engine requires a Builder")
  | Some _ =>
      if len (PriceRows cfg) =? 0 then Fail (EMsg "backtesting: engine requires PriceRows")
      else Ok {|
        Builder := Builder cfg; MockConfig := MockConfig cfg; PriceRows := PriceRows cfg;
        bc_StartCapital := if (bc_StartCapital cfg <=? 0)%float then 1000%float else bc_StartCapital cfg;
        PnLValuation := PnLValuation cfg |}
  end.

(** ** Metrics *)

Definition sumPnLSlice (p : list float) : float := fold_left (fun s v => (s + v)%float) p 0%float.

Definition sumPnL (trs : list Trade) : float := fold_left (fun s t => (s + tr_PnL t)%float) trs 0%float.

Definition computeWinRate (pnls : list float) : float :=
  if len pnls =? 0 then 0%float
  else
    let wins := fold_left (fun wins p => if (0 <? p)%float then wins + 1 else wins) pnls 0 in
    (float_of_int wins / float_of_int (len pnls))%float.

(** The loop of [computeMaxDrawdown], on the peak and the worst so far. *)
Definition drawdown_step (acc : float * float) (p : EquityPoint) : float * float :=
  let '(peak, worst) := acc in
  let peak := if (peak <? eq_Equity p)%float then eq_Equity p else peak in
  if (peak <=? 0)%float then (peak, worst)
  else
    let drawdown := ((peak - eq_Equity p) / peak)%float in
    (peak, if (worst <? drawdown)%float then drawdown else worst).

Definition computeMaxDrawdown (curve : list EquityPoint) : float :=
  match curve with
  | [] => 0%float
  | p :: _ => (fold_left drawdown_step curve (eq_Equity p, 0%float)).2
  end.

(** [byDay] keeps an equity and its time; [order] the days as they appear. *)
Definition bucket_step (acc : gmap string (float * Time) * list string) (p : EquityPoint)
    : gmap string (float * Time) * list string :=
  let '(byDay, order) := acc in
  let day := FormatDate (eq_At p) in
  match byDay !! day with
  | None => (<[day := (eq_Equity p, eq_At p)]> byDay, order ++ [day])
  | Some (_, at_) =>
      (if After (eq_At p) at_ then <[day := (eq_Equity p, eq_At p)]> byDay else byDay, order)
  end.

Definition bucketByDay (curve : list EquityPoint) : list float :=
  let '(byDay, order) := fold_left bucket_step curve (∅, []) in
  (fun d => match byDay !! d with Some (e, _) => e | None => 0%float end) <$> order.

Fixpoint daily_returns (buckets : list float) : list float :=
  match buckets with
  | prev :: (cur :: _) as rest =>
      if (prev <=? 0)%float then daily_returns rest else ((cur - prev) / prev)%float :: daily_returns rest
  | _ => []
  end.

Section Sort.
Context {SS : SliceSort}.

Definition point_before (a b : EquityPoint) : bool := Before (eq_At a) (eq_At b).

(** The curve is sorted in place, before anything else, when it has two
    points. *)
Definition sharpe_curve (curve : list EquityPoint) : list EquityPoint :=
  if len curve <? 2 then curve else sort_slice point_before curve.

Definition computeSharpe (curve : list EquityPoint) : float :=
  if len curve <? 2 then 0%float
  else
    let buckets := bucketByDay (sharpe_curve curve) in
    if len buckets <? 2 then 0%float
    else
      let returns := daily_returns buckets in
      if len returns <? 2 then 0%float
      else
        let mean := (fold_left (fun m r => (m + r)%float) returns 0 / float_of_int (len returns))%float in
        let sqSum := fold_left (fun s r => let d := (r - mean)%float in (s + d * d)%float) returns 0%float in
        let variance := (sqSum / float_of_int (len returns - 1))%float in
        if (variance <=? 0)%float then 0%float
        else
          let stdev := PrimFloat.sqrt variance in
          if (stdev =? 0)%float then 0%float
          else (mean / stdev * PrimFloat.sqrt 365)%float.

(** ** A run *)

Section Run.
Context {T : Type} {R : Replayed T} (Error : gerror -> string) (unicode_upper : string -> string).

(** The variables of the loop: the chain and the task, the curve, the trades
    and their profits. *)
Record replay_state := {
  rs_mock : MockChainClient;
  rs_task : T;
  rs_curve : list EquityPoint;
  rs_trades : list Trade;
  rs_pnls : list float;
}.

(** The end of a turn: the equity is the capital, the profits so far and the
    value of the positions. *)
Definition mark_equity (cfg : BacktestEngineConfig T) (cursor : Time) (s : replay_state)
    (tradesThisTick : list Trade) (mock : MockChainClient) (task : T) (posValue : float) : replay_state :=
  let pnls := rs_pnls s ++ (tr_PnL <$> tradesThisTick) in
  let equity := (bc_StartCapital cfg + sumPnLSlice pnls + posValue)%float in {|
    rs_mock := mock; rs_task := task;
    rs_curve := rs_curve s ++ [{| eq_At := cursor; eq_Equity := equity |}];
    rs_trades := rs_trades s ++ tradesThisTick; rs_pnls := pnls |}.

(** A turn of the loop at [cursor], or the notes and the error it ends with. *)
Definition replay_tick (cfg : BacktestEngineConfig T) (cursor : Time) (s : replay_state)
    : (string * gerror) + replay_state :=
  match bt_tick (SetCursor (rs_mock s) cursor) (rs_task s) with
  | (Fail err, _) => inl ("RunTick error at " +:+ FormatRFC3339 cursor +:+ ": " +:+ Error err, err)
  | (Ok tradesThisTick, (mock, task)) =>
      match PnLValuation cfg with
      | Some valuation =>
          match valuation mock with
          | Fail err => inl ("PnLValuation error at " +:+ FormatRFC3339 cursor +:+ ": " +:+ Error err, err)
          | Ok v => inr (mark_equity cfg cursor s tradesThisTick mock task v)
          end
      | None =>
          inr (mark_equity cfg cursor s tradesThisTick mock task
                 match bt_value mock task with Ok v => v | Fail _ => 0%float end)
      end
  end.

(** [for cursor := start; !cursor.After(period.End); cursor = cursor.Add(interval)];
    [None] when the fuel runs out. *)
Fixpoint replay_loop (fuel : nat) (cfg : BacktestEngineConfig T) (period : BacktestPeriod) (cursor : Time)
    (s : replay_state) : option ((string * gerror) + replay_state) :=
  match fuel with
  | O => None
  | S fuel =>
      if After cursor (per_End period) then Some (inr s)
      else
        match replay_tick cfg cursor s with
        | inl stopped => Some (inl stopped)
        | inr s => replay_loop fuel cfg period (Add cursor (TickInterval period)) s
        end
  end.

(** As many turns as there are intervals in the period, one for its start and
    one to see its end. *)
Definition replay_fuel (period : BacktestPeriod) : nat :=
  Z.to_nat ((per_End period - per_Start period) / TickInterval period + 2).

(** The result a failed run returns with its error. *)
Definition partial_result (cfg : BacktestEngineConfig T) (genome : AgentGenome) (period : BacktestPeriod)
    (notes : string) : BacktestResult := {|
  GenomeName := Name genome; Period := period; StartCapital := bc_StartCapital cfg;
  EndEquity := bc_StartCapital cfg; TotalPnL := 0; MaxDrawdown := 0; WinRate := 0; Sharpe := 0;
  TradeCount := 0; EquityCurve := []; Trades := []; Notes := notes |}.

Definition last_equity (curve : list EquityPoint) : float :=
  match last curve with Some p => eq_Equity p | None => 0%float end.

Definition full_result (cfg : BacktestEngineConfig T) (genome : AgentGenome) (period : BacktestPeriod)
    (s : replay_state) : BacktestResult := {|
  GenomeName := Name genome; Period := period; StartCapital := bc_StartCapital cfg;
  EndEquity := last_equity (rs_curve s); TotalPnL := (last_equity (rs_curve s) - bc_StartCapital cfg)%float;
  MaxDrawdown := computeMaxDrawdown (rs_curve s); WinRate := computeWinRate (rs_pnls s);
  Sharpe := computeSharpe (rs_curve s); TradeCount := len (rs_trades s);
  EquityCurve := sharpe_curve (rs_curve s); Trades := rs_trades s; Notes := "" |}.

(** [None]: the run does not return, for want of fuel or because it calls a nil
    builder. *)
Definition Run (cfg : BacktestEngineConfig T) (genome : AgentGenome) (period : BacktestPeriod)
    : option (option BacktestResult * option gerror) :=
  if negb (After (per_End period) (per_Start period)) then
    Some (None, gerr "backtesting: period end %v must be after start %v")
  else if TickInterval period <=? 0 then
    Some (None, gerr "backtesting: period.TickInterval must be positive")
  else
    let mock := SetCursor (NewMockChainClient unicode_upper (MockConfig cfg) (PriceRows cfg)) (per_Start period) in
    match Builder cfg with
    | None => None
    | Some build =>
        match build mock genome with
        | Fail err => Some (None, Some (EWrap "backtesting: builder: %w" err))
        | Ok (mock, task) =>
            match replay_loop (replay_fuel period) cfg period (per_Start period) {|
                rs_mock := mock; rs_task := task;
                rs_curve := [{| eq_At := per_Start period; eq_Equity := bc_StartCapital cfg |}];
                rs_trades := []; rs_pnls := [] |} with
            | None => None
            | Some (inl (notes, err)) => Some (Some (partial_result cfg genome period notes), Some err)
            | Some (inr s) => Some (Some (full_result cfg genome period s), None)
            end
        end
    end.

Definition Passed (r : BacktestResult) : bool :=
  (0 <? TotalPnL r)%float && (MaxDrawdown r <? 0.5)%float && (0 <? TradeCount r).

(** [OffspringRunner.Run]: the verdict, and an error. *)
Definition offspring_run (engine : option (BacktestEngineConfig T)) (candidate : AgentGenome)
    (period : BacktestPeriod) : option (result bool) :=
  match engine with
  | None => Some (Fail (EMsg "backtesting: OffspringRunner missing engine"))
  | Some cfg =>
      match Run cfg candidate period with
      | None => None
      | Some (_, Some err) => Some (Fail err)
      | Some (None, None) => Some (Ok false)
      | Some (Some res, None) => Some (Ok (Passed res))
      end
  end.
End Run.
End Sort.

(** A strategy on the mock: its clock is the cursor. *)
#[export] Instance strategy_replayed {T} `{Task T} (unicode_upper : string -> string)
    (range : nat -> forall V : Type, range_order string V) : Replayed T := {|
  bt_tick := fun m t =>
    let '(r, t) := Task.RunTick (mock_env unicode_upper m (fun _ => m_cursor m) range) t in (r, (m, t));
  bt_value := fun m t =>
    Ok (Task.GetPositionValue (mock_env unicode_upper m (fun _ => m_cursor m) range) t) |}.

(** ** The metrics *)

Lemma drawdown_step_worst p acc : is_nan acc.2 = false -> 0 <= frank acc.2 ->
  is_nan (drawdown_step acc p).2 = false /\ 0 <= frank (drawdown_step acc p).2.
Proof.
  destruct acc as [peak worst]. cbn [snd]. intros Hn H0. unfold drawdown_step.
  set (peak' := if (peak <? eq_Equity p)%float then eq_Equity p else peak).
  destruct (peak' <=? 0)%float; [done|]. cbn [snd].
  destruct (worst <? (peak' - eq_Equity p) / peak')%float eqn:E; [|done].
  destruct (fltb_not_nan _ _ E) as [_ Hd]. rewrite fltb_rank in E by done. split; [done|lia].
Qed.

(** An equity that is a finite amount, not in debt. *)
Definition solvent (p : EquityPoint) : Prop := is_fin (eq_Equity p) = true /\ 0 <= frank (eq_Equity p).

Lemma drawdown_step_unit p acc : solvent p ->
  is_fin acc.1 = true -> 0 <= frank acc.1 -> in_unit acc.2 = true ->
  let acc' := drawdown_step acc p in
  is_fin acc'.1 = true /\ 0 <= frank acc'.1 /\ in_unit acc'.2 = true.
Proof.
  destruct acc as [peak worst]. cbn [fst snd]. intros [Fe He] Fp Hp Hw. cbn zeta. unfold drawdown_step.
  set (peak' := if (peak <? eq_Equity p)%float then eq_Equity p else peak).
  assert (H : is_fin peak' = true /\ frank (eq_Equity p) <= frank peak').
  { subst peak'. pose proof (is_fin_not_nan _ Fe). pose proof (is_fin_not_nan _ Fp).
    rewrite fltb_rank by done. destruct (Z.ltb_spec (frank peak) (frank (eq_Equity p))); (split; [done|lia]). }
  destruct H as [Fp' Hp']. pose proof (is_fin_not_nan _ Fp') as Np'.
  assert (H0 : 0 <= frank peak') by lia.
  destruct (peak' <=? 0)%float eqn:E; [done|]. cbn [fst snd]. split; [done|]. split; [done|].
  destruct (worst <? _)%float; [|done].
  rewrite fleb_rank, frank_zero in E by done. apply Z.leb_gt in E.
  destruct (fsub_le peak' (eq_Equity p) Fp' Fe ltac:(lia)) as [Fs Hs]. by apply fdiv_unit; [..|lia].
Qed.

(** The drawdown of a curve is a number that is not negative, and a
    fraction of the peak as long as the equity never goes under zero. *)
Theorem drawdown_bounds curve :
  is_nan (computeMaxDrawdown curve) = false /\ (computeMaxDrawdown curve <? 0)%float = false /\
  (Forall solvent curve -> in_unit (computeMaxDrawdown curve) = true).
Proof.
  assert (Hge : forall l acc, is_nan acc.2 = false -> 0 <= frank acc.2 ->
    is_nan (fold_left drawdown_step l acc).2 = false /\ 0 <= frank (fold_left drawdown_step l acc).2).
  { induction l as [|p l IH]; intros acc Hn H0; [done|]. cbn [fold_left].
    destruct (drawdown_step_worst p acc Hn H0). by apply IH. }
  assert (Hunit : forall l acc, Forall solvent l -> is_fin acc.1 = true -> 0 <= frank acc.1 ->
    in_unit acc.2 = true -> in_unit (fold_left drawdown_step l acc).2 = true).
  { induction l as [|p l IH]; intros acc Hl Hf H0 Hu; [done|]. apply Forall_cons in Hl as [Hp Hl].
    cbn [fold_left]. destruct (drawdown_step_unit p acc Hp Hf H0 Hu) as (? & ? & ?). by apply IH. }
  unfold computeMaxDrawdown. destruct curve as [|p curve]; [done|].
  destruct (Hge (p :: curve) (eq_Equity p, 0%float) eq_refl ltac:(cbn [snd]; rewrite frank_zero; lia)) as [Hn H0].
  split; [done|]. split; [rewrite fltb_rank, frank_zero by done; lia|]. intros Hs.
  pose proof Hs as [[Hf Hp] _]%Forall_cons. by apply Hunit.
Qed.

(** The win rate is a fraction, whatever the profits. *)
Theorem win_rate_unit pnls : len pnls < 2 ^ 53 -> in_unit (computeWinRate pnls) = true.
Proof.
  unfold computeWinRate. intros Hl. destruct (Z.eqb_spec (len pnls) 0) as [|Hne]; [done|].
  assert (Hw : forall l w, w <= fold_left (fun wins p => if (0 <? p)%float then wins + 1 else wins) l w <= w + len l).
  { induction l as [|p l IH]; intros w; [unfold len; cbn; lia|]. cbn [fold_left].
    specialize (IH (if (0 <? p)%float then w + 1 else w)). unfold len in *. cbn [length].
    destruct (0 <? p)%float; lia. }
  specialize (Hw pnls 0). set (wins := fold_left _ pnls 0) in *. assert (0 <= len pnls) by (unfold len; lia).
  pose proof (pow2_pos 1074 ltac:(lia)) as H2.
  apply fdiv_unit; [apply float_of_int_fin; unfold in_int64, min_int64, max_int64; lia..| |];
    rewrite !float_of_int_exact by lia; nia.
Qed.

(** *** Daily buckets *)

(** The point a day is valued at: the first of its latest ones. *)
Fixpoint latest (best : option EquityPoint) (points : list EquityPoint) : option EquityPoint :=
  match points with
  | [] => best
  | p :: points' =>
      latest (match best with
              | None => Some p
              | Some q => if After (eq_At p) (eq_At q) then Some p else Some q
              end) points'
  end.

Definition on_date (day : string) (curve : list EquityPoint) : list EquityPoint :=
  List.filter (fun p => str_eqb (FormatDate (eq_At p)) day) curve.

Definition valued (day : string) (curve : list EquityPoint) : option (float * Time) :=
  (fun p => (eq_Equity p, eq_At p)) <$> latest None (on_date day curve).

Fixpoint first_seen (days : list string) : list string :=
  match days with
  | [] => []
  | d :: days' => d :: List.filter (fun d' => negb (str_eqb d' d)) (first_seen days')
  end.

Lemma latest_snoc l p : forall b, latest b (l ++ [p]) =
  match latest b l with
  | None => Some p
  | Some q => if After (eq_At p) (eq_At q) then Some p else Some q
  end.
Proof. induction l as [|x l IH]; intros b; [done|]. cbn. apply IH. Qed.

Lemma first_seen_snoc l d : first_seen (l ++ [d]) =
  if bool_decide (d ∈ l) then first_seen l else first_seen l ++ [d].
Proof.
  induction l as [|x l IH]; [done|]. cbn [app first_seen]. rewrite IH. unfold str_eqb.
  destruct (bool_decide_reflect (d ∈ l)) as [Hin|Hni].
  - by rewrite bool_decide_eq_true_2 by (by right).
  - rewrite List.filter_app. cbn. destruct (decide (d = x)) as [->|Hne].
    + rewrite (bool_decide_eq_true_2 (x = x)), (bool_decide_eq_true_2 (x ∈ x :: l)) by (done || by left).
      by rewrite app_nil_r.
    + rewrite (bool_decide_eq_false_2 (d = x)) by done. cbn. rewrite bool_decide_eq_false_2; [done|].
      intros [?|?]%elem_of_cons; done.
Qed.

Lemma bucket_fold curve : let '(byDay, order) := fold_left bucket_step curve (∅, []) in
  order = first_seen ((fun p => FormatDate (eq_At p)) <$> curve) /\
  (forall d, byDay !! d = valued d curve) /\
  (forall d, is_Some (byDay !! d) <-> d ∈ (fun p => FormatDate (eq_At p)) <$> curve).
Proof.
  induction curve as [|p curve IH] using rev_ind.
  { cbn. split; [done|]. split; [intros d; by rewrite lookup_empty|]. intros d. rewrite lookup_empty.
    split; [by intros []|by intros ?%not_elem_of_nil]. }
  rewrite fold_left_app. destruct (fold_left bucket_step curve _) as [byDay order].
  destruct IH as (IHo & IHv & IHi). cbn [fold_left bucket_step]. rewrite fmap_app. cbn [fmap list_fmap].
  rewrite first_seen_snoc. set (day := FormatDate (eq_At p)).
  assert (Hv : forall d, valued d (curve ++ [p]) =
    if bool_decide (day = d) then
      match byDay !! d with
      | None => Some (eq_Equity p, eq_At p)
      | Some (e, t) => if After (eq_At p) t then Some (eq_Equity p, eq_At p) else Some (e, t)
      end
    else byDay !! d).
  { intros d. rewrite IHv. unfold valued, on_date, str_eqb. rewrite List.filter_app. cbn [List.filter].
    fold day. destruct (bool_decide (day = d)); [|by rewrite app_nil_r].
    rewrite latest_snoc. destruct (latest None _) as [q|]; [|done]. cbn. by destruct (After _ _). }
  destruct (byDay !! day) as [[e t]|] eqn:E.
  - assert (Hin : day ∈ (fun p => FormatDate (eq_At p)) <$> curve) by (apply IHi; by rewrite E).
    rewrite bool_decide_eq_true_2 by done. split; [done|]. split.
    + intros d. rewrite Hv. destruct (bool_decide_reflect (day = d)) as [<-|Hne].
      * rewrite E. by destruct (After (eq_At p) t); [rewrite lookup_insert_eq|rewrite E].
      * by destruct (After _ _); [rewrite lookup_insert_ne|].
    + intros d. rewrite elem_of_app, list_elem_of_singleton, <- IHi.
      destruct (After (eq_At p) t); [|split; [by left|intros [? | ->]; [done|by rewrite E]]].
      destruct (decide (day = d)) as [<-|Hne]; [rewrite lookup_insert_eq; split; [by right|done]|].
      rewrite lookup_insert_ne by done. split; [by left|intros [?|?]; [done|by subst]].
  - assert (Hni : day ∉ (fun p => FormatDate (eq_At p)) <$> curve)
      by (rewrite <- IHi, E; by intros []).
    rewrite bool_decide_eq_false_2 by done. split; [by rewrite IHo|]. split.
    + intros d. rewrite Hv. destruct (bool_decide_reflect (day = d)) as [<-|Hne];
        [by rewrite E, lookup_insert_eq|by rewrite lookup_insert_ne].
    + intros d. rewrite elem_of_app, list_elem_of_singleton, <- IHi.
      destruct (decide (day = d)) as [<-|Hne]; [rewrite lookup_insert_eq; split; [by right|done]|].
      rewrite lookup_insert_ne by done. split; [by left|intros [?|?]; [done|by subst]].
Qed.

(** The daily buckets are the equities at the end of each day: one per UTC
    day of the curve, in the order the days first appear, each that of the
    latest point of the day. *)
Theorem bucketByDay_spec curve :
  Some <$> bucketByDay curve =
  (fun d => fst <$> valued d curve) <$> first_seen ((fun p => FormatDate (eq_At p)) <$> curve).
Proof.
  unfold bucketByDay. pose proof (bucket_fold curve) as H.
  destruct (fold_left bucket_step curve _) as [byDay order]. destruct H as (-> & Hv & Hi).
  rewrite <- list_fmap_compose. apply list_fmap_ext. intros i d Hd. cbn. rewrite <- Hv.
  assert (Hin : d ∈ (fun p => FormatDate (eq_At p)) <$> curve).
  { apply list_elem_of_lookup_2 in Hd. revert Hd. generalize ((fun p => FormatDate (eq_At p)) <$> curve) as l.
    induction l as [|x l IH]; [done|]. cbn. intros [->|Hd]%elem_of_cons; [by left|].
    right. apply IH. apply list_elem_of_In, List.filter_In in Hd as [Hd _]. by apply list_elem_of_In. }
  apply Hi in Hin as [[e t] ->]. done.
Qed.

(** ** A run *)

Section Runs.
Context {T : Type} {R : Replayed T} {SS : SliceSort} (SL : SliceSortLaws SS).
Context (Error : gerror -> string) (unicode_upper : string -> string).

(** The instants a period is ticked at. *)
Definition cursors (period : BacktestPeriod) : list Time :=
  (fun k => per_Start period + Z.of_nat k * TickInterval period) <$>
  seq 0 (Z.to_nat ((per_End period - per_Start period) / TickInterval period + 1)).

(** The ticks one after the other, up to the first that stops. *)
Fixpoint replay_all (cfg : BacktestEngineConfig T) (ticks : list Time) (s : replay_state)
    : (string * gerror) + replay_state :=
  match ticks with
  | [] => inr s
  | t :: ticks' =>
      match replay_tick Error cfg t s with
      | inl stopped => inl stopped
      | inr s => replay_all cfg ticks' s
      end
  end.

Lemma replay_loop_all cfg period n : 0 < TickInterval period -> forall fuel cursor s,
  (n < fuel)%nat -> per_End period < cursor + Z.of_nat n * TickInterval period ->
  (n = 0%nat \/ cursor + (Z.of_nat n - 1) * TickInterval period <= per_End period) ->
  replay_loop Error fuel cfg period cursor s =
  Some (replay_all cfg ((fun k => cursor + Z.of_nat k * TickInterval period) <$> seq 0 n) s).
Proof.
  intros Hi. induction n as [|n IH]; intros [|fuel] cursor s Hf Hend Hin; [lia| |lia|].
  - cbn [replay_loop]. unfold After. rewrite (proj2 (Z.ltb_lt _ _)) by lia. done.
  - cbn [replay_loop]. unfold After. destruct Hin as [|Hin]; [lia|].
    rewrite (proj2 (Z.ltb_ge _ _)) by nia.
    cbn [seq fmap list_fmap replay_all]. rewrite Z.add_0_r.
    destruct (replay_tick Error cfg cursor s) as [|s']; [done|].
    rewrite IH; [|lia|unfold Add; lia|].
    + f_equal. f_equal. rewrite <- fmap_S_seq, <- list_fmap_compose. apply list_fmap_ext.
      intros _ k _. cbn. unfold Add. lia.
    + unfold Add. destruct n; [by left|right; lia].
Qed.

Lemma replay_loop_cursors cfg period s : 0 < TickInterval period -> per_Start period < per_End period ->
  replay_loop Error (replay_fuel period) cfg period (per_Start period) s
  = Some (replay_all cfg (cursors period) s).
Proof.
  intros Hi Hp. unfold cursors, replay_fuel.
  set (q := (per_End period - per_Start period) / TickInterval period).
  assert (Hq : 0 <= q) by (apply Z.div_pos; lia).
  assert (Hm : q * TickInterval period <= per_End period - per_Start period < (q + 1) * TickInterval period)
    by (subst q; Z.to_euclidean_division_equations; nia).
  apply replay_loop_all; [done|lia|rewrite Z2Nat.id by lia; lia|]. right. rewrite Z2Nat.id by lia. lia.
Qed.

(** What the positions are marked at, on the chain and the task as a tick left
    them. *)
Definition marked (cfg : BacktestEngineConfig T) (at_ : MockChainClient * T) : result float :=
  match PnLValuation cfg with
  | Some valuation => valuation at_.1
  | None => Ok match bt_value at_.1 at_.2 with Ok v => v | Fail _ => 0%float end
  end.

(** A tick that went through: when, what it traded, and the mark after it. *)
Record replayed_tick := { rt_at : Time; rt_trades : list Trade; rt_mark : float }.

(** The chain and the task go from one tick to the next. *)
Inductive replays (cfg : BacktestEngineConfig T) : MockChainClient * T -> list replayed_tick -> MockChainClient * T -> Prop :=
  | rp_none : forall at_, replays cfg at_ [] at_
  | rp_tick : forall mock task r rest at_ last,
      bt_tick (SetCursor mock (rt_at r)) task = (Ok (rt_trades r), at_) -> marked cfg at_ = Ok (rt_mark r) ->
      replays cfg at_ rest last -> replays cfg (mock, task) (r :: rest) last.

(** A tick that ends the run: it fails, or the mark after it does. *)
Definition tick_fails (cfg : BacktestEngineConfig T) (at_ : MockChainClient * T) (t : Time) (err : gerror) : Prop :=
  match bt_tick (SetCursor at_.1 t) at_.2 with
  | (Fail e, _) => e = err
  | (Ok _, after) => marked cfg after = Fail err
  end.

Definition traded (ticks : list replayed_tick) : list Trade := ticks ≫= rt_trades.

(** The equity after each tick: the capital, the profits of every trade so far,
    and the mark. *)
Fixpoint curve_of (cfg : BacktestEngineConfig T) (before : list Trade) (ticks : list replayed_tick) : list EquityPoint :=
  match ticks with
  | [] => []
  | r :: ticks' =>
      let sofar := before ++ rt_trades r in
      {| eq_At := rt_at r; eq_Equity := (bc_StartCapital cfg + sumPnLSlice (tr_PnL <$> sofar) + rt_mark r)%float |}
      :: curve_of cfg sofar ticks'
  end.

Definition run_curve (cfg : BacktestEngineConfig T) (start : Time) (ticks : list replayed_tick) : list EquityPoint :=
  {| eq_At := start; eq_Equity := bc_StartCapital cfg |} :: curve_of cfg [] ticks.

Lemma curve_of_last cfg ticks r : forall before,
  last (curve_of cfg before (ticks ++ [r])) = Some {| eq_At := rt_at r; eq_Equity :=
    (bc_StartCapital cfg + sumPnLSlice (tr_PnL <$> before ++ traded (ticks ++ [r])) + rt_mark r)%float |}.
Proof.
  induction ticks as [|x ticks IH]; intros before; cbn [app curve_of].
  { cbn. by rewrite app_nil_r. }
  rewrite last_cons, IH. unfold traded. cbn [mbind list_bind]. by rewrite app_assoc.
Qed.

Lemma replay_tick_spec cfg t s :
  match replay_tick Error cfg t s with
  | inl (_, err) => tick_fails cfg (rs_mock s, rs_task s) t err
  | inr s' => exists r, rt_at r = t /\
      bt_tick (SetCursor (rs_mock s) t) (rs_task s) = (Ok (rt_trades r), (rs_mock s', rs_task s')) /\
      marked cfg (rs_mock s', rs_task s') = Ok (rt_mark r) /\
      s' = mark_equity cfg t s (rt_trades r) (rs_mock s') (rs_task s') (rt_mark r)
  end.
Proof.
  unfold replay_tick, tick_fails, marked. cbn [fst snd].
  destruct (bt_tick _ _) as [[trs|err] [mock task]]; [|done]. destruct (PnLValuation cfg) as [valuation|]; cbn [fst snd].
  - destruct (valuation mock) as [v|] eqn:Em; [|done]. exists {| rt_at := t; rt_trades := trs; rt_mark := v |}. done.
  - eexists {| rt_at := t; rt_trades := trs; rt_mark := _ |}. split_and!; done.
Qed.

(** The loop over [ticks]: the ticks it went through, what it kept of them, and
    the one it stopped at. *)
Lemma replay_all_spec cfg ticks : forall s, rs_pnls s = tr_PnL <$> rs_trades s ->
  match replay_all cfg ticks s with
  | inl (_, err) => exists ran at_ t rest, replays cfg (rs_mock s, rs_task s) ran at_ /\
      ticks = (rt_at <$> ran) ++ t :: rest /\ tick_fails cfg at_ t err
  | inr s' => exists ran, replays cfg (rs_mock s, rs_task s) ran (rs_mock s', rs_task s') /\
      rt_at <$> ran = ticks /\ rs_trades s' = rs_trades s ++ traded ran /\
      rs_curve s' = rs_curve s ++ curve_of cfg (rs_trades s) ran /\ rs_pnls s' = tr_PnL <$> rs_trades s'
  end.
Proof.
  induction ticks as [|t ticks IH]; intros s Hp; cbn [replay_all].
  { exists []. rewrite !app_nil_r. split_and!; [constructor|done..]. }
  pose proof (replay_tick_spec cfg t s) as Ht. destruct (replay_tick Error cfg t s) as [[notes err]|s'].
  { exists [], (rs_mock s, rs_task s), t, ticks. split_and!; [constructor|done|exact Ht]. }
  destruct Ht as (r & <- & Hb & Hm & Hs).
  assert (Hp' : rs_pnls s' = tr_PnL <$> rs_trades s') by (rewrite Hs; cbn; by rewrite Hp, fmap_app).
  assert (Et : rs_trades s' = rs_trades s ++ rt_trades r) by (by rewrite Hs).
  specialize (IH s' Hp'). destruct (replay_all cfg ticks s') as [[notes err]|s''].
  - destruct IH as (ran & at_ & t & rest & H1 & -> & H3). exists (r :: ran), at_, t, rest.
    split_and!; [by eapply rp_tick|done|done].
  - destruct IH as (ran & H1 & <- & H2 & H3 & H4). exists (r :: ran). split_and!; [by eapply rp_tick|done| | |done].
    + rewrite H2, Et. unfold traded. cbn [mbind list_bind]. by rewrite app_assoc.
    + rewrite H3, Et. cbn [curve_of]. rewrite <- Et, <- Hp'.
      assert (Ec : rs_curve s' = rs_curve s ++ [{| eq_At := rt_at r; eq_Equity :=
        (bc_StartCapital cfg + sumPnLSlice (rs_pnls s') + rt_mark r)%float |}]) by (by rewrite Hs).
      by rewrite Ec, <- app_assoc.
Qed.

Lemma sharpe_curve_perm curve : sharpe_curve curve ≡ₚ curve.
Proof. unfold sharpe_curve. destruct (_ <? 2); [done|apply sort_slice_perm]. Qed.

(** What a run with trades and a curve reports. *)
Record reported (cfg : BacktestEngineConfig T) (start : Time) (ticks : list replayed_tick) (res : BacktestResult) : Prop := {
  rr_trades : Trades res = traded ticks;
  rr_count : TradeCount res = len (traded ticks);
  rr_wins : WinRate res = computeWinRate (tr_PnL <$> traded ticks);
  rr_curve : EquityCurve res ≡ₚ run_curve cfg start ticks;
  rr_drawdown : MaxDrawdown res = computeMaxDrawdown (run_curve cfg start ticks);
  rr_sharpe : Sharpe res = computeSharpe (run_curve cfg start ticks);
  rr_end : exists r, last ticks = Some r /\
    EndEquity res = (bc_StartCapital cfg + sumPnLSlice (tr_PnL <$> traded ticks) + rt_mark r)%float;
  rr_pnl : TotalPnL res = (EndEquity res - bc_StartCapital cfg)%float;
}.

(** C35: An engine that was accepted runs any period that is not empty to an end,
    on the chain and the task its builder made: it ticks the task at every interval
    of the period, both ends included, each tick on what the last one left, up to
    the first tick or mark that fails, whose error it returns with a result that
    claims nothing.  When none fails, the trades are those the ticks returned, in
    order, and the curve has the starting capital and, after each tick, the capital,
    the profits of the trades so far and the mark of the positions at that tick;
    the other figures are those of these trades and of this curve. *)
Theorem Run_spec cfg0 cfg genome period :
  NewBacktestEngine cfg0 = Ok cfg -> per_Start period < per_End period -> 0 < TickInterval period ->
  exists build, Builder cfg = Some build /\
  let made := build (SetCursor (NewMockChainClient unicode_upper (MockConfig cfg) (PriceRows cfg)) (per_Start period)) genome in
  match Run Error unicode_upper cfg genome period with
  | None => False
  | Some (Some res, None) => exists at_ ticks last, made = Ok at_ /\ replays cfg at_ ticks last /\
      rt_at <$> ticks = cursors period /\ reported cfg (per_Start period) ticks res
  | Some (Some res, Some err) =>
      (exists at_ ran now t rest, made = Ok at_ /\ replays cfg at_ ran now /\
        cursors period = (rt_at <$> ran) ++ t :: rest /\ tick_fails cfg now t err) /\
      Trades res = [] /\ EndEquity res = StartCapital res /\ Passed res = false
  | Some (None, err) => exists e, made = Fail e /\ err = Some (EWrap "backtesting: builder: %w" e)
  end.
Proof.
  intros Hnew Hp Hi. destruct (Builder cfg) as [build|] eqn:Eb.
  2:{ unfold NewBacktestEngine in Hnew. destruct (Builder cfg0) as [b|]; [|done].
      destruct (_ =? 0); [done|]. injection Hnew as <-. done. }
  exists build. split; [done|]. cbn zeta. unfold Run, After.
  rewrite (proj2 (Z.ltb_lt _ _) Hp), (proj2 (Z.leb_gt _ _) Hi), Eb. cbn [negb].
  destruct (build _ genome) as [[mock task]|e]; [|by exists e]. rewrite replay_loop_cursors by done.
  set (s0 := {| rs_mock := mock |}). pose proof (replay_all_spec cfg (cursors period) s0 eq_refl) as H.
  destruct (replay_all _ _ _) as [[notes err]|s].
  { destruct H as (ran & at_ & t & rest & H1 & H2 & H3). split; [|done]. by exists (mock, task), ran, at_, t, rest. }
  destruct H as (ran & H1 & H2 & H3 & H4 & H5). cbn [s0 rs_trades rs_curve app] in H3, H4.
  exists (mock, task), ran, (rs_mock s, rs_task s). split_and!; [done|exact H1|exact H2|].
  change (rs_curve s = run_curve cfg (per_Start period) ran) in H4. rewrite H3 in H5.
  constructor; cbn [full_result Trades TradeCount WinRate EquityCurve MaxDrawdown Sharpe EndEquity TotalPnL];
    rewrite ?H3, ?H4, ?H5; try done; [apply sharpe_curve_perm|].
  destruct ran as [|r ran _] using rev_ind.
  { exfalso. revert H2. unfold cursors. assert (Hq : 0 <= (per_End period - per_Start period) / TickInterval period)
      by (apply Z.div_pos; lia). rewrite Z2Nat.inj_add by lia. cbn. rewrite Nat.add_1_r. done. }
  exists r. split; [by rewrite last_snoc|]. unfold last_equity, run_curve. rewrite last_cons, curve_of_last. done.
Qed.
End Runs.

(** ** A backtest *)

#[local] Existing Instance insertion_slice_sort.

Definition no_order (k : nat) (V : Type) : range_order string V := map_to_list.

#[local] Existing Instance lp_task.
#[local] Instance sample_replayed : Replayed LiquidityProvision := strategy_replayed plain no_order.

Definition sample_engine : BacktestEngineConfig LiquidityProvision := {|
  Builder := Some (fun mock _ =>
    match NewLiquidityProvision plain (Some {[ "base" ]}) sample_config with
    | Ok l => Ok (mock, SeedFreeCapital l 1000)
    | Fail err => Fail err
    end);
  MockConfig := {| m_ChainName := "base"; m_NativeToken := "ETH"; m_SlippageBps := 0; m_FeeBps := 0; m_InitialBalance := 0 |};
  PriceRows := [observed (minute 0) 100];
  bc_StartCapital := 1000; PnLValuation := None |}.

Definition ten_minutes : BacktestPeriod := {|
  per_Start := minute 0; per_End := minute 10; TickInterval := 2 * Minute |}.

Definition no_text (e : gerror) : string := "".

Definition flat_run : option (option BacktestResult * option gerror) :=
  Run no_text plain sample_engine sample_A ten_minutes.

Lemma Run_spec_witness :
  match flat_run with
  | Some (Some res, None) => exists ticks, rt_at <$> ticks = cursors ten_minutes /\ Trades res = traded ticks /\
      EquityCurve res ≡ₚ run_curve sample_engine (minute 0) ticks
  | _ => False
  end.
Proof.
  destruct (Run_spec insertion_slice_sort_laws no_text plain sample_engine sample_engine sample_A ten_minutes
    eq_refl eq_refl eq_refl) as (build & _ & H). fold flat_run in H.
  assert (E : match flat_run with Some (Some _, None) => true | _ => false end = true)
    by (vm_compute; reflexivity).
  destruct flat_run as [[[res|] [err|]]|]; try discriminate E. destruct H as (at_ & ticks & last & _ & _ & H1 & [H2 _ _ H3 _ _ _ _]).
  by exists ticks.
Defined.

(** The price never moves and no trade makes a profit; the position is counted
    on top of the capital it was bought with, and the offspring passes with its
    capital doubled. *)
Lemma deployed_capital_counts_twice :
  match flat_run with
  | Some (Some res, None) =>
      TotalPnL res = 1000%float /\ tr_PnL <$> Trades res = [0%float] /\ Passed res = true
  | _ => False
  end.
Proof. vm_compute. repeat split. Qed.

Lemma win_rate_unit_witness : in_unit (computeWinRate [0; 3; -1]%float) = true.
Proof. exact (win_rate_unit [0; 3; -1]%float eq_refl). Defined.
