(* ===== verification/ApiTypes.v ===== *)
(** * The rows of the API ([internal/api/types.go], [store.go])

    What the endpoints return, the options of the lists, and the read-only
    store the handlers depend on.  A value of type [any] is a JSON value. *)
From Stdlib Require Import ZArith Floats.
From stdpp Require Import base list strings gmap.
From S2P Require Import Prelude GoBase Json.
Open Scope Z_scope.

Record AgentSummary := {
  ID : string;
  Name : string;
  Chain : string;
  TaskType : string;
  NodeClass : string;
  Status : string;
  HealthState : string;
  Generation : Z;
  LineageDepth : Z;
  CapitalUSD : float;
  CurrentUSD : float;
  TotalPnLUSD : float;
  TotalTrades : Z;
  StrategyModel : string;
  CreatedAt : Time;
}.

Record TradeRow := {
  t_ID : string;
  t_AgentID : string;
  t_AgentName : string;
  t_EpochID : string;
  t_Chain : string;
  t_TradeType : string;
  t_TokenPair : string;
  t_DEX : string;
  t_AmountIn : float;
  t_AmountOut : float;
  t_FeePaidUSD : float;
  t_PnLUSD : float;
  t_TxSignature : string;
  t_IsPaperTrade : bool;
  t_ExecutedAt : Time;
}.

Record AgentDetail := {
  d_AgentSummary : AgentSummary;
  d_ParentID : string;
  d_StrategistPrompt : string;
  d_StrategyConfig : gmap string json;
  d_BanditPolicies : list string;
  d_LearnedRules : list json;
  d_RecentTrades : list TradeRow;
}.

Record EpochRow := {
  e_ID : string;
  e_EpochNumber : Z;
  e_StartedAt : Time;
  e_EndedAt : Time;
  e_TotalAgents : Z;
  e_FundedAgents : Z;
  e_ShadowAgents : Z;
  e_AgentsSpawned : Z;
  e_AgentsKilled : Z;
  e_AgentsPromoted : Z;
  e_TreasuryBalanceUSD : float;
  e_TotalPnLUSD : float;
  e_TotalLLMCostUSD : float;
  e_MonthlySpendUSD : float;
  e_SwarmDiversityScore : float;
  e_MarketRegime : string;
  e_ParentReasoning : string;
  e_CircuitBreakerFired : bool;
}.

Record LineageNode := {
  n_AgentID : string;
  n_Name : string;
  n_NodeClass : string;
  n_Status : string;
  n_Generation : Z;
  n_ParentIDs : list string;
  n_TotalPnLUSD : float;
  n_EvolutionType : string;
}.

Record TreasuryState := {
  ReserveUSD : float;
  TotalCapitalAllocatedUSD : float;
  ts_MonthlySpendUSD : float;
  ts_MonthlyBudgetUSD : float;
  ts_UsedPct : float;
  PerChain : gmap string float;
  ts_UpdatedAt : Time;
}.

Record PostmortemRow := {
  pm_ID : string;
  pm_AgentID : string;
  pm_AgentName : string;
  LifespanEpochs : Z;
  pm_TotalTrades : Z;
  pm_TotalPnLUSD : float;
  pm_TotalLLMCostUSD : float;
  FailureCategory : string;
  LessonsSummary : string;
  Lessons : list json;
  pm_CreatedAt : Time;
}.

Record OffspringRow := {
  o_ID : string;
  ProposingAgentID : string;
  o_EpochID : string;
  RequestedSeedUSD : float;
  RequestedReserveUSD : float;
  Rationale : string;
  o_QualityVerdict : string;
  o_BullCase : string;
  o_BearCase : string;
  AdversarialSynthesis : string;
  o_Status : string;
  RejectionReason : string;
  CreatedChildID : string;
  o_CreatedAt : Time;
}.

Record AgentSpend := { as_AgentID : string; as_Name : string; as_SpentUSD : float }.

Record BudgetState := {
  MonthStart : Time;
  MonthlyBudgetUSD : float;
  SpentUSD : float;
  RemainingUSD : float;
  UsedPct : float;
  PerCategory : gmap string float;
  PerAgent : list AgentSpend;
}.

Record CircuitBreakerState := {
  Tripped : bool;
  cb_Reason : string;
  cb_TrippedAt : Time;
  cb_State : string;
  ResetAfter : Time;
}.

Record BacktestRow := {
  b_ID : string;
  b_Chain : string;
  b_TokenPair : string;
  PeriodStart : Time;
  PeriodEnd : Time;
  InitialCapital : float;
  FinalCapital : float;
  b_TotalPnLUSD : float;
  MaxDrawdownPct : float;
  b_TotalTrades : Z;
  b_WinRate : float;
  b_Sharpe : float;
  b_EquityCurve : list float;
  b_CreatedAt : Time;
}.

Record IntelRow := {
  i_ID : string;
  i_SourceAgentID : string;
  i_SourceAgentName : string;
  i_Channel : string;
  i_SignalType : string;
  i_Sentiment : string;
  i_Confidence : float;
  i_SourceAccuracy : float;
  i_Data : gmap string json;
  i_CreatedAt : Time;
  i_ExpiresAt : Time;
}.

Record ModelPerformance := {
  m_Model : string;
  UsedByAgents : Z;
  Decisions : Z;
  m_TotalCostUSD : float;
  m_PnLUSD : float;
  PnLPerDollar : float;
  AvgInputTokens : Z;
  AvgOutputTokens : Z;
}.

Record EvolutionEvent := {
  ChildID : string;
  ChildName : string;
  ev_ParentID : string;
  ev_ParentName : string;
  SecondParentID : string;
  EvolutionMethod : string;
  Mutations : list string;
  SpawnReasoning : string;
  ev_CreatedAt : Time;
}.

Record EquityPoint := { At : Time; EquityUSD : float }.

Record DashboardSnapshot := {
  TotalAgents : Z;
  FundedAgents : Z;
  ShadowAgents : Z;
  Treasury : TreasuryState;
  s_MonthlySpendUSD : float;
  s_MonthlyBudgetUSD : float;
  EquityCurve : list EquityPoint;
  RecentEpoch : option EpochRow;
  OpenProposals : Z;
  s_UpdatedAt : Time;
}.

(** A list with its length; a nil list is sent empty. *)
Record listResponse (A : Type) := { Items : list A; Count : Z }.
Arguments Items {A}. Arguments Count {A}.

Definition wrapList {A} (items : list A) : listResponse A := {| Items := items; Count := len items |}.

(** ** The store *)

Record ListAgentsOpts := {
  ao_Chain : string;
  ao_NodeClass : string;
  ao_Status : string;
  ao_TaskType : string;
}.

Record ListTradesOpts := { to_AgentID : string; to_Chain : string; to_Limit : Z }.

Record ListIntelOpts := { io_Channel : string; io_Sentiment : string; io_Limit : Z }.

Definition ErrNotFound : gerror := EMsg "api: not found".

(** The store is only read: it is a function of the call. *)
Class Store := {
  ListAgents : ListAgentsOpts -> result (list AgentSummary);
  GetAgent : string -> result AgentDetail;
  ListTrades : ListTradesOpts -> result (list TradeRow);
  ListEpochs : Z -> result (list EpochRow);
  GetLineage : result (list LineageNode);
  GetTreasury : result TreasuryState;
  ListPostmortems : Z -> result (list PostmortemRow);
  ListOffspring : string -> result (list OffspringRow);
  GetBudget : result BudgetState;
  GetCircuitBreaker : result CircuitBreakerState;
  ListBacktests : Z -> result (list BacktestRow);
  ListIntel : ListIntelOpts -> result (list IntelRow);
  ListModels : result (list ModelPerformance);
  ListEvolution : Z -> result (list EvolutionEvent);
  GetDashboardSnapshot : result DashboardSnapshot;
}.
