(* ===== verification/MemoryStore.v ===== *)
(** * The in-process store ([internal/api/memory_store.go]) *)
From Stdlib Require Import ZArith Lia Floats.
From stdpp Require Import base list strings gmap.
From S2P Require Import Prelude GoBase GoFloat GoRound Json ApiTypes.
Set Warnings "-inexact-float".
Open Scope Z_scope.

Record MemoryStore := {
  Agents : list AgentSummary;
  AgentDetails : gmap string AgentDetail;
  Trades : list TradeRow;
  Epochs : list EpochRow;
  Lineage : list LineageNode;
  ms_Treasury : TreasuryState;
  Postmortems : list PostmortemRow;
  Offspring : list OffspringRow;
  Budget : BudgetState;
  Breaker : CircuitBreakerState;
  Backtests : list BacktestRow;
  Intel : list IntelRow;
  Models : list ModelPerformance;
  Evolution : list EvolutionEvent;
  Snapshot : DashboardSnapshot;
}.

(** [opt != "" && field != opt]: the row is passed over. *)
Definition unmatched (opt field : string) : bool := negb (str_eqb opt "") && negb (str_eqb field opt).

Definition agent_matches (opts : ListAgentsOpts) (a : AgentSummary) : bool :=
  negb (unmatched (ao_Chain opts) (Chain a)) && negb (unmatched (ao_NodeClass opts) (NodeClass a)) &&
  negb (unmatched (ao_Status opts) (Status a)) && negb (unmatched (ao_TaskType opts) (TaskType a)).

Definition pnl_desc (a b : AgentSummary) : bool := (TotalPnLUSD b <? TotalPnLUSD a)%float.

Definition MemoryStore_ListAgents (s : MemoryStore) (opts : ListAgentsOpts) : list AgentSummary :=
  insertion_sort pnl_desc (List.filter (agent_matches opts) (Agents s)).

Definition MemoryStore_GetAgent (s : MemoryStore) (id : string) : result AgentDetail :=
  match AgentDetails s !! id with Some d => Ok d | None => Fail ErrNotFound end.

(** The loop of the bounded lists: rows are kept until there are [limit]. *)
Fixpoint keep_rows {A} (matches : A -> bool) (limit : Z) (rows out : list A) : list A :=
  match rows with
  | [] => out
  | r :: rows' =>
      if matches r then
        let out := out ++ [r] in
        if limit <=? len out then out else keep_rows matches limit rows' out
      else keep_rows matches limit rows' out
  end.

Definition default_limit (limit : Z) : Z := if limit <=? 0 then 100 else limit.

Definition trade_matches (opts : ListTradesOpts) (t : TradeRow) : bool :=
  negb (unmatched (to_AgentID opts) (t_AgentID t)) && negb (unmatched (to_Chain opts) (t_Chain t)).

Definition MemoryStore_ListTrades (s : MemoryStore) (opts : ListTradesOpts) : list TradeRow :=
  keep_rows (trade_matches opts) (default_limit (to_Limit opts)) (Trades s) [].

(** The lists bounded by their length. *)
Definition firstRows {A} (limit : Z) (rows : list A) : list A :=
  let limit := if (limit <=? 0) || (len rows <? limit) then len rows else limit in
  take (Z.to_nat limit) rows.

Definition offspring_matches (status : string) (o : OffspringRow) : bool := negb (unmatched status (o_Status o)).

Definition MemoryStore_ListOffspring (s : MemoryStore) (status : string) : list OffspringRow :=
  List.filter (offspring_matches status) (Offspring s).

Definition intel_matches (opts : ListIntelOpts) (r : IntelRow) : bool :=
  negb (unmatched (io_Channel opts) (i_Channel r)) && negb (unmatched (io_Sentiment opts) (i_Sentiment r)).

Definition MemoryStore_ListIntel (s : MemoryStore) (opts : ListIntelOpts) : list IntelRow :=
  keep_rows (intel_matches opts) (default_limit (io_Limit opts)) (Intel s) [].

Definition per_dollar_desc (a b : ModelPerformance) : bool := (PnLPerDollar b <? PnLPerDollar a)%float.

Definition MemoryStore_ListModels (s : MemoryStore) : list ModelPerformance :=
  insertion_sort per_dollar_desc (Models s).

#[export] Instance memory_store (s : MemoryStore) : Store := {|
  ListAgents := fun opts => Ok (MemoryStore_ListAgents s opts);
  GetAgent := MemoryStore_GetAgent s;
  ListTrades := fun opts => Ok (MemoryStore_ListTrades s opts);
  ListEpochs := fun limit => Ok (firstRows limit (Epochs s));
  GetLineage := Ok (Lineage s);
  GetTreasury := Ok (ms_Treasury s);
  ListPostmortems := fun limit => Ok (firstRows limit (Postmortems s));
  ListOffspring := fun status => Ok (MemoryStore_ListOffspring s status);
  GetBudget := Ok (Budget s);
  GetCircuitBreaker := Ok (Breaker s);
  ListBacktests := fun limit => Ok (firstRows limit (Backtests s));
  ListIntel := fun opts => Ok (MemoryStore_ListIntel s opts);
  ListModels := Ok (MemoryStore_ListModels s);
  ListEvolution := fun limit => Ok (firstRows limit (Evolution s));
  GetDashboardSnapshot := Ok (Snapshot s) |}.

(** ** What the lists are *)

Lemma keep_rows_spec {A} (matches : A -> bool) limit rows : 0 < limit -> forall out, len out < limit ->
  keep_rows matches limit rows out = take (Z.to_nat limit) (out ++ List.filter matches rows).
Proof.
  intros Hl. induction rows as [|r rows IH]; intros out Ho; cbn [keep_rows List.filter].
  - rewrite app_nil_r, take_ge; [done|]. unfold len in Ho. lia.
  - destruct (matches r); [|by apply IH]. unfold len in *. rewrite length_app. cbn [length].
    destruct (Z.leb_spec limit (Z.of_nat (length out + 1))).
    + replace (Z.to_nat limit) with (length (out ++ [r])) by (rewrite length_app; cbn [length]; lia).
      by rewrite (cons_middle r out (List.filter matches rows)), (app_assoc out), take_app_length.
    + rewrite IH by (rewrite length_app; cbn [length]; lia). by rewrite <- app_assoc.
Qed.

(** The trades are the first of the matching ones, in the order they are
    stored, as many as the limit, or a hundred, and the same holds of the
    intelligence feed. *)
Theorem bounded_lists s (opts : ListTradesOpts) (iopts : ListIntelOpts) :
  MemoryStore_ListTrades s opts =
    take (Z.to_nat (default_limit (to_Limit opts))) (List.filter (trade_matches opts) (Trades s)) /\
  MemoryStore_ListIntel s iopts =
    take (Z.to_nat (default_limit (io_Limit iopts))) (List.filter (intel_matches iopts) (Intel s)).
Proof.
  assert (Hd : forall l, 0 < default_limit l) by (intros l; unfold default_limit; destruct (Z.leb_spec l 0); lia).
  split; apply (keep_rows_spec _ _ _ (Hd _) []); apply Hd.
Qed.

Lemma firstRows_spec {A} limit (rows : list A) :
  firstRows limit rows = if limit <=? 0 then rows else take (Z.to_nat limit) rows.
Proof.
  unfold firstRows, len. destruct (Z.leb_spec limit 0); cbn [orb]; [by rewrite Nat2Z.id, firstn_all|].
  destruct (Z.ltb_spec (Z.of_nat (length rows)) limit); [|done].
  rewrite Nat2Z.id, firstn_all, take_ge by lia. done.
Qed.

(** The agents are those the filters select, each once, the most profitable
    first, and agents of equal profit stay in the order they are stored. *)
Theorem agents_ranked s opts :
  Forall (fun a => is_nan (TotalPnLUSD a) = false) (Agents s) ->
  let rows := MemoryStore_ListAgents s opts in
  sorted_by pnl_desc rows /\
  rows ≡ₚ List.filter (agent_matches opts) (Agents s) /\
  forall pnl, List.filter (fun a => TotalPnLUSD a =? pnl)%float rows =
              List.filter (fun a => TotalPnLUSD a =? pnl)%float (List.filter (agent_matches opts) (Agents s)).
Proof.
  intros Hn. cbv zeta. unfold MemoryStore_ListAgents.
  assert (Hn' : Forall (fun a => is_nan (TotalPnLUSD a) = false) (List.filter (agent_matches opts) (Agents s))).
  { rewrite Forall_forall in Hn |- *. intros a Ha. apply Hn.
    apply list_elem_of_In, filter_In in Ha as [Ha _]. by apply list_elem_of_In. }
  split; [|split].
  - apply (insertion_sort_sorted (fun a => is_nan (TotalPnLUSD a) = false)); [|done]. by apply float_desc_weak.
  - apply insertion_sort_perm.
  - intros pnl. apply insertion_sort_stable. intros a b Ha Hb. unfold pnl_desc.
    assert (Hnan : forall x, (x =? pnl)%float = true -> is_nan x = false /\ is_nan pnl = false).
    { intros x Hx. destruct (is_nan x) eqn:Nx; [|destruct (is_nan pnl) eqn:Np; [|done]];
        destruct (fcmp_nan x pnl) as (_ & _ & H); [by auto|congruence|by auto|congruence]. }
    destruct (Hnan _ Ha) as [Na Np], (Hnan _ Hb) as [Nb _].
    rewrite feqb_rank in Ha, Hb by done. rewrite fltb_rank by done. lia.
Qed.

(** ** A store *)

Definition no_treasury : TreasuryState := {|
  ReserveUSD := 0; TotalCapitalAllocatedUSD := 0; ts_MonthlySpendUSD := 0; ts_MonthlyBudgetUSD := 0;
  ts_UsedPct := 0; PerChain := ∅; ts_UpdatedAt := 0 |}.

Definition one_agent (id : string) (pnl : float) : AgentSummary := {|
  ID := id; Name := id; Chain := "base"; TaskType := "momentum"; NodeClass := "funded"; Status := "active";
  HealthState := "healthy"; Generation := 0; LineageDepth := 0; CapitalUSD := 0; CurrentUSD := 0;
  TotalPnLUSD := pnl; TotalTrades := 0; StrategyModel := ""; CreatedAt := 0 |}.

Definition one_trade (agent : string) : TradeRow := {|
  t_ID := ""; t_AgentID := agent; t_AgentName := ""; t_EpochID := ""; t_Chain := "base"; t_TradeType := "";
  t_TokenPair := ""; t_DEX := ""; t_AmountIn := 0; t_AmountOut := 0; t_FeePaidUSD := 0; t_PnLUSD := 0;
  t_TxSignature := ""; t_IsPaperTrade := true; t_ExecutedAt := 0 |}.

Definition stored (agents : list AgentSummary) (trades : list TradeRow) : MemoryStore := {|
  Agents := agents; AgentDetails := ∅; Trades := trades; Epochs := []; Lineage := []; ms_Treasury := no_treasury;
  Postmortems := []; Offspring := [];
  Budget := {| MonthStart := 0; MonthlyBudgetUSD := 0; SpentUSD := 0; RemainingUSD := 0; UsedPct := 0;
               PerCategory := ∅; PerAgent := [] |};
  Breaker := {| Tripped := false; cb_Reason := ""; cb_TrippedAt := 0; cb_State := ""; ResetAfter := 0 |};
  Backtests := []; Intel := []; Models := []; Evolution := [];
  Snapshot := {| TotalAgents := 0; FundedAgents := 0; ShadowAgents := 0; Treasury := no_treasury;
    s_MonthlySpendUSD := 0; s_MonthlyBudgetUSD := 0; EquityCurve := []; RecentEpoch := None;
    OpenProposals := 0; s_UpdatedAt := 0 |} |}.

Definition sample_store : MemoryStore :=
  stored [one_agent "a" 1; one_agent "b" 7; one_agent "c" 1] [one_trade "a"; one_trade "b"; one_trade "a"].

Lemma agents_ranked_witness :
  sorted_by pnl_desc (MemoryStore_ListAgents sample_store
    {| ao_Chain := ""; ao_NodeClass := ""; ao_Status := ""; ao_TaskType := "" |}).
Proof.
  exact (proj1 (agents_ranked sample_store _ ltac:(repeat (apply List.Forall_cons; [reflexivity|]); apply List.Forall_nil))).
Defined.
