(* ===== verification/Api.v ===== *)
(** * The API server ([internal/api/server.go], [handlers.go])

    A request goes through the logging, CORS and authentication middleware to
    one of the read-only handlers over the store.  The router is gin's: which
    registered route a path selects is a parameter, and so is the text of an
    error. *)
From Stdlib Require Import ZArith Lia Ascii Floats.
From stdpp Require Import base list strings gmap.
From S2P Require Import Prelude GoBase GoFmt Task Json JsonCodec ApiTypes MemoryStore.
Set Warnings "-inexact-float".
Open Scope Z_scope.

(** ** Configuration *)

Record ServerConfig := {
  cfg_Store : option Store;
  cfg_Subscribe : bool;
  APIKey : string;
  AuthRequired : bool;
  WebSocketEnabled : bool;
  CORSOrigins : list string;
  Channels : list string;
  HeartbeatInterval : Duration;
}.

Record Server := {
  srv_Store : Store;
  srv_cfg : ServerConfig;
  srv_hub : bool;
}.

Definition defaultChannels : list string :=
  ["events:circuit_breaker"; "events:lifecycle"; "events:epoch_completed"; "events:budget";
   "events:intel"; "events:trade"].

Definition NewServer (cfg : ServerConfig) : result Server :=
  match cfg_Store cfg with
  | None => Fail (EMsg "api: store required")
  | Some store =>
      if AuthRequired cfg && str_eqb (APIKey cfg) ""
      then Fail (EMsg "api: api key required when auth enabled")
      else Ok {|
        srv_Store := store;
        srv_cfg := {|
          cfg_Store := cfg_Store cfg; cfg_Subscribe := cfg_Subscribe cfg; APIKey := APIKey cfg;
          AuthRequired := AuthRequired cfg; WebSocketEnabled := WebSocketEnabled cfg;
          CORSOrigins := match CORSOrigins cfg with [] => ["http://localhost:3000"] | os => os end;
          Channels := match Channels cfg with [] => defaultChannels | cs => cs end;
          HeartbeatInterval := if HeartbeatInterval cfg <=? 0 then 30 * Second else HeartbeatInterval cfg |};
        srv_hub := false |}
  end.

(** [Run] starts the hub when the relay is on. *)
Definition Run_hub (s : Server) : Server := {|
  srv_Store := srv_Store s; srv_cfg := srv_cfg s;
  srv_hub := srv_hub s || (WebSocketEnabled (srv_cfg s) && cfg_Subscribe (srv_cfg s)) |}.

(** ** Requests and responses *)

Record request := {
  Method : string;
  Path : string;
  GetHeader : string -> string;
  Query : string -> string;
}.

Inductive body :=
  | BNone
  | BOk
  | BNotFoundPage
  | BUpgrade
  | BError (msg : string)
  | BAgents (rows : listResponse AgentSummary)
  | BAgent (d : AgentDetail)
  | BTrades (rows : listResponse TradeRow)
  | BEpochs (rows : listResponse EpochRow)
  | BLineage (rows : listResponse LineageNode)
  | BTreasury (state : TreasuryState)
  | BPostmortems (rows : listResponse PostmortemRow)
  | BOffspring (rows : listResponse OffspringRow)
  | BBudget (state : BudgetState)
  | BBreaker (state : CircuitBreakerState)
  | BBacktests (rows : listResponse BacktestRow)
  | BIntel (rows : listResponse IntelRow)
  | BModels (rows : listResponse ModelPerformance)
  | BEvolution (rows : listResponse EvolutionEvent)
  | BDashboard (snap : DashboardSnapshot).

Record response := {
  status : Z;
  headers : list (string * string);
  content : body;
}.

(** The routes [routes] registers. *)
Inductive route :=
  | RAgents | RAgent (id : string) | RTrades | REpochs | RLineage | RTreasury | RPostmortems
  | ROffspring | RBudget | RBreaker | RBacktests | RIntelligence | RModels | REvolution | RDashboard
  | RHealthz
  | RWs.

Inductive routed :=
  | Matched (r : route)
  | Redirect (code : Z)
  | NoRoute.

(** ** Helpers *)

(** [strconv.Atoi]. *)
Definition Atoi (s : string) : option Z :=
  let '(neg, ds) :=
    match s with
    | String c s' => if byte c =? 45 then (true, s') else if byte c =? 43 then (false, s') else (false, s)
    | EmptyString => (false, s)
    end in
  if all_digits ds && negb (str_eqb ds "") then
    let z := if neg then - digits_value 0 ds else digits_value 0 ds in
    if (min_int64 <=? z) && (z <=? max_int64) then Some z else None
  else None.

Definition queryInt (req : request) (name : string) (max : Z) : Z :=
  let raw := TrimSpace (Query req name) in
  if str_eqb raw "" then 0
  else
    match Atoi raw with
    | None => 0
    | Some n => if n <? 0 then 0 else if max <? n then max else n
    end.

Section Server.
Context (find_route : string -> string -> routed) (Error : gerror -> string).

Definition respondError (err : gerror) : Z * body :=
  if errors_Is err ErrNotFound then (404, BError "not found")
  else (500, BError ("internal: " +:+ Error err)).

(** The shape of every handler. *)
Definition respond {A} (r : result A) (shape : A -> body) : Z * body :=
  match r with Ok a => (200, shape a) | Fail err => respondError err end.

(** ** Handlers *)

Definition handle (s : Server) (r : route) (req : request) : Z * body :=
  let store := srv_Store s in
  match r with
  | RAgents =>
      respond (ListAgents {| ao_Chain := Query req "chain"; ao_NodeClass := Query req "node_class";
                             ao_Status := Query req "status"; ao_TaskType := Query req "task_type" |})
        (fun rows => BAgents (wrapList rows))
  | RAgent id => respond (GetAgent id) BAgent
  | RTrades =>
      respond (ListTrades {| to_AgentID := Query req "agent_id"; to_Chain := Query req "chain";
                             to_Limit := queryInt req "limit" 1000 |}) (fun rows => BTrades (wrapList rows))
  | REpochs => respond (ListEpochs (queryInt req "limit" 500)) (fun rows => BEpochs (wrapList rows))
  | RLineage => respond GetLineage (fun rows => BLineage (wrapList rows))
  | RTreasury => respond GetTreasury BTreasury
  | RPostmortems => respond (ListPostmortems (queryInt req "limit" 500)) (fun rows => BPostmortems (wrapList rows))
  | ROffspring => respond (ListOffspring (Query req "status")) (fun rows => BOffspring (wrapList rows))
  | RBudget => respond GetBudget BBudget
  | RBreaker => respond GetCircuitBreaker BBreaker
  | RBacktests => respond (ListBacktests (queryInt req "limit" 200)) (fun rows => BBacktests (wrapList rows))
  | RIntelligence =>
      respond (ListIntel {| io_Channel := Query req "channel"; io_Sentiment := Query req "sentiment";
                            io_Limit := queryInt req "limit" 1000 |}) (fun rows => BIntel (wrapList rows))
  | RModels => respond ListModels (fun rows => BModels (wrapList rows))
  | REvolution => respond (ListEvolution (queryInt req "limit" 500)) (fun rows => BEvolution (wrapList rows))
  | RDashboard => respond GetDashboardSnapshot BDashboard
  | RHealthz => (200, BOk)
  | RWs => if srv_hub s then (101, BUpgrade) else (503, BError "websocket disabled")
  end.

(** ** Middleware *)

(** [c.Header]: a header replaces the one of its name; these are all new. *)
Definition corsHeaders (origins : list string) (req : request) : list (string * string) :=
  let origin := GetHeader req "Origin" in
  if mem origin origins then
    [("Access-Control-Allow-Origin", origin); ("Vary", "Origin");
     ("Access-Control-Allow-Headers", "Content-Type, X-Api-Key");
     ("Access-Control-Allow-Methods", "GET, OPTIONS")]
  else [].

(** [authMiddleware]: the header, or without it the query parameter. *)
Definition authorized (key : string) (req : request) : bool :=
  let got := GetHeader req "X-Api-Key" in
  let got := if str_eqb got "" then Query req "api_key" else got in
  str_eqb got key.

(** The routes in the groups behind the key. *)
Definition guarded (r : route) : bool := match r with RHealthz => false | _ => true end.

Definition after_cors (s : Server) (req : request) (r : option route) : Z * body :=
  match r with
  | None => (404, BNotFoundPage)
  | Some r =>
      if AuthRequired (srv_cfg s) && guarded r && negb (authorized (APIKey (srv_cfg s)) req)
      then (401, BError "unauthorized")
      else handle s r req
  end.

(** A request served by the engine; gin redirects before any middleware. *)
Definition ServeHTTP (s : Server) (req : request) : response :=
  let through r :=
    let hs := corsHeaders (CORSOrigins (srv_cfg s)) req in
    if str_eqb (Method req) "OPTIONS" then {| status := 204; headers := hs; content := BNone |}
    else let '(code, b) := after_cors s req r in {| status := code; headers := hs; content := b |} in
  match find_route (Method req) (Path req) with
  | Redirect code => {| status := code; headers := []; content := BNone |}
  | Matched r => through (Some r)
  | NoRoute => through None
  end.

(** ** What a client can see *)

(** The server with other data. *)
Definition with_store (s : Server) (store : Store) : Server := {|
  srv_Store := store; srv_cfg := srv_cfg s; srv_hub := srv_hub s |}.

Definition is_data (b : body) : bool :=
  match b with BNone | BOk | BNotFoundPage | BError _ => false | _ => true end.

(** When authentication is on, a request without the key learns nothing:
    its response is the same whatever the store holds, and is no data. *)
Theorem unauthorized_sees_nothing s req store :
  AuthRequired (srv_cfg s) = true -> authorized (APIKey (srv_cfg s)) req = false ->
  ServeHTTP s req = ServeHTTP (with_store s store) req /\ is_data (content (ServeHTTP s req)) = false.
Proof.
  intros Ha Hk. unfold ServeHTTP. cbn [srv_cfg with_store].
  assert (H : forall r, after_cors s req r = after_cors (with_store s store) req r /\
                        is_data (after_cors s req r).2 = false).
  { intros [r|]; [|done]. unfold after_cors. cbn [srv_cfg with_store]. rewrite Ha, Hk. by destruct r. }
  destruct (find_route (Method req) (Path req)) as [r|code|]; [|done|];
    (destruct (str_eqb (Method req) "OPTIONS"); [done|]);
    [destruct (H (Some r)) as [E Hd]|destruct (H None) as [E Hd]];
    rewrite <- E; destruct (after_cors s req _) as [code b]; done.
Qed.

(** A handler's status is the store's answer: 200 with the rows, 404 when
    the error is, or wraps, [ErrNotFound], and 500 for any other; a body of data
    never comes with an error. *)
Theorem handler_status s req r :
  AuthRequired (srv_cfg s) && guarded r && negb (authorized (APIKey (srv_cfg s)) req) = false ->
  find_route (Method req) (Path req) = Matched r -> str_eqb (Method req) "OPTIONS" = false ->
  let resp := ServeHTTP s req in
  (is_data (content resp) = true -> status resp = 200 \/ r = RWs) /\
  (status resp = 404 -> content resp = BError "not found") /\
  match r with
  | RAgent id =>
      match @GetAgent (srv_Store s) id with
      | Ok d => status resp = 200 /\ content resp = BAgent d
      | Fail err => status resp = if errors_Is err ErrNotFound then 404 else 500
      end
  | _ => True
  end.
Proof.
  intros Ha Hr Ho. cbv zeta. unfold ServeHTTP. rewrite Hr, Ho. unfold after_cors. rewrite Ha.
  assert (H : forall {A} (x : result A) shape, (forall a, is_data (shape a) = true) ->
    let '(code, b) := respond x shape in
    (is_data b = true -> code = 200) /\ (code = 404 -> b = BError "not found")).
  { intros A [a|err] shape Hs; unfold respond, respondError; [by rewrite Hs|].
    by destruct (errors_Is err ErrNotFound). }
  destruct r; cbn [handle];
    try (match goal with |- context [respond ?x ?f] =>
           pose proof (H _ x f (fun _ => eq_refl)) as Hx; destruct (respond x f) as [code b] eqn:E end;
         cbn [status content]; destruct Hx as [H1 H2]; split; [auto|split; [exact H2|]]); try done.
  - unfold respond, respondError in E. destruct (GetAgent id) as [d|err]; [by injection E as <- <-|].
    destruct (errors_Is err ErrNotFound); by injection E as <- _.
  - destruct (srv_hub s); cbn [status content]; repeat split; auto; done.
Qed.

(** Only an origin on the list is ever allowed, and it is named itself:
    no response carries a wildcard or another origin. *)
Theorem cors_only_listed s req v :
  ("Access-Control-Allow-Origin", v) ∈ headers (ServeHTTP s req) ->
  v = GetHeader req "Origin" /\ v ∈ CORSOrigins (srv_cfg s).
Proof.
  assert (H : ("Access-Control-Allow-Origin", v) ∈ corsHeaders (CORSOrigins (srv_cfg s)) req ->
    v = GetHeader req "Origin" /\ v ∈ CORSOrigins (srv_cfg s)).
  { unfold corsHeaders. destruct (mem _ _) eqn:E; [|intros Hv; by apply elem_of_nil in Hv].
    apply mem_spec in E. intros Hv. repeat (apply elem_of_cons in Hv as [Hv|Hv]; [injection Hv as ->; by split|]).
    by apply elem_of_nil in Hv. }
  unfold ServeHTTP. destruct (find_route _ _); [|intros Hv; by apply elem_of_nil in Hv|];
    (destruct (str_eqb (Method req) "OPTIONS"); [exact H|]);
    destruct (after_cors s req _); exact H.
Qed.
End Server.

(** ** Limits *)

(** A limit is between zero and the endpoint's bound, whatever the query
    says; text that is not a number, a negative number, and a number beyond
    [int] all count as no limit. *)
Theorem queryInt_spec req name max : 0 <= max ->
  let n := queryInt req name max in
  0 <= n <= max /\
  n = match Atoi (TrimSpace (Query req name)) with
      | Some z => Z.max 0 (Z.min z max)
      | None => 0
      end.
Proof.
  intros Hm. cbv zeta. unfold queryInt, str_eqb.
  destruct (bool_decide_reflect (TrimSpace (Query req name) = "")) as [->|_]; [split; [lia|done]|].
  destruct (Atoi _) as [n|]; [|lia].
  destruct (Z.ltb_spec n 0), (Z.ltb_spec max n); lia.
Qed.

Definition plain_error (e : gerror) : string := match e with EMsg m => m | EWrap m _ => m end.

(** ** A server at work *)

Definition sample_server : Server := {|
  srv_Store := memory_store sample_store;
  srv_cfg := {| cfg_Store := None; cfg_Subscribe := false; APIKey := "k"; AuthRequired := true;
    WebSocketEnabled := false; CORSOrigins := ["http://localhost:3000"]; Channels := []; HeartbeatInterval := 0 |};
  srv_hub := false |}.

(** A router that knows three of the routes. *)
Definition some_routes (method path : string) : routed :=
  if str_eqb path "/api/agents" then Matched RAgents
  else if str_eqb path "/api/agents/a" then Matched (RAgent "a")
  else if str_eqb path "/healthz" then Matched RHealthz else NoRoute.

Definition get (path key : string) : request := {|
  Method := "GET"; Path := path;
  GetHeader := fun h => if str_eqb h "X-Api-Key" then key else if str_eqb h "Origin" then "http://localhost:3000" else "";
  Query := fun _ => "" |}.

Definition ids (resp : response) : list string :=
  match content resp with BAgents rows => ID <$> Items rows | _ => [] end.

Example served :
  (ids (ServeHTTP some_routes plain_error sample_server (get "/api/agents" "k")),
   status (ServeHTTP some_routes plain_error sample_server (get "/api/agents" "x")),
   status (ServeHTTP some_routes plain_error sample_server (get "/healthz" "")),
   status (ServeHTTP some_routes plain_error sample_server (get "/api/agents/a" "k"))) =
  (["b"; "a"; "c"], 401, 200, 404).
Proof. vm_compute. reflexivity. Qed.

Lemma unauthorized_sees_nothing_witness :
  ServeHTTP some_routes plain_error sample_server (get "/api/agents" "x") =
  ServeHTTP some_routes plain_error (with_store sample_server (memory_store (stored [] []))) (get "/api/agents" "x").
Proof.
  exact (proj1 (unauthorized_sees_nothing some_routes plain_error sample_server (get "/api/agents" "x")
    (memory_store (stored [] [])) eq_refl eq_refl)).
Defined.

Lemma handler_status_witness :
  status (ServeHTTP some_routes plain_error sample_server (get "/api/agents/a" "k")) = 404.
Proof.
  destruct (handler_status some_routes plain_error sample_server (get "/api/agents/a" "k") (RAgent "a")
    eq_refl eq_refl eq_refl) as (_ & _ & H). exact H.
Defined.

Lemma cors_only_listed_witness :
  "http://localhost:3000" ∈ CORSOrigins (srv_cfg sample_server).
Proof.
  apply (cors_only_listed some_routes plain_error sample_server (get "/api/agents" "k")).
  apply (bool_decide_eq_true_1 _). vm_compute. reflexivity.
Defined.

Lemma queryInt_spec_witness : 0 <= queryInt (get "/" "") "limit" 1000 <= 1000.
Proof. exact (proj1 (queryInt_spec (get "/" "") "limit" 1000 ltac:(lia))). Defined.
