(* ===== verification/Websocket.v ===== *)
(** * The event relay ([internal/api/websocket.go])

    The hub, the goroutine that broadcasts, and for every connection its writer
    and its reader, as interleaved steps on the clients' channels.  A [send]
    buffer holds 32 messages; closing a closed channel panics. *)
From Stdlib Require Import ZArith Lia Ascii.
From stdpp Require Import base list strings gmap.
From S2P Require Import Prelude GoBase FakeRedis JsonExtract Json.
Open Scope Z_scope.

(** ** Events *)

Record ws_event := {
  ev_channel : string;
  ev_payload : string;
  ev_at : Time;
}.

(** [json.Valid]. *)
Definition Valid (b : string) : bool := match Parse b with Some _ => true | None => false end.

Definition payloadAsJSON (b : string) : string :=
  if str_eqb b "" then "null" else if Valid b then b else json_string b.

Definition buildWSEvent (msg : Message) (now : Time) : ws_event := {|
  ev_channel := Channel msg; ev_payload := payloadAsJSON (Payload msg); ev_at := now |}.

(** Whatever a producer publishes, the payload of the event is JSON: JSON
    goes through as it is, and any other bytes, UTF-8 or not, as a string. *)
Theorem payload_is_json b :
  Valid (payloadAsJSON b) = true /\
  (Valid b = true -> payloadAsJSON b = b) /\
  (Valid b = false -> b <> "" -> exists s, Parse (payloadAsJSON b) = Some (JsonString s) /\ (utf8 b = true -> s = b)).
Proof.
  assert (Hstr : exists s, Parse (json_string b) = Some (JsonString s) /\ (utf8 b = true -> s = b)).
  { unfold Parse, DecodeFirst, json_fuel.
    destruct (json_string_value b 0 (2 * String.length (json_string b)) "") as [s Hs].
    rewrite str_app_nil in Hs. exists s. rewrite Hs. split; [done|]. intros Hu.
    pose proof (json_string_read b 0 (2 * String.length (json_string b)) "" Hu) as Hr.
    rewrite str_app_nil, Hs in Hr. by injection Hr. }
  unfold payloadAsJSON, str_eqb. destruct (bool_decide_reflect (b = "")) as [->|Hne]; [by split; [|split]|].
  destruct (Valid b) eqn:Ev; [by split; [|split]|]. destruct Hstr as (s & Hs & Hu).
  split; [unfold Valid; by rewrite Hs|]. split; [done|]. intros _ _. by exists s.
Qed.

(** ** The hub *)

(** Where the goroutine that reads the socket is: reading, past its look at
    [done], or ended. *)
Inductive reader_pc := Reading | Closing | ReaderEnded.

Record wsClient := {
  c_send : list ws_event;
  c_done : bool;
  c_joined : bool;
  c_reader : reader_pc;
  c_sent : list ws_event;
}.

Definition send_cap : Z := 32.

Definition new_client : wsClient := {|
  c_send := []; c_done := false; c_joined := true; c_reader := Reading; c_sent := [] |}.

Abbreviation wsHub := (gmap nat wsClient).

Definition ClientCount (h : wsHub) : Z := Z.of_nat (size (filter (fun kv => c_joined kv.2 = true) h)).

(** A send that does not block, or the close of [done]; [None] panics. *)
Definition offer (msg : ws_event) (c : wsClient) : option wsClient :=
  if len (c_send c) <? send_cap then
    Some {| c_send := c_send c ++ [msg]; c_done := c_done c; c_joined := c_joined c;
            c_reader := c_reader c; c_sent := c_sent c |}
  else if c_done c then None
  else Some {| c_send := c_send c; c_done := true; c_joined := c_joined c;
               c_reader := c_reader c; c_sent := c_sent c |}.

(** The loop of [broadcast] over the clients, in the order of one visit of the
    map. *)
Fixpoint broadcast (msg : ws_event) (order : list nat) (h : wsHub) : option wsHub :=
  match order with
  | [] => Some h
  | i :: order' =>
      match h !! i with
      | Some c =>
          if c_joined c then
            match offer msg c with
            | Some c' => broadcast msg order' (<[i := c']> h)
            | None => None
            end
          else broadcast msg order' h
      | None => broadcast msg order' h
      end
  end.

(** A connection joins; a message is broadcast; a writer sends the oldest
    message of its buffer; a writer ends and leaves the hub; a reader sees the
    socket end, and then closes [done] unless it was. *)
Inductive ws_act :=
  | WJoin (i : nat)
  | WBroadcast (msg : ws_event) (order : list nat)
  | WSend (i : nat)
  | WLeave (i : nat)
  | WSocketEnd (i : nat)
  | WReaderClose (i : nat).

Inductive ws_outcome :=
  | WOk (h : wsHub)
  | WPanic
  | WNotNow.

Definition ws_step (h : wsHub) (a : ws_act) : ws_outcome :=
  match a with
  | WJoin i => match h !! i with None => WOk (<[i := new_client]> h) | Some _ => WNotNow end
  | WBroadcast msg order =>
      match broadcast msg order h with Some h => WOk h | None => WPanic end
  | WSend i =>
      match h !! i with
      | Some c =>
          match c_send c, c_joined c with
          | msg :: rest, true =>
              WOk (<[i := {| c_send := rest; c_done := c_done c; c_joined := true;
                             c_reader := c_reader c; c_sent := c_sent c ++ [msg] |}]> h)
          | _, _ => WNotNow
          end
      | None => WNotNow
      end
  | WLeave i =>
      match h !! i with
      | Some c =>
          if c_joined c then
            WOk (<[i := {| c_send := c_send c; c_done := c_done c; c_joined := false;
                           c_reader := c_reader c; c_sent := c_sent c |}]> h)
          else WNotNow
      | None => WNotNow
      end
  | WSocketEnd i =>
      match h !! i with
      | Some c =>
          match c_reader c with
          | Reading =>
              WOk (<[i := {| c_send := c_send c; c_done := c_done c; c_joined := c_joined c;
                             c_reader := if c_done c then ReaderEnded else Closing; c_sent := c_sent c |}]> h)
          | _ => WNotNow
          end
      | None => WNotNow
      end
  | WReaderClose i =>
      match h !! i with
      | Some c =>
          match c_reader c with
          | Closing =>
              if c_done c then WPanic
              else WOk (<[i := {| c_send := c_send c; c_done := true; c_joined := c_joined c;
                                  c_reader := ReaderEnded; c_sent := c_sent c |}]> h)
          | _ => WNotNow
          end
      | None => WNotNow
      end
  end.

Fixpoint ws_run (h : wsHub) (acts : list ws_act) : ws_outcome :=
  match acts with
  | [] => WOk h
  | a :: acts' => match ws_step h a with WOk h => ws_run h acts' | o => o end
  end.

(** ** What a client has been sent *)

(** A visit of the map passes every client once. *)
Definition full_visit (h : wsHub) (a : ws_act) : Prop :=
  match a with
  | WBroadcast _ order => NoDup order /\ forall i, is_Some (h !! i) -> i ∈ order
  | _ => True
  end.

Fixpoint visits_full (h : wsHub) (acts : list ws_act) : Prop :=
  match acts with
  | [] => True
  | a :: acts' => full_visit h a /\ match ws_step h a with WOk h => visits_full h acts' | _ => True end
  end.

(** The messages broadcast since client [i] joined. *)
Fixpoint since_join (i : nat) (acts : list ws_act) (log : list ws_event) : list ws_event :=
  match acts with
  | [] => log
  | WJoin j :: acts' => since_join i acts' (if (j =? i)%nat then [] else log)
  | WBroadcast msg _ :: acts' => since_join i acts' (log ++ [msg])
  | _ :: acts' => since_join i acts' log
  end.

(** A client that is in the hub and not done has everything. *)
Definition kept_up (c : wsClient) (log : list ws_event) : Prop :=
  len (c_send c) <= send_cap /\ (c_joined c = true -> c_done c = false -> c_sent c ++ c_send c = log).

Lemma broadcast_lookup msg order : forall h h', NoDup order -> broadcast msg order h = Some h' ->
  forall i, h' !! i =
    match h !! i with
    | Some c => if bool_decide (i ∈ order) && c_joined c then offer msg c else Some c
    | None => None
    end.
Proof.
  induction order as [|j order IH]; intros h h' Hnd Hb i; cbn [broadcast] in Hb.
  - injection Hb as <-. destruct (h !! i); [|done]. by rewrite bool_decide_eq_false_2 by apply not_elem_of_nil.
  - apply NoDup_cons in Hnd as [Hj Hnd].
    assert (Hcons : i <> j -> bool_decide (i ∈ j :: order) = bool_decide (i ∈ order)).
    { intros Hne. apply bool_decide_ext. rewrite elem_of_cons. split; [intros [?|?]; done|by right]. }
    assert (Hself : bool_decide (j ∈ j :: order) = true) by (apply bool_decide_eq_true_2; left).
    assert (Hnot : bool_decide (j ∈ order) = false) by (by apply bool_decide_eq_false_2).
    destruct (h !! j) as [c|] eqn:Ej; [destruct (c_joined c) eqn:Ec; [destruct (offer msg c) as [c'|] eqn:Eo; [|done]|]|];
      rewrite (IH _ _ Hnd Hb i); destruct (decide (i = j)) as [->|Hne].
    + rewrite lookup_insert_eq, Ej, Hnot, Hself, Ec. cbn. by rewrite Eo.
    + rewrite lookup_insert_ne by done. by rewrite Hcons.
    + by rewrite Ej, Hnot, Hself, Ec.
    + by rewrite Hcons.
    + by rewrite Ej.
    + by rewrite Hcons.
Qed.

Lemma offer_kept_up msg c c' log : kept_up c log -> offer msg c = Some c' -> kept_up c' (log ++ [msg]).
Proof.
  intros [Hl Hk] H. unfold offer in H. unfold len in *.
  destruct (Z.ltb_spec (Z.of_nat (length (c_send c))) send_cap).
  - injection H as <-. split; cbn; [unfold len; rewrite length_app; cbn [length]; lia|].
    intros Hj Hd. by rewrite app_assoc, Hk.
  - destruct (c_done c); [done|]. injection H as <-. by split.
Qed.

Lemma ws_step_kept_up h a h' i c' log : full_visit h a -> ws_step h a = WOk h' -> h' !! i = Some c' ->
  (forall c, h !! i = Some c -> kept_up c log) -> kept_up c' (since_join i [a] log).
Proof.
  assert (Hset : forall (j : nat) (x : wsClient), <[j := x]> h !! i = Some c' ->
    (i = j /\ x = c') \/ (i <> j /\ h !! i = Some c')).
  { intros j x. destruct (decide (i = j)) as [->|Hne].
    - rewrite lookup_insert_eq. intros [= <-]. by left.
    - rewrite lookup_insert_ne by done. by right. }
  intros Hv Hs Hi Hold. destruct a as [j|msg order|j|j|j|j]; cbn in Hs; cbn [since_join].
  - destruct (h !! j) eqn:Ej; [done|]. injection Hs as <-.
    destruct (Hset _ _ Hi) as [[-> <-]|[Hne Hi']].
    + by rewrite Nat.eqb_refl.
    + destruct (Nat.eqb_spec j i); [by subst|]. by apply Hold.
  - destruct Hv as [Hnd Hall]. destruct (broadcast msg order h) as [h1|] eqn:Eb; [|done]. injection Hs as <-.
    rewrite (broadcast_lookup _ _ _ _ Hnd Eb) in Hi. destruct (h !! i) as [c|] eqn:Ei; [|done].
    rewrite bool_decide_eq_true_2 in Hi by (apply Hall; by rewrite Ei). cbn in Hi.
    destruct (c_joined c) eqn:Ec; [by apply (offer_kept_up msg c); [apply Hold|]|].
    injection Hi as <-. destruct (Hold c eq_refl) as [Hl _]. split; [done|congruence].
  - destruct (h !! j) as [c|] eqn:Ej; [|done]. destruct (c_send c) as [|msg rest] eqn:Es; [done|].
    destruct (c_joined c) eqn:Ec; [|done]. injection Hs as <-.
    destruct (Hset _ _ Hi) as [[-> <-]|[Hne Hi']]; [|by apply Hold].
    destruct (Hold c Ej) as [Hl Hk]. rewrite Es in *. unfold len in Hl. cbn [length] in Hl.
    split; cbn; [unfold len; lia|]. intros _ Hd. rewrite <- app_assoc. by apply Hk.
  - destruct (h !! j) as [c|] eqn:Ej; [|done]. destruct (c_joined c); [|done]. injection Hs as <-.
    destruct (Hset _ _ Hi) as [[-> <-]|[Hne Hi']]; [|by apply Hold]. destruct (Hold c Ej) as [Hl _]. by split.
  - destruct (h !! j) as [c|] eqn:Ej; [|done]. destruct (c_reader c); [|done..]. injection Hs as <-.
    destruct (Hset _ _ Hi) as [[-> <-]|[Hne Hi']]; [exact (Hold c Ej)|by apply Hold].
  - destruct (h !! j) as [c|] eqn:Ej; [|done]. destruct (c_reader c); [done| |done].
    destruct (c_done c) eqn:Ed; [done|]. injection Hs as <-.
    destruct (Hset _ _ Hi) as [[-> <-]|[Hne Hi']]; [|by apply Hold].
    destruct (Hold c Ej) as [Hl _]. by split.
Qed.

Lemma since_join_cons i a acts log : since_join i (a :: acts) log = since_join i acts (since_join i [a] log).
Proof. by destruct a. Qed.

(** However the broadcaster, the writers and the readers interleave, a
    client that is connected and has not been told to go has lost nothing: what
    was written to its socket and what waits in its buffer are, in order, all
    the messages broadcast since it joined; no buffer exceeds its bound. *)
Theorem connected_loses_nothing acts h i c :
  visits_full ∅ acts -> ws_run ∅ acts = WOk h -> h !! i = Some c ->
  len (c_send c) <= send_cap /\
  (c_joined c = true -> c_done c = false -> c_sent c ++ c_send c = since_join i acts []).
Proof.
  enough (H : forall h0 log, (forall c, h0 !! i = Some c -> kept_up c log) ->
    visits_full h0 acts -> ws_run h0 acts = WOk h -> h !! i = Some c -> kept_up c (since_join i acts log)).
  { intros Hv Hr Hi. by apply (H ∅ []). }
  induction acts as [|a acts IH]; intros h0 log Hold Hv Hr Hi.
  - injection Hr as <-. by apply Hold.
  - cbn [visits_full ws_run] in *. destruct Hv as [Hv Hvs]. destruct (ws_step h0 a) as [h1| |] eqn:Es; [|done..].
    rewrite since_join_cons. apply (IH h1); [|done..].
    intros c1 Hc1. by apply (ws_step_kept_up h0 a h1).
Qed.

(** ** A relay at work *)

Definition tick_event (n : Z) : ws_event := {| ev_channel := "events:trade"; ev_payload := "null"; ev_at := n |}.

Definition two_clients : list ws_act :=
  [WJoin 1; WBroadcast (tick_event 1) [1%nat]; WJoin 2; WBroadcast (tick_event 2) [2%nat; 1%nat]; WSend 1;
   WSocketEnd 2; WReaderClose 2; WLeave 2; WBroadcast (tick_event 3) [1%nat; 2%nat]].

Lemma visits_two_clients : visits_full ∅ two_clients.
Proof.
  assert (H : forall (h : wsHub) (order : list nat), NoDup order -> dom h ⊆ list_to_set order ->
    NoDup order /\ forall i, is_Some (h !! i) -> i ∈ order).
  { intros h order Hn Hd. split; [done|]. intros i Hi. apply elem_of_dom in Hi. apply Hd in Hi.
    by apply elem_of_list_to_set in Hi. }
  cbn [visits_full two_clients full_visit].
  repeat (split; [try done; apply H; apply (bool_decide_unpack _); vm_compute; exact I|];
          match goal with |- match ?x with _ => _ end =>
            let y := eval vm_compute in x in change x with y; cbn [visits_full full_visit] end).
  exact I.
Qed.

Lemma connected_loses_nothing_witness :
  exists h c, ws_run ∅ two_clients = WOk h /\ h !! 1%nat = Some c /\
    c_sent c ++ c_send c = [tick_event 1; tick_event 2; tick_event 3].
Proof.
  destruct (ws_run ∅ two_clients) as [h| |] eqn:E; [|discriminate E..].
  destruct (h !! 1%nat) as [c|] eqn:Ec; [|vm_compute in E; injection E as <-; discriminate Ec].
  exists h, c. split; [reflexivity|]. split; [exact Ec|].
  destruct (connected_loses_nothing two_clients h 1%nat c visits_two_clients E Ec) as [_ H].
  apply H; vm_compute in E; injection E as <-; vm_compute in Ec; injection Ec as <-; reflexivity.
Defined.

(** A client that does not read: its buffer fills, the next message tells it to
    go, and the one after, before its writer has left the hub, panics. *)
Lemma slow_client_panics :
  ws_run ∅ (WJoin 1 :: ((fun n => WBroadcast (tick_event (Z.of_nat n)) [1%nat]) <$> seq 0 34)) = WPanic.
Proof. vm_compute. reflexivity. Qed.

(** The reader looks at [done], the broadcaster closes it, and the reader's
    close panics. *)
Lemma reader_close_race :
  ws_run ∅ ((WJoin 1 :: ((fun n => WBroadcast (tick_event (Z.of_nat n)) [1%nat]) <$> seq 0 32)) ++
            [WSocketEnd 1; WBroadcast (tick_event 32) [1%nat]; WReaderClose 1]) = WPanic.
Proof. vm_compute. reflexivity. Qed.
