(* ===== verification/Registry.v ===== *)
(** * The registries of strategies and chains
      ([internal/agent/tasks/registry.go], [fake.go], [internal/chain/registry.go])

    A registry is a map from names to factories; a factory that is nil is
    [None], and a registration that panics has no result. *)
From Stdlib Require Import ZArith Lia Floats.
From stdpp Require Import base list strings gmap.
From S2P Require Import Prelude GoBase Genome Task.
Set Warnings "-inexact-float".
Open Scope Z_scope.

(** ** Strategies *)

Module Tasks.
Section Tasks.
Context {F : Type}.

(** [Register] panics on an empty name, a nil factory, and a name taken. *)
Definition Register (r : gmap string F) (name : string) (factory : option F) : option (gmap string F) :=
  if str_eqb name "" then None
  else
    match factory with
    | None => None
    | Some f =>
        match r !! name with
        | Some _ => None
        | None => Some (<[name := f]> r)
        end
    end.

Definition Build {Config T} (call : F -> Config -> result T) (r : gmap string F) (name : string)
    (config : Config) : result T :=
  match r !! name with
  | None => Fail (EMsg "tasks: unknown task type %q")
  | Some f => call f config
  end.

(** [range] is the order in which the loop visits the names. *)
Definition Registered {SS : SliceSort} (range : gset string -> list string) (r : gmap string F) : list string :=
  sort_slice str_lt (range (dom r)).

Definition ResetForTest : gmap string F := ∅.

(** The registrations of a process, in the order its packages start. *)
Fixpoint registrations (r : gmap string F) (l : list (string * F)) : option (gmap string F) :=
  match l with
  | [] => Some r
  | (name, f) :: l' =>
      match Register r name (Some f) with Some r => registrations r l' | None => None end
  end.

Lemma registrations_spec l : forall r,
  match registrations r l with
  | Some r' =>
      NoDup l.*1 /\ (forall name, name ∈ l.*1 -> name <> "" /\ r !! name = None) /\
      (forall name, r' !! name = match (list_to_map l : gmap string F) !! name with Some f => Some f | None => r !! name end)
  | None => ~ NoDup l.*1 \/ exists name, name ∈ l.*1 /\ (name = "" \/ is_Some (r !! name))
  end.
Proof.
  induction l as [|[name f] l IH]; intros r.
  - cbn. split; [constructor|]. split; [intros n Hn; by apply elem_of_nil in Hn|].
    intros n. by rewrite lookup_empty.
  - cbn [registrations]. unfold Register, str_eqb. rewrite !fmap_cons. cbn [fst].
    destruct (bool_decide_reflect (name = "")) as [->|Hne].
    { right. exists "". split; [left|by left]. }
    destruct (r !! name) as [g|] eqn:Er; [right; exists name; split; [left|right; by rewrite Er]|].
    specialize (IH (<[name := f]> r)). destruct (registrations _ l) as [r'|].
    + destruct IH as (Hnd & Hfree & Hr). split; [|split].
      * constructor; [|done]. intros Hin. destruct (Hfree _ Hin) as [_ H]. by rewrite lookup_insert_eq in H.
      * intros n [->|Hn]%elem_of_cons; [done|]. destruct (Hfree _ Hn) as [H1 H2]. split; [done|].
        apply lookup_insert_None in H2. by destruct H2.
      * intros n. rewrite Hr. cbn. destruct (decide (n = name)) as [->|Hn].
        -- rewrite !lookup_insert_eq. destruct ((list_to_map l : gmap string F) !! name) eqn:El; [|done].
           apply elem_of_list_to_map_2, (list_elem_of_fmap_2 fst) in El. cbn in El.
           destruct (Hfree _ El) as [_ H]. by rewrite lookup_insert_eq in H.
        -- by rewrite !lookup_insert_ne by done.
    + destruct IH as [Hd|(n & Hn & Hbad)].
      * left. intros H. apply NoDup_cons in H. by destruct H.
      * destruct (decide (n = name)) as [->|Hnn].
        -- left. intros H. apply NoDup_cons in H. by destruct H.
        -- right. exists n. split; [by right|]. destruct Hbad as [->|Hs]; [by left|right].
           by rewrite lookup_insert_ne in Hs by done.
Qed.

(** A process whose packages register distinct, nonempty names starts, in
    whatever order they do, and builds each name with its own factory and no
    other name; a name registered twice, or an empty one, stops it at start. *)
Theorem registered_builds {Config T} (call : F -> Config -> result T) l :
  match registrations ∅ l with
  | Some r =>
      NoDup l.*1 /\ ("" ∉ l.*1) /\
      (forall l', l' ≡ₚ l -> registrations ∅ l' = Some r) /\
      forall name config,
        Build call r name config =
        match (list_to_map l : gmap string F) !! name with
        | Some f => call f config
        | None => Fail (EMsg "tasks: unknown task type %q")
        end
  | None => ~ NoDup l.*1 \/ "" ∈ l.*1
  end.
Proof.
  pose proof (registrations_spec l ∅) as H. destruct (registrations ∅ l) as [r|].
  - destruct H as (Hnd & Hfree & Hr). split; [done|].
    assert (Hemp : "" ∉ l.*1) by (intros Hin; by destruct (Hfree _ Hin)). split; [done|].
    assert (Er : r = (list_to_map l : gmap string F)).
    { apply map_eq. intros n. rewrite Hr, lookup_empty. by destruct ((list_to_map l : gmap string F) !! n). }
    split.
    + intros l' Hp. pose proof (registrations_spec l' ∅) as H'.
      assert (Hp1 : l'.*1 ≡ₚ l.*1) by (by apply fmap_Permutation).
      destruct (registrations ∅ l') as [r'|].
      * destruct H' as (_ & _ & Hr'). f_equal. apply map_eq. intros n. rewrite Hr', Hr, lookup_empty.
        by rewrite (list_to_map_proper l' l) by (by rewrite ?Hp1).
      * destruct H' as [Hd|(n & Hn & [->|Hs])].
        -- by rewrite Hp1 in Hd.
        -- by rewrite Hp1 in Hn.
        -- rewrite lookup_empty in Hs. by destruct Hs.
    + intros name config. unfold Build. rewrite Er. done.
  - destruct H as [Hd|(n & Hn & [->|Hs])]; [by left|by right|]. rewrite lookup_empty in Hs. by destruct Hs.
Qed.

(** The names come sorted and once each, whatever order the map is ranged
    over in. *)
Theorem registered_names {SS : SliceSort} {SL : SliceSortLaws SS} range range' (r : gmap string F) :
  (forall X, Permutation (range X) (elements X)) -> (forall X, Permutation (range' X) (elements X)) ->
  names_of (dom r) (Registered range r) /\ Registered range' r = Registered range r.
Proof.
  intros Hr Hr'. assert (Hn := sort_names range (dom r) (Hr _)). split; [exact Hn|].
  exact (names_unique _ _ _ (sort_names range' _ (Hr' _)) Hn).
Qed.
End Tasks.
End Tasks.

(** ** Chains *)

Module Chains.
Section Chains.
Context {F : Type}.

(** [Register] of a chain replaces the factory there was. *)
Definition Register (r : gmap string F) (name : string) (f : option F) : option (gmap string F) :=
  if str_eqb name "" then None
  else match f with None => None | Some f => Some (<[name := f]> r) end.

Definition Get (r : gmap string F) (name : string) : result F :=
  match r !! name with
  | Some f => Ok f
  | None => Fail (EMsg "chain: no factory registered for %q (registered: %v)")
  end.

Definition registeredLocked {SS : SliceSort} (range : gset string -> list string) (r : gmap string F) : list string :=
  sort_slice str_lt (range (dom r)).

Definition Names {SS : SliceSort} := registeredLocked (SS := SS).

Definition Reset : gmap string F := ∅.
End Chains.
End Chains.

(** ** The fake strategy *)

Record FakeTask := {
  TickTrades : list Trade;
  TickErr : option gerror;
  Summary : option (list (string * jval));
  SummaryErr : option gerror;
  AdjustErr : option gerror;
  LastAdjustments : list (string * any);
  Position : float;
  PositionErr : option gerror;
  CloseTrades : list Trade;
  CloseErr : option gerror;
  RunTickCallCount : Z;
  GetSummaryCount : Z;
  CloseAllCallCount : Z;
}.

Definition Fake_RunTick (f : FakeTask) : list Trade * option gerror * FakeTask :=
  (TickTrades f, TickErr f, {|
    TickTrades := TickTrades f; TickErr := TickErr f; Summary := Summary f; SummaryErr := SummaryErr f;
    AdjustErr := AdjustErr f; LastAdjustments := LastAdjustments f; Position := Position f;
    PositionErr := PositionErr f; CloseTrades := CloseTrades f; CloseErr := CloseErr f;
    RunTickCallCount := wrap64 (RunTickCallCount f + 1); GetSummaryCount := GetSummaryCount f;
    CloseAllCallCount := CloseAllCallCount f |}).

Definition Fake_GetStateSummary (f : FakeTask) : list (string * jval) * option gerror * FakeTask :=
  (default [] (Summary f), SummaryErr f, {|
    TickTrades := TickTrades f; TickErr := TickErr f; Summary := Summary f; SummaryErr := SummaryErr f;
    AdjustErr := AdjustErr f; LastAdjustments := LastAdjustments f; Position := Position f;
    PositionErr := PositionErr f; CloseTrades := CloseTrades f; CloseErr := CloseErr f;
    RunTickCallCount := RunTickCallCount f; GetSummaryCount := wrap64 (GetSummaryCount f + 1);
    CloseAllCallCount := CloseAllCallCount f |}).

Definition Fake_ApplyAdjustments (f : FakeTask) (adj : list (string * any)) : option gerror * FakeTask :=
  (AdjustErr f, {|
    TickTrades := TickTrades f; TickErr := TickErr f; Summary := Summary f; SummaryErr := SummaryErr f;
    AdjustErr := AdjustErr f; LastAdjustments := adj; Position := Position f;
    PositionErr := PositionErr f; CloseTrades := CloseTrades f; CloseErr := CloseErr f;
    RunTickCallCount := RunTickCallCount f; GetSummaryCount := GetSummaryCount f;
    CloseAllCallCount := CloseAllCallCount f |}).

Definition Fake_GetPositionValue (f : FakeTask) : float * option gerror := (Position f, PositionErr f).

Definition Fake_CloseAllPositions (f : FakeTask) : list Trade * option gerror * FakeTask :=
  (CloseTrades f, CloseErr f, {|
    TickTrades := TickTrades f; TickErr := TickErr f; Summary := Summary f; SummaryErr := SummaryErr f;
    AdjustErr := AdjustErr f; LastAdjustments := LastAdjustments f; Position := Position f;
    PositionErr := PositionErr f; CloseTrades := CloseTrades f; CloseErr := CloseErr f;
    RunTickCallCount := RunTickCallCount f; GetSummaryCount := GetSummaryCount f;
    CloseAllCallCount := wrap64 (CloseAllCallCount f + 1) |}).

(** Every call of the factory copies the seed. *)
Definition FakeFactory (seed : FakeTask) (raw : string) : result FakeTask := Ok seed.

(** ** The strategies of the program *)

Definition strategies : list (string * nat) :=
  [("cross_chain_yield", 0%nat); ("liquidity_provision", 1%nat); ("liquidation_hunting", 2%nat); ("momentum", 3%nat)].

(** Every task type a genome may name has a factory. *)
Example every_task_type_registered :
  match Tasks.registrations ∅ strategies with
  | Some r => forallb (fun t => bool_decide (is_Some (r !! t))) validTaskTypes
  | None => false
  end = true.
Proof. vm_compute. reflexivity. Qed.

Lemma registered_names_witness :
  names_of (dom (list_to_map strategies : gmap string nat))
    (Tasks.Registered (SS := insertion_slice_sort) elements (list_to_map strategies)).
Proof.
  exact (proj1 (Tasks.registered_names (SS := insertion_slice_sort) (SL := insertion_slice_sort_laws)
    elements elements _ (fun X => Permutation_refl _) (fun X => Permutation_refl _))).
Defined.
