(* ===== verification/Security.v ===== *)
(** * Keys at rest and the log redactor ([internal/security/key_manager.go],
      [log_redactor.go])

    Bytes are strings.  AES, GCM and the log encoder are interfaces: the code
    depends on GCM opening exactly what it seals, and on a zap core seeing the
    fields it is given and nothing else.  The random reader's twelve bytes are
    an argument ([None]: the read fails). *)
From Stdlib Require Import ZArith Lia Ascii.
From stdpp Require Import base list strings.
From S2P Require Import Prelude GoBase Json.
Open Scope Z_scope.

(** ** Encryption *)

Definition MasterKeyEnv : string := "MASTER_ENCRYPTION_KEY".
Definition MasterKeySize : Z := 32.
Definition nonceSize : Z := 12.

Class AEAD := {
  Block : Type;
  GCM : Type;
  NewCipher : string -> result Block;
  NewGCM : Block -> result GCM;
  Overhead : GCM -> Z;
  (** [gcm.Seal(out, nonce, plaintext, nil)] appends to [out]. *)
  Seal : GCM -> string -> string -> string -> string;
  (** [gcm.Open(nil, nonce, ct, nil)]. *)
  Open' : GCM -> string -> string -> result string;
}.

(** What the code relies on: AES takes a key of 32 bytes, GCM takes AES; what
    is opened is what was sealed under the same nonce, and nothing else opens. *)
Class AEADLaws (A : AEAD) := {
  NewCipher_32 : forall k, str_len k = MasterKeySize -> exists b, NewCipher k = Ok b;
  NewGCM_ok : forall b, exists g, NewGCM b = Ok g;
  Seal_appends : forall g out n p, Seal g out n p = out +:+ Seal g "" n p;
  Seal_length : forall g n p, str_len n = nonceSize ->
    str_len (Seal g "" n p) = str_len p + Overhead g;
  Open_Seal : forall g n p c, str_len n = nonceSize -> Open' g n c = Ok p <-> c = Seal g "" n p;
}.

Section Keys.
Context {A : AEAD}.

Definition Encrypt (rand : option string) (plaintext masterKey : string) : result string :=
  if negb (str_len masterKey =? MasterKeySize)
  then Fail (EMsg "security: master key must be %d bytes, got %d")
  else
    match NewCipher masterKey with
    | Fail e => Fail (EWrap "security: aes init: %w" e)
    | Ok block =>
        match NewGCM block with
        | Fail e => Fail (EWrap "security: gcm init: %w" e)
        | Ok gcm =>
            match rand with
            | None => Fail (EMsg "security: nonce: %w")
            | Some nonce => Ok (Seal gcm ("" +:+ nonce) nonce plaintext)
            end
        end
    end.

Definition Decrypt (ciphertext masterKey : string) : result string :=
  if negb (str_len masterKey =? MasterKeySize)
  then Fail (EMsg "security: master key must be %d bytes, got %d")
  else if str_len ciphertext <? nonceSize then Fail (EMsg "security: ciphertext too short")
  else
    match NewCipher masterKey with
    | Fail e => Fail (EWrap "security: aes init: %w" e)
    | Ok block =>
        match NewGCM block with
        | Fail e => Fail (EWrap "security: gcm init: %w" e)
        | Ok gcm =>
            let nonce := str_take (Z.to_nat nonceSize) ciphertext in
            let ct := str_drop (Z.to_nat nonceSize) ciphertext in
            match Open' gcm nonce ct with
            | Fail e => Fail (EWrap "security: open: %w" e)
            | Ok pt => Ok pt
            end
        end
    end.

(** [getenv] of a name not set is the empty string. *)
Definition LoadMasterKey (getenv : string -> string) (envName : string) : result string :=
  let envName := if str_eqb envName "" then MasterKeyEnv else envName in
  let raw := getenv envName in
  if str_eqb raw "" then Fail (EMsg "security: %s not set")
  else if negb (str_len raw =? MasterKeySize)
  then Fail (EMsg "security: %s must be %d bytes, got %d")
  else Ok raw.

Lemma str_take_drop n : forall s, (n <= String.length s)%nat ->
  str_take n s +:+ str_drop n s = s /\ String.length (str_take n s) = n.
Proof.
  induction n as [|n IH]; intros [|c s] H; cbn in *; try done; [lia|].
  destruct (IH s) as [H1 H2]; [lia|]. rewrite str_app_cons, H1. split; [done|]. by rewrite H2.
Qed.

(** Splitting a blob at the nonce and opening the rest gives what was sealed
    behind that nonce. *)
Lemma sealed_long {L : AEADLaws A} g n p : str_len n = nonceSize -> nonceSize <= str_len (Seal g n n p).
Proof. intros Hn. rewrite Seal_appends. unfold str_len in *. rewrite str_len_app. lia. Qed.

Lemma sealed_open {L : AEADLaws A} g blob p : nonceSize <= str_len blob ->
  Open' g (str_take (Z.to_nat nonceSize) blob) (str_drop (Z.to_nat nonceSize) blob) = Ok p <->
  exists n, str_len n = nonceSize /\ blob = Seal g n n p.
Proof.
  intros Hs. split.
  - destruct (str_take_drop (Z.to_nat nonceSize) blob) as [Hb Hl]; [unfold str_len in Hs; lia|].
    assert (Hn : str_len (str_take (Z.to_nat nonceSize) blob) = nonceSize)
      by (unfold str_len; rewrite Hl; reflexivity).
    intros E. apply (Open_Seal _ _ _ _ Hn) in E. exists (str_take (Z.to_nat nonceSize) blob).
    split; [done|]. rewrite Seal_appends, <- E. by rewrite Hb.
  - intros (n & Hn & ->). rewrite Seal_appends.
    replace (Z.to_nat nonceSize) with (String.length n) by (unfold str_len in Hn; lia).
    rewrite str_take_app, str_drop_app. by apply (Open_Seal g n p _ Hn).
Qed.

(** Decryption accepts exactly what encryption can produce: under a key of
    32 bytes, a blob decrypts to a text if and only if some nonce of twelve
    bytes makes [Encrypt] of that text that very blob; a key of another length
    is refused both ways, and so is a blob shorter than a nonce. *)
Theorem decrypt_spec {L : AEADLaws A} (key blob : string) :
  (str_len key = MasterKeySize ->
   forall p, Decrypt blob key = Ok p <->
             exists n, str_len n = nonceSize /\ Encrypt (Some n) p key = Ok blob) /\
  (str_len key <> MasterKeySize ->
   is_ok (Decrypt blob key) = false /\ forall r p, is_ok (Encrypt r p key) = false) /\
  (str_len blob < nonceSize -> is_ok (Decrypt blob key) = false).
Proof.
  split; [|split].
  - intros Hk p. unfold Decrypt, Encrypt. rewrite Hk, Z.eqb_refl. cbn [negb].
    destruct (NewCipher_32 key Hk) as [b ->]. destruct (NewGCM_ok b) as [g ->].
    change ("" +:+ ?x) with x. destruct (Z.ltb_spec (str_len blob) nonceSize) as [Hs|Hs].
    { split; [done|]. intros (n & Hn & [= <-]). pose proof (sealed_long g n p Hn). lia. }
    pose proof (sealed_open g blob p Hs) as Ho. destruct (Open' g _ _) as [q|e].
    + split.
      * intros [= <-]. destruct (proj1 Ho eq_refl) as (n & Hn & ->). by exists n.
      * intros (n & Hn & [= <-]). exact (proj2 Ho (ex_intro _ n (conj Hn eq_refl))).
    + split; [done|]. intros (n & Hn & [= <-]). by pose proof (proj2 Ho (ex_intro _ n (conj Hn eq_refl))).
  - intros Hk%Z.eqb_neq. unfold Decrypt, Encrypt. by rewrite Hk.
  - intros Hb%Z.ltb_lt. unfold Decrypt. rewrite Hb. by destruct (negb _).
Qed.

(** What one wallet key is stored as can be read back with the same master
    key, takes nonce and tag on top of its own length, and a master key that
    the environment yields is long enough to do so. *)
Theorem stored_key_recovered {L : AEADLaws A} getenv envName key n p :
  LoadMasterKey getenv envName = Ok key -> str_len n = nonceSize ->
  exists blob g, Encrypt (Some n) p key = Ok blob /\ Decrypt blob key = Ok p /\
                 str_len blob = nonceSize + str_len p + Overhead g.
Proof.
  unfold LoadMasterKey. intros H Hn.
  destruct (str_eqb (getenv _) ""); [done|].
  destruct (Z.eqb_spec (str_len (getenv (if str_eqb envName "" then MasterKeyEnv else envName))) MasterKeySize)
    as [Hk|]; [|done].
  injection H as Ek. rewrite Ek in Hk.
  destruct (NewCipher_32 key Hk) as [b Eb]. destruct (NewGCM_ok b) as [g Eg].
  assert (He : Encrypt (Some n) p key = Ok (Seal g n n p))
    by (unfold Encrypt; rewrite Hk, Z.eqb_refl, Eb, Eg; reflexivity).
  exists (Seal g n n p), g. split; [done|]. split.
  - pose proof (sealed_long g n p Hn) as Hs. unfold Decrypt. rewrite Hk, Z.eqb_refl, Eb, Eg. cbn [negb].
    rewrite (proj2 (Z.ltb_ge _ _) Hs). by rewrite (proj2 (sealed_open g _ p Hs) (ex_intro _ n (conj Hn eq_refl))).
  - rewrite Seal_appends. pose proof (Seal_length g n p Hn) as Hl. unfold str_len in *.
    rewrite str_len_app. lia.
Qed.
End Keys.

(** A cipher with the laws: the tag is the nonce followed by the four first
    bytes of the key, checked on opening. *)
Definition tag_of (k n : string) : string := n +:+ str_take 4 k.

Definition toy_open (k n c : string) : result string :=
  let m := (String.length c - String.length (tag_of k n))%nat in
  if str_eqb c (str_take m c +:+ tag_of k n) then Ok (str_take m c) else Fail (EMsg "authentication failed").

#[local] Instance toy_aead : AEAD := {|
  Block := string;
  GCM := string;
  NewCipher k := if str_len k =? 32 then Ok k else Fail (EMsg "invalid key size");
  NewGCM b := Ok b;
  Overhead g := 12 + str_len (str_take 4 g);
  Seal g out n p := out +:+ (p +:+ tag_of g n);
  Open' := toy_open;
|}.

#[local] Instance toy_laws : AEADLaws toy_aead.
Proof.
  constructor.
  - intros k Hk. exists k. cbn. unfold MasterKeySize in Hk. by rewrite Hk.
  - intros b. by exists b.
  - done.
  - intros g n p Hn. cbn [Seal Overhead toy_aead]. change ("" +:+ ?x) with x.
    unfold tag_of, str_len, nonceSize in *. rewrite !str_len_app. lia.
  - intros g n p c Hn. cbn [Open' Seal toy_aead]. change ("" +:+ ?x) with x. unfold toy_open, str_eqb. split.
    + case_bool_decide as E; [|done]. intros [= <-]. exact E.
    + intros ->. rewrite str_len_app.
      replace (_ + _ - _)%nat with (String.length p) by lia.
      rewrite str_take_app. by rewrite bool_decide_true.
Qed.

Definition demo_key : string := "0123456789abcdef0123456789abcdef".
Definition demo_nonce : string := "noncenonce12".

Lemma stored_key_recovered_witness :
  exists blob g, Encrypt (Some demo_nonce) "wallet key" demo_key = Ok blob /\
                 Decrypt blob demo_key = Ok "wallet key" /\
                 str_len blob = nonceSize + str_len "wallet key" + Overhead g.
Proof.
  apply (stored_key_recovered (fun _ => demo_key) "" demo_key demo_nonce "wallet key");
    vm_compute; reflexivity.
Defined.

Lemma decrypt_spec_witness :
  (str_len demo_key = MasterKeySize ->
   forall p, Decrypt "tampered" demo_key = Ok p <->
             exists n, str_len n = nonceSize /\ Encrypt (Some n) p demo_key = Ok "tampered") /\
  (str_len demo_key <> MasterKeySize ->
   is_ok (Decrypt "tampered" demo_key) = false /\ forall r p, is_ok (Encrypt r p demo_key) = false) /\
  (str_len "tampered" < nonceSize -> is_ok (Decrypt "tampered" demo_key) = false).
Proof. exact (decrypt_spec demo_key "tampered"). Defined.

(** ** The redactor *)

Definition redactedValue : string := "<redacted>".

Definition newline : ascii := chr 10.

Definition HasSuffix (s p : string) : bool := HasPrefix (str_rev s) (str_rev p).

(** [SecretFieldRegex.MatchString]: [.] takes any rune but a newline, letters
    fold by case and [$] is the end of the text. *)
Definition SecretFieldRegex (key : string) : bool :=
  no_byte newline key &&
  (let k := foldName key in
   HasSuffix k "KEY" || HasSuffix k "SECRET" || HasSuffix k "TOKEN" ||
   HasPrefix k "WALLET" || str_eqb k "SIGNATURE").

Example secret_names :
  map SecretFieldRegex ["api_key"; "MASTER_KEY"; "client_secret"; "auth_token"; "wallet_address"; "wallet_seed";
                        "signature"; "user_id"; "amount"; "tx_hash"; "keys"; "signatures"; "WaLLet"]
  = [true; true; true; true; true; true; true; false; false; false; false; false; true].
Proof. vm_compute. reflexivity. Qed.

(** A zap field: its key and what zap keeps of its value; a field of a string
    is [zap.String]. *)
Record Field (V : Type) := { Key : string; Value : V }.
Arguments Key {V} _.
Arguments Value {V} _.

(** A zap core over the entries [E]: the fields bound to it by [With], and
    what [Write] sends to the sink. *)
Class ZapCore (V E : Type) := {
  core : Type;
  Out : Type;
  zapString : string -> V;
  CoreEnabled : core -> Z -> bool;
  CoreWith : core -> list (Field V) -> core;
  CoreWrite : core -> E -> list (Field V) -> Out;
}.

Section Redactor.
Context {V E : Type} {Z' : ZapCore V E}.

Definition redactFields (l : list (Field V)) : list (Field V) :=
  match l with
  | [] => l
  | _ => map (fun f => if SecretFieldRegex (Key f)
                       then {| Key := Key f; Value := zapString redactedValue |} else f) l
  end.

Record redactCore := { Core : core }.

Definition WrapCore (c : core) : redactCore := {| Core := c |}.

Definition With (r : redactCore) (fields : list (Field V)) : redactCore :=
  {| Core := CoreWith (Core r) (redactFields fields) |}.

(** Whether the entry is written by this core. *)
Definition Check_ (r : redactCore) (level : Z) : bool := CoreEnabled (Core r) level.

Definition Write (r : redactCore) (ent : E) (fields : list (Field V)) : Out :=
  CoreWrite (Core r) ent (redactFields fields).

(** A logger built by [With] and the entry it writes. *)
Definition log_line (c : core) (withs : list (list (Field V))) (level : Z) (ent : E)
    (fields : list (Field V)) : option Out :=
  let r := fold_left With withs (WrapCore c) in
  if Check_ r level then Some (Write r ent fields) else None.

(** Two fields that differ at most in the value of a secret. *)
Record public_eq (f g : Field V) : Prop := {
  same_key : Key f = Key g;
  same_value : SecretFieldRegex (Key f) = false -> Value f = Value g;
}.

Lemma redactFields_map l :
  redactFields l = map (fun f => if SecretFieldRegex (Key f)
                       then {| Key := Key f; Value := zapString redactedValue |} else f) l.
Proof. by destruct l. Qed.

Lemma redactFields_public l l' : Forall2 public_eq l l' -> redactFields l = redactFields l'.
Proof.
  rewrite !redactFields_map. induction 1 as [|f g l l' [Hk Hv] _ IH]; [done|].
  cbn. rewrite IH. f_equal. rewrite <- Hk. destruct (SecretFieldRegex (Key f)) eqn:E'; [done|].
  destruct f, g; cbn in *. by rewrite Hk, Hv.
Qed.

(** C39: No log line depends on a secret: two runs of a logger whose fields,
    bound by any number of [With] or given with the entry, differ only in the
    values of fields with secret names write the same thing, and write it at
    the same levels. *)
Theorem secrets_never_logged c withs withs' level ent fields fields' :
  Forall2 (Forall2 public_eq) withs withs' -> Forall2 public_eq fields fields' ->
  log_line c withs level ent fields = log_line c withs' level ent fields'.
Proof.
  intros Hw Hf. unfold log_line, Write. rewrite (redactFields_public _ _ Hf).
  assert (Hr : forall r, fold_left With withs r = fold_left With withs' r).
  { induction Hw as [|l l' ws ws' Hl _ IH]; intros r; [done|]. cbn.
    unfold With at 2 4. by rewrite (redactFields_public _ _ Hl). }
  by rewrite Hr.
Qed.

(** The redactor changes values only: the fields keep their order and
    keys, a secret reads ["<redacted>"], any other field is passed as it is,
    and redacting twice is redacting once. *)
Theorem redactFields_spec l :
  map Key (redactFields l) = map Key l /\
  redactFields (redactFields l) = redactFields l /\
  forall i f, l !! i = Some f ->
    redactFields l !! i =
    Some (if SecretFieldRegex (Key f) then {| Key := Key f; Value := zapString redactedValue |} else f).
Proof.
  rewrite !redactFields_map. split; [|split].
  - rewrite map_map. apply map_ext. intros f. by destruct (SecretFieldRegex _).
  - rewrite map_map. apply map_ext. intros f. by destruct (SecretFieldRegex (Key f)) eqn:E'; cbn; rewrite E'.
  - intros i f H. rewrite (list_lookup_fmap _ l). rewrite H. done.
Qed.
End Redactor.

(** ** The level *)

Inductive Level := DebugLevel | InfoLevel | WarnLevel | ErrorLevel.

Definition parseLevel (level : string) : result Level :=
  if existsb (str_eqb level) [""; "info"; "INFO"; "Info"] then Ok InfoLevel
  else if existsb (str_eqb level) ["debug"; "DEBUG"; "Debug"] then Ok DebugLevel
  else if existsb (str_eqb level) ["warn"; "WARN"; "Warn"; "warning"; "WARNING"] then Ok WarnLevel
  else if existsb (str_eqb level) ["error"; "ERROR"; "Error"] then Ok ErrorLevel
  else Fail (EMsg "security: unknown log level %q").

(** [NewLogger]: the encoder and the sink are zap's, [new_core] of them at a
    level. *)
Definition NewLogger {V E} {Z' : ZapCore V E} (new_core : Level -> core) (level : string) : result redactCore :=
  match parseLevel level with
  | Fail e => Fail e
  | Ok lvl => Ok (WrapCore (new_core lvl))
  end.

(** An unknown level is refused, not taken as info, and the case of the
    letters matters. *)
Example unknown_level_refused :
  (parseLevel "verbose", parseLevel "wArN") =
  (Fail (EMsg "security: unknown log level %q"), Fail (EMsg "security: unknown log level %q")).
Proof. reflexivity. Qed.

(** A core that writes out its fields, the bound ones first. *)
#[local] Instance list_core : ZapCore string string := {|
  core := list (Field string);
  Out := string * list (Field string);
  zapString v := v;
  CoreEnabled _ l := 0 <=? l;
  CoreWith c fs := c ++ fs;
  CoreWrite c e fs := (e, c ++ fs);
|}.

Lemma secrets_never_logged_witness :
  log_line (Z' := list_core) [] [[{| Key := "api_key"; Value := "alpha" |}]] 0 "boot"
    [{| Key := "chain"; Value := "base" |}] =
  log_line (Z' := list_core) [] [[{| Key := "api_key"; Value := "beta" |}]] 0 "boot"
    [{| Key := "chain"; Value := "base" |}].
Proof.
  apply (secrets_never_logged (Z' := list_core)); repeat constructor; vm_compute; intros; done.
Defined.

Definition demo_fields : list (Field string) :=
  [{| Key := "chain"; Value := "base" |}; {| Key := "auth_token"; Value := "t" |}].

Lemma redactFields_spec_witness :
  redactFields (Z' := list_core) demo_fields !! 1%nat = Some {| Key := "auth_token"; Value := "<redacted>" |}.
Proof.
  exact (proj2 (proj2 (redactFields_spec (Z' := list_core) demo_fields)) 1%nat
    {| Key := "auth_token"; Value := "t" |} eq_refl).
Defined.
