(* ===== verification/Database.v ===== *)
(** * The database ([internal/db/queries.go], [internal/db/migrations/*.sql])

    Postgres is an interface: NUMERIC and JSONB and the text form of UUIDs, the
    clock, [gen_random_uuid], the order a plan returns rows in, and which
    statements fail.  The tables, their constraints and the statements are the
    program's: a table with a UUID key is a map from keys to rows, and a
    statement that fails leaves the tables as they were.  Columns no statement
    of the program reads or writes are left out. *)
From Stdlib Require Import ZArith Lia Floats Ascii.
From stdpp Require Import base list strings gmap.
From S2P Require Import Prelude GoBase GoFloat GoFmt JsonExtract Json NodeRunner Strategist.
Open Scope Z_scope.
Open Scope go_scope.

Class Postgres := {
  numeric : Type;
  (** A float64 stored in a NUMERIC(precision, scale) column; [None] when it
      is out of range. *)
  numeric_in : Z -> Z -> float -> option numeric;
  numeric_out : numeric -> float;
  numeric_zero : numeric;
  numeric_sum : list numeric -> numeric;
  numeric_lt : numeric -> numeric -> bool;
  (** A sum assigned to a NUMERIC(precision, scale) column. *)
  numeric_cast : Z -> Z -> numeric -> option numeric;
  (** A time in a TIMESTAMPTZ column, which keeps microseconds. *)
  timestamptz_in : Time -> Time;
  (** The canonical text of a UUID. *)
  uuid_in : string -> option string;
  gen_random_uuid : nat -> string;
  jsonb_in : string -> option string;
  (** The clock and what becomes of the [n]th statement. *)
  pg_now : nat -> Time;
  outage : nat -> option gerror;
  (** The order the [n]th statement reads the rows of a table in. *)
  plan : forall {A}, nat -> list A -> list A;
}.

Class PostgresLaws (P : Postgres) := {
  zero_out : numeric_out numeric_zero = 0%float;
  uuid_idem s u : uuid_in s = Some u -> uuid_in u = Some u;
  uuid_empty : uuid_in "" = None;
  uuid_gen n : uuid_in (gen_random_uuid n) = Some (gen_random_uuid n);
  numeric_sw : strict_weak (fun _ => True) numeric_lt;
  plan_perm {A} n (l : list A) : Permutation (plan n l) l;
}.

(** What the program's text columns take: UTF-8 without a zero byte. *)
Definition text_in (s : string) : bool := utf8 s && no_byte (chr 0) s.

Definition int4_in (z : Z) : bool := (-2147483648 <=? z) && (z <=? 2147483647).

Section Schema.
Context {P : Postgres}.

(** ** Tables *)

Record AgentRow := {
  a_parent_id : option string;
  a_name : string;
  a_generation : Z;
  a_chain : string;
  a_wallet_address : string;
  a_wallet_key_encrypted : string;
  a_task_type : string;
  a_strategy_config : string;
  a_strategist_prompt : string;
  a_strategist_model : string;
  a_strategist_interval_seconds : Z;
  a_bandit_policies : string;
  a_bandit_state : string;
  a_learned_rules : string;
  a_sleep_schedule : string;
  a_reproduction_policy : string;
  a_cost_policy : string;
  a_communication_policy : string;
  a_node_class : string;
  a_health_state : string;
  a_capital_allocated : numeric;
  a_current_balance : numeric;
  a_peak_balance : numeric;
  a_lineage_depth : Z;
  a_unpaid_operating_debt_usd : numeric;
  a_status : string;
  a_created_at : Time;
  a_killed_at : option Time;
  a_kill_reason : option string;
  a_total_trades : Z;
  a_total_pnl : numeric;
  a_consecutive_negative_epochs : Z;
  a_last_heartbeat_at : option Time;
}.

Record EpochTableRow := {
  e_epoch_number : Z;
  e_started_at : Time;
  e_ended_at : Time;
  e_total_agents : Z;
  e_funded_agents : Z;
  e_shadow_agents : Z;
  e_agents_spawned : Z;
  e_agents_killed : Z;
  e_agents_promoted : Z;
  e_treasury_balance : numeric;
  e_total_pnl : numeric;
  e_total_llm_cost_usd : numeric;
  e_monthly_spend_to_date_usd : numeric;
  e_swarm_diversity_score : option numeric;
  e_market_regime : option string;
  e_parent_reasoning : option string;
  e_circuit_breaker_triggered : bool;
}.

Record TradeTableRow := {
  t_agent_id : string;
  t_epoch_id : option string;
  t_chain : string;
  t_trade_type : string;
  t_token_pair : string;
  t_dex : string;
  t_amount_in : numeric;
  t_amount_out : numeric;
  t_fee_paid : numeric;
  t_pnl : option numeric;
  t_tx_signature : option string;
  t_is_paper_trade : bool;
  t_bandit_policy_used : option string;
  t_metadata : option string;
  t_executed_at : Time;
}.

Record DecisionRow := {
  s_agent_id : string;
  s_input_summary : string;
  s_output_raw : string;
  s_config_changes : option string;
  s_reasoning : option string;
  s_intel_broadcasts : option string;
  s_offspring_proposal_submitted : bool;
  s_new_learned_rule : option string;
  s_model_used : string;
  s_input_tokens : Z;
  s_output_tokens : Z;
  s_cost_usd : numeric;
  s_decided_at : Time;
}.

Record LedgerTableRow := {
  g_agent_id : string;
  g_epoch_id : option string;
  g_realized_trading_pnl_usd : numeric;
  g_trading_fees_usd : numeric;
  g_slippage_cost_usd : numeric;
  g_llm_cost_usd : numeric;
  g_infra_rent_usd : numeric;
  g_rpc_cost_usd : numeric;
  g_upstream_paid_to_parent_usd : numeric;
  g_upstream_paid_to_root_usd : numeric;
  g_realized_net_profit_usd : numeric;
  g_created_at : Time;
}.

Record ProposalRow := {
  p_proposing_agent_id : string;
  p_epoch_id : option string;
  p_proposed_genome : string;
  p_requested_seed_capital_usd : numeric;
  p_requested_api_reserve_usd : numeric;
  p_requested_failure_buffer_usd : numeric;
  p_rationale : string;
  p_quality_check_verdict : option string;
  p_quality_check_reasoning : option string;
  p_bull_case : option string;
  p_bear_case : option string;
  p_adversarial_synthesis : option string;
  p_status : string;
  p_rejection_reason : option string;
  p_created_child_id : option string;
  p_created_at : Time;
}.

Record PostmortemTableRow := {
  m_agent_id : string;
  m_agent_name : string;
  m_lifespan_epochs : Z;
  m_total_trades : Z;
  m_total_pnl : numeric;
  m_total_llm_cost_usd : numeric;
  m_strategy_config_snapshot : string;
  m_strategist_prompt_snapshot : string;
  m_bandit_final_state : option string;
  m_analysis : string;
  m_lessons_summary : string;
  m_lessons : option string;
  m_failure_category : option string;
  m_created_at : Time;
}.

Record SweepRow := {
  w_agent_id : string;
  w_parent_agent_id : option string;
  w_amount_to_parent_usd : numeric;
  w_amount_to_root_usd : numeric;
  w_amount_retained_usd : numeric;
}.

Record PriceTableRow := {
  h_chain : string;
  h_token_pair : string;
  h_price : numeric;
  h_volume_24h : option numeric;
  h_recorded_at : Time;
}.

Record database := {
  agents : gmap string AgentRow;
  epochs : gmap string EpochTableRow;
  trades : gmap string TradeTableRow;
  strategist_decisions : gmap string DecisionRow;
  agent_ledgers : gmap string LedgerTableRow;
  offspring_proposals : gmap string ProposalRow;
  postmortems : gmap string PostmortemTableRow;
  profit_sweeps : gmap string SweepRow;
  price_history : list PriceTableRow;
  (** The number of statements so far. *)
  db_clock : nat;
}.

Definition migrated : database := {|
  agents := ∅; epochs := ∅; trades := ∅; strategist_decisions := ∅; agent_ledgers := ∅;
  offspring_proposals := ∅; postmortems := ∅; profit_sweeps := ∅; price_history := []; db_clock := 0 |}.

Definition tick (db : database) : database := {|
  agents := agents db; epochs := epochs db; trades := trades db;
  strategist_decisions := strategist_decisions db; agent_ledgers := agent_ledgers db;
  offspring_proposals := offspring_proposals db; postmortems := postmortems db;
  profit_sweeps := profit_sweeps db; price_history := price_history db; db_clock := S (db_clock db) |}.

Definition with_agents (x : gmap string AgentRow) (db : database) : database := {|
  agents := x; epochs := epochs db; trades := trades db;
  strategist_decisions := strategist_decisions db; agent_ledgers := agent_ledgers db;
  offspring_proposals := offspring_proposals db; postmortems := postmortems db;
  profit_sweeps := profit_sweeps db; price_history := price_history db; db_clock := db_clock db |}.

Definition with_epochs (x : gmap string EpochTableRow) (db : database) : database := {|
  agents := agents db; epochs := x; trades := trades db;
  strategist_decisions := strategist_decisions db; agent_ledgers := agent_ledgers db;
  offspring_proposals := offspring_proposals db; postmortems := postmortems db;
  profit_sweeps := profit_sweeps db; price_history := price_history db; db_clock := db_clock db |}.

Definition with_trades (x : gmap string TradeTableRow) (db : database) : database := {|
  agents := agents db; epochs := epochs db; trades := x;
  strategist_decisions := strategist_decisions db; agent_ledgers := agent_ledgers db;
  offspring_proposals := offspring_proposals db; postmortems := postmortems db;
  profit_sweeps := profit_sweeps db; price_history := price_history db; db_clock := db_clock db |}.

Definition with_decisions (x : gmap string DecisionRow) (db : database) : database := {|
  agents := agents db; epochs := epochs db; trades := trades db;
  strategist_decisions := x; agent_ledgers := agent_ledgers db;
  offspring_proposals := offspring_proposals db; postmortems := postmortems db;
  profit_sweeps := profit_sweeps db; price_history := price_history db; db_clock := db_clock db |}.

Definition with_ledgers (x : gmap string LedgerTableRow) (db : database) : database := {|
  agents := agents db; epochs := epochs db; trades := trades db;
  strategist_decisions := strategist_decisions db; agent_ledgers := x;
  offspring_proposals := offspring_proposals db; postmortems := postmortems db;
  profit_sweeps := profit_sweeps db; price_history := price_history db; db_clock := db_clock db |}.

Definition with_proposals (x : gmap string ProposalRow) (db : database) : database := {|
  agents := agents db; epochs := epochs db; trades := trades db;
  strategist_decisions := strategist_decisions db; agent_ledgers := agent_ledgers db;
  offspring_proposals := x; postmortems := postmortems db;
  profit_sweeps := profit_sweeps db; price_history := price_history db; db_clock := db_clock db |}.

Definition with_postmortems (x : gmap string PostmortemTableRow) (db : database) : database := {|
  agents := agents db; epochs := epochs db; trades := trades db;
  strategist_decisions := strategist_decisions db; agent_ledgers := agent_ledgers db;
  offspring_proposals := offspring_proposals db; postmortems := x;
  profit_sweeps := profit_sweeps db; price_history := price_history db; db_clock := db_clock db |}.

Definition with_sweeps (x : gmap string SweepRow) (db : database) : database := {|
  agents := agents db; epochs := epochs db; trades := trades db;
  strategist_decisions := strategist_decisions db; agent_ledgers := agent_ledgers db;
  offspring_proposals := offspring_proposals db; postmortems := postmortems db;
  profit_sweeps := x; price_history := price_history db; db_clock := db_clock db |}.

Definition with_prices (x : list PriceTableRow) (db : database) : database := {|
  agents := agents db; epochs := epochs db; trades := trades db;
  strategist_decisions := strategist_decisions db; agent_ledgers := agent_ledgers db;
  offspring_proposals := offspring_proposals db; postmortems := postmortems db;
  profit_sweeps := profit_sweeps db; price_history := x; db_clock := db_clock db |}.

(** ** Statements *)

Definition pg_error (what : string) : gerror := EMsg ("ERROR: " +:+ what).

(** One statement: it fails, and the tables stay, or it commits.  The clock it
    reads, the ids it draws and the plan it follows are its own. *)
Definition statement {A} (body : database -> result (A * database)) (db : database)
    : result A * database :=
  match outage (db_clock db) with
  | Some err => (Fail err, tick db)
  | None =>
      match body (tick db) with
      | Ok (x, db') => (Ok x, db')
      | Fail err => (Fail err, tick db)
      end
  end.

(** The values a statement is given, as their columns take them. *)
Definition check (ok : bool) (what : string) : result unit :=
  if ok then Ok tt else Fail (pg_error what).

Definition some_or {A} (o : option A) (what : string) : result A :=
  match o with Some x => Ok x | None => Fail (pg_error what) end.

Definition text_value (s : string) : result string :=
  let? _ := check (text_in s) "invalid byte sequence for encoding" in Ok s.

Definition nullable_text_value (s : option string) : result (option string) :=
  match s with Some s => let? s := text_value s in Ok (Some s) | None => Ok None end.

Definition jsonb_value (s : string) : result string := some_or (jsonb_in s) "invalid input syntax for type json".

Definition nullable_jsonb_value (s : option string) : result (option string) :=
  match s with Some s => let? s := jsonb_value s in Ok (Some s) | None => Ok None end.

Definition uuid_value (s : string) : result string := some_or (uuid_in s) "invalid input syntax for type uuid".

Definition int4_value (z : Z) : result Z :=
  let? _ := check (int4_in z) "integer out of range" in Ok z.

Definition numeric_value (precision scale : Z) (x : float) : result numeric :=
  some_or (numeric_in precision scale x) "numeric field overflow".

Definition usd (x : float) : result numeric := numeric_value 20 9 x.

(** A foreign key, and one that may be NULL. *)
Definition references {A} (t : gmap string A) (id : string) : result string :=
  let? id := uuid_value id in
  let? _ := check (bool_decide (is_Some (t !! id))) "violates foreign key constraint" in Ok id.

Definition nullable_references {A} (t : gmap string A) (id : option string) : result (option string) :=
  match id with Some id => let? id := references t id in Ok (Some id) | None => Ok None end.

(** A new row under a drawn id. *)
Definition insert_row {A} (t : gmap string A) (db : database) (row : A) : result (string * gmap string A) :=
  let id := gen_random_uuid (db_clock db) in
  let? _ := check (bool_decide (t !! id = None)) "duplicate key value violates unique constraint" in
  Ok (id, <[id := row]> t).

(** The database when the [k]th statement from now runs, if none writes. *)
Definition later (k : nat) (db : database) : database := Nat.iter k tick db.

(** The rows of a table as a statement meets them. *)
Definition scan {A} (db : database) (t : gmap string A) : list (string * A) :=
  plan (db_clock db) (map_to_list t).

Definition pg_constraints (a : AgentRow) : bool :=
  mem (a_node_class a) ["funded"; "shadow"; "paused"; "dead"] &&
  mem (a_chain a) ["solana"; "base"] &&
  mem (a_task_type a) ["cross_chain_yield"; "liquidity_provision"; "liquidation_hunting"; "momentum"].

(** ** Agents *)

(** [db.Agent]. *)
Record Agent := {
  da_ID : string;
  da_Name : string;
  da_Chain : string;
  da_WalletAddress : string;
  da_WalletKeyEncrypted : string;
  da_TaskType : string;
  da_StrategyConfig : string;
  da_StrategistPrompt : string;
  da_StrategistModel : string;
  da_StrategistIntervalSeconds : Z;
  da_BanditPolicies : string;
  da_LearnedRules : string;
  da_SleepSchedule : string;
  da_ReproductionPolicy : string;
  da_CostPolicy : string;
  da_CommunicationPolicy : string;
  da_NodeClass : string;
  da_Generation : Z;
  da_LineageDepth : Z;
  da_CapitalAllocated : float;
}.

Definition ErrAgentNotFound : gerror := EMsg "db: agent not found".

Definition defaultJSON (raw fallback : string) : string := if str_eqb raw "" then fallback else raw.

(** [nullableJSON], [nullableText] and [nullableUUID]. *)
Definition nullableText (s : string) : option string := if str_eqb s "" then None else Some s.

Definition nullableJSON (raw : string) : option string := if str_eqb raw "" then None else Some raw.

Definition or_text (s fallback : string) : string := if str_eqb s "" then fallback else s.

(** The INSERT of [InsertAgent]; the columns it does not name take their
    defaults. *)
Definition insert_agent (a : Agent) (db : database) : result (string * database) :=
  let? name := text_value (da_Name a) in
  let? chain := text_value (or_text (da_Chain a) "solana") in
  let? wallet := text_value (da_WalletAddress a) in
  let? task := text_value (da_TaskType a) in
  let? strategy := jsonb_value (defaultJSON (da_StrategyConfig a) "{}") in
  let? prompt := text_value (da_StrategistPrompt a) in
  let? model := text_value (or_text (da_StrategistModel a) "claude-haiku-4-5-20251001") in
  let? interval :=
    int4_value (if da_StrategistIntervalSeconds a <=? 0 then 14400 else da_StrategistIntervalSeconds a) in
  let? bandits := jsonb_value (defaultJSON (da_BanditPolicies a) (String "[" (String dquote "default") +:+
                    String dquote "]")) in
  let? learned := jsonb_value (defaultJSON (da_LearnedRules a) "[]") in
  let? sleep := jsonb_value (defaultJSON (da_SleepSchedule a) "{}") in
  let? repro := jsonb_value (defaultJSON (da_ReproductionPolicy a) "{}") in
  let? cost := jsonb_value (defaultJSON (da_CostPolicy a) "{}") in
  let? comms := jsonb_value (defaultJSON (da_CommunicationPolicy a) "{}") in
  let? class := text_value (or_text (da_NodeClass a) "funded") in
  let? generation := int4_value (da_Generation a) in
  let? depth := int4_value (da_LineageDepth a) in
  let? capital := usd (da_CapitalAllocated a) in
  let row := {|
    a_parent_id := None; a_name := name; a_generation := generation; a_chain := chain;
    a_wallet_address := wallet; a_wallet_key_encrypted := da_WalletKeyEncrypted a; a_task_type := task;
    a_strategy_config := strategy; a_strategist_prompt := prompt; a_strategist_model := model;
    a_strategist_interval_seconds := interval; a_bandit_policies := bandits; a_bandit_state := "{}";
    a_learned_rules := learned; a_sleep_schedule := sleep; a_reproduction_policy := repro;
    a_cost_policy := cost; a_communication_policy := comms; a_node_class := class;
    a_health_state := "healthy"; a_capital_allocated := capital; a_current_balance := numeric_zero;
    a_peak_balance := numeric_zero; a_lineage_depth := depth; a_unpaid_operating_debt_usd := numeric_zero;
    a_status := "active"; a_created_at := pg_now (db_clock db); a_killed_at := None; a_kill_reason := None;
    a_total_trades := 0; a_total_pnl := numeric_zero; a_consecutive_negative_epochs := 0;
    a_last_heartbeat_at := None |} in
  let? _ := check (pg_constraints row) "violates check constraint" in
  let? _ := check (negb (existsb (fun kv => str_eqb (a_wallet_address kv.2) wallet) (map_to_list (agents db))))
              "duplicate key value violates unique constraint" in
  let? ins := insert_row (agents db) db row in
  Ok (ins.1, with_agents ins.2 db).

Definition InsertAgent (a : Agent) (db : database) : result string * database :=
  if str_eqb (da_Name a) "" then (Fail (EMsg "db: agent name required"), db)
  else if str_eqb (da_WalletAddress a) "" then (Fail (EMsg "db: agent wallet_address required"), db)
  else if str_eqb (da_WalletKeyEncrypted a) "" then (Fail (EMsg "db: agent wallet_key_encrypted required"), db)
  else if str_eqb (da_TaskType a) "" then (Fail (EMsg "db: agent task_type required"), db)
  else
    match statement (insert_agent a) db with
    | (Ok id, db) => (Ok id, db)
    | (Fail err, db) => (Fail (EWrap "db: insert agent %q: %w" err), db)
    end.

(** A query: the rows it reads, or the failure of its statement. *)
Definition query {A} (f : database -> result A) (db : database) : result A :=
  match outage (db_clock db) with Some err => Fail err | None => f (tick db) end.

Definition no_agent : Agent := {|
  da_ID := ""; da_Name := ""; da_Chain := ""; da_WalletAddress := ""; da_WalletKeyEncrypted := ""; da_TaskType := "";
  da_StrategyConfig := ""; da_StrategistPrompt := ""; da_StrategistModel := ""; da_StrategistIntervalSeconds := 0;
  da_BanditPolicies := ""; da_LearnedRules := ""; da_SleepSchedule := ""; da_ReproductionPolicy := ""; da_CostPolicy := "";
  da_CommunicationPolicy := ""; da_NodeClass := ""; da_Generation := 0; da_LineageDepth := 0; da_CapitalAllocated := 0 |}.

Definition GetAgentByName (name : string) (db : database) : result Agent :=
  match
    query (fun db =>
      let? name := text_value name in
      Ok (List.find (fun kv => str_eqb (a_name kv.2) name) (scan db (agents db)))) db
  with
  | Fail err => Fail (EWrap "db: get agent %q: %w" err)
  | Ok None => Fail ErrAgentNotFound
  | Ok (Some (id, r)) =>
      Ok {| da_ID := id; da_Name := a_name r; da_Chain := a_chain r; da_WalletAddress := a_wallet_address r;
            da_WalletKeyEncrypted := a_wallet_key_encrypted r; da_TaskType := a_task_type r; da_StrategyConfig := "";
            da_StrategistPrompt := ""; da_StrategistModel := ""; da_StrategistIntervalSeconds := 0; da_BanditPolicies := "";
            da_LearnedRules := ""; da_SleepSchedule := ""; da_ReproductionPolicy := ""; da_CostPolicy := "";
            da_CommunicationPolicy := ""; da_NodeClass := a_node_class r; da_Generation := a_generation r;
            da_LineageDepth := a_lineage_depth r; da_CapitalAllocated := 0 |}
  end.

Definition treasuries : list string := ["root_treasury_solana"; "root_treasury_base"].

Definition TreasuryInitialized (db : database) : result bool :=
  match query (fun db => Ok (len (List.filter (fun kv => mem (a_name kv.2) treasuries) (scan db (agents db))))) db with
  | Fail err => Fail (EWrap "db: treasury check: %w" err)
  | Ok n => Ok (2 <=? n)
  end.

(** A row as [rows.Scan] fills an [Agent]. *)
Definition scan_agent (kv : string * AgentRow) : Agent :=
  let r := kv.2 in {|
    da_ID := kv.1; da_Name := a_name r; da_Chain := a_chain r; da_WalletAddress := a_wallet_address r;
    da_WalletKeyEncrypted := a_wallet_key_encrypted r; da_TaskType := a_task_type r;
    da_StrategyConfig := a_strategy_config r; da_StrategistPrompt := a_strategist_prompt r;
    da_StrategistModel := a_strategist_model r; da_StrategistIntervalSeconds := a_strategist_interval_seconds r;
    da_BanditPolicies := a_bandit_policies r; da_LearnedRules := a_learned_rules r; da_SleepSchedule := a_sleep_schedule r;
    da_ReproductionPolicy := a_reproduction_policy r; da_CostPolicy := a_cost_policy r;
    da_CommunicationPolicy := a_communication_policy r; da_NodeClass := a_node_class r; da_Generation := a_generation r;
    da_LineageDepth := a_lineage_depth r; da_CapitalAllocated := numeric_out (a_capital_allocated r) |}.

(** ORDER BY: rows that tie come in the plan's order. *)
Definition order_by {A} (lt : A -> A -> bool) (rows : list A) : list A := insertion_sort lt rows.

Definition ListActiveAgents (db : database) : result (list Agent) :=
  match
    query (fun db => Ok (order_by (fun x y => a_created_at x.2 <? a_created_at y.2)
      (List.filter (fun kv => str_eqb (a_status kv.2) "active") (scan db (agents db))))) db
  with
  | Fail err => Fail (EWrap "db: list active agents: %w" err)
  | Ok rows => Ok (map scan_agent rows)
  end.

(** An UPDATE ... WHERE id = $1; no row is no error. *)
Definition update_agent (id : string) (f : AgentRow -> AgentRow) (db : database) : result (unit * database) :=
  let? id := uuid_value id in Ok (tt, with_agents (alter f id (agents db)) db).

Definition with_heartbeat (t : Time) (r : AgentRow) : AgentRow := {|
  a_parent_id := a_parent_id r; a_name := a_name r; a_generation := a_generation r; a_chain := a_chain r;
  a_wallet_address := a_wallet_address r; a_wallet_key_encrypted := a_wallet_key_encrypted r;
  a_task_type := a_task_type r; a_strategy_config := a_strategy_config r;
  a_strategist_prompt := a_strategist_prompt r; a_strategist_model := a_strategist_model r;
  a_strategist_interval_seconds := a_strategist_interval_seconds r; a_bandit_policies := a_bandit_policies r;
  a_bandit_state := a_bandit_state r; a_learned_rules := a_learned_rules r; a_sleep_schedule := a_sleep_schedule r;
  a_reproduction_policy := a_reproduction_policy r; a_cost_policy := a_cost_policy r;
  a_communication_policy := a_communication_policy r; a_node_class := a_node_class r;
  a_health_state := a_health_state r; a_capital_allocated := a_capital_allocated r;
  a_current_balance := a_current_balance r; a_peak_balance := a_peak_balance r; a_lineage_depth := a_lineage_depth r;
  a_unpaid_operating_debt_usd := a_unpaid_operating_debt_usd r; a_status := a_status r;
  a_created_at := a_created_at r; a_killed_at := a_killed_at r; a_kill_reason := a_kill_reason r;
  a_total_trades := a_total_trades r; a_total_pnl := a_total_pnl r;
  a_consecutive_negative_epochs := a_consecutive_negative_epochs r; a_last_heartbeat_at := Some t |}.

Definition with_status (st : string) (reason : option string) (t : Time) (r : AgentRow) : AgentRow := {|
  a_parent_id := a_parent_id r; a_name := a_name r; a_generation := a_generation r; a_chain := a_chain r;
  a_wallet_address := a_wallet_address r; a_wallet_key_encrypted := a_wallet_key_encrypted r;
  a_task_type := a_task_type r; a_strategy_config := a_strategy_config r;
  a_strategist_prompt := a_strategist_prompt r; a_strategist_model := a_strategist_model r;
  a_strategist_interval_seconds := a_strategist_interval_seconds r; a_bandit_policies := a_bandit_policies r;
  a_bandit_state := a_bandit_state r; a_learned_rules := a_learned_rules r; a_sleep_schedule := a_sleep_schedule r;
  a_reproduction_policy := a_reproduction_policy r; a_cost_policy := a_cost_policy r;
  a_communication_policy := a_communication_policy r; a_node_class := a_node_class r;
  a_health_state := a_health_state r; a_capital_allocated := a_capital_allocated r;
  a_current_balance := a_current_balance r; a_peak_balance := a_peak_balance r; a_lineage_depth := a_lineage_depth r;
  a_unpaid_operating_debt_usd := a_unpaid_operating_debt_usd r; a_status := st;
  a_created_at := a_created_at r;
  a_killed_at := if str_eqb st "dead" then Some t else a_killed_at r;
  a_kill_reason := match reason with Some x => Some x | None => a_kill_reason r end;
  a_total_trades := a_total_trades r; a_total_pnl := a_total_pnl r;
  a_consecutive_negative_epochs := a_consecutive_negative_epochs r;
  a_last_heartbeat_at := a_last_heartbeat_at r |}.

Definition with_class (c : string) (r : AgentRow) : AgentRow := {|
  a_parent_id := a_parent_id r; a_name := a_name r; a_generation := a_generation r; a_chain := a_chain r;
  a_wallet_address := a_wallet_address r; a_wallet_key_encrypted := a_wallet_key_encrypted r;
  a_task_type := a_task_type r; a_strategy_config := a_strategy_config r;
  a_strategist_prompt := a_strategist_prompt r; a_strategist_model := a_strategist_model r;
  a_strategist_interval_seconds := a_strategist_interval_seconds r; a_bandit_policies := a_bandit_policies r;
  a_bandit_state := a_bandit_state r; a_learned_rules := a_learned_rules r; a_sleep_schedule := a_sleep_schedule r;
  a_reproduction_policy := a_reproduction_policy r; a_cost_policy := a_cost_policy r;
  a_communication_policy := a_communication_policy r; a_node_class := c; a_health_state := a_health_state r;
  a_capital_allocated := a_capital_allocated r; a_current_balance := a_current_balance r;
  a_peak_balance := a_peak_balance r; a_lineage_depth := a_lineage_depth r;
  a_unpaid_operating_debt_usd := a_unpaid_operating_debt_usd r; a_status := a_status r;
  a_created_at := a_created_at r; a_killed_at := a_killed_at r; a_kill_reason := a_kill_reason r;
  a_total_trades := a_total_trades r; a_total_pnl := a_total_pnl r;
  a_consecutive_negative_epochs := a_consecutive_negative_epochs r;
  a_last_heartbeat_at := a_last_heartbeat_at r |}.

(** What [Exec] returns: the error, wrapped. *)
Definition exec (context : string) (body : database -> result (unit * database)) (db : database)
    : option gerror * database :=
  match statement body db with
  | (Ok _, db) => (None, db)
  | (Fail err, db) => (Some (EWrap context err), db)
  end.

Definition UpdateHeartbeat (agentID : string) (db : database) : option gerror * database :=
  if str_eqb agentID "" then (Some (EMsg "db: UpdateHeartbeat requires agent_id"), db)
  else exec "db: update heartbeat: %w"
         (fun db => update_agent agentID (with_heartbeat (pg_now (db_clock db))) db) db.

Definition SetAgentStatus (agentID status killReason : string) (db : database) : option gerror * database :=
  if str_eqb agentID "" then (Some (EMsg "db: SetAgentStatus requires agent_id"), db)
  else if negb (mem status ["active"; "paused"; "dead"])
  then (Some (EMsg "db: SetAgentStatus invalid status %q"), db)
  else exec "db: set agent status: %w"
         (fun db =>
            let? reason := nullable_text_value (nullableText killReason) in
            update_agent agentID (with_status status reason (pg_now (db_clock db))) db) db.

Definition SetAgentNodeClass (agentID class : string) (db : database) : option gerror * database :=
  if str_eqb agentID "" then (Some (EMsg "db: SetAgentNodeClass requires agent_id"), db)
  else if negb (mem class ["funded"; "shadow"; "paused"; "dead"])
  then (Some (EMsg "db: SetAgentNodeClass invalid class %q"), db)
  else exec "db: set node class: %w" (update_agent agentID (with_class class)) db.

(** ** Trades, decisions and prices *)

Definition insert_trade (t : TradeRow) (db : database) : result (unit * database) :=
  let? agent := references (agents db) (row_AgentID t) in
  let? epoch := nullable_references (epochs db) (nullableText (row_EpochID t)) in
  let? chain := text_value (row_Chain t) in
  let? type := text_value (row_TradeType t) in
  let? pair := text_value (row_TokenPair t) in
  let? dex := text_value (row_DEX t) in
  let? amount_in := usd (row_AmountIn t) in
  let? amount_out := usd (row_AmountOut t) in
  let? fee := usd (row_FeePaid t) in
  let? pnl := usd (row_PnL t) in
  let? sig := nullable_text_value (nullableText (row_TxSignature t)) in
  let? bandit := nullable_text_value (nullableText (row_BanditPolicyUsed t)) in
  let? meta := jsonb_value (defaultJSON (default "" (row_Metadata t)) "null") in
  let? ins := insert_row (trades db) db {|
    t_agent_id := agent; t_epoch_id := epoch; t_chain := chain; t_trade_type := type; t_token_pair := pair;
    t_dex := dex; t_amount_in := amount_in; t_amount_out := amount_out; t_fee_paid := fee; t_pnl := Some pnl;
    t_tx_signature := sig; t_is_paper_trade := row_IsPaperTrade t; t_bandit_policy_used := bandit;
    t_metadata := Some meta; t_executed_at := pg_now (db_clock db) |} in
  Ok (tt, with_trades ins.2 db).

Definition LogTrade (t : TradeRow) (db : database) : option gerror * database :=
  if str_eqb (row_AgentID t) "" then (Some (EMsg "db: LogTrade requires agent_id"), db)
  else exec "db: log trade: %w" (insert_trade t) db.

Definition insert_decision (d : StrategistDecision) (db : database) : result (unit * database) :=
  let? agent := references (agents db) (d_AgentID d) in
  let? input := jsonb_value (defaultJSON (d_InputSummary d) "{}") in
  let? output := text_value (d_OutputRaw d) in
  let? cfg := nullable_jsonb_value (nullableJSON (d_ConfigChanges d)) in
  let? reasoning := nullable_text_value (nullableText (d_Reasoning d)) in
  let? intel := nullable_jsonb_value (nullableJSON (d_IntelBroadcasts d)) in
  let? rule := nullable_jsonb_value (nullableJSON (d_NewLearnedRule d)) in
  let? model := text_value (d_ModelUsed d) in
  let? tokens_in := int4_value (d_InputTokens d) in
  let? tokens_out := int4_value (d_OutputTokens d) in
  let? cost := numeric_value 10 6 (d_CostUSD d) in
  let? ins := insert_row (strategist_decisions db) db {|
    s_agent_id := agent; s_input_summary := input; s_output_raw := output; s_config_changes := cfg;
    s_reasoning := reasoning; s_intel_broadcasts := intel;
    s_offspring_proposal_submitted := d_OffspringProposalSubmitted d; s_new_learned_rule := rule;
    s_model_used := model; s_input_tokens := tokens_in; s_output_tokens := tokens_out; s_cost_usd := cost;
    s_decided_at := pg_now (db_clock db) |} in
  Ok (tt, with_decisions ins.2 db).

Definition LogStrategistDecision (d : StrategistDecision) (db : database) : option gerror * database :=
  if str_eqb (d_AgentID d) "" then (Some (EMsg "db: LogStrategistDecision requires agent_id"), db)
  else if str_eqb (d_ModelUsed d) "" then (Some (EMsg "db: LogStrategistDecision requires model_used"), db)
  else exec "db: log strategist decision: %w" (insert_decision d) db.

(** A volume that is not positive is stored as NULL. *)
Definition insert_price (chain tokenPair : string) (price volume24h : float) (recordedAt : Time)
    (db : database) : result (unit * database) :=
  let? chain := text_value chain in
  let? pair := text_value tokenPair in
  let? price := usd price in
  let? vol := (if (0 <? volume24h)%float then let? v := usd volume24h in Ok (Some v) else Ok None) in
  Ok (tt, with_prices (price_history db ++ [{| h_chain := chain; h_token_pair := pair; h_price := price;
    h_volume_24h := vol; h_recorded_at := timestamptz_in recordedAt |}]) db).

Definition InsertPriceHistoryRow (chain tokenPair : string) (price volume24h : float) (recordedAt : Time)
    (db : database) : option gerror * database :=
  if str_eqb chain "" || str_eqb tokenPair ""
  then (Some (EMsg "db: InsertPriceHistoryRow requires chain + token_pair"), db)
  else exec "db: insert price history: %w" (insert_price chain tokenPair price volume24h recordedAt) db.

(** ** Integrity *)

(** A foreign key that may be NULL. *)
Definition fk {A} (t : gmap string A) (id : option string) : Prop := forall u, id = Some u -> is_Some (t !! u).

(** The constraints of the migrations on the agents, and what the status
    writer keeps besides. *)
Record agents_ok (t : gmap string AgentRow) : Prop := {
  ok_constraints : forall id r, t !! id = Some r -> pg_constraints r = true;
  ok_status : forall id r, t !! id = Some r -> a_status r ∈ ["active"; "paused"; "dead"];
  ok_killed : forall id r, t !! id = Some r -> a_status r = "dead" -> is_Some (a_killed_at r);
  ok_wallets : forall i j r q, t !! i = Some r -> t !! j = Some q ->
    a_wallet_address r = a_wallet_address q -> i = j;
  ok_parents : forall id r, t !! id = Some r -> fk t (a_parent_id r);
}.

(** The [valid_status] check of the proposals. *)
Definition proposal_statuses : list string :=
  ["pending"; "quality_check"; "adversarial_review"; "approved"; "rejected"; "materialized"].

(** The constraints of the migrations on the modelled tables.  The key of a
    proposal to [backtest_results] is of a column no statement names. *)
Record db_ok (db : database) : Prop := {
  ok_agents : agents_ok (agents db);
  ok_trades : map_Forall (fun _ t => fk (agents db) (Some (t_agent_id t)) /\ fk (epochs db) (t_epoch_id t)) (trades db);
  ok_decisions : map_Forall (fun _ d => fk (agents db) (Some (s_agent_id d))) (strategist_decisions db);
  ok_ledgers : map_Forall (fun _ g => fk (agents db) (Some (g_agent_id g)) /\ fk (epochs db) (g_epoch_id g))
    (agent_ledgers db);
  ok_proposals : map_Forall (fun _ p => fk (agents db) (Some (p_proposing_agent_id p)) /\
      fk (epochs db) (p_epoch_id p) /\ fk (agents db) (p_created_child_id p) /\ p_status p ∈ proposal_statuses)
    (offspring_proposals db);
  ok_postmortems : map_Forall (fun _ m => fk (agents db) (Some (m_agent_id m))) (postmortems db);
  ok_sweeps : map_Forall (fun _ w => fk (agents db) (Some (w_agent_id w)) /\ fk (agents db) (w_parent_agent_id w))
    (profit_sweeps db);
  ok_numbers : forall i j d e, epochs db !! i = Some d -> epochs db !! j = Some e ->
    e_epoch_number d = e_epoch_number e -> i = j;
}.

Lemma migrated_ok : db_ok migrated.
Proof.
  constructor; cbn [migrated agents epochs trades strategist_decisions agent_ledgers offspring_proposals postmortems
    profit_sweeps]; try (by intros ? ? ?%lookup_empty_Some).
  - constructor; intros *; rewrite lookup_empty; done.
  - intros *. by rewrite lookup_empty.
Qed.

Lemma tick_ok db : db_ok db -> db_ok (tick db).
Proof. intros []. by constructor. Qed.

(** A statement keeps what its body and the clock keep. *)
Lemma statement_keeps {A} (Q : database -> Prop) (body : database -> result (A * database)) db :
  (forall d, Q d -> Q (tick d)) ->
  (forall d x d', Q d -> body d = Ok (x, d') -> Q d') ->
  Q db -> Q (statement body db).2.
Proof.
  intros Ht Hb Hq. unfold statement. destruct (outage _); [by apply Ht|].
  destruct (body (tick db)) as [[x d]|err] eqn:E; [|by apply Ht].
  exact (Hb _ _ _ (Ht _ Hq) E).
Qed.

Lemma exec_keeps (Q : database -> Prop) context (body : database -> result (unit * database)) db :
  (forall d, Q d -> Q (tick d)) ->
  (forall d x d', Q d -> body d = Ok (x, d') -> Q d') ->
  Q db -> Q (exec context body db).2.
Proof.
  intros Ht Hb Hq. pose proof (statement_keeps Q body db Ht Hb Hq) as H. unfold exec.
  by destruct (statement body db) as [[x|err] d].
Qed.

Lemma references_some {A} (t : gmap string A) id u : references t id = Ok u -> is_Some (t !! u).
Proof.
  unfold references, uuid_value, some_or, check. destruct (uuid_in id) as [v|]; [|done]. cbn.
  case_bool_decide; [|done]. by intros [= ->].
Qed.

Lemma references_fk {A} (t : gmap string A) id u : references t id = Ok u -> fk t (Some u).
Proof. intros H v [= <-]. exact (references_some _ _ _ H). Qed.

Lemma nullable_references_fk {A} (t : gmap string A) id u : nullable_references t id = Ok u -> fk t u.
Proof.
  unfold nullable_references. destruct id as [id|]; [|intros [= <-]; by intros v H].
  destruct (references t id) as [v|] eqn:E; [|done]. intros [= <-]. exact (references_fk _ _ _ E).
Qed.

Lemma insert_row_ok {A} (t : gmap string A) db row ins : insert_row t db row = Ok ins ->
  ins.1 = gen_random_uuid (db_clock db) /\ t !! ins.1 = None /\ ins.2 = <[ins.1 := row]> t.
Proof.
  unfold insert_row, check. case_bool_decide as E; [|done]. by intros [= <-].
Qed.

(** Changing the agents' rows, adding agents, adding epochs. *)
Lemma with_agents_ok t db : agents_ok t -> (forall id, is_Some (agents db !! id) -> is_Some (t !! id)) ->
  db_ok db -> db_ok (with_agents t db).
Proof.
  intros Ht Hk [Ha H1 H2 H3 H4 H5 H6 H7].
  assert (Hfk : forall o, fk (agents db) o -> fk t o) by (intros o H v E; exact (Hk v (H v E))).
  constructor; cbn [with_agents agents epochs trades strategist_decisions agent_ledgers offspring_proposals
    postmortems profit_sweeps]; [done| | | | | | |done];
    eapply map_Forall_impl; try eassumption; cbn; intros k r Hr; destruct_and?; auto.
Qed.

Lemma with_epochs_ok t db : (forall i j d e, t !! i = Some d -> t !! j = Some e ->
    e_epoch_number d = e_epoch_number e -> i = j) ->
  (forall id, is_Some (epochs db !! id) -> is_Some (t !! id)) -> db_ok db -> db_ok (with_epochs t db).
Proof.
  intros Ht Hk [Ha H1 H2 H3 H4 H5 H6 H7].
  assert (Hfk : forall o, fk (epochs db) o -> fk t o) by (intros o H v E; exact (Hk v (H v E))).
  constructor; cbn [with_epochs agents epochs trades strategist_decisions agent_ledgers offspring_proposals
    postmortems profit_sweeps]; [done| |done| | |done|done|done];
    eapply map_Forall_impl; try eassumption; cbn; intros k r Hr; destruct_and?; auto.
Qed.

Lemma alter_agents_ok f id t :
  (forall r, pg_constraints r = true -> pg_constraints (f r) = true) ->
  (forall r, a_wallet_address (f r) = a_wallet_address r) ->
  (forall r, a_status r ∈ ["active"; "paused"; "dead"] ->
     a_status (f r) ∈ ["active"; "paused"; "dead"]) ->
  (forall r, (a_status r = "dead" -> is_Some (a_killed_at r)) ->
     a_status (f r) = "dead" -> is_Some (a_killed_at (f r))) ->
  (forall r, a_parent_id (f r) = a_parent_id r) ->
  agents_ok t -> agents_ok (alter f id t).
Proof.
  intros Hc Hw Hs Hk Hp [H1 H2 H3 H4 H5].
  assert (Hrow : forall k r, alter f id t !! k = Some r ->
    exists q, t !! k = Some q /\ a_wallet_address r = a_wallet_address q /\ (r = q \/ r = f q)).
  { intros k r. destruct (decide (id = k)) as [<-|Hne].
    - rewrite lookup_alter_eq. destruct (t !! id) as [q|]; [|done]. intros [= <-]. exists q. auto.
    - rewrite lookup_alter_ne by done. intros H. exists r. auto. }
  constructor.
  - intros k r (q & E & _ & [-> | ->])%Hrow; eauto.
  - intros k r (q & E & _ & [-> | ->])%Hrow; eauto.
  - intros k r (q & E & _ & [-> | ->])%Hrow; eauto.
  - intros i j r q (r' & Er & Ew & _)%Hrow (q' & Eq & Ew' & _)%Hrow E. apply (H4 i j r' q' Er Eq). congruence.
  - intros k r (q & E & _ & Hr)%Hrow u Hu. rewrite lookup_alter_is_Some. apply (H5 k q E u).
    destruct Hr as [-> | ->]; [done|]. by rewrite <- Hu, Hp.
Qed.

Lemma update_agent_ok id f db x db' :
  (forall t, agents_ok t -> forall u, agents_ok (alter f u t)) ->
  db_ok db -> update_agent id f db = Ok (x, db') -> db_ok db'.
Proof.
  intros Hf Hok. unfold update_agent. destruct (uuid_value id) as [u|]; [|done]. intros [= _ <-].
  apply with_agents_ok; [|intros k; by rewrite lookup_alter_is_Some|done]. apply Hf. exact (ok_agents _ Hok).
Qed.

(** The statements of this file keep the constraints. *)
Lemma InsertAgent_ok a db : db_ok db -> db_ok (InsertAgent a db).2.
Proof.
  intros Hok. unfold InsertAgent. repeat (destruct (str_eqb _ _); [done|]).
  assert (Hs : db_ok (statement (insert_agent a) db).2).
  { apply statement_keeps; [apply tick_ok| |done]. intros d id d' Hd Hb. clear Hok. unfold insert_agent in Hb.
    repeat match type of Hb with (match ?x with _ => _ end) = _ => destruct x eqn:?; [|done] end.
    match goal with E : insert_row _ _ ?r = Ok _ |- _ =>
      set (row := r) in *; apply insert_row_ok in E as (_ & Hfresh & Et) end.
    injection Hb as _ <-. apply with_agents_ok; [| |done].
    - pose proof (ok_agents _ Hd) as [H1 H2 H3 H4 H5]. rewrite Et. constructor.
      + intros k r [[_ <-]|[_ E]]%lookup_insert_Some; [|eauto].
        match goal with E : check (pg_constraints row) _ = _ |- _ => unfold check in E; by destruct (pg_constraints row) end.
      + intros k r [[_ <-]|[_ E]]%lookup_insert_Some; [left|eauto].
      + intros k r [[_ <-]|[_ E]]%lookup_insert_Some; [done|eauto].
      + assert (Hnew : forall k r, agents d !! k = Some r -> a_wallet_address r <> a_wallet_address row).
        { intros k r Hk Hw.
          match goal with E : check (negb ?b) _ = _ |- _ =>
            assert (Hb : b = true); [|unfold check in E; by rewrite Hb in E] end.
          apply existsb_exists. exists (k, r). split; [by apply list_elem_of_In, elem_of_map_to_list|].
          apply bool_decide_eq_true. exact Hw. }
        intros i j r q [[<- <-]|[_ Er]]%lookup_insert_Some [[<- <-]|[_ Eq]]%lookup_insert_Some E; [done| | |eauto].
        * exfalso. exact (Hnew _ _ Eq (eq_sym E)).
        * exfalso. exact (Hnew _ _ Er E).
      + intros k r [[_ <-]|[_ E]]%lookup_insert_Some u Hu; [done|].
        apply lookup_insert_is_Some'. right. exact (H5 k r E u Hu).
    - intros k Hk. rewrite Et. apply lookup_insert_is_Some'. by right. }
  by destruct (statement _ _) as [[?|?] ?].
Qed.
End Schema.

(** ** A database to compute with: NUMERIC keeps finite floats, ids are their
    own canonical text, nothing fails, and rows come by key. *)
Definition float_postgres : Postgres := {|
  numeric := float;
  numeric_in _ _ x := if is_fin x then Some x else None;
  numeric_out x := x;
  numeric_zero := 0%float;
  numeric_sum l := fold_left PrimFloat.add l 0%float;
  numeric_lt x y := frank x <? frank y;
  numeric_cast _ _ x := Some x;
  timestamptz_in t := 1000 * (t / 1000);
  uuid_in s := if str_eqb s "" then None else Some s;
  gen_random_uuid n := "u" +:+ Itoa (Z.of_nat n);
  jsonb_in s := match Parse s with Some _ => Some s | None => None end;
  pg_now n := Z.of_nat n;
  outage _ := None;
  plan _ _ l := l |}.

Lemma float_postgres_laws : PostgresLaws float_postgres.
Proof.
  split; cbn; try done.
  - intros s u. unfold str_eqb. case_bool_decide as E; [done|]. intros [= <-]. by rewrite bool_decide_false.
  - by apply (strict_weak_asc _ _ frank).
Qed.

Definition sample_agent (name wallet : string) : Agent := {|
  da_ID := ""; da_Name := name; da_Chain := ""; da_WalletAddress := wallet; da_WalletKeyEncrypted := "sealed";
  da_TaskType := "momentum"; da_StrategyConfig := ""; da_StrategistPrompt := ""; da_StrategistModel := "";
  da_StrategistIntervalSeconds := 0; da_BanditPolicies := ""; da_LearnedRules := ""; da_SleepSchedule := "";
  da_ReproductionPolicy := ""; da_CostPolicy := ""; da_CommunicationPolicy := ""; da_NodeClass := "";
  da_Generation := 0; da_LineageDepth := 0; da_CapitalAllocated := 1000 |}.

(** Defaults, a duplicate wallet, a class the schema refuses, a name. *)
Example insertions :
  let db := (InsertAgent (P := float_postgres) (sample_agent "root" "w1") migrated).2 in
  ((InsertAgent (P := float_postgres) (sample_agent "root" "w1") migrated).1,
   is_ok (InsertAgent (sample_agent "again" "w1") db).1,
   match ListActiveAgents db with
   | Ok [a] => (da_Chain a, da_NodeClass a, da_StrategistIntervalSeconds a, da_BanditPolicies a)
   | _ => ("", "", 0, "")
   end,
   match GetAgentByName "root" db with Ok a => da_ID a | Fail _ => "" end,
   GetAgentByName "other" db) =
  (Ok "u1", false, ("solana", "funded", 14400, String "[" (String dquote "default") +:+ String dquote "]"),
   "u1", Fail ErrAgentNotFound).
Proof. vm_compute. reflexivity. Qed.
