(* ===== verification/EpochStore.v ===== *)
(** * The epoch store ([internal/orchestrator/db_store.go], the epoch rows of
      [cmd/swarm/main.go])

    The statements the orchestrator makes of an epoch.  [unmarshal_genome] is
    [encoding/json] on a genome, [category_text] and [verdict_text] are the
    strings the verdict types are, [wall] is the process's clock. *)
From Stdlib Require Import ZArith Lia Floats.
From stdpp Require Import base list strings gmap.
From S2P Require Import Prelude GoBase GoFloat GoRound Genome Economics LifecyclePolicy Treasury Review RootOrchestrator Database.
Set Warnings "-inexact-float".
Open Scope Z_scope.
Open Scope go_scope.

Definition ErrNoRows : gerror := EMsg "no rows in result set".

Definition zero_ledger (agentID : string) : Ledger := {|
  l_AgentID := agentID; l_EpochID := ""; RealizedTradingPnL := 0; TradingFees := 0; SlippageCost := 0;
  LLMCost := 0; InfraRent := 0; RPCCost := 0; UpstreamPaidToParent := 0; UpstreamPaidToRoot := 0;
  RealizedNetProfit := 0 |}.

Section EpochStore.
Context {P : Postgres} (unmarshal_genome : string -> AgentGenome).

(** [QueryRow] by the key of a table. *)
Definition row_of {A} (t : database -> gmap string A) (id : string) (db : database) : result (option A) :=
  query (fun db => let? id := uuid_value id in Ok (t db !! id)) db.

(** ** Loading the state of an epoch *)

(** One row of the agents query. *)
Definition drawdown_of (balance peak : float) : float :=
  if (0 <? peak)%float then
    let dd := ((peak - balance) / peak)%float in
    let dd := if (dd <? 0)%float then 0%float else dd in
    if (1 <? dd)%float then 1%float else dd
  else 0%float.

Definition snapshot_of (kv : string * AgentRow) : AgentSnapshot :=
  let r := kv.2 in {|
    s_AgentID := kv.1;
    Status := a_status r;
    BalanceUSD := numeric_out (a_current_balance r);
    Drawdown := drawdown_of (numeric_out (a_current_balance r)) (numeric_out (a_peak_balance r));
    ConsecutiveLosingEpochs := a_consecutive_negative_epochs r;
    OperatingDebtUSD := numeric_out (a_unpaid_operating_debt_usd r);
    LastHeartbeat := default zero_time (a_last_heartbeat_at r);
    LastStrategistVerdict := "";
    NetProfitWindowUSD := 0;
    NodeClass := a_node_class r |}.

Definition genome_of (kv : string * AgentRow) : AgentGenome :=
  let r := kv.2 in {|
    Name := a_name r; Generation := a_generation r; LineageDepth := a_lineage_depth r;
    TaskType := a_task_type r; Chain := a_chain r; StrategyConfig := None;
    StrategistPrompt := a_strategist_prompt r; StrategistModel := a_strategist_model r;
    StrategistIntervalSeconds := a_strategist_interval_seconds r; BanditPolicies := []; LearnedRules := [];
    CapitalAllocation := numeric_out (a_capital_allocated r);
    g_ReproductionPolicy := {| MinProfitableEpochs := 0; MinRealizedNetProfitUSD := 0; OffspringSeedCapitalUSD := 0;
      OffspringAPIReserveUSD := 0; OffspringFailureBufferUSD := 0; MaxDescendantsPerEpoch := 0;
      AllowTaskTypeMutation := false; AllowChainMutation := false; AllowModelMutation := false |};
    g_CostPolicy := {| MonthlyLLMBudgetUSD := 0; MonthlyInfraRentBudgetUSD := 0; PauseOnBudgetBreach := false |};
    g_CommunicationPolicy := {| SubscribeChannels := []; PublishChannels := []; MaxBroadcastsPerCycle := 0;
      IntelSummaryMaxItems := 0; RequireBullBearTag := false |};
    g_SleepSchedule := {| AwakeWindowMinutes := 0; SleepBetween := false; WakeForBacktest := false |} |}.

Definition live (kv : string * AgentRow) : bool := mem (a_status kv.2) ["active"; "paused"].

Definition latestLedgerFor (agentID : string) (db : database) : Ledger :=
  match
    query (fun db =>
      let? id := uuid_value agentID in
      Ok (head (order_by (fun x y => g_created_at y.2 <? g_created_at x.2)
        (List.filter (fun kv => str_eqb (g_agent_id kv.2) id) (scan db (agent_ledgers db)))))) db
  with
  | Ok (Some (_, g)) => {|
      l_AgentID := agentID; l_EpochID := "";
      RealizedTradingPnL := numeric_out (g_realized_trading_pnl_usd g);
      TradingFees := numeric_out (g_trading_fees_usd g); SlippageCost := numeric_out (g_slippage_cost_usd g);
      LLMCost := numeric_out (g_llm_cost_usd g); InfraRent := numeric_out (g_infra_rent_usd g);
      RPCCost := numeric_out (g_rpc_cost_usd g);
      UpstreamPaidToParent := numeric_out (g_upstream_paid_to_parent_usd g);
      UpstreamPaidToRoot := numeric_out (g_upstream_paid_to_root_usd g);
      RealizedNetProfit := numeric_out (g_realized_net_profit_usd g) |}
  | _ => zero_ledger agentID
  end.

(** The proposals that await a decision, oldest first. *)
Definition open_proposal (kv : string * ProposalRow) : bool :=
  mem (p_status kv.2) ["pending"; "quality_check"; "adversarial_review"].

Definition proposal_of (db : database) (kv : string * ProposalRow) : OffspringProposal :=
  let p := kv.2 in {|
    ProposalID := kv.1; ParentID := p_proposing_agent_id p;
    Candidate := unmarshal_genome (p_proposed_genome p);
    ReproductionReserveUSD := (numeric_out (p_requested_seed_capital_usd p) +
      numeric_out (p_requested_api_reserve_usd p) + numeric_out (p_requested_failure_buffer_usd p))%float;
    ParentLedger := latestLedgerFor (p_proposing_agent_id p) db;
    ParentCarriedDebt :=
      match agents db !! p_proposing_agent_id p with
      | Some a => numeric_out (a_unpaid_operating_debt_usd a)
      | None => 0%float
      end |}.

(** The [k]th statement reads the ledger of the [k]th proposal's parent. *)
Fixpoint proposals_of (db : database) (rows : list (string * ProposalRow)) : list OffspringProposal :=
  match rows with
  | [] => []
  | kv :: rest => proposal_of db kv :: proposals_of (tick db) rest
  end.

Definition LoadEpochState (wall : Time) (epochID : string) (db : database) : result EpochState :=
  match row_of epochs epochID db with
  | Fail err => Fail (EWrap "load epoch %s: %w" err)
  | Ok epoch =>
      match query (fun db => Ok (List.filter live (scan db (agents db)))) (later 1 db) with
      | Fail err => Fail (EWrap "load agents: %w" err)
      | Ok rows =>
          match
            query (fun db => Ok (order_by (fun x y => p_created_at x.2 <? p_created_at y.2)
              (List.filter open_proposal (scan db (offspring_proposals db))))) (later 2 db)
          with
          | Fail err => Fail (EWrap "load offspring: %w" err)
          | Ok proposals =>
              Ok {| EpochID := epochID;
                    StartedAt := match epoch with Some e => e_started_at e | None => wall end;
                    Snapshots := map snapshot_of rows;
                    Genomes := list_to_map (map (fun kv => (kv.1, genome_of kv)) rows);
                    SwarmGenomes := map genome_of rows;
                    CarriedDebt_ :=
                      list_to_map (map (fun kv => (kv.1, numeric_out (a_unpaid_operating_debt_usd kv.2))) rows);
                    BudgetTight_ := false;
                    OffspringProposals := proposals_of (later 3 db) proposals;
                    DeadAgents := [] |}
          end
      end
  end.

(** ** What an epoch leaves *)

Definition insert_ledger (l : Ledger) (db : database) : result (unit * database) :=
  let? agent := references (agents db) (l_AgentID l) in
  let? epoch := nullable_references (epochs db) (nullableText (l_EpochID l)) in
  let? pnl := usd (RealizedTradingPnL l) in
  let? fees := usd (TradingFees l) in
  let? slippage := usd (SlippageCost l) in
  let? llm := usd (LLMCost l) in
  let? infra := usd (InfraRent l) in
  let? rpc := usd (RPCCost l) in
  let? parent := usd (UpstreamPaidToParent l) in
  let? root := usd (UpstreamPaidToRoot l) in
  let? net := usd (RealizedNetProfit l) in
  let? ins := insert_row (agent_ledgers db) db {|
    g_agent_id := agent; g_epoch_id := epoch; g_realized_trading_pnl_usd := pnl; g_trading_fees_usd := fees;
    g_slippage_cost_usd := slippage; g_llm_cost_usd := llm; g_infra_rent_usd := infra; g_rpc_cost_usd := rpc;
    g_upstream_paid_to_parent_usd := parent; g_upstream_paid_to_root_usd := root;
    g_realized_net_profit_usd := net; g_created_at := pg_now (db_clock db) |} in
  Ok (tt, with_ledgers ins.2 db).

Definition PersistLedger (l : Ledger) (db : database) : option gerror * database :=
  if str_eqb (l_AgentID l) "" then (Some (EMsg "orchestrator: PersistLedger requires agent_id"), db)
  else exec "orchestrator: persist ledger: %w" (insert_ledger l) db.

Definition insert_sweep (s : Sweep) (db : database) : result (unit * database) :=
  let? agent := references (agents db) (sw_AgentID s) in
  let? parent := nullable_references (agents db) (nullableText (sw_ParentAgentID s)) in
  let? to_parent := usd (AmountToParent s) in
  let? to_root := usd (AmountToRoot s) in
  let? retained := usd (AmountRetained s) in
  let? ins := insert_row (profit_sweeps db) db {|
    w_agent_id := agent; w_parent_agent_id := parent; w_amount_to_parent_usd := to_parent;
    w_amount_to_root_usd := to_root; w_amount_retained_usd := retained |} in
  Ok (tt, with_sweeps ins.2 db).

Definition PersistSweep (d : SweepDecision) (db : database) : option gerror * database :=
  if Skipped d then (None, db)
  else if str_eqb (sw_AgentID (d_Sweep d)) ""
  then (Some (EMsg "orchestrator: PersistSweep requires agent_id"), db)
  else exec "orchestrator: persist sweep: %w" (insert_sweep (d_Sweep d)) db.

Definition verdict_text (v : QualityVerdict) : string :=
  match v with VerdictApprove => "approve" | VerdictReject => "reject" | VerdictRevise => "revise" end.

Definition outcome_status (o : OffspringOutcome) : string :=
  match o with OffspringApproved => "approved" | OffspringRejected => "rejected" | OffspringRevise => "pending" end.

(** COALESCE($n, column). *)
Definition coalesce (new old : option string) : option string := match new with Some x => Some x | None => old end.

Definition decided (status : string) (reject verdict reasoning bull bear synth : option string) (p : ProposalRow)
    : ProposalRow := {|
  p_proposing_agent_id := p_proposing_agent_id p; p_epoch_id := p_epoch_id p;
  p_proposed_genome := p_proposed_genome p; p_requested_seed_capital_usd := p_requested_seed_capital_usd p;
  p_requested_api_reserve_usd := p_requested_api_reserve_usd p;
  p_requested_failure_buffer_usd := p_requested_failure_buffer_usd p; p_rationale := p_rationale p;
  p_quality_check_verdict := coalesce verdict (p_quality_check_verdict p);
  p_quality_check_reasoning := coalesce reasoning (p_quality_check_reasoning p);
  p_bull_case := coalesce bull (p_bull_case p); p_bear_case := coalesce bear (p_bear_case p);
  p_adversarial_synthesis := coalesce synth (p_adversarial_synthesis p);
  p_status := status; p_rejection_reason := reject; p_created_child_id := p_created_child_id p;
  p_created_at := p_created_at p |}.

Definition update_proposal (d : OffspringDecision) (db : database) : result (unit * database) :=
  let? id := uuid_value (od_ProposalID d) in
  let? reject := nullable_text_value (nullableText (RejectTag d)) in
  let? verdict := nullable_text_value (option_map (fun q => verdict_text (q_Verdict q)) (Quality d)) in
  let? reasoning := nullable_text_value (option_map q_Reasoning (Quality d)) in
  let? bull := nullable_text_value (option_map BullCase (Adversarial d)) in
  let? bear := nullable_text_value (option_map BearCase (Adversarial d)) in
  let? synth := nullable_text_value (option_map Synthesis (Adversarial d)) in
  Ok (tt, with_proposals
    (alter (decided (outcome_status (Outcome d)) reject verdict reasoning bull bear synth) id
       (offspring_proposals db)) db).

Definition PersistOffspringDecision (d : OffspringDecision) (db : database) : option gerror * database :=
  if str_eqb (od_ProposalID d) ""
  then (Some (EMsg "orchestrator: PersistOffspringDecision requires proposal_id"), db)
  else exec "orchestrator: persist offspring decision: %w" (update_proposal d) db.

Definition category_text (c : LessonCategory) : string :=
  match c with
  | LessonStrategyDrift => "strategy_drift" | LessonRegimeMismatch => "regime_mismatch"
  | LessonCostBreach => "cost_breach" | LessonUnrecoverableLoss => "unrecoverable_loss"
  | LessonUnknown => "unknown"
  end.

Definition insert_postmortem (p : PostmortemResult) (agentID : string) (a : AgentRow) (db : database)
    : result (unit * database) :=
  let? agent := references (agents db) agentID in
  let? cost := numeric_value 10 6 (pr_CostUSD p) in
  let? total_pnl := usd (numeric_out (a_total_pnl a)) in
  let? analysis := text_value (Diagnosis p) in
  let? summary := text_value (pr_Summary p) in
  let? category := text_value (category_text (Category p)) in
  let? ins := insert_row (postmortems db) db {|
    m_agent_id := agent; m_agent_name := a_name a; m_lifespan_epochs := 0; m_total_trades := a_total_trades a;
    m_total_pnl := total_pnl; m_total_llm_cost_usd := cost; m_strategy_config_snapshot := a_strategy_config a;
    m_strategist_prompt_snapshot := a_strategist_prompt a; m_bandit_final_state := Some (a_bandit_state a);
    m_analysis := analysis; m_lessons_summary := summary; m_lessons := None; m_failure_category := Some category;
    m_created_at := pg_now (db_clock db) |} in
  Ok (tt, with_postmortems ins.2 db).

Definition PersistPostmortem (p : PostmortemResult) (agentID : string) (db : database)
    : option gerror * database :=
  if str_eqb agentID "" then (Some (EMsg "orchestrator: PersistPostmortem requires agent_id"), db)
  else
    match row_of agents agentID db with
    | Fail err => (Some (EWrap "orchestrator: load agent for postmortem: %w" err), tick db)
    | Ok None => (Some (EWrap "orchestrator: load agent for postmortem: %w" ErrNoRows), tick db)
    | Ok (Some a) => exec "orchestrator: persist postmortem: %w" (insert_postmortem p agentID a) (tick db)
    end.

(** ** The epoch's own row *)

Fixpoint max_number (rows : list (string * EpochTableRow)) : option Z :=
  match rows with
  | [] => None
  | kv :: rest =>
      Some (match max_number rest with Some m => Z.max (e_epoch_number kv.2) m | None => e_epoch_number kv.2 end)
  end.

(** COALESCE(MAX(epoch_number), 0) + 1. *)
Definition next_number (db : database) : Z := default 0 (max_number (map_to_list (epochs db))) + 1.

Definition epoch_row (number : Z) (started ended : Time) (total spawned killed : Z) (treasury : numeric)
    (tripped : bool) : EpochTableRow := {|
  e_epoch_number := number; e_started_at := started; e_ended_at := ended; e_total_agents := total;
  e_funded_agents := 0; e_shadow_agents := 0; e_agents_spawned := spawned; e_agents_killed := killed;
  e_agents_promoted := 0; e_treasury_balance := treasury; e_total_pnl := numeric_zero;
  e_total_llm_cost_usd := numeric_zero; e_monthly_spend_to_date_usd := numeric_zero;
  e_swarm_diversity_score := None; e_market_regime := None; e_parent_reasoning := None;
  e_circuit_breaker_triggered := tripped |}.

(** ON CONFLICT (id) DO UPDATE. *)
Definition epoch_ended (new old : EpochTableRow) : EpochTableRow := {|
  e_epoch_number := e_epoch_number old; e_started_at := e_started_at old; e_ended_at := e_ended_at new;
  e_total_agents := e_total_agents old; e_funded_agents := e_funded_agents old;
  e_shadow_agents := e_shadow_agents old; e_agents_spawned := e_agents_spawned new;
  e_agents_killed := e_agents_killed new; e_agents_promoted := e_agents_promoted new;
  e_treasury_balance := e_treasury_balance old; e_total_pnl := e_total_pnl old;
  e_total_llm_cost_usd := e_total_llm_cost_usd old;
  e_monthly_spend_to_date_usd := e_monthly_spend_to_date_usd old;
  e_swarm_diversity_score := e_swarm_diversity_score old; e_market_regime := e_market_regime old;
  e_parent_reasoning := e_parent_reasoning old;
  e_circuit_breaker_triggered := e_circuit_breaker_triggered new |}.

Definition count_actions (k : LifecycleActionKind) (r : EpochResult) : Z :=
  len (List.filter (fun a => bool_decide (Kind a = k)) (LifecycleActions r)).

Definition count_approved (r : EpochResult) : Z :=
  len (List.filter (fun d => match Outcome d with OffspringApproved => true | _ => false end)
        (OffspringDecisions r)).

Definition upsert_epoch (r : EpochResult) (db : database) : result (unit * database) :=
  let killed := count_actions ActionKill r in
  let approved := count_approved r in
  let total := killed + count_actions ActionPause r + count_actions ActionResume r + approved in
  let? id := uuid_value (er_EpochID r) in
  let? number := int4_value (next_number db) in
  let? total := int4_value total in
  let? killed := int4_value killed in
  let? approved := int4_value approved in
  let new := epoch_row number (timestamptz_in (Add (EndedAt r) (- Minute))) (timestamptz_in (EndedAt r)) total
               approved killed numeric_zero (BreakerTripped r) in
  Ok (tt, with_epochs
    (match epochs db !! id with
     | Some old => <[id := epoch_ended new old]> (epochs db)
     | None => <[id := new]> (epochs db)
     end) db).

Definition LogEpoch (r : EpochResult) (db : database) : option gerror * database :=
  if str_eqb (er_EpochID r) "" then (Some (EMsg "orchestrator: LogEpoch requires epoch_id"), db)
  else exec "orchestrator: log epoch: %w" (upsert_epoch r) db.

(** [seedEpochRow] of [cmd/swarm]. *)
Definition insert_epoch (db : database) : result (string * database) :=
  let? number := int4_value (next_number db) in
  let? total := int4_value (len (List.filter (fun kv => str_eqb (a_status kv.2) "active") (map_to_list (agents db)))) in
  let? treasury := some_or (numeric_cast 20 9 (numeric_sum
    (map (fun kv => a_current_balance kv.2)
       (List.filter (fun kv => mem (a_name kv.2) treasuries) (scan db (agents db)))))) "numeric field overflow" in
  let now := pg_now (db_clock db) in
  let? ins := insert_row (epochs db) db (epoch_row number now now total 0 0 treasury false) in
  Ok (ins.1, with_epochs ins.2 db).

Definition seedEpochRow (db : database) : result string * database := statement insert_epoch db.
End EpochStore.
