(* ===== verification/DbIntegrity.v ===== *)
(** * What the program's statements keep of the database

    Every write the program makes, as one type of operations; the constraints
    they keep; the columns none of them moves, and what the orchestrator makes
    of those columns; the queue of proposals; the epoch's row. *)
From Stdlib Require Import ZArith Lia Floats.
From stdpp Require Import base list strings gmap.
From S2P Require Import Prelude GoBase GoFloat Json LifecyclePolicy Economics Treasury Review RootOrchestrator NodeRunner Strategist Database EpochStore.
Set Warnings "-inexact-float".
Open Scope Z_scope.

(** Case analysis on the values of a statement's body. *)
Ltac body_cases H :=
  repeat match type of H with (match ?x with _ => _ end) = _ => destruct x eqn:?; [|done] end;
  try match goal with E : insert_row _ _ _ = Ok ?i |- _ => apply insert_row_ok in E as (_ & _ & ?) end.

Section Integrity.
Context {P : Postgres} (unmarshal_genome : string -> Genome.AgentGenome).

(** The writes of [internal/db/queries.go], [internal/orchestrator/db_store.go]
    and [cmd/swarm]. *)
Inductive db_op :=
  | OpInsertAgent (a : Agent)
  | OpHeartbeat (id : string)
  | OpStatus (id status reason : string)
  | OpClass (id class : string)
  | OpTrade (t : TradeRow)
  | OpDecision (d : StrategistDecision)
  | OpPrice (chain token_pair : string) (price volume : float) (at_ : Time)
  | OpLedger (l : Ledger)
  | OpSweep (d : SweepDecision)
  | OpOffspring (d : OffspringDecision)
  | OpPostmortem (p : PostmortemResult) (id : string)
  | OpLogEpoch (r : EpochResult)
  | OpSeedEpoch.

Definition apply_op (db : database) (o : db_op) : database :=
  match o with
  | OpInsertAgent a => (InsertAgent a db).2
  | OpHeartbeat id => (UpdateHeartbeat id db).2
  | OpStatus id status reason => (SetAgentStatus id status reason db).2
  | OpClass id class => (SetAgentNodeClass id class db).2
  | OpTrade t => (LogTrade t db).2
  | OpDecision d => (LogStrategistDecision d db).2
  | OpPrice chain token_pair price volume at_ => (InsertPriceHistoryRow chain token_pair price volume at_ db).2
  | OpLedger l => (PersistLedger l db).2
  | OpSweep d => (PersistSweep d db).2
  | OpOffspring d => (PersistOffspringDecision d db).2
  | OpPostmortem p id => (PersistPostmortem p id db).2
  | OpLogEpoch r => (LogEpoch r db).2
  | OpSeedEpoch => (seedEpochRow db).2
  end.

Definition run_ops (ops : list db_op) (db : database) : database := fold_left apply_op ops db.

Lemma run_ops_keeps (Q : database -> Prop) ops : (forall o db, Q db -> Q (apply_op db o)) ->
  forall db, Q db -> Q (run_ops ops db).
Proof. intros Hstep. induction ops as [|o ops IH]; intros db H; [done|]. apply IH. by apply Hstep. Qed.

Ltac fks :=
  repeat match goal with
  | E : references ?t _ = Ok _ |- _ => apply references_fk in E
  | E : nullable_references ?t _ = Ok _ |- _ => apply nullable_references_fk in E
  end.

(** An inserted row with its foreign keys. *)
Lemma map_Forall_insert_row {A} (Q : string -> A -> Prop) (t : gmap string A) id row :
  map_Forall Q t -> Q id row -> map_Forall Q (<[id := row]> t).
Proof. intros Ht Hrow. by apply map_Forall_insert_2. Qed.

Ltac insert_ok Hd H :=
  body_cases H; injection H as _ <-; fks; destruct Hd; constructor; try assumption; cbn in *;
  match goal with E : _ = <[_ := _]> _ |- _ => rewrite E end;
  apply map_Forall_insert_row; [assumption|cbn; auto].

Lemma LogTrade_ok t db : db_ok db -> db_ok (LogTrade t db).2.
Proof.
  intros Hok. unfold LogTrade. destruct (str_eqb _ _); [done|]. apply exec_keeps; [apply tick_ok| |done].
  intros d x d' Hd H. unfold insert_trade in H. insert_ok Hd H.
Qed.

Lemma LogStrategistDecision_ok t db : db_ok db -> db_ok (LogStrategistDecision t db).2.
Proof.
  intros Hok. unfold LogStrategistDecision. repeat (destruct (str_eqb _ _); [done|]).
  apply exec_keeps; [apply tick_ok| |done].
  intros d x d' Hd H. unfold insert_decision in H. insert_ok Hd H.
Qed.

Lemma PersistLedger_ok l db : db_ok db -> db_ok (PersistLedger l db).2.
Proof.
  intros Hok. unfold PersistLedger. destruct (str_eqb _ _); [done|]. apply exec_keeps; [apply tick_ok| |done].
  intros d x d' Hd H. unfold insert_ledger in H. insert_ok Hd H.
Qed.

Lemma PersistSweep_ok s db : db_ok db -> db_ok (PersistSweep s db).2.
Proof.
  intros Hok. unfold PersistSweep. destruct (Skipped s); [done|]. destruct (str_eqb _ _); [done|].
  apply exec_keeps; [apply tick_ok| |done].
  intros d x d' Hd H. unfold insert_sweep in H. insert_ok Hd H.
Qed.

Lemma PersistPostmortem_ok p id db : db_ok db -> db_ok (PersistPostmortem p id db).2.
Proof.
  intros Hok. unfold PersistPostmortem. destruct (str_eqb _ _); [done|].
  destruct (row_of _ _ _) as [[a|]|err]; [|by apply tick_ok|by apply tick_ok].
  apply exec_keeps; [apply tick_ok| |by apply tick_ok].
  intros d x d' Hd H. unfold insert_postmortem in H. insert_ok Hd H.
Qed.

Lemma InsertPrice_ok chain token_pair price vol at_ db : db_ok db -> db_ok (InsertPriceHistoryRow chain token_pair price vol at_ db).2.
Proof.
  intros Hok. unfold InsertPriceHistoryRow. destruct (_ || _); [done|].
  apply exec_keeps; [apply tick_ok| |done].
  intros d x d' Hd H. unfold insert_price in H. body_cases H. injection H as _ <-. destruct Hd. by constructor.
Qed.

Lemma alter_heartbeat_ok now t : agents_ok t -> forall id, agents_ok (alter (with_heartbeat now) id t).
Proof. intros Ht id. by apply alter_agents_ok. Qed.

Lemma alter_class_ok c t : c ∈ ["funded"; "shadow"; "paused"; "dead"] ->
  agents_ok t -> forall id, agents_ok (alter (with_class c) id t).
Proof.
  intros Hc%mem_spec Ht id. apply alter_agents_ok; [|done..|done]. intros r. unfold pg_constraints. cbn [with_class a_node_class a_chain a_task_type].
  rewrite Hc. destruct (mem (a_node_class r) _); [|done]. done.
Qed.

Lemma alter_status_ok st reason now t : st ∈ ["active"; "paused"; "dead"] ->
  agents_ok t -> forall id, agents_ok (alter (with_status st reason now) id t).
Proof.
  intros Hst Ht id. apply alter_agents_ok; try done. intros r _ Hd. cbn in *. rewrite Hd. cbn. by eexists.
Qed.

Lemma UpdateHeartbeat_ok id db : db_ok db -> db_ok (UpdateHeartbeat id db).2.
Proof.
  intros Hok. unfold UpdateHeartbeat. destruct (str_eqb _ _); [done|]. apply exec_keeps; [apply tick_ok| |done].
  intros d x d' Hd. apply update_agent_ok; [|done]. intros t Ht u. by apply alter_heartbeat_ok.
Qed.

Lemma SetAgentStatus_ok id st reason db : db_ok db -> db_ok (SetAgentStatus id st reason db).2.
Proof.
  intros Hok. unfold SetAgentStatus. destruct (str_eqb _ _); [done|].
  destruct (mem st _) eqn:Em; cbn [negb]; [|done]. apply mem_spec in Em.
  apply exec_keeps; [apply tick_ok| |done].
  intros d x d' Hd. destruct (nullable_text_value _) as [r|]; [|done].
  apply update_agent_ok; [|done]. intros t Ht u. by apply alter_status_ok.
Qed.

Lemma SetAgentNodeClass_ok id c db : db_ok db -> db_ok (SetAgentNodeClass id c db).2.
Proof.
  intros Hok. unfold SetAgentNodeClass. destruct (str_eqb _ _); [done|].
  destruct (mem c _) eqn:Em; cbn [negb]; [|done]. apply mem_spec in Em.
  apply exec_keeps; [apply tick_ok| |done].
  intros d x d' Hd. apply update_agent_ok; [|done]. intros t Ht u. by apply alter_class_ok.
Qed.

Lemma PersistOffspringDecision_ok o db : db_ok db -> db_ok (PersistOffspringDecision o db).2.
Proof.
  intros Hok. unfold PersistOffspringDecision. destruct (str_eqb _ _); [done|].
  apply exec_keeps; [apply tick_ok| |done].
  intros d x d' Hd H. unfold update_proposal in H. destruct (uuid_value _) as [u|]; [|done]. body_cases H. injection H as _ <-.
  destruct Hd. constructor; try assumption. cbn [with_proposals offspring_proposals agents].
  intros k p. destruct (decide (k = u)) as [->|Hne].
  - rewrite lookup_alter_eq. destruct (offspring_proposals d !! u) as [q|] eqn:Eq; [|done].
    intros [= <-]. destruct (ok_proposals _ _ Eq) as (H1 & H2 & H3 & _). split; [done|]. split; [done|].
    split; [done|]. cbn [decided p_status]. apply mem_spec. by destruct (Outcome o).
  - rewrite lookup_alter_ne by done. apply ok_proposals.
Qed.

(** The next number is above every number there is. *)
Lemma max_number_spec rows kv : kv ∈ rows -> exists m, max_number rows = Some m /\ e_epoch_number kv.2 <= m.
Proof.
  induction rows as [|x rows IH]; [by intros ?%not_elem_of_nil|].
  intros [-> |Hin]%elem_of_cons; cbn; eexists; (split; [done|]).
  - destruct (max_number rows); lia.
  - destruct (IH Hin) as (m & -> & Hm). lia.
Qed.

Lemma next_number_fresh db id e : epochs db !! id = Some e -> e_epoch_number e < next_number db.
Proof.
  intros H. apply elem_of_map_to_list in H. destruct (max_number_spec _ _ H) as (m & Hm & Hle).
  unfold next_number. rewrite Hm. cbn in *. lia.
Qed.

Lemma numbers_insert db id e : db_ok db -> e_epoch_number e = next_number db ->
  forall i j x y, <[id := e]> (epochs db) !! i = Some x -> <[id := e]> (epochs db) !! j = Some y ->
    e_epoch_number x = e_epoch_number y -> i = j.
Proof.
  intros Hok He i j x y [[<- <-]|[_ Hx]]%lookup_insert_Some [[<- <-]|[_ Hy]]%lookup_insert_Some E.
  - done.
  - apply next_number_fresh in Hy. lia.
  - apply next_number_fresh in Hx. lia.
  - exact (ok_numbers _ Hok _ _ _ _ Hx Hy E).
Qed.

Lemma int4_value_id z n : int4_value z = Ok n -> n = z.
Proof. unfold int4_value, check. destruct (int4_in z); [|done]. by intros [= ->]. Qed.

Lemma insert_known {A} (t : gmap string A) id x k : is_Some (t !! k) -> is_Some (<[id := x]> t !! k).
Proof. intros H. apply lookup_insert_is_Some'. by right. Qed.

Lemma LogEpoch_ok r db : db_ok db -> db_ok (LogEpoch r db).2.
Proof.
  intros Hok. unfold LogEpoch. destruct (str_eqb _ _); [done|]. apply exec_keeps; [apply tick_ok| |done].
  intros d x d' Hd H. unfold upsert_epoch in H. destruct (uuid_value _) as [u|]; [|done].
  destruct (int4_value (next_number d)) as [n|] eqn:En; [|done]. apply int4_value_id in En as ->.
  body_cases H. injection H as _ <-.
  destruct (epochs d !! u) as [old|] eqn:Eo; apply with_epochs_ok; try done; try (intros k; apply insert_known).
  - intros i j e1 e2 [[<- <-]|[_ Hx]]%lookup_insert_Some [[<- <-]|[_ Hy]]%lookup_insert_Some E;
      cbn in *; [done|..].
    + exact (ok_numbers _ Hd _ _ _ _ Eo Hy E).
    + exact (ok_numbers _ Hd _ _ _ _ Hx Eo E).
    + exact (ok_numbers _ Hd _ _ _ _ Hx Hy E).
  - by apply numbers_insert.
Qed.

Lemma seedEpochRow_ok db : db_ok db -> db_ok (seedEpochRow db).2.
Proof.
  intros Hok. unfold seedEpochRow. apply statement_keeps; [apply tick_ok| |done].
  intros d x d' Hd H. unfold insert_epoch in H.
  destruct (int4_value (next_number d)) as [n|] eqn:En; [|done]. apply int4_value_id in En as ->.
  body_cases H. injection H as _ <-.
  match goal with E : _ = <[_ := _]> _ |- _ => rewrite E end.
  apply with_epochs_ok; [|intros k; apply insert_known|done].
  by apply numbers_insert.
Qed.

Lemma op_ok o D : db_ok D -> db_ok (apply_op D o).
Proof.
  intros HD. destruct o; cbn [apply_op].
  - by apply InsertAgent_ok.
  - by apply UpdateHeartbeat_ok.
  - by apply SetAgentStatus_ok.
  - by apply SetAgentNodeClass_ok.
  - by apply LogTrade_ok.
  - by apply LogStrategistDecision_ok.
  - by apply InsertPrice_ok.
  - by apply PersistLedger_ok.
  - by apply PersistSweep_ok.
  - by apply PersistOffspringDecision_ok.
  - by apply PersistPostmortem_ok.
  - by apply LogEpoch_ok.
  - by apply seedEpochRow_ok.
Qed.

(** ** What is written stays *)

(** The columns of an agent, a proposal and an epoch that no statement but
    their insertion writes. *)
Definition agent_fixed (r : AgentRow) :=
  (a_parent_id r, a_name r, a_generation r, a_chain r, a_wallet_address r, a_wallet_key_encrypted r,
   a_task_type r, a_strategy_config r, a_strategist_prompt r, a_strategist_model r,
   a_strategist_interval_seconds r, a_bandit_policies r, a_bandit_state r, a_learned_rules r,
   a_sleep_schedule r, a_reproduction_policy r, a_cost_policy r, a_communication_policy r,
   (a_health_state r, a_capital_allocated r, a_current_balance r, a_peak_balance r, a_lineage_depth r,
    a_unpaid_operating_debt_usd r, a_created_at r, a_total_trades r, a_total_pnl r,
    a_consecutive_negative_epochs r)).

Definition proposal_fixed (p : ProposalRow) :=
  (p_proposing_agent_id p, p_epoch_id p, p_proposed_genome p, p_requested_seed_capital_usd p,
   p_requested_api_reserve_usd p, p_requested_failure_buffer_usd p, p_rationale p, p_created_child_id p,
   p_created_at p).

Definition epoch_fixed (e : EpochTableRow) := (e_epoch_number e, e_started_at e).

(** An agent's row later on. *)
Record agent_later (r r' : AgentRow) : Prop := {
  al_fixed : agent_fixed r' = agent_fixed r;
  al_killed : is_Some (a_killed_at r) -> is_Some (a_killed_at r');
  al_reason : is_Some (a_kill_reason r) -> is_Some (a_kill_reason r');
  al_heartbeat : is_Some (a_last_heartbeat_at r) -> is_Some (a_last_heartbeat_at r');
}.

(** Every row of [t] is in [t'], as [later] allows. *)
Definition rows_later {A} (later : A -> A -> Prop) (t t' : gmap string A) : Prop :=
  forall id x, t !! id = Some x -> exists y, t' !! id = Some y /\ later x y.

(** What is in [db] is still there in [db']. *)
Record kept_records (db db' : database) : Prop := {
  kr_trades : trades db ⊆ trades db';
  kr_decisions : strategist_decisions db ⊆ strategist_decisions db';
  kr_ledgers : agent_ledgers db ⊆ agent_ledgers db';
  kr_postmortems : postmortems db ⊆ postmortems db';
  kr_sweeps : profit_sweeps db ⊆ profit_sweeps db';
  kr_prices : price_history db `prefix_of` price_history db';
  kr_agents : rows_later agent_later (agents db) (agents db');
  kr_epochs : rows_later (fun e e' => epoch_fixed e' = epoch_fixed e) (epochs db) (epochs db');
  kr_proposals : rows_later (fun p p' => proposal_fixed p' = proposal_fixed p)
    (offspring_proposals db) (offspring_proposals db');
  kr_no_proposals : dom (offspring_proposals db') = dom (offspring_proposals db);
}.

#[local] Instance agent_later_preorder : PreOrder agent_later.
Proof.
  split; [by split|]. intros r1 r2 r3 [F1 K1 R1 H1] [F2 K2 R2 H2]. split; [congruence|auto..].
Qed.

#[local] Instance rows_later_preorder {A} (R : A -> A -> Prop) : PreOrder R -> PreOrder (rows_later R).
Proof.
  intros HR. split.
  - intros t id x Hx. by exists x.
  - intros t1 t2 t3 H1 H2 id x Hx. destruct (H1 id x Hx) as (y & Hy & Hxy).
    destruct (H2 id y Hy) as (z & Hz & Hyz). exists z. split; [done|]. by etrans.
Qed.

#[local] Instance fixed_preorder {A B} (f : A -> B) : PreOrder (fun x y : A => f y = f x).
Proof. split; [done|]. intros x y z. congruence. Qed.

#[local] Instance kept_records_preorder : PreOrder kept_records.
Proof.
  split.
  - intros db. by split.
  - intros d1 d2 d3 [] []. split; first [by etrans|congruence].
Qed.

Lemma kept_tick db : kept_records db (tick db).
Proof. by split. Qed.

(** A statement keeps what was there when its body does. *)
Lemma kept_statement {A} (body : database -> result (A * database)) db :
  (forall d x d', body d = Ok (x, d') -> kept_records d d') -> kept_records db (statement body db).2.
Proof.
  intros Hb. apply statement_keeps; [| |done].
  - intros d H. etrans; [exact H|apply kept_tick].
  - intros d x d' H E. etrans; [exact H|exact (Hb _ _ _ E)].
Qed.

Lemma kept_exec context (body : database -> result (unit * database)) db :
  (forall d x d', body d = Ok (x, d') -> kept_records d d') -> kept_records db (exec context body db).2.
Proof.
  intros Hb. pose proof (kept_statement body db Hb) as H. unfold exec.
  by destruct (statement body db) as [[x|err] d].
Qed.

Lemma insert_row_subseteq {A} (t : gmap string A) db row ins : insert_row t db row = Ok ins -> t ⊆ ins.2.
Proof. intros (_ & Hf & ->)%insert_row_ok. by apply insert_subseteq. Qed.

Lemma rows_later_subseteq {A} (R : A -> A -> Prop) `{!Reflexive R} (t t' : gmap string A) : t ⊆ t' -> rows_later R t t'.
Proof. intros H id x Hx. exists x. split; [|done]. by apply (lookup_weaken t t'). Qed.

Lemma rows_later_alter {A} (R : A -> A -> Prop) `{!Reflexive R} f (t : gmap string A) id :
  (forall x, R x (f x)) -> rows_later R t (alter f id t).
Proof.
  intros Hf k x Hx. destruct (decide (id = k)) as [<-|Hne].
  - exists (f x). by rewrite lookup_alter_eq, Hx.
  - exists x. by rewrite lookup_alter_ne.
Qed.

Lemma kept_update_agent id f d x d' :
  (forall r, agent_later r (f r)) -> update_agent id f d = Ok (x, d') -> kept_records d d'.
Proof.
  intros Hf. unfold update_agent. destruct (uuid_value id); [|done]. intros [= _ <-].
  split; try done. by apply rows_later_alter.
Qed.

Lemma with_status_later st reason t r : agent_later r (with_status st reason t r).
Proof. split; [done| | |done]; cbn; [by case_match; [eexists|]|by destruct reason; [eexists|]]. Qed.

(** An insertion under a drawn id. *)
Ltac kept_insert H :=
  repeat match type of H with (match ?x with _ => _ end) = _ => destruct x eqn:?; [|done] end;
  match goal with E : insert_row _ _ _ = Ok _ |- _ => apply insert_row_subseteq in E end;
  injection H as _ <-; split; try done; by apply rows_later_subseteq.

Lemma op_kept o D : kept_records D (apply_op D o).
Proof.
  destruct o; cbn [apply_op].
  - unfold InsertAgent. repeat (destruct (str_eqb _ _); [done|]).
    assert (Hs : kept_records D (statement (insert_agent a) D).2).
    { apply kept_statement. intros d x d' H. unfold insert_agent in H. kept_insert H. }
    by destruct (statement _ _) as [[?|?] ?].
  - unfold UpdateHeartbeat. destruct (str_eqb _ _); [done|]. apply kept_exec. intros d x d'.
    apply kept_update_agent. by split.
  - unfold SetAgentStatus. destruct (str_eqb _ _); [done|]. destruct (negb _); [done|].
    apply kept_exec. intros d x d'. destruct (nullable_text_value _); [|done].
    apply kept_update_agent. intros r. apply with_status_later.
  - unfold SetAgentNodeClass. destruct (str_eqb _ _); [done|]. destruct (negb _); [done|].
    apply kept_exec. intros d x d'. apply kept_update_agent. by split.
  - unfold LogTrade. destruct (str_eqb _ _); [done|]. apply kept_exec.
    intros d x d' H. unfold insert_trade in H. kept_insert H.
  - unfold LogStrategistDecision. repeat (destruct (str_eqb _ _); [done|]). apply kept_exec.
    intros d' x d'' H. unfold insert_decision in H. kept_insert H.
  - unfold InsertPriceHistoryRow. destruct (_ || _); [done|]. apply kept_exec.
    intros d x d' H. unfold insert_price in H. body_cases H. injection H as _ <-.
    split; try done. cbn. by apply prefix_app_r.
  - unfold PersistLedger. destruct (str_eqb _ _); [done|]. apply kept_exec.
    intros d x d' H. unfold insert_ledger in H. kept_insert H.
  - unfold PersistSweep. destruct (Skipped d); [done|]. destruct (str_eqb _ _); [done|]. apply kept_exec.
    intros d' x d'' H. unfold insert_sweep in H. kept_insert H.
  - unfold PersistOffspringDecision. destruct (str_eqb _ _); [done|]. apply kept_exec.
    intros d' x d'' H. unfold update_proposal in H. body_cases H. injection H as _ <-.
    split; try done; cbn; [by apply rows_later_alter|apply dom_alter_L].
  - unfold PersistPostmortem. destruct (str_eqb _ _); [done|].
    destruct (row_of _ _ _) as [[a|]|err]; [|by apply kept_tick|by apply kept_tick].
    etrans; [apply kept_tick|]. apply kept_exec.
    intros d x d' H. unfold insert_postmortem in H. kept_insert H.
  - unfold LogEpoch. destruct (str_eqb _ _); [done|]. apply kept_exec.
    intros d x d' H. unfold upsert_epoch in H. destruct (uuid_value _) as [u|]; [|done].
    body_cases H. injection H as _ <-. split; try done. cbn. intros id e He.
    destruct (decide (u = id)) as [<-|Hne].
    + rewrite He. eexists. by rewrite lookup_insert_eq.
    + exists e. by destruct (epochs d !! u); rewrite lookup_insert_ne by done.
  - unfold seedEpochRow. apply kept_statement.
    intros d x d' H. unfold insert_epoch in H. kept_insert H.
Qed.

(** C9: no sequence of the program's writes, whatever fails of them, loses or
    rewrites a record: trades, strategist decisions, ledgers, postmortems,
    sweeps and prices are only added; an agent keeps every column but its
    status, class, heartbeat, kill time and reason, and those last three once
    set stay set; an epoch keeps its number and start; a proposal keeps all but
    the outcome of its review, and none is added.  The updates, which the
    modelled server lets through unchecked, keep the schema: an agent's class
    and a proposal's status stay within their CHECKs, an agent's status is one
    of three, a dead agent has the time of its death, and the epochs are
    numbered apart; with the foreign keys and unique wallets. *)
Theorem writes_keep_records ops db :
  kept_records db (run_ops ops db) /\ (db_ok db -> db_ok (run_ops ops db)).
Proof.
  split; [|apply run_ops_keeps; exact op_ok].
  apply (run_ops_keeps (kept_records db)); [|done]. intros o d H. etrans; [exact H|apply op_kept].
Qed.

(** ** The columns nothing moves *)

(** What an agent's row keeps from its insertion on, and the tables nothing
    inserts into. *)
Record unmoved (r : AgentRow) : Prop := {
  um_balance : a_current_balance r = numeric_zero;
  um_peak : a_peak_balance r = numeric_zero;
  um_debt : a_unpaid_operating_debt_usd r = numeric_zero;
  um_pnl : a_total_pnl r = numeric_zero;
  um_trades : a_total_trades r = 0;
  um_losing : a_consecutive_negative_epochs r = 0;
}.

(** A property of a row that no update of a row can break. *)
Record settled (R : AgentRow -> Prop) : Prop := {
  se_heartbeat : forall t r, R r -> R (with_heartbeat t r);
  se_status : forall st reason t r, R r -> R (with_status st reason t r);
  se_class : forall c r, R r -> R (with_class c r);
}.

Lemma unmoved_settled : settled unmoved.
Proof. split; intros; by match goal with H : unmoved _ |- _ => destruct H end. Qed.

(** Every agent's row has the property, and there are no proposals. *)
Record untouched (R : AgentRow -> Prop) (db : database) : Prop := {
  ut_agents : map_Forall (fun _ r => R r) (agents db);
  ut_proposals : offspring_proposals db = ∅;
}.

Section Untouched.
Context (R : AgentRow -> Prop) (HR : settled R).

Lemma tick_untouched db : untouched R db -> untouched R (tick db).
Proof. intros []. by constructor. Qed.

Lemma alter_unmoved f id (t : gmap string AgentRow) : (forall r, R r -> R (f r)) ->
  map_Forall (fun _ r => R r) t -> map_Forall (fun _ r => R r) (alter f id t).
Proof.
  intros Hf Ht k r. destruct (decide (k = id)) as [->|Hne].
  - rewrite lookup_alter_eq. destruct (t !! id) as [q|] eqn:E; [|done]. intros [= <-]. exact (Hf _ (Ht _ _ E)).
  - rewrite lookup_alter_ne by done. apply Ht.
Qed.

Lemma update_agent_untouched id f db x db' : (forall r, R r -> R (f r)) ->
  untouched R db -> update_agent id f db = Ok (x, db') -> untouched R db'.
Proof.
  intros Hf [Ha Hp] H. unfold update_agent in H. destruct (uuid_value id); [|done]. injection H as _ <-.
  constructor; [|done]. by apply alter_unmoved.
Qed.

Ltac untouched_insert H := body_cases H; injection H as _ <-; by constructor.

Lemma op_untouched o D :
  (forall a d id d', o = OpInsertAgent a -> untouched R d -> insert_agent a d = Ok (id, d') -> untouched R d') ->
  untouched R D -> untouched R (apply_op D o).
Proof.
  intros Hins HD. destruct o; cbn [apply_op].
  - unfold InsertAgent. repeat (destruct (str_eqb _ _); [done|]).
    assert (Hs : untouched R (statement (insert_agent a) D).2).
    { apply statement_keeps; [apply tick_untouched| |done]. intros d x d' Hd H. by apply (Hins a d x d'). }
    by destruct (statement _ _) as [[?|?] ?].
  - unfold UpdateHeartbeat. destruct (str_eqb _ _); [done|]. apply exec_keeps; [apply tick_untouched| |done].
    intros d x d' Hd. apply update_agent_untouched; [|done]. apply HR.
  - unfold SetAgentStatus. destruct (str_eqb _ _); [done|]. destruct (negb _); [done|].
    apply exec_keeps; [apply tick_untouched| |done]. intros d x d' Hd. destruct (nullable_text_value _); [|done].
    apply update_agent_untouched; [|done]. apply HR.
  - unfold SetAgentNodeClass. destruct (str_eqb _ _); [done|]. destruct (negb _); [done|].
    apply exec_keeps; [apply tick_untouched| |done]. intros d x d' Hd.
    apply update_agent_untouched; [|done]. apply HR.
  - unfold LogTrade. destruct (str_eqb _ _); [done|]. apply exec_keeps; [apply tick_untouched| |done].
    intros d x d' [] H. unfold insert_trade in H. untouched_insert H.
  - unfold LogStrategistDecision. repeat (destruct (str_eqb _ _); [done|]).
    apply exec_keeps; [apply tick_untouched| |done].
    intros d' x d'' [] H. unfold insert_decision in H. untouched_insert H.
  - unfold InsertPriceHistoryRow. destruct (_ || _); [done|]. apply exec_keeps; [apply tick_untouched| |done].
    intros d x d' [] H. unfold insert_price in H. untouched_insert H.
  - unfold PersistLedger. destruct (str_eqb _ _); [done|]. apply exec_keeps; [apply tick_untouched| |done].
    intros d x d' [] H. unfold insert_ledger in H. untouched_insert H.
  - unfold PersistSweep. destruct (Skipped d); [done|]. destruct (str_eqb _ _); [done|].
    apply exec_keeps; [apply tick_untouched| |done].
    intros d' x d'' [] H. unfold insert_sweep in H. untouched_insert H.
  - unfold PersistOffspringDecision. destruct (str_eqb _ _); [done|].
    apply exec_keeps; [apply tick_untouched| |done].
    intros d' x d'' [Ha Hp] H. unfold update_proposal in H. body_cases H. injection H as _ <-.
    constructor; [done|]. cbn. by rewrite Hp.
  - unfold PersistPostmortem. destruct (str_eqb _ _); [done|].
    destruct (row_of _ _ _) as [[a|]|err]; [|by apply tick_untouched|by apply tick_untouched].
    apply exec_keeps; [apply tick_untouched| |by apply tick_untouched].
    intros d x d' [] H. unfold insert_postmortem in H. untouched_insert H.
  - unfold LogEpoch. destruct (str_eqb _ _); [done|]. apply exec_keeps; [apply tick_untouched| |done].
    intros d x d' [] H. unfold upsert_epoch in H. untouched_insert H.
  - unfold seedEpochRow. apply statement_keeps; [apply tick_untouched| |done].
    intros d x d' [] H. unfold insert_epoch in H. untouched_insert H.
Qed.
End Untouched.

Lemma op_unmoved o D : untouched unmoved D -> untouched unmoved (apply_op D o).
Proof.
  apply op_untouched; [exact unmoved_settled|]. intros a d id d' _ [Ha Hp] H. unfold insert_agent in H.
  body_cases H. injection H as _ <-. constructor; [|done]. cbn [with_agents agents].
  match goal with E : _ = <[_ := _]> _ |- _ => rewrite E end. by apply map_Forall_insert_row.
Qed.

Lemma migrated_untouched R : untouched R migrated.
Proof. constructor; [|done]. intros k r H. cbn [migrated agents] in H. by rewrite lookup_empty in H. Qed.

(** ** What the orchestrator makes of them *)

Lemma filter_scan {A} {PL : PostgresLaws P} (keep : string * A -> bool) db t kv :
  kv ∈ List.filter keep (scan db t) <-> t !! kv.1 = Some kv.2 /\ keep kv = true.
Proof.
  rewrite list_elem_of_In, filter_In, <- list_elem_of_In. unfold scan. rewrite (plan_perm _ _).
  destruct kv as [k x]. by rewrite elem_of_map_to_list.
Qed.

(** The state of an epoch, of a load that went through. *)
Lemma load_state {PL : PostgresLaws P} wall id db st :
  LoadEpochState unmarshal_genome wall id db = Ok st ->
  EpochID st = id /\
  (exists rows, Permutation rows (List.filter live (map_to_list (agents db))) /\
     Snapshots st = map snapshot_of rows /\ SwarmGenomes st = map genome_of rows /\
     Genomes st = list_to_map (map (fun kv => (kv.1, genome_of kv)) rows)) /\
  (exists props, Permutation props (List.filter open_proposal (map_to_list (offspring_proposals db))) /\
     OffspringProposals st = proposals_of unmarshal_genome (later 3 db) props).
Proof.
  unfold LoadEpochState, query. destruct (row_of _ _ _) as [e|]; [|done].
  destruct (outage (db_clock (later 1 db))); [done|]. destruct (outage (db_clock (later 2 db))); [done|].
  intros [= <-]. cbn. split; [done|]. split.
  - eexists. split; [|done]. unfold scan. by rewrite (plan_perm _ _).
  - eexists. split; [|done]. unfold order_by. etrans; [apply insertion_sort_perm|].
    unfold scan. by rewrite (plan_perm _ _).
Qed.

Lemma no_balance_kills {PL : PostgresLaws P} now tight (r : AgentRow) id : unmoved r -> live (id, r) = true ->
  evaluate now DefaultLifecyclePolicyConfig tight (snapshot_of (id, r)) =
  [action (snapshot_of (id, r)) ActionKill "balance_below_minimum"].
Proof.
  intros Hu Hl. unfold evaluate, snapshot_of. cbn [Status]. unfold live in Hl. cbn in Hl.
  assert (Hs : str_eqb (a_status r) "dead" = false).
  { unfold str_eqb. apply bool_decide_eq_false. intros E. rewrite E in Hl. by vm_compute in Hl. }
  cbn [fst snd]. rewrite Hs. unfold killReason. cbn [BalanceUSD]. rewrite (um_balance _ Hu), zero_out. done.
Qed.

Lemma policy_loop_map now cfg tight (f : AgentSnapshot -> LifecycleAction) snaps : forall acc,
  (forall s, s ∈ snaps -> evaluate now cfg tight s = [f s]) ->
  policy_loop now cfg tight snaps acc = acc ++ map f snaps.
Proof.
  induction snaps as [|s snaps IH]; intros acc H; cbn; [by rewrite app_nil_r|].
  rewrite (H s) by left. rewrite IH; [by rewrite <- app_assoc|]. intros q Hq. apply H. by right.
Qed.

(** C15: Whatever the program has written since the migrations, the epoch's
    policy kills every agent that is active or paused, for a balance below the
    minimum, and no proposal is ever loaded: the columns the policy judges
    agents by are written by no statement, and neither are proposals. *)
Theorem every_agent_killed {PL : PostgresLaws P} ops wall id now tight st :
  LoadEpochState unmarshal_genome wall id (run_ops ops migrated) = Ok st ->
  DeterministicLifecyclePolicy now DefaultLifecyclePolicyConfig (Snapshots st) tight =
    map (fun s => action s ActionKill "balance_below_minimum") (Snapshots st) /\
  (forall k r, agents (run_ops ops migrated) !! k = Some r -> a_status r <> "dead" ->
     exists s, s ∈ Snapshots st /\ s_AgentID s = k) /\
  OffspringProposals st = [].
Proof.
  intros H.
  assert (Hu : untouched unmoved (run_ops ops migrated))
    by (apply run_ops_keeps, migrated_untouched; intros; by apply op_unmoved).
  assert (Hok : db_ok (run_ops ops migrated)) by (apply run_ops_keeps, migrated_ok; exact op_ok).
  set (db := run_ops ops migrated) in *. destruct (load_state _ _ _ _ H) as (_ & (rows & Hp & Hs & _) & (ps & Hpp & Ho)).
  split; [|split].
  - unfold DeterministicLifecyclePolicy. rewrite Hs.
    rewrite (policy_loop_map _ _ _ (fun s => action s ActionKill "balance_below_minimum")); [done|].
    intros s ((k & r) & -> & Hin)%list_elem_of_fmap.
    rewrite Hp, list_elem_of_In, filter_In, <- list_elem_of_In, elem_of_map_to_list in Hin. destruct Hin as [Hk Hl].
    apply no_balance_kills; [|done]. exact (ut_agents _ _ Hu _ _ Hk).
  - intros k r Hk Hd. exists (snapshot_of (k, r)). split; [|done]. rewrite Hs. apply list_elem_of_fmap. exists (k, r).
    split; [done|]. rewrite Hp, list_elem_of_In, filter_In, <- list_elem_of_In, elem_of_map_to_list. split; [done|].
    apply mem_spec. cbn. pose proof (ok_status _ (ok_agents _ Hok) _ _ Hk) as Hst.
    apply elem_of_cons in Hst as [->|Hst]; [left|]. apply elem_of_cons in Hst as [->|Hst]; [right; left|].
    by apply list_elem_of_singleton in Hst.
  - rewrite Ho. rewrite (ut_proposals _ _ Hu), map_to_list_empty in Hpp. cbn in Hpp. by apply Permutation_nil_r in Hpp as ->.
Qed.

(** ** The queue of proposals *)

Lemma proposal_ids rows : forall db,
  map ProposalID (proposals_of unmarshal_genome db rows) = map fst rows.
Proof. induction rows as [|kv rows IH]; intros db; [done|]. cbn. by rewrite IH. Qed.

Lemma exec_done context (body : database -> result (unit * database)) db db' :
  exec context body db = (None, db') -> exists x, body (tick db) = Ok (x, db').
Proof.
  unfold exec, statement. destruct (outage _); [done|]. destruct (body (tick db)) as [[x d]|err]; [|done].
  intros [= <-]. by exists x.
Qed.

(** A decision that is stored takes effect on the queue at once: the next
    load has the proposals that were open before, except the decided one, which
    it has only if the decision was to revise it. *)
Theorem decision_settles_queue {PL : PostgresLaws P} d db db' u wall id st k :
  PersistOffspringDecision d db = (None, db') -> uuid_in (od_ProposalID d) = Some u ->
  LoadEpochState unmarshal_genome wall id db' = Ok st ->
  k ∈ map ProposalID (OffspringProposals st) <->
  exists p, offspring_proposals db !! k = Some p /\
    if decide (k = u) then Outcome d = OffspringRevise else open_proposal (k, p) = true.
Proof.
  intros H Hu Hl. destruct (load_state _ _ _ _ Hl) as (_ & _ & (rows & Hp & Ho)).
  rewrite Ho, proposal_ids.
  unfold PersistOffspringDecision in H. destruct (str_eqb _ _); [done|].
  apply exec_done in H as [x H]. unfold update_proposal, uuid_value in H. rewrite Hu in H. cbn [some_or] in H.
  body_cases H. injection H as _ <-. cbn [with_proposals offspring_proposals tick] in Hp.
  match type of Hp with context [alter ?f u _] => set (g := f) in Hp end.
  assert (Hg : forall p, p_status (g p) = outcome_status (Outcome d)) by done. clearbody g.
  assert (Hin : forall p', (k, p') ∈ rows <-> alter g u (offspring_proposals db) !! k = Some p' /\
    open_proposal (k, p') = true).
  { intros p'. by rewrite Hp, list_elem_of_In, filter_In, <- list_elem_of_In, elem_of_map_to_list. }
  assert (Hk : k ∈ map fst rows <-> exists p', (k, p') ∈ rows).
  { split; [intros ((k' & p') & -> & Hp')%list_elem_of_fmap; by exists p'|].
    intros [p' Hp']. apply list_elem_of_fmap. by exists (k, p'). }
  rewrite Hk. clear Hk. destruct (decide (k = u)) as [->|Hne].
  - split.
    + intros [p' [Ea Hopen]%Hin]. rewrite lookup_alter_eq in Ea.
      destruct (offspring_proposals db !! u) as [p|]; [|done]. injection Ea as <-. exists p. split; [done|].
      unfold open_proposal in Hopen. cbn [snd] in Hopen. rewrite Hg in Hopen. by destruct (Outcome d).
    + intros (p & Ep & Er). eexists. apply Hin. rewrite lookup_alter_eq, Ep. split; [done|].
      unfold open_proposal. cbn [snd]. by rewrite Hg, Er.
  - split.
    + intros [p' [Ea Hopen]%Hin]. rewrite lookup_alter_ne in Ea by done. by exists p'.
    + intros (p & Ep & Hopen). exists p. apply Hin. by rewrite lookup_alter_ne by done.
Qed.

(** ** The row of an epoch *)

Definition epoch_at (id : string) (n : Z) (t : Time) (db : database) : Prop :=
  exists e, epochs db !! id = Some e /\ e_epoch_number e = n /\ e_started_at e = t.

Ltac same_epochs H := body_cases H; injection H as _ <-; done.

Lemma op_epoch_at id n t o D : epoch_at id n t D -> epoch_at id n t (apply_op D o).
Proof.
  assert (Ht : forall d, epoch_at id n t d -> epoch_at id n t (tick d)) by done.
  assert (Hup : forall i f d x d', epoch_at id n t d -> update_agent i f d = Ok (x, d') -> epoch_at id n t d').
  { intros i f d x d' Hd H. unfold update_agent in H. destruct (uuid_value i); [|done]. by injection H as _ <-. }
  intros HD. destruct o; cbn [apply_op].
  - unfold InsertAgent. repeat (destruct (str_eqb _ _); [done|]).
    assert (Hs : epoch_at id n t (statement (insert_agent a) D).2).
    { apply statement_keeps; [done| |done]. intros d x d' Hd H. unfold insert_agent in H. same_epochs H. }
    by destruct (statement _ _) as [[?|?] ?].
  - unfold UpdateHeartbeat. destruct (str_eqb _ _); [done|]. apply exec_keeps; [done| |done]. intros *; apply Hup.
  - unfold SetAgentStatus. destruct (str_eqb _ _); [done|]. destruct (negb _); [done|].
    apply exec_keeps; [done| |done]. intros d x d' Hd. destruct (nullable_text_value _); [|done]. by apply Hup.
  - unfold SetAgentNodeClass. destruct (str_eqb _ _); [done|]. destruct (negb _); [done|].
    apply exec_keeps; [done| |done]. intros *; apply Hup.
  - unfold LogTrade. destruct (str_eqb _ _); [done|]. apply exec_keeps; [done| |done].
    intros d x d' Hd H. unfold insert_trade in H. same_epochs H.
  - unfold LogStrategistDecision. repeat (destruct (str_eqb _ _); [done|]). apply exec_keeps; [done| |done].
    intros d' x d'' Hd H. unfold insert_decision in H. same_epochs H.
  - unfold InsertPriceHistoryRow. destruct (_ || _); [done|]. apply exec_keeps; [done| |done].
    intros d x d' Hd H. unfold insert_price in H. same_epochs H.
  - unfold PersistLedger. destruct (str_eqb _ _); [done|]. apply exec_keeps; [done| |done].
    intros d x d' Hd H. unfold insert_ledger in H. same_epochs H.
  - unfold PersistSweep. destruct (Skipped d); [done|]. destruct (str_eqb _ _); [done|].
    apply exec_keeps; [done| |done]. intros d' x d'' Hd H. unfold insert_sweep in H. same_epochs H.
  - unfold PersistOffspringDecision. destruct (str_eqb _ _); [done|]. apply exec_keeps; [done| |done].
    intros d' x d'' Hd H. unfold update_proposal in H. same_epochs H.
  - unfold PersistPostmortem. destruct (str_eqb _ _); [done|]. destruct (row_of _ _ _) as [[a|]|err]; [|done|done].
    apply exec_keeps; [done| |done]. intros d x d' Hd H. unfold insert_postmortem in H. same_epochs H.
  - unfold LogEpoch. destruct (str_eqb _ _); [done|]. apply exec_keeps; [done| |done].
    intros d x d' (e & He & Hn & Hs) H. unfold upsert_epoch in H. destruct (uuid_value _) as [u|]; [|done].
    body_cases H. injection H as _ <-. unfold epoch_at. cbn [with_epochs epochs].
    destruct (decide (u = id)) as [->|Hne].
    + rewrite He. eexists. by rewrite lookup_insert_eq.
    + exists e. destruct (epochs d !! u); by rewrite lookup_insert_ne by done.
  - unfold seedEpochRow. apply statement_keeps; [done| |done].
    intros d x d' (e & He & Hn & Hs) H. unfold insert_epoch in H.
    repeat match type of H with (match ?x with _ => _ end) = _ => destruct x eqn:?; [|done] end.
    match goal with E : insert_row _ _ _ = Ok _ |- _ => apply insert_row_ok in E as (_ & Hf & E) end.
    injection H as _ <-. exists e. cbn [with_epochs epochs].
    match goal with E : _ = <[_ := _]> _ |- _ => rewrite E end.
    rewrite lookup_insert_ne; [done|]. intros E. congruence.
Qed.

(** One epoch is one row: the row seeded before the epoch is the one its
    log closes, whatever was written in between; it keeps the number after the
    last one and the start it was seeded with, and gets the end, the counts and
    the breaker's flag of the result; no row is added. *)
Theorem epoch_row_closed db id db1 ops r db3 :
  seedEpochRow db = (Ok id, db1) -> uuid_in (er_EpochID r) = Some id ->
  LogEpoch r (run_ops ops db1) = (None, db3) ->
  dom (epochs db3) = dom (epochs (run_ops ops db1)) /\
  exists e, epochs db3 !! id = Some e /\ e_epoch_number e = next_number db /\
    e_started_at e = pg_now (S (db_clock db)) /\ e_ended_at e = timestamptz_in (EndedAt r) /\
    e_agents_killed e = count_actions ActionKill r /\ e_agents_spawned e = count_approved r /\
    e_circuit_breaker_triggered e = BreakerTripped r.
Proof.
  intros Hseed Hu Hlog.
  assert (H1 : epoch_at id (next_number db) (pg_now (S (db_clock db))) db1).
  { unfold seedEpochRow, statement in Hseed. destruct (outage _); [done|].
    destruct (insert_epoch (tick db)) as [[x d]|] eqn:E; [|done]. injection Hseed as -> ->.
    unfold insert_epoch in E. destruct (int4_value (next_number (tick db))) as [n|] eqn:En; [|done].
    apply int4_value_id in En as ->. body_cases E. injection E as <- <-. eexists. cbn [with_epochs epochs].
    match goal with E : _ = <[_ := _]> _ |- _ => rewrite E end. rewrite lookup_insert_eq. by split. }
  assert (H2 : epoch_at id (next_number db) (pg_now (S (db_clock db))) (run_ops ops db1))
    by (apply run_ops_keeps; [intros *; apply op_epoch_at|done]).
  destruct H2 as (e & He & Hn & Hs). set (db2 := run_ops ops db1) in *.
  unfold LogEpoch in Hlog. destruct (str_eqb _ _); [done|]. apply exec_done in Hlog as [x Hb].
  unfold upsert_epoch, uuid_value in Hb. rewrite Hu in Hb. cbn [some_or] in Hb.
  destruct (int4_value (next_number _)) as [n'|]; [|done].
  destruct (int4_value (_ + _)) as [tot|]; [|done].
  destruct (int4_value (count_actions ActionKill r)) as [kl|] eqn:Ek; [|done]. apply int4_value_id in Ek as ->.
  destruct (int4_value (count_approved r)) as [ap|] eqn:Ea; [|done]. apply int4_value_id in Ea as ->.
  injection Hb as _ <-. change (epochs (tick db2)) with (epochs db2). cbn [with_epochs epochs]. rewrite He. split.
  - rewrite dom_insert_L. apply elem_of_dom_2 in He. by apply subseteq_union_1_L, singleton_subseteq_l.
  - eexists. rewrite lookup_insert_eq. split; [done|]. by repeat split.
Qed.

(** ** The ledger of the last epoch *)

Lemma order_by_first {A} (f : A -> Z) (rows : list A) x :
  x ∈ rows -> (forall y, y ∈ rows -> y = x \/ f y < f x) ->
  head (order_by (fun a b => f b <? f a) rows) = Some x.
Proof.
  intros Hx Hlt. unfold order_by. set (lt := fun a b => f b <? f a).
  assert (Hp : Permutation (insertion_sort lt rows) rows) by apply insertion_sort_perm.
  assert (Hs : sorted_by lt (insertion_sort lt rows)).
  { apply (insertion_sort_sorted (fun _ => True)); [|by apply Forall_true]. by apply (strict_weak_desc _ _ f). }
  rewrite <- Hp in Hx. destruct (insertion_sort lt rows) as [|y l]; [by apply not_elem_of_nil in Hx|].
  cbn. f_equal. destruct (Hlt y) as [E|Hy]; [rewrite <- Hp; left|done|].
  apply elem_of_cons in Hx as [E|Hx]; [done|].
  inversion Hs as [|? ? _ Hl]; subst. rewrite Forall_forall in Hl.
  specialize (Hl x Hx). unfold lt in Hl. lia.
Qed.

(** An amount as its column keeps it. *)
Definition kept (x : float) : float :=
  match numeric_in 20 9 x with Some n => numeric_out n | None => x end.

Definition kept_ledger (l : Ledger) : Ledger := {|
  l_AgentID := l_AgentID l; l_EpochID := ""; RealizedTradingPnL := kept (RealizedTradingPnL l);
  TradingFees := kept (TradingFees l); SlippageCost := kept (SlippageCost l); LLMCost := kept (LLMCost l);
  InfraRent := kept (InfraRent l); RPCCost := kept (RPCCost l);
  UpstreamPaidToParent := kept (UpstreamPaidToParent l); UpstreamPaidToRoot := kept (UpstreamPaidToRoot l);
  RealizedNetProfit := kept (RealizedNetProfit l) |}.

Lemma usd_kept x n : usd x = Ok n -> numeric_out n = kept x.
Proof. unfold usd, numeric_value, some_or, kept. destruct (numeric_in 20 9 x); [|done]. by intros [= ->]. Qed.

Lemma text_kept id u : uuid_value id = Ok u -> uuid_in id = Some u.
Proof. unfold uuid_value, some_or. destruct (uuid_in id); [|done]. by intros [= ->]. Qed.

Lemma references_id {A} (t : gmap string A) id u : references t id = Ok u -> uuid_in id = Some u.
Proof.
  unfold references, check. destruct (uuid_value id) as [v|] eqn:E; [|done]. case_bool_decide; [|done].
  intros [= ->]. exact (text_kept _ _ E).
Qed.

(** C38: The ledger an epoch stores is the one the solvency gate reads next: as
    long as no row of the agent was created as late, [latestLedgerFor] returns
    the amounts of the stored ledger as their columns keep them. *)
Theorem ledger_read_back {PL : PostgresLaws P} l db db' :
  PersistLedger l db = (None, db') -> outage (db_clock db') = None ->
  (forall k g, agent_ledgers db !! k = Some g -> uuid_in (l_AgentID l) = Some (g_agent_id g) ->
     g_created_at g < pg_now (S (db_clock db))) ->
  latestLedgerFor (l_AgentID l) db' = kept_ledger l.
Proof.
  intros H Hout Hold. unfold PersistLedger in H. destruct (str_eqb _ _); [done|]. apply exec_done in H as [x Hb].
  unfold insert_ledger in Hb. destruct (references _ _) as [u|] eqn:Eu; [|done]. apply references_id in Eu.
  destruct (nullable_references _ _) as [ep|]; [|done].
  do 9 (match type of Hb with (match usd ?y with _ => _ end) = _ =>
    let E := fresh "Ek" in destruct (usd y) as [?|] eqn:E; [apply usd_kept in E|done] end).
  destruct (insert_row _ _ _) as [ins|] eqn:Ei; [|done]. apply insert_row_ok in Ei as (_ & Hf & Et).
  injection Hb as _ <-. unfold latestLedgerFor, query. rewrite Hout. unfold uuid_value. rewrite Eu. cbn [some_or].
  match type of Et with _ = <[_ := ?r]> _ => set (row := r) in * end.
  rewrite (order_by_first (fun kv => g_created_at kv.2) _ (ins.1, row)).
  - unfold kept_ledger. cbn. by repeat match goal with E : numeric_out _ = kept _ |- _ => rewrite <- E; clear E end.
  - apply filter_scan. change (agent_ledgers (tick (with_ledgers ins.2 (tick db)))) with (ins.2). rewrite Et. cbn [fst snd].
    rewrite lookup_insert_eq. split; [done|]. by apply bool_decide_eq_true.
  - intros [k g] Hin. change (agent_ledgers (tick (with_ledgers ins.2 (tick db)))) with (ins.2) in Hin.
    apply filter_scan in Hin as [Hk Hg]. rewrite Et in Hk. cbn [fst snd] in *.
    apply lookup_insert_Some in Hk as [[<- <-]|[_ Hk]]; [by left|right].
    apply bool_decide_eq_true in Hg. subst u. cbn. exact (Hold _ _ Hk Eu).
Qed.
End Integrity.

(** ** On a database *)

Section Samples.
#[local] Existing Instance float_postgres.
#[local] Existing Instance float_postgres_laws.

Definition boot : list db_op :=
  [OpInsertAgent (sample_agent "root" "w1"); OpHeartbeat "u1"; OpInsertAgent (sample_agent "child" "w2");
   OpStatus "u3" "paused" ""; OpClass "u3" "shadow"; OpSeedEpoch].

Definition sample_db : database := run_ops boot migrated.

Definition no_genome : Genome.AgentGenome := genome_of ("", {|
  a_parent_id := None; a_name := ""; a_generation := 0; a_chain := ""; a_wallet_address := "";
  a_wallet_key_encrypted := ""; a_task_type := ""; a_strategy_config := ""; a_strategist_prompt := "";
  a_strategist_model := ""; a_strategist_interval_seconds := 0; a_bandit_policies := ""; a_bandit_state := "";
  a_learned_rules := ""; a_sleep_schedule := ""; a_reproduction_policy := ""; a_cost_policy := "";
  a_communication_policy := ""; a_node_class := ""; a_health_state := ""; a_capital_allocated := 0%float;
  a_current_balance := 0%float; a_peak_balance := 0%float; a_lineage_depth := 0;
  a_unpaid_operating_debt_usd := 0%float; a_status := ""; a_created_at := 0; a_killed_at := None;
  a_kill_reason := None; a_total_trades := 0; a_total_pnl := 0%float; a_consecutive_negative_epochs := 0;
  a_last_heartbeat_at := None |}).

Definition first_epoch : result EpochState := LoadEpochState (fun _ => no_genome) 0 "u6" sample_db.

Definition loaded (r : result EpochState) : EpochState :=
  match r with
  | Ok st => st
  | Fail _ => {| EpochID := ""; StartedAt := 0; Snapshots := []; Genomes := ∅; SwarmGenomes := [];
                 CarriedDebt_ := ∅; BudgetTight_ := false; OffspringProposals := []; DeadAgents := [] |}
  end.

Lemma loaded_ok r : is_ok r = true -> r = Ok (loaded r).
Proof. by destruct r. Qed.

Lemma fst_pair {A B} (p : A * B) a : p.1 = a -> p = (a, p.2).
Proof. destruct p. by intros <-. Qed.

(** A fresh swarm of a funded and a paused agent is killed by its first
    epoch. *)
Lemma every_agent_killed_witness :
  map (fun a => (a_AgentID a, Kind a))
    (DeterministicLifecyclePolicy 100 DefaultLifecyclePolicyConfig (Snapshots (loaded first_epoch)) false) =
  [("u3", ActionKill); ("u1", ActionKill)].
Proof.
  assert (H : first_epoch = Ok (loaded first_epoch)) by (apply loaded_ok; vm_compute; reflexivity).
  rewrite (proj1 (every_agent_killed (fun _ => no_genome) boot 0 "u6" 100 false (loaded first_epoch) H)).
  vm_compute. reflexivity.
Defined.

Lemma writes_keep_records_witness :
  kept_records migrated sample_db /\ db_ok sample_db /\
  (fun kv => (kv.1, a_status kv.2, a_node_class kv.2)) <$> map_to_list (agents sample_db) =
    [("u3", "paused", "shadow"); ("u1", "active", "funded")].
Proof.
  destruct (writes_keep_records boot migrated) as [Hk Hs].
  split; [exact Hk|]. split; [exact (Hs migrated_ok)|]. vm_compute. reflexivity.
Defined.

Definition with_proposal (id status : string) (db : database) : database :=
  with_proposals (<[id := {|
    p_proposing_agent_id := "u1"; p_epoch_id := None; p_proposed_genome := "{}";
    p_requested_seed_capital_usd := 10%float; p_requested_api_reserve_usd := 1%float;
    p_requested_failure_buffer_usd := 1%float; p_rationale := ""; p_quality_check_verdict := None;
    p_quality_check_reasoning := None; p_bull_case := None; p_bear_case := None; p_adversarial_synthesis := None;
    p_status := status; p_rejection_reason := None; p_created_child_id := None; p_created_at := 5 |}]>
    (offspring_proposals db)) db.

Definition queued : database := with_proposal "p1" "pending" (with_proposal "p2" "quality_check" sample_db).

Definition approval : OffspringDecision := {|
  od_ProposalID := "p1"; od_ParentID := "u1"; Outcome := OffspringApproved; RejectTag := ""; od_CostUSD := 0;
  Quality := None; Adversarial := None |}.

Definition after_approval : database := (PersistOffspringDecision approval queued).2.

Lemma decision_settles_queue_witness :
  ("p1" ∉ map ProposalID (OffspringProposals (loaded (LoadEpochState (fun _ => no_genome) 0 "u6" after_approval)))) /\
  "p2" ∈ map ProposalID (OffspringProposals (loaded (LoadEpochState (fun _ => no_genome) 0 "u6" after_approval))).
Proof.
  assert (Hp : PersistOffspringDecision approval queued = (None, after_approval))
    by (apply fst_pair; vm_compute; reflexivity).
  assert (Hl : LoadEpochState (fun _ => no_genome) 0 "u6" after_approval =
    Ok (loaded (LoadEpochState (fun _ => no_genome) 0 "u6" after_approval))) by (apply loaded_ok; vm_compute; reflexivity).
  pose proof (fun k => decision_settles_queue (fun _ => no_genome) approval queued after_approval "p1" 0 "u6" _ k
    Hp eq_refl Hl) as H.
  split.
  - intros Hin. apply H in Hin as (p & _ & Ho). discriminate Ho.
  - apply H. eexists. split.
    + unfold queued, with_proposal. cbn [with_proposals offspring_proposals].
      rewrite lookup_insert_ne by done. apply lookup_insert_eq.
    + vm_compute. reflexivity.
Defined.

Definition sample_result : EpochResult := {|
  er_EpochID := "u6"; LifecycleActions := [{| a_AgentID := "u1"; Kind := ActionKill; a_Reason := "" |}];
  OffspringDecisions := []; Postmortems := []; BreakerTripped := true; BreakerReason := "";
  EndedAt := 5000000 |}.

Definition before_seed : database := run_ops (take 5 boot) migrated.

Lemma epoch_row_closed_witness :
  exists e, epochs (LogEpoch sample_result (seedEpochRow before_seed).2).2 !! "u6" = Some e /\ e_epoch_number e = 1 /\
    e_agents_killed e = 1 /\ e_circuit_breaker_triggered e = true.
Proof.
  assert (Hs : seedEpochRow before_seed = (Ok "u6", (seedEpochRow before_seed).2))
    by (apply fst_pair; vm_compute; reflexivity).
  assert (Hl : LogEpoch sample_result (seedEpochRow before_seed).2 =
    (None, (LogEpoch sample_result (seedEpochRow before_seed).2).2)) by (apply fst_pair; vm_compute; reflexivity).
  destruct (epoch_row_closed before_seed "u6" (seedEpochRow before_seed).2 [] sample_result _ Hs eq_refl Hl)
    as (_ & e & He & Hn & _ & _ & Hk & _ & Ht).
  exists e. split; [exact He|]. rewrite Hn, Hk, Ht. vm_compute. by repeat split.
Defined.

Definition sample_ledger : Ledger := {|
  l_AgentID := "u1"; l_EpochID := "u6"; RealizedTradingPnL := 12; TradingFees := 1; SlippageCost := 0; LLMCost := 2;
  InfraRent := 1; RPCCost := 0; UpstreamPaidToParent := 0; UpstreamPaidToRoot := 0; RealizedNetProfit := 8 |}.

Lemma ledger_read_back_witness :
  latestLedgerFor "u1" (PersistLedger sample_ledger sample_db).2 = kept_ledger sample_ledger.
Proof.
  assert (Hp : PersistLedger sample_ledger sample_db = (None, (PersistLedger sample_ledger sample_db).2))
    by (apply fst_pair; vm_compute; reflexivity).
  apply (ledger_read_back sample_ledger sample_db (PersistLedger sample_ledger sample_db).2 Hp eq_refl).
  assert (He : map fst (map_to_list (agent_ledgers sample_db)) = []) by (vm_compute; reflexivity).
  apply map_eq_nil, map_to_list_empty_iff in He.
  intros k g H. rewrite He, lookup_empty in H. discriminate H.
Defined.
End Samples.
