(* ===== verification/DbRuntime.v ===== *)
(** * The database behind the runtime

    The promises the swarm's runtime is proved against, discharged by the
    statements of [internal/db/queries.go]. *)
From Stdlib Require Import ZArith Lia Floats.
From stdpp Require Import base list strings gmap.
From S2P Require Import Prelude GoBase GoFloat Lifecycle Swarm SwarmSync Json Database.
Open Scope Z_scope.

Section Runtime.
Context {P : Postgres} {PL : PostgresLaws P}.

(** Every key of the agents table is a UUID in its canonical text. *)
Definition canonical (db : database) : Prop :=
  forall id, is_Some (agents db !! id) -> uuid_in id = Some id.

Lemma update_agent_canonical id f db x db' : canonical db -> update_agent id f db = Ok (x, db') -> canonical db'.
Proof.
  intros Hc. unfold update_agent. destruct (uuid_value id) as [u|]; [|done]. intros [= _ <-] k Hk.
  cbn in Hk. apply Hc. by apply lookup_alter_is_Some in Hk.
Qed.

(** The body of the INSERT: its id is new, its row active, and no other row
    changes. *)
Lemma insert_agent_spec a db id db' : insert_agent a db = Ok (id, db') ->
  id = gen_random_uuid (db_clock db) /\ agents db !! id = None /\
  exists r, a_status r = "active" /\ agents db' = <[id := r]> (agents db).
Proof.
  intros H. unfold insert_agent in H.
  repeat match type of H with (match ?x with _ => _ end) = _ => destruct x eqn:?; [|done] end.
  match goal with E : insert_row _ _ _ = Ok _ |- _ => apply insert_row_ok in E as (Hid & Hf & Et) end.
  injection H as <- <-. split; [done|]. split; [done|]. eexists. split; [|exact Et]. done.
Qed.

Lemma InsertAgent_canonical a db : canonical db -> canonical (Database.InsertAgent a db).2.
Proof.
  intros Hc. unfold Database.InsertAgent. repeat (destruct (str_eqb _ _); [done|]).
  assert (Hs : canonical (statement (insert_agent a) db).2).
  { apply statement_keeps; [done| |done]. intros d id d' Hd (-> & _ & r & _ & Et)%insert_agent_spec k Hk.
    rewrite Et in Hk. apply lookup_insert_is_Some in Hk as [<-|[_ Hk]]; [apply uuid_gen|by apply Hd]. }
  by destruct (statement _ _) as [[?|?] ?].
Qed.

Lemma SetAgentStatus_canonical id st r db : canonical db -> canonical (Database.SetAgentStatus id st r db).2.
Proof.
  intros Hc. unfold Database.SetAgentStatus. destruct (str_eqb _ _); [done|]. destruct (negb _); [done|].
  apply exec_keeps; [done| |done]. intros d x d' Hd. destruct (nullable_text_value _); [|done].
  by apply update_agent_canonical.
Qed.

Lemma SetAgentNodeClass_canonical id c db : canonical db -> canonical (Database.SetAgentNodeClass id c db).2.
Proof.
  intros Hc. unfold Database.SetAgentNodeClass. destruct (str_eqb _ _); [done|]. destruct (negb _); [done|].
  apply exec_keeps; [done| |done]. intros d x d' Hd. by apply update_agent_canonical.
Qed.

(** ** The store of the lifecycle manager and its table *)

Definition pg_db : Type := { db : database | canonical db }.

Definition pg_agents (db : pg_db) : gmap string AgentRow := agents (`db).

(** The columns of a row the runtime reads, and a row for an agent it spawns:
    its wallet and its policies come with it. *)
Definition runtime_agent (a : Database.Agent) : Lifecycle.Agent := {|
  ag_ID := da_ID a; ag_Name := da_Name a; ag_Chain := da_Chain a; ag_TaskType := da_TaskType a;
  ag_StrategyConfig := da_StrategyConfig a; ag_StrategistPrompt := da_StrategistPrompt a;
  ag_StrategistModel := da_StrategistModel a; ag_StrategistIntervalSeconds := da_StrategistIntervalSeconds a;
  ag_BanditPolicies := da_BanditPolicies a; ag_NodeClass := da_NodeClass a; ag_Generation := da_Generation a;
  ag_LineageDepth := da_LineageDepth a; ag_CapitalAllocated := da_CapitalAllocated a |}.

Context (columns : Lifecycle.Agent -> Database.Agent).

Definition pg_store : LifecycleStore := {|
  DB := pg_db;
  Lifecycle.InsertAgent a db :=
    ((Database.InsertAgent (columns a) (`db)).1,
     exist _ (Database.InsertAgent (columns a) (`db)).2 (InsertAgent_canonical (columns a) (`db) (proj2_sig db)));
  Lifecycle.SetAgentStatus id st r db :=
    ((Database.SetAgentStatus id st r (`db)).1,
     exist _ (Database.SetAgentStatus id st r (`db)).2 (SetAgentStatus_canonical id st r (`db) (proj2_sig db)));
  Lifecycle.SetAgentNodeClass id c db :=
    ((Database.SetAgentNodeClass id c (`db)).1,
     exist _ (Database.SetAgentNodeClass id c (`db)).2 (SetAgentNodeClass_canonical id c (`db) (proj2_sig db)));
|}.

Definition pg_table : AgentTable pg_store := {|
  SwarmSync.status := fun (db : @DB pg_store) id => a_status <$> agents (`db) !! id;
  SwarmSync.ListActiveAgents := fun (db : @DB pg_store) =>
    let? rows := Database.ListActiveAgents (`db) in Ok (map runtime_agent rows) |}.

Lemma scan_ids {A} (keep : string * A -> bool) (t : gmap string A) db lt :
  NoDup (map fst (order_by lt (List.filter keep (scan db t)))).
Proof.
  assert (H : Permutation (order_by lt (List.filter keep (scan db t))) (List.filter keep (map_to_list t))).
  { unfold order_by. rewrite insertion_sort_perm. unfold scan. by rewrite (plan_perm _ _). }
  rewrite H. clear H. pose proof (NoDup_fst_map_to_list t) as Hn.
  induction (map_to_list t) as [|kv l IH]; [constructor|]. rewrite fmap_cons in Hn.
  apply NoDup_cons in Hn as [Hk Hn]. cbn. destruct (keep kv); [|auto]. cbn. constructor; [|auto].
  intros (kv' & E & Hin)%list_elem_of_fmap. apply Hk. apply list_elem_of_In, filter_In in Hin as [Hin _].
  apply list_elem_of_fmap. exists kv'. split; [done|]. by apply list_elem_of_In.
Qed.

Lemma order_by_elem {A} {lt : A -> A -> bool} {rows x} : x ∈ order_by lt rows <-> x ∈ rows.
Proof. unfold order_by. by rewrite insertion_sort_perm. Qed.

(** An UPDATE through [exec] on a row that is there. *)
Lemma exec_update context (body : database -> result (unit * database)) id f db :
  uuid_in id = Some id ->
  body (tick db) = update_agent id f (tick db) \/ is_ok (body (tick db)) = false ->
  let '(err, db') := exec context body db in
  agents db' = match err with None => alter f id (agents db) | Some _ => agents db end.
Proof.
  intros Hid Hb. unfold exec, statement. destruct (outage _); [done|].
  destruct Hb as [-> |Hb]; [|by destruct (body (tick db)) as [[??]|]].
  unfold update_agent, uuid_value. by rewrite Hid.
Qed.

Lemma status_alter (t : gmap string AgentRow) id f st id' : is_Some (t !! id) ->
  (forall r, a_status (f r) = st) ->
  a_status <$> alter f id t !! id' =
  match a_status <$> t !! id' with
  | Some s => if decide (id = id') then Some st else Some s
  | None => None
  end.
Proof.
  intros [r Hr] Hf. destruct (decide (id = id')) as [<-|Hne].
  - rewrite lookup_alter_eq, Hr. cbn. by rewrite Hf.
  - rewrite lookup_alter_ne by done. by destruct (t !! id').
Qed.

(** An error, or an update of one row's status. *)
Lemma status_law context body id f st (db : pg_db) id' :
  is_Some (agents (`db) !! id) -> (forall r, a_status (f r) = st) ->
  body (tick (`db)) = update_agent id f (tick (`db)) \/ is_ok (body (tick (`db))) = false ->
  a_status <$> agents (exec context body (`db)).2 !! id' =
  match (exec context body (`db)).1, a_status <$> agents (`db) !! id' with
  | None, Some _ => if decide (id = id') then Some st else a_status <$> agents (`db) !! id'
  | _, o => o
  end.
Proof.
  intros Hs Hf Hb. pose proof (exec_update context body id f (`db) (proj2_sig db id Hs) Hb) as H.
  destruct (exec context body (`db)) as [[e|] db']; cbn [fst snd]; rewrite H.
  - by destruct (a_status <$> _).
  - rewrite (status_alter _ _ _ st) by done. by destruct (a_status <$> _).
Qed.

Lemma row_there (db : pg_db) id : SwarmSync.status (AgentTable := pg_table) db id <> None ->
  is_Some (agents (`db) !! id).
Proof. cbn. by destruct (agents (`db) !! id) as [r|]; [eexists|]. Qed.

Lemma pg_table_laws : AgentTableLaws pg_store pg_table.
Proof.
  constructor.
  - intros id st r db id' Hs%row_there.
    cbn [Lifecycle.SetAgentStatus pg_store SwarmSync.status pg_table proj1_sig]. unfold Database.SetAgentStatus.
    destruct (str_eqb id ""); cbn [fst snd]; [by destruct (_ <$> agents (`db) !! id')|].
    destruct (negb _); cbn [fst snd]; [by destruct (_ <$> agents (`db) !! id')|].
    destruct (nullable_text_value (nullableText r)) as [reason|e].
    + apply (status_law _ _ id (with_status st reason (pg_now (db_clock (tick (`db)))))); [done|done|by left].
    + apply (status_law _ _ id (with_status st None 0)); [done|done|by right].
  - intros id c db id' Hs%row_there.
    cbn [Lifecycle.SetAgentNodeClass pg_store SwarmSync.status pg_table proj1_sig]. unfold Database.SetAgentNodeClass.
    destruct (str_eqb id ""); [done|]. destruct (negb _); [done|].
    pose proof (exec_update "db: set node class: %w" (update_agent id (with_class c)) id (with_class c) (`db)
      (proj2_sig db id Hs) (or_introl eq_refl)) as H.
    destruct (exec _ _ _) as [[e|] db']; cbn [fst snd]; rewrite H; [done|].
    destruct (decide (id = id')) as [<-|Hne]; [|by rewrite lookup_alter_ne].
    rewrite lookup_alter_eq. by destruct (agents (`db) !! id).
  - intros row db id'. cbn [Lifecycle.InsertAgent pg_store SwarmSync.status pg_table proj1_sig].
    unfold Database.InsertAgent. repeat (destruct (str_eqb _ _); [done|]).
    unfold statement. destruct (outage _); [done|].
    destruct (insert_agent _ _) as [[id d]|e] eqn:E; [|done]. cbn [fst snd].
    apply insert_agent_spec in E as (-> & Hf & r & Hr & Et). change (agents (tick (`db))) with (agents (`db)) in *.
    split; [|split].
    + intros Eq. pose proof (uuid_gen (db_clock (tick (`db)))) as Hu. by rewrite Eq, uuid_empty in Hu.
    + by rewrite Hf.
    + rewrite Et. destruct (decide (_ = id')) as [<-|Hne].
      * rewrite lookup_insert_eq. cbn. by rewrite Hr.
      * by rewrite lookup_insert_ne by done.
  - intros db rows. cbn [SwarmSync.ListActiveAgents SwarmSync.status pg_table]. unfold Database.ListActiveAgents, query.
    destruct (outage _); [done|]. intros [= <-].
    assert (Hids : forall l, ag_ID <$> map runtime_agent (map scan_agent l) = map fst l).
    { intros l. by rewrite !map_map. }
    rewrite Hids. split; [apply scan_ids|].
    intros id ((k & r) & -> & Hin)%list_elem_of_fmap. apply order_by_elem, list_elem_of_In, filter_In in Hin as [Hin Ha].
    apply list_elem_of_In in Hin. unfold scan in Hin. rewrite (plan_perm _ _), elem_of_map_to_list in Hin.
    cbn [fst snd] in *. change (agents (tick (`db))) with (agents (`db)) in Hin. rewrite Hin. cbn.
    by apply bool_decide_eq_true in Ha as ->.
Qed.

(** The Postgres statements keep every promise the runtime relies on: the
    status of an agent is what [SetAgentStatus] last stored for it, a change of
    class leaves it alone, an inserted agent is new and active, and the listing
    is the active agents, each once; a statement that fails changes nothing. *)
Theorem postgres_keeps_table : AgentTableLaws pg_store pg_table.
Proof. exact pg_table_laws. Qed.

(** ** The swarm over Postgres *)

Context {E : EventCodec} {EL : EventCodecLaws E}.
Context (Build : string -> string -> option gerror) (LLMGet : string -> option gerror).
Context (decode_names : string -> result (list string)).
Hypothesis Marshal_total : forall ev, exists p, Marshal ev = Ok p.

(** C6: The runtime over Postgres: from the agents a boot loads, whatever
    transitions and spawns the statements go through with, and however the
    messages about them are handled in between, once all messages are handled
    every running agent's row says active, every paused runner's row is there
    and not dead. *)
Theorem runners_follow_postgres (db0 : pg_db) rows s0 w :
  registered s0 -> runners s0 = ∅ -> Database.ListActiveAgents (`db0) = Ok rows ->
  let s1 := (LoadAndStart Build LLMGet decode_names s0 (Ok (map runtime_agent rows))).2 in
  reach (w_step (T := pg_table) Build LLMGet decode_names)
    {| w_db := db0 : @DB pg_store; w_queue := []; w_swarm := s1 |} w ->
  w_queue w = [] ->
  forall id,
    match run_status (w_swarm w) id with
    | Some false => a_status <$> pg_agents (w_db w) !! id = Some "active"
    | Some true => exists r, pg_agents (w_db w) !! id = Some r /\ a_status r <> "dead"
    | None => True
    end.
Proof.
  intros Hr He Hl s1 Hreach Hq id.
  pose proof (runners_agree (S := pg_store) (T := pg_table) (L := pg_table_laws) Build LLMGet decode_names Marshal_total
    db0 (map runtime_agent rows) s0 w Hr He) as H.
  cbn [SwarmSync.ListActiveAgents pg_table] in H. rewrite Hl in H. specialize (H eq_refl Hreach Hq id).
  destruct (run_status (w_swarm w) id) as [[]|]; [|exact H|done].
  destruct H as [H1 H2]. cbn in H1, H2. unfold pg_agents. destruct (agents _ !! id) as [r|]; [|done]. exists r. split; [done|].
  intros Hd. apply H2. cbn. by rewrite Hd.
Qed.
End Runtime.

(** ** On a database *)

Section Samples.
#[local] Existing Instance float_postgres.
#[local] Existing Instance float_postgres_laws.
#[local] Existing Instance event_codec.
#[local] Existing Instance event_codec_laws.

Definition spawned_columns (a : Lifecycle.Agent) : Database.Agent :=
  sample_agent (ag_Name a) ("wallet of " +:+ ag_Name a).

Lemma postgres_keeps_table_witness : AgentTableLaws (pg_store spawned_columns) (pg_table spawned_columns).
Proof. exact (postgres_keeps_table spawned_columns). Defined.

Lemma migrated_canonical : canonical migrated.
Proof. intros id [r Hr]. cbn [migrated agents] in Hr. by rewrite lookup_empty in Hr. Qed.

Definition one_agent : pg_db :=
  exist _ (Database.InsertAgent (sample_agent "root" "w1") migrated).2
    (InsertAgent_canonical (sample_agent "root" "w1") migrated migrated_canonical).

Definition booted : SwarmRuntime :=
  (LoadAndStart builds_all always_ok no_names empty_swarm
     (let? rows := Database.ListActiveAgents (`one_agent) in Ok (map runtime_agent rows))).2.

Definition pause_step : option gerror * pg_db * list Message :=
  run (S := pg_store spawned_columns) reliable 7 TPause "u1" "drawdown" one_agent.

Definition world_at (db : pg_db) (queue : list Message) (s : SwarmRuntime) : world (S := pg_store spawned_columns) :=
  {| w_db := (db : @DB (pg_store spawned_columns)); w_queue := queue; w_swarm := s |}.

Definition pause_message : Message := hd (sample_message ChannelLifecyclePause "u1") pause_step.2.

Definition paused_swarm : SwarmRuntime :=
  dispatch builds_all always_ok no_names booted
    (SwarmSync.ListActiveAgents (AgentTable := pg_table spawned_columns) pause_step.1.2) pause_message.

Lemma runners_follow_postgres_witness :
  run_status paused_swarm "u1" = Some true /\
  exists r, pg_agents pause_step.1.2 !! "u1" = Some r /\ a_status r <> "dead".
Proof.
  assert (Hrun : run_status paused_swarm "u1" = Some true) by (vm_compute; reflexivity).
  split; [exact Hrun|].
  pose proof (runners_follow_postgres spawned_columns builds_all always_ok no_names
    (fun ev => ex_intro (fun p => Marshal ev = Ok p) ev eq_refl) one_agent
    (match Database.ListActiveAgents (`one_agent) with Ok l => l | Fail _ => [] end) empty_swarm
    (world_at pause_step.1.2 [] paused_swarm)) as H.
  cbn [world_at w_db w_swarm] in H. specialize (fun Hr Hl Hreach => H Hr eq_refl Hl Hreach eq_refl "u1").
  cbn zeta in H. rewrite Hrun in H. apply H; clear H.
  - split; cbn; intros *; [by rewrite lookup_nil|by rewrite lookup_empty].
  - reflexivity.
  - eapply reach_step; [eapply reach_step; [apply reach_refl|]|].
    + apply (w_transition (S := pg_store spawned_columns) builds_all always_ok no_names
        (world_at one_agent [] booted) TPause "u1" "drawdown" 7 pause_step.1.1 pause_step.1.2 pause_step.2); done.
    + apply (w_deliver (S := pg_store spawned_columns) (T := pg_table spawned_columns) builds_all always_ok no_names
        (world_at pause_step.1.2 pause_step.2 booted) pause_message [] eq_refl).
Defined.
End Samples.
