(* ===== verification/PostgresStore.v ===== *)
(** * The store of the API over Postgres ([internal/api/postgres_store.go])

    Every endpoint's query over the tables of [Database], and over three tables
    no statement of the program writes to, which are arguments.  [wall] is the
    process's clock.  The statements of one call are numbered as if each was
    made. *)
From Stdlib Require Import ZArith Lia Floats Ascii.
From stdpp Require Import base list strings gmap.
From S2P Require Import Prelude GoBase GoFloat JsonExtract Json JsonCodec Database EpochStore ApiTypes.
Set Warnings "-inexact-float".
Open Scope Z_scope.
Open Scope go_scope.

(** ** JSON columns: a column that does not decode leaves what it reached *)

Definition decoded {A} (d : decoder A) (zero : A) (raw : string) : A :=
  match Parse raw with Some v => (d v zero).1 | None => zero end.

Definition any_map (raw : string) : gmap string json :=
  match Parse raw with
  | Some (JsonObject ms) => list_to_map (rev (map (fun m => (m.1.1, m.2)) ms))
  | _ => ∅
  end.

Definition any_list (raw : string) : list json :=
  match Parse raw with Some (JsonArray l) => l | _ => [] end.

Definition string_list (raw : string) : list string := decoded (d_slice "" d_string) [] raw.

Definition float_list (raw : string) : list float := decoded (d_slice 0%float d_float) [] raw.

Section Store.
Context {P : Postgres}.

Record LineageTableRow := {
  l_parent_id : string;
  l_second_parent_id : option string;
  l_evolution_method : string;
  l_mutations_applied : string;
  l_spawn_reasoning : option string;
  l_created_at : Time;
}.

Record BacktestTableRow := {
  k_chain : string;
  k_token_pair : string;
  k_period_start : Time;
  k_period_end : Time;
  k_initial_capital : numeric;
  k_final_capital : numeric;
  k_total_pnl : numeric;
  k_max_drawdown_pct : numeric;
  k_total_trades : Z;
  k_win_rate : option numeric;
  k_sharpe_ratio : option numeric;
  k_equity_curve : string;
  k_created_at : Time;
}.

Record IntelTableRow := {
  i_source_agent_id : string;
  i_channel : string;
  i_signal_type : string;
  i_sentiment : option string;
  i_confidence : option numeric;
  i_source_accuracy_30d : option numeric;
  i_data : string;
  i_created_at : Time;
  i_expires_at : option Time;
}.

(** The tables only others write. *)
Record archive := {
  lineage : gmap string LineageTableRow;
  backtest_results : gmap string BacktestTableRow;
  intel_log : gmap string IntelTableRow;
}.

Context (arch : archive) (wall : Time).

Definition limited {A} (limit : Z) (rows : list A) : list A := take (Z.to_nat limit) rows.

Definition num0 (o : option numeric) : float := match o with Some n => numeric_out n | None => 0%float end.

(** COALESCE(SUM(...), 0). *)
Definition sum0 (l : list numeric) : numeric := match l with [] => numeric_zero | _ => numeric_sum l end.

(** A filter the endpoint's option may leave out. *)
Definition wanted (opt field : string) : bool := str_eqb opt "" || str_eqb field opt.

(** A string option is a text parameter. *)
Definition text_option (opt : string) : result unit := let? _ := text_value opt in Ok tt.

(** ** Agents *)

Definition scanAgentSummary (kv : string * AgentRow) : AgentSummary :=
  let a := kv.2 in {|
    ID := kv.1; Name := a_name a; Chain := a_chain a; TaskType := a_task_type a; NodeClass := a_node_class a;
    Status := a_status a; HealthState := a_health_state a; Generation := a_generation a;
    LineageDepth := a_lineage_depth a; CapitalUSD := numeric_out (a_capital_allocated a);
    CurrentUSD := numeric_out (a_current_balance a); TotalPnLUSD := numeric_out (a_total_pnl a);
    TotalTrades := a_total_trades a; StrategyModel := a_strategist_model a; CreatedAt := a_created_at a |}.

Definition agent_wanted (opts : ListAgentsOpts) (kv : string * AgentRow) : bool :=
  wanted (ao_Chain opts) (a_chain kv.2) && wanted (ao_NodeClass opts) (a_node_class kv.2) &&
  wanted (ao_Status opts) (a_status kv.2) && wanted (ao_TaskType opts) (a_task_type kv.2).

Definition Postgres_ListAgents (db : database) (opts : ListAgentsOpts) : result (list AgentSummary) :=
  match
    query (fun db =>
      let? _ := text_option (ao_Chain opts) in
      let? _ := text_option (ao_NodeClass opts) in
      let? _ := text_option (ao_Status opts) in
      let? _ := text_option (ao_TaskType opts) in
      Ok (limited 500 (order_by (fun x y => numeric_lt (a_total_pnl y.2) (a_total_pnl x.2))
        (List.filter (agent_wanted opts) (scan db (agents db)))))) db
  with
  | Fail err => Fail (EWrap "api: list agents: %w" err)
  | Ok rows => Ok (map scanAgentSummary rows)
  end.

(** ** Trades: joined with their agents *)

Definition scan_trade (db : database) (kv : string * TradeTableRow) : option TradeRow :=
  let t := kv.2 in
  match agents db !! t_agent_id t with
  | None => None
  | Some a => Some {|
      t_ID := kv.1; t_AgentID := t_agent_id t; t_AgentName := a_name a; t_EpochID := default "" (t_epoch_id t);
      t_Chain := t_chain t; t_TradeType := t_trade_type t; t_TokenPair := t_token_pair t; t_DEX := t_dex t;
      t_AmountIn := numeric_out (t_amount_in t); t_AmountOut := numeric_out (t_amount_out t);
      t_FeePaidUSD := numeric_out (t_fee_paid t); t_PnLUSD := num0 (t_pnl t);
      t_TxSignature := default "" (t_tx_signature t); t_IsPaperTrade := t_is_paper_trade t;
      t_ExecutedAt := t_executed_at t |}
  end.

(** [agent] is the id asked for, [None] when the option is empty. *)
Definition trade_wanted (agent : option string) (chain : string) (t : TradeRow) : bool :=
  match agent with Some u => str_eqb (t_AgentID t) u | None => true end && wanted chain (t_Chain t).

Definition agent_option (id : string) : result (option string) :=
  if str_eqb id "" then Ok None else let? u := uuid_value id in Ok (Some u).

Definition Postgres_ListTrades (db : database) (opts : ListTradesOpts) : result (list TradeRow) :=
  let limit := if to_Limit opts <=? 0 then 100 else to_Limit opts in
  match
    query (fun db =>
      let? agent := agent_option (to_AgentID opts) in
      let? _ := text_option (to_Chain opts) in
      Ok (limited limit (order_by (fun x y => t_ExecutedAt y <? t_ExecutedAt x)
        (List.filter (trade_wanted agent (to_Chain opts)) (omap (scan_trade db) (scan db (trades db))))))) db
  with
  | Fail err => Fail (EWrap "api: list trades: %w" err)
  | Ok rows => Ok rows
  end.

Definition Postgres_GetAgent (db : database) (id : string) : result AgentDetail :=
  match
    query (fun db => let? u := uuid_value id in
      Ok (match agents db !! u with Some a => Some (u, a) | None => None end)) db
  with
  | Fail err => Fail (EWrap "api: get agent: %w" err)
  | Ok None => Fail ErrNotFound
  | Ok (Some (u, a)) => Ok {|
      d_AgentSummary := scanAgentSummary (u, a);
      d_ParentID := default "" (a_parent_id a);
      d_StrategistPrompt := a_strategist_prompt a;
      d_StrategyConfig := any_map (a_strategy_config a);
      d_BanditPolicies := string_list (a_bandit_policies a);
      d_LearnedRules := any_list (a_learned_rules a);
      d_RecentTrades :=
        match Postgres_ListTrades (later 1 db) {| to_AgentID := u; to_Chain := ""; to_Limit := 25 |} with
        | Ok rows => rows
        | Fail _ => []
        end |}
  end.

(** ** Epochs *)

Definition scan_epoch (kv : string * EpochTableRow) : EpochRow :=
  let e := kv.2 in {|
    e_ID := kv.1; e_EpochNumber := e_epoch_number e; e_StartedAt := e_started_at e; e_EndedAt := e_ended_at e;
    e_TotalAgents := e_total_agents e; e_FundedAgents := e_funded_agents e; e_ShadowAgents := e_shadow_agents e;
    e_AgentsSpawned := e_agents_spawned e; e_AgentsKilled := e_agents_killed e;
    e_AgentsPromoted := e_agents_promoted e; e_TreasuryBalanceUSD := numeric_out (e_treasury_balance e);
    e_TotalPnLUSD := numeric_out (e_total_pnl e); e_TotalLLMCostUSD := numeric_out (e_total_llm_cost_usd e);
    e_MonthlySpendUSD := numeric_out (e_monthly_spend_to_date_usd e);
    e_SwarmDiversityScore := num0 (e_swarm_diversity_score e); e_MarketRegime := default "" (e_market_regime e);
    e_ParentReasoning := default "" (e_parent_reasoning e);
    e_CircuitBreakerFired := e_circuit_breaker_triggered e |}.

(** ORDER BY epoch_number DESC. *)
Definition epochs_desc (db : database) : list (string * EpochTableRow) :=
  order_by (fun x y => e_epoch_number y.2 <? e_epoch_number x.2) (scan db (epochs db)).

Definition Postgres_ListEpochs (db : database) (limit : Z) : result (list EpochRow) :=
  let limit := if limit <=? 0 then 50 else limit in
  match query (fun db => Ok (limited limit (epochs_desc db))) db with
  | Fail err => Fail (EWrap "api: list epochs: %w" err)
  | Ok rows => Ok (map scan_epoch rows)
  end.

(** ** Lineage *)

Definition some_text (s : string) : list string := if str_eqb s "" then [] else [s].

Definition scan_lineage (kv : string * AgentRow) : LineageNode :=
  let a := kv.2 in
  let l := lineage arch !! kv.1 in {|
    n_AgentID := kv.1; n_Name := a_name a; n_NodeClass := a_node_class a; n_Status := a_status a;
    n_Generation := a_generation a;
    n_ParentIDs := some_text (default "" (a_parent_id a)) ++
      some_text (match l with Some l => default "" (l_second_parent_id l) | None => "" end);
    n_TotalPnLUSD := numeric_out (a_total_pnl a);
    n_EvolutionType := match l with Some l => l_evolution_method l | None => "" end |}.

Definition Postgres_GetLineage (db : database) : result (list LineageNode) :=
  match
    query (fun db => Ok (order_by (then_by (fun x y => a_generation x.2 <? a_generation y.2)
      (fun x y => a_created_at x.2 <? a_created_at y.2)) (scan db (agents db)))) db
  with
  | Fail err => Fail (EWrap "api: get lineage: %w" err)
  | Ok rows => Ok (map scan_lineage rows)
  end.

(** ** Treasury and budget *)

Definition active_rows (db : database) : list (string * AgentRow) :=
  List.filter (fun kv => str_eqb (a_status kv.2) "active") (scan db (agents db)).

Definition Postgres_GetTreasury (db : database) : result TreasuryState :=
  match
    query (fun db =>
      let rows := active_rows db in
      Ok (sum0 (map (fun kv => if mem (a_name kv.2) treasuries then a_current_balance kv.2 else numeric_zero) rows),
          sum0 (map (fun kv => a_capital_allocated kv.2) rows))) db
  with
  | Fail err => Fail (EWrap "api: treasury: %w" err)
  | Ok (reserve, allocated) =>
      match
        query (fun db =>
          let rows := active_rows db in
          Ok (map (fun c => (c, numeric_out (sum0 (map (fun kv => a_current_balance kv.2)
                               (List.filter (fun kv => str_eqb (a_chain kv.2) c) rows)))))
                (remove_dups (map (fun kv => a_chain kv.2) rows)))) (later 1 db)
      with
      | Fail err => Fail (EWrap "api: treasury per chain: %w" err)
      | Ok chains => Ok {|
          ReserveUSD := numeric_out reserve; TotalCapitalAllocatedUSD := numeric_out allocated;
          ts_MonthlySpendUSD := 0; ts_MonthlyBudgetUSD := 0; ts_UsedPct := 0; PerChain := list_to_map chains;
          ts_UpdatedAt := wall |}
      end
  end.

Definition cost_of (g : LedgerTableRow) : numeric :=
  numeric_sum [g_llm_cost_usd g; g_infra_rent_usd g; g_rpc_cost_usd g].

Definition per_category (db : database) : gmap string float :=
  match
    query (fun db =>
      let rows := map snd (scan db (agent_ledgers db)) in
      Ok [("llm", numeric_out (sum0 (map g_llm_cost_usd rows)));
          ("infra", numeric_out (sum0 (map g_infra_rent_usd rows)));
          ("rpc", numeric_out (sum0 (map g_rpc_cost_usd rows)))]) db
  with
  | Ok l => list_to_map l
  | Fail _ => ∅
  end.

Definition per_agent (db : database) : list AgentSpend :=
  match
    query (fun db =>
      let spend kv := (kv, sum0 (map (fun g => cost_of g.2)
        (List.filter (fun g => str_eqb (g_agent_id g.2) kv.1) (map_to_list (agent_ledgers db))))) in
      Ok (limited 20 (order_by (fun x y => numeric_lt y.2 x.2) (map spend (scan db (agents db)))))) db
  with
  | Ok rows => map (fun x => {| as_AgentID := x.1.1; as_Name := a_name x.1.2; as_SpentUSD := numeric_out x.2 |}) rows
  | Fail _ => []
  end.

Definition Postgres_GetBudget (db : database) : result BudgetState :=
  match query (fun db => Ok (head (epochs_desc db))) db with
  | Fail err => Fail (EWrap "api: budget: %w" err)
  | Ok None => Ok {| MonthStart := wall; MonthlyBudgetUSD := 0; SpentUSD := 0; RemainingUSD := 0; UsedPct := 0;
                     PerCategory := ∅; PerAgent := [] |}
  | Ok (Some (_, e)) =>
      let spent := numeric_out (e_monthly_spend_to_date_usd e) in
      Ok {| MonthStart := e_started_at e; MonthlyBudgetUSD := 500; SpentUSD := spent;
            RemainingUSD := (500 - spent)%float; UsedPct := (spent / 500)%float;
            PerCategory := per_category (later 1 db); PerAgent := per_agent (later 2 db) |}
  end.

(** ** Breaker *)

Definition Postgres_GetCircuitBreaker (db : database) : result CircuitBreakerState :=
  match query (fun db => Ok (head (epochs_desc db))) db with
  | Fail err => Fail (EWrap "api: circuit breaker: %w" err)
  | Ok None => Ok {| Tripped := false; cb_Reason := ""; cb_TrippedAt := zero_time; cb_State := "untracked";
                     ResetAfter := zero_time |}
  | Ok (Some (_, e)) =>
      if e_circuit_breaker_triggered e
      then Ok {| Tripped := true; cb_Reason := default "" (e_market_regime e); cb_TrippedAt := e_ended_at e;
                 cb_State := "tripped"; ResetAfter := zero_time |}
      else Ok {| Tripped := false; cb_Reason := ""; cb_TrippedAt := zero_time; cb_State := "armed";
                 ResetAfter := zero_time |}
  end.

(** ** Postmortems, offspring, backtests, intel, evolution *)

Definition newest_first {A} (created : A -> Time) (rows : list (string * A)) : list (string * A) :=
  order_by (fun x y => created y.2 <? created x.2) rows.

Definition scan_postmortem (kv : string * PostmortemTableRow) : PostmortemRow :=
  let p := kv.2 in {|
    pm_ID := kv.1; pm_AgentID := m_agent_id p; pm_AgentName := m_agent_name p; LifespanEpochs := m_lifespan_epochs p;
    pm_TotalTrades := m_total_trades p; pm_TotalPnLUSD := numeric_out (m_total_pnl p);
    pm_TotalLLMCostUSD := numeric_out (m_total_llm_cost_usd p); FailureCategory := default "" (m_failure_category p);
    LessonsSummary := m_lessons_summary p; Lessons := any_list (default "[]" (m_lessons p));
    pm_CreatedAt := m_created_at p |}.

Definition Postgres_ListPostmortems (db : database) (limit : Z) : result (list PostmortemRow) :=
  let limit := if limit <=? 0 then 50 else limit in
  match query (fun db => Ok (limited limit (newest_first m_created_at (scan db (postmortems db))))) db with
  | Fail err => Fail (EWrap "api: list postmortems: %w" err)
  | Ok rows => Ok (map scan_postmortem rows)
  end.

Definition scan_offspring (kv : string * ProposalRow) : OffspringRow :=
  let o := kv.2 in {|
    o_ID := kv.1; ProposingAgentID := p_proposing_agent_id o; o_EpochID := default "" (p_epoch_id o);
    RequestedSeedUSD := numeric_out (p_requested_seed_capital_usd o);
    RequestedReserveUSD := numeric_out (p_requested_api_reserve_usd o); Rationale := p_rationale o;
    o_QualityVerdict := default "" (p_quality_check_verdict o); o_BullCase := default "" (p_bull_case o);
    o_BearCase := default "" (p_bear_case o); AdversarialSynthesis := default "" (p_adversarial_synthesis o);
    o_Status := p_status o; RejectionReason := default "" (p_rejection_reason o);
    CreatedChildID := default "" (p_created_child_id o); o_CreatedAt := p_created_at o |}.

Definition Postgres_ListOffspring (db : database) (status : string) : result (list OffspringRow) :=
  match
    query (fun db =>
      let? _ := text_option status in
      Ok (limited 200 (newest_first p_created_at
        (List.filter (fun kv => wanted status (p_status kv.2)) (scan db (offspring_proposals db)))))) db
  with
  | Fail err => Fail (EWrap "api: list offspring: %w" err)
  | Ok rows => Ok (map scan_offspring rows)
  end.

Definition scan_backtest (kv : string * BacktestTableRow) : BacktestRow :=
  let b := kv.2 in {|
    b_ID := kv.1; b_Chain := k_chain b; b_TokenPair := k_token_pair b; PeriodStart := k_period_start b;
    PeriodEnd := k_period_end b; InitialCapital := numeric_out (k_initial_capital b);
    FinalCapital := numeric_out (k_final_capital b); b_TotalPnLUSD := numeric_out (k_total_pnl b);
    MaxDrawdownPct := numeric_out (k_max_drawdown_pct b); b_TotalTrades := k_total_trades b;
    b_WinRate := num0 (k_win_rate b); b_Sharpe := num0 (k_sharpe_ratio b);
    b_EquityCurve := float_list (k_equity_curve b); b_CreatedAt := k_created_at b |}.

Definition Postgres_ListBacktests (db : database) (limit : Z) : result (list BacktestRow) :=
  let limit := if limit <=? 0 then 50 else limit in
  match query (fun db => Ok (limited limit (newest_first k_created_at (scan db (backtest_results arch))))) db with
  | Fail err => Fail (EWrap "api: list backtests: %w" err)
  | Ok rows => Ok (map scan_backtest rows)
  end.

Definition scan_intel (db : database) (kv : string * IntelTableRow) : IntelRow :=
  let r := kv.2 in {|
    i_ID := kv.1; i_SourceAgentID := i_source_agent_id r;
    i_SourceAgentName := match agents db !! i_source_agent_id r with Some a => a_name a | None => "" end;
    i_Channel := i_channel r; i_SignalType := i_signal_type r; i_Sentiment := default "" (i_sentiment r);
    i_Confidence := num0 (i_confidence r); i_SourceAccuracy := num0 (i_source_accuracy_30d r);
    i_Data := any_map (i_data r); i_CreatedAt := i_created_at r;
    i_ExpiresAt := default zero_time (i_expires_at r) |}.

Definition Postgres_ListIntel (db : database) (opts : ListIntelOpts) : result (list IntelRow) :=
  let limit := if io_Limit opts <=? 0 then 100 else io_Limit opts in
  match
    query (fun db =>
      let? _ := text_option (io_Channel opts) in
      let? _ := text_option (io_Sentiment opts) in
      Ok (map (scan_intel db) (limited limit (newest_first i_created_at
        (List.filter (fun kv => wanted (io_Channel opts) (i_channel kv.2) &&
           (str_eqb (io_Sentiment opts) "" ||
            match i_sentiment kv.2 with Some x => str_eqb x (io_Sentiment opts) | None => false end))
           (scan db (intel_log arch))))))) db
  with
  | Fail err => Fail (EWrap "api: list intel: %w" err)
  | Ok rows => Ok rows
  end.

Definition scan_evolution (db : database) (kv : string * LineageTableRow) : option EvolutionEvent :=
  let l := kv.2 in
  match agents db !! kv.1, agents db !! l_parent_id l with
  | Some c, Some p => Some {|
      ChildID := kv.1; ChildName := a_name c; ev_ParentID := l_parent_id l; ev_ParentName := a_name p;
      SecondParentID := default "" (l_second_parent_id l); EvolutionMethod := l_evolution_method l;
      Mutations := string_list (l_mutations_applied l); SpawnReasoning := default "" (l_spawn_reasoning l);
      ev_CreatedAt := l_created_at l |}
  | _, _ => None
  end.

Definition Postgres_ListEvolution (db : database) (limit : Z) : result (list EvolutionEvent) :=
  let limit := if limit <=? 0 then 100 else limit in
  match
    query (fun db => Ok (limited limit (order_by (fun x y => ev_CreatedAt y <? ev_CreatedAt x)
      (omap (scan_evolution db) (scan db (lineage arch)))))) db
  with
  | Fail err => Fail (EWrap "api: list evolution: %w" err)
  | Ok rows => Ok rows
  end.

(** ** Models *)

(** AVG(...)::int, rounded half away from zero. *)
Definition avg_int (l : list Z) : Z :=
  let s := fold_right Z.add 0 l in
  let n := len l in
  Z.sgn s * ((2 * Z.abs s + n) / (2 * n)).

Definition model_row (db : database) (rows : list DecisionRow) (model : string) : numeric * ModelPerformance :=
  let mine := List.filter (fun d => str_eqb (s_model_used d) model) rows in
  let cost := sum0 (map s_cost_usd mine) in
  let pnl := numeric_out (sum0 (omap (fun d => a_total_pnl <$> agents db !! s_agent_id d) mine)) in
  let usd := numeric_out cost in
  (cost, {| m_Model := model; UsedByAgents := len (remove_dups (map s_agent_id mine)); Decisions := len mine;
            m_TotalCostUSD := usd; m_PnLUSD := pnl;
            PnLPerDollar := if (0 <? usd)%float then (pnl / usd)%float else 0%float;
            AvgInputTokens := avg_int (map s_input_tokens mine);
            AvgOutputTokens := avg_int (map s_output_tokens mine) |}).

Definition Postgres_ListModels (db : database) : result (list ModelPerformance) :=
  match
    query (fun db =>
      let rows := map snd (scan db (strategist_decisions db)) in
      Ok (order_by (fun x y => numeric_lt y.1 x.1)
        (map (model_row db rows) (remove_dups (map s_model_used rows))))) db
  with
  | Fail err => Fail (EWrap "api: list models: %w" err)
  | Ok rows => Ok (map snd rows)
  end.

(** ** The snapshot *)

Definition Postgres_GetDashboardSnapshot (db : database) : result DashboardSnapshot :=
  match
    query (fun db =>
      let rows := active_rows db in
      let of_class c := len (List.filter (fun kv => str_eqb (a_node_class kv.2) c) rows) in
      Ok (len rows, of_class "funded", of_class "shadow")) db
  with
  | Fail err => Fail (EWrap "api: snapshot agents: %w" err)
  | Ok (total, funded, shadow) =>
      match Postgres_GetTreasury (later 1 db) with
      | Fail err => Fail err
      | Ok ts =>
          let budget := Postgres_GetBudget (later 3 db) in
          let recent := Postgres_ListEpochs (later 6 db) 1 in
          let curve := query (fun db => Ok (limited 50 (epochs_desc db))) (later 7 db) in
          let proposals :=
            query (fun db => Ok (len (List.filter open_proposal (scan db (offspring_proposals db))))) (later 8 db) in
          Ok {| TotalAgents := total; FundedAgents := funded; ShadowAgents := shadow; Treasury := ts;
                s_MonthlySpendUSD := match budget with Ok b => SpentUSD b | Fail _ => 0%float end;
                s_MonthlyBudgetUSD := match budget with Ok b => MonthlyBudgetUSD b | Fail _ => 0%float end;
                EquityCurve :=
                  match curve with
                  | Ok rows => rev (map (fun kv => {| At := e_ended_at kv.2;
                                                      EquityUSD := numeric_out (e_treasury_balance kv.2) |}) rows)
                  | Fail _ => []
                  end;
                RecentEpoch := match recent with Ok rows => head rows | Fail _ => None end;
                OpenProposals := match proposals with Ok n => n | Fail _ => 0 end;
                s_UpdatedAt := wall |}
      end
  end.

#[export] Instance postgres_store (db : database) : Store := {|
  ListAgents := Postgres_ListAgents db;
  GetAgent := Postgres_GetAgent db;
  ListTrades := Postgres_ListTrades db;
  ListEpochs := Postgres_ListEpochs db;
  GetLineage := Postgres_GetLineage db;
  GetTreasury := Postgres_GetTreasury db;
  ListPostmortems := Postgres_ListPostmortems db;
  ListOffspring := Postgres_ListOffspring db;
  GetBudget := Postgres_GetBudget db;
  GetCircuitBreaker := Postgres_GetCircuitBreaker db;
  ListBacktests := Postgres_ListBacktests db;
  ListIntel := Postgres_ListIntel db;
  ListModels := Postgres_ListModels db;
  ListEvolution := Postgres_ListEvolution db;
  GetDashboardSnapshot := Postgres_GetDashboardSnapshot db |}.

(** ** What the lists hold *)

Lemma limited_len {A} limit (rows : list A) : 0 <= limit -> len (limited limit rows) <= limit.
Proof. intros H. unfold limited, len. rewrite length_take. lia. Qed.

Lemma limited_elem {A} limit (rows : list A) x : x ∈ limited limit rows -> x ∈ rows.
Proof. intros H. rewrite <- (take_drop (Z.to_nat limit) rows). apply elem_of_app. by left. Qed.

Lemma limited_all {A} limit (rows : list A) : len rows <= limit -> limited limit rows = rows.
Proof. intros H. unfold limited, len in *. apply take_ge. lia. Qed.

Lemma limited_sorted {A} (lt : A -> A -> bool) limit rows : sorted_by lt rows -> sorted_by lt (limited limit rows).
Proof.
  unfold limited. generalize (Z.to_nat limit) as n. intros n H. revert n.
  induction H as [|x l Hl IH Hx]; intros [|n]; cbn; try constructor; [apply IH|].
  rewrite Forall_forall in *. intros y Hy. apply Hx. rewrite <- (take_drop n l). apply elem_of_app. by left.
Qed.

Lemma order_by_sorted {A} (lt : A -> A -> bool) rows : strict_weak (fun _ => True) lt ->
  sorted_by lt (order_by lt rows).
Proof. intros H. apply (insertion_sort_sorted (fun _ => True)); [done|by apply Forall_true]. Qed.

Lemma wanted_spec opt field : wanted opt field = true <-> (opt <> "" -> field = opt).
Proof.
  unfold wanted, str_eqb. rewrite orb_true_iff, !bool_decide_eq_true. split; [by intros [?|?] ?|].
  intros H. destruct (decide (opt = "")); [by left|right; auto].
Qed.

(** The agents the API lists are rows of the table that match every option
    given, best total PnL first and no more than 500; when no more match, they
    are all listed, each once. *)
Theorem agents_listed {PL : PostgresLaws P} db opts rows : Postgres_ListAgents db opts = Ok rows ->
  len rows <= 500 /\ NoDup (map ID rows) /\
  (forall s, s ∈ rows -> exists a, agents db !! ID s = Some a /\ s = scanAgentSummary (ID s, a) /\
     agent_wanted opts (ID s, a) = true) /\
  (forall i j s q a b, (i < j)%nat -> rows !! i = Some s -> rows !! j = Some q ->
     agents db !! ID s = Some a -> agents db !! ID q = Some b -> numeric_lt (a_total_pnl a) (a_total_pnl b) = false) /\
  (len (List.filter (agent_wanted opts) (map_to_list (agents db))) <= 500 ->
   forall id a, agents db !! id = Some a -> agent_wanted opts (id, a) = true -> scanAgentSummary (id, a) ∈ rows).
Proof.
  unfold Postgres_ListAgents, query. destruct (outage _); [done|].
  do 4 (destruct (text_option _) as [[]|]; [|done]). intros [= <-].
  set (lt := fun x y : string * AgentRow => numeric_lt (a_total_pnl y.2) (a_total_pnl x.2)).
  change (agents (tick db)) with (agents db). set (sel := List.filter (agent_wanted opts) (scan (tick db) (agents db))).
  assert (Hsel : Permutation sel (List.filter (agent_wanted opts) (map_to_list (agents db))))
    by (unfold sel, scan; by rewrite (plan_perm _ _)).
  assert (Hord : Permutation (order_by lt sel) sel) by apply insertion_sort_perm.
  assert (Hin : forall kv, kv ∈ sel <-> agents db !! kv.1 = Some kv.2 /\ agent_wanted opts kv = true).
  { intros [k a]. rewrite Hsel, list_elem_of_In, filter_In, <- list_elem_of_In. by rewrite elem_of_map_to_list. }
  assert (Hsw : strict_weak (fun _ => True) lt).
  { apply (strict_weak_on _ (fun _ => True) (fun kv : string * AgentRow => a_total_pnl kv.2) (fun x y => numeric_lt y x)); [done|].
    destruct numeric_sw as [H1 H2 H3]. split; [by intros; apply H1|intros x y z; eauto|intros x y z; eauto]. }
  split; [|split; [|split; [|split]]].
  - unfold len. rewrite length_map. by apply (limited_len 500 (order_by lt sel)).
  - rewrite map_map. cbn. assert (Hn : NoDup (map fst (order_by lt sel))).
    { rewrite Hord, Hsel. clear. pose proof (NoDup_fst_map_to_list (agents db)) as Hn.
      induction (map_to_list (agents db)) as [|kv l IH]; [constructor|]. rewrite fmap_cons in Hn.
      apply NoDup_cons in Hn as [Hk Hn]. cbn. destruct (agent_wanted opts kv); [|auto]. cbn. constructor; [|auto].
      intros (kv' & E & Hin)%list_elem_of_fmap. apply Hk. apply list_elem_of_In, filter_In in Hin as [Hin _].
      apply list_elem_of_fmap. exists kv'. split; [done|]. by apply list_elem_of_In. }
    unfold limited. change (map (fun x => x.1)) with (map (@fst string AgentRow)).
    rewrite <- (take_drop (Z.to_nat 500) (order_by lt sel)), map_app in Hn. by apply NoDup_app in Hn as [Hn _].
  - intros s (kv & -> & Hkv)%list_elem_of_fmap. apply limited_elem in Hkv. rewrite Hord in Hkv.
    apply Hin in Hkv as [Hk Hw]. destruct kv as [k a]. exists a. by split.
  - intros i j s q a b Hij Hs Hq Ha Hb.
    assert (Hsorted : sorted_by lt (limited 500 (order_by lt sel))) by (by apply limited_sorted, order_by_sorted).
    rewrite list_lookup_fmap in Hs, Hq.
    destruct (limited 500 (order_by lt sel) !! i) as [x|] eqn:Ei; [|done].
    destruct (limited 500 (order_by lt sel) !! j) as [y|] eqn:Ej; [|done]. injection Hs as <-. injection Hq as <-.
    assert (Hx : x ∈ sel) by (rewrite <- Hord; eapply limited_elem, list_elem_of_lookup_2; exact Ei).
    assert (Hy : y ∈ sel) by (rewrite <- Hord; eapply limited_elem, list_elem_of_lookup_2; exact Ej).
    apply Hin in Hx as [Hx _], Hy as [Hy _]. cbn in Ha, Hb. rewrite Hx in Ha. rewrite Hy in Hb.
    injection Ha as <-. injection Hb as <-. exact (sorted_by_lookup lt _ _ _ _ _ Hsorted Hij Ei Ej).
  - intros Hlen id a Ha Hw. apply list_elem_of_fmap. exists (id, a). split; [done|].
    rewrite limited_all; [rewrite Hord; by apply Hin|]. unfold len in *. by rewrite (Permutation_length Hord), (Permutation_length Hsel).
Qed.

Lemma trades_listed db opts rows : Postgres_ListTrades db opts = Ok rows ->
  len rows <= (if to_Limit opts <=? 0 then 100 else to_Limit opts) /\
  sorted_by (fun x y => t_ExecutedAt y <? t_ExecutedAt x) rows /\
  forall t, t ∈ rows -> (to_AgentID opts <> "" -> uuid_in (to_AgentID opts) = Some (t_AgentID t)) /\
                        (to_Chain opts <> "" -> t_Chain t = to_Chain opts).
Proof.
  unfold Postgres_ListTrades, query. destruct (outage _); [done|].
  destruct (agent_option _) as [agent|] eqn:Ea; [|done]. destruct (text_option _) as [[]|]; [|done]. intros [= <-].
  split; [|split].
  - apply limited_len. destruct (Z.leb_spec (to_Limit opts) 0); lia.
  - apply limited_sorted, order_by_sorted. by apply (strict_weak_desc _ _ t_ExecutedAt).
  - intros t Ht%limited_elem. unfold order_by in Ht. rewrite insertion_sort_perm in Ht.
    apply list_elem_of_In, filter_In in Ht as [_ Ht]. unfold trade_wanted in Ht. apply andb_prop in Ht as [Hi Hc].
    split; [|by apply wanted_spec].
    intros Hne. unfold agent_option in Ea. unfold str_eqb in Ea at 1. rewrite bool_decide_false in Ea by done.
    unfold uuid_value, some_or in Ea. destruct (uuid_in (to_AgentID opts)); [|done]. injection Ea as <-.
    by apply bool_decide_eq_true in Hi as ->.
Qed.

(** The detail of an agent is its row and its last trades: an id that names
    a row gives that row with at most 25 trades, all its own, the newest first;
    an id that is a UUID of no row is not found, and nothing else is. *)
Theorem agent_detail {PL : PostgresLaws P} db id : outage (db_clock db) = None ->
  match Postgres_GetAgent db id with
  | Ok d => exists u a, uuid_in id = Some u /\ agents db !! u = Some a /\
      d_AgentSummary d = scanAgentSummary (u, a) /\ len (d_RecentTrades d) <= 25 /\
      sorted_by (fun x y => t_ExecutedAt y <? t_ExecutedAt x) (d_RecentTrades d) /\
      (forall t, t ∈ d_RecentTrades d -> t_AgentID t = u)
  | Fail err => (err = ErrNotFound <-> exists u, uuid_in id = Some u /\ agents db !! u = None) /\
      ((exists u, uuid_in id = Some u) -> err = ErrNotFound)
  end.
Proof.
  intros Hout. unfold Postgres_GetAgent, query. rewrite Hout. unfold uuid_value, some_or.
  destruct (uuid_in id) as [u|] eqn:Eu; [|split; [split; [done|by intros (?&?&?)]|by intros [? ?]]].
  cbn [agents tick]. destruct (agents db !! u) as [a|] eqn:Ea.
  - exists u, a. do 3 (split; [done|]). cbn [d_RecentTrades].
    destruct (Postgres_ListTrades _ _) as [rows|] eqn:El;
      [|split; [done|split; [constructor|by intros t ?%not_elem_of_nil]]].
    apply trades_listed in El as (Hlen & Hs & Hin). split; [done|]. split; [done|].
    intros t Ht. destruct (Hin t Ht) as [Hu _]. cbn [to_AgentID] in Hu.
    assert (Hne : u <> "") by (intros ->; apply uuid_idem in Eu; by rewrite uuid_empty in Eu).
    specialize (Hu Hne). rewrite (uuid_idem _ _ Eu) in Hu. by injection Hu.
  - split; [|done]. split; [|done]. intros _. by exists u.
Qed.
End Store.

(** ** On a database *)

Section Samples.
#[local] Existing Instance float_postgres.
#[local] Existing Instance float_postgres_laws.

Definition no_archive : archive := {| lineage := ∅; backtest_results := ∅; intel_log := ∅ |}.

Definition two_agents : database :=
  (InsertAgent (sample_agent "child" "w2") (InsertAgent (sample_agent "root" "w1") migrated).2).2.

Definition everyone : ListAgentsOpts := {| ao_Chain := ""; ao_NodeClass := ""; ao_Status := ""; ao_TaskType := "" |}.

Lemma agents_listed_witness :
  match Postgres_ListAgents two_agents everyone with
  | Ok rows => len rows <= 500 /\ NoDup (map ID rows)
  | Fail _ => False
  end.
Proof.
  destruct (Postgres_ListAgents two_agents everyone) as [rows|] eqn:E; [|vm_compute in E; discriminate E].
  destruct (agents_listed two_agents everyone rows E) as (H1 & H2 & _). by split.
Defined.

Lemma agent_detail_witness :
  match Postgres_GetAgent two_agents "u1" with
  | Ok d => len (d_RecentTrades d) <= 25
  | Fail _ => False
  end.
Proof.
  pose proof (agent_detail two_agents "u1" eq_refl) as H.
  destruct (Postgres_GetAgent two_agents "u1") as [d|err] eqn:E.
  - destruct H as (u & a & _ & _ & _ & Hlen & _). exact Hlen.
  - assert (Hok : is_ok (Postgres_GetAgent two_agents "u1") = true) by (vm_compute; reflexivity).
    rewrite E in Hok. discriminate Hok.
Defined.

(** An agent's PnL counts once per decision of its model, and the breaker shows
    the last epoch alone. *)
Definition decision (agent : string) : Strategist.StrategistDecision := {|
  Strategist.d_AgentID := agent; Strategist.d_InputSummary := "{}"; Strategist.d_OutputRaw := "";
  Strategist.d_ConfigChanges := ""; Strategist.d_Reasoning := ""; Strategist.d_IntelBroadcasts := "";
  Strategist.d_OffspringProposalSubmitted := false; Strategist.d_NewLearnedRule := "";
  Strategist.d_ModelUsed := "m"; Strategist.d_InputTokens := 10; Strategist.d_OutputTokens := 3;
  Strategist.d_CostUSD := 1 |}.

Definition with_pnl (x : float) (r : AgentRow) : AgentRow := {|
  a_parent_id := a_parent_id r; a_name := a_name r; a_generation := a_generation r; a_chain := a_chain r;
  a_wallet_address := a_wallet_address r; a_wallet_key_encrypted := a_wallet_key_encrypted r;
  a_task_type := a_task_type r; a_strategy_config := a_strategy_config r;
  a_strategist_prompt := a_strategist_prompt r; a_strategist_model := a_strategist_model r;
  a_strategist_interval_seconds := a_strategist_interval_seconds r; a_bandit_policies := a_bandit_policies r;
  a_bandit_state := a_bandit_state r; a_learned_rules := a_learned_rules r; a_sleep_schedule := a_sleep_schedule r;
  a_reproduction_policy := a_reproduction_policy r; a_cost_policy := a_cost_policy r;
  a_communication_policy := a_communication_policy r; a_node_class := a_node_class r;
  a_health_state := a_health_state r; a_capital_allocated := a_capital_allocated r;
  a_current_balance := a_current_balance r; a_peak_balance := a_peak_balance r; a_lineage_depth := a_lineage_depth r;
  a_unpaid_operating_debt_usd := a_unpaid_operating_debt_usd r; a_status := a_status r;
  a_created_at := a_created_at r; a_killed_at := a_killed_at r; a_kill_reason := a_kill_reason r;
  a_total_trades := a_total_trades r; a_total_pnl := (x : @numeric float_postgres);
  a_consecutive_negative_epochs := a_consecutive_negative_epochs r; a_last_heartbeat_at := a_last_heartbeat_at r |}.

Definition ten_earned : database :=
  let db := with_agents (alter (with_pnl 10) "u1" (agents two_agents)) two_agents in
  (LogStrategistDecision (decision "u1") (LogStrategistDecision (decision "u1") db).2).2.

Example pnl_counted_per_decision :
  match Postgres_ListModels ten_earned with
  | Ok [m] => (m_PnLUSD m, UsedByAgents m, Decisions m, AvgInputTokens m)
  | _ => (0%float, 0, 0, 0)
  end = (20%float, 1, 2, 10).
Proof. vm_compute. reflexivity. Qed.

Definition tripped_then_quiet : database :=
  let db := (seedEpochRow two_agents).2 in
  let db := (LogEpoch {| RootOrchestrator.er_EpochID := "u3"; RootOrchestrator.LifecycleActions := [];
    RootOrchestrator.OffspringDecisions := []; RootOrchestrator.Postmortems := [];
    RootOrchestrator.BreakerTripped := true; RootOrchestrator.BreakerReason := "rpc"; RootOrchestrator.EndedAt := 9000 |} db).2 in
  (seedEpochRow db).2.

Example trip_forgotten_by_next_epoch :
  match Postgres_GetCircuitBreaker tripped_then_quiet with Ok s => cb_State s | Fail _ => "" end = "armed".
Proof. vm_compute. reflexivity. Qed.

Example reason_is_never_there :
  match Postgres_GetCircuitBreaker (LogEpoch {| RootOrchestrator.er_EpochID := "u3"; RootOrchestrator.LifecycleActions := [];
    RootOrchestrator.OffspringDecisions := []; RootOrchestrator.Postmortems := [];
    RootOrchestrator.BreakerTripped := true; RootOrchestrator.BreakerReason := "rpc"; RootOrchestrator.EndedAt := 9000 |}
    (seedEpochRow two_agents).2).2 with
  | Ok s => (cb_State s, cb_Reason s)
  | Fail _ => ("", "")
  end = ("tripped", "").
Proof. vm_compute. reflexivity. Qed.
End Samples.
