(* ===== verification/Notifier.v ===== *)
(** * The Telegram notifier ([internal/notifications/telegram.go], [formatters.go])

    What a message says, which messages go out, and what is put on the wire.
    Telegram is an interface: sending a request gives the status of the response
    and the bytes of its body that could be read, or an error.  The notifier's
    log is not kept: what a step does is its outcome. *)
From Stdlib Require Import ZArith Lia Ascii Floats.
From stdpp Require Import base list strings gmap.
From S2P Require Import Prelude GoBase GoFmt GoFloat Lifecycle JsonExtract Json JsonCodec Llm Task Throttle FakeRedis.
Set Warnings "-inexact-float".
Open Scope Z_scope.

(** ** Events *)

Definition EventCircuitBreaker : string := "circuit_breaker".
Definition EventAgentKilled : string := "agent_killed".
Definition EventAgentSpawned : string := "agent_spawned".
Definition EventEpochCompleted : string := "epoch_completed".
Definition EventBudgetWarning : string := "budget_warning".
Definition EventTreasuryLow : string := "treasury_low".
Definition EventDailyDigest : string := "daily_digest".

Record Event := { ev_Type : string; ev_Payload : string; ev_At : Time }.

Record AgentScore := { as_AgentID : string; as_Name : string; as_PnLUSD : float }.

Record DigestSummary := {
  Date : string;
  TotalPnLUSD : float;
  BestAgent : AgentScore;
  WorstAgent : AgentScore;
  PromotionsPending : Z;
  AgentsActive : Z;
  AgentsKilled : Z;
  NewAgents : Z;
}.

Definition truncate (s : string) (n : nat) : string :=
  if (String.length s <=? n)%nat then s else str_take n s +:+ "…".

(** ** Payloads *)

(** A number of a value decoded into an interface becomes a [float64], and one
    that is none is an error of the whole. *)
Fixpoint floats_in (v : json) : bool :=
  match v with
  | JsonNumber lit => is_ok (ParseFloat lit)
  | JsonArray vs => forallb floats_in vs
  | JsonObject ms => forallb (fun '(_, _, v) => floats_in v) ms
  | _ => true
  end.

(** The nil map is [None]. *)
Definition parsePayload (raw : string) : option (gmap string json) :=
  if str_eqb raw "" then None
  else
    match Parse raw with
    | Some (JsonObject ms) =>
        if floats_in (JsonObject ms) then Some (list_to_map (rev (map (fun m => (m.1.1, m.2)) ms))) else None
    | _ => None
    end.

Definition field (p : option (gmap string json)) (key : string) : option json :=
  match p with Some m => m !! key | None => None end.

Definition as_string (v : option json) : option string :=
  match v with Some (JsonString s) => Some s | _ => None end.

Definition as_float (v : option json) : option float :=
  match v with
  | Some (JsonNumber lit) => match ParseFloat lit with Ok x => Some x | Fail _ => None end
  | _ => None
  end.

Definition strField (p : option (gmap string json)) (key fallback : string) : string :=
  match as_string (field p key) with
  | Some v => if str_eqb v "" then fallback else v
  | None => fallback
  end.

Definition floatField (p : option (gmap string json)) (key : string) (fallback : float) : float :=
  default fallback (as_float (field p key)).

(** ** Formats *)

Definition nl : string := String (chr 10) "".

Definition formatCircuitBreaker (p : option (gmap string json)) : string :=
  let reason := strField p "reason" "manual_override" in
  let at_ := strField p "at" "" in
  let out := "🚨 *Circuit breaker tripped*" +:+ nl +:+ "Reason: `" +:+ reason +:+ "`" in
  let out := if str_eqb at_ "" then out else out +:+ nl +:+ "At: " +:+ at_ in
  let state := strField p "state" "" in
  if str_eqb state "" then out else out +:+ nl +:+ "State: " +:+ state.

Definition formatAgentLifecycle (action : string) (p : option (gmap string json)) : string :=
  let id := strField p "agent_id" "?" in
  let name := strField p "name" "" in
  let reason := strField p "reason" "" in
  let class := strField p "node_class" "" in
  let emoji := if str_eqb action "spawned" then "🌱" else "🪦" in
  let out := emoji +:+ " *Agent " +:+ action +:+ "*: `" +:+ id +:+ "`" in
  let out := if str_eqb name "" then out else out +:+ " (" +:+ name +:+ ")" in
  let out := if str_eqb class "" then out else out +:+ " — " +:+ class in
  if str_eqb reason "" then out else out +:+ nl +:+ "Reason: " +:+ reason.

Definition formatEpochCompleted (p : option (gmap string json)) (raw : string) : string :=
  match p with
  | None => "✅ *Epoch completed*: `" +:+ TrimSpace raw +:+ "`"
  | Some _ =>
      let id := strField p "epoch_id" "" in
      let out := "✅ *Epoch completed*" in
      let out := if str_eqb id "" then out else out +:+ ": `" +:+ id +:+ "`" in
      let out := match as_float (field p "realized_pnl_usd") with
                 | Some v => out +:+ nl +:+ "Realized P&L: $" +:+ fmt_f 2 v
                 | None => out
                 end in
      match as_float (field p "promotions") with
      | Some v => if (0 <? v)%float then out +:+ nl +:+ "Promotions: " +:+ Itoa (int_of_float v) else out
      | None => out
      end
  end.

Definition formatBudgetWarning (p : option (gmap string json)) : string :=
  let id := strField p "agent_id" "" in
  let scope := strField p "scope" "monthly" in
  let pctUsed := floatField p "used_pct" 0 in
  let limit := floatField p "limit_usd" 0 in
  let out := "⚠️ *Budget warning*" in
  let out := if str_eqb id "" then out else out +:+ " — agent `" +:+ id +:+ "`" in
  let out := out +:+ nl +:+ "Scope: " +:+ scope +:+ "  •  Used: " +:+ fmt_f 1 (pctUsed * 100)%float +:+ "%" in
  if (0 <? limit)%float then out +:+ "  •  Limit: $" +:+ fmt_f 2 limit else out.

Definition formatTreasuryLow (p : option (gmap string json)) : string :=
  let reserveUSD := floatField p "reserve_usd" 0 in
  let thresholdUSD := floatField p "threshold_usd" 0 in
  let pct := floatField p "reserve_pct" 0 in
  let out := "💧 *Treasury below reserve*" in
  let out := out +:+ nl +:+ "Reserve: $" +:+ fmt_f 2 reserveUSD in
  let out := if (0 <? thresholdUSD)%float then out +:+ "  •  Threshold: $" +:+ fmt_f 2 thresholdUSD else out in
  if (0 <? pct)%float then out +:+ "  •  At: " +:+ fmt_f 0 (pct * 100)%float +:+ "%" else out.

Definition FormatDigest (d : DigestSummary) : string :=
  let b := "*Daily digest* — " +:+ Date d +:+ nl in
  let b := b +:+ "Total P&L: *$" +:+ fmt_f 2 (TotalPnLUSD d) +:+ "*" +:+ nl in
  let best := BestAgent d in
  let b := if str_eqb (as_AgentID best) "" then b
           else b +:+ "Best: `" +:+ as_Name best +:+ "` (" +:+ as_AgentID best +:+ ")  +$" +:+
                fmt_f 2 (as_PnLUSD best) +:+ nl in
  let worst := WorstAgent d in
  let b := if str_eqb (as_AgentID worst) "" then b
           else b +:+ "Worst: `" +:+ as_Name worst +:+ "` (" +:+ as_AgentID worst +:+ ")  $" +:+
                fmt_f 2 (as_PnLUSD worst) +:+ nl in
  let b := b +:+ "Active agents: " +:+ Itoa (AgentsActive d) +:+ "  •  Spawned: " +:+ Itoa (NewAgents d) +:+
           "  •  Killed: " +:+ Itoa (AgentsKilled d) +:+ nl in
  if 0 <? PromotionsPending d then b +:+ "Promotions pending: " +:+ Itoa (PromotionsPending d) +:+ nl else b.

(** [DigestSummary] has no tags: its fields go by their Go names. *)
Definition d_score : decoder AgentScore := d_struct
  [("AgentID", d_field as_AgentID (fun x r => {| as_AgentID := x; as_Name := as_Name r; as_PnLUSD := as_PnLUSD r |}) d_string);
   ("Name", d_field as_Name (fun x r => {| as_AgentID := as_AgentID r; as_Name := x; as_PnLUSD := as_PnLUSD r |}) d_string);
   ("PnLUSD", d_field as_PnLUSD (fun x r => {| as_AgentID := as_AgentID r; as_Name := as_Name r; as_PnLUSD := x |}) d_float)].

Definition no_score : AgentScore := {| as_AgentID := ""; as_Name := ""; as_PnLUSD := 0 |}.

Definition no_digest : DigestSummary := {|
  Date := ""; TotalPnLUSD := 0; BestAgent := no_score; WorstAgent := no_score;
  PromotionsPending := 0; AgentsActive := 0; AgentsKilled := 0; NewAgents := 0 |}.

Definition digest_with (date : string) (pnl : float) (best worst : AgentScore) (pending active killed fresh : Z)
    : DigestSummary := {|
  Date := date; TotalPnLUSD := pnl; BestAgent := best; WorstAgent := worst; PromotionsPending := pending;
  AgentsActive := active; AgentsKilled := killed; NewAgents := fresh |}.

Definition d_digest : decoder DigestSummary :=
  let upd f d := f (Date d) (TotalPnLUSD d) (BestAgent d) (WorstAgent d) (PromotionsPending d) (AgentsActive d)
                   (AgentsKilled d) (NewAgents d) in
  d_struct
  [("Date", d_field Date (fun x => upd (fun _ => digest_with x)) d_string);
   ("TotalPnLUSD", d_field TotalPnLUSD (fun x => upd (fun a _ => digest_with a x)) d_float);
   ("BestAgent", d_field BestAgent (fun x => upd (fun a b _ => digest_with a b x)) d_score);
   ("WorstAgent", d_field WorstAgent (fun x => upd (fun a b c _ => digest_with a b c x)) d_score);
   ("PromotionsPending", d_field PromotionsPending (fun x => upd (fun a b c d _ => digest_with a b c d x)) d_int);
   ("AgentsActive", d_field AgentsActive (fun x => upd (fun a b c d e _ => digest_with a b c d e x)) d_int);
   ("AgentsKilled", d_field AgentsKilled (fun x => upd (fun a b c d e f _ => digest_with a b c d e f x)) d_int);
   ("NewAgents", d_field NewAgents (fun x => upd (fun a b c d e f g _ => digest_with a b c d e f g x)) d_int)].

Definition formatDailyDigestPayload (raw : string) : string :=
  let as_text := "🗓 *Daily digest*" +:+ nl +:+ "```" +:+ nl +:+ truncate raw 500 +:+ nl +:+ "```" in
  match Unmarshal d_digest no_digest raw with
  | Fail _ => as_text
  | Ok d => if str_eqb (Date d) "" then as_text else FormatDigest d
  end.

Definition Format (e : Event) : string :=
  let parsed := parsePayload (ev_Payload e) in
  let ty := ev_Type e in
  if str_eqb ty EventCircuitBreaker then formatCircuitBreaker parsed
  else if str_eqb ty EventAgentKilled then formatAgentLifecycle "killed" parsed
  else if str_eqb ty EventAgentSpawned then formatAgentLifecycle "spawned" parsed
  else if str_eqb ty EventEpochCompleted then formatEpochCompleted parsed (ev_Payload e)
  else if str_eqb ty EventBudgetWarning then formatBudgetWarning parsed
  else if str_eqb ty EventTreasuryLow then formatTreasuryLow parsed
  else if str_eqb ty EventDailyDigest then formatDailyDigestPayload (ev_Payload e)
  else "*Event* `" +:+ ty +:+ "`" +:+ nl +:+ "```" +:+ nl +:+ truncate (ev_Payload e) 500 +:+ nl +:+ "```".

(** ** Which messages *)

Definition DefaultChannels : list string :=
  ["events:circuit_breaker"; "events:lifecycle"; "events:epoch_completed"; "events:budget"].

(** ** On the wire *)

(** [url.QueryEscape]. *)
Definition unreserved (c : ascii) : bool :=
  let b := byte c in
  between 97 b 122 || between 65 b 90 || is_digit c || mem b [45; 46; 95; 126].

Definition upper_hex (z : Z) : ascii := chr (if z <? 10 then 48 + z else 55 + z).

Definition escape_char (c : ascii) (rest : string) : string :=
  if unreserved c then String c rest
  else if byte c =? 32 then String "+" rest
  else String "%" (String (upper_hex (byte c / 16)) (String (upper_hex (byte c mod 16)) rest)).

Fixpoint QueryEscape (s : string) : string :=
  match s with
  | EmptyString => ""
  | String c s' => escape_char c (QueryEscape s')
  end.

(** [url.Values.Encode], of one value a key; the keys come sorted. *)
Definition encode_form (form : list (string * string)) : string :=
  join "&" (map (fun kv => QueryEscape kv.1 +:+ "=" +:+ QueryEscape kv.2) form).

(** What a server reads from it. *)
Fixpoint QueryUnescape (s : string) : option string :=
  match s with
  | EmptyString => Some ""
  | String c s' =>
      if byte c =? 37 then
        match s' with
        | String a (String b s'') =>
            match hex_value a, hex_value b with
            | Some x, Some y => String (chr (16 * x + y)) <$> QueryUnescape s''
            | _, _ => None
            end
        | _ => None
        end
      else if byte c =? 43 then String " " <$> QueryUnescape s'
      else String c <$> QueryUnescape s'
  end.

Definition parse_pair (s : string) : option (string * string) :=
  match Split s "=" with
  | [k; v] =>
      match QueryUnescape k, QueryUnescape v with
      | Some k, Some v => Some (k, v)
      | _, _ => None
      end
  | _ => None
  end.

Definition parse_form (s : string) : option (list (string * string)) := mapM parse_pair (Split s "&").

(** [net/http] towards Telegram. *)
Class Telegram := {
  tg_state : Type;
  tg_bad_url : string -> option gerror;
  tg_do : http_request -> tg_state -> result (Z * string) * tg_state;
}.

Record TelegramConfig := {
  BotToken : string;
  ChatID : string;
  BaseURL : string;
  cfg_Subscribe : bool; (* set or nil *)
  cfg_Channels : list string;
  cfg_HourlyCap : Z;
  cfg_Cooldown : Duration;
  DigestHour : Z;
  DigestProvider : bool; (* set or nil; an answer comes with each minute *)
  LoadEnv : bool;
}.

Record TelegramNotifier := {
  cfg : TelegramConfig;
  throttle : Throttle;
  channels : list string;
  lastDigestDate : string;
}.

Definition NewTelegramNotifier (getenv : string -> string) (now : Time) (c : TelegramConfig)
    : result TelegramNotifier :=
  let token := if LoadEnv c && str_eqb (BotToken c) "" then getenv "TELEGRAM_BOT_TOKEN" else BotToken c in
  let chat := if LoadEnv c && str_eqb (ChatID c) "" then getenv "TELEGRAM_CHAT_ID" else ChatID c in
  if str_eqb token "" then Fail (EMsg "telegram: bot token required")
  else if str_eqb chat "" then Fail (EMsg "telegram: chat id required")
  else if negb (cfg_Subscribe c) then Fail (EMsg "telegram: redis client required")
  else
    let chs := match cfg_Channels c with [] => DefaultChannels | chs => chs end in
    Ok {| cfg := {| BotToken := token; ChatID := chat;
                    BaseURL := if str_eqb (BaseURL c) "" then "https://api.telegram.org" else BaseURL c;
                    cfg_Subscribe := cfg_Subscribe c; cfg_Channels := cfg_Channels c;
                    cfg_HourlyCap := cfg_HourlyCap c; cfg_Cooldown := cfg_Cooldown c;
                    DigestHour := if (DigestHour c <? 0) || (23 <? DigestHour c) then 9 else DigestHour c;
                    DigestProvider := DigestProvider c; LoadEnv := LoadEnv c |};
          throttle := NewThrottle (cfg_HourlyCap c) (cfg_Cooldown c) now;
          channels := chs; lastDigestDate := "" |}.

Definition with_throttle (n : TelegramNotifier) (t : Throttle) : TelegramNotifier := {|
  cfg := cfg n; throttle := t; channels := channels n; lastDigestDate := lastDigestDate n |}.

Definition with_digest (n : TelegramNotifier) (date : string) : TelegramNotifier := {|
  cfg := cfg n; throttle := throttle n; channels := channels n; lastDigestDate := date |}.

(** What a step of the notifier comes to. *)
Inductive outcome :=
  | Throttled (type reason : string)
  | Sent (at_ : Time) (type body : string) (err : option gerror)
  | NoDigest
  | ProviderFailed (err : gerror)
  | DigestThrottled (reason : string)
  | DigestSent (now at_ : Time) (body : string) (err : option gerror).

(** What [Run]'s [select] meets: its context cancelled, the inbox closed, a
    message, a minute of the ticker.  The times are what the clock reads at each
    of the step's calls; a minute brings what the provider would answer. *)
Inductive input :=
  | Cancelled
  | InboxClosed
  | Inbox (now at_ : Time) (msg : Message)
  | Minute (now at_ : Time) (provided : result DigestSummary).

Definition slash : ascii := "/".

Fixpoint drop_slashes (s : string) : string :=
  match s with
  | String c s' => if Ascii.eqb c slash then drop_slashes s' else s
  | EmptyString => ""
  end.

(** [strings.TrimRight(s, "/")]. *)
Definition trim_slashes (s : string) : string := str_rev (drop_slashes (str_rev s)).

Record envelope := { env_OK : bool; env_Description : string }.

Definition d_envelope : decoder envelope := d_struct
  [("ok", d_field env_OK (fun x r => {| env_OK := x; env_Description := env_Description r |}) d_bool);
   ("description", d_field env_Description (fun x r => {| env_OK := env_OK r; env_Description := x |}) d_string)].

(** The rejection a response of the API carries. *)
Definition rejection (text : string) : option string :=
  match DecodeFirst text with
  | Some (v, _) =>
      match d_envelope v {| env_OK := false; env_Description := "" |} with
      | (env, None) => if negb (env_OK env) && negb (str_eqb (env_Description env) "")
                       then Some (env_Description env) else None
      | (_, Some _) => None
      end
  | None => None
  end.

Definition message_form (n : TelegramNotifier) (body : string) : list (string * string) :=
  [("chat_id", ChatID (cfg n)); ("parse_mode", "Markdown"); ("text", body)].

Definition send_request (n : TelegramNotifier) (body : string) : http_request := {|
  hr_url := trim_slashes (BaseURL (cfg n)) +:+ "/bot" +:+ BotToken (cfg n) +:+ "/sendMessage";
  hr_headers := [("Content-Type", "application/x-www-form-urlencoded")];
  hr_body := encode_form (message_form n body) |}.

Section Notifier.
Context {T : Telegram} (unicode_lower : string -> string).

Definition channelToEventType (channel payload : string) : string :=
  if str_eqb channel "events:circuit_breaker" then EventCircuitBreaker
  else if str_eqb channel "events:epoch_completed" then EventEpochCompleted
  else if str_eqb channel "events:budget" then EventBudgetWarning
  else if str_eqb channel "events:lifecycle" then
    match as_string (field (parsePayload payload) "action") with
    | Some v =>
        let v := ToLower unicode_lower v in
        if mem v ["killed"; "kill"] then EventAgentKilled else EventAgentSpawned
    | None => EventAgentSpawned
    end
  else if str_eqb channel "events:treasury" then EventTreasuryLow
  else channel.

Definition SendMessage (n : TelegramNotifier) (body : string) (s : tg_state) : option gerror * tg_state :=
  let req := send_request n body in
  match tg_bad_url (hr_url req) with
  | Some err => (Some err, s)
  | None =>
      match tg_do req s with
      | (Fail err, s) => (Some err, s)
      | (Ok (status, text), s) =>
          if 400 <=? status
          then (Some (EMsg ("telegram: sendMessage status " +:+ Itoa status +:+ ": " +:+ truncate text 200)), s)
          else
            match rejection text with
            | Some d => (Some (EMsg ("telegram: api error: " +:+ d)), s)
            | None => (None, s)
            end
      end
  end.

Definition handleEvent (now at_ : Time) (msg : Message) (n : TelegramNotifier) (s : tg_state)
    : outcome * TelegramNotifier * tg_state :=
  let etype := channelToEventType (Channel msg) (Payload msg) in
  let '((allowed, reason), t) := Allow now etype (throttle n) in
  let n := with_throttle n t in
  if negb allowed then (Throttled etype reason, n, s)
  else
    let body := Format {| ev_Type := etype; ev_Payload := Payload msg; ev_At := at_ |} in
    let '(err, s) := SendMessage n body s in
    (Sent now etype body err, n, s).

(** [now.UTC().Hour()]. *)
Definition hour (now : Time) : Z := now mod day_ns / Hour.

Definition maybeFireDigest (now at_ : Time) (provided : result DigestSummary) (n : TelegramNotifier)
    (s : tg_state) : outcome * TelegramNotifier * tg_state :=
  if negb (DigestProvider (cfg n)) then (NoDigest, n, s)
  else
    let today := FormatDate now in
    if str_eqb today (lastDigestDate n) then (NoDigest, n, s)
    else if hour now <? DigestHour (cfg n) then (NoDigest, n, s)
    else
      match provided with
      | Fail err => (ProviderFailed err, n, s)
      | Ok d =>
          let body := FormatDigest d in
          let '((allowed, reason), t) := Allow at_ EventDailyDigest (throttle n) in
          let n := with_throttle n t in
          if negb allowed then (DigestThrottled reason, n, s)
          else
            match SendMessage n body s with
            | (Some err, s) => (DigestSent now at_ body (Some err), n, s)
            | (None, s) => (DigestSent now at_ body None, with_digest n today, s)
            end
      end.

Definition step (i : input) (n : TelegramNotifier) (s : tg_state) : option (outcome * TelegramNotifier * tg_state) :=
  match i with
  | Cancelled | InboxClosed => None
  | Inbox now at_ msg => Some (handleEvent now at_ msg n s)
  | Minute now at_ provided => Some (maybeFireDigest now at_ provided n s)
  end.

(** The loop of [Run], over what it meets. *)
Fixpoint loop (inputs : list input) (n : TelegramNotifier) (s : tg_state)
    : list outcome * TelegramNotifier * tg_state :=
  match inputs with
  | [] => ([], n, s)
  | i :: inputs' =>
      match step i n s with
      | None => ([], n, s)
      | Some (o, n, s) => let '(os, n, s) := loop inputs' n s in (o :: os, n, s)
      end
  end.

Definition Run (subscribed : option gerror) (inputs : list input) (n : TelegramNotifier) (s : tg_state)
    : option gerror * (list outcome * TelegramNotifier * tg_state) :=
  match subscribed with
  | Some err => (Some (EWrap "telegram: subscribe: %w" err), ([], n, s))
  | None => (None, loop inputs n s)
  end.
End Notifier.

(** ** The form is read back *)

Lemma unescape_char c rest : QueryUnescape (escape_char c rest) = String c <$> QueryUnescape rest.
Proof. destruct c as [[] [] [] [] [] [] [] []]; reflexivity. Qed.

Lemma QueryUnescape_escape s : QueryUnescape (QueryEscape s) = Some s.
Proof. induction s as [|c s IH]; [done|]. cbn [QueryEscape]. by rewrite unescape_char, IH. Qed.

Lemma escape_char_no_sep c rest d : d = "&"%char \/ d = "="%char ->
  no_byte d (escape_char c rest) = no_byte d rest.
Proof. intros [-> | ->]; destruct c as [[] [] [] [] [] [] [] []]; reflexivity. Qed.

Lemma QueryEscape_no_sep s d : d = "&"%char \/ d = "="%char -> no_byte d (QueryEscape s) = true.
Proof. intros Hd. induction s as [|c s IH]; [done|]. cbn [QueryEscape]. by rewrite escape_char_no_sep. Qed.

Lemma Split_join (l : list string) : l <> [] -> Forall (fun s => no_byte "&" s = true) l ->
  Split (join "&" l) "&" = l.
Proof.
  intros Hne Hl. induction l as [|x [|y l] IH]; [done| |]; apply Forall_cons in Hl as [Hx Hl]; cbn [join].
  - by apply Split_no_sep.
  - transitivity (Split (x +:+ String "&" (join "&" (y :: l))) "&"); [done|].
    rewrite Split_app by done. by rewrite IH.
Qed.

Lemma form_read_back form : form <> [] -> parse_form (encode_form form) = Some form.
Proof.
  intros Hne. unfold parse_form, encode_form. rewrite Split_join.
  - clear Hne. apply mapM_Some. induction form as [|[k v] form IH]; cbn; constructor; [|done].
    unfold parse_pair. cbn [fst snd].
    replace (Split (QueryEscape k +:+ "=" +:+ QueryEscape v) "=") with [QueryEscape k; QueryEscape v]
      by (symmetry; etransitivity; [apply (Split_app (QueryEscape k) (QueryEscape v))|f_equal; apply Split_no_sep];
          apply QueryEscape_no_sep; auto).
    by rewrite !QueryUnescape_escape.
  - by destruct form.
  - apply Forall_forall. intros x Hx. apply list_elem_of_fmap in Hx as ([k v] & -> & _).
    rewrite !no_byte_app. rewrite !QueryEscape_no_sep by auto. done.
Qed.

Section Laws.
Context {T : Telegram} (unicode_lower : string -> string).

(** A message is sent when Telegram takes it: one request goes out, whose
    form reads back as the chat, the Markdown mode and the very text, and
    [SendMessage] succeeds exactly when a response came with a status below 400
    and no rejection in its body. *)
Theorem SendMessage_spec n body s :
  tg_bad_url (hr_url (send_request n body)) = None ->
  parse_form (hr_body (send_request n body)) =
    Some [("chat_id", ChatID (cfg n)); ("parse_mode", "Markdown"); ("text", body)] /\
  (SendMessage n body s).2 = (tg_do (send_request n body) s).2 /\
  ((SendMessage n body s).1 = None <->
   exists status text, (tg_do (send_request n body) s).1 = Ok (status, text) /\ status < 400 /\ rejection text = None).
Proof.
  intros Hu. split; [by apply form_read_back|]. unfold SendMessage. rewrite Hu.
  destruct (tg_do _ s) as [[[status text]|err] s']; cbn [fst snd].
  - destruct (Z.leb_spec 400 status); cbn [fst snd].
    + split; [done|]. split; [done|]. intros (? & ? & [= <- <-] & ? & ?). lia.
    + destruct (rejection text) eqn:E; cbn [fst snd]; (split; [done|]).
      * split; [done|]. intros (? & ? & [= <- <-] & ? & ?). congruence.
      * split; [|done]. intros _. by exists status, text.
  - split; [done|]. split; [done|]. by intros (? & ? & ? & _).
Qed.

(** *** What goes out has passed the throttle *)

Definition admitted (o : outcome) : list (Time * string) :=
  match o with
  | Sent at_ ty _ _ => [(at_, ty)]
  | DigestSent _ at_ _ _ => [(at_, EventDailyDigest)]
  | _ => []
  end.

Lemma step_admits i n s o n' s' : step unicode_lower i n s = Some (o, n', s') ->
  exists calls, deliveries calls (throttle n) = (admitted o, throttle n').
Proof.
  destruct i as [| |now at_ msg|now at_ provided]; cbn [step]; [done|done| |]; intros [= E].
  - unfold handleEvent in E. set (ty := channelToEventType _ _ _) in E. exists [(now, ty)]. cbn [deliveries].
    destruct (Allow now ty (throttle n)) as [[[] reason] t]; cbn [negb] in E.
    + destruct (SendMessage _ _ _) as [err s1]. by injection E as <- <- _.
    + by injection E as <- <- _.
  - unfold maybeFireDigest in E. destruct (negb _); [by exists []; injection E as <- <- _|].
    destruct (str_eqb _ _); [by exists []; injection E as <- <- _|].
    destruct (_ <? _); [by exists []; injection E as <- <- _|].
    destruct provided as [d|err]; [|by exists []; injection E as <- <- _].
    exists [(at_, EventDailyDigest)]. cbn [deliveries].
    destruct (Allow at_ EventDailyDigest (throttle n)) as [[[] reason] t]; cbn [negb] in E; [|by injection E as <- <- _].
    destruct (SendMessage _ _ _) as [[err|] s1]; by injection E as <- <- _.
Qed.

Lemma deliveries_app calls1 calls2 t out1 t1 out2 t2 :
  deliveries calls1 t = (out1, t1) -> deliveries calls2 t1 = (out2, t2) ->
  deliveries (calls1 ++ calls2) t = (out1 ++ out2, t2).
Proof.
  revert t out1. induction calls1 as [|[now ty] calls IH]; intros t out1 H1 H2; cbn in *; [by injection H1 as <- <-|].
  destruct (Allow now ty t) as [[ok why] t']. destruct (deliveries calls t') as [o u] eqn:E.
  injection H1 as <- <-. rewrite (IH _ _ E H2). by destruct ok.
Qed.

Lemma loop_admits inputs : forall n s, exists calls,
  deliveries calls (throttle n) =
    (concat (map admitted (loop unicode_lower inputs n s).1.1), throttle (loop unicode_lower inputs n s).1.2).
Proof.
  induction inputs as [|i inputs IH]; intros n s; cbn [loop]; [by exists []|].
  destruct (step unicode_lower i n s) as [[[o n1] s1]|] eqn:E; [|by exists []].
  destruct (step_admits _ _ _ _ _ _ E) as [c1 H1]. destruct (IH n1 s1) as [c2 H2].
  destruct (loop unicode_lower inputs n1 s1) as [[os n2] s2]. exists (c1 ++ c2).
  by apply (deliveries_app _ _ _ _ _ _ _ H1).
Qed.

(** Whatever the notifier meets and whatever Telegram answers, two messages
    of one type, daily digests included, go out at least the cooldown apart by
    the notifier's clock, and the hour's bucket stays between zero and its cap. *)
Theorem messages_spaced getenv t0 c n inputs s :
  NewTelegramNotifier getenv t0 c = Ok n -> cfg_HourlyCap c <= max_int64 -> cfg_Cooldown c <= max_int64 ->
  spaced (cooldown (throttle n)) (concat (map admitted (loop unicode_lower inputs n s).1.1)) /\
  bucket_ok (throttle (loop unicode_lower inputs n s).1.2).
Proof.
  intros Hn Hcap Hcd.
  assert (Ht : throttle n = NewThrottle (cfg_HourlyCap c) (cfg_Cooldown c) t0).
  { unfold NewTelegramNotifier in Hn. do 3 (destruct (_ : bool); [done|]). by injection Hn as <-. }
  destruct (loop_admits inputs n s) as [calls H]. rewrite Ht in *.
  pose proof (deliveries_spaced calls (NewThrottle (cfg_HourlyCap c) (cfg_Cooldown c) t0)) as Hs.
  pose proof (deliveries_bucket calls _ (NewThrottle_bucket (cfg_HourlyCap c) (cfg_Cooldown c) t0 Hcap)) as Hb.
  rewrite H in Hs, Hb. split; [|exact Hb]. apply Hs. cbn. unfold Second, max_int64 in *.
  destruct (Z.leb_spec (cfg_Cooldown c) 0); lia.
Qed.

(** *** The daily digest *)

(** The digests that reached Telegram. *)
Definition delivered (o : outcome) : list Time :=
  match o with DigestSent now _ _ None => [now] | _ => [] end.

(** The minutes of the ticker come in the clock's order, from [u]. *)
Fixpoint minutes_from (u : Time) (inputs : list input) : Prop :=
  match inputs with
  | Minute now _ _ :: inputs' => u <= now /\ minutes_from now inputs'
  | _ :: inputs' => minutes_from u inputs'
  | [] => True
  end.

Lemma handleEvent_digest now at_ msg n s :
  let '(o, n', _) := handleEvent unicode_lower now at_ msg n s in
  delivered o = [] /\ lastDigestDate n' = lastDigestDate n /\ cfg n' = cfg n.
Proof.
  unfold handleEvent. destruct (Allow _ _ _) as [[[] reason] t]; cbn [negb]; [|done].
  by destruct (SendMessage _ _ _).
Qed.

Lemma maybeFireDigest_digest now at_ provided n s :
  let '(o, n', _) := maybeFireDigest now at_ provided n s in
  cfg n' = cfg n /\
  ((delivered o = [] /\ lastDigestDate n' = lastDigestDate n) \/
   (delivered o = [now] /\ lastDigestDate n' = FormatDate now /\ FormatDate now <> lastDigestDate n /\
    DigestHour (cfg n) <= hour now)).
Proof.
  unfold maybeFireDigest. destruct (negb _); [by auto|].
  destruct (str_eqb (FormatDate now) _) eqn:Ed; [by auto|]. apply bool_decide_eq_false in Ed.
  destruct (Z.ltb_spec (hour now) (DigestHour (cfg n))) as [|Hh]; [by auto|].
  destruct provided as [d|err]; [|by auto].
  destruct (Allow _ _ _) as [[[] reason] t]; cbn [negb]; [|by auto].
  destruct (SendMessage _ _ _) as [[err|] s1]; [by auto|]. by auto 6.
Qed.

(** The day of the last digest is not after the clock's. *)
Definition digested (n : TelegramNotifier) (d u : Z) : Prop :=
  (lastDigestDate n = "" /\ d = -1) \/ exists t, 0 <= t <= u /\ lastDigestDate n = FormatDate t /\ d = t / day_ns.

Lemma loop_digests inputs : forall n s d u, 0 <= u -> digested n d u -> minutes_from u inputs ->
  let days := concat (map delivered (loop unicode_lower inputs n s).1.1) in
  Sorted.StronglySorted (fun a b => a / day_ns < b / day_ns) days /\
  Forall (fun now => d < now / day_ns /\ DigestHour (cfg n) <= hour now) days.
Proof.
  induction inputs as [|i inputs IH]; intros n s d u Hu Hd Hm; cbn [loop]; [by repeat constructor|].
  destruct i as [| |now at_ msg|now at_ provided]; cbn [step]; [by repeat constructor..| |].
  - pose proof (handleEvent_digest now at_ msg n s) as H. destruct (handleEvent _ _ _ _ _ _) as [[o n1] s1].
    destruct H as (Ho & Hl & Hc). specialize (IH n1 s1 d u Hu). unfold digested in IH. rewrite Hl, Hc in IH.
    specialize (IH Hd Hm). destruct (loop unicode_lower inputs n1 s1) as [[os n2] s2]. cbn in IH |- *. by rewrite Ho.
  - pose proof (maybeFireDigest_digest now at_ provided n s) as H. destruct Hm as [Hnow Hm].
    destruct (maybeFireDigest _ _ _ _ _) as [[o n1] s1].
    destruct H as (Hc & [(Ho & Hl)|(Ho & Hl & Hne & Hh)]).
    + specialize (IH n1 s1 d now ltac:(lia)). unfold digested in IH. rewrite Hl, Hc in IH.
      destruct (loop unicode_lower inputs n1 s1) as [[os n2] s2]. cbn in IH |- *. rewrite Ho. apply IH; [|done].
      destruct Hd as [|(t & Ht & E & Ed)]; [by left|right]. exists t. split; [lia|done].
    + assert (Hlt : d < now / day_ns).
      { destruct Hd as [[_ ->]|(t & Ht & E & ->)]; [pose proof (Z.div_pos now day_ns ltac:(lia) eq_refl); lia|].
        assert (t / day_ns <= now / day_ns) by (apply Z.div_le_mono; [done|lia]).
        assert (t / day_ns <> now / day_ns); [|lia].
        intros Eq. apply Hne. rewrite E. by apply FormatDate_inj; [lia..|]. }
      destruct (IH n1 s1 (now / day_ns) now) as [I1 I2]; [lia| |done|].
      { right. exists now. split; [lia|done]. }
      destruct (loop unicode_lower inputs n1 s1) as [[os n2] s2]. cbn in I1, I2 |- *. rewrite Ho, Hc in *. cbn.
      split; constructor; [done| |done|].
      * eapply Forall_impl; [exact I2|]. by intros x [? _].
      * eapply Forall_impl; [exact I2|]. intros x [? ?]. split; [lia|done].
Qed.

(** C24: The digest reaches Telegram at most once in a UTC day and never before
    the hour set for it, as long as the clock does not run backwards; days without
    one are left to the provider, the throttle and Telegram. *)
Theorem digest_once_a_day getenv t0 c n u inputs s :
  NewTelegramNotifier getenv t0 c = Ok n -> 0 <= u -> minutes_from u inputs ->
  let days := concat (map delivered (loop unicode_lower inputs n s).1.1) in
  Sorted.StronglySorted (fun a b => a / day_ns < b / day_ns) days /\
  Forall (fun now => DigestHour (cfg n) <= hour now) days /\ 0 <= DigestHour (cfg n) <= 23.
Proof.
  intros Hn Hu Hm days.
  assert (Hn' : lastDigestDate n = "" /\ 0 <= DigestHour (cfg n) <= 23).
  { unfold NewTelegramNotifier in Hn. do 3 (destruct (_ : bool); [done|]). injection Hn as <-. split; [done|].
    cbn. destruct (Z.ltb_spec (DigestHour c) 0), (Z.ltb_spec 23 (DigestHour c)); cbn; lia. }
  destruct Hn' as [Hl Hh].
  destruct (loop_digests inputs n s (-1) u Hu) as [H1 H2]; [by left|done|].
  split; [exact H1|]. split; [|done]. eapply Forall_impl; [exact H2|]. by intros x [_ ?].
Qed.

(** *** Who it hears *)

(** A notifier made without channels of its own, as the program makes it,
    hears no message of the lifecycle manager: transitions and spawns are
    published on other channels than the one it subscribes to. *)
Theorem lifecycle_unheard {S : Lifecycle.LifecycleStore} {E : Lifecycle.EventCodec} bus now getenv t0 c n :
  NewTelegramNotifier getenv t0 c = Ok n -> cfg_Channels c = [] ->
  (forall t id reason db, Forall (fun m => Lifecycle.Channel m ∉ channels n) (Lifecycle.run bus now t id reason db).2) /\
  (forall row reason db, Forall (fun m => Lifecycle.Channel m ∉ channels n) (Lifecycle.Spawn bus now row reason db).2).
Proof.
  intros Hn Hc.
  assert (Hch : channels n = DefaultChannels).
  { unfold NewTelegramNotifier in Hn. do 3 (destruct (_ : bool); [done|]). injection Hn as <-. by rewrite Hc. }
  rewrite Hch.
  assert (Hp : forall ch ev, ch ∉ DefaultChannels ->
    Forall (fun m => Lifecycle.Channel m ∉ DefaultChannels) (Lifecycle.publish bus ch ev)).
  { intros ch ev Hch'. unfold Lifecycle.publish. destruct bus as [Pub|]; [|done].
    destruct (Lifecycle.Marshal ev) as [pl|]; [|done]. destruct (Pub ch pl); [done|]. by constructor. }
  assert (Hout : forall ch, mem ch DefaultChannels = false -> ch ∉ DefaultChannels)
    by (intros ch H Hin; apply mem_spec in Hin; congruence).
  split.
  - intros t id reason db.
    destruct t; cbn [Lifecycle.run]; unfold Lifecycle.Kill, Lifecycle.Pause, Lifecycle.Resume, Lifecycle.Promote,
      Lifecycle.Demote, Lifecycle.setClassAndEmit; destruct (str_eqb id ""); try done;
      [destruct (Lifecycle.SetAgentStatus _ _ _ _) as [[e|] db']..|
       destruct (Lifecycle.SetAgentNodeClass _ _ _) as [[e|] db']|
       destruct (Lifecycle.SetAgentNodeClass _ _ _) as [[e|] db']]; try done; by apply Hp, Hout.
  - intros row reason db. unfold Lifecycle.Spawn. destruct (Lifecycle.InsertAgent _ _) as [[id|err] db']; [|done].
    by apply Hp, Hout.
Qed.
End Laws.

(** ** Samples *)

(** A Telegram that keeps the requests and answers each the same. *)
Definition answers (status : Z) (text : string) : Telegram := {|
  tg_state := list http_request;
  tg_bad_url := fun _ => None;
  tg_do := fun req s => (Ok (status, text), s ++ [req]) |}.

Definition accepted : Telegram := answers 200 (obj [json_string "ok" +:+ ": true"]).

Definition rejected : Telegram :=
  answers 200 (obj [json_string "ok" +:+ ": false"; pair_text "description" (json_string "chat not found")]).

Definition deployed : TelegramConfig := {|
  BotToken := "7:t"; ChatID := "42"; BaseURL := ""; cfg_Subscribe := true; cfg_Channels := [];
  cfg_HourlyCap := 0; cfg_Cooldown := 0; DigestHour := 9; DigestProvider := true; LoadEnv := false |}.

Definition sample_notifier : TelegramNotifier :=
  match NewTelegramNotifier (fun _ => "") 0 deployed with
  | Ok n => n
  | Fail _ => {| cfg := deployed; throttle := NewThrottle 0 0 0; channels := []; lastDigestDate := "" |}
  end.

Definition killed_a1 : Message := {|
  Channel := "events:lifecycle";
  Payload := obj [pair_text "action" (json_string "Killed"); pair_text "agent_id" (json_string "a1");
                  pair_text "reason" (json_string "drawdown")] |}.

Definition one_digest : DigestSummary := {|
  Date := "0001-01-01"; TotalPnLUSD := 12.5;
  BestAgent := {| as_AgentID := "a2"; as_Name := "two"; as_PnLUSD := 13 |};
  WorstAgent := no_score; PromotionsPending := 0; AgentsActive := 3; AgentsKilled := 1; NewAgents := 0 |}.

(** Half past the digest's hour of two days, with a minute more of the first, and
    two messages about one agent in a row. *)
Definition two_days : list input :=
  let h := 9 * Hour in
  [Minute (h - 1) (h - 1) (Ok one_digest); Minute h h (Ok one_digest); Minute (h + 60 * Second) (h + 60 * Second) (Ok one_digest);
   Inbox (h + 61 * Second) (h + 61 * Second) killed_a1; Inbox (h + 62 * Second) (h + 62 * Second) killed_a1;
   Minute (h + 24 * Hour) (h + 24 * Hour) (Ok one_digest); InboxClosed; Minute (h + 48 * Hour) 0 (Ok one_digest)].

Example two_days_out :
  map (fun o => match o with
                | Sent _ ty body _ => body
                | DigestSent _ _ body _ => body
                | Throttled ty reason => ty +:+ " " +:+ reason
                | _ => ""
                end) (loop (T := accepted) id two_days sample_notifier []).1.1 =
  [""; FormatDigest one_digest; ""; "🪦 *Agent killed*: `a1`" +:+ nl +:+ "Reason: drawdown"; "agent_killed cooldown";
   FormatDigest one_digest].
Proof. vm_compute. reflexivity. Qed.

Example digest_text : FormatDigest one_digest =
  "*Daily digest* — 0001-01-01" +:+ nl +:+ "Total P&L: *$12.50*" +:+ nl +:+ "Best: `two` (a2)  +$13.00" +:+ nl +:+
  "Active agents: 3  •  Spawned: 0  •  Killed: 1" +:+ nl.
Proof. vm_compute. reflexivity. Qed.

Example epoch_text :
  Format {| ev_Type := EventEpochCompleted; ev_Payload := " e7 "; ev_At := 0 |} = "✅ *Epoch completed*: `e7`" /\
  Format {| ev_Type := EventEpochCompleted; ev_Payload := obj [pair_text "promotions" "2"]; ev_At := 0 |} =
    "✅ *Epoch completed*" +:+ nl +:+ "Promotions: 2".
Proof. vm_compute. split; reflexivity. Qed.

(** A rejected digest is tried again, and again holds a token and the cooldown. *)
Example rejected_digest_retried :
  map (fun o => match o with DigestSent now _ _ err => (now / (60 * Second) - 540, bool_decide (is_Some err)) | _ => (-1, false) end)
    (loop (T := rejected) id
      [Minute (9 * Hour) (9 * Hour) (Ok one_digest); Minute (9 * Hour + 60 * Second) (9 * Hour + 60 * Second) (Ok one_digest)]
      sample_notifier []).1.1 = [(0, true); (1, true)].
Proof. vm_compute. reflexivity. Qed.

Lemma SendMessage_spec_witness :
  parse_form (hr_body (send_request sample_notifier "a & b = 100% +é")) =
    Some [("chat_id", "42"); ("parse_mode", "Markdown"); ("text", "a & b = 100% +é")] /\
  (SendMessage (T := accepted) sample_notifier "hi" []).1 = None.
Proof.
  split.
  - exact (proj1 (SendMessage_spec (T := accepted) sample_notifier "a & b = 100% +é" [] eq_refl)).
  - apply (SendMessage_spec (T := accepted) sample_notifier "hi" [] eq_refl).
    eexists 200, _. split; [reflexivity|]. split; [lia|]. vm_compute. reflexivity.
Defined.

Lemma messages_spaced_witness :
  spaced (60 * Second) (concat (map admitted (loop (T := accepted) id two_days sample_notifier []).1.1)).
Proof.
  exact (proj1 (messages_spaced (T := accepted) id (fun _ => "") 0 deployed sample_notifier two_days [] eq_refl
    ltac:(cbn; unfold max_int64; lia) ltac:(cbn; unfold max_int64; lia))).
Defined.

Lemma digest_once_a_day_witness :
  let days := concat (map delivered (loop (T := accepted) id two_days sample_notifier []).1.1) in
  days = [9 * Hour; 33 * Hour] /\ Sorted.StronglySorted (fun a b => a / day_ns < b / day_ns) days.
Proof.
  intros days. split; [vm_compute; reflexivity|].
  apply (digest_once_a_day (T := accepted) id (fun _ => "") 0 deployed sample_notifier 0 two_days []); [reflexivity|lia|].
  vm_compute. repeat (apply conj; [done|]). done.
Defined.

Lemma lifecycle_unheard_witness :
  Forall (fun m => Lifecycle.Channel m ∉ channels sample_notifier)
    (Lifecycle.run (S := journal) (E := event_codec) live_bus 7 TKill "a" "dead" no_writes).2.
Proof.
  apply (lifecycle_unheard (S := journal) (E := event_codec) live_bus 7 (fun _ => "") 0 deployed sample_notifier eq_refl eq_refl).
Defined.
