(* ===== verification/Wallets.v ===== *)
(** * Wallets ([internal/chain/solana_wallet.go], [base_wallet.go])

    Bytes are strings.  AES-GCM is [Security]'s interface; the two curves and
    their address formats are interfaces here.  What the random reader yields is
    an argument, [None] a read that fails. *)
From Stdlib Require Import ZArith Lia.
From stdpp Require Import base list strings.
From S2P Require Import Prelude GoBase Security.
Open Scope Z_scope.

Record Wallet := {
  w_Chain : string;
  w_Address : string;
  w_KeyEncrypted : string;
}.

Definition masterKeySize : Z := 32.
Definition gcmNonceSize : Z := 12.
Definition seedSize : Z := 32. (* ed25519.SeedSize *)
Definition baseSeedSize : Z := 32.

(** [crypto/ed25519] and [solana-go]'s base58 addresses. *)
Class Ed25519 := {
  SolKey : Type;
  NewKeyFromSeed : string -> SolKey;
  Public : SolKey -> string;
  base58 : string -> string;
}.

(** [go-ethereum]'s [crypto] and [common]. *)
Class Secp256k1 := {
  EcKey : Type;
  EthAddress : Type;
  ToECDSA : string -> result EcKey;
  FromECDSA : EcKey -> string;
  PubkeyToAddress : EcKey -> EthAddress;
  Hex : EthAddress -> string;
  HexToAddress : string -> EthAddress;
  address_eq : EthAddress -> EthAddress -> bool;
}.

(** A key goes to its 32 bytes and back; an address to its text and back. *)
Class Secp256k1Laws (S : Secp256k1) := {
  FromECDSA_size : forall k, str_len (FromECDSA k) = baseSeedSize;
  ToECDSA_From : forall k, ToECDSA (FromECDSA k) = Ok k;
  FromECDSA_To : forall b k, ToECDSA b = Ok k -> FromECDSA k = b;
  HexToAddress_Hex : forall a, HexToAddress (Hex a) = a;
  address_eq_spec : forall a b, address_eq a b = true <-> a = b;
}.

Section Wallets.
Context {A : AEAD}.

(** ** Sealing a seed *)

Definition encryptSeed (rand : option string) (masterKey seed : string) : result string :=
  match NewCipher masterKey with
  | Fail e => Fail (EWrap "solana wallet: aes: %w" e)
  | Ok block =>
      match NewGCM block with
      | Fail e => Fail (EWrap "solana wallet: gcm: %w" e)
      | Ok gcm =>
          match rand with
          | None => Fail (EMsg "solana wallet: nonce: %w")
          | Some nonce => Ok (Seal gcm ("" +:+ nonce) nonce seed)
          end
      end
  end.

(** [decryptSeed] and [decryptBaseKey] differ in the texts of their errors. *)
Definition open_blob (who what : string) (size : Z) (masterKey blob : string) : result string :=
  if str_len blob <? gcmNonceSize then Fail (EMsg (who +:+ ": ciphertext too short"))
  else
    match NewCipher masterKey with
    | Fail e => Fail (EWrap (who +:+ ": aes: %w") e)
    | Ok block =>
        match NewGCM block with
        | Fail e => Fail (EWrap (who +:+ ": gcm: %w") e)
        | Ok gcm =>
            let nonce := str_take (Z.to_nat gcmNonceSize) blob in
            let ct := str_drop (Z.to_nat gcmNonceSize) blob in
            match Open' gcm nonce ct with
            | Fail e => Fail (EWrap (who +:+ ": open: %w") e)
            | Ok pt => if negb (str_len pt =? size) then Fail (EMsg (who +:+ ": decrypted " +:+ what +:+ " has wrong size %d")) else Ok pt
            end
        end
    end.

Definition decryptSeed : string -> string -> result string := open_blob "solana wallet" "seed" seedSize.
Definition decryptBaseKey : string -> string -> result string := open_blob "base wallet" "key" baseSeedSize.

(** ** Solana *)

Definition SolanaWalletFromSeed {E : Ed25519} (rand : option string) (masterKey seed : string) : result Wallet :=
  if negb (str_len masterKey =? masterKeySize)
  then Fail (EMsg "solana wallet: master key must be %d bytes, got %d")
  else if negb (str_len seed =? seedSize) then Fail (EMsg "solana wallet: seed must be %d bytes, got %d")
  else
    let pub := Public (NewKeyFromSeed seed) in
    match encryptSeed rand masterKey seed with
    | Fail e => Fail e
    | Ok enc => Ok {| w_Chain := "solana"; w_Address := base58 pub; w_KeyEncrypted := enc |}
    end.

(** [seeded]: the seed [ed25519.GenerateKey] draws. *)
Definition NewSolanaWallet {E : Ed25519} (seeded rand : option string) (masterKey : string) : result Wallet :=
  if negb (str_len masterKey =? masterKeySize)
  then Fail (EMsg "solana wallet: master key must be %d bytes, got %d")
  else
    match seeded with
    | None => Fail (EMsg "solana wallet: keygen: %w")
    | Some seed =>
        match encryptSeed rand masterKey seed with
        | Fail e => Fail e
        | Ok enc =>
            Ok {| w_Chain := "solana"; w_Address := base58 (Public (NewKeyFromSeed seed)); w_KeyEncrypted := enc |}
        end
    end.

Definition UnsealSolanaWallet {E : Ed25519} (masterKey : string) (w : option Wallet) : result SolKey :=
  match w with
  | None => Fail (EMsg "solana wallet: nil wallet")
  | Some w =>
      if negb (str_eqb (w_Chain w) "solana") then Fail (EMsg "solana wallet: chain mismatch: %q")
      else
        match decryptSeed masterKey (w_KeyEncrypted w) with
        | Fail e => Fail e
        | Ok seed => Ok (NewKeyFromSeed seed)
        end
  end.

(** ** Base *)

Definition baseWalletFromPriv {S : Secp256k1} (rand : option string) (masterKey : string) (priv : EcKey)
    : result Wallet :=
  let addr := PubkeyToAddress priv in
  match encryptSeed rand masterKey (FromECDSA priv) with
  | Fail e => Fail e
  | Ok enc => Ok {| w_Chain := "base"; w_Address := Hex addr; w_KeyEncrypted := enc |}
  end.

(** [drawn]: what [crypto.GenerateKey] gives. *)
Definition NewBaseWallet {S : Secp256k1} (drawn : result EcKey) (rand : option string) (masterKey : string)
    : result Wallet :=
  if negb (str_len masterKey =? masterKeySize)
  then Fail (EMsg "base wallet: master key must be %d bytes, got %d")
  else
    match drawn with
    | Fail e => Fail (EWrap "base wallet: keygen: %w" e)
    | Ok priv => baseWalletFromPriv rand masterKey priv
    end.

Definition BaseWalletFromPrivKey {S : Secp256k1} (rand : option string) (masterKey key : string) : result Wallet :=
  if negb (str_len masterKey =? masterKeySize)
  then Fail (EMsg "base wallet: master key must be %d bytes, got %d")
  else if negb (str_len key =? baseSeedSize) then Fail (EMsg "base wallet: priv key must be %d bytes, got %d")
  else
    match ToECDSA key with
    | Fail e => Fail (EWrap "base wallet: parse priv: %w" e)
    | Ok priv => baseWalletFromPriv rand masterKey priv
    end.

Definition UnsealBaseWallet {S : Secp256k1} (masterKey : string) (w : option Wallet) : result EcKey :=
  match w with
  | None => Fail (EMsg "base wallet: nil wallet")
  | Some w =>
      if negb (str_eqb (w_Chain w) "base") then Fail (EMsg "base wallet: chain mismatch: %q")
      else
        match decryptBaseKey masterKey (w_KeyEncrypted w) with
        | Fail e => Fail e
        | Ok raw =>
            match ToECDSA raw with
            | Fail e => Fail (EWrap "base wallet: rebuild priv: %w" e)
            | Ok priv =>
                if negb (address_eq (PubkeyToAddress priv) (HexToAddress (w_Address w)))
                then Fail (EMsg "base wallet: decrypted key does not match address")
                else Ok priv
            end
        end
  end.

(** ** What opens *)

Lemma open_blob_spec {L : AEADLaws A} who what size key blob p : str_len key = masterKeySize ->
  open_blob who what size key blob = Ok p <->
  str_len p = size /\ exists n, str_len n = gcmNonceSize /\ encryptSeed (Some n) key p = Ok blob.
Proof.
  intros Hk. unfold open_blob, encryptSeed.
  destruct (NewCipher_32 key Hk) as [b ->]. destruct (NewGCM_ok b) as [g ->]. change ("" +:+ ?x) with x.
  destruct (Z.ltb_spec (str_len blob) gcmNonceSize) as [Hs|Hs].
  { split; [done|]. intros (_ & n & Hn & [= <-]). pose proof (sealed_long g n p Hn). unfold nonceSize, gcmNonceSize in *. lia. }
  pose proof (sealed_open g blob) as Ho.
  change (str_take (Z.to_nat nonceSize)) with (str_take (Z.to_nat gcmNonceSize)) in Ho.
  change (str_drop (Z.to_nat nonceSize)) with (str_drop (Z.to_nat gcmNonceSize)) in Ho.
  destruct (Open' g _ _) as [q|e].
  - destruct (proj1 (Ho q Hs) eq_refl) as (m & Hm & Eb). destruct (Z.eqb_spec (str_len q) size) as [E|E]; cbn [negb].
    + split.
      * intros [= <-]. split; [done|]. exists m. by rewrite Eb.
      * intros (_ & n & Hn & [= <-]). exact (proj2 (Ho p Hs) (ex_intro _ n (conj Hn eq_refl))).
    + split; [done|]. intros (Hp & n & Hn & [= En]).
      pose proof (proj2 (Ho p Hs) (ex_intro _ n (conj Hn (eq_sym En)))) as [= ->]. done.
  - split; [done|]. intros (_ & n & Hn & [= En]). by pose proof (proj2 (Ho p Hs) (ex_intro _ n (conj Hn (eq_sym En)))).
Qed.

(** The two key stores of the program are interchangeable: under a master
    key of 32 bytes, what [internal/security] encrypts is what the wallets seal,
    and a wallet's blob opens to a seed exactly when [Decrypt] gives that seed
    and it has 32 bytes. *)
Theorem seals_like_security {L : AEADLaws A} (key : string) : str_len key = masterKeySize ->
  (forall rand p blob, encryptSeed rand key p = Ok blob <-> Security.Encrypt rand p key = Ok blob) /\
  (forall blob p, decryptSeed key blob = Ok p <-> Security.Decrypt blob key = Ok p /\ str_len p = seedSize) /\
  (forall blob p, decryptBaseKey key blob = Ok p <-> Security.Decrypt blob key = Ok p /\ str_len p = baseSeedSize).
Proof.
  intros Hk.
  assert (Hd : forall who what size blob p, open_blob who what size key blob = Ok p <->
    Security.Decrypt blob key = Ok p /\ str_len p = size).
  { intros who what size blob p. unfold open_blob, Decrypt. change gcmNonceSize with nonceSize.
    change (str_len key =? MasterKeySize) with (str_len key =? masterKeySize). rewrite Hk. cbn [negb Z.eqb Pos.eqb masterKeySize].
    destruct (_ <? _); [by split; [|intros [? _]]|].
    destruct (NewCipher_32 key Hk) as [b ->]. destruct (NewGCM_ok b) as [g ->].
    destruct (Open' g _ _) as [q|e]; [|by split; [|intros [? _]]].
    destruct (Z.eqb_spec (str_len q) size) as [E|E]; cbn [negb]; split; [by intros [= <-]|by intros [[= <-] _]|done|].
    intros [[= <-] ?]. done. }
  split; [|split; [exact (Hd "solana wallet" "seed" seedSize)|exact (Hd "base wallet" "key" baseSeedSize)]].
  intros rand p blob. unfold encryptSeed, Encrypt.
  change (str_len key =? MasterKeySize) with (str_len key =? masterKeySize). rewrite Hk. cbn [negb Z.eqb Pos.eqb masterKeySize].
  destruct (NewCipher_32 key Hk) as [b ->]. destruct (NewGCM_ok b) as [g ->]. by destruct rand.
Qed.

(** A Solana wallet unseals, under a master key of 32 bytes, exactly to
    the key of a seed of 32 bytes whose sealing it stores; in particular to the
    key it was made from.  Its address plays no part. *)
Theorem unseal_solana_spec {L : AEADLaws A} {E : Ed25519} key :
  str_len key = masterKeySize ->
  (forall w k, UnsealSolanaWallet key (Some w) = Ok k <->
     w_Chain w = "solana" /\ exists seed n, str_len seed = seedSize /\ str_len n = gcmNonceSize /\
       encryptSeed (Some n) key seed = Ok (w_KeyEncrypted w) /\ k = NewKeyFromSeed seed) /\
  (forall n seed w, str_len n = gcmNonceSize -> SolanaWalletFromSeed (Some n) key seed = Ok w ->
     w_Address w = base58 (Public (NewKeyFromSeed seed)) /\
     UnsealSolanaWallet key (Some w) = Ok (NewKeyFromSeed seed)).
Proof.
  intros Hk.
  assert (H1 : forall w k, UnsealSolanaWallet key (Some w) = Ok k <->
     w_Chain w = "solana" /\ exists seed n, str_len seed = seedSize /\ str_len n = gcmNonceSize /\
       encryptSeed (Some n) key seed = Ok (w_KeyEncrypted w) /\ k = NewKeyFromSeed seed).
  { intros w k. unfold UnsealSolanaWallet, str_eqb. case_bool_decide as Ec; cbn [negb]; [|by split; [|intros [? _]]].
    pose proof (open_blob_spec "solana wallet" "seed" seedSize key (w_KeyEncrypted w)) as Ho. fold decryptSeed in Ho.
    destruct (decryptSeed key (w_KeyEncrypted w)) as [seed|e].
    - destruct (proj1 (Ho seed Hk) eq_refl) as (Hs & n & Hn & He). split.
      + intros [= <-]. split; [done|]. by exists seed, n.
      + intros (_ & seed' & n' & Hs' & Hn' & He' & ->).
        by pose proof (proj2 (Ho seed' Hk) (conj Hs' (ex_intro _ n' (conj Hn' He')))) as [= <-].
    - split; [done|]. intros (_ & seed' & n' & Hs' & Hn' & He' & _).
      by pose proof (proj2 (Ho seed' Hk) (conj Hs' (ex_intro _ n' (conj Hn' He')))). }
  split; [exact H1|]. intros n seed w Hn Hw. unfold SolanaWalletFromSeed in Hw.
  destruct (negb _); [done|]. destruct (Z.eqb_spec (str_len seed) seedSize) as [Hs|]; cbn [negb] in Hw; [|done].
  destruct (encryptSeed _ _ _) as [enc|] eqn:Ee; [|done]. injection Hw as <-. split; [done|].
  apply H1. split; [done|]. by exists seed, n.
Qed.

(** C22: A Base wallet unseals, under a master key of 32 bytes, exactly to the
    key whose 32 bytes it stores and whose address is its own; in particular a
    wallet gives back the key it was made from. *)
Theorem unseal_base_spec {L : AEADLaws A} {S : Secp256k1} {SL : Secp256k1Laws S} key :
  str_len key = masterKeySize ->
  (forall w k, UnsealBaseWallet key (Some w) = Ok k <->
     w_Chain w = "base" /\ PubkeyToAddress k = HexToAddress (w_Address w) /\
     exists n, str_len n = gcmNonceSize /\ encryptSeed (Some n) key (FromECDSA k) = Ok (w_KeyEncrypted w)) /\
  (forall n k w, str_len n = gcmNonceSize -> NewBaseWallet (Ok k) (Some n) key = Ok w ->
     UnsealBaseWallet key (Some w) = Ok k).
Proof.
  intros Hk.
  assert (H1 : forall w k, UnsealBaseWallet key (Some w) = Ok k <->
     w_Chain w = "base" /\ PubkeyToAddress k = HexToAddress (w_Address w) /\
     exists n, str_len n = gcmNonceSize /\ encryptSeed (Some n) key (FromECDSA k) = Ok (w_KeyEncrypted w)).
  { intros w k. unfold UnsealBaseWallet, str_eqb. case_bool_decide as Ec; cbn [negb]; [|by split; [|intros [? _]]].
    pose proof (open_blob_spec "base wallet" "key" baseSeedSize key (w_KeyEncrypted w)) as Ho. fold decryptBaseKey in Ho.
    assert (Hk' : forall raw, decryptBaseKey key (w_KeyEncrypted w) = Ok raw -> ToECDSA raw = Ok k ->
      FromECDSA k = raw) by (intros; by apply FromECDSA_To).
    destruct (decryptBaseKey key (w_KeyEncrypted w)) as [raw|e].
    - destruct (proj1 (Ho raw Hk) eq_refl) as (Hs & n & Hn & He). split.
      + destruct (ToECDSA raw) as [p|] eqn:Et; [|done]. destruct (address_eq _ _) eqn:Ea; cbn [negb]; [|done].
        intros [= <-]. split; [done|]. split; [by apply address_eq_spec|]. exists n.
        by rewrite (FromECDSA_To _ _ Et).
      + intros (_ & Ha & n' & Hn' & He').
        pose proof (proj2 (Ho (FromECDSA k) Hk) (conj (FromECDSA_size k) (ex_intro _ n' (conj Hn' He')))) as [= ->].
        rewrite ToECDSA_From. by rewrite (proj2 (address_eq_spec _ _) Ha).
    - split; [done|]. intros (_ & _ & n' & Hn' & He').
      by pose proof (proj2 (Ho (FromECDSA k) Hk) (conj (FromECDSA_size k) (ex_intro _ n' (conj Hn' He')))). }
  split; [exact H1|]. intros n k w Hn Hw. unfold NewBaseWallet, baseWalletFromPriv in Hw.
  destruct (negb _); [done|]. destruct (encryptSeed _ _ _) as [enc|] eqn:Ee; [|done]. injection Hw as <-.
  apply H1. cbn. split; [done|]. split; [by rewrite HexToAddress_Hex|]. by exists n.
Qed.
End Wallets.

(** ** Samples *)

(** Curves with the laws: a key is its seed, an address the seed's first byte. *)
Definition plain_ed25519 : Ed25519 := {|
  SolKey := string; NewKeyFromSeed := fun s => s; Public := fun k => k; base58 := fun s => "pk-" +:+ s |}.

Definition seed_bytes : Type := dsig (fun s : string => str_len s = baseSeedSize).

Definition plain_secp256k1 : Secp256k1 := {|
  EcKey := seed_bytes; EthAddress := string;
  ToECDSA := fun b => match decide (str_len b = baseSeedSize) with
                      | left H => Ok (dexist b H)
                      | right _ => Fail (EMsg "invalid length, need 256 bits")
                      end;
  FromECDSA := fun k => `k;
  PubkeyToAddress := fun k => str_take 1 (`k);
  Hex := fun a => "0x" +:+ a;
  HexToAddress := fun t => TrimPrefix t "0x";
  address_eq := str_eqb |}.

Lemma plain_secp256k1_laws : Secp256k1Laws plain_secp256k1.
Proof.
  split; cbn.
  - intros k. exact (proj2_dsig k).
  - intros k. destruct (decide _) as [H|H]; [f_equal; by apply dsig_eq|by destruct H; apply (proj2_dsig k)].
  - intros b k. destruct (decide _) as [H|H]; [|done]. by intros [= <-].
  - intros a. apply (TrimPrefix_app "0x" a).
  - intros a b. apply bool_decide_eq_true.
Qed.

Definition demo_seed : string := "abcdefghijklmnopqrstuvwxyz012345".

Definition solana_wallet : Wallet := {|
  w_Chain := "solana"; w_Address := "pk-" +:+ demo_seed;
  w_KeyEncrypted := demo_nonce +:+ (demo_seed +:+ tag_of demo_key demo_nonce) |}.

Lemma seals_like_security_witness :
  decryptSeed (A := toy_aead) demo_key (w_KeyEncrypted solana_wallet) = Ok demo_seed.
Proof.
  apply (seals_like_security (A := toy_aead) (L := toy_laws) demo_key); [reflexivity|].
  split; vm_compute; reflexivity.
Defined.

Lemma unseal_solana_spec_witness :
  SolanaWalletFromSeed (A := toy_aead) (E := plain_ed25519) (Some demo_nonce) demo_key demo_seed = Ok solana_wallet /\
  UnsealSolanaWallet (A := toy_aead) (E := plain_ed25519) demo_key (Some solana_wallet) = Ok demo_seed.
Proof.
  split; [vm_compute; reflexivity|].
  apply (unseal_solana_spec (A := toy_aead) (L := toy_laws) (E := plain_ed25519) demo_key eq_refl) with (n := demo_nonce);
    vm_compute; reflexivity.
Defined.

Definition demo_key_bytes : seed_bytes := @dexist _ (fun s : string => str_len s = baseSeedSize) _ demo_seed eq_refl.

(** The same sealed key under another address opens nothing on Base, and opens on
    Solana. *)
Definition base_wallet (address : string) : Wallet := {|
  w_Chain := "base"; w_Address := address; w_KeyEncrypted := w_KeyEncrypted solana_wallet |}.

Lemma unseal_base_spec_witness :
  is_ok (UnsealBaseWallet (A := toy_aead) (S := plain_secp256k1) demo_key (Some (base_wallet "0xa"))) = true /\
  UnsealBaseWallet (A := toy_aead) (S := plain_secp256k1) demo_key (Some (base_wallet "0xb")) <> Ok demo_key_bytes.
Proof.
  pose proof (proj1 (unseal_base_spec (A := toy_aead) (L := toy_laws) (S := plain_secp256k1) (SL := plain_secp256k1_laws)
    demo_key eq_refl)) as H.
  split.
  - rewrite (proj2 (H (base_wallet "0xa") demo_key_bytes)); [reflexivity|].
    split; [reflexivity|]. split; [reflexivity|]. exists demo_nonce. split; reflexivity.
  - rewrite H. intros (_ & Ha & _). discriminate Ha.
Defined.

Example solana_address_unchecked :
  UnsealSolanaWallet (A := toy_aead) (E := plain_ed25519) demo_key
    (Some {| w_Chain := "solana"; w_Address := "somebody else"; w_KeyEncrypted := w_KeyEncrypted solana_wallet |}) = Ok demo_seed.
Proof. vm_compute. reflexivity. Qed.
