(* ===== verification/LendingAccounts.v ===== *)
(** * Lending accounts on Solana ([internal/chain/solana_marginfi.go],
      [solana_kamino.go])

    The bytes of an account as the programs lay them out, the fixed-point
    numbers in them, and the positions they become.  Bytes are strings; a public
    key is its 32 bytes and [key_string] its text; the RPC is an interface. *)
From Stdlib Require Import ZArith Lia Ascii Floats.
From stdpp Require Import base list strings gmap.
From S2P Require Import Prelude GoBase GoFloat GoRound Json Task LiquidationHunting.
Set Warnings "-inexact-float".
Open Scope Z_scope.

(** ** Bytes *)

Fixpoint bytes_of (s : string) : list Z :=
  match s with
  | EmptyString => []
  | String c s' => byte c :: bytes_of s'
  end.

(** [data[a:b]], within the data. *)
Definition slice (a b : nat) (data : string) : string := str_take (b - a) (str_drop a data).

(** [data[i]]. *)
Definition byte_at (i : nat) (data : string) : Z := hd 0 (bytes_of (slice i (S i) data)).

(** [new(big.Int).SetBytes]: the first byte is the highest. *)
Definition SetBytes (be : list Z) : Z := fold_left (fun z b => z * 256 + b) be 0.

(** [binary.LittleEndian.Uint64], and a number of any width. *)
Definition Uint64 (data : string) : Z := SetBytes (rev (bytes_of data)).

Definition has_prefix (disc : list Z) (data : string) : bool :=
  bool_decide (bytes_of (str_take (List.length disc) data) = disc).

(** ** Fixed point *)

(** The loop that adds one: from the last byte, until there is no carry. *)
Fixpoint add_one (le : list Z) : list Z :=
  match le with
  | [] => []
  | b :: le' => if (b + 1) mod 256 =? 0 then 0 :: add_one le' else (b + 1) mod 256 :: le'
  end.

Definition negate (be : list Z) : list Z := rev (add_one (rev (map (fun b => 255 - b) be))).

(** A [big.Float] made of an integer of 128 bits keeps all of them, and a
    quotient by a power of two is exact: what is rounded is the [float64]. *)
Definition decodeWrappedI80F48 (b : string) : float :=
  if negb (str_len b =? 16) then 0%float
  else
    let be := rev (bytes_of b) in
    let negative := Z.testbit (hd 0 be) 7 in
    let be := if negative then negate be else be in
    let out := nearest (SetBytes be) (-48) in
    if negative then (- out)%float else out.

Definition decodeQ60 (b : string) : float :=
  if negb (str_len b =? 16) then 0%float
  else nearest (SetBytes (rev (bytes_of b))) (-60).

(** ** MarginFi *)

Definition marginFiProgramID : string := "MFv2hWf31Z9kbCa1snEPYctwafyhdvnV7FZnsebVacA".
Definition marginFiBalanceLen : nat := 104.
Definition marginFiBalancesOffset : nat := 72.
Definition marginFiNumBalances : nat := 16.
Definition marginFiAccountDiscriminator : list Z := [0x43; 0xb2; 0x82; 0x6d; 0x7e; 0x72; 0x1c; 0x2a].

Record MarginFiBalance := {
  Active : bool;
  BankPubkey : string;
  AssetShares : float;
  LiabilityShares : float;
}.

Record MarginFiAccount := {
  Group : string;
  Authority : string;
  Balances : list MarginFiBalance;
}.

Definition marginfi_balance (data : string) (i : nat) : MarginFiBalance :=
  let off := (marginFiBalancesOffset + i * marginFiBalanceLen)%nat in {|
    Active := negb (byte_at off data =? 0);
    BankPubkey := slice (off + 1) (off + 33) data;
    AssetShares := decodeWrappedI80F48 (slice (off + 40) (off + 56) data);
    LiabilityShares := decodeWrappedI80F48 (slice (off + 56) (off + 72) data) |}.

Definition parseMarginFiAccount (data : string) : result MarginFiAccount :=
  if str_len data <? Z.of_nat (marginFiBalancesOffset + marginFiNumBalances * marginFiBalanceLen)
  then Fail (EMsg "marginfi: account too short: %d bytes")
  else if negb (has_prefix marginFiAccountDiscriminator data) then Fail (EMsg "marginfi: discriminator mismatch")
  else Ok {|
    Group := slice 8 40 data;
    Authority := slice 40 72 data;
    Balances := List.filter Active (map (marginfi_balance data) (seq 0 marginFiNumBalances)) |}.

(** ** Kamino *)

Definition kaminoProgramID : string := "KLend2g3cP87fffoy8q1mQqGKjrxjC8boSyAYavgmjD".
Definition kaminoObligationHeaderLen : nat := 96.
Definition kaminoNumDeposits : nat := 8.
Definition kaminoCollateralSize : nat := 136.
Definition kaminoNumBorrows : nat := 5.
Definition kaminoBorrowSize : nat := 160.
Definition kaminoBorrowsOffset : nat := kaminoObligationHeaderLen + kaminoNumDeposits * kaminoCollateralSize + 8 + 16.
Definition kaminoObligationMinLen : nat := kaminoBorrowsOffset + kaminoNumBorrows * kaminoBorrowSize.
Definition kaminoObligationDiscriminator : list Z := [0xa8; 0xce; 0x8d; 0x6a; 0x58; 0x4c; 0xac; 0xa7].

Record KaminoCollateral := { c_Reserve : string; DepositedAmount : Z; c_MarketValueUSD : float }.

Record KaminoBorrow := { b_Reserve : string; BorrowedAmount : float; b_MarketValueUSD : float }.

Record KaminoObligation := {
  LendingMarket : string;
  Owner : string;
  Deposits : list KaminoCollateral;
  Borrows : list KaminoBorrow;
  DepositedValue : float;
}.

Definition kamino_deposit (data : string) (i : nat) : option KaminoCollateral :=
  let off := (kaminoObligationHeaderLen + i * kaminoCollateralSize)%nat in
  let amt := Uint64 (slice (off + 32) (off + 40) data) in
  if amt =? 0 then None
  else Some {| c_Reserve := slice off (off + 32) data; DepositedAmount := amt;
               c_MarketValueUSD := decodeQ60 (slice (off + 40) (off + 56) data) |}.

Definition kamino_borrow (data : string) (i : nat) : option KaminoBorrow :=
  let off := (kaminoBorrowsOffset + i * kaminoBorrowSize)%nat in
  let borrowed := decodeQ60 (slice (off + 56) (off + 72) data) in
  if (borrowed =? 0)%float then None
  else Some {| b_Reserve := slice off (off + 32) data; BorrowedAmount := borrowed;
               b_MarketValueUSD := decodeQ60 (slice (off + 72) (off + 88) data) |}.

Definition parseKaminoObligation (data : string) : result KaminoObligation :=
  if str_len data <? Z.of_nat kaminoObligationMinLen then Fail (EMsg "kamino: account too short: %d bytes")
  else if negb (has_prefix kaminoObligationDiscriminator data) then Fail (EMsg "kamino: discriminator mismatch")
  else Ok {|
    LendingMarket := slice 32 64 data;
    Owner := slice 64 96 data;
    Deposits := omap (kamino_deposit data) (seq 0 kaminoNumDeposits);
    Borrows := omap (kamino_borrow data) (seq 0 kaminoNumBorrows);
    DepositedValue := decodeQ60 (slice 1192 1208 data) |}.

(** ** Positions *)

(** The Solana RPC: the accounts of a program that start with some bytes; an
    account may come without data. *)
Class Accounts := {
  PublicKeyFromBase58 : string -> result string;
  key_string : string -> string;
  GetProgramAccounts : string -> list Z -> result (list (option string));
}.

Section Positions.
Context {A : Accounts}.

Definition marginfi_position (authority : string) (bal : MarginFiBalance) : LendingPosition := {|
  lp_Chain := "solana"; lp_Protocol := "marginfi"; lp_Owner := key_string authority;
  CollateralAsset := key_string (BankPubkey bal); CollateralAmt := AssetShares bal;
  DebtAsset := key_string (BankPubkey bal); DebtAmt := LiabilityShares bal;
  HealthFactor := 0; LiquidationBonus := 0 |}.

Definition marginfi_positions (data : option string) : list LendingPosition :=
  match data with
  | None => []
  | Some data =>
      match parseMarginFiAccount data with
      | Fail _ => []
      | Ok parsed => map (marginfi_position (Authority parsed)) (Balances parsed)
      end
  end.

Definition fetchMarginFiPositions (client : bool) : result (list LendingPosition) :=
  if negb client then Fail (EMsg "marginfi: nil rpc client")
  else
    match PublicKeyFromBase58 marginFiProgramID with
    | Fail err => Fail (EWrap "marginfi: program id: %w" err)
    | Ok pid =>
        match GetProgramAccounts pid marginFiAccountDiscriminator with
        | Fail err => Fail (EWrap "marginfi: getProgramAccounts: %w" err)
        | Ok out => Ok (concat (map marginfi_positions out))
        end
    end.

(** The first deposit of the largest value. *)
Definition biggest (d : KaminoCollateral) (ds : list KaminoCollateral) : KaminoCollateral :=
  fold_left (fun b d => if (c_MarketValueUSD b <? c_MarketValueUSD d)%float then d else b) ds d.

Definition health_factor (deposited borrowed : float) : float :=
  if (0 <? borrowed)%float && (0 <? deposited)%float then (deposited / borrowed)%float else 0%float.

Definition kamino_position (obl : KaminoObligation) (big : KaminoCollateral) (b : KaminoBorrow)
    : LendingPosition := {|
  lp_Chain := "solana"; lp_Protocol := "kamino"; lp_Owner := key_string (Owner obl);
  CollateralAsset := key_string (c_Reserve big); CollateralAmt := c_MarketValueUSD big;
  DebtAsset := key_string (b_Reserve b); DebtAmt := b_MarketValueUSD b;
  HealthFactor := health_factor (DepositedValue obl) (b_MarketValueUSD b); LiquidationBonus := 0 |}.

Definition kamino_positions (data : option string) : list LendingPosition :=
  match data with
  | None => []
  | Some data =>
      match parseKaminoObligation data with
      | Fail _ => []
      | Ok obl =>
          match Deposits obl with
          | [] => []
          | d :: ds => map (kamino_position obl (biggest d ds)) (Borrows obl)
          end
      end
  end.

Definition fetchKaminoPositions (client : bool) : result (list LendingPosition) :=
  if negb client then Fail (EMsg "kamino: nil rpc client")
  else
    match PublicKeyFromBase58 kaminoProgramID with
    | Fail err => Fail (EWrap "kamino: program id: %w" err)
    | Ok pid =>
        match GetProgramAccounts pid kaminoObligationDiscriminator with
        | Fail err => Fail (EWrap "kamino: getProgramAccounts: %w" err)
        | Ok out => Ok (concat (map kamino_positions out))
        end
    end.
End Positions.

(** ** The numbers in an account *)

(** The value of bytes, the lowest first. *)
Definition le (l : list Z) : Z := foldr (fun b z => z * 256 + b) 0 l.

Definition is_byte (b : Z) : Prop := 0 <= b < 256.

Lemma SetBytes_rev l : SetBytes (rev l) = le l.
Proof. unfold SetBytes, le. rewrite <- fold_left_rev_right. by rewrite rev_involutive. Qed.

Lemma bytes_of_bytes s : Forall is_byte (bytes_of s).
Proof.
  induction s as [|c s IH]; cbn; constructor; [|done].
  destruct c as [[] [] [] [] [] [] [] []]; split; done.
Qed.

Lemma bytes_of_len s : List.length (bytes_of s) = String.length s.
Proof. induction s as [|c s IH]; cbn; [done|]. by rewrite IH. Qed.

Lemma pow256 n : 256 ^ Z.of_nat (S n) = 256 * 256 ^ Z.of_nat n.
Proof. rewrite Nat2Z.inj_succ, Z.pow_succ_r by lia. done. Qed.

Lemma le_range l : Forall is_byte l -> 0 <= le l < 256 ^ Z.of_nat (List.length l).
Proof.
  induction 1 as [|b l Hb Hl IH]; [done|]. cbn [le foldr List.length]. rewrite pow256. unfold is_byte in Hb. unfold le in IH. lia.
Qed.

Lemma le_app l t : le (l ++ [t]) = le l + 256 ^ Z.of_nat (List.length l) * t.
Proof.
  induction l as [|b l IH]; cbn [le foldr app List.length]; [lia|]. rewrite pow256. unfold le in IH. rewrite IH. lia.
Qed.

Lemma le_flip l : le (map (fun b => 255 - b) l) = 256 ^ Z.of_nat (List.length l) - 1 - le l.
Proof.
  induction l as [|b l IH]; [done|]. cbn [le foldr map List.length]. rewrite pow256. unfold le in IH. rewrite IH. lia.
Qed.

Lemma add_one_le l : Forall is_byte l ->
  le (add_one l) = (le l + 1) mod 256 ^ Z.of_nat (List.length l).
Proof.
  induction 1 as [|b l Hb Hl IH]; [done|]. pose proof (le_range l Hl) as Hr. unfold is_byte in Hb.
  cbn [add_one List.length]. rewrite pow256. unfold le in *. cbn [foldr].
  set (v := foldr _ 0 l) in *. set (p := 256 ^ _) in *.
  destruct (Z.eqb_spec ((b + 1) mod 256) 0) as [E|E]; cbn [foldr]; fold v.
  - assert (b = 255) as -> by (destruct (Z.eq_dec b 255); [done|rewrite Z.mod_small in E; lia]).
    rewrite IH. replace (v * 256 + 255 + 1) with ((v + 1) * 256) by lia.
    rewrite (Z.mul_comm 256 p), Z.mul_mod_distr_r by lia. lia.
  - assert (b <> 255) by (intros ->; by apply E).
    rewrite (Z.mod_small (b + 1)) by lia. rewrite Z.mod_small; lia.
Qed.

Lemma negate_value l : Forall is_byte l -> 0 < le l ->
  SetBytes (negate (rev l)) = 256 ^ Z.of_nat (List.length l) - le l.
Proof.
  intros Hl Hpos. unfold negate. rewrite SetBytes_rev, map_rev, rev_involutive.
  rewrite add_one_le, length_map, le_flip.
  - pose proof (le_range l Hl). rewrite Z.mod_small; lia.
  - apply Forall_forall. intros x Hx. apply list_elem_of_fmap in Hx as (y & -> & Hy).
    rewrite Forall_forall in Hl. specialize (Hl y Hy). unfold is_byte in *. lia.
Qed.

(** Two's complement. *)
Definition unsigned (b : string) : Z := le (bytes_of b).

Definition signed (b : string) : Z :=
  if 2 ^ 127 <=? unsigned b then unsigned b - 2 ^ 128 else unsigned b.

Lemma unsigned_range b : str_len b = 16 -> 0 <= unsigned b < 2 ^ 128.
Proof.
  intros Hb. pose proof (le_range _ (bytes_of_bytes b)) as H. rewrite bytes_of_len in H. unfold str_len in Hb.
  rewrite Hb in H. exact H.
Qed.

Lemma sign_bit b : str_len b = 16 -> Z.testbit (hd 0 (rev (bytes_of b))) 7 = (2 ^ 127 <=? unsigned b).
Proof.
  intros Hb. unfold unsigned. pose proof (bytes_of_len b) as Hl. unfold str_len in Hb.
  destruct (rev (bytes_of b)) as [|t r] eqn:E.
  { apply (f_equal (@List.length Z)) in E. rewrite length_rev in E. cbn in E. lia. }
  assert (Eb : bytes_of b = rev r ++ [t]) by (rewrite <- (rev_involutive (bytes_of b)), E; done).
  pose proof (bytes_of_bytes b) as Hf. rewrite Eb in *. apply Forall_app in Hf as [Hr Ht].
  apply Forall_inv in Ht. rewrite length_app in Hl. cbn [List.length] in Hl.
  rewrite le_app. replace (List.length (rev r)) with 15%nat by lia.
  pose proof (le_range _ Hr) as Hle. replace (List.length (rev r)) with 15%nat in Hle by lia.
  change (256 ^ Z.of_nat 15) with (2 ^ 120) in *. cbn [hd]. unfold is_byte in Ht.
  assert (H7 : Z.testbit t 7 = (128 <=? t)).
  { destruct (Z.leb_spec 128 t).
    - apply Z.testbit_true; [done|]. change (2 ^ 7) with 128. replace (t / 128) with 1; [done|].
      apply (Z.div_unique_pos t 128 1 (t - 128)); lia.
    - apply Z.testbit_false; [done|]. change (2 ^ 7) with 128. by rewrite Z.div_small by lia. }
  rewrite H7. destruct (Z.leb_spec 128 t), (Z.leb_spec (2 ^ 127) (le (rev r) + 2 ^ 120 * t)); lia.
Qed.

Lemma rounds_to_fin r z : rounds_to r z -> Z.abs z <= frank 0x1p80 -> is_fin r = true.
Proof.
  intros (Hn & Hle & Hge) Hz. apply is_fin_rank. split; [done|].
  assert (H80 : frank 0x1p80 < 2 ^ 2098 /\ frank (- 0x1p80)%float = - frank 0x1p80) by (vm_compute; done).
  specialize (Hle 0x1p80%float eq_refl ltac:(lia)).
  specialize (Hge (- 0x1p80)%float eq_refl ltac:(lia)). lia.
Qed.

Lemma fixed_point_rounds b : str_len b = 16 ->
  rounds_to (decodeWrappedI80F48 b) (mag (signed b) (-48)) /\ rounds_to (decodeQ60 b) (mag (unsigned b) (-60)).
Proof.
  intros Hb. pose proof (unsigned_range b Hb) as Hu. split.
  - unfold decodeWrappedI80F48, signed. rewrite Hb. cbn [negb Z.eqb Pos.eqb]. rewrite sign_bit by done.
    destruct (Z.leb_spec (2 ^ 127) (unsigned b)).
    + rewrite negate_value by (apply bytes_of_bytes || (fold (unsigned b); lia)). fold (unsigned b).
      rewrite bytes_of_len. unfold str_len in Hb. rewrite Hb. change (256 ^ 16) with (2 ^ 128).
      replace (mag (unsigned b - 2 ^ 128) (-48)) with (- mag (2 ^ 128 - unsigned b) (-48)) by (unfold mag; lia).
      apply rounds_to_opp. by apply nearest_rounds.
    + rewrite SetBytes_rev. by apply nearest_rounds.
  - unfold decodeQ60. rewrite Hb. cbn [negb Z.eqb Pos.eqb]. rewrite SetBytes_rev. by apply nearest_rounds.
Qed.

Lemma fixed_point_fin b : str_len b = 16 -> is_fin (decodeWrappedI80F48 b) = true /\ is_fin (decodeQ60 b) = true.
Proof.
  intros Hb. pose proof (unsigned_range b Hb) as Hu. destruct (fixed_point_rounds b Hb) as [Hw Hq].
  assert (H80 : frank 0x1p80 = 2 ^ 80 * 2 ^ 1074) by (vm_compute; done).
  assert (P : 0 < 2 ^ 1014) by (apply pow2_pos; lia).
  assert (E1 : 2 ^ 1026 = 2 ^ 12 * 2 ^ 1014) by (rewrite <- Z.pow_add_r; [done|lia..]).
  assert (E2 : 2 ^ 1074 = 2 ^ 60 * 2 ^ 1014) by (rewrite <- Z.pow_add_r; [done|lia..]).
  split.
  - apply (rounds_to_fin _ _ Hw). rewrite H80. unfold mag, signed. change (-48 + 1074) with 1026.
    rewrite E1, E2. destruct (2 ^ 127 <=? unsigned b) eqn:E; nia.
  - apply (rounds_to_fin _ _ Hq). rewrite H80. unfold mag. change (-60 + 1074) with 1014. rewrite E2. nia.
Qed.

(** The fixed-point numbers of an account are read as the floats nearest
    to them: 128 bits in two's complement with 48 below the point for MarginFi,
    128 bits without a sign and 60 below the point for Kamino; the results are
    finite. *)
Theorem fixed_point_decoded b : str_len b = 16 ->
  rounds_to (decodeWrappedI80F48 b) (mag (signed b) (-48)) /\ is_fin (decodeWrappedI80F48 b) = true /\
  rounds_to (decodeQ60 b) (mag (unsigned b) (-60)) /\ is_fin (decodeQ60 b) = true.
Proof. intros Hb. destruct (fixed_point_rounds b Hb), (fixed_point_fin b Hb). auto. Qed.

(** ** The layout of an account *)

Lemma slice_mid pre x post a b :
  a = String.length pre -> b = (a + String.length x)%nat -> slice a b (pre +:+ (x +:+ post)) = x.
Proof.
  intros -> ->. unfold slice. rewrite str_drop_app. replace (_ + _ - _)%nat with (String.length x) by lia.
  apply str_take_app.
Qed.

(** One of MarginFi's sixteen slots, as its comment lays it out. *)
Record slot := {
  sl_flag : ascii;
  sl_bank : string;
  sl_pad : string;
  sl_assets : string;
  sl_liabilities : string;
  sl_rest : string;
}.

Record slot_ok (s : slot) : Prop := {
  ok_bank : String.length (sl_bank s) = 32%nat;
  ok_pad : String.length (sl_pad s) = 7%nat;
  ok_assets : String.length (sl_assets s) = 16%nat;
  ok_liabilities : String.length (sl_liabilities s) = 16%nat;
  ok_rest : String.length (sl_rest s) = 32%nat;
}.

Definition slot_bytes (s : slot) : string :=
  String (sl_flag s) "" +:+ (sl_bank s +:+ (sl_pad s +:+ (sl_assets s +:+ (sl_liabilities s +:+ sl_rest s)))).

Definition slot_view (s : slot) : MarginFiBalance := {|
  Active := negb (byte (sl_flag s) =? 0); BankPubkey := sl_bank s;
  AssetShares := decodeWrappedI80F48 (sl_assets s); LiabilityShares := decodeWrappedI80F48 (sl_liabilities s) |}.

Fixpoint slots_bytes (l : list slot) : string :=
  match l with [] => "" | s :: l' => slot_bytes s +:+ slots_bytes l' end.

Definition account_bytes (group authority : string) (l : list slot) (tail : string) : string :=
  byte_str (map Z.to_N marginFiAccountDiscriminator) +:+ (group +:+ (authority +:+ (slots_bytes l +:+ tail))).

Lemma slot_bytes_len s : slot_ok s -> String.length (slot_bytes s) = marginFiBalanceLen.
Proof. intros [H1 H2 H3 H4 H5]. unfold slot_bytes. rewrite !str_len_app, H1, H2, H3, H4, H5. done. Qed.

Lemma slot_read pre s post i : slot_ok s -> String.length pre = (marginFiBalancesOffset + i * marginFiBalanceLen)%nat ->
  marginfi_balance (pre +:+ (slot_bytes s +:+ post)) i = slot_view s.
Proof.
  intros [H1 H2 H3 H4 H5] Hpre. unfold marginfi_balance. rewrite <- Hpre. unfold slot_view, byte_at, slot_bytes.
  set (f := String (sl_flag s) ""). assert (Hf : String.length f = 1%nat) by done.
  f_equal.
  - replace (slice _ _ _) with f; [done|]. symmetry.
    rewrite <- !str_app_assoc. apply (slice_mid pre f); lia.
  - rewrite <- !str_app_assoc, (str_app_assoc pre f).
    apply (slice_mid (pre +:+ f) (sl_bank s)); rewrite ?str_len_app; lia.
  - f_equal. rewrite <- !str_app_assoc, (str_app_assoc pre f), (str_app_assoc _ (sl_bank s)), (str_app_assoc _ (sl_pad s)).
    apply (slice_mid _ (sl_assets s)); rewrite ?str_len_app; lia.
  - f_equal. rewrite <- !str_app_assoc, (str_app_assoc pre f), (str_app_assoc _ (sl_bank s)), (str_app_assoc _ (sl_pad s)),
      (str_app_assoc _ (sl_assets s)).
    apply (slice_mid _ (sl_liabilities s)); rewrite ?str_len_app; lia.
Qed.

Lemma slots_read l : forall pre tail k, Forall slot_ok l ->
  String.length pre = (marginFiBalancesOffset + k * marginFiBalanceLen)%nat ->
  map (marginfi_balance (pre +:+ (slots_bytes l +:+ tail))) (seq k (List.length l)) = map slot_view l.
Proof.
  induction l as [|s l IH]; intros pre tail k Hl Hpre; [done|]. apply Forall_cons in Hl as [Hs Hl].
  cbn [slots_bytes List.length seq map]. rewrite <- str_app_assoc. f_equal; [by apply slot_read|].
  rewrite (str_app_assoc pre). apply IH; [done|]. rewrite str_len_app, slot_bytes_len, Hpre by done. lia.
Qed.

Lemma slots_len l : Forall slot_ok l -> String.length (slots_bytes l) = (List.length l * marginFiBalanceLen)%nat.
Proof.
  induction 1 as [|s l Hs _ IH]; [done|]. cbn [slots_bytes List.length]. rewrite str_len_app, slot_bytes_len, IH by done. lia.
Qed.

(** C23: A MarginFi account written field by field as its layout says reads back
    as its group, its authority and its active balances, in order; anything
    shorter, or with another discriminator, is refused. *)
Theorem marginfi_roundtrip group authority slots tail :
  String.length group = 32%nat -> String.length authority = 32%nat ->
  List.length slots = marginFiNumBalances -> Forall slot_ok slots ->
  parseMarginFiAccount (account_bytes group authority slots tail) =
    Ok {| Group := group; Authority := authority; Balances := List.filter Active (map slot_view slots) |} /\
  (forall data, is_ok (parseMarginFiAccount data) = true <->
     1736 <= str_len data /\ has_prefix marginFiAccountDiscriminator data = true).
Proof.
  intros Hg Ha Hn Hs. split.
  - unfold parseMarginFiAccount, account_bytes. set (disc := byte_str _).
    assert (Hd : String.length disc = 8%nat) by done.
    assert (Hlen : Z.of_nat (marginFiBalancesOffset + marginFiNumBalances * marginFiBalanceLen)
      <= str_len (disc +:+ (group +:+ (authority +:+ (slots_bytes slots +:+ tail))))).
    { unfold str_len. rewrite !str_len_app, Hd, Hg, Ha, slots_len, Hn by done. unfold marginFiBalancesOffset. lia. }
    rewrite (proj2 (Z.ltb_ge _ _) Hlen).
    replace (has_prefix _ _) with true
      by (symmetry; unfold has_prefix; change (List.length marginFiAccountDiscriminator) with (String.length disc);
          rewrite str_take_app; reflexivity).
    cbn [negb]. f_equal. f_equal.
    + apply (slice_mid disc group); lia.
    + rewrite (str_app_assoc disc). apply (slice_mid (disc +:+ group) authority); rewrite ?str_len_app; lia.
    + f_equal. rewrite (str_app_assoc disc), (str_app_assoc (disc +:+ group)), <- Hn. apply slots_read; [done|].
      rewrite !str_len_app, Hd, Hg, Ha. done.
  - intros data. unfold parseMarginFiAccount.
    change (Z.of_nat (marginFiBalancesOffset + marginFiNumBalances * marginFiBalanceLen)) with 1736.
    destruct (Z.ltb_spec (str_len data) 1736); [split; [done|lia]|].
    destruct (has_prefix _ _); cbn; [done|]. split; [done|]. by intros [_ ?].
Qed.

(** ** What is hunted *)

(** A position that [fetchMarginFiPositions] or [fetchKaminoPositions] lists. *)
Definition solana_found (pos : LendingPosition) : Prop :=
  exists (A : Accounts) ps, (fetchMarginFiPositions true = Ok ps \/ fetchKaminoPositions true = Ok ps) /\ pos ∈ ps.

Lemma decoded_fin b : is_fin (decodeQ60 b) = true /\ is_fin (decodeWrappedI80F48 b) = true.
Proof.
  destruct (Z.eqb_spec (str_len b) 16) as [E|E].
  - destruct (unsigned_range b E). pose proof (fixed_point_fin b E). tauto.
  - unfold decodeQ60, decodeWrappedI80F48. apply Z.eqb_neq in E. by rewrite E.
Qed.

Lemma biggest_elem ds : forall d, biggest d ds = d \/ biggest d ds ∈ ds.
Proof.
  unfold biggest. induction ds as [|x ds IH]; intros d; [by left|]. cbn [fold_left].
  destruct (_ <? _)%float.
  - right. destruct (IH x) as [-> | H]; [by left|by right].
  - destruct (IH d) as [-> | H]; [by left|right; by right].
Qed.

Lemma ok_eq {T} (x y : T) : Ok x = Ok y -> x = y.
Proof. by intros [=]. Qed.

Lemma found_no_bonus pos : solana_found pos ->
  LiquidationBonus pos = 0%float /\ is_fin (CollateralAmt pos) = true.
Proof.
  intros (A & ps & [H | H] & Hin); [unfold fetchMarginFiPositions in H|unfold fetchKaminoPositions in H];
    cbn [negb] in H; destruct (PublicKeyFromBase58 _) as [pid|]; [|done| |done];
    destruct (GetProgramAccounts _ _) as [out|]; [|done| |done]; injection H as <-;
    apply list_elem_of_In, in_concat in Hin as (l & Hl & Hp);
    apply in_map_iff in Hl as ([data|] & <- & _); try done; unfold marginfi_positions, kamino_positions in Hp.
  - destruct (parseMarginFiAccount data) as [a|] eqn:E; [|done]. apply in_map_iff in Hp as (bal & <- & Hb).
    split; [done|]. cbn. unfold parseMarginFiAccount in E. destruct (_ <? _); [done|]. destruct (negb _); [done|].
    apply ok_eq in E. rewrite <- E in Hb. cbn [Balances] in Hb. apply filter_In in Hb as [Hb _]. apply in_map_iff in Hb as (i & <- & _).
    apply decoded_fin.
  - destruct (parseKaminoObligation data) as [o|] eqn:E; [|done]. destruct (Deposits o) as [|d ds] eqn:Ed; [done|].
    apply in_map_iff in Hp as (b & <- & _). split; [done|]. cbn.
    assert (Hb : biggest d ds ∈ Deposits o).
    { rewrite Ed. destruct (biggest_elem ds d) as [-> | H]; [by left|by right]. }
    unfold parseKaminoObligation in E. destruct (_ <? _); [done|]. destruct (negb _); [done|].
    apply ok_eq in E. rewrite <- E in Hb. cbn [Deposits] in Hb. apply list_elem_of_omap in Hb as (i & _ & Hi).
    unfold kamino_deposit in Hi. destruct (_ =? 0); [done|]. injection Hi as <-. apply decoded_fin.
Qed.

Lemma fmul_zero x : is_fin x = true -> is_nan (x * 0)%float = false /\ frank (x * 0)%float = 0.
Proof.
  intros Hx. assert (E : exists s, Prim2SF (x * 0)%float = S754_zero s).
  { rewrite mul_spec. unfold is_fin in Hx. destruct (Prim2SF x) as [s| | |s m e]; try done; by eexists. }
  destruct E as [s E]. split; [by apply not_nan_spec; rewrite E|]. unfold frank. by rewrite E.
Qed.

Lemma found_no_profit pos min : solana_found pos -> (0 <? min)%float = true -> (estProfit pos <? min)%float = true.
Proof.
  intros [Hb Hc]%found_no_bonus Hmin. unfold estProfit. rewrite Hb. change (0 / 10000)%float with 0%float.
  destruct (fmul_zero _ Hc) as [Hn Hr]. destruct (fltb_not_nan _ _ Hmin) as [_ Hm].
  rewrite fltb_rank in Hmin |- * by done. rewrite Hr. rewrite frank_zero in Hmin. exact Hmin.
Qed.

(** What a hunt keeps when nothing it meets is worth taking. *)
Definition idle (l : LiquidationHunting) (h : hunt) : Prop :=
  h_out h = [] /\ cfg (h_task h) = cfg l /\ totalAttempt (h_task h) = totalAttempt l.

Lemma hunt_positions_idle e now l ps : (0 <? MinProfitUSD (cfg l))%float = true -> Forall solana_found ps ->
  forall h, idle l h -> idle l (hunt_positions e now h ps).
Proof.
  intros Hm. induction 1 as [|pos ps Hpos _ IH]; intros h Hh; [done|]. cbn [hunt_positions].
  unfold hunt_position. pose proof Hh as (Ho & Hc & Ht). rewrite Hc.
  destruct (_ <=? HealthFactor pos)%float; [by apply IH|]. cbn [h_task].
  destruct (_ <? CollateralAmt pos)%float; [by apply IH|]. rewrite (found_no_profit pos _ Hpos Hm). by apply IH.
Qed.

(** No liquidation is ever attempted on Solana: MarginFi's and Kamino's
    positions carry no bonus, so with any minimum profit above zero (as the
    default is) a hunt among them trades nothing and asks the chain for nothing. *)
Theorem solana_hunt_barren e l :
  c_Chain (cfg l) = "solana" -> (0 <? MinProfitUSD (cfg l))%float = true ->
  (forall k proto ps, e_positions e k "solana" proto = Ok ps -> Forall solana_found ps) ->
  totalAttempt (RunTick e l).2 = totalAttempt l /\ forall out, (RunTick e l).1 = Ok out -> out = [].
Proof.
  intros Hch Hm He.
  assert (Hreset : cfg (maybeResetDailyLocked l (e_now e 0%nat)) = cfg l /\
    totalAttempt (maybeResetDailyLocked l (e_now e 0%nat)) = totalAttempt l)
    by (unfold maybeResetDailyLocked; by repeat case_match).
  unfold RunTick. set (now := e_now e 0%nat) in *. set (l1 := maybeResetDailyLocked l now) in *. clearbody l1.
  destruct Hreset as [Hc1 Ht1]. destruct (negb _); [cbn; split; [done|by intros ? [= <-]]|].
  set (l2 := with_lastCheck l1 now). assert (H2 : cfg l2 = cfg l /\ totalAttempt l2 = totalAttempt l) by done.
  clearbody l2. destruct H2 as [Hc2 Ht2].
  destruct (freeCapital l2 <? _)%float; [cbn; split; [done|by intros ? [= <-]]|].
  destruct (MaxDailyLiquidations _ <=? _); [cbn; split; [done|by intros ? [= <-]]|].
  match goal with |- context [fold_left _ _ ?h] => set (h0 := h) end.
  assert (Hh0 : idle l h0) by done. clearbody h0.
  assert (Hfold : forall protos h, idle l h -> idle l (fold_left (hunt_protocol e now) protos h)).
  { induction protos as [|p protos IH]; intros h Hh; [done|]. cbn [fold_left]. apply IH. clear IH.
    pose proof Hh as (Ho & Hc & Ht). unfold hunt_protocol. rewrite Hc, Hch.
    destruct (e_positions e (h_calls h) "solana" p) as [ps|err] eqn:Ep; [|done].
    apply hunt_positions_idle; [exact Hm|exact (He _ _ _ Ep)|by split_and!]. }
  specialize (Hfold (Protocols (cfg l2)) h0 Hh0). destruct Hfold as (Ho & _ & Ht). rewrite Ho.
  destruct (h_err _); cbn; (split; [exact Ht|]); [done|by intros ? [= <-]].
Qed.

Lemma biggest_max ds : forall d, Forall (fun x => is_nan (c_MarketValueUSD x) = false) (d :: ds) ->
  Forall (fun x => frank (c_MarketValueUSD x) <= frank (c_MarketValueUSD (biggest d ds))) (d :: ds).
Proof.
  unfold biggest. induction ds as [|y ds IH]; intros d Hn; cbn [fold_left]; [repeat constructor; lia|].
  apply Forall_cons in Hn as [Hd Hn]. apply Forall_cons in Hn as [Hy Hn].
  pose proof (fltb_rank (c_MarketValueUSD d) (c_MarketValueUSD y) Hd Hy) as E.
  destruct (c_MarketValueUSD d <? c_MarketValueUSD y)%float.
  - specialize (IH y ltac:(by constructor)). apply Forall_cons in IH as [H1 H2]. symmetry in E. apply Z.ltb_lt in E.
    constructor; [lia|]. by constructor.
  - specialize (IH d ltac:(by constructor)). apply Forall_cons in IH as [H1 H2]. symmetry in E. apply Z.ltb_ge in E.
    constructor; [lia|]. constructor; [lia|done].
Qed.

(** An obligation is listed once per active borrow, against the deposit
    worth most; nothing is listed for one without a deposit or a borrow, or for
    bytes that are no obligation. *)
Theorem kamino_listed {A : Accounts} data :
  match parseKaminoObligation data with
  | Fail _ => kamino_positions (Some data) = []
  | Ok obl =>
      (Deposits obl = [] /\ kamino_positions (Some data) = []) \/
      exists big, big ∈ Deposits obl /\
        Forall (fun x => frank (c_MarketValueUSD x) <= frank (c_MarketValueUSD big)) (Deposits obl) /\
        kamino_positions (Some data) = map (kamino_position obl big) (Borrows obl) /\
        Forall (fun b => (BorrowedAmount b =? 0)%float = false) (Borrows obl)
  end.
Proof.
  unfold kamino_positions. destruct (parseKaminoObligation data) as [o|] eqn:E; [|done].
  assert (Hv : Forall (fun x => is_nan (c_MarketValueUSD x) = false) (Deposits o) /\
               Forall (fun b => (BorrowedAmount b =? 0)%float = false) (Borrows o)).
  { unfold parseKaminoObligation in E. destruct (_ <? _); [done|]. destruct (negb _); [done|]. apply ok_eq in E.
    rewrite <- E. cbn [Deposits Borrows]. split; apply Forall_forall; intros x Hx;
      apply list_elem_of_omap in Hx as (i & _ & Hi).
    - unfold kamino_deposit in Hi. destruct (_ =? 0); [done|]. injection Hi as <-. cbn.
      apply is_fin_not_nan, decoded_fin.
    - unfold kamino_borrow in Hi. destruct (decodeQ60 _ =? 0)%float eqn:Eb; [done|]. by injection Hi as <-. }
  destruct Hv as [Hv Hb]. destruct (Deposits o) as [|d ds] eqn:Ed; [by left|right]. exists (biggest d ds).
  split; [destruct (biggest_elem ds d) as [-> | H]; [by left|by right]|]. split; [by apply biggest_max|done].
Qed.

(** ** Samples *)

(** The bytes of a number, the lowest first. *)
Fixpoint le_bytes (n : nat) (z : Z) : string :=
  match n with O => "" | S n' => String (chr (z mod 256)) (le_bytes n' (z / 256)) end.

Fixpoint blank (n : nat) : string := match n with O => "" | S n' => String (chr 7) (blank n') end.

Definition some_slot (flag : Z) (assets debt : Z) : slot := {|
  sl_flag := chr flag; sl_bank := blank 32; sl_pad := blank 7; sl_assets := le_bytes 16 (assets * 2 ^ 48);
  sl_liabilities := le_bytes 16 (debt * 2 ^ 48); sl_rest := blank 32 |}.

Definition sixteen_slots : list slot := some_slot 1 3 (-2) :: some_slot 0 9 9 :: replicate 14 (some_slot 0 0 0).

Definition sample_account : string := account_bytes (blank 32) (blank 32) sixteen_slots "flags".

Example fixed_point_values :
  decodeWrappedI80F48 (le_bytes 16 (5 * 2 ^ 47)) = 2.5%float /\
  decodeWrappedI80F48 (le_bytes 16 (- (5 * 2 ^ 47))) = (-2.5)%float /\
  decodeWrappedI80F48 (le_bytes 16 (- 2 ^ 127)) = (- 0x1p79)%float /\
  decodeQ60 (le_bytes 16 (2 ^ 60 / 4)) = 0.25%float.
Proof. vm_compute. repeat split. Qed.

Lemma fixed_point_decoded_witness : rounds_to (decodeWrappedI80F48 (le_bytes 16 (-1))) (- 2 ^ 1026).
Proof.
  change (- 2 ^ 1026) with (mag (signed (le_bytes 16 (-1))) (-48)). apply (fixed_point_decoded (le_bytes 16 (-1)) eq_refl).
Defined.

Lemma marginfi_roundtrip_witness :
  parseMarginFiAccount sample_account = Ok {|
    Group := blank 32; Authority := blank 32;
    Balances := [{| Active := true; BankPubkey := blank 32; AssetShares := 3; LiabilityShares := -2 |}] |}.
Proof.
  etransitivity; [apply (marginfi_roundtrip (blank 32) (blank 32) sixteen_slots "flags"); try reflexivity|vm_compute; reflexivity].
  assert (H : forall f a d, slot_ok (some_slot f a d)) by (intros; split; reflexivity).
  unfold sixteen_slots. constructor; [apply H|]. constructor; [apply H|].
  apply Forall_forall. intros s Hs. apply elem_of_replicate in Hs as [-> _]. apply H.
Defined.

Definition rpc_with (accounts : list (option string)) : Accounts := {|
  PublicKeyFromBase58 := fun s => Ok s; key_string := fun k => k; GetProgramAccounts := fun _ _ => Ok accounts |}.

Definition marginfi_rows : list LendingPosition := marginfi_positions (A := rpc_with []) (Some sample_account).

(** A hunt among the sample's position, which is at risk: its health factor is 0. *)
Definition solana_env : Env := {|
  e_now := fun _ => minute 0;
  e_quote := fun _ _ _ _ => Fail (EMsg "none");
  e_yields := fun _ _ => Ok [];
  e_positions := fun _ _ _ => Ok marginfi_rows;
  e_liquidate := fun _ _ _ => Fail (EMsg "none");
  e_range := fun _ _ => map_to_list |}.

Definition solana_hunting : LiquidationHunting := {|
  cfg := {| c_Chain := "solana"; Protocols := ["marginfi"]; MinProfitUSD := 0.5; HealthFactorThreshold := 1.05;
    CheckIntervalSecs := 0; MaxPositionSizeUSD := 500; MaxDailyLiquidations := 2; MinCapitalToOperate := 10 |};
  freeCapital := 1000; lastCheck := 0; dailyDate := ""; dailyCount := 0;
  dailySuccess := 0; dailyAttempt := 0; totalSuccess := 0; totalAttempt := 0; atRiskSnapshot := [] |}.

Lemma rows_found k proto ps : e_positions solana_env k "solana" proto = Ok ps -> Forall solana_found ps.
Proof.
  cbn. intros H%ok_eq. rewrite <- H. apply Forall_forall. intros pos Hp.
  exists (rpc_with [Some sample_account]), marginfi_rows. split; [left|done].
  unfold fetchMarginFiPositions. cbn. by rewrite app_nil_r.
Qed.

Lemma solana_hunt_barren_witness :
  totalAttempt (RunTick solana_env solana_hunting).2 = 0 /\ forall out, (RunTick solana_env solana_hunting).1 = Ok out -> out = [].
Proof. apply (solana_hunt_barren solana_env solana_hunting eq_refl); [reflexivity|exact rows_found]. Defined.

(** The hunt does look: the sample's position is in its snapshot. *)
Example solana_hunt_looks : length (atRiskSnapshot (RunTick solana_env solana_hunting).2) = 1%nat.
Proof. vm_compute. reflexivity. Qed.

(** The health factor divides the whole deposit by one borrow: an obligation of
    100 against two borrows of 80 shows two healthy positions. *)
Definition two_borrows : KaminoObligation := {|
  LendingMarket := "m"; Owner := "o"; DepositedValue := 100;
  Deposits := [{| c_Reserve := "r"; DepositedAmount := 7; c_MarketValueUSD := 100 |}];
  Borrows := replicate 2 {| b_Reserve := "r"; BorrowedAmount := 80; b_MarketValueUSD := 80 |} |}.

Example two_borrows_healthy :
  map (fun b => HealthFactor (kamino_position (A := rpc_with []) two_borrows
    {| c_Reserve := "r"; DepositedAmount := 7; c_MarketValueUSD := 100 |} b)) (Borrows two_borrows) = [1.25; 1.25]%float.
Proof. vm_compute. reflexivity. Qed.
