(* ===== verification/Strconv.v ===== *)
(** * Numbers from text ([strconv.ParseFloat], [strconv.ParseUint])

    The language's own grammar, with its infinities, hexadecimal mantissas and
    underscores: what the configuration and the feeds read numbers with.  A
    value comes with the error, since several callers drop the error and keep
    the value. *)
From Stdlib Require Import ZArith Lia Floats Ascii.
From stdpp Require Import base list strings.
From S2P Require Import Prelude GoBase GoFloat GoRound GoFmt Json.
Set Warnings "-inexact-float".
Open Scope Z_scope.

Definition ErrSyntax : gerror := EMsg "invalid syntax".
Definition ErrRange : gerror := EMsg "value out of range".

(** [lower]: the byte with bit 5 set. *)
Definition lower (c : ascii) : Z := Z.lor (byte c) 32.

Definition is_hex_letter (c : ascii) : bool := between 97 (lower c) 102.

(** [commonPrefixLenIgnoreCase]; [prefix] is in lower case. *)
Fixpoint commonPrefixLenIgnoreCase (s prefix : string) : nat :=
  match s, prefix with
  | String c s', String p prefix' =>
      if Ascii.eqb (ascii_lower c) p then S (commonPrefixLenIgnoreCase s' prefix') else O
  | _, _ => O
  end.

(** The length of the infinity [s] starts with. *)
Definition infinity_len (s : string) : nat :=
  let n := commonPrefixLenIgnoreCase s "infinity" in
  if (n =? 8)%nat then 8 else if (3 <=? n)%nat then 3 else 0.

(** [special]: the value and the bytes read. *)
Definition special (s : string) : option (float * nat) :=
  match s with
  | EmptyString => None
  | String c s' =>
      if (byte c =? 43) || (byte c =? 45) then
        match infinity_len s' with
        | O => None
        | n => Some (if byte c =? 45 then neg_infinity else infinity, S n)
        end
      else
        match infinity_len s with
        | O => if (commonPrefixLenIgnoreCase s "nan" =? 3)%nat then Some (nan, 3%nat) else None
        | n => Some (infinity, n)
        end
  end.

(** [underscoreOK], after the sign: [saw] is what came before, a digit ('0'),
    an underscore or something else. *)
Fixpoint underscores_ok (hex : bool) (saw : ascii) (s : string) : bool :=
  match s with
  | EmptyString => negb (Ascii.eqb saw "_")
  | String c s' =>
      if is_digit c || (hex && is_hex_letter c) then underscores_ok hex "0" s'
      else if Ascii.eqb c "_" then Ascii.eqb saw "0" && underscores_ok hex "_" s'
      else negb (Ascii.eqb saw "_") && underscores_ok hex "!" s'
  end.

Definition skip_sign (s : string) : string :=
  match s with
  | String c s' => if (byte c =? 43) || (byte c =? 45) then s' else s
  | EmptyString => ""
  end.

Definition underscoreOK (s : string) : bool :=
  let s := skip_sign s in
  match s with
  | String z (String x s') =>
      if (byte z =? 48) && ((lower x =? 98) || (lower x =? 111) || (lower x =? 120))
      then underscores_ok (lower x =? 120) "0" s'
      else underscores_ok false "^" s
  | _ => underscores_ok false "^" s
  end.

(** What [readFloat] reads: the mantissa, the digits after the point, and
    whether there was a point, a digit and an underscore. *)
Record reading := {
  r_mant : Z;
  r_scale : Z;
  r_dot : bool;
  r_digits : bool;
  r_under : bool;
}.

Definition no_reading : reading := {| r_mant := 0; r_scale := 0; r_dot := false; r_digits := false; r_under := false |}.

Definition push_digit (base d : Z) (r : reading) : reading := {|
  r_mant := r_mant r * base + d; r_scale := if r_dot r then r_scale r + 1 else r_scale r; r_dot := r_dot r;
  r_digits := true; r_under := r_under r |}.

Definition saw_underscore (r : reading) : reading := {|
  r_mant := r_mant r; r_scale := r_scale r; r_dot := r_dot r; r_digits := r_digits r; r_under := true |}.

Definition saw_dot (r : reading) : reading := {|
  r_mant := r_mant r; r_scale := r_scale r; r_dot := true; r_digits := r_digits r; r_under := r_under r |}.

Fixpoint read_mantissa (hex : bool) (s : string) (r : reading) : reading * string :=
  match s with
  | EmptyString => (r, "")
  | String c s' =>
      if Ascii.eqb c "_" then read_mantissa hex s' (saw_underscore r)
      else if byte c =? 46 then if r_dot r then (r, s) else read_mantissa hex s' (saw_dot r)
      else if is_digit c then read_mantissa hex s' (push_digit (if hex then 16 else 10) (byte c - 48) r)
      else if hex && is_hex_letter c then read_mantissa hex s' (push_digit 16 (lower c - 87) r)
      else (r, s)
  end.

(** The digits of an exponent; it stops growing at five digits. *)
Fixpoint read_digits (e : Z) (under : bool) (s : string) : Z * bool * string :=
  match s with
  | EmptyString => (e, under, "")
  | String c s' =>
      if Ascii.eqb c "_" then read_digits e true s'
      else if is_digit c then read_digits (if e <? 10000 then e * 10 + (byte c - 48) else e) under s'
      else (e, under, s)
  end.

(** The exponent after the mantissa; a hexadecimal number has to have one. *)
Definition read_exponent (hex : bool) (under : bool) (s : string) : option (Z * bool * string) :=
  match s with
  | String c s' =>
      if lower c =? (if hex then 112 else 101) then
        let neg := match s' with String d _ => byte d =? 45 | EmptyString => false end in
        match skip_sign s' with
        | String d _ as ds =>
            if is_digit d then
              let '(e, under, rest) := read_digits 0 under ds in Some (if neg then - e else e, under, rest)
            else None
        | EmptyString => None
        end
      else if hex then None else Some (0, under, s)
  | EmptyString => if hex then None else Some (0, under, s)
  end.

(** [(-1)^neg * m * 2^e], rounded to nearest, ties to even. *)
Definition round_binary (neg : bool) (m e : Z) : float :=
  if m =? 0 then SF2Prim (S754_zero neg) else nearest (if neg then - m else m) e.

(** [readFloat], the number it stands for, and the bytes left. *)
Definition readFloat (s : string) : option (float * string) :=
  let neg := match s with String c _ => byte c =? 45 | EmptyString => false end in
  let body := skip_sign s in
  let '(hex, body) :=
    match body with
    | String z (String x (String d rest)) =>
        if (byte z =? 48) && (lower x =? 120) then (true, String d rest) else (false, body)
    | _ => (false, body)
    end in
  let '(r, rest) := read_mantissa hex body no_reading in
  if negb (r_digits r) then None
  else
    match read_exponent hex (r_under r) rest with
    | None => None
    | Some (e, under, rest) =>
        if under && negb (underscoreOK (str_take (String.length s - String.length rest) s)) then None
        else
          Some (if hex then round_binary neg (r_mant r) (e - 4 * r_scale r)
                else round_decimal neg (r_mant r) (e - r_scale r), rest)
    end.

(** [strconv.ParseFloat(s, 64)]: 0 on a syntax error, an infinity when the
    number is out of range. *)
Definition ParseFloat (s : string) : float * option gerror :=
  match special s with
  | Some (f, n) => if (n =? String.length s)%nat then (f, None) else (0%float, Some ErrSyntax)
  | None =>
      match readFloat s with
      | None => (0%float, Some ErrSyntax)
      | Some (f, rest) =>
          if negb (str_eqb rest "") then (0%float, Some ErrSyntax)
          else (f, if is_fin f then None else Some ErrRange)
      end
  end.

Definition max_uint64 : Z := 18446744073709551615.

Fixpoint parse_uint (n : Z) (s : string) : Z * option gerror :=
  match s with
  | EmptyString => (n, None)
  | String c s' =>
      if negb (is_digit c) then (0, Some ErrSyntax)
      else
        let n1 := n * 10 + (byte c - 48) in
        if max_uint64 <? n1 then (max_uint64, Some ErrRange) else parse_uint n1 s'
  end.

(** [strconv.ParseUint(s, 10, 64)]. *)
Definition ParseUint (s : string) : Z * option gerror :=
  if str_eqb s "" then (0, Some ErrSyntax) else parse_uint 0 s.

(** *** Writing a float *)

(** [n / d] of a finite magnitude [m * 2^e] over [10^k]. *)
Definition over_pow10 (m e k : Z) : Z * Z :=
  (m * 2 ^ Z.max e 0 * 10 ^ Z.max (- k) 0, 2 ^ Z.max (- e) 0 * 10 ^ Z.max k 0).

(** The digits down to [10^k] that read back as the float: those cut off there,
    or one more in the last place, the nearer where both do. *)
Definition shortest_at (x : float) (m e k : Z) : option Z :=
  let '(n, d) := over_pow10 m e k in
  let q := n / d in
  let reads c := (round_decimal false c k =? x)%float in
  match reads q, reads (q + 1) with
  | true, true => Some (if 2 * (n mod d) <? d then q else if d <? 2 * (n mod d) then q + 1
                        else if Z.even q then q else q + 1)
  | true, false => Some q
  | false, true => Some (q + 1)
  | false, false => None
  end.

(** From the highest place down. *)
Fixpoint shortest (fuel : nat) (x : float) (m e k : Z) : option (Z * Z) :=
  match fuel with
  | O => None
  | S fuel =>
      match shortest_at x m e k with
      | Some q => Some (q, k)
      | None => shortest fuel x m e (k - 1)
      end
  end.

(** A place above the first digit of [m * 2^e]. *)
Definition top_place (m e : Z) : Z := (Z.log2 m + e + 1) * 30103 / 100000 + 1.

(** [strconv.FormatFloat(x, 'f', -1, 64)]: seventeen digits always suffice. *)
Definition FormatFloat (x : float) : string :=
  match Prim2SF x with
  | S754_nan => "NaN"
  | S754_infinity s => if s then "-Inf" else "+Inf"
  | S754_zero s => fixed 0 s 0
  | S754_finite s m e =>
      match shortest 20 (abs x) (Zpos m) e (top_place (Zpos m) e) with
      | Some (q, k) => fixed (Z.to_nat (- k)) s (q * 10 ^ Z.max k 0)
      | None => ""
      end
  end.

(** ** What is read *)

(** A parse without an error never gives NaN or an infinity but for the texts
    that name them. *)
Lemma ParseFloat_no_error_fin s f : ParseFloat s = (f, None) -> special s = None -> is_fin f = true.
Proof.
  unfold ParseFloat. intros H E. rewrite E in H. destruct (readFloat s) as [[x rest]|]; [|done].
  destruct (negb _); [done|]. destruct (is_fin x) eqn:Hx; [|done]. by injection H as <-.
Qed.

Example parsed_floats :
  map ParseFloat ["1"; "+1"; "1x"; "1.1."; "1e23"; "-.5e1"; "1_23.50_0_0e+1_2"; "0x1p-2"; "0x1.8"; "0x_1_e.8p1"]
  = [(1, None); (1, None); (0, Some ErrSyntax); (0, Some ErrSyntax); (1e23, None); (-5, None);
     (1.235e14, None); (0.25, None); (0, Some ErrSyntax); (61, None)]%float.
Proof. vm_compute. reflexivity. Qed.

Example parsed_specials :
  map (fun s => let '(f, e) := ParseFloat s in (is_nan f, (0 <? f)%float, is_fin f, e))
    ["Inf"; "-iNFinity"; "infin"; "NaN"; "-nan"; "1e309"; "1__0"; ""; "."; "1e"]
  = [(false, true, false, None); (false, false, false, None); (false, false, true, Some ErrSyntax);
     (true, false, false, None); (false, false, true, Some ErrSyntax); (false, true, false, Some ErrRange);
     (false, false, true, Some ErrSyntax); (false, false, true, Some ErrSyntax);
     (false, false, true, Some ErrSyntax); (false, false, true, Some ErrSyntax)].
Proof. vm_compute. reflexivity. Qed.

Example parsed_uints :
  map ParseUint ["0"; "007"; "18446744073709551615"; "18446744073709551616"; "1a"; "-1"; "99999999999999999999x"]
  = [(0, None); (7, None); (max_uint64, None); (max_uint64, Some ErrRange); (0, Some ErrSyntax);
     (0, Some ErrSyntax); (max_uint64, Some ErrRange)].
Proof. vm_compute. reflexivity. Qed.

Example formatted_floats :
  map FormatFloat [0.5; 1.05; -0.1; 100; 1e21; 5e-324; 0.3333333333333333; 9007199254740993; 0; infinity]%float
  = ["0.5"; "1.05"; "-0.1"; "100"; "1000000000000000000000";
     "0." +:+ zeros 323 +:+ "5"; "0.3333333333333333"; "9007199254740992"; "0"; "+Inf"].
Proof. vm_compute. reflexivity. Qed.
