(* ===== verification/Encodings.v ===== *)
(** * Bytes as text ([encoding/hex], [encoding/base64]) and raw JSON
      ([json.RawMessage])

    The parts of the language's library that keys, swap transactions and routes
    pass through, with the encoders as the reference the decoders invert. *)
From Stdlib Require Import ZArith Lia Ascii.
From stdpp Require Import base list strings.
From S2P Require Import Prelude GoBase JsonExtract Json.
Open Scope Z_scope.

Lemma chr_byte c : chr (byte c) = c.
Proof. unfold chr, byte. by rewrite N2Z.id, ascii_N_embedding. Qed.

Lemma byte_chr z : 0 <= z < 256 -> byte (chr z) = z.
Proof. intros H. unfold chr, byte. rewrite N_ascii_embedding by lia. lia. Qed.

Lemma byte_bounds c : 0 <= byte c < 256.
Proof. unfold byte. pose proof (N_ascii_bounded c). lia. Qed.

(** A fact about the numbers up to 63, by trying them. *)
Definition below (n : nat) : list Z := map Z.of_nat (seq 0 n).

Lemma below_all (n : nat) (p : Z -> bool) : forallb p (below n) = true ->
  forall z, 0 <= z < Z.of_nat n -> p z = true.
Proof.
  intros H z Hz. rewrite forallb_forall in H. apply H, in_map_iff. exists (Z.to_nat z).
  split; [lia|]. apply in_seq. lia.
Qed.

(** ** Hexadecimal *)

(** [hex.DecodeString]. *)
Fixpoint hex_DecodeString (s : string) : result string :=
  match s with
  | EmptyString => Ok ""
  | String a (String b s') =>
      match hex_value a, hex_value b with
      | Some x, Some y =>
          match hex_DecodeString s' with Ok t => Ok (String (chr (16 * x + y)) t) | Fail e => Fail e end
      | _, _ => Fail (EMsg "encoding/hex: invalid byte: %#U")
      end
  | String a EmptyString =>
      match hex_value a with
      | Some _ => Fail (EMsg "encoding/hex: odd length hex string")
      | None => Fail (EMsg "encoding/hex: invalid byte: %#U")
      end
  end.

Lemma pairs_ind (P : string -> Prop) : P "" -> (forall a, P (String a "")) ->
  (forall a b s, P s -> P (String a (String b s))) -> forall s, P s.
Proof.
  intros H0 H1 H2. assert (H : forall s, P s /\ forall a, P (String a s)); [|intros s; apply H].
  induction s as [|c s [IH1 IH2]]; [by split|]. split; [apply IH2|]. intros a. by apply H2.
Qed.

(** A decoded string has a byte for every two digits. *)
Lemma hex_decoded_length s : forall t, hex_DecodeString s = Ok t -> str_len s = 2 * str_len t.
Proof.
  induction s as [|a|a b s IH] using pairs_ind; intros t.
  - cbn. by intros [= <-].
  - cbn. by destruct (hex_value a).
  - cbn [hex_DecodeString]. destruct (hex_value a), (hex_value b); try done.
    destruct (hex_DecodeString s) as [u|]; [|done]. intros [= <-]. specialize (IH u eq_refl).
    unfold str_len in *. cbn [String.length]. lia.
Qed.

(** ** Base 64 *)

Definition base64_char (v : Z) : ascii :=
  chr (if v <? 26 then 65 + v else if v <? 52 then 71 + v else if v <? 62 then v - 4
       else if v =? 62 then 43 else 47).

Definition base64_value (c : ascii) : option Z :=
  let b := byte c in
  if between 65 b 90 then Some (b - 65)
  else if between 97 b 122 then Some (b - 71)
  else if between 48 b 57 then Some (b + 4)
  else if b =? 43 then Some 62
  else if b =? 47 then Some 63
  else None.

Definition pad : ascii := chr 61.

Definition corrupt : gerror := EMsg "illegal base64 data at input byte %d".

(** Four characters at a time; padding ends the text. *)
Fixpoint base64_quanta (s : string) : result string :=
  match s with
  | EmptyString => Ok ""
  | String a (String b (String c (String d s'))) =>
      match base64_value a, base64_value b with
      | Some x, Some y =>
          let first := chr (4 * x + y / 16) in
          if Ascii.eqb c pad then
            if Ascii.eqb d pad && str_eqb s' "" then Ok (String first "") else Fail corrupt
          else
            match base64_value c with
            | None => Fail corrupt
            | Some z =>
                let second := chr (16 * (y mod 16) + z / 4) in
                if Ascii.eqb d pad then
                  if str_eqb s' "" then Ok (String first (String second "")) else Fail corrupt
                else
                  match base64_value d with
                  | None => Fail corrupt
                  | Some w =>
                      match base64_quanta s' with
                      | Ok t => Ok (String first (String second (String (chr (64 * (z mod 4) + w)) t)))
                      | Fail e => Fail e
                      end
                  end
            end
      | _, _ => Fail corrupt
      end
  | _ => Fail corrupt
  end.

Fixpoint no_newlines (s : string) : string :=
  match s with
  | EmptyString => ""
  | String c s' => if (byte c =? 10) || (byte c =? 13) then no_newlines s' else String c (no_newlines s')
  end.

(** [base64.StdEncoding.DecodeString]: newlines are skipped. *)
Definition base64_DecodeString (s : string) : result string := base64_quanta (no_newlines s).

(** The reference: [base64.StdEncoding.EncodeToString]. *)
Fixpoint base64_EncodeToString (s : string) : string :=
  match s with
  | EmptyString => ""
  | String a EmptyString =>
      String (base64_char (byte a / 4)) (String (base64_char (16 * (byte a mod 4))) (String pad (String pad "")))
  | String a (String b EmptyString) =>
      String (base64_char (byte a / 4)) (String (base64_char (16 * (byte a mod 4) + byte b / 16))
        (String (base64_char (4 * (byte b mod 16))) (String pad "")))
  | String a (String b (String c s')) =>
      String (base64_char (byte a / 4)) (String (base64_char (16 * (byte a mod 4) + byte b / 16))
        (String (base64_char (4 * (byte b mod 16) + byte c / 64)) (String (base64_char (byte c mod 64))
          (base64_EncodeToString s'))))
  end.

Definition char_ok (v : Z) : bool :=
  match base64_value (base64_char v) with Some w => w =? v | None => false end &&
  negb (Ascii.eqb (base64_char v) pad) &&
  negb ((byte (base64_char v) =? 10) || (byte (base64_char v) =? 13)).

Lemma base64_char_spec v : 0 <= v < 64 ->
  base64_value (base64_char v) = Some v /\ Ascii.eqb (base64_char v) pad = false /\
  (byte (base64_char v) =? 10) || (byte (base64_char v) =? 13) = false.
Proof.
  intros H. assert (E : char_ok v = true) by (apply (below_all 64); [vm_compute; reflexivity|exact H]).
  unfold char_ok in E. rewrite !andb_true_iff, !negb_true_iff in E. destruct E as [[E1 E2] E3].
  destruct (base64_value _) as [w|]; [|done]. apply Z.eqb_eq in E1. by subst.
Qed.

Lemma triples_ind (P : string -> Prop) : P "" -> (forall a, P (String a "")) ->
  (forall a b, P (String a (String b ""))) ->
  (forall a b c s, P s -> P (String a (String b (String c s)))) -> forall s, P s.
Proof.
  intros H0 H1 H2 H3.
  assert (H : forall s, P s /\ (forall a, P (String a s)) /\ forall a b, P (String a (String b s))); [|intros s; apply H].
  induction s as [|c s (IH1 & IH2 & IH3)]; [done|].
  split; [exact (IH2 c)|]. split; [intros a; exact (IH3 a c)|]. intros a b. by apply H3.
Qed.

(** Six bits out of bytes. *)
Ltac sextet := match goal with |- 0 <= _ < 64 =>
  repeat match goal with |- context [byte ?c] =>
    let H := fresh in pose proof (byte_bounds c) as H; generalize dependent (byte c); intros end;
  Z.div_mod_to_equations; lia end.

Ltac recombine := etransitivity; [|apply chr_byte]; f_equal;
  repeat match goal with |- context [byte ?c] =>
    let H := fresh in pose proof (byte_bounds c) as H; generalize dependent (byte c); intros end;
  Z.div_mod_to_equations; lia.

Lemma base64_text s : no_newlines (base64_EncodeToString s) = base64_EncodeToString s.
Proof.
  induction s as [|a|a b|a b c s IH] using triples_ind; [done| | |];
    cbn [base64_EncodeToString no_newlines];
    repeat match goal with |- context [byte (base64_char ?v)] =>
      let H := fresh in destruct (base64_char_spec v) as (_ & _ & H); [sextet|]; rewrite H; clear H end;
    [reflexivity|reflexivity|]. by rewrite IH.
Qed.

(** What is encoded is decoded. *)
Lemma base64_roundtrip s : base64_DecodeString (base64_EncodeToString s) = Ok s.
Proof.
  unfold base64_DecodeString. rewrite base64_text.
  induction s as [|a|a b|a b c s IH] using triples_ind; [done| | |];
    cbn [base64_EncodeToString base64_quanta];
    repeat match goal with
    | |- context [base64_value (base64_char ?v)] =>
        let H1 := fresh in let H2 := fresh in
        destruct (base64_char_spec v) as (H1 & H2 & _); [sextet|]; rewrite ?H1, ?H2; clear H1 H2
    | |- context [Ascii.eqb (base64_char ?v) pad] =>
        let H1 := fresh in destruct (base64_char_spec v) as (_ & H1 & _); [sextet|]; rewrite ?H1; clear H1
    end; cbn [Ascii.eqb pad].
  - replace (Ascii.eqb pad pad && str_eqb "" "") with true by reflexivity. do 2 f_equal. recombine.
  - replace (Ascii.eqb pad pad) with true by reflexivity. replace (str_eqb "" "") with true by reflexivity.
    do 2 f_equal; [recombine|]. f_equal. recombine.
  - rewrite IH. do 2 f_equal; [recombine|]. f_equal; [recombine|]. f_equal. recombine.
Qed.

(** ** Raw JSON *)

(** [json.Compact], as [json.Marshal] writes a [RawMessage] with it: white
    space goes, HTML and the line separators are escaped. *)
Fixpoint compact (in_str esc : bool) (s : string) : string :=
  match s with
  | EmptyString => ""
  | String c s' =>
      if mem (byte c) [60; 62; 38] then u_escape (byte c) +:+ compact in_str false s'
      else
        match s' with
        | String d (String e s'') =>
            if (byte c =? 226) && (byte d =? 128) && ((byte e =? 168) || (byte e =? 169))
            then u_escape (8064 + byte e) +:+ compact in_str false s''
            else if in_str then String c (compact (esc || negb (Ascii.eqb c dquote)) (negb esc && Ascii.eqb c backslash) s')
            else if is_json_space c then compact false false s'
            else String c (compact (Ascii.eqb c dquote) false s')
        | _ =>
            if in_str then String c (compact (esc || negb (Ascii.eqb c dquote)) (negb esc && Ascii.eqb c backslash) s')
            else if is_json_space c then compact false false s'
            else String c (compact (Ascii.eqb c dquote) false s')
        end
  end.

(** The JSON of a [RawMessage]; what is no JSON is an error. *)
Definition marshal_raw (raw : string) : result string :=
  match Parse raw with
  | None => Fail (EMsg "json: error calling MarshalJSON for type json.RawMessage: invalid JSON")
  | Some _ => Ok (compact false false raw)
  end.

Example encoded_values :
  hex_DecodeString "4a6F" = Ok "Jo" /\ is_ok (hex_DecodeString "4a6") = false /\
  base64_DecodeString ("QUJ" +:+ String (chr 10) "D") = Ok "ABC" /\ base64_DecodeString "QQ==" = Ok "A" /\
  is_ok (base64_DecodeString "QQ=") = false /\
  marshal_raw (" { " +:+ json_string "a <" +:+ " : [ 1 , 2 ] } ") =
    Ok ("{" +:+ json_string "a <" +:+ ":[1,2]}") /\
  is_ok (marshal_raw "{") = false.
Proof. vm_compute. repeat split. Qed.
