(* ===== verification/Feeds.v ===== *)
(** * Quote, lending and yield feeds ([internal/chain/solana_jupiter.go],
      [base_oneinch.go], [base_aave.go], [base_morpho.go], [base_yield.go],
      [solana_yield.go])

    The requests the chain clients make over HTTP, byte for byte, and what
    becomes of the responses.  The transport is an interface with a state of its
    own; a map's iteration order and the clock are arguments. *)
From Stdlib Require Import ZArith Lia Floats Ascii.
From stdpp Require Import base list strings gmap.
From S2P Require Import Prelude GoBase GoFmt GoFloat Json JsonCodec Strconv Encodings Task Llm Notifier.
Set Warnings "-inexact-float".
Open Scope Z_scope.

(** ** The transport *)

Record request := {
  rq_method : string;
  rq_url : string;
  rq_headers : list (string * string);
  rq_body : string;
}.

(** [net/http]: a URL that does not parse; a response's status and its body,
    which may not be readable to its end. *)
Class Web := {
  web_state : Type;
  web_url : string -> option gerror;
  web_do : request -> web_state -> result (Z * result string) * web_state;
}.

(** [truncate] of [solana_jupiter.go]. *)
Definition truncate (s : string) (n : nat) : string :=
  if (String.length s <=? n)%nat then s else str_take n s +:+ "...".

Section Transport.
Context {W : Web}.

(** The exchange every client makes; [who] is what its errors start with, and
    [sending] what it makes of an error of [Do]. *)
Definition roundtrip (who : string) (sending : gerror -> gerror) (req : request) (w : web_state)
    : result string * web_state :=
  match web_url (rq_url req) with
  | Some err => (Fail (EWrap (who +:+ "build request: %w") err), w)
  | None =>
      match web_do req w with
      | (Fail err, w) => (Fail (sending err), w)
      | (Ok (_, Fail err), w) => (Fail (EWrap (who +:+ "read: %w") err), w)
      | (Ok (status, Ok body), w) =>
          if negb (Z.quot status 100 =? 2)
          then (Fail (EMsg (who +:+ "status " +:+ Itoa status +:+ ": " +:+ truncate body 256)), w)
          else (Ok body, w)
      end
  end.

(** A response as its type decodes it. *)
Definition decode_as {A} (who : string) (d : decoder A) (zero : A) (r : result string * web_state)
    : result A * web_state :=
  match r with
  | (Fail err, w) => (Fail err, w)
  | (Ok body, w) =>
      match Unmarshal d zero body with
      | Ok parsed => (Ok parsed, w)
      | Fail err => (Fail (EWrap (who +:+ "decode: %w") err), w)
      end
  end.
End Transport.

Definition json_headers : list (string * string) :=
  [("Content-Type", "application/json"); ("Accept", "application/json")].

(** ** Jupiter *)

Definition jupiterDefaultBaseURL : string := "https://lite-api.jup.ag/swap/v1".
Definition jupiterDefaultSlippageBps : Z := 50.

Definition newJupiterClient (baseURL : string) : string :=
  if str_eqb baseURL "" then jupiterDefaultBaseURL else baseURL.

Record jupiterQuoteResp := {
  jq_InputMint : string; jq_OutputMint : string; jq_InAmount : string; jq_OutAmount : string;
  jq_OtherAmountThreshold : string; jq_SwapMode : string; jq_SlippageBps : Z; jq_PriceImpactPct : string;
}.

Definition no_quote : jupiterQuoteResp := {|
  jq_InputMint := ""; jq_OutputMint := ""; jq_InAmount := ""; jq_OutAmount := ""; jq_OtherAmountThreshold := "";
  jq_SwapMode := ""; jq_SlippageBps := 0; jq_PriceImpactPct := "" |}.

(** The fields the clients read; the other texts are decoded and left. *)
Definition with_quote (out : string) (slip : Z) (impact : string) (q : jupiterQuoteResp) : jupiterQuoteResp := {|
  jq_InputMint := jq_InputMint q; jq_OutputMint := jq_OutputMint q; jq_InAmount := jq_InAmount q; jq_OutAmount := out;
  jq_OtherAmountThreshold := jq_OtherAmountThreshold q; jq_SwapMode := jq_SwapMode q; jq_SlippageBps := slip;
  jq_PriceImpactPct := impact |}.

Definition with_texts (inMint outMint inAmount threshold mode : string) (q : jupiterQuoteResp) : jupiterQuoteResp := {|
  jq_InputMint := inMint; jq_OutputMint := outMint; jq_InAmount := inAmount; jq_OutAmount := jq_OutAmount q;
  jq_OtherAmountThreshold := threshold; jq_SwapMode := mode; jq_SlippageBps := jq_SlippageBps q;
  jq_PriceImpactPct := jq_PriceImpactPct q |}.

Definition d_quote : decoder jupiterQuoteResp := d_struct
  [("inputMint", d_field jq_InputMint (fun x q => with_texts x (jq_OutputMint q) (jq_InAmount q)
      (jq_OtherAmountThreshold q) (jq_SwapMode q) q) d_string);
   ("outputMint", d_field jq_OutputMint (fun x q => with_texts (jq_InputMint q) x (jq_InAmount q)
      (jq_OtherAmountThreshold q) (jq_SwapMode q) q) d_string);
   ("inAmount", d_field jq_InAmount (fun x q => with_texts (jq_InputMint q) (jq_OutputMint q) x
      (jq_OtherAmountThreshold q) (jq_SwapMode q) q) d_string);
   ("outAmount", d_field jq_OutAmount (fun x q => with_quote x (jq_SlippageBps q) (jq_PriceImpactPct q) q) d_string);
   ("otherAmountThreshold", d_field jq_OtherAmountThreshold (fun x q => with_texts (jq_InputMint q)
      (jq_OutputMint q) (jq_InAmount q) x (jq_SwapMode q) q) d_string);
   ("swapMode", d_field jq_SwapMode (fun x q => with_texts (jq_InputMint q) (jq_OutputMint q) (jq_InAmount q)
      (jq_OtherAmountThreshold q) x q) d_string);
   ("slippageBps", d_field jq_SlippageBps (fun x q => with_quote (jq_OutAmount q) x (jq_PriceImpactPct q) q) d_int);
   ("priceImpactPct", d_field jq_PriceImpactPct (fun x q => with_quote (jq_OutAmount q) (jq_SlippageBps q) x q) d_string)].

Section Jupiter.
Context {W : Web}.

Definition quote_request (base inputMint outputMint : string) (amountAtomic slippageBps : Z) : request :=
  let slip := if slippageBps =? 0 then jupiterDefaultSlippageBps else slippageBps in {|
  rq_method := "GET";
  rq_url := base +:+ "/quote?" +:+ encode_form
    [("amount", Itoa amountAtomic); ("inputMint", inputMint); ("onlyDirectRoutes", "false");
     ("outputMint", outputMint); ("slippageBps", Itoa slip); ("swapMode", "ExactIn")];
  rq_headers := [("Accept", "application/json")]; rq_body := "" |}.

(** [getQuote]: the quote and the body it came in. *)
Definition getQuote (base inputMint outputMint : string) (amountAtomic slippageBps : Z) (w : web_state)
    : result (jupiterQuoteResp * string) * web_state :=
  match roundtrip "jupiter quote: " (EWrap "jupiter quote: %w")
          (quote_request base inputMint outputMint amountAtomic slippageBps) w with
  | (Fail err, w) => (Fail err, w)
  | (Ok body, w) =>
      match Unmarshal d_quote no_quote body with
      | Ok parsed => (Ok (parsed, body), w)
      | Fail err => (Fail (EWrap "jupiter quote: decode: %w" err), w)
      end
  end.

Definition swap_request (base userPubkey route : string) : request := {|
  rq_method := "POST"; rq_url := base +:+ "/swap"; rq_headers := json_headers;
  rq_body := write_object
    [("userPublicKey", json_string userPubkey); ("wrapAndUnwrapSol", "true"); ("useSharedAccounts", "true");
     ("dynamicComputeUnitLimit", "true"); ("quoteResponse", route)] |}.

Definition d_swap : decoder string := d_struct [("swapTransaction", d_string)].

(** [buildSwapTx]: the transaction's bytes. *)
Definition buildSwapTx (base userPubkey routeRaw : string) (w : web_state) : result string * web_state :=
  match marshal_raw routeRaw with
  | Fail err => (Fail (EWrap "jupiter swap: marshal: %w" err), w)
  | Ok route =>
      match decode_as "jupiter swap: " d_swap ""
              (roundtrip "jupiter swap: " (EWrap "jupiter swap: %w") (swap_request base userPubkey route) w) with
      | (Fail err, w) => (Fail err, w)
      | (Ok swapTransaction, w) =>
          if str_eqb swapTransaction "" then (Fail (EMsg "jupiter swap: empty swapTransaction in response"), w)
          else
            match base64_DecodeString swapTransaction with
            | Fail err => (Fail (EWrap "jupiter swap: b64 decode: %w" err), w)
            | Ok txBytes => (Ok txBytes, w)
            end
      end
  end.
End Jupiter.

(** ** 1inch and Paraswap *)

Definition oneInchDefaultBaseURL : string := "https://api.1inch.dev/swap/v6.0".
Definition paraswapDefaultBaseURL : string := "https://api.paraswap.io/swap".

Record aggregatorClient := {
  oneInchURL : string;
  oneInchKey : string;
  paraswapURL : string;
}.

(** A key that a Go map does not hold reads as the empty string. *)
Definition extra_or (extra : gmap string string) (key fallback : string) : string :=
  match extra !! key with Some v => if str_eqb v "" then fallback else v | None => fallback end.

Definition newAggregatorClient (extra : gmap string string) : aggregatorClient := {|
  oneInchURL := extra_or extra "oneinch_url" oneInchDefaultBaseURL;
  oneInchKey := extra_or extra "oneinch_api_key" "";
  paraswapURL := extra_or extra "paraswap_url" paraswapDefaultBaseURL |}.

Record oneInchQuoteResp := { oq_DstAmount : string; oq_Gas : Z }.

Definition d_one_quote : decoder oneInchQuoteResp := d_struct
  [("dstAmount", d_field oq_DstAmount (fun x q => {| oq_DstAmount := x; oq_Gas := oq_Gas q |}) d_string);
   ("gas", d_field oq_Gas (fun x q => {| oq_DstAmount := oq_DstAmount q; oq_Gas := x |}) d_int)].

(** The [tx] of a /swap response. *)
Record swap_tx := {
  sw_From : string; sw_To : string; sw_Data : string; sw_Value : string; sw_Gas : Z; sw_GasPrice : string;
}.

Definition no_swap : swap_tx := {|
  sw_From := ""; sw_To := ""; sw_Data := ""; sw_Value := ""; sw_Gas := 0; sw_GasPrice := "" |}.

Definition with_swap (from to data value gasPrice : string) (gas : Z) : swap_tx := {|
  sw_From := from; sw_To := to; sw_Data := data; sw_Value := value; sw_Gas := gas; sw_GasPrice := gasPrice |}.

(** A [uint64] field. *)
Definition d_uint : decoder Z := fun v old =>
  match v with
  | JsonNumber lit =>
      match ParseUint lit with (z, None) => (z, None) | (_, Some _) => (old, Some unmarshal_type_error) end
  | JsonNull => (old, None)
  | _ => (old, Some unmarshal_type_error)
  end.

Definition d_swap_tx : decoder swap_tx := d_struct
  [("from", d_field sw_From (fun x t => with_swap x (sw_To t) (sw_Data t) (sw_Value t) (sw_GasPrice t) (sw_Gas t)) d_string);
   ("to", d_field sw_To (fun x t => with_swap (sw_From t) x (sw_Data t) (sw_Value t) (sw_GasPrice t) (sw_Gas t)) d_string);
   ("data", d_field sw_Data (fun x t => with_swap (sw_From t) (sw_To t) x (sw_Value t) (sw_GasPrice t) (sw_Gas t)) d_string);
   ("value", d_field sw_Value (fun x t => with_swap (sw_From t) (sw_To t) (sw_Data t) x (sw_GasPrice t) (sw_Gas t)) d_string);
   ("gas", d_field sw_Gas (fun x t => with_swap (sw_From t) (sw_To t) (sw_Data t) (sw_Value t) (sw_GasPrice t) x) d_uint);
   ("gasPrice", d_field sw_GasPrice (fun x t => with_swap (sw_From t) (sw_To t) (sw_Data t) (sw_Value t) x (sw_Gas t))
      d_string)].

(** [dstAmount] and [tx]. *)
Definition d_one_swap : decoder (string * swap_tx) := d_struct
  [("dstAmount", d_field fst (fun x p => (x, p.2)) d_string); ("tx", d_field snd (fun x p => (p.1, x)) d_swap_tx)].

(** [priceRoute]'s [destAmount] and [gasCost]. *)
Definition d_paraswap : decoder (string * string) := d_struct
  [("priceRoute", d_struct
     [("destAmount", d_field fst (fun x p => (x, p.2)) d_string);
      ("gasCost", d_field snd (fun x p => (p.1, x)) d_string)])].

Section Aggregator.
Context {W : Web} (a : aggregatorClient).

(** [do] of a GET. *)
Definition agg_request (endpoint : string) (oneInch : bool) : request := {|
  rq_method := "GET"; rq_url := endpoint;
  rq_headers := ("Accept", "application/json") ::
    (if oneInch && negb (str_eqb (oneInchKey a) "") then [("Authorization", "Bearer " +:+ oneInchKey a)] else []);
  rq_body := "" |}.

Definition agg_do (endpoint : string) (oneInch : bool) (w : web_state) : result string * web_state :=
  roundtrip "" id (agg_request endpoint oneInch) w.

(** An exchange whose errors its caller wraps. *)
Definition wrapped {A} (what : string) (r : result A * web_state) : result A * web_state :=
  match r with (Fail err, w) => (Fail (EWrap what err), w) | _ => r end.

Definition oneInchGetQuote (chainID : Z) (srcMint dstMint amountAtomic : string) (w : web_state)
    : result (oneInchQuoteResp * string) * web_state :=
  let endpoint := oneInchURL a +:+ "/" +:+ Itoa chainID +:+ "/quote?" +:+ encode_form
    [("amount", amountAtomic); ("dst", dstMint); ("includeGas", "true"); ("src", srcMint)] in
  match wrapped "1inch quote: %w" (agg_do endpoint true w) with
  | (Fail err, w) => (Fail err, w)
  | (Ok body, w) =>
      match Unmarshal d_one_quote {| oq_DstAmount := ""; oq_Gas := 0 |} body with
      | Ok parsed => (Ok (parsed, body), w)
      | Fail err => (Fail (EWrap "1inch quote: decode: %w" err), w)
      end
  end.

Definition oneInchBuildSwap (chainID : Z) (srcMint dstMint amountAtomic fromAddr : string) (slippagePct : float)
    (w : web_state) : result swap_tx * web_state :=
  let endpoint := oneInchURL a +:+ "/" +:+ Itoa chainID +:+ "/swap?" +:+ encode_form
    [("amount", amountAtomic); ("disableEstimate", "false"); ("dst", dstMint); ("from", fromAddr);
     ("slippage", FormatFloat slippagePct); ("src", srcMint)] in
  match decode_as "1inch swap: " d_one_swap ("", no_swap) (wrapped "1inch swap: %w" (agg_do endpoint true w)) with
  | (Fail err, w) => (Fail err, w)
  | (Ok (_, tx), w) =>
      if str_eqb (sw_To tx) "" || str_eqb (sw_Data tx) "" then (Fail (EMsg "1inch swap: empty tx in response"), w)
      else (Ok tx, w)
  end.

Definition paraswapGetQuote (chainID : Z) (srcMint dstMint amountAtomic : string) (w : web_state)
    : result (string * string * string) * web_state :=
  let endpoint := paraswapURL a +:+ "/prices?" +:+ encode_form
    [("amount", amountAtomic); ("destToken", dstMint); ("network", Itoa chainID); ("side", "SELL");
     ("srcToken", srcMint)] in
  match wrapped "paraswap quote: %w" (agg_do endpoint false w) with
  | (Fail err, w) => (Fail err, w)
  | (Ok body, w) =>
      match Unmarshal d_paraswap ("", "") body with
      | Fail err => (Fail (EWrap "paraswap quote: decode: %w" err), w)
      | Ok (destAmount, gasCost) =>
          if str_eqb destAmount "" then (Fail (EMsg "paraswap quote: empty priceRoute"), w)
          else (Ok (destAmount, gasCost, body), w)
      end
  end.
End Aggregator.

(** ** GraphQL *)

(** The [errors] of a response: its first message. *)
Definition d_errors : decoder (list string) := d_slice "" (d_struct [("message", d_string)]).

(** A response's data and errors. *)
Definition d_gql {A} (data : decoder A) : decoder (A * list string) := d_struct
  [("data", d_field fst (fun x p => (x, p.2)) data); ("errors", d_field snd (fun x p => (p.1, x)) d_errors)].

Definition gql_body (query : string) (variables : list (string * string)) : string :=
  write_object ([("query", json_string query)] ++
    (match variables with [] => [] | _ => [("variables", write_object variables)] end)).

Definition gql_request (url query : string) (variables : list (string * string)) : request := {|
  rq_method := "POST"; rq_url := url; rq_headers := json_headers; rq_body := gql_body query variables |}.

(** [strconv.ParseFloat] with its error dropped. *)
Definition float_or_zero (s : string) : float := (ParseFloat s).1.

Section GraphQL.
Context {W : Web}.

(** The data of a response without errors. *)
Definition gql_data {A} (who shown : string) (data : decoder A) (zero : A) (r : result string * web_state)
    : result A * web_state :=
  match decode_as who (d_gql data) (zero, []) r with
  | (Fail err, w) => (Fail err, w)
  | (Ok (_, msg :: _), w) => (Fail (EMsg (who +:+ shown +:+ msg)), w)
  | (Ok (x, []), w) => (Ok x, w)
  end.
End GraphQL.

(** ** Lending positions on Base *)

Definition defaultAaveSubgraphURL : string := "https://api.thegraph.com/subgraphs/name/aave/protocol-v3-base".
Definition aaveDefaultLimit : Z := 200.

Definition newAaveClient (extra : gmap string string) : string :=
  extra_or extra "aave_subgraph_url" defaultAaveSubgraphURL.

Definition aaveUserReservesQuery : string := "
query Liquidatable($limit: Int!) {
  userReserves(first: $limit, where: {currentTotalDebt_gt: 0}, orderBy: currentTotalDebt, orderDirection: desc) {
    user { id }
    reserve {
      symbol
      underlyingAsset
      reserveLiquidationBonus
    }
    currentATokenBalance
    currentTotalDebt
  }
}".

Record aave_reserve := {
  av_User : string; av_Symbol : string; av_Underlying : string; av_Bonus : string;
  av_ATokenBalance : string; av_TotalDebt : string;
}.

Definition no_reserve : aave_reserve := {|
  av_User := ""; av_Symbol := ""; av_Underlying := ""; av_Bonus := ""; av_ATokenBalance := ""; av_TotalDebt := "" |}.

Definition with_reserve (symbol underlying bonus : string) (r : aave_reserve) : aave_reserve := {|
  av_User := av_User r; av_Symbol := symbol; av_Underlying := underlying; av_Bonus := bonus;
  av_ATokenBalance := av_ATokenBalance r; av_TotalDebt := av_TotalDebt r |}.

Definition with_user (user balance debt : string) (r : aave_reserve) : aave_reserve := {|
  av_User := user; av_Symbol := av_Symbol r; av_Underlying := av_Underlying r; av_Bonus := av_Bonus r;
  av_ATokenBalance := balance; av_TotalDebt := debt |}.

Definition d_aave_reserve : decoder aave_reserve := d_struct
  [("user", d_struct [("id", d_field av_User (fun x r => with_user x (av_ATokenBalance r) (av_TotalDebt r) r) d_string)]);
   ("reserve", d_struct
     [("symbol", d_field av_Symbol (fun x r => with_reserve x (av_Underlying r) (av_Bonus r) r) d_string);
      ("underlyingAsset", d_field av_Underlying (fun x r => with_reserve (av_Symbol r) x (av_Bonus r) r) d_string);
      ("reserveLiquidationBonus", d_field av_Bonus (fun x r => with_reserve (av_Symbol r) (av_Underlying r) x r) d_string)]);
   ("currentATokenBalance", d_field av_ATokenBalance (fun x r => with_user (av_User r) x (av_TotalDebt r) r) d_string);
   ("currentTotalDebt", d_field av_TotalDebt (fun x r => with_user (av_User r) (av_ATokenBalance r) x r) d_string)].

Definition d_aave : decoder (list aave_reserve) := d_struct [("userReserves", d_slice no_reserve d_aave_reserve)].

Definition aave_position (r : aave_reserve) : LendingPosition := {|
  lp_Chain := "base"; lp_Protocol := "aave"; lp_Owner := av_User r; CollateralAsset := av_Underlying r;
  CollateralAmt := float_or_zero (av_ATokenBalance r); DebtAsset := av_Underlying r;
  DebtAmt := float_or_zero (av_TotalDebt r); HealthFactor := 0; LiquidationBonus := float_or_zero (av_Bonus r) |}.

Definition defaultMorphoGraphqlURL : string := "https://blue-api.morpho.org/graphql".
Definition morphoDefaultLimit : Z := 200.
Definition morphoHealthFactorMax : float := 1.05.

Definition newMorphoClient (extra : gmap string string) : string := extra_or extra "morpho_url" defaultMorphoGraphqlURL.

Definition morphoPositionsQuery : string := "
query Liquidatable($limit: Int!, $chainId: Int!, $hfMax: Float!) {
  marketPositions(
    first: $limit,
    where: {chainId_in: [$chainId], healthFactor_lte: $hfMax},
    orderBy: HealthFactor,
    orderDirection: Asc
  ) {
    items {
      user { address }
      market {
        collateralAsset { address }
        loanAsset { address }
        lltv
      }
      collateral
      borrowAssets
      healthFactor
    }
  }
}".

Record morpho_item := {
  mo_User : string; mo_CollateralAsset : string; mo_LoanAsset : string; mo_LLTV : string;
  mo_Collateral : string; mo_BorrowAssets : string; mo_HealthFactor : float;
}.

Definition no_item : morpho_item := {|
  mo_User := ""; mo_CollateralAsset := ""; mo_LoanAsset := ""; mo_LLTV := ""; mo_Collateral := "";
  mo_BorrowAssets := ""; mo_HealthFactor := 0 |}.

Definition with_market (coll loan lltv : string) (m : morpho_item) : morpho_item := {|
  mo_User := mo_User m; mo_CollateralAsset := coll; mo_LoanAsset := loan; mo_LLTV := lltv;
  mo_Collateral := mo_Collateral m; mo_BorrowAssets := mo_BorrowAssets m; mo_HealthFactor := mo_HealthFactor m |}.

Definition with_loan (user coll borrow : string) (health : float) (m : morpho_item) : morpho_item := {|
  mo_User := user; mo_CollateralAsset := mo_CollateralAsset m; mo_LoanAsset := mo_LoanAsset m; mo_LLTV := mo_LLTV m;
  mo_Collateral := coll; mo_BorrowAssets := borrow; mo_HealthFactor := health |}.

Definition d_morpho_item : decoder morpho_item := d_struct
  [("user", d_struct [("address", d_field mo_User
      (fun x m => with_loan x (mo_Collateral m) (mo_BorrowAssets m) (mo_HealthFactor m) m) d_string)]);
   ("market", d_struct
     [("collateralAsset", d_struct [("address", d_field mo_CollateralAsset
         (fun x m => with_market x (mo_LoanAsset m) (mo_LLTV m) m) d_string)]);
      ("loanAsset", d_struct [("address", d_field mo_LoanAsset
         (fun x m => with_market (mo_CollateralAsset m) x (mo_LLTV m) m) d_string)]);
      ("lltv", d_field mo_LLTV (fun x m => with_market (mo_CollateralAsset m) (mo_LoanAsset m) x m) d_string)]);
   ("collateral", d_field mo_Collateral
      (fun x m => with_loan (mo_User m) x (mo_BorrowAssets m) (mo_HealthFactor m) m) d_string);
   ("borrowAssets", d_field mo_BorrowAssets
      (fun x m => with_loan (mo_User m) (mo_Collateral m) x (mo_HealthFactor m) m) d_string);
   ("healthFactor", d_field mo_HealthFactor
      (fun x m => with_loan (mo_User m) (mo_Collateral m) (mo_BorrowAssets m) x m) d_float)].

Definition d_morpho : decoder (list morpho_item) := d_struct
  [("marketPositions", d_struct [("items", d_slice no_item d_morpho_item)])].

Definition bonus_bps (lltv : float) : float :=
  if (0 <? lltv)%float && (lltv <? 1)%float then ((1 - lltv) * 10000)%float else 0%float.

Definition morpho_position (m : morpho_item) : LendingPosition := {|
  lp_Chain := "base"; lp_Protocol := "morpho"; lp_Owner := mo_User m; CollateralAsset := mo_CollateralAsset m;
  CollateralAmt := float_or_zero (mo_Collateral m); DebtAsset := mo_LoanAsset m;
  DebtAmt := float_or_zero (mo_BorrowAssets m); HealthFactor := mo_HealthFactor m;
  LiquidationBonus := bonus_bps (float_or_zero (mo_LLTV m) / 1e18)%float |}.

Section Positions.
Context {W : Web}.

(** [fetchPositions] of the two clients, of the URL they are configured with. *)
Definition aave_fetchPositions (url : string) (limit : Z) (w : web_state) : result (list LendingPosition) * web_state :=
  let limit := if limit <=? 0 then aaveDefaultLimit else limit in
  match gql_data "aave: " "graphql error: " d_aave []
          (roundtrip "aave: " (EWrap "aave: do: %w")
             (gql_request url aaveUserReservesQuery [("limit", Itoa limit)]) w) with
  | (Fail err, w) => (Fail err, w)
  | (Ok rs, w) => (Ok (map aave_position rs), w)
  end.

Definition morpho_fetchPositions (url : string) (chainID limit : Z) (w : web_state)
    : result (list LendingPosition) * web_state :=
  let limit := if limit <=? 0 then morphoDefaultLimit else limit in
  match gql_data "morpho: " "graphql error: " d_morpho []
          (roundtrip "morpho: " (EWrap "morpho: do: %w")
             (gql_request url morphoPositionsQuery
                [("chainId", Itoa chainID); ("hfMax", FormatFloat morphoHealthFactorMax); ("limit", Itoa limit)]) w) with
  | (Fail err, w) => (Fail err, w)
  | (Ok ms, w) => (Ok (map morpho_position ms), w)
  end.
End Positions.

(** ** Yields *)

Record baseYieldClient := { by_aaveURL : string; by_morphoURL : string }.

Definition newBaseYieldClient (extra : gmap string string) : baseYieldClient := {|
  by_aaveURL := extra_or extra "aave_subgraph_url" defaultAaveSubgraphURL;
  by_morphoURL := extra_or extra "morpho_url" defaultMorphoGraphqlURL |}.

Definition aaveReservesQuery : string := "
query Reserves {
  reserves(where: {isActive: true, isFrozen: false}) {
    symbol
    underlyingAsset
    liquidityRate
    totalLiquidity
    decimals
    price { priceInEth }
  }
}".

Definition morphoMarketsQuery : string := "
query Markets($chainId: Int!) {
  markets(first: 100, where: {chainId_in: [$chainId]}) {
    items {
      uniqueKey
      loanAsset { address symbol decimals }
      state { supplyApy supplyAssetsUsd }
    }
  }
}".

(** [pow10]; a float has at most 309 digits before the point. *)
Definition pow10 (n : Z) : float := Nat.iter (Z.to_nat n) (fun v => (v * 10)%float) 1%float.

Record reserve := { rs_Symbol : string; rs_Underlying : string; rs_Rate : string; rs_Liquidity : string; rs_Decimals : Z }.

Definition no_rate : reserve := {|
  rs_Symbol := ""; rs_Underlying := ""; rs_Rate := ""; rs_Liquidity := ""; rs_Decimals := 0 |}.

Definition d_reserve : decoder reserve := d_struct
  [("symbol", d_field rs_Symbol (fun x r => {| rs_Symbol := x; rs_Underlying := rs_Underlying r; rs_Rate := rs_Rate r;
      rs_Liquidity := rs_Liquidity r; rs_Decimals := rs_Decimals r |}) d_string);
   ("underlyingAsset", d_field rs_Underlying (fun x r => {| rs_Symbol := rs_Symbol r; rs_Underlying := x;
      rs_Rate := rs_Rate r; rs_Liquidity := rs_Liquidity r; rs_Decimals := rs_Decimals r |}) d_string);
   ("liquidityRate", d_field rs_Rate (fun x r => {| rs_Symbol := rs_Symbol r; rs_Underlying := rs_Underlying r;
      rs_Rate := x; rs_Liquidity := rs_Liquidity r; rs_Decimals := rs_Decimals r |}) d_string);
   ("totalLiquidity", d_field rs_Liquidity (fun x r => {| rs_Symbol := rs_Symbol r; rs_Underlying := rs_Underlying r;
      rs_Rate := rs_Rate r; rs_Liquidity := x; rs_Decimals := rs_Decimals r |}) d_string);
   ("decimals", d_field rs_Decimals (fun x r => {| rs_Symbol := rs_Symbol r; rs_Underlying := rs_Underlying r;
      rs_Rate := rs_Rate r; rs_Liquidity := rs_Liquidity r; rs_Decimals := x |}) d_int)].

Definition d_reserves : decoder (list reserve) := d_struct [("reserves", d_slice no_rate d_reserve)].

Definition aave_rate (now : Time) (r : reserve) : YieldRate := {|
  y_Chain := "base"; y_Protocol := "aave"; y_Asset := rs_Underlying r;
  y_APY := (float_or_zero (rs_Rate r) / 1e27)%float;
  y_TVL := (float_or_zero (rs_Liquidity r) / pow10 (rs_Decimals r))%float; y_UpdatedAt := now |}.

Record market := { mk_Key : string; mk_Address : string; mk_Symbol : string; mk_Decimals : Z;
  mk_SupplyApy : float; mk_SupplyUsd : float }.

Definition no_market : market := {|
  mk_Key := ""; mk_Address := ""; mk_Symbol := ""; mk_Decimals := 0; mk_SupplyApy := 0; mk_SupplyUsd := 0 |}.

Definition with_asset (key address symbol : string) (decimals : Z) (m : market) : market := {|
  mk_Key := key; mk_Address := address; mk_Symbol := symbol; mk_Decimals := decimals; mk_SupplyApy := mk_SupplyApy m;
  mk_SupplyUsd := mk_SupplyUsd m |}.

Definition with_supply (apy usd : float) (m : market) : market := {|
  mk_Key := mk_Key m; mk_Address := mk_Address m; mk_Symbol := mk_Symbol m; mk_Decimals := mk_Decimals m;
  mk_SupplyApy := apy; mk_SupplyUsd := usd |}.

Definition d_market : decoder market := d_struct
  [("uniqueKey", d_field mk_Key (fun x m => with_asset x (mk_Address m) (mk_Symbol m) (mk_Decimals m) m) d_string);
   ("loanAsset", d_struct
     [("address", d_field mk_Address (fun x m => with_asset (mk_Key m) x (mk_Symbol m) (mk_Decimals m) m) d_string);
      ("symbol", d_field mk_Symbol (fun x m => with_asset (mk_Key m) (mk_Address m) x (mk_Decimals m) m) d_string);
      ("decimals", d_field mk_Decimals (fun x m => with_asset (mk_Key m) (mk_Address m) (mk_Symbol m) x m) d_int)]);
   ("state", d_struct
     [("supplyApy", d_field mk_SupplyApy (fun x m => with_supply x (mk_SupplyUsd m) m) d_float);
      ("supplyAssetsUsd", d_field mk_SupplyUsd (fun x m => with_supply (mk_SupplyApy m) x m) d_float)])].

Definition d_markets : decoder (list market) := d_struct
  [("markets", d_struct [("items", d_slice no_market d_market)])].

Definition morpho_rate (now : Time) (m : market) : YieldRate := {|
  y_Chain := "base"; y_Protocol := "morpho"; y_Asset := mk_Address m; y_APY := mk_SupplyApy m;
  y_TVL := mk_SupplyUsd m; y_UpdatedAt := now |}.

(** One market more: the best so far of its loan asset stays unless it pays
    less. *)
Definition better (now : Time) (best : gmap string YieldRate) (m : market) : gmap string YieldRate :=
  match best !! mk_Address m with
  | Some cur => if (y_APY cur <? mk_SupplyApy m)%float then <[mk_Address m := morpho_rate now m]> best else best
  | None => <[mk_Address m := morpho_rate now m]> best
  end.

Definition best_rates (now : Time) (ms : list market) : gmap string YieldRate := fold_left (better now) ms ∅.

(** The banks of MarginFi and the markets of Kamino: symbol, rate, deposits. *)
Record bank := { bk_Address : string; bk_Symbol : string; bk_Lending : float; bk_Borrow : float; bk_Deposits : float }.

Definition no_bank : bank := {| bk_Address := ""; bk_Symbol := ""; bk_Lending := 0; bk_Borrow := 0; bk_Deposits := 0 |}.

Definition d_bank : decoder bank := d_struct
  [("address", d_field bk_Address (fun x b => {| bk_Address := x; bk_Symbol := bk_Symbol b; bk_Lending := bk_Lending b;
      bk_Borrow := bk_Borrow b; bk_Deposits := bk_Deposits b |}) d_string);
   ("mintSymbol", d_field bk_Symbol (fun x b => {| bk_Address := bk_Address b; bk_Symbol := x; bk_Lending := bk_Lending b;
      bk_Borrow := bk_Borrow b; bk_Deposits := bk_Deposits b |}) d_string);
   ("lendingApy", d_field bk_Lending (fun x b => {| bk_Address := bk_Address b; bk_Symbol := bk_Symbol b; bk_Lending := x;
      bk_Borrow := bk_Borrow b; bk_Deposits := bk_Deposits b |}) d_float);
   ("borrowApy", d_field bk_Borrow (fun x b => {| bk_Address := bk_Address b; bk_Symbol := bk_Symbol b;
      bk_Lending := bk_Lending b; bk_Borrow := x; bk_Deposits := bk_Deposits b |}) d_float);
   ("totalDeposits", d_field bk_Deposits (fun x b => {| bk_Address := bk_Address b; bk_Symbol := bk_Symbol b;
      bk_Lending := bk_Lending b; bk_Borrow := bk_Borrow b; bk_Deposits := x |}) d_float)].

Definition d_banks : decoder (list bank) := d_struct [("banks", d_slice no_bank d_bank)].

(** A reserve of Kamino: symbol, rate and deposits. *)
Definition d_kamino_reserve : decoder (string * float * float) := d_struct
  [("symbol", d_field (fun r => r.1.1) (fun x r => (x, r.1.2, r.2)) d_string);
   ("supplyApy", d_field (fun r => r.1.2) (fun x r => (r.1.1, x, r.2)) d_float);
   ("totalSupplyUsd", d_field (fun r => r.2) (fun x r => (r.1, x)) d_float)].

Definition d_kamino : decoder (list (list (string * float * float))) := d_struct
  [("markets", d_slice [] (d_struct [("reserves", d_slice ("", 0%float, 0%float) d_kamino_reserve)]))].

Definition solana_rate (protocol : string) (now : Time) (asset : string) (apy tvl : float) : YieldRate := {|
  y_Chain := "solana"; y_Protocol := protocol; y_Asset := asset; y_APY := apy; y_TVL := tvl; y_UpdatedAt := now |}.

Definition named_bank (now : Time) (b : bank) : option YieldRate :=
  if str_eqb (bk_Symbol b) "" then None
  else Some (solana_rate "marginfi" now (bk_Symbol b) (bk_Lending b) (bk_Deposits b)).

Definition named_reserve (now : Time) (r : string * float * float) : option YieldRate :=
  if str_eqb r.1.1 "" then None else Some (solana_rate "kamino" now r.1.1 r.1.2 r.2).

Definition defaultMarginFiYieldURL : string := "https://api.marginfi.com/v2/banks".
Definition defaultKaminoYieldURL : string := "https://api.kamino.finance/v2/markets".

Record yieldClient := { marginFiURL : string; kaminoURL : string }.

Definition newYieldClient (extra : gmap string string) : yieldClient := {|
  marginFiURL := extra_or extra "marginfi_yield_url" defaultMarginFiYieldURL;
  kaminoURL := extra_or extra "kamino_yield_url" defaultKaminoYieldURL |}.

Section Yields.
Context {W : Web} (unicode_lower : string -> string).
(** The clock's reading once a response is decoded. *)
Context (now : web_state -> Time).

(** [gqlPost]. *)
Definition gqlPost (url query : string) (variables : list (string * string)) (w : web_state)
    : result string * web_state :=
  roundtrip "" id (gql_request url query variables) w.

Definition fetchAaveRates (c : baseYieldClient) (w : web_state) : result (list YieldRate) * web_state :=
  match gql_data "aave yield: " "graphql: " d_reserves []
          (wrapped "aave yield: %w" (gqlPost (by_aaveURL c) aaveReservesQuery [] w)) with
  | (Fail err, w) => (Fail err, w)
  | (Ok rs, w) => (Ok (map (aave_rate (now w)) rs), w)
  end.

Definition fetchMorphoRates (range : range_order string YieldRate) (c : baseYieldClient) (chainID : Z) (w : web_state)
    : result (list YieldRate) * web_state :=
  match gql_data "morpho yield: " "graphql: " d_markets []
          (wrapped "morpho yield: %w"
             (gqlPost (by_morphoURL c) morphoMarketsQuery [("chainId", Itoa chainID)] w)) with
  | (Fail err, w) => (Fail err, w)
  | (Ok ms, w) => (Ok (range (best_rates (now w) ms)).*2, w)
  end.

(** [do]. *)
Definition yield_do (url : string) (w : web_state) : result string * web_state :=
  roundtrip "" id {| rq_method := "GET"; rq_url := url; rq_headers := [("Accept", "application/json")];
                     rq_body := "" |} w.

Definition fetchMarginFi (y : yieldClient) (w : web_state) : result (list YieldRate) * web_state :=
  match decode_as "marginfi yield: " d_banks [] (wrapped "marginfi yield: %w" (yield_do (marginFiURL y) w)) with
  | (Fail err, w) => (Fail err, w)
  | (Ok bs, w) => (Ok (omap (named_bank (now w)) bs), w)
  end.

Definition fetchKamino (y : yieldClient) (w : web_state) : result (list YieldRate) * web_state :=
  match decode_as "kamino yield: " d_kamino [] (wrapped "kamino yield: %w" (yield_do (kaminoURL y) w)) with
  | (Fail err, w) => (Fail err, w)
  | (Ok ms, w) => (Ok (concat (map (omap (named_reserve (now w))) ms)), w)
  end.

(** [fetch]: protocols it does not know are passed over. *)
Fixpoint fetch (y : yieldClient) (protocols : list string) (w : web_state) : result (list YieldRate) * web_state :=
  match protocols with
  | [] => (Ok [], w)
  | p :: rest =>
      let found :=
        if str_eqb (ToLower unicode_lower p) "marginfi" then fetchMarginFi y w
        else if str_eqb (ToLower unicode_lower p) "kamino" then fetchKamino y w
        else (Ok [], w) in
      match found with
      | (Fail err, w) => (Fail err, w)
      | (Ok rates, w) =>
          match fetch y rest w with
          | (Ok more, w) => (Ok (rates ++ more), w)
          | (Fail err, w) => (Fail err, w)
          end
      end
  end.
End Yields.

(** ** What the feeds make of their responses *)

(** The best rates of the markets [ms] seen. *)
Record best_of (now : Time) (ms : list market) (best : gmap string YieldRate) : Prop := {
  best_seen : forall k r, best !! k = Some r -> exists m, m ∈ ms /\ r = morpho_rate now m /\ k = mk_Address m;
  best_most : forall m, m ∈ ms -> exists r, best !! mk_Address m = Some r /\ frank (mk_SupplyApy m) <= frank (y_APY r);
}.

Lemma best_rate_nan now ms best k r : Forall (fun m => is_nan (mk_SupplyApy m) = false) ms ->
  best_of now ms best -> best !! k = Some r -> is_nan (y_APY r) = false.
Proof. intros Hn [Hs _] Hk. destruct (Hs k r Hk) as (m & Hm & -> & _). rewrite Forall_forall in Hn. by apply Hn. Qed.

(** The market replaces what its asset had, if that is not better. *)
Lemma best_put now ms best m :
  (forall cur, best !! mk_Address m = Some cur -> frank (y_APY cur) <= frank (mk_SupplyApy m)) ->
  best_of now ms best -> best_of now (ms ++ [m]) (<[mk_Address m := morpho_rate now m]> best).
Proof.
  intros Hle [Hs Hm]. split.
  - intros k r [[<- <-]|[_ Hk]]%lookup_insert_Some.
    + exists m. split; [apply elem_of_app; right; by left|done].
    + destruct (Hs k r Hk) as (x & Hx & H). exists x. split; [apply elem_of_app; by left|done].
  - intros x [Hx|Hx]%elem_of_app.
    + destruct (Hm x Hx) as (r & Hr & Hxr). destruct (decide (mk_Address m = mk_Address x)) as [Ex|Ne].
      * exists (morpho_rate now m). rewrite Ex, lookup_insert_eq. split; [done|]. rewrite <- Ex in Hr.
        specialize (Hle r Hr). cbn. lia.
      * exists r. by rewrite lookup_insert_ne.
    + apply list_elem_of_singleton in Hx as ->. exists (morpho_rate now m). rewrite lookup_insert_eq. split; [done|cbn; lia].
Qed.

Lemma best_keep now ms best m cur : best !! mk_Address m = Some cur -> frank (mk_SupplyApy m) <= frank (y_APY cur) ->
  best_of now ms best -> best_of now (ms ++ [m]) best.
Proof.
  intros Hc Hle [Hs Hm]. split.
  - intros k r Hk. destruct (Hs k r Hk) as (x & Hx & H). exists x. split; [apply elem_of_app; by left|done].
  - intros x [Hx|Hx]%elem_of_app; [by apply Hm|]. apply list_elem_of_singleton in Hx as ->. by exists cur.
Qed.

Lemma better_best now ms best m : Forall (fun m => is_nan (mk_SupplyApy m) = false) (ms ++ [m]) ->
  best_of now ms best -> best_of now (ms ++ [m]) (better now best m).
Proof.
  intros [Hn Hm]%Forall_app Hb. rewrite Forall_singleton in Hm. unfold better.
  destruct (best !! mk_Address m) as [cur|] eqn:E.
  - pose proof (best_rate_nan _ _ _ _ _ Hn Hb E) as Hc. pose proof (fltb_rank _ _ Hc Hm) as Hlt.
    destruct (y_APY cur <? mk_SupplyApy m)%float; symmetry in Hlt.
    + apply best_put; [|done]. intros cur' E'. rewrite E in E'. injection E' as <-. lia.
    + apply (best_keep _ _ _ _ cur); [done|lia|done].
  - apply best_put; [|done]. intros cur E'. by rewrite E in E'.
Qed.

Lemma best_rates_best now ms : Forall (fun m => is_nan (mk_SupplyApy m) = false) ms -> best_of now ms (best_rates now ms).
Proof.
  unfold best_rates. induction ms as [|m ms IH] using rev_ind; intros Hn.
  - split; [intros k r Hk; cbn in Hk; by rewrite lookup_empty in Hk|intros m Hm; by apply elem_of_nil in Hm].
  - rewrite fold_left_app. apply better_best; [done|]. apply IH. by apply Forall_app in Hn as [Hn _].
Qed.

(** Morpho's rates, in whatever order the map is visited: one for each asset
    lent, that of a market listed, and none of the asset's markets pays more. *)
Theorem morpho_rates_best range now ms : range_ok range -> Forall (fun m => is_nan (mk_SupplyApy m) = false) ms ->
  let rates := (range (best_rates now ms)).*2 in
  NoDup (y_Asset <$> rates) /\
  (forall r, r ∈ rates -> exists m, m ∈ ms /\ r = morpho_rate now m) /\
  (forall m, m ∈ ms -> exists r, r ∈ rates /\ y_Asset r = mk_Address m /\ (y_APY r <? mk_SupplyApy m)%float = false).
Proof.
  intros Hr Hn rates. pose proof (best_rates_best now ms Hn) as Hb. pose proof Hb as [Hs Hm].
  assert (Hin : forall r, r ∈ rates <-> exists k, best_rates now ms !! k = Some r).
  { intros r. unfold rates. rewrite list_elem_of_fmap. split.
    - intros ([k r'] & -> & H). rewrite (Hr _) in H. exists k. by apply elem_of_map_to_list.
    - intros [k H]. exists (k, r). split; [done|]. rewrite (Hr _). by apply elem_of_map_to_list. }
  split; [|split].
  - assert (E : y_Asset <$> rates = (range (best_rates now ms)).*1).
    { unfold rates. rewrite <- list_fmap_compose. apply list_fmap_ext. intros i [k r] H. cbn.
      apply list_elem_of_lookup_2 in H. rewrite (Hr _) in H. apply elem_of_map_to_list in H.
      by destruct (Hs k r H) as (m & _ & -> & ->). }
    rewrite E. rewrite (fmap_Permutation fst _ _ (Hr _)). apply NoDup_fst_map_to_list.
  - intros r [k H]%Hin. destruct (Hs k r H) as (m & Hx & -> & _). by exists m.
  - intros m Hx. destruct (Hm m Hx) as (r & H & Hle). exists r. split; [apply Hin; by eexists|].
    destruct (Hs _ _ H) as (z & Hz & -> & ->). split; [done|]. rewrite Forall_forall in Hn.
    rewrite fltb_rank; [lia|exact (Hn z Hz)|exact (Hn m Hx)].
Qed.

(** What the quote requests ask for is read back from their URLs, whatever
    the tokens' names hold. *)
Theorem quote_query_read_back base a b amount slip :
  exists q, rq_url (quote_request base a b amount slip) = base +:+ "/quote?" +:+ q /\
    parse_form q = Some [("amount", Itoa amount); ("inputMint", a); ("onlyDirectRoutes", "false");
      ("outputMint", b); ("slippageBps", Itoa (if slip =? 0 then 50 else slip)); ("swapMode", "ExactIn")].
Proof. eexists. split; [reflexivity|]. by apply form_read_back. Qed.

(** ** Samples *)

Definition a_market (address : string) (apy : float) : market := {|
  mk_Key := "k"; mk_Address := address; mk_Symbol := "s"; mk_Decimals := 6; mk_SupplyApy := apy; mk_SupplyUsd := 1 |}.

Lemma morpho_rates_best_witness :
  exists r, r ∈ (map_to_list (best_rates 7 [a_market "0xa" 0.04; a_market "0xb" 0.2; a_market "0xa" 0.05])).*2 /\
    y_Asset r = "0xa" /\ (y_APY r <? 0.05)%float = false.
Proof.
  destruct (morpho_rates_best map_to_list 7 [a_market "0xa" 0.04; a_market "0xb" 0.2; a_market "0xa" 0.05] ltac:(by intros m)
    ltac:(repeat constructor)) as (_ & _ & H).
  apply (H (a_market "0xa" 0.05)). right. right. by left.
Defined.

(** One response for every request. *)
#[local] Instance canned (status : Z) (body : string) : Web := {|
  web_state := list request; web_url := fun _ => None; web_do := fun r log => (Ok (status, Ok body), log ++ [r]) |}.

Definition aave_text : string := write_object [("data", write_object [("userReserves", write_array
  [write_object [("user", write_object [("id", json_string "0xowner")]);
     ("reserve", write_object [("underlyingAsset", json_string "0xusdc"); ("reserveLiquidationBonus", json_string "10500")]);
     ("currentATokenBalance", json_string "2500000000"); ("currentTotalDebt", json_string "not a number")]])])].

(** A debt that does not parse is 0, the health factor always is, and the amount
    is in atoms. *)
Example aave_read :
  (aave_fetchPositions (W := canned 200 aave_text) "" 0 []).1 = Ok [{|
    lp_Chain := "base"; lp_Protocol := "aave"; lp_Owner := "0xowner"; CollateralAsset := "0xusdc";
    CollateralAmt := 2500000000; DebtAsset := "0xusdc"; DebtAmt := 0; HealthFactor := 0; LiquidationBonus := 10500 |}].
Proof. vm_compute. reflexivity. Qed.

Example feed_errors :
  map (fun r => match r with Ok _ => "" | Fail (EMsg m) => m | Fail (EWrap m _) => m end)
    [(aave_fetchPositions (W := canned 429 "slow down") "" 5 []).1;
     (aave_fetchPositions (W := canned 200 "<html>") "" 5 []).1;
     (aave_fetchPositions (W := canned 200 (write_object [("errors", write_array [write_object [("message", json_string "no")]])]))
        "" 5 []).1]
  = ["aave: status 429: slow down"; "aave: decode: %w"; "aave: graphql error: no"].
Proof. vm_compute. reflexivity. Qed.

(** A bonus the comment puts above 10000 is what remains to the whole. *)
Example morpho_bonus : bonus_bps (float_or_zero "860000000000000000" / 1e18)%float = 1400.0000000000002%float.
Proof. vm_compute. reflexivity. Qed.
