(* ===== verification/Amounts.v ===== *)
(** * Amounts ([internal/chain/base.go]; [math], [math/big])

    A token amount is a float to the strategies and a number of atoms to the
    chains.  The conversions of the clients, with the library's arithmetic they
    use: [big.Float] at its precisions, [math.Pow10], [math.Round], the
    conversions to [uint64], and [big.Int]'s parser. *)
From Stdlib Require Import ZArith Lia Floats Ascii.
From stdpp Require Import base list strings.
From S2P Require Import Prelude GoBase GoFmt GoFloat GoRound Json JsonCodec Strconv.
Set Warnings "-inexact-float".
Open Scope Z_scope.

(** [math.Pow10] of a token's decimals: a product of two table entries. *)
Definition Pow10 (n : Z) : float :=
  (round_decimal false 1 (32 * (n / 32)) * round_decimal false 1 (n mod 32))%float.

(** [math.Round]: half away from zero. *)
Definition math_Round (x : float) : float :=
  match Prim2SF x with
  | S754_finite s m e =>
      if 0 <=? e then x
      else round_binary s ((Zpos m + 2 ^ (- e - 1)) / 2 ^ (- e)) 0
  | _ => x
  end.

(** [uint64(f)] on amd64. *)
Definition uint64_of_float (f : float) : Z :=
  if (f <? 9223372036854775808)%float then int_of_float f mod 2 ^ 64
  else Z.lxor (int_of_float (f - 9223372036854775808)%float mod 2 ^ 64) (2 ^ 63).

(** [float64(z)] of a [uint64]. *)
Definition float_of_uint (z : Z) : float := nearest z 0.

(** The binary logarithm of [n / d], rounded down. *)
Definition ratio_log2 (n d : Z) : Z :=
  let l := Z.log2 n - Z.log2 d in
  if n * 2 ^ Z.max (- l) 0 <? d * 2 ^ Z.max l 0 then l - 1 else l.

(** [n / d] rounded to [p] bits, to nearest even: a mantissa and an exponent,
    as a [big.Float] of that precision holds it. *)
Definition big_round (p n d : Z) : Z * Z :=
  if n =? 0 then (0, 0)
  else
    let e := ratio_log2 n d - p + 1 in
    (div_even (n * 2 ^ Z.max (- e) 0) (d * 2 ^ Z.max e 0), e).

(** The precision [SetInt] gives a float. *)
Definition int_prec (z : Z) : Z := Z.max 64 (if z =? 0 then 0 else Z.log2 (Z.abs z) + 1).

(** The quotient of two non-negative [big.Float]s of precisions [p] and [q], as
    a float64. *)
Definition big_quo (p q n d : Z) : float :=
  let '(m, e) := big_round (Z.max p q) n d in nearest m e.

Definition weiToEther (wei : option Z) : float :=
  match wei with
  | None => 0%float
  | Some wei => big_quo (int_prec wei) 53 wei (10 ^ 18)
  end.

Definition bigPow10 (n : Z) : Z := Nat.iter (Z.to_nat n) (fun out => out * 10) 1.

Definition atomicToFloat (atomic decimals : Z) : float :=
  big_quo (int_prec atomic) (int_prec (bigPow10 decimals)) atomic (bigPow10 decimals).

(** [big.NewFloat] panics on NaN; the [Int] of an infinity is nil, which prints
    as below. *)
Inductive bigint := BigInt (z : Z) | BigNil.

Definition big_text (b : bigint) : string := match b with BigInt z => Itoa z | BigNil => "<nil>" end.

Definition floatToAtomic (amount : float) (decimals : Z) : result bigint :=
  match Prim2SF amount with
  | S754_nan => Fail (EMsg "panic: NewFloat(NaN)")
  | S754_infinity _ => Ok BigNil
  | S754_zero _ => Ok (BigInt 0)
  | S754_finite s m e =>
      let ten := bigPow10 decimals in
      let '(p, k) := big_round (Z.max 53 (int_prec ten)) (Zpos m * 2 ^ Z.max e 0 * ten) (2 ^ Z.max (- e) 0) in
      let whole := p * 2 ^ Z.max k 0 / 2 ^ Z.max (- k) 0 in
      Ok (BigInt (if s then - whole else whole))
  end.

(** [new(big.Int).SetString(s, 10)]. *)
Definition SetString10 (s : string) : option Z :=
  let neg := match s with String c _ => byte c =? 45 | EmptyString => false end in
  let ds := skip_sign s in
  if all_digits ds && negb (str_eqb ds "")
  then Some (let z := digits_value 0 ds in if neg then - z else z) else None.

(** A digit's value in the bases up to 36. *)
Definition digit36 (c : ascii) : option Z :=
  if is_digit c then Some (byte c - 48)
  else if between 97 (byte c) 122 then Some (byte c - 87)
  else if between 65 (byte c) 90 then Some (byte c - 55)
  else None.

(** The digits of [new(big.Int).SetString(s, 0)]: [prev] is the character
    before, a digit's ['0'], an underscore or another. *)
Fixpoint big_digits (base : Z) (acc count : Z) (prev : ascii) (s : string) : option (Z * Z) :=
  match s with
  | EmptyString => if Ascii.eqb prev "_" then None else Some (acc, count)
  | String c s' =>
      if Ascii.eqb c "_" then if Ascii.eqb prev "0" then big_digits base acc count "_" s' else None
      else
        match digit36 c with
        | Some d => if d <? base then big_digits base (acc * base + d) (count + 1) "0" s' else None
        | None => None
        end
  end.

Definition SetString0 (s : string) : option Z :=
  let neg := match s with String c _ => byte c =? 45 | EmptyString => false end in
  let counted (r : option (Z * Z)) :=
    match r with Some (z, count) => if count =? 0 then None else Some (if neg then - z else z) | None => None end in
  match skip_sign s with
  | String z rest =>
      if byte z =? 48 then
        match rest with
        | EmptyString => Some 0
        | String x rest' =>
            if lower x =? 98 then counted (big_digits 2 0 0 "0" rest')
            else if lower x =? 111 then counted (big_digits 8 0 0 "0" rest')
            else if lower x =? 120 then counted (big_digits 16 0 0 "0" rest')
            else counted (big_digits 8 0 0 "0" rest)
        end
      else counted (big_digits 10 0 0 "." (String z rest))
  | EmptyString => None
  end.


(** ** How close they are *)

Lemma ratio_log2_spec n d : 0 < n -> 0 < d ->
  let l := ratio_log2 n d in
  d * 2 ^ Z.max l 0 <= n * 2 ^ Z.max (- l) 0 /\ n * 2 ^ Z.max (- l) 0 < 2 * (d * 2 ^ Z.max l 0).
Proof.
  intros Hn Hd l. destruct (Z.log2_spec n Hn) as [Hn1 Hn2]. destruct (Z.log2_spec d Hd) as [Hd1 Hd2].
  pose proof (Z.log2_nonneg n). pose proof (Z.log2_nonneg d). subst l. unfold ratio_log2.
  set (a := Z.log2 n) in *. set (b := Z.log2 d) in *.
  (* both sides at the scale of [2 ^ a * 2 ^ b] *)
  assert (Hscale : 2 ^ a * 2 ^ Z.max (- (a - b)) 0 = 2 ^ b * 2 ^ Z.max (a - b) 0).
  { rewrite <- !Z.pow_add_r by lia. f_equal. lia. }
  rewrite Z.pow_succ_r in Hn2, Hd2 by lia.
  assert (Hp : 0 < 2 ^ Z.max (a - b) 0 /\ 0 < 2 ^ Z.max (- (a - b)) 0 /\ 0 < 2 ^ a /\ 0 < 2 ^ b)
    by (repeat split; apply Z.pow_pos_nonneg; lia).
  destruct Hp as (P1 & P2 & P3 & P4).
  set (X := 2 ^ Z.max (a - b) 0) in *. set (Y := 2 ^ Z.max (- (a - b)) 0) in *.
  destruct (Z.ltb_spec (n * Y) (d * X)) as [Hlt|Hle].
  - (* one less *)
    destruct (Z_le_gt_dec (a - b) 0) as [Hs|Hs].
    + assert (EX : X = 1) by (unfold X; rewrite Z.max_r by lia; reflexivity).
      assert (EY : 2 ^ Z.max (- (a - b - 1)) 0 = 2 * Y)
        by (unfold Y; rewrite !Z.max_l by lia; rewrite <- Z.pow_succ_r by lia; f_equal; lia).
      rewrite EY. replace (Z.max (a - b - 1) 0) with 0 by lia. nia.
    + assert (EY : Y = 1) by (unfold Y; rewrite Z.max_r by lia; reflexivity).
      assert (EX : X = 2 * 2 ^ Z.max (a - b - 1) 0)
        by (unfold X; rewrite !Z.max_l by lia; rewrite <- Z.pow_succ_r by lia; f_equal; lia).
      replace (Z.max (- (a - b - 1)) 0) with 0 by lia. set (X' := 2 ^ Z.max (a - b - 1) 0) in *. nia.
  - split; [exact Hle|]. nia.
Qed.

Lemma div_even_spec n d : 0 < d -> 2 * Z.abs (div_even n d * d - n) <= d.
Proof.
  intros Hd. pose proof (Z.div_mod n d ltac:(lia)) as E. pose proof (Z.mod_pos_bound n d Hd).
  unfold div_even. destruct (Z.ltb_spec (2 * (n mod d)) d); [nia|]. destruct (Z.ltb_spec d (2 * (n mod d))); [nia|].
  destruct (Z.even _); nia.
Qed.

(** A rounding to [p] bits is within one part in [2^p]. *)
Lemma big_round_close p n d m e : 0 < p -> 0 <= n -> 0 < d -> big_round p n d = (m, e) ->
  Z.abs (m * (d * 2 ^ Z.max e 0) - n * 2 ^ Z.max (- e) 0) * 2 ^ p <= n * 2 ^ Z.max (- e) 0.
Proof.
  intros Hp Hn Hd. unfold big_round. destruct (Z.eqb_spec n 0) as [-> |Hn0]; [intros [= <- <-]; cbn; lia|].
  set (e0 := ratio_log2 n d - p + 1). intros [= <- <-].
  destruct (ratio_log2_spec n d ltac:(lia) Hd) as [Hl _]. set (l := ratio_log2 n d) in *.
  set (N := n * 2 ^ Z.max (- e0) 0). set (D := d * 2 ^ Z.max e0 0).
  assert (HD : 0 < D) by (unfold D; apply Z.mul_pos_pos; [lia|apply Z.pow_pos_nonneg; lia]).
  assert (Hb : D * 2 ^ (p - 1) <= N).
  { (* scale [l] down to [e0 = l - (p - 1)] *)
    assert (Hs : 2 ^ Z.max e0 0 * 2 ^ (p - 1) * 2 ^ Z.max (- l) 0 = 2 ^ Z.max l 0 * 2 ^ Z.max (- e0) 0)
      by (rewrite <- !Z.pow_add_r by lia; f_equal; unfold e0; lia).
    assert (Hpl : 0 < 2 ^ Z.max (- l) 0) by (apply Z.pow_pos_nonneg; lia).
    assert (Hpe : 0 < 2 ^ Z.max (- e0) 0) by (apply Z.pow_pos_nonneg; lia).
    unfold D, N. apply (Z.mul_le_mono_pos_r _ _ _ Hpl).
    replace (d * 2 ^ Z.max e0 0 * 2 ^ (p - 1) * 2 ^ Z.max (- l) 0)
      with (d * (2 ^ Z.max e0 0 * 2 ^ (p - 1) * 2 ^ Z.max (- l) 0)) by ring.
    rewrite Hs. nia. }
  pose proof (div_even_spec N D HD) as Hr. fold N D.
  replace (2 ^ p) with (2 * 2 ^ (p - 1)) by (rewrite <- Z.pow_succ_r by lia; f_equal; lia).
  assert (0 < 2 ^ (p - 1)) by (apply Z.pow_pos_nonneg; lia). nia.
Qed.

Lemma bigPow10_pow d : 0 <= d -> bigPow10 d = 10 ^ d.
Proof.
  intros Hd. unfold bigPow10. rewrite <- (Z2Nat.id d) at 2 by done. induction (Z.to_nat d) as [|n IH]; [done|].
  rewrite Nat.iter_succ, IH, Nat2Z.inj_succ, Z.pow_succ_r by lia. lia.
Qed.

(** From a rounded quotient to the whole part of it. *)
Lemma whole_close X n d q K1 K2 P M z : 0 < d -> 0 < K2 -> 0 < M -> 2 ^ 64 <= P ->
  X * d = n * M -> Z.abs (q * (d * K1) - n * K2) * P <= n * K2 -> z * K2 <= q * K1 < (z + 1) * K2 ->
  2 ^ 64 * (z * M) <= (2 ^ 64 + 1) * X /\ (2 ^ 64 - 1) * X < 2 ^ 64 * ((z + 1) * M).
Proof.
  intros Hd HK HM HP HX Hq [Hz1 Hz2]. assert (HQ : 0 < 2 ^ 64) by lia. set (Q := 2 ^ 64) in *. clearbody Q.
  assert (Ha : Z.abs (q * (d * K1) - n * K2) * Q <= n * K2) by (pose proof (Z.abs_nonneg (q * (d * K1) - n * K2)); nia).
  assert (H1 : q * K1 * d * Q <= n * K2 * (Q + 1)) by nia.
  assert (H2 : n * K2 * (Q - 1) <= q * K1 * d * Q) by nia.
  assert (Hdq : 0 < d * Q) by nia.
  assert (H3 : z * K2 * (d * Q) <= q * K1 * (d * Q)) by (apply Z.mul_le_mono_nonneg_r; lia).
  assert (H4 : q * K1 * (d * Q) < (z + 1) * K2 * (d * Q)) by (apply Z.mul_lt_mono_pos_r; lia).
  assert (H5 : z * d * Q <= n * (Q + 1)) by (apply (Z.mul_le_mono_pos_r _ _ K2 HK); lia).
  assert (H6 : n * (Q - 1) < (z + 1) * d * Q) by (apply (Z.mul_lt_mono_pos_r K2); lia).
  split.
  - apply (Z.mul_le_mono_pos_r _ _ d Hd). replace (Q * (z * M) * d) with (z * d * Q * M) by ring.
    replace ((Q + 1) * X * d) with (n * (Q + 1) * M) by (transitivity ((Q + 1) * (X * d)); [rewrite HX; ring|ring]).
    apply Z.mul_le_mono_nonneg_r; lia.
  - apply (Z.mul_lt_mono_pos_r d); [lia|]. replace (Q * ((z + 1) * M) * d) with ((z + 1) * d * Q * M) by ring.
    replace ((Q - 1) * X * d) with (n * (Q - 1) * M) by (transitivity ((Q - 1) * (X * d)); [rewrite HX; ring|ring]).
    apply Z.mul_lt_mono_pos_r; lia.
Qed.

(** A positive finite float. *)
Lemma positive_cases x : is_fin x = true -> 0 < frank x ->
  exists m e, Prim2SF x = S754_finite false m e /\ frank x = mag (Zpos m) e /\ -1074 <= e.
Proof.
  unfold is_fin, frank. intros Hf Hr. pose proof (Prim2SF_valid x) as V.
  destruct (Prim2SF x) as [s|s| |s m e] eqn:E; cbn [sf_rank cond_Zopp] in Hr; try done.
  apply valid_finite in V as [Hc _]. apply canonical_emin in Hc. pose proof (mag_pos m e Hc).
  destruct s; cbn [cond_Zopp] in Hr; [lia|]. by exists m, e.
Qed.

(** C34: The atoms [floatToAtomic] makes of a positive amount are the amount
    scaled by the token's decimals, cut off, to within one part in [2^64]: never
    more than that above it, and never more than an atom and that below. *)
Theorem atoms_close amount d : is_fin amount = true -> 0 < frank amount -> 0 <= d ->
  exists z, floatToAtomic amount d = Ok (BigInt z) /\
    2 ^ 64 * (z * 2 ^ 1074) <= (2 ^ 64 + 1) * (frank amount * 10 ^ d) /\
    (2 ^ 64 - 1) * (frank amount * 10 ^ d) < 2 ^ 64 * ((z + 1) * 2 ^ 1074).
Proof.
  intros Hf Hr Hd. destruct (positive_cases amount Hf Hr) as (m & e & E & -> & He).
  unfold floatToAtomic. rewrite E, bigPow10_pow by done. set (T := 10 ^ d).
  assert (HT : 0 < T) by (apply Z.pow_pos_nonneg; lia).
  set (p := Z.max 53 (int_prec T)). assert (Hp : 64 <= p) by (unfold p, int_prec; lia).
  assert (Hpow : forall k, 0 < 2 ^ Z.max k 0) by (intros k; apply Z.pow_pos_nonneg; lia).
  destruct (big_round p _ _) as [q k] eqn:Eb. eexists. split; [reflexivity|].
  pose proof (Hpow e). pose proof (Hpow (- e)). pose proof (Hpow (- k)).
  apply big_round_close in Eb; [|lia|nia|done].
  apply (whole_close _ (Zpos m * 2 ^ Z.max e 0 * T) (2 ^ Z.max (- e) 0) q (2 ^ Z.max k 0) (2 ^ Z.max (- k) 0) (2 ^ p)).
  - done.
  - done.
  - by apply Z.pow_pos_nonneg.
  - apply Z.pow_le_mono_r; lia.
  - unfold mag. assert (Es : 2 ^ (e + 1074) * 2 ^ Z.max (- e) 0 = 2 ^ Z.max e 0 * 2 ^ 1074)
      by (rewrite <- !Z.pow_add_r by lia; f_equal; lia).
    transitivity (Zpos m * T * (2 ^ (e + 1074) * 2 ^ Z.max (- e) 0)); [ring|rewrite Es; ring].
  - exact Eb.
  - set (K2 := 2 ^ Z.max (- k) 0) in *. pose proof (Z.div_mod (q * 2 ^ Z.max k 0) K2 ltac:(lia)).
    pose proof (Z.mod_pos_bound (q * 2 ^ Z.max k 0) K2 ltac:(lia)). nia.
Qed.

Lemma atoms_close_witness : exists z, floatToAtomic 0.29 6 = Ok (BigInt z) /\
  2 ^ 64 * (z * 2 ^ 1074) <= (2 ^ 64 + 1) * (frank 0.29%float * 10 ^ 6) /\
  (2 ^ 64 - 1) * (frank 0.29%float * 10 ^ 6) < 2 ^ 64 * ((z + 1) * 2 ^ 1074).
Proof. apply (atoms_close 0.29 6); [vm_compute; reflexivity|vm_compute; reflexivity|lia]. Defined.

(** Twenty-nine cents of a token of six decimals are an atom short on Base, and
    whole on Solana. *)
Example atoms_cut_off :
  floatToAtomic 0.29 6 = Ok (BigInt 289999) /\
  uint64_of_float (math_Round (0.29 * Pow10 6)%float) = 290000.
Proof. vm_compute. by split. Qed.

Example amounts_converted :
  (weiToEther (Some 1500000000000000000), atomicToFloat 290000 6, math_Round (-2.5), math_Round 0.49999999999999994)
    = (1.5, 0.29, -3, 0)%float /\
  map uint64_of_float [9223372036854775808; 18446744073709549568; 2.9; -1]%float
    = [9223372036854775808; 18446744073709549568; 2; 18446744073709551615] /\
  floatToAtomic infinity 6 = Ok BigNil.
Proof. vm_compute. repeat split. Qed.

(** [SetString] with base 0 takes a prefix for the base, without it decimal. *)
Example set_strings :
  map SetString0 ["0x10"; "10"; "017"; "0"; "08"; "0b1_1"; "-5"; "de0b6b3a7640000"; "1__0"; ""]
    = [Some 16; Some 10; Some 15; Some 0; None; Some 3; Some (-5); None; None; None] /\
  map SetString10 ["10"; "-7"; "1_0"; ""] = [Some 10; Some (-7); None; None].
Proof. vm_compute. by split. Qed.
