(* ===== verification/ChainClients.v ===== *)
(** * The chain clients ([internal/chain/solana.go], [base.go])

    What the clients ask of the networks and what they send: every request, read,
    simulation and submission is an entry of a log, and the networks answer as
    the log so far has it.  Transactions, addresses and the RPC libraries are
    interfaces.  A context is its dry-run flag. *)
From Stdlib Require Import ZArith Lia Floats Ascii.
From stdpp Require Import base list strings gmap.
From S2P Require Import Prelude GoBase GoFmt GoFloat GoRound Json JsonCodec Strconv Encodings Task Security Wallets LendingAccounts Feeds Amounts.
Set Warnings "-inexact-float".
Open Scope Z_scope.

Create HintDb chain.

(** ** Effects *)

Inductive effect (Tx : Type) :=
  | FxRequest (r : request)
  | FxRead (method : string) (args : list string)
  | FxSimulate (tx : Tx)
  | FxSend (tx : Tx).
Arguments FxRequest {_} _.
Arguments FxRead {_} _ _.
Arguments FxSimulate {_} _.
Arguments FxSend {_} _.

(** What a log submits. *)
Definition sent {Tx} (log : list (effect Tx)) : list Tx :=
  omap (fun f => match f with FxSend tx => Some tx | _ => None end) log.

(** A call of a client: it may fail, and leaves a state. *)
Definition io (S A : Type) : Type := S -> result A * S.

Definition ret {S A} (x : A) : io S A := fun s => (Ok x, s).

Definition bind {S A B} (m : io S A) (k : A -> io S B) : io S B := fun s =>
  match m s with
  | (Ok x, s) => k x s
  | (Fail err, s) => (Fail err, s)
  end.

(** [fmt.Errorf("what: %w", err)]. *)
Definition context {S A} (what : string) (m : io S A) : io S A := fun s =>
  match m s with
  | (Fail err, s) => (Fail (EWrap what err), s)
  | r => r
  end.

Definition pure {S A} (r : result A) : io S A := fun s => (r, s).

Declare Scope chain_scope.
Delimit Scope chain_scope with chain.
Notation "'do!' x := m 'in' k" := (bind m (fun x => k))
  (at level 10, x binder, m at level 100, k at level 200) : chain_scope.
Open Scope chain_scope.

(** The sum of a list of calls' answers, in order. *)
Fixpoint each {S A B} (f : A -> io S B) (l : list A) : io S (list B) :=
  match l with
  | [] => ret []
  | x :: l' => do! y := f x in do! ys := each f l' in ret (y :: ys)
  end.

(** A client and the log: reading the client, an effect and what answers it, and
    a feed's call, which works on the log. *)
Section Steps.
Context {C Tx : Type}.

Definition get : io (C * list (effect Tx)) C := fun s => (Ok s.1, s).

Definition act {B} (f : effect Tx) (reply : list (effect Tx) -> result B) : io (C * list (effect Tx)) B := fun s =>
  (reply s.2, (s.1, s.2 ++ [f])).

Definition feed {B} (m : list (effect Tx) -> result B * list (effect Tx)) : io (C * list (effect Tx)) B := fun s =>
  let '(r, log) := m s.2 in (r, (s.1, log)).
End Steps.

(** ** Transactions *)

Record Transaction := { t_Chain : string; t_Raw : string }.

Record SimResult := { WouldSucceed : bool; ExpectedOutput : float; GasEstimate : Z; sim_ErrorMsg : string }.

Definition sim_result (ok : bool) (gas : Z) (msg : string) : SimResult := {|
  WouldSucceed := ok; ExpectedOutput := 0; GasEstimate := gas; sim_ErrorMsg := msg |}.

(** A result of [gas] units. *)
Definition sent_result (signature : string) (gas : Z) : TxResult := {|
  tx_Signature := signature; tx_Success := true; tx_GasUsed := gas; tx_GasPriceWei := 0;
  tx_FeePaidUSD := 0; tx_BlockNumber := 0; tx_ErrorMsg := "" |}.

(** [chain.Config]. *)
Record ChainConfig := {
  cc_Network : string;
  cc_RPCURL : string;
  cc_Extra : gmap string string;
}.

(** The master key of a configuration, if it holds one. *)
Definition master_key (who : string) (extra : gmap string string) : result string :=
  let mk := default "" (extra !! "master_key_hex") in
  if str_eqb mk "" then Ok ""
  else
    match hex_DecodeString mk with
    | Fail err => Fail (EWrap (who +:+ ": master_key_hex: %w") err)
    | Ok raw =>
        if negb (str_len raw =? masterKeySize) then Fail (EMsg (who +:+ ": master key must be %d bytes, got %d"))
        else Ok raw
    end.

(** The paper trade of a liquidation, the same on both chains. *)
Definition paper_liquidation (unicode_lower : string -> string) (who : string) (pos : option LendingPosition)
    (wallet : option Wallet) : result TxResult :=
  match pos with
  | None => Fail (EMsg (who +:+ ": ExecuteLiquidation nil position"))
  | Some pos =>
      match wallet with
      | None => Fail (EMsg (who +:+ ": ExecuteLiquidation nil wallet"))
      | Some _ =>
          let bonus := (CollateralAmt pos * LiquidationBonus pos / 10000)%float in
          Ok (sent_result ("devnet-paper-liq-" +:+ ToLower unicode_lower (lp_Protocol pos))
                (uint64_of_float (bonus * 100)%float))
      end
  end.

(** ** Calls that submit nothing *)

Lemma sent_app {Tx} (l k : list (effect Tx)) : sent (l ++ k) = sent l ++ sent k.
Proof. unfold sent. by rewrite omap_app. Qed.

(** What a bind did: it failed first, or went on. *)
Lemma bind_case {S A B} (m : io S A) (k : A -> io S B) s :
  (exists err, bind m k s = (Fail err, (m s).2) /\ (m s).1 = Fail err) \/
  (exists x, (m s).1 = Ok x /\ bind m k s = k x (m s).2).
Proof. unfold bind. destruct (m s) as [[x|err] t]; [right; by exists x|left; by exists err]. Qed.

Lemma bind_pure {S A B} what (r : result A) (k : A -> io S B) s :
  bind (context what (pure r)) k s = match r with Ok x => k x s | Fail err => (Fail (EWrap what err), s) end.
Proof. unfold bind, context, pure. by destruct r. Qed.

Definition unsent {Tx B} (r : result B * list (effect Tx)) (log : list (effect Tx)) : Prop := sent r.2 = sent log.

Section Quiet.
Context {C Tx V : Type} (view : C -> V).

(** [m] submits nothing and leaves what [view] sees of the client. *)
Definition quiet {B} (m : io (C * list (effect Tx)) B) : Prop := forall s,
  sent (m s).2.2 = sent s.2 /\ view (m s).2.1 = view s.1.

Lemma quiet_pure {B} (r : result B) : quiet (pure r).
Proof. by split. Qed.

Lemma quiet_ret {B} (x : B) : quiet (ret x).
Proof. by split. Qed.

Lemma quiet_bind {A B} (m : io _ A) (k : A -> io _ B) : quiet m -> (forall x, quiet (k x)) -> quiet (bind m k).
Proof.
  intros Hm Hk s. unfold bind. specialize (Hm s). destruct (m s) as [[x|err] t]; [|done].
  destruct (Hk x t) as [H1 H2]. destruct Hm as [H3 H4]. cbn in *. split; congruence.
Qed.

Lemma quiet_context {B} what (m : io _ B) : quiet m -> quiet (context what m).
Proof. intros Hm s. unfold context. specialize (Hm s). by destruct (m s) as [[x|err] t]. Qed.

Lemma quiet_each {A B} (f : A -> io _ B) l : (forall x, quiet (f x)) -> quiet (each f l).
Proof.
  intros Hf. induction l as [|x l IH]; [apply quiet_ret|]. cbn [each]. apply quiet_bind; [done|]. intros y.
  apply quiet_bind; [done|]. intros ys. apply quiet_ret.
Qed.
Lemma quiet_act {B} f (reply : list (effect Tx) -> result B) : sent [f] = [] -> quiet (act f reply).
Proof. intros H s. split; [|done]. unfold act. cbn [fst snd]. by rewrite sent_app, H, app_nil_r. Qed.

Lemma quiet_get : quiet get.
Proof. by split. Qed.

Lemma quiet_feed {B} (m : list (effect Tx) -> result B * list (effect Tx)) :
  (forall log, unsent (m log) log) -> quiet (feed m).
Proof. intros H s. unfold feed. specialize (H s.2). by destruct (m s.2) as [r log]. Qed.

Lemma quiet_read {B} method args (reply : list (effect Tx) -> result B) : quiet (act (FxRead method args) reply).
Proof. by apply quiet_act. Qed.

(** *** Calls that submit *)

Context {Call : Type} (authorized : V -> Call -> Tx -> Prop).

(** [s'] after a call: [view] sees the same, and at most one transaction more is
    submitted, an authorized one and not in a dry run. *)
Definition stepped (dry : bool) (c : Call) (s s' : C * list (effect Tx)) : Prop :=
  view s'.1 = view s.1 /\
  (sent s'.2 = sent s.2 \/
   (dry = false /\ exists tx, sent s'.2 = sent s.2 ++ [tx] /\ authorized (view s.1) c tx)).

Lemma stepped_refl dry c s : stepped dry c s s.
Proof. split; [done|by left]. Qed.

Lemma quiet_stepped {B} dry c s (m : io (C * list (effect Tx)) B) : quiet m -> stepped dry c s (m s).2.
Proof. intros H. destruct (H s) as [H1 H2]. split; [exact H2|by left]. Qed.

(** The first quiet part of a call. *)
Lemma stepped_bind {A B} dry c s (m : io (C * list (effect Tx)) A) (k : A -> io _ B) : quiet m ->
  (forall x, (m s).1 = Ok x -> view (m s).2.1 = view s.1 -> stepped dry c (m s).2 (k x (m s).2).2) ->
  stepped dry c s (bind m k s).2.
Proof.
  intros Hm Hk. destruct (Hm s) as [H1 H2]. destruct (bind_case m k s) as [(err & -> & _)|(x & Hx & ->)].
  - split; [exact H2|by left].
  - destruct (Hk x Hx H2) as [H3 H4]. unfold stepped. rewrite <- H1, <- H2. by split.
Qed.

(** The end of a call that submits. *)
Lemma stepped_send {A B} c s what (reply : list (effect Tx) -> result A) (k : A -> B) tx :
  authorized (view s.1) c tx ->
  stepped false c s (bind (context what (act (FxSend tx) reply)) (fun x => ret (k x)) s).2.
Proof.
  intros Ha. assert (H : sent (s.2 ++ [FxSend tx]) = sent s.2 ++ [tx]) by (by rewrite sent_app).
  unfold bind, context, act. destruct (reply s.2); (split; [done|right; split; [done|]]; exists tx; by split).
Qed.

(** Calls, each under a context that is a dry run or not, and those that are
    none. *)
Definition session_of (after : bool -> Call -> C * list (effect Tx) -> C * list (effect Tx)) (s : C * list (effect Tx))
    (calls : list (bool * Call)) : C * list (effect Tx) :=
  fold_left (fun s c => after c.1 c.2 s) calls s.

Definition live_calls (calls : list (bool * Call)) : list Call :=
  omap (fun c => if c.1 : bool then None else Some c.2) calls.

(** What [calls] submit between [s] and [s']: a transaction a call at most, each
    authorized, none in a dry run. *)
Definition submitted (calls : list (bool * Call)) (s s' : C * list (effect Tx)) : Prop :=
  exists txs : list (Call * Tx), sent s'.2 = sent s.2 ++ txs.*2 /\
    txs.*1 `sublist_of` live_calls calls /\ Forall (fun p => authorized (view s.1) p.1 p.2) txs.

Lemma session_submitted after calls : (forall dry c s, stepped dry c s (after dry c s)) ->
  forall s, submitted calls s (session_of after s calls).
Proof.
  intros Hafter. induction calls as [|[dry c] calls IH]; intros s.
  { exists []. cbn. by rewrite app_nil_r. }
  cbn [session_of fold_left]. destruct (IH (after dry c s)) as (txs & Ht & Hl & Ha).
  destruct (Hafter dry c s) as [Hm [Hs|(Hd & tx & Hs & Hauth)]]; unfold session_of in Ht; cbn [fst snd].
  - exists txs. rewrite Ht, Hs. split; [done|]. rewrite Hm in Ha. split; [|done].
    unfold live_calls. cbn. destruct dry; [exact Hl|]. by apply sublist_cons.
  - subst dry. exists ((c, tx) :: txs). rewrite Ht, Hs, <- app_assoc. split; [done|]. rewrite Hm in Ha. split; [|by constructor].
    unfold live_calls. cbn. by apply sublist_skip.
Qed.
End Quiet.

(** The feeds' exchanges go to the log. *)
Section FeedLog.
Context {Tx : Type} (bad : string -> option gerror) (reply : list (effect Tx) -> request -> result (Z * result string)).

Definition log_web : Web := {|
  web_state := list (effect Tx);
  web_url := bad;
  web_do := fun r log => (reply log r, log ++ [FxRequest r]) |}.

#[local] Existing Instance log_web.

Lemma roundtrip_unsent who sending req log : unsent (roundtrip (W := log_web) who sending req log) log.
Proof.
  unfold roundtrip, unsent. cbn [web_url web_do log_web]. destruct (bad _); [done|].
  assert (H : sent (log ++ [FxRequest req]) = sent log) by (by rewrite sent_app, app_nil_r).
  destruct (reply log req) as [[status [body|err]]|err]; [|exact H|exact H]. by destruct (negb _).
Qed.

Lemma decode_unsent {B} who (d : decoder B) zero r log : unsent r log -> unsent (decode_as (W := log_web) who d zero r) log.
Proof. unfold decode_as. destruct r as [[body|err] w]; [|done]. by destruct (Unmarshal d zero body). Qed.

Lemma wrapped_unsent {B} what (r : result B * list (effect Tx)) log : unsent r log -> unsent (wrapped (W := log_web) what r) log.
Proof. unfold wrapped. by destruct r as [[body|err] w]. Qed.

Lemma gql_unsent {B} who shown (d : decoder B) zero r log : unsent r log -> unsent (gql_data (W := log_web) who shown d zero r) log.
Proof.
  intros H. unfold gql_data. pose proof (decode_unsent who (d_gql d) (zero, []) r log H) as H1.
  by destruct (decode_as (W := log_web) who (d_gql d) (zero, []) r) as [[[x [|msg msgs]]|err] w].
Qed.
End FeedLog.
#[export] Hint Resolve roundtrip_unsent decode_unsent wrapped_unsent gql_unsent : chain.
#[export] Hint Resolve quiet_pure quiet_ret quiet_bind quiet_context quiet_each quiet_get quiet_read : chain.

(** The first exchange of a feed's call. *)
Ltac exchanged := match goal with
  | |- context [@decode_as ?W ?T ?w ?d ?z ?r] =>
      let H := fresh "H" in
      assert (H : unsent (@decode_as W T w d z r) _) by (apply decode_unsent; try apply wrapped_unsent; apply roundtrip_unsent);
      destruct (@decode_as W T w d z r) as [[?|?] ?]
  | |- context [@roundtrip ?W ?w ?f ?r ?log] =>
      let H := fresh "H" in
      assert (H : unsent (@roundtrip W w f r log) log) by apply roundtrip_unsent;
      destruct (@roundtrip W w f r log) as [[?|?] ?]
  end.

(** ** Solana *)

Module Solana.

(** [solana-go] and its RPC, answering as the log so far has it; the transport
    below the HTTP feeds and the iteration's clock too. *)
Class Net (K : Type) := {
  Tx : Type;
  TransactionFromBytes : string -> result Tx;
  Sign : (string -> option K) -> Tx -> result Tx;
  url_error : string -> option gerror;
  answer : list (effect Tx) -> request -> result (Z * result string);
  clock : list (effect Tx) -> Time;
  GetBalance_ : list (effect Tx) -> string -> result Z;
  GetTokenAccountsByOwner : list (effect Tx) -> string -> string -> result (list string);
  GetTokenAccountBalance : list (effect Tx) -> string -> result (string * Z);
  GetTokenSupply : list (effect Tx) -> string -> result (option Z);
  Simulate : list (effect Tx) -> Tx -> result (option (option string));
  Send : list (effect Tx) -> Tx -> result string;
}.

Record SolanaClient := {
  network : string;
  rpcURL : string;
  jupiter : string;
  yield : yieldClient;
  masterKey : string;
  mintCache : gmap string Z;
}.

Definition DevNet_RPC : string := "https://api.devnet.solana.com".
Definition wrappedSOLMint : string := "So11111111111111111111111111111111111111112".

Definition solanaFactory (cfg : ChainConfig) : result SolanaClient :=
  if str_eqb (cc_Network cfg) "mainnet" then Fail (EMsg "solana: mainnet disabled")
  else
    match master_key "solana" (cc_Extra cfg) with
    | Fail err => Fail err
    | Ok mk =>
        Ok {| network := if str_eqb (cc_Network cfg) "" then "devnet" else cc_Network cfg;
              rpcURL := if str_eqb (cc_RPCURL cfg) "" then DevNet_RPC else cc_RPCURL cfg;
              jupiter := newJupiterClient (default "" (cc_Extra cfg !! "jupiter_url"));
              yield := newYieldClient (cc_Extra cfg);
              masterKey := mk;
              mintCache := <["Es9vMFrzaCERmJfrF4H2FYD4KCoNkY11McCe8BenwNYB" := 6]>
                (<["EPjFWdd5AufqSSqeM2qN1xzybapC8G4wEGGkZwyTDt1v" := 6]> (<[wrappedSOLMint := 9]> ∅)) |}
    end.

Section Client.
Context {E : Ed25519} {N : Net SolKey} {A : AEAD} {Acc : Accounts}.
Context (unicode_lower : string -> string).

Definition state : Type := SolanaClient * list (effect Tx).

#[local] Instance web : Web := log_web url_error answer.

Definition cache_mint (mint : string) (decimals : Z) : io state unit := fun s =>
  let c := s.1 in
  (Ok tt, ({| network := network c; rpcURL := rpcURL c; jupiter := jupiter c; yield := yield c;
              masterKey := masterKey c; mintCache := <[mint := decimals]> (mintCache c) |}, s.2)).

Definition GetBalance (address : string) : io state float :=
  do! pk := context "solana: parse address: %w" (pure (PublicKeyFromBase58 address)) in
  do! lamports := context "solana: getBalance: %w" (act (FxRead "getBalance" [pk]) (fun log => GetBalance_ log pk)) in
  ret (float_of_uint lamports / 1e9)%float.

(** The balance of one account. *)
Definition account_balance (tokenAddr acct : string) : io state float :=
  do! bal := context "solana: getTokenAccountBalance: %w"
    (act (FxRead "getTokenAccountBalance" [acct]) (fun log => GetTokenAccountBalance log acct)) in
  match ParseFloat bal.1 with
  | (_, Some err) => pure (Fail (EWrap "solana: parse amount: %w" err))
  | (amt, None) =>
      do! _ := cache_mint tokenAddr bal.2 in
      ret (amt / Pow10 bal.2)%float
  end.

Definition GetTokenBalance (address tokenAddr : string) : io state float :=
  do! owner := context "solana: parse owner: %w" (pure (PublicKeyFromBase58 address)) in
  do! mint := context "solana: parse mint: %w" (pure (PublicKeyFromBase58 tokenAddr)) in
  do! accounts := context "solana: getTokenAccountsByOwner: %w"
    (act (FxRead "getTokenAccountsByOwner" [owner; mint]) (fun log => GetTokenAccountsByOwner log owner mint)) in
  do! amounts := each (account_balance tokenAddr) accounts in
  ret (fold_left PrimFloat.add amounts 0%float).

Definition decimalsFor (mint : string) : io state Z :=
  do! c := get in
  match mintCache c !! mint with
  | Some d => ret d
  | None =>
      do! pk := context "solana: parse mint %q: %w" (pure (PublicKeyFromBase58 mint)) in
      do! out := context "solana: getTokenSupply: %w"
        (act (FxRead "getTokenSupply" [pk]) (fun log => GetTokenSupply log pk)) in
      match out with
      | None => pure (Fail (EMsg "solana: empty token supply response for %q"))
      | Some d => do! _ := cache_mint mint d in ret d
      end
  end.

Definition GetQuote (tokenIn tokenOut : string) (amount : float) : io state Quote :=
  do! decIn := decimalsFor tokenIn in
  do! decOut := decimalsFor tokenOut in
  let atomicIn := uint64_of_float (math_Round (amount * Pow10 decIn)%float) in
  do! c := get in
  do! quoted := feed (getQuote (jupiter c) tokenIn tokenOut atomicIn 0) in
  let '(parsed, raw) := quoted in
  match ParseUint (jq_OutAmount parsed) with
  | (_, Some err) => pure (Fail (EWrap "solana: parse outAmount: %w" err))
  | (outAtomic, None) =>
      let outAmount := (float_of_uint outAtomic / Pow10 decOut)%float in
      fun s =>
      (Ok {| q_Chain := "solana"; q_DEX := "jupiter"; q_TokenIn := tokenIn; q_TokenOut := tokenOut;
             q_AmountIn := amount; q_AmountOut := outAmount;
             q_Price := if (0 <? amount)%float then (outAmount / amount)%float else 0%float;
             q_PriceImpact := float_or_zero (jq_PriceImpactPct parsed); q_FeeAmount := 0;
             q_SlippageBps := jq_SlippageBps parsed; q_GeneratedAt := clock s.2; q_RouteRaw := raw |}, s)
  end.

(** The key [tx.Sign] asks for: the wallet's, or none. *)
Definition signer (priv : SolKey) (key : string) : option SolKey :=
  if str_eqb key (Public priv) then Some priv else None.

(** A quote without a route has the empty text for one. *)
Definition ExecuteSwap (dry : bool) (quote : option Quote) (wallet : option Wallet) : io state TxResult :=
  match quote with
  | None => pure (Fail (EMsg "solana: ExecuteSwap requires Quote with RouteRaw"))
  | Some quote =>
      if str_eqb (q_RouteRaw quote) "" then pure (Fail (EMsg "solana: ExecuteSwap requires Quote with RouteRaw")) else
      match wallet with
      | None => pure (Fail (EMsg "solana: ExecuteSwap nil wallet"))
      | Some w =>
          do! c := get in
          do! priv := context "solana: unseal: %w" (pure (UnsealSolanaWallet (masterKey c) (Some w))) in
          do! txBytes := feed (buildSwapTx (jupiter c) (w_Address w) (q_RouteRaw quote)) in
          do! tx := context "solana: parse swap tx: %w" (pure (TransactionFromBytes txBytes)) in
          do! tx := context "solana: sign swap: %w" (pure (Sign (signer priv) tx)) in
          if dry then
            do! sim := context "solana: simulate swap: %w" (act (FxSimulate tx) (fun log => Simulate log tx)) in
            ret (tx_result "dry-run" (match sim with Some None => true | _ => false end))
          else
            do! sig := context "solana: sendTransaction: %w" (act (FxSend tx) (fun log => Send log tx)) in
            ret (tx_result sig true)
      end
  end.

Definition SimulateTransaction (txWrap : option Transaction) : io state SimResult :=
  match txWrap with
  | None => pure (Fail (EMsg "solana: SimulateTransaction requires Transaction.Raw"))
  | Some t =>
      if str_eqb (t_Raw t) "" then pure (Fail (EMsg "solana: SimulateTransaction requires Transaction.Raw"))
      else
        do! tx := context "solana: parse tx: %w" (pure (TransactionFromBytes (t_Raw t))) in
        do! sim := context "solana: simulate: %w" (act (FxSimulate tx) (fun log => Simulate log tx)) in
        ret (match sim with
             | None => sim_result false 0 "empty sim response"
             | Some None => sim_result true 0 ""
             | Some (Some msg) => sim_result false 0 msg
             end)
  end.

Definition SendTransaction (dry : bool) (txWrap : option Transaction) (wallet : option Wallet) : io state TxResult :=
  match txWrap with
  | None => pure (Fail (EMsg "solana: SendTransaction requires Transaction.Raw"))
  | Some t =>
      if str_eqb (t_Raw t) "" then pure (Fail (EMsg "solana: SendTransaction requires Transaction.Raw"))
      else
        match wallet with
        | None => pure (Fail (EMsg "solana: SendTransaction nil wallet"))
        | Some w =>
            do! c := get in
            do! priv := context "solana: unseal: %w" (pure (UnsealSolanaWallet (masterKey c) (Some w))) in
            do! tx := context "solana: parse tx: %w" (pure (TransactionFromBytes (t_Raw t))) in
            do! tx := context "solana: sign: %w" (pure (Sign (signer priv) tx)) in
            if dry then ret (tx_result "dry-run" true)
            else
              do! sig := context "solana: send: %w" (act (FxSend tx) (fun log => Send log tx)) in
              ret (tx_result sig true)
        end
  end.

Definition GetLendingPositions (protocol : string) : io state (list LendingPosition) :=
  if str_eqb (ToLower unicode_lower protocol) "marginfi"
  then act (FxRead "getProgramAccounts" [marginFiProgramID]) (fun _ => fetchMarginFiPositions true)
  else if str_eqb (ToLower unicode_lower protocol) "kamino"
  then act (FxRead "getProgramAccounts" [kaminoProgramID]) (fun _ => fetchKaminoPositions true)
  else pure (Fail (EMsg "solana: unknown lending protocol %q")).

Definition GetYieldRates (protocols : list string) : io state (list YieldRate) :=
  do! c := get in feed (fetch unicode_lower clock (yield c) protocols).

Definition ExecuteLiquidation (pos : option LendingPosition) (wallet : option Wallet) : io state TxResult :=
  pure (paper_liquidation unicode_lower "solana" pos wallet).
(** *** What is submitted *)

(** The methods that touch the network. *)
Inductive call :=
  | CBalance (address : string)
  | CTokenBalance (address tokenAddr : string)
  | CQuote (tokenIn tokenOut : string) (amount : float)
  | CSwap (quote : option Quote) (wallet : option Wallet)
  | CSimulate (tx : option Transaction)
  | CSend (tx : option Transaction) (wallet : option Wallet)
  | CPositions (protocol : string)
  | CYields (protocols : list string)
  | CLiquidation (pos : option LendingPosition) (wallet : option Wallet).

(** The state a call leaves. *)
Definition after (dry : bool) (c : call) (s : state) : state :=
  match c with
  | CBalance a => (GetBalance a s).2
  | CTokenBalance a t => (GetTokenBalance a t s).2
  | CQuote a b x => (GetQuote a b x s).2
  | CSwap q w => (ExecuteSwap dry q w s).2
  | CSimulate t => (SimulateTransaction t s).2
  | CSend t w => (SendTransaction dry t w s).2
  | CPositions p => (GetLendingPositions p s).2
  | CYields ps => (GetYieldRates ps s).2
  | CLiquidation p w => (ExecuteLiquidation p w s).2
  end.

Abbreviation still := (quiet masterKey).

Lemma quiet_cache mint d : still (cache_mint mint d).
Proof. by split. Qed.

#[local] Hint Resolve quiet_cache : chain.

Lemma quote_unsent base a b n slip log : unsent (getQuote base a b n slip log) log.
Proof. unfold getQuote. exchanged; [|done]. by destruct (Unmarshal _ _ _). Qed.

Lemma swap_unsent base user route log : unsent (buildSwapTx base user route log) log.
Proof.
  unfold buildSwapTx. destruct (marshal_raw route) as [text|]; [|done]. exchanged; [|done].
  destruct (str_eqb _ ""); [done|]. by destruct (base64_DecodeString _).
Qed.

Lemma rates_unsent y ps : forall log, unsent (fetch unicode_lower clock y ps log) log.
Proof.
  assert (Hm : forall log, unsent (fetchMarginFi clock y log) log) by (intros log; unfold fetchMarginFi; by exchanged).
  assert (Hk : forall log, unsent (fetchKamino clock y log) log) by (intros log; unfold fetchKamino; by exchanged).
  induction ps as [|p ps IH]; intros log; [done|]. cbn [fetch].
  assert (Hr : forall r : result (list YieldRate) * web_state, unsent r log ->
    unsent (match r with
            | (Fail err, w) => (Fail err, w)
            | (Ok rates, w) =>
                match fetch unicode_lower clock y ps w with
                | (Ok more, w) => (Ok (rates ++ more), w)
                | (Fail err, w) => (Fail err, w)
                end
            end) log).
  { intros [[rates|err] log1] H; [|exact H]. specialize (IH log1).
    destruct (fetch _ _ _ ps log1) as [[more|err] log2]; unfold unsent in *; cbn [snd] in *; by rewrite IH. }
  apply Hr. by repeat case_match.
Qed.

Lemma decimals_quiet mint : still (decimalsFor mint).
Proof.
  unfold decimalsFor. apply quiet_bind; [apply quiet_get|]. intros c. destruct (_ !! mint); [apply quiet_ret|].
  apply quiet_bind; [auto with chain|]. intros pk. apply quiet_bind; [apply quiet_context, quiet_read|].
  intros [d|]; [|apply quiet_pure]. apply quiet_bind; [apply quiet_cache|]. intros _. apply quiet_ret.
Qed.

(** What a call that submits did: the key of the wallet it was given, opened
    with the client's master key, signed what it had. *)
Definition call_wallet (c : call) : option Wallet :=
  match c with CSwap _ w | CSend _ w => w | _ => None end.

Definition authorized (mk : string) (c : call) (tx : Tx) : Prop :=
  exists w priv raw, call_wallet c = Some w /\ UnsealSolanaWallet mk (Some w) = Ok priv /\
    Sign (signer priv) raw = Ok tx.

Lemma quote_quiet a b x : still (GetQuote a b x).
Proof.
  unfold GetQuote. apply quiet_bind; [apply decimals_quiet|]. intros d1. apply quiet_bind; [apply decimals_quiet|].
  intros d2. apply quiet_bind; [apply quiet_get|]. intros c. apply quiet_bind; [apply quiet_feed; intros; apply quote_unsent|].
  intros [p raw]. destruct (ParseUint _) as [n [err|]]; [apply quiet_pure|]. by split.
Qed.

Lemma balance_quiet a : still (GetBalance a).
Proof. unfold GetBalance. repeat (apply quiet_bind; [auto using quiet_read with chain|intros ?]). apply quiet_ret. Qed.

Lemma token_balance_quiet a t : still (GetTokenBalance a t).
Proof.
  unfold GetTokenBalance. do 3 (apply quiet_bind; [auto using quiet_read with chain|intros ?]).
  apply quiet_bind; [|intros ?; apply quiet_ret]. apply quiet_each. intros acct. unfold account_balance.
  apply quiet_bind; [auto using quiet_read with chain|]. intros bal. destruct (ParseFloat bal.1) as [amt [err|]]; [apply quiet_pure|].
  apply quiet_bind; [apply quiet_cache|intros _; apply quiet_ret].
Qed.

Lemma simulate_quiet t : still (SimulateTransaction t).
Proof.
  unfold SimulateTransaction. destruct t as [t|]; [|apply quiet_pure]. destruct (str_eqb _ ""); [apply quiet_pure|].
  apply quiet_bind; [auto with chain|]. intros tx. apply quiet_bind; [|intros ?; apply quiet_ret].
  apply quiet_context. by apply quiet_act.
Qed.

Lemma positions_quiet p : still (GetLendingPositions p).
Proof. unfold GetLendingPositions. repeat case_match; auto using quiet_read with chain. Qed.

Lemma yields_quiet ps : still (GetYieldRates ps).
Proof. unfold GetYieldRates. apply quiet_bind; [apply quiet_get|]. intros c. apply quiet_feed. intros log. apply rates_unsent. Qed.

Abbreviation steps := (stepped masterKey authorized).

Lemma swap_stepped dry q w s : steps dry (CSwap q w) s (ExecuteSwap dry q w s).2.
Proof.
  unfold ExecuteSwap. destruct q as [q|]; [|apply quiet_stepped, quiet_pure].
  destruct (str_eqb _ ""); [apply quiet_stepped, quiet_pure|].
  destruct w as [w|]; [|apply quiet_stepped, quiet_pure].
  apply stepped_bind; [apply quiet_get|]. intros c [= <-] _. cbn [get snd]. rewrite bind_pure.
  destruct (UnsealSolanaWallet _ _) as [priv|] eqn:Ek; [|apply stepped_refl].
  apply stepped_bind; [apply quiet_feed; intros; apply swap_unsent|]. intros bytes _ Hk.
  rewrite bind_pure. destruct (TransactionFromBytes bytes) as [raw|]; [|apply stepped_refl].
  rewrite bind_pure. destruct (Sign (signer priv) raw) as [tx|] eqn:Es; [|apply stepped_refl].
  destruct dry.
  - apply quiet_stepped. apply quiet_bind; [apply quiet_context; by apply quiet_act|intros ?; apply quiet_ret].
  - apply stepped_send. exists w, priv, raw. split; [done|]. split; [|done]. by rewrite Hk.
Qed.

Lemma send_stepped dry t w s : steps dry (CSend t w) s (SendTransaction dry t w s).2.
Proof.
  unfold SendTransaction. destruct t as [t|]; [|apply quiet_stepped, quiet_pure].
  destruct (str_eqb _ ""); [apply quiet_stepped, quiet_pure|].
  destruct w as [w|]; [|apply quiet_stepped, quiet_pure].
  apply stepped_bind; [apply quiet_get|]. intros c [= <-] _. cbn [get snd]. rewrite bind_pure.
  destruct (UnsealSolanaWallet _ _) as [priv|] eqn:Ek; [|apply stepped_refl].
  rewrite bind_pure. destruct (TransactionFromBytes _) as [raw|]; [|apply stepped_refl].
  rewrite bind_pure. destruct (Sign (signer priv) raw) as [tx|] eqn:Es; [|apply stepped_refl].
  destruct dry; [apply stepped_refl|]. apply stepped_send. by exists w, priv, raw.
Qed.

Lemma after_stepped dry c s : steps dry c s (after dry c s).
Proof.
  destruct c; cbn [after]; try apply swap_stepped; try apply send_stepped; apply quiet_stepped;
    auto using balance_quiet, token_balance_quiet, quote_quiet, simulate_quiet, positions_quiet, yields_quiet.
  apply quiet_pure.
Qed.

(** C4: Whatever the networks answer, a session of a client submits nothing in
    its dry-run calls, at most one transaction in any other, and each of those
    was signed by the key of the wallet that call was given, opened with the
    client's own master key. *)
Theorem solana_submissions calls s : submitted masterKey authorized calls s (session_of after s calls).
Proof. apply session_submitted, after_stepped. Qed.
End Client.
End Solana.

(** ** Base *)

Module Base.

Record DynamicFeeTx := {
  ChainID : Z;
  Nonce : Z;
  GasTipCap : Z;
  GasFeeCap : Z;
  tx_Gas : Z;
  To : string;
  tx_Value : Z;
  Data : string;
}.

(** [go-ethereum]: addresses in text and as their 20 bytes, transactions, and
    the RPC. *)
Class Net (K : Type) := {
  Tx : Type;
  IsHexAddress : string -> bool;
  address_bytes : string -> string;
  hexutil_Decode : string -> result string;
  NewTx : DynamicFeeTx -> Tx;
  UnmarshalBinary : string -> result Tx;
  signed : Tx -> bool;
  Gas : Tx -> Z;
  Hash : Tx -> string;
  SignTx : Z -> K -> Tx -> result Tx;
  Sender : Z -> Tx -> result string;
  url_error : string -> option gerror;
  answer : list (effect Tx) -> request -> result (Z * result string);
  clock : list (effect Tx) -> Time;
  BalanceAt : list (effect Tx) -> string -> result (option Z);
  CallContract : list (effect Tx) -> string -> string -> result string;
  PendingNonceAt : list (effect Tx) -> string -> result Z;
  SuggestGasTipCap : list (effect Tx) -> result Z;
  BaseFee : list (effect Tx) -> result Z;
  (** The gas, or the text of the error. *)
  EstimateGas : list (effect Tx) -> string -> Tx -> Z + string;
  Send : list (effect Tx) -> Tx -> option gerror;
}.

Definition baseChainIDSepolia : Z := 84532.
Definition nativeETHAddress : string := "0xeeeeeeeeeeeeeeeeeeeeeeeeeeeeeeeeeeeeeeee".
Definition erc20BalanceOfSelector : string := String (chr 0x70) (String (chr 0xa0) (String (chr 0x82) (String (chr 0x31) ""))).
Definition erc20DecimalsSelector : string := String (chr 0x31) (String (chr 0x3c) (String (chr 0xe5) (String (chr 0x67) ""))).

Record BaseClient := {
  network : string;
  chainID : Z;
  rpcURL : string;
  aggregator : aggregatorClient;
  aave : string;
  morpho : string;
  yield : baseYieldClient;
  masterKey : string;
  decCache : gmap string Z;
}.

(** [dial]: what [ethclient.DialContext] makes of a URL. *)
Definition baseFactory (dial : string -> option gerror) (cfg : ChainConfig) : result BaseClient :=
  if str_eqb (cc_Network cfg) "mainnet" then Fail (EMsg "base: mainnet disabled")
  else
    let network := if str_eqb (cc_Network cfg) "" then "sepolia" else cc_Network cfg in
    if negb (str_eqb network "sepolia") then Fail (EMsg "base: unsupported network %q (only sepolia until launch)")
    else if str_eqb (cc_RPCURL cfg) "" then Fail (EMsg "base: RPCURL required")
    else
      match dial (cc_RPCURL cfg) with
      | Some err => Fail (EWrap "base: dial rpc: %w" err)
      | None =>
          match master_key "base" (cc_Extra cfg) with
          | Fail err => Fail err
          | Ok mk =>
              Ok {| network := network; chainID := baseChainIDSepolia; rpcURL := cc_RPCURL cfg;
                    aggregator := newAggregatorClient (cc_Extra cfg); aave := newAaveClient (cc_Extra cfg);
                    morpho := newMorphoClient (cc_Extra cfg); yield := newBaseYieldClient (cc_Extra cfg);
                    masterKey := mk;
                    decCache := <["0x4200000000000000000000000000000000000006" := 18]>
                      (<["0x036cbd53842c5426634e7929541ec2318f3dcf7e" := 6]>
                        (<[nativeETHAddress := 18]> ∅)) |}
          end
      end.

Section Client.
Context {S : Secp256k1} {N : Net EcKey} {A : AEAD}.
Context (unicode_lower : string -> string) (range : range_order string YieldRate).

Definition state : Type := BaseClient * list (effect Tx).

#[local] Instance web : Web := log_web url_error answer.

Definition cache_decimals (key : string) (d : Z) : io state unit := fun s =>
  let c := s.1 in
  (Ok tt, ({| network := network c; chainID := chainID c; rpcURL := rpcURL c; aggregator := aggregator c;
              aave := aave c; morpho := morpho c; yield := yield c; masterKey := masterKey c;
              decCache := <[key := d]> (decCache c) |}, s.2)).

Definition decimalsFor (token : string) : io state Z :=
  let key := ToLower unicode_lower token in
  do! c := get in
  match decCache c !! key with
  | Some d => ret d
  | None =>
      if negb (IsHexAddress token) then pure (Fail (EMsg "base: invalid token %q"))
      else
        do! raw := context "base: decimals(): %w"
          (act (FxRead "eth_call" [token; erc20DecimalsSelector])
             (fun log => CallContract log token erc20DecimalsSelector)) in
        if str_eqb raw "" then pure (Fail (EMsg "base: empty decimals() return for %q"))
        else
          let d := SetBytes (bytes_of raw) in
          if 36 <? d then pure (Fail (EMsg "base: implausible decimals %s for %q"))
          else do! _ := cache_decimals key d in ret d
  end.

Definition GetBalance (address : string) : io state float :=
  if negb (IsHexAddress address) then pure (Fail (EMsg "base: invalid address %q"))
  else
    do! wei := context "base: balanceAt: %w" (act (FxRead "eth_getBalance" [address]) (fun log => BalanceAt log address)) in
    ret (weiToEther wei).

(** [strings.EqualFold] of an ASCII text. *)
Definition EqualFold (s t : string) : bool := str_eqb (map_lower s) (map_lower t).

Definition left_pad (n : nat) (s : string) : string := Nat.iter (n - String.length s) (String (chr 0)) s.

Definition GetTokenBalance (address tokenAddr : string) : io state float :=
  if negb (IsHexAddress address) then pure (Fail (EMsg "base: invalid owner %q"))
  else if EqualFold tokenAddr nativeETHAddress then GetBalance address
  else if negb (IsHexAddress tokenAddr) then pure (Fail (EMsg "base: invalid token %q"))
  else
    let calldata := erc20BalanceOfSelector +:+ left_pad 32 (address_bytes address) in
    do! raw := context "base: balanceOf: %w"
      (act (FxRead "eth_call" [tokenAddr; calldata]) (fun log => CallContract log tokenAddr calldata)) in
    if str_eqb raw "" then ret 0%float
    else
      do! dec := decimalsFor tokenAddr in
      ret (atomicToFloat (SetBytes (bytes_of raw)) dec).

Definition GetQuote (tokenIn tokenOut : string) (amount : float) : io state Quote :=
  do! decIn := decimalsFor tokenIn in
  do! decOut := decimalsFor tokenOut in
  do! atomic := pure (floatToAtomic amount decIn) in
  do! c := get in
  do! quoted := feed (oneInchGetQuote (aggregator c) (chainID c) tokenIn tokenOut (big_text atomic)) in
  let '(parsed, raw) := quoted in
  match SetString10 (oq_DstAmount parsed) with
  | None => pure (Fail (EMsg "base: quote: bad dstAmount %q"))
  | Some dst =>
      let out := atomicToFloat dst decOut in
      fun s =>
      (Ok {| q_Chain := "base"; q_DEX := "1inch"; q_TokenIn := tokenIn; q_TokenOut := tokenOut;
             q_AmountIn := amount; q_AmountOut := out;
             q_Price := if (0 <? amount)%float then (out / amount)%float else 0%float;
             q_PriceImpact := 0; q_FeeAmount := 0; q_SlippageBps := 0; q_GeneratedAt := clock s.2; q_RouteRaw := raw |}, s)
  end.

(** The value of a swap's transaction, in wei. *)
Definition tx_value (text : string) : result Z :=
  if negb (str_eqb text "") && negb (str_eqb text "0") then
    match SetString0 (TrimPrefix text "0x") with
    | Some v => Ok v
    | None => Fail (EMsg "base: bad tx.value %q")
    end
  else Ok 0.

Definition assembleSignedTx (priv : EcKey) (fromAddr : string) (swap : swap_tx) : io state Tx :=
  if negb (IsHexAddress (sw_To swap)) then pure (Fail (EMsg "base: aggregator returned bad `to` %q"))
  else
    do! data := context "base: decode tx data: %w" (pure (hexutil_Decode (sw_Data swap))) in
    do! value := pure (tx_value (sw_Value swap)) in
    do! nonce := context "base: nonce: %w"
      (act (FxRead "eth_getTransactionCount" [fromAddr]) (fun log => PendingNonceAt log fromAddr)) in
    do! tip := context "base: gas tip: %w" (act (FxRead "eth_maxPriorityFeePerGas" []) SuggestGasTipCap) in
    do! base := context "base: head: %w" (act (FxRead "eth_getBlockByNumber" []) BaseFee) in
    do! c := get in
    let raw := NewTx {|
      ChainID := chainID c; Nonce := nonce; GasTipCap := tip; GasFeeCap := tip + base * 2;
      tx_Gas := if sw_Gas swap =? 0 then 250000 else sw_Gas swap; To := sw_To swap; tx_Value := value; Data := data |} in
    context "base: sign: %w" (pure (SignTx (chainID c) priv raw)).

(** What becomes of a signed transaction. *)
Definition submit (what : string) (dry : bool) (tx : Tx) : io state TxResult :=
  if dry then ret (tx_result "dry-run" true)
  else
    do! _ := context what (act (FxSend tx) (fun log => match Send log tx with Some err => Fail err | None => Ok tt end)) in
    ret (sent_result (Hash tx) (Gas tx)).

(** The slippage asked for, in percent. *)
Definition slippage_pct (bps : Z) : float :=
  let slip := (float_of_int bps / 100)%float in if (slip <=? 0)%float then 0.5%float else slip.

Definition ExecuteSwap (dry : bool) (quote : option Quote) (wallet : option Wallet) : io state TxResult :=
  match quote with
  | None => pure (Fail (EMsg "base: ExecuteSwap nil quote"))
  | Some quote =>
      match wallet with
      | None => pure (Fail (EMsg "base: ExecuteSwap nil wallet"))
      | Some w =>
          do! c := get in
          do! priv := context "base: unseal: %w" (pure (UnsealBaseWallet (masterKey c) (Some w))) in
          do! decIn := decimalsFor (q_TokenIn quote) in
          do! atomic := pure (floatToAtomic (q_AmountIn quote) decIn) in
          do! swap := feed (oneInchBuildSwap (aggregator c) (chainID c) (q_TokenIn quote) (q_TokenOut quote)
                              (big_text atomic) (w_Address w) (slippage_pct (q_SlippageBps quote))) in
          do! tx := assembleSignedTx priv (w_Address w) swap in
          submit "base: sendTransaction: %w" dry tx
      end
  end.

Definition SimulateTransaction (txWrap : option Transaction) : io state SimResult :=
  match txWrap with
  | None => pure (Fail (EMsg "base: SimulateTransaction requires Transaction.Raw"))
  | Some t =>
      if str_eqb (t_Raw t) "" then pure (Fail (EMsg "base: SimulateTransaction requires Transaction.Raw"))
      else
        do! tx := context "base: parse tx: %w" (pure (UnmarshalBinary (t_Raw t))) in
        do! c := get in
        do! from := context "base: sender: %w" (pure (Sender (chainID c) tx)) in
        act (FxSimulate tx) (fun log =>
          match EstimateGas log from tx with
          | inl gas => Ok (sim_result true gas "")
          | inr msg => Ok (sim_result false 0 msg)
          end)
  end.

Definition SendTransaction (dry : bool) (txWrap : option Transaction) (wallet : option Wallet) : io state TxResult :=
  match txWrap with
  | None => pure (Fail (EMsg "base: SendTransaction requires Transaction.Raw"))
  | Some t =>
      if str_eqb (t_Raw t) "" then pure (Fail (EMsg "base: SendTransaction requires Transaction.Raw"))
      else
        match wallet with
        | None => pure (Fail (EMsg "base: SendTransaction nil wallet"))
        | Some w =>
            do! tx := context "base: parse tx: %w" (pure (UnmarshalBinary (t_Raw t))) in
            if signed tx then submit "base: send pre-signed: %w" dry tx
            else
              do! c := get in
              do! priv := context "base: unseal: %w" (pure (UnsealBaseWallet (masterKey c) (Some w))) in
              do! tx := context "base: sign: %w" (pure (SignTx (chainID c) priv tx)) in
              submit "base: send: %w" dry tx
        end
  end.

Definition GetLendingPositions (protocol : string) : io state (list LendingPosition) :=
  do! c := get in
  if str_eqb (ToLower unicode_lower protocol) "aave" then feed (aave_fetchPositions (aave c) 0)
  else if str_eqb (ToLower unicode_lower protocol) "morpho" then feed (morpho_fetchPositions (morpho c) (chainID c) 0)
  else pure (Fail (EMsg "base: unknown lending protocol %q")).

(** The rates of one protocol. *)
Definition protocol_rates (p : string) : io state (list YieldRate) :=
  do! c := get in
  if str_eqb (ToLower unicode_lower p) "aave" then feed (fetchAaveRates clock (yield c))
  else if str_eqb (ToLower unicode_lower p) "morpho" then feed (fetchMorphoRates clock range (yield c) (chainID c))
  else pure (Fail (EMsg "base: unknown yield protocol %q")).

Definition GetYieldRates (protocols : list string) : io state (list YieldRate) :=
  do! rates := each protocol_rates protocols in ret (concat rates).

Definition ExecuteLiquidation (pos : option LendingPosition) (wallet : option Wallet) : io state TxResult :=
  pure (paper_liquidation unicode_lower "base" pos wallet).
(** *** What is submitted *)

Inductive call :=
  | CBalance (address : string)
  | CTokenBalance (address tokenAddr : string)
  | CQuote (tokenIn tokenOut : string) (amount : float)
  | CSwap (quote : option Quote) (wallet : option Wallet)
  | CSimulate (tx : option Transaction)
  | CSend (tx : option Transaction) (wallet : option Wallet)
  | CPositions (protocol : string)
  | CYields (protocols : list string)
  | CLiquidation (pos : option LendingPosition) (wallet : option Wallet).

Definition after (dry : bool) (c : call) (s : state) : state :=
  match c with
  | CBalance a => (GetBalance a s).2
  | CTokenBalance a t => (GetTokenBalance a t s).2
  | CQuote a b x => (GetQuote a b x s).2
  | CSwap q w => (ExecuteSwap dry q w s).2
  | CSimulate t => (SimulateTransaction t s).2
  | CSend t w => (SendTransaction dry t w s).2
  | CPositions p => (GetLendingPositions p s).2
  | CYields ps => (GetYieldRates ps s).2
  | CLiquidation p w => (ExecuteLiquidation p w s).2
  end.

(** The part of a client that no call changes. *)
Definition identity (c : BaseClient) : string * Z := (masterKey c, chainID c).

Abbreviation still := (quiet identity).

Lemma base_quiet_cache key d : still (cache_decimals key d).
Proof. by split. Qed.

Lemma one_quote_unsent a n x y z log : unsent (oneInchGetQuote a n x y z log) log.
Proof.
  unfold oneInchGetQuote, agg_do. pose proof (wrapped_unsent url_error answer "1inch quote: %w" _ log
    (roundtrip_unsent url_error answer "" id (agg_request a (oneInchURL a +:+ "/" +:+ Itoa n +:+ "/quote?" +:+
      Notifier.encode_form [("amount", z); ("dst", y); ("includeGas", "true"); ("src", x)]) true) log)) as H.
  destruct (wrapped _ _) as [[body|err] w]; [|exact H]. by destruct (Unmarshal _ _ _).
Qed.

Lemma one_swap_unsent a n x y z from slip log : unsent (oneInchBuildSwap a n x y z from slip log) log.
Proof.
  unfold oneInchBuildSwap, agg_do. exchanged; [|done]. match goal with |- context [let (_, _) := ?p in _] => destruct p as [amt tx] end.
  by destruct (str_eqb _ _ || _).
Qed.

Lemma gql_quiet {B D} who shown (d : JsonCodec.decoder D) zero (f : list (effect Tx) -> D -> B) r log :
  unsent r log ->
  unsent (match gql_data who shown d zero r with
          | (Fail err, w) => (Fail err, w)
          | (Ok x, w) => (Ok (f w x), w)
          end) log.
Proof.
  intros H. pose proof (gql_unsent url_error answer who shown d zero r log H) as Hg.
  by destruct (gql_data _ _ _ _ _) as [[x|err] w].
Qed.

Lemma base_decimals_quiet token : still (decimalsFor token).
Proof.
  unfold decimalsFor. apply quiet_bind; [apply quiet_get|]. intros c. destruct (_ !! _); [apply quiet_ret|].
  destruct (negb _); [apply quiet_pure|]. apply quiet_bind; [apply quiet_context, quiet_read|]. intros raw.
  destruct (str_eqb raw ""); [apply quiet_pure|]. destruct (_ <? _); [apply quiet_pure|].
  apply quiet_bind; [apply base_quiet_cache|intros _; apply quiet_ret].
Qed.

Lemma base_balance_quiet a : still (GetBalance a).
Proof.
  unfold GetBalance. destruct (negb _); [apply quiet_pure|].
  apply quiet_bind; [apply quiet_context, quiet_read|intros ?; apply quiet_ret].
Qed.

Lemma base_token_balance_quiet a t : still (GetTokenBalance a t).
Proof.
  unfold GetTokenBalance. destruct (negb _); [apply quiet_pure|]. destruct (EqualFold _ _); [apply base_balance_quiet|].
  destruct (negb _); [apply quiet_pure|]. apply quiet_bind; [apply quiet_context, quiet_read|]. intros raw.
  destruct (str_eqb raw ""); [apply quiet_ret|]. apply quiet_bind; [apply base_decimals_quiet|intros ?; apply quiet_ret].
Qed.

Lemma base_quote_quiet a b x : still (GetQuote a b x).
Proof.
  unfold GetQuote. apply quiet_bind; [apply base_decimals_quiet|]. intros d1. apply quiet_bind; [apply base_decimals_quiet|].
  intros d2. apply quiet_bind; [apply quiet_pure|]. intros z. apply quiet_bind; [apply quiet_get|]. intros c.
  apply quiet_bind; [apply quiet_feed; intros; apply one_quote_unsent|].
  intros [p raw]. destruct (SetString10 _); [by split|apply quiet_pure].
Qed.

Lemma base_simulate_quiet t : still (SimulateTransaction t).
Proof.
  unfold SimulateTransaction. destruct t as [t|]; [|apply quiet_pure]. destruct (str_eqb _ ""); [apply quiet_pure|].
  apply quiet_bind; [auto with chain|]. intros tx. apply quiet_bind; [apply quiet_get|]. intros c.
  apply quiet_bind; [auto with chain|]. intros from. by apply quiet_act.
Qed.

Lemma base_positions_quiet p : still (GetLendingPositions p).
Proof.
  unfold GetLendingPositions. apply quiet_bind; [apply quiet_get|]. intros c.
  destruct (str_eqb _ _); [|destruct (str_eqb _ _); [|apply quiet_pure]]; apply quiet_feed; intros log.
  - unfold aave_fetchPositions. apply (gql_quiet _ _ _ _ (fun _ rs => map aave_position rs)), roundtrip_unsent.
  - unfold morpho_fetchPositions. apply (gql_quiet _ _ _ _ (fun _ ms => map morpho_position ms)), roundtrip_unsent.
Qed.

Lemma base_yields_quiet ps : still (GetYieldRates ps).
Proof.
  unfold GetYieldRates. apply quiet_bind; [|intros ?; apply quiet_ret]. apply quiet_each. intros p.
  unfold protocol_rates. apply quiet_bind; [apply quiet_get|]. intros c.
  destruct (str_eqb _ _); [|destruct (str_eqb _ _); [|apply quiet_pure]]; apply quiet_feed; intros log.
  - unfold fetchAaveRates. apply (gql_quiet _ _ _ _ (fun w rs => map (aave_rate (clock w)) rs)), wrapped_unsent, roundtrip_unsent.
  - unfold fetchMorphoRates. apply (gql_quiet _ _ _ _ (fun w ms => (range (best_rates (clock w) ms)).*2)), wrapped_unsent, roundtrip_unsent.
Qed.

(** What a call may submit: a transaction signed for the client's chain by the
    key of the wallet it was given, opened with the client's master key, or the
    one it was handed, if that was signed already. *)
Definition call_wallet (c : call) : option Wallet :=
  match c with CSwap _ w | CSend _ w => w | _ => None end.

Definition authorized (id : string * Z) (c : call) (tx : Tx) : Prop :=
  (exists w priv raw, call_wallet c = Some w /\ UnsealBaseWallet id.1 (Some w) = Ok priv /\
     SignTx id.2 priv raw = Ok tx) \/
  (exists t w, c = CSend (Some t) (Some w) /\ UnmarshalBinary (t_Raw t) = Ok tx /\ signed tx = true).

Abbreviation steps := (stepped identity authorized).

Lemma submit_stepped dry c s what tx : authorized (identity s.1) c tx -> steps dry c s (submit what dry tx s).2.
Proof. intros H. unfold submit. destruct dry; [apply stepped_refl|]. by apply stepped_send. Qed.

(** A transaction signed with the wallet's key. *)
Lemma assembled_signed priv from swap s tx : (assembleSignedTx priv from swap s).1 = Ok tx ->
  exists raw, SignTx (identity s.1).2 priv raw = Ok tx.
Proof.
  unfold assembleSignedTx. destruct (negb _); [done|]. rewrite bind_pure. destruct (hexutil_Decode _) as [data|]; [|done].
  unfold bind at 1, pure at 1. destruct (tx_value _) as [value|]; [|done].
  unfold bind at 1, context at 1, act at 1. destruct (PendingNonceAt _ _) as [nonce|]; [|done].
  unfold bind at 1, context at 1, act at 1. destruct (SuggestGasTipCap _) as [tip|]; [|done].
  unfold bind at 1, context at 1, act at 1. destruct (BaseFee _) as [base|]; [|done].
  unfold bind, get, context, pure. cbn [fst snd].
  match goal with |- context [SignTx _ _ ?r] => destruct (SignTx _ _ r) as [tx'|] eqn:E end; [|done].
  intros [= <-]. by eexists.
Qed.

Lemma assemble_quiet priv from swap : still (assembleSignedTx priv from swap).
Proof.
  unfold assembleSignedTx. destruct (negb _); [apply quiet_pure|].
  repeat (apply quiet_bind; [auto with chain|intros ?]). auto with chain.
Qed.

Lemma base_swap_stepped dry q w s : steps dry (CSwap q w) s (ExecuteSwap dry q w s).2.
Proof.
  unfold ExecuteSwap. destruct q as [q|]; [|apply quiet_stepped, quiet_pure].
  destruct w as [w|]; [|apply quiet_stepped, quiet_pure].
  apply stepped_bind; [apply quiet_get|]. intros c [= <-] _. cbn [get snd]. rewrite bind_pure.
  destruct (UnsealBaseWallet _ _) as [priv|] eqn:Ek; [|apply stepped_refl].
  apply stepped_bind; [apply base_decimals_quiet|]. intros d _ Hd.
  apply stepped_bind; [apply quiet_pure|]. intros z _ Hz.
  apply stepped_bind; [apply quiet_feed; intros; apply one_swap_unsent|]. intros swap _ Hs.
  apply stepped_bind; [apply assemble_quiet|]. intros tx Htx Ha. apply submit_stepped. left.
  apply assembled_signed in Htx as [raw Hraw]. exists w, priv, raw. split; [done|].
  rewrite Ha in *. rewrite Hs in *. cbn [pure snd] in *. rewrite Hd in *. split; [exact Ek|exact Hraw].
Qed.

Lemma base_send_stepped dry t w s : steps dry (CSend t w) s (SendTransaction dry t w s).2.
Proof.
  unfold SendTransaction. destruct t as [t|]; [|apply quiet_stepped, quiet_pure].
  destruct (str_eqb _ ""); [apply quiet_stepped, quiet_pure|].
  destruct w as [w|]; [|apply quiet_stepped, quiet_pure].
  rewrite bind_pure. destruct (UnmarshalBinary _) as [tx|] eqn:Et; [|apply stepped_refl].
  destruct (signed tx) eqn:Es; [apply submit_stepped; right; by exists t, w|].
  apply stepped_bind; [apply quiet_get|]. intros c [= <-] _. cbn [get snd]. rewrite bind_pure.
  destruct (UnsealBaseWallet _ _) as [priv|] eqn:Ek; [|apply stepped_refl].
  rewrite bind_pure. destruct (SignTx _ _ _) as [tx'|] eqn:Esign; [|apply stepped_refl].
  apply submit_stepped. left. by exists w, priv, tx.
Qed.

Lemma base_after_stepped dry c s : steps dry c s (after dry c s).
Proof.
  destruct c; cbn [after]; try apply base_swap_stepped; try apply base_send_stepped; apply quiet_stepped;
    auto using base_balance_quiet, base_token_balance_quiet, base_quote_quiet, base_simulate_quiet, base_positions_quiet, base_yields_quiet.
  apply quiet_pure.
Qed.

(** C5: Whatever the networks answer, a session of a client submits nothing in
    its dry-run calls, at most one transaction in any other, and each of those
    either was signed for the client's chain by the key of the wallet that call
    was given, opened with the client's own master key, or was handed to
    [SendTransaction] signed. *)
Theorem base_submissions calls s : submitted identity authorized calls s (session_of after s calls).
Proof. apply session_submitted, base_after_stepped. Qed.
End Client.
End Base.

(** ** A session *)

(** A network where a transaction is the bytes of the key that has to sign it,
    and Jupiter's transactions are the demo wallet's. *)
Definition toy_net : Solana.Net string := {|
  Solana.Tx := string * option string;
  Solana.TransactionFromBytes := fun b => Ok (b, None);
  Solana.Sign := fun getter tx =>
    match getter tx.1 with Some k => Ok (tx.1, Some k) | None => Fail (EMsg "signer key not found") end;
  Solana.url_error := fun _ => None;
  Solana.answer := fun _ r =>
    Ok (200, Ok (write_object
      (if str_eqb (rq_method r) "GET" then [("outAmount", json_string "25000000"); ("slippageBps", "50")]
       else [("swapTransaction", json_string (base64_EncodeToString demo_seed))])));
  Solana.clock := fun log => len log;
  Solana.GetBalance_ := fun _ _ => Ok 5000000000;
  Solana.GetTokenAccountsByOwner := fun _ _ _ => Ok [];
  Solana.GetTokenAccountBalance := fun _ _ => Ok ("1", 6);
  Solana.GetTokenSupply := fun _ _ => Ok (Some 6);
  Solana.Simulate := fun _ _ => Ok (Some None);
  Solana.Send := fun log _ => Ok ("sig" +:+ Itoa (len log)) |}.

Definition toy_accounts : Accounts := {|
  PublicKeyFromBase58 := Ok; key_string := id; GetProgramAccounts := fun _ _ => Ok [] |}.

Definition keyed (mk : string) : Solana.SolanaClient := {|
  Solana.network := "devnet"; Solana.rpcURL := ""; Solana.jupiter := jupiterDefaultBaseURL;
  Solana.yield := newYieldClient ∅; Solana.masterKey := mk; Solana.mintCache := ∅ |}.

Definition demo_quote : result Quote :=
  (Solana.GetQuote (E := plain_ed25519) (N := toy_net) (Acc := toy_accounts) "SOL" "USDC" 0.5 (keyed demo_key, [])).1.

Definition demo_session (mk : string) : list (string * option string) :=
  match demo_quote with
  | Fail _ => []
  | Ok q =>
      sent (session_of (Solana.after (E := plain_ed25519) (N := toy_net) (A := toy_aead) (Acc := toy_accounts) map_lower)
        (keyed mk, [])
        [(true, Solana.CSwap (Some q) (Some solana_wallet)); (false, Solana.CSwap (Some q) (Some solana_wallet));
         (false, Solana.CSend (Some {| t_Chain := "solana"; t_Raw := "another's" |}) (Some solana_wallet))]).2
  end.

(** The quote is priced; the dry run submits nothing, the swap its transaction,
    and what another key has to sign is not submitted; without the master key
    nothing is. *)
Example demo_sessions :
  match demo_quote with Ok q => (q_AmountOut q, q_Price q) = (25, 50)%float | Fail _ => False end /\
  demo_session demo_key = [(demo_seed, Some demo_seed)] /\ demo_session "" = [].
Proof. vm_compute. repeat split. Qed.

(** 1inch's value in hexadecimal loses its prefix before it is read, and is read
    as decimal, or not at all. *)
Example hex_value_misread :
  Base.tx_value "0x10" = Ok 10 /\ is_ok (Base.tx_value "0xde0b6b3a7640000") = false /\ Base.tx_value "16" = Ok 16.
Proof. vm_compute. repeat split. Qed.
