(* ===== verification/TaskFactories.v ===== *)
(** * The task factories ([internal/agent/tasks], the [init]s and [xxxFactory]s)

    What turns the [task_type] and the [strategy_config] of an agent's row into a
    strategy: the decoding of the four configs, the registry the packages fill as
    they start, and what the swarm runtime makes of it.  The dependencies of a
    factory are set by a call nobody makes; its zero value is [None]. *)
From Stdlib Require Import ZArith Lia Floats.
From stdpp Require Import base list strings gmap.
From S2P Require Import Prelude GoBase GoFmt GoFloat Lifecycle NodeRunner Swarm Registry Json JsonCodec Llm Task Momentum LiquidityProvision LiquidationHunting CrossChainYield.
Set Warnings "-inexact-float".
Open Scope Z_scope.

(** ** The configs, off their field tags *)

Definition zero_momentum : MomentumConfig := {|
  Momentum.c_Chain := ""; Momentum.TokenPair := ""; LookbackMinutes := 0; EntryThresholdPct := 0; ExitThresholdPct := 0;
  VolumeConfirmation := false; Momentum.CheckIntervalSecs := 0; MaxPositionSizePct := 0; Momentum.MaxDrawdownPct := 0;
  StopLossPerTradePct := 0; MaxDailyTrades := 0; Momentum.MinCapitalToOperate := 0 |}.

Definition d_momentum : decoder MomentumConfig :=
  let upd f c := f (Momentum.c_Chain c) (Momentum.TokenPair c) (LookbackMinutes c) (EntryThresholdPct c)
                   (ExitThresholdPct c) (VolumeConfirmation c) (Momentum.CheckIntervalSecs c) (MaxPositionSizePct c)
                   (Momentum.MaxDrawdownPct c) (StopLossPerTradePct c) (MaxDailyTrades c) (Momentum.MinCapitalToOperate c) in
  let mk := Momentum.Build_MomentumConfig in
  d_struct
  [("chain", d_field Momentum.c_Chain (fun x => upd (fun _ => mk x)) d_string);
   ("token_pair", d_field Momentum.TokenPair (fun x => upd (fun a _ => mk a x)) d_string);
   ("lookback_minutes", d_field LookbackMinutes (fun x => upd (fun a b _ => mk a b x)) d_int);
   ("entry_threshold_pct", d_field EntryThresholdPct (fun x => upd (fun a b c _ => mk a b c x)) d_float);
   ("exit_threshold_pct", d_field ExitThresholdPct (fun x => upd (fun a b c d _ => mk a b c d x)) d_float);
   ("volume_confirmation", d_field VolumeConfirmation (fun x => upd (fun a b c d e _ => mk a b c d e x)) d_bool);
   ("check_interval_secs", d_field Momentum.CheckIntervalSecs (fun x => upd (fun a b c d e f _ => mk a b c d e f x)) d_float);
   ("max_position_size_pct", d_field MaxPositionSizePct (fun x => upd (fun a b c d e f g _ => mk a b c d e f g x)) d_float);
   ("max_drawdown_pct", d_field Momentum.MaxDrawdownPct (fun x => upd (fun a b c d e f g h _ => mk a b c d e f g h x)) d_float);
   ("stop_loss_per_trade_pct", d_field StopLossPerTradePct
      (fun x => upd (fun a b c d e f g h i _ => mk a b c d e f g h i x)) d_float);
   ("max_daily_trades", d_field MaxDailyTrades (fun x => upd (fun a b c d e f g h i j _ => mk a b c d e f g h i j x)) d_int);
   ("min_capital_to_operate", d_field Momentum.MinCapitalToOperate
      (fun x => upd (fun a b c d e f g h i j k _ => mk a b c d e f g h i j k x)) d_float)].

Definition zero_liquidity : LiquidityProvisionConfig := {|
  LiquidityProvision.c_Chain := ""; LiquidityProvision.TokenPair := ""; PoolAddress := ""; FeeTier := "";
  RangeWidthPct := 0; RebalanceThresholdPct := 0; LiquidityProvision.CheckIntervalSecs := 0;
  LiquidityProvision.MaxDrawdownPct := 0; LiquidityProvision.MinCapitalToOperate := 0 |}.

Definition d_liquidity : decoder LiquidityProvisionConfig :=
  let upd f c := f (LiquidityProvision.c_Chain c) (LiquidityProvision.TokenPair c) (PoolAddress c) (FeeTier c)
                   (RangeWidthPct c) (RebalanceThresholdPct c) (LiquidityProvision.CheckIntervalSecs c)
                   (LiquidityProvision.MaxDrawdownPct c) (LiquidityProvision.MinCapitalToOperate c) in
  let mk := LiquidityProvision.Build_LiquidityProvisionConfig in
  d_struct
  [("chain", d_field LiquidityProvision.c_Chain (fun x => upd (fun _ => mk x)) d_string);
   ("token_pair", d_field LiquidityProvision.TokenPair (fun x => upd (fun a _ => mk a x)) d_string);
   ("pool_address", d_field PoolAddress (fun x => upd (fun a b _ => mk a b x)) d_string);
   ("fee_tier", d_field FeeTier (fun x => upd (fun a b c _ => mk a b c x)) d_string);
   ("range_width_pct", d_field RangeWidthPct (fun x => upd (fun a b c d _ => mk a b c d x)) d_float);
   ("rebalance_threshold_pct", d_field RebalanceThresholdPct (fun x => upd (fun a b c d e _ => mk a b c d e x)) d_float);
   ("check_interval_secs", d_field LiquidityProvision.CheckIntervalSecs
      (fun x => upd (fun a b c d e f _ => mk a b c d e f x)) d_float);
   ("max_drawdown_pct", d_field LiquidityProvision.MaxDrawdownPct
      (fun x => upd (fun a b c d e f g _ => mk a b c d e f g x)) d_float);
   ("min_capital_to_operate", d_field LiquidityProvision.MinCapitalToOperate
      (fun x => upd (fun a b c d e f g h _ => mk a b c d e f g h x)) d_float)].

Definition zero_hunting : LiquidationHuntingConfig := {|
  LiquidationHunting.c_Chain := ""; Protocols := []; MinProfitUSD := 0; HealthFactorThreshold := 0;
  LiquidationHunting.CheckIntervalSecs := 0; MaxPositionSizeUSD := 0; MaxDailyLiquidations := 0;
  LiquidationHunting.MinCapitalToOperate := 0 |}.

Definition d_hunting : decoder LiquidationHuntingConfig :=
  let upd f c := f (LiquidationHunting.c_Chain c) (Protocols c) (MinProfitUSD c) (HealthFactorThreshold c)
                   (LiquidationHunting.CheckIntervalSecs c) (MaxPositionSizeUSD c) (MaxDailyLiquidations c)
                   (LiquidationHunting.MinCapitalToOperate c) in
  let mk := LiquidationHunting.Build_LiquidationHuntingConfig in
  d_struct
  [("chain", d_field LiquidationHunting.c_Chain (fun x => upd (fun _ => mk x)) d_string);
   ("protocols", d_field Protocols (fun x => upd (fun a _ => mk a x)) (d_slice "" d_string));
   ("min_profit_usd", d_field MinProfitUSD (fun x => upd (fun a b _ => mk a b x)) d_float);
   ("health_factor_threshold", d_field HealthFactorThreshold (fun x => upd (fun a b c _ => mk a b c x)) d_float);
   ("check_interval_secs", d_field LiquidationHunting.CheckIntervalSecs (fun x => upd (fun a b c d _ => mk a b c d x)) d_float);
   ("max_position_size_usd", d_field MaxPositionSizeUSD (fun x => upd (fun a b c d e _ => mk a b c d e x)) d_float);
   ("max_daily_liquidations", d_field MaxDailyLiquidations (fun x => upd (fun a b c d e f _ => mk a b c d e f x)) d_int);
   ("min_capital_to_operate", d_field LiquidationHunting.MinCapitalToOperate
      (fun x => upd (fun a b c d e f g _ => mk a b c d e f g x)) d_float)].

Definition zero_yield : CrossChainYieldConfig := {|
  PrimaryChain := ""; AllowedProtocols := []; MinYieldDiffBps := 0; MaxSingleProtocolPct := 0; RebalanceIntervalSecs := 0;
  BridgeCostThreshold := 0; CrossChainYield.MaxDrawdownPct := 0; CrossChainYield.MinCapitalToOperate := 0;
  CrossChainYield.CheckIntervalSecs := 0 |}.

Definition d_yield : decoder CrossChainYieldConfig :=
  let upd f c := f (PrimaryChain c) (AllowedProtocols c) (MinYieldDiffBps c) (MaxSingleProtocolPct c)
                   (RebalanceIntervalSecs c) (BridgeCostThreshold c) (CrossChainYield.MaxDrawdownPct c)
                   (CrossChainYield.MinCapitalToOperate c) (CrossChainYield.CheckIntervalSecs c) in
  let mk := CrossChainYield.Build_CrossChainYieldConfig in
  d_struct
  [("primary_chain", d_field PrimaryChain (fun x => upd (fun _ => mk x)) d_string);
   ("allowed_protocols", d_field AllowedProtocols (fun x => upd (fun a _ => mk a x)) (d_slice "" d_string));
   ("min_yield_diff_bps", d_field MinYieldDiffBps (fun x => upd (fun a b _ => mk a b x)) d_float);
   ("max_single_protocol_pct", d_field MaxSingleProtocolPct (fun x => upd (fun a b c _ => mk a b c x)) d_float);
   ("rebalance_interval_secs", d_field RebalanceIntervalSecs (fun x => upd (fun a b c d _ => mk a b c d x)) d_int);
   ("bridge_cost_threshold", d_field BridgeCostThreshold (fun x => upd (fun a b c d e _ => mk a b c d e x)) d_float);
   ("max_drawdown_pct", d_field CrossChainYield.MaxDrawdownPct (fun x => upd (fun a b c d e f _ => mk a b c d e f x)) d_float);
   ("min_capital_to_operate", d_field CrossChainYield.MinCapitalToOperate
      (fun x => upd (fun a b c d e f g _ => mk a b c d e f g x)) d_float);
   ("check_interval_secs", d_field CrossChainYield.CheckIntervalSecs
      (fun x => upd (fun a b c d e f g h _ => mk a b c d e f g h x)) d_float)].

(** ** The registry *)

Inductive task :=
  | TMomentum (m : Momentum)
  | TLiquidity (l : LiquidityProvision)
  | THunting (l : LiquidationHunting)
  | TYield (y : CrossChainYield).

(** The pointers the [SetXxxDeps] store: nil, or the chains of the clients set,
    which may be a nil map. *)
Record Deps := {
  momentumDeps : option (option (gset string));
  liquidityProvisionDeps : option (option (gset string));
  liquidationHuntingDeps : option (option (gset string));
  crossChainYieldDeps : option (option (gset string));
}.

(** A process in which nobody has called them. *)
Definition unset : Deps := {|
  momentumDeps := None; liquidityProvisionDeps := None; liquidationHuntingDeps := None; crossChainYieldDeps := None |}.

Inductive factory := FMomentum | FLiquidity | FHunting | FYield.

Section Factories.
Context (unicode_upper : string -> string).

Definition as_task {A} (t : A -> task) (r : result A) : result task :=
  match r with Ok a => Ok (t a) | Fail err => Fail err end.

Definition call_factory (d : Deps) (f : factory) (raw : string) : result task :=
  match f with
  | FMomentum => as_task TMomentum
      (momentumFactory unicode_upper (JsonCodec.Unmarshal d_momentum zero_momentum) zero_momentum (momentumDeps d) raw)
  | FLiquidity => as_task TLiquidity
      (liquidityProvisionFactory unicode_upper (JsonCodec.Unmarshal d_liquidity zero_liquidity) zero_liquidity
         (liquidityProvisionDeps d) raw)
  | FHunting => as_task THunting
      (liquidationHuntingFactory (JsonCodec.Unmarshal d_hunting zero_hunting) zero_hunting (liquidationHuntingDeps d) raw)
  | FYield => as_task TYield
      (crossChainYieldFactory (JsonCodec.Unmarshal d_yield zero_yield) zero_yield (crossChainYieldDeps d) raw)
  end.

(** The [init]s of the package, in the order of its files. *)
Definition task_inits : list (string * factory) :=
  [("cross_chain_yield", FYield); ("liquidation_hunting", FHunting); ("liquidity_provision", FLiquidity);
   ("momentum", FMomentum)].

Definition task_registry : gmap string factory := default ∅ (Tasks.registrations ∅ task_inits).

Definition build_task (d : Deps) (name raw : string) : result task :=
  Tasks.Build (call_factory d) task_registry name raw.

(** What [startFromRow] sees of it. *)
Definition build_error (d : Deps) (name raw : string) : option gerror :=
  match build_task d name raw with Ok _ => None | Fail err => Some err end.
End Factories.

(** ** What is built *)

Section Built.
Context (unicode_upper : string -> string).

(** The strategy a name registers, with a valid config and a client of its chain. *)
Definition built_well (d : Deps) (name : string) (t : task) : Prop :=
  match t with
  | TMomentum m => name = "momentum" /\ Momentum.Validate unicode_upper (Momentum.cfg m) = None /\
      exists names, momentumDeps d = Some (Some names) /\ Momentum.c_Chain (Momentum.cfg m) ∈ names
  | TLiquidity l => name = "liquidity_provision" /\
      LiquidityProvision.Validate unicode_upper (LiquidityProvision.cfg l) = None /\
      exists names, liquidityProvisionDeps d = Some (Some names) /\
        LiquidityProvision.c_Chain (LiquidityProvision.cfg l) ∈ names
  | THunting l => name = "liquidation_hunting" /\ LiquidationHunting.Validate (LiquidationHunting.cfg l) = None /\
      exists names, liquidationHuntingDeps d = Some (Some names) /\
        LiquidationHunting.c_Chain (LiquidationHunting.cfg l) ∈ names
  | TYield y => name = "cross_chain_yield" /\ CrossChainYield.Validate (CrossChainYield.cfg y) = None /\
      exists names, crossChainYieldDeps d = Some (Some names) /\ PrimaryChain (CrossChainYield.cfg y) ∈ names
  end.

Lemma task_registry_lookup name : task_registry !! name =
  if str_eqb name "cross_chain_yield" then Some FYield else if str_eqb name "liquidation_hunting" then Some FHunting
  else if str_eqb name "liquidity_provision" then Some FLiquidity else if str_eqb name "momentum" then Some FMomentum
  else None.
Proof.
  replace task_registry with ({["momentum" := FMomentum; "liquidity_provision" := FLiquidity;
    "liquidation_hunting" := FHunting; "cross_chain_yield" := FYield]} : gmap string factory) by (vm_compute; reflexivity).
  unfold str_eqb. repeat case_bool_decide; subst; try reflexivity.
  rewrite !lookup_insert_ne by done. apply lookup_singleton_ne. done.
Qed.

(** The guards every constructor shares: validation, then a client of the chain. *)
Ltac constructed H :=
  repeat match type of H with
    | match ?x with _ => _ end = _ => let E := fresh "E" in destruct x eqn:E; try done
    | (if ?x then _ else _) = _ => let E := fresh "E" in destruct x eqn:E; try done
    end;
  injection H as <-;
  match goal with E : negb (bool_decide _) = false |- _ => apply negb_false_iff, bool_decide_eq_true_1 in E end;
  split; [assumption|eexists; split; [reflexivity|eassumption]].

Lemma momentum_constructed names c m : NewMomentum unicode_upper names c = Ok m ->
  Momentum.Validate unicode_upper (Momentum.cfg m) = None /\
  exists ns, names = Some ns /\ Momentum.c_Chain (Momentum.cfg m) ∈ ns.
Proof. unfold NewMomentum. intros H. constructed H. Qed.

Lemma liquidity_constructed names c l : NewLiquidityProvision unicode_upper names c = Ok l ->
  LiquidityProvision.Validate unicode_upper (LiquidityProvision.cfg l) = None /\
  exists ns, names = Some ns /\ LiquidityProvision.c_Chain (LiquidityProvision.cfg l) ∈ ns.
Proof. unfold NewLiquidityProvision. intros H. constructed H. Qed.

Lemma hunting_constructed names c l : NewLiquidationHunting names c = Ok l ->
  LiquidationHunting.Validate (LiquidationHunting.cfg l) = None /\
  exists ns, names = Some ns /\ LiquidationHunting.c_Chain (LiquidationHunting.cfg l) ∈ ns.
Proof. unfold NewLiquidationHunting. intros H. constructed H. Qed.

Lemma yield_constructed names c y : NewCrossChainYield names c = Ok y ->
  CrossChainYield.Validate (CrossChainYield.cfg y) = None /\
  exists ns, names = Some ns /\ PrimaryChain (CrossChainYield.cfg y) ∈ ns.
Proof. unfold NewCrossChainYield. intros H. constructed H. Qed.

Lemma as_task_ok {A} (t : A -> task) r x : as_task t r = Ok x -> exists a, r = Ok a /\ x = t a.
Proof. destruct r as [a|]; [|done]. intros [= <-]. by exists a. Qed.

(** A factory constructs over the dependencies set, off some config. *)
Ltac factory_built lemma :=
  let H := fresh "H" in let a := fresh "a" in let names := fresh "names" in
  intros (a & H & ->)%as_task_ok; cbn [built_well]; split; [reflexivity|];
  match type of H with match ?x with Some _ => _ | None => _ end = _ => destruct x as [names|]; [|done] end;
  repeat match type of H with
    | match ?x with _ => _ end = _ => destruct x; try done
    | (if ?x then _ else _) = _ => destruct x; try done
    end;
  apply lemma in H as (? & ? & -> & ?); split; [assumption|eexists; split; [reflexivity|assumption]].

(** A task that is built is the strategy registered under its name, has a
    config that passes its validation, and a client of its chain. *)
Theorem built_task_valid d name raw t : build_task unicode_upper d name raw = Ok t -> built_well d name t.
Proof.
  unfold build_task, Tasks.Build. rewrite task_registry_lookup. unfold str_eqb.
  repeat case_bool_decide; subst; [| | | |done]; cbn [call_factory];
    unfold crossChainYieldFactory, liquidationHuntingFactory, liquidityProvisionFactory, momentumFactory.
  - factory_built yield_constructed.
  - factory_built hunting_constructed.
  - factory_built liquidity_constructed.
  - factory_built momentum_constructed.
Qed.

(** A config that names no chain is refused, whoever has set the dependencies. *)
Definition names_no_chain (raw : string) : Prop :=
  raw = "" \/ Json.Parse raw = Some (Json.JsonObject []) \/ Json.Parse raw = Some Json.JsonNull.

Lemma no_chain_zero {A} fields (zero c : A) raw : names_no_chain raw -> (0 <? str_len raw) = true ->
  JsonCodec.Unmarshal (d_struct fields) zero raw = Ok c -> c = zero.
Proof.
  intros [->|[E|E]] Hl; [done| |]; unfold JsonCodec.Unmarshal; rewrite E; cbn; by intros [= <-].
Qed.

Lemma no_chain_refused d name raw : names_no_chain raw -> build_error unicode_upper d name raw <> None.
Proof.
  intros Hr. unfold build_error, build_task, Tasks.Build. rewrite task_registry_lookup. unfold str_eqb.
  repeat case_bool_decide; subst; [| | | |done]; cbn [call_factory];
    unfold crossChainYieldFactory, liquidationHuntingFactory, liquidityProvisionFactory, momentumFactory, as_task;
    match goal with |- context [match ?x with Some _ => _ | None => _ end] => destruct x as [names|]; [|done] end;
    destruct (0 <? str_len raw) eqn:Hl; try done;
    match goal with |- context [JsonCodec.Unmarshal ?dd ?z raw] => destruct (JsonCodec.Unmarshal dd z raw) eqn:E; [|done] end;
    apply (no_chain_zero _ _ _ _ Hr Hl) in E; subst; done.
Qed.

Lemma unset_refused name raw : build_error unicode_upper unset name raw <> None.
Proof.
  unfold build_error, build_task, Tasks.Build. rewrite task_registry_lookup. unfold str_eqb.
  by repeat case_bool_decide.
Qed.
End Built.

(** ** Rows and what becomes of them *)

Definition solana_only : Deps := {|
  momentumDeps := Some (Some {["solana"]}); liquidityProvisionDeps := Some None; liquidationHuntingDeps := None;
  crossChainYieldDeps := Some (Some {["base"; "solana"]}) |}.

Definition momentum_text (chain : string) : string :=
  write_object [("chain", json_string chain); ("token_pair", json_string "SOL/USDC"); ("lookback_minutes", "30");
                ("volume_confirmation", "true")].

Definition outcome (name raw : string) : string :=
  match build_error id solana_only name raw with None => "built" | Some (EMsg m) => m | Some (EWrap m _) => m end.

Example tasks_built :
  [outcome "momentum" (momentum_text "solana"); outcome "momentum" (momentum_text "base"); outcome "momentum" "{}";
   outcome "momentum" "{"; outcome "liquidity_provision" (momentum_text "solana"); outcome "liquidation_hunting" "";
   outcome "cross_chain_yield" (write_object [("primary_chain", json_string "base");
     ("allowed_protocols", write_array [json_string "aave"])]); outcome "arbitrage" ""] =
  ["built"; "momentum: chain %q missing from deps.Clients"; "momentum: chain required"; "momentum: decode config: %w";
   "liquidity_provision: deps.Clients required"; "liquidation_hunting: SetLiquidationHuntingDeps not called"; "built";
   "tasks: unknown task type %q"].
Proof. vm_compute. reflexivity. Qed.

Lemma built_task_valid_witness :
  match build_task id solana_only "momentum" (momentum_text "solana") with
  | Ok t => built_well id solana_only "momentum" t
  | Fail _ => False
  end.
Proof.
  destruct (build_task id solana_only "momentum" (momentum_text "solana")) as [t|] eqn:E.
  - exact (built_task_valid id solana_only "momentum" (momentum_text "solana") t E).
  - revert E. vm_compute. discriminate.
Defined.
