(* ===== verification/TaskLives.v ===== *)
(** * The life of a task

    A [tasks.Task] is an interface value: one of the four strategies behind the
    four methods.  Here it is built from an agent's row, ticked, closed, and
    handed to one strategist cycle after the other ([runStrategistOnce] of
    [internal/runtime/node_runner.go]), each with whatever the model answers. *)
From Stdlib Require Import ZArith Lia Floats.
From stdpp Require Import base list strings gmap.
From S2P Require Import Prelude GoBase GoFmt GoFloat Genome Json JsonCodec JsonExtract Task Momentum LiquidityProvision LiquidationHunting CrossChainYield Review Bandit NodeRunner Strategist TaskFactories.
Set Warnings "-inexact-float".
Open Scope Z_scope.

(** ** The interface value *)

(** A method of the strategy inside, that leaves it in a new state. *)
Definition on_task {R} (fm : Momentum -> R * Momentum) (fl : LiquidityProvision -> R * LiquidityProvision)
    (fh : LiquidationHunting -> R * LiquidationHunting) (fy : CrossChainYield -> R * CrossChainYield)
    (t : task) : R * task :=
  match t with
  | TMomentum m => let '(r, m) := fm m in (r, TMomentum m)
  | TLiquidity l => let '(r, l) := fl l in (r, TLiquidity l)
  | THunting l => let '(r, l) := fh l in (r, THunting l)
  | TYield y => let '(r, y) := fy y in (r, TYield y)
  end.

Definition interface_task {S : SliceSort} : Task task := {|
  Task.RunTick := fun e =>
    on_task (Momentum.RunTick e) (LiquidityProvision.RunTick e) (LiquidationHunting.RunTick e)
      (CrossChainYield.RunTick e);
  Task.ApplyAdjustments := fun e entries =>
    on_task (Momentum.ApplyAdjustments entries) (LiquidityProvision.ApplyAdjustments e entries)
      (LiquidationHunting.ApplyAdjustments entries) (CrossChainYield.ApplyAdjustments entries);
  Task.GetPositionValue := fun e t =>
    match t with
    | TMomentum m => Momentum.GetPositionValue m
    | TLiquidity l => LiquidityProvision.GetPositionValue l
    | THunting l => LiquidationHunting.GetPositionValue l
    | TYield y => CrossChainYield.GetPositionValue e y
    end;
  Task.CloseAllPositions := fun e =>
    on_task (Momentum.CloseAllPositions e) (LiquidityProvision.CloseAllPositions e)
      LiquidationHunting.CloseAllPositions (CrossChainYield.CloseAllPositions e) |}.
#[export] Existing Instance interface_task.

Definition interface_summary {S : SliceSort} : Summary task := {|
  state_summary := fun e t =>
    Ok match t with
       | TMomentum m => Momentum.GetStateSummary e m
       | TLiquidity l => LiquidityProvision.GetStateSummary e l
       | THunting l => LiquidationHunting.GetStateSummary l
       | TYield y => CrossChainYield.GetStateSummary e y
       end |}.
#[export] Existing Instance interface_summary.

(** ** What no adjustment reaches *)

(** The fields of a config the [switch]es do not name. *)
Definition fixed_fields (t : task) : list string * list float * list Z :=
  match t with
  | TMomentum m =>
      let c := Momentum.cfg m in
      ([Momentum.c_Chain c; Momentum.TokenPair c], [Momentum.MaxDrawdownPct c; Momentum.MinCapitalToOperate c],
       [LookbackMinutes c])
  | TLiquidity l =>
      let c := LiquidityProvision.cfg l in
      ([LiquidityProvision.c_Chain c; LiquidityProvision.TokenPair c; PoolAddress c; FeeTier c],
       [LiquidityProvision.MaxDrawdownPct c; LiquidityProvision.MinCapitalToOperate c], [])
  | THunting l =>
      let c := LiquidationHunting.cfg l in
      (LiquidationHunting.c_Chain c :: Protocols c, [MaxPositionSizeUSD c; LiquidationHunting.MinCapitalToOperate c], [])
  | TYield y =>
      let c := CrossChainYield.cfg y in
      (PrimaryChain c :: AllowedProtocols c,
       [CrossChainYield.MaxDrawdownPct c; CrossChainYield.MinCapitalToOperate c], [])
  end.

Section Lives.
Context {S : SliceSort} (unicode_upper : string -> string).

(** The config of a task as its own package judges it. *)
Definition config_valid (t : task) : Prop :=
  match t with
  | TMomentum m => Momentum.Validate unicode_upper (Momentum.cfg m) = None
  | TLiquidity l => LiquidityProvision.Validate unicode_upper (LiquidityProvision.cfg l) = None
  | THunting l => LiquidationHunting.Validate (LiquidationHunting.cfg l) = None
  | TYield y => CrossChainYield.Validate (CrossChainYield.cfg y) = None
  end.

(** The same strategy, with a config as valid and the same where it is fixed. *)
Definition same_life (t t' : task) : Prop :=
  match t, t' with
  | TMomentum _, TMomentum _ | TLiquidity _, TLiquidity _ | THunting _, THunting _ | TYield _, TYield _ =>
      fixed_fields t' = fixed_fields t /\ (config_valid t -> config_valid t')
  | _, _ => False
  end.

#[local] Instance same_life_preorder : PreOrder same_life.
Proof.
  split; [by intros []|]. intros [] [] []; try done; cbn; intros [F1 V1] [F2 V2]; (split; [congruence|auto]).
Qed.

(** A method that does not touch the config. *)
Lemma momentum_same m m' : Momentum.cfg m' = Momentum.cfg m -> same_life (TMomentum m) (TMomentum m').
Proof. cbn. by intros ->. Qed.
Lemma liquidity_same l l' : LiquidityProvision.cfg l' = LiquidityProvision.cfg l ->
  same_life (TLiquidity l) (TLiquidity l').
Proof. cbn. by intros ->. Qed.
Lemma hunting_same l l' : LiquidationHunting.cfg l' = LiquidationHunting.cfg l -> same_life (THunting l) (THunting l').
Proof. cbn. by intros ->. Qed.
Lemma yield_same y y' : CrossChainYield.cfg y' = CrossChainYield.cfg y -> same_life (TYield y) (TYield y').
Proof. cbn. by intros ->. Qed.

Lemma lp_tick_cfg e l : LiquidityProvision.cfg (LiquidityProvision.RunTick e l).2 = LiquidityProvision.cfg l.
Proof.
  unfold LiquidityProvision.RunTick, openPosition, closePosition.
  repeat (case_match; simplify_eq; try done).
Qed.

Lemma yield_tick_cfg e y : CrossChainYield.cfg (CrossChainYield.RunTick e y).2 = CrossChainYield.cfg y.
Proof.
  pose proof (yield_RunTick_cases e y) as H. destruct (CrossChainYield.RunTick e y) as [r y'].
  destruct H as [[[Hc _ _ _ _ _] _]|(trades & rates & total & cost & diff & -> & [_ _ _ _ Hb])]; [done|].
  pose proof (rebalance_history e 6 (e_now e 0%nat) total (chooseTarget y rates) cost diff
    (CrossChainYield.with_lastRates (CrossChainYield.with_lastCheck y (e_now e 0%nat)) rates)) as H.
  rewrite Hb in H. by destruct H as [H _].
Qed.

Lemma tick_same e t : same_life t (Task.RunTick e t).2.
Proof.
  destruct t as [m|l|l|y]; cbn [Task.RunTick interface_task on_task].
  - destruct (Momentum.RunTick e m) as [r m'] eqn:H. apply momentum_same.
    apply Momentum.RunTick_booked, booked_cfg in H. rewrite H.
    pose proof (books_reset m (e_now e 0%nat)) as Hr. by injection Hr.
  - pose proof (lp_tick_cfg e l) as H. destruct (LiquidityProvision.RunTick e l). by apply liquidity_same.
  - pose proof (RunTick_ticked e l) as H. destruct (LiquidationHunting.RunTick e l) as [r l'].
    destruct H as (tr & n & H). apply hunting_same. exact (tk_cfg _ _ _ _ _ _ H).
  - pose proof (yield_tick_cfg e y) as H. destruct (CrossChainYield.RunTick e y). by apply yield_same.
Qed.

Lemma close_same e t : same_life t (Task.CloseAllPositions e t).2.
Proof.
  destruct t as [m|l|l|y]; cbn [Task.CloseAllPositions interface_task on_task].
  - unfold Momentum.CloseAllPositions. destruct (Momentum.position m); [|done].
    destruct (exitLocked m _ _ _) as [trades m'] eqn:E. apply momentum_same.
    by apply exitLocked_booked, booked_cfg in E.
  - unfold LiquidityProvision.CloseAllPositions. destruct (LiquidityProvision.position l); [|done].
    pose proof (close_cfg l (e_now e 0%nat) "close_all") as H. destruct (closePosition l _ _). by apply liquidity_same.
  - done.
  - pose proof (close_books S e y) as H. destruct (CrossChainYield.CloseAllPositions e y).
    apply yield_same. by destruct H as [H _].
Qed.

(** The clamps of the hunter are the envelopes of its validation. *)
Lemma hunting_set_valid c profit hf secs daily :
  foutside profit liqMinProfitFloor liqMinProfitCeil = false ->
  foutside hf liqHFThresholdFloor liqHFThresholdCeil = false ->
  foutside secs liqCheckIntervalFloor liqCheckIntervalCeil = false ->
  liqMaxDailyFloor <= daily <= liqMaxDailyCeil ->
  LiquidationHunting.Validate c = None ->
  LiquidationHunting.Validate (LiquidationHunting.tuned c profit hf secs (MaxPositionSizeUSD c) daily) = None.
Proof.
  intros Hp Hh Hs Hd. unfold LiquidationHunting.Validate. cbn.
  rewrite Hp, Hh, Hs. replace ((daily <? liqMaxDailyFloor) || (liqMaxDailyCeil <? daily)) with false by lia.
  repeat case_match; done.
Qed.

Lemma hunting_case_edits k raw u l : (forall v, toFloat raw = Some v -> is_nan v = false) ->
  LiquidationHunting.adjust_case k raw = Ok u -> same_life (THunting l) (THunting (u l)).
Proof.
  intros Hn H. LiquidationHunting.switch_key H; (split; [by destruct l|]); intros Hv; try exact Hv;
    cbn in Hv |- *; pose proof Hv as Hv0; revert Hv0; unfold LiquidationHunting.Validate at 1, gerr;
    intros Hv0; dmatches_in Hv0; rewrite orb_false_iff, !Z.ltb_ge in *;
    apply hunting_set_valid; try done; try (by apply foutside_clamp; [apply Hn|]).
  apply (clamp_count _ liqMaxDailyFloor liqMaxDailyCeil); [by apply Hn|done..].
Qed.

Lemma momentum_case_edits k raw u m : (forall v, toFloat raw = Some v -> is_nan v = false) ->
  Momentum.adjust_case k raw = Ok u -> same_life (TMomentum m) (TMomentum (u m)).
Proof.
  intros Hn H. destruct (mom_adjust_case_edits unicode_upper k raw u m Hn H) as [_ Hc].
  split; [|cbn; by rewrite !mom_Validate_iff]. clear Hc. Momentum.switch_key H; by destruct m.
Qed.

Lemma liquidity_case_edits now k raw u l : (forall v, toFloat raw = Some v -> is_nan v = false) ->
  LiquidityProvision.adjust_case now k raw = Ok u -> same_life (TLiquidity l) (TLiquidity (u l)).
Proof.
  intros Hn H. split.
  - LiquidityProvision.switch_key H; cbn [fixed_fields]; try done. cbv zeta. rewrite pull_either.
    destruct b; [by rewrite close_cfg|done].
  - cbn. rewrite !lp_Validate_iff. intros Hc.
    eapply (lp_adjust_case_edits unicode_upper now l k raw u l Hn H). split; [left; by destruct l|done].
Qed.

Lemma yield_case_edits k raw u y : (forall v, toFloat raw = Some v -> is_nan v = false) ->
  CrossChainYield.adjust_case k raw = Ok u -> same_life (TYield y) (TYield (u y)).
Proof.
  intros Hn H. split.
  - CrossChainYield.switch_key H; by destruct y.
  - cbn. rewrite !yield_Validate_iff. intros Hc.
    eapply (yield_adjust_case_edits y k raw u y Hn H). split; [by destruct y|done].
Qed.

(** The method leaves the strategy where the loop over its entries does. *)
Lemma adjust_same e entries t : adjustments_ok entries -> same_life t (Task.ApplyAdjustments e entries t).2.
Proof.
  intros Hok. destruct t as [m|l|l|y]; cbn [Task.ApplyAdjustments interface_task on_task].
  - pose proof (apply_entries_inv Momentum.adjust_case (fun m' => same_life (TMomentum m) (TMomentum m'))
      (fun k raw u m' Hn Hu Hm => transitivity Hm (momentum_case_edits k raw u m' Hn Hu)) entries m Hok) as H.
    unfold Momentum.ApplyAdjustments. destruct (apply_entries _ entries m). by apply H.
  - pose proof (apply_entries_inv (LiquidityProvision.adjust_case (e_now e 0%nat))
      (fun l' => same_life (TLiquidity l) (TLiquidity l'))
      (fun k raw u l' Hn Hu Hm => transitivity Hm (liquidity_case_edits _ k raw u l' Hn Hu)) entries l Hok) as H.
    unfold LiquidityProvision.ApplyAdjustments. destruct (apply_entries _ entries l). by apply H.
  - pose proof (apply_entries_inv LiquidationHunting.adjust_case (fun l' => same_life (THunting l) (THunting l'))
      (fun k raw u l' Hn Hu Hm => transitivity Hm (hunting_case_edits k raw u l' Hn Hu)) entries l Hok) as H.
    unfold LiquidationHunting.ApplyAdjustments. destruct (apply_entries _ entries l). by apply H.
  - pose proof (apply_entries_inv CrossChainYield.adjust_case (fun y' => same_life (TYield y) (TYield y'))
      (fun k raw u y' Hn Hu Hm => transitivity Hm (yield_case_edits k raw u y' Hn Hu)) entries y Hok) as H.
    unfold CrossChainYield.ApplyAdjustments. destruct (apply_entries _ entries y). by apply H.
Qed.

(** ** A life *)

Context {L : LLMClient} {DS : DecisionStore} {C : StrategistCodec} {BC : StateCodec}
  (defaultStrategistSystem : string).

(** The strategist a cycle of the runner makes. *)
Definition cycle_strategist (cfg : NodeRunnerConfig) (t : task) (llm : llm_state) (bandit : option TickBandit)
    (store : store_state) : Strategist (T := task) := {|
  Strategist.AgentID := NodeRunner.AgentID cfg; AgentName := Name (cfg_Genome cfg); st_Genome := cfg_Genome cfg;
  st_LLM := Some llm; st_Task := Some t; st_Bandit := bandit; st_Store := Some store;
  Strategist.MaxOutputTokens := NodeRunner.MaxOutputTokens cfg |}.

(** What happens to a task: the monitor's tick, the strategist's cycle with
    the state of the client, the bandit and the store it finds and the order
    its map of changes is visited in, the shutdown. *)
Inductive life_event :=
  | LTick (e : Env)
  | LCycle (cfg : NodeRunnerConfig) (es e : Env) (range : range_order string any) (llm : llm_state)
      (bandit : option TickBandit) (store : store_state)
  | LClose (e : Env).

Definition life_step (t : task) (ev : life_event) : task :=
  match ev with
  | LTick e => (Task.RunTick e t).2
  | LCycle cfg es e range llm bandit store =>
      default t (st_Task (Strategist.Run defaultStrategistSystem es e range (cycle_strategist cfg t llm bandit store)).1.2)
  | LClose e => (Task.CloseAllPositions e t).2
  end.

Definition live (t : task) (events : list life_event) : task := fold_left life_step events t.

(** A map is visited in some order of its entries. *)
Definition fair_event (ev : life_event) : Prop :=
  match ev with LCycle _ _ _ range _ _ _ => range_ok range | _ => True end.

Lemma cycle_same cfg es e range llm bandit store t : range_ok range ->
  same_life t (life_step t (LCycle cfg es e range llm bandit store)).
Proof.
  intros Hr. cbn [life_step]. unfold Strategist.Run. cbn [st_LLM st_Task st_Store cycle_strategist].
  destruct (buildInput _ _ _) as [input|]; [|done]. destruct (marshal_input input) as [json|]; [|done].
  cbv zeta. destruct (Complete _ _ _ llm) as [[resp|err] llm']; [|done].
  unfold decide_answer. destruct (parseStrategistResponse (Content resp)) as [parsed|] eqn:Ep;
    [|by destruct (LogStrategistDecision _ store)].
  destruct (check_signal parsed) as [reasoning log1].
  pose proof (apply_changes_task e range parsed reasoning t) as Ha.
  destruct (apply_changes e range parsed reasoning t) as [[[changes reasoning'] t'] log2].
  destruct (LogStrategistDecision _ store) as [[err|] store']; cbn [fst snd left st_Task default];
    (destruct Ha as [[-> _]|(m & err' & Hm & Ha & _)]; [done|];
     pose proof (adjust_same e _ t (changes_fine range _ parsed m Hr Ep Hm)) as H; by rewrite Ha in H).
Qed.

Lemma live_same events : forall t, Forall fair_event events -> same_life t (live t events).
Proof.
  induction events as [|ev events IH]; intros t Hf; [done|]. apply Forall_cons in Hf as [Hev Hf].
  cbn [live fold_left]. etrans; [|exact (IH _ Hf)].
  destruct ev; [apply tick_same|by apply cycle_same|apply close_same].
Qed.

(** C10: a task that an agent's row builds stays what was built, whatever it
    lives through: after any sequence of ticks on any market, closes and
    strategist cycles, whatever text the models answer and whatever the stores
    and clients do, it is the strategy its name registers, its config still
    passes its own package's validation, with a client of its chain, and the
    chain, pair, pool, protocols, look-back, drawdown and capital floor are
    those it was built with. *)
Theorem built_task_stays_valid d name raw t events :
  build_task unicode_upper d name raw = Ok t -> Forall fair_event events ->
  built_well unicode_upper d name (live t events) /\ fixed_fields (live t events) = fixed_fields t.
Proof.
  intros Hb Hf. pose proof (built_task_valid unicode_upper d name raw t Hb) as Hw.
  pose proof (live_same events t Hf) as Hl.
  destruct t, (live _ events); try done; destruct Hl as [Hfix Hv], Hw as (Hn & Hval & Hc);
    (split; [|exact Hfix]); cbn in Hfix; injection Hfix as Hch; cbn [built_well] in *;
    (split; [done|]); (split; [by apply Hv|]); by rewrite Hch.
Qed.
End Lives.

(** ** A life *)

Definition wild_answer : string :=
  braces (member "reasoning" (quoted "all in") +:+ ", " +:+
          member "config_changes"
            (braces (member "entry_threshold_pct" "9e9" +:+ ", " +:+ member "max_daily_trades" "-5" +:+ ", " +:+
                     member "chain" (quoted "base")))).

#[local] Existing Instance insertion_slice_sort.

Definition momentum_life : list (life_event (L := says wild_answer) (DS := ledger_store)) :=
  [LTick (Momentum.market (Momentum.minute 1) 100);
   LCycle (L := says wild_answer) (DS := ledger_store) (node_config true) (Momentum.market (Momentum.minute 2) 101)
     (Momentum.market (Momentum.minute 2) 101) map_to_list 0%nat None [];
   LTick (Momentum.market (Momentum.minute 3) 120); LClose (Momentum.market (Momentum.minute 4) 90)].

Definition built_momentum : result task := build_task id solana_only "momentum" (momentum_text "solana").

Definition lived (t : task) : task :=
  live (L := says wild_answer) (DS := ledger_store) (C := plain_marshal) (BC := sample_codec) "system" t momentum_life.

(** The numbers are clamped and the chain is not an adjustment. *)
Lemma built_task_stays_valid_witness :
  match built_momentum with
  | Ok t =>
      built_well id solana_only "momentum" (lived t) /\
      match lived t with
      | TMomentum m => (EntryThresholdPct (Momentum.cfg m), MaxDailyTrades (Momentum.cfg m),
                        Momentum.c_Chain (Momentum.cfg m)) = (0.5%float, 1, "solana")
      | _ => False
      end
  | Fail _ => False
  end.
Proof.
  destruct built_momentum as [t|e] eqn:E; [|by vm_compute in E].
  split.
  - apply (built_task_stays_valid id (L := says wild_answer) (DS := ledger_store) (C := plain_marshal)
      (BC := sample_codec) "system" solana_only "momentum" (momentum_text "solana") t momentum_life E).
    repeat constructor. intros A. reflexivity.
  - vm_compute in E. injection E as <-. vm_compute. reflexivity.
Defined.
