(* ===== verification/ChainTasks.v ===== *)
(** * Strategies over the real clients

    What the strategies of [internal/agent/tasks] meet when their clients are
    those of [internal/chain]: the yield strategy asks every client for every
    protocol it allows, which Base's client refuses and Solana's passes over. *)
From Stdlib Require Import ZArith Lia Floats.
From stdpp Require Import base list strings gmap.
From S2P Require Import Prelude GoBase GoFloat Json JsonCodec Task CrossChainYield Security Wallets LendingAccounts Feeds ChainClients.
Set Warnings "-inexact-float".
Open Scope Z_scope.

Section Yields.
Context (unicode_lower : string -> string).

(** The answers are those of a Base client, and of a Solana client, whatever
    their networks answer and whatever became of them before. *)
Definition fair_base (e : Env) : Prop := forall protos,
  exists (S : Secp256k1) (N : Base.Net EcKey) range (s : Base.state), range_ok range /\
    e_yields e "base" protos = (Base.GetYieldRates unicode_lower range protos s).1.

Definition solana_answers (e : Env) : Prop := forall protos,
  exists (E : Ed25519) (N : Solana.Net SolKey) (s : Solana.state),
    e_yields e "solana" protos = (Solana.GetYieldRates unicode_lower protos s).1.

(** The protocols each client knows. *)
Definition on_base (p : string) : bool := mem (ToLower unicode_lower p) ["aave"; "morpho"].
Definition on_solana (p : string) : bool := mem (ToLower unicode_lower p) ["marginfi"; "kamino"].

Lemma each_ok {S A B} (P : A -> Prop) (Q : B -> Prop) (f : A -> io S B) l :
  (forall x s y, (f x s).1 = Ok y -> P x /\ Q y) ->
  forall s ys, (each f l s).1 = Ok ys -> Forall P l /\ Forall Q ys.
Proof.
  intros Hf. induction l as [|x l IH]; intros s ys; [by intros [= <-]|]. cbn [each].
  destruct (bind_case (f x) (fun y => bind (each f l) (fun ys => ret (y :: ys))) s) as [(err & -> & _)|(y & Hy & ->)]; [done|].
  destruct (bind_case (each f l) (fun ys => ret (y :: ys)) (f x s).2) as [(err & -> & _)|(zs & Hz & ->)]; [done|].
  intros [= <-]. apply Hf in Hy as [H1 H2]. apply IH in Hz as [H3 H4]. by split; constructor.
Qed.

(** What Base's client answers: every protocol was its own, and so is every
    rate. *)
Lemma base_rates {S : Secp256k1} {N : Base.Net EcKey} range protos (s : Base.state) rates :
  range_ok range -> (Base.GetYieldRates unicode_lower range protos s).1 = Ok rates ->
  Forall (fun p => on_base p = true) protos /\ Forall (fun r => y_Chain r = "base") rates.
Proof.
  intros Hrange. unfold Base.GetYieldRates.
  destruct (bind_case (each (Base.protocol_rates unicode_lower range) protos) (fun rates => ret (concat rates)) s)
    as [(err & -> & _)|(zs & Hz & ->)]; [done|]. intros [= <-].
  apply (each_ok (fun p => on_base p = true) (Forall (fun r => y_Chain r = "base"))) in Hz as [H1 H2].
  { split; [exact H1|]. apply Forall_concat. exact H2. }
  clear Hz zs. intros p t ys. unfold Base.protocol_rates, on_base, bind, get. cbn [fst snd]. unfold str_eqb.
  case_bool_decide as E1; [|case_bool_decide as E2; [|done]].
  - rewrite E1. intros H. split; [reflexivity|]. unfold feed, fetchAaveRates in H.
    destruct (gql_data _ _ _ _ _) as [[rs|err] w]; [|done]. injection H as <-.
    apply Forall_forall. intros r Hr. apply list_elem_of_In, in_map_iff in Hr as (x & <- & _). done.
  - rewrite E2. intros H. split; [reflexivity|]. unfold feed, fetchMorphoRates in H.
    destruct (gql_data _ _ _ _ _) as [[ms|err] w]; [|done]. injection H as <-.
    assert (Hb : map_Forall (fun _ r => y_Chain r = "base") (best_rates (Base.clock w) ms)).
    { unfold best_rates. assert (H0 : map_Forall (fun _ r => y_Chain r = "base") (∅ : gmap string YieldRate)) by apply map_Forall_empty.
      revert H0. generalize (∅ : gmap string YieldRate). induction ms as [|m ms IH]; intros best H0; [done|].
      cbn [fold_left]. apply IH. unfold better. repeat case_match; try done; by apply map_Forall_insert_2. }
    apply Forall_forall. intros r Hr. apply list_elem_of_fmap in Hr as ([k r'] & -> & Hr).
    rewrite (Hrange _) in Hr. apply elem_of_map_to_list in Hr. exact (Hb _ _ Hr).
Qed.

(** What Solana's client answers when every protocol is Base's: nothing. *)
Lemma solana_rates {E : Ed25519} {N : Solana.Net SolKey} protos (s : Solana.state) rates :
  Forall (fun p => on_base p = true) protos -> (Solana.GetYieldRates unicode_lower protos s).1 = Ok rates -> rates = [].
Proof.
  intros Hp. unfold Solana.GetYieldRates, bind, get, feed. cbn [fst snd].
  assert (H : forall w, fetch (W := Solana.web) unicode_lower Solana.clock (Solana.yield s.1) protos w = (Ok [], w)).
  { induction Hp as [|p protos Hp _ IH]; intros w; [done|]. cbn [fetch].
    unfold str_eqb. rewrite !bool_decide_false; [by rewrite IH| |];
      intros E'; unfold on_base in Hp; rewrite E' in Hp; discriminate Hp. }
  rewrite H. by intros [= <-].
Qed.

Lemma fetch_chains_ok e protos names : forall all rates, fetch_chains e protos names all = Ok rates ->
  Forall (fun name => is_ok (e_yields e name protos) = true) names /\
  forall r, r ∈ rates -> r ∈ all \/ exists name rs r', name ∈ names /\ e_yields e name protos = Ok rs /\ r' ∈ rs /\ r = named name r'.
Proof.
  induction names as [|name names IH]; intros all rates; cbn [fetch_chains]; [intros [= ->]; split; [constructor|by left]|].
  destruct (e_yields e name protos) as [rs|] eqn:E; [|done]. intros H. apply IH in H as [H1 H2].
  split; [constructor; [by rewrite E|done]|]. intros r Hr. destruct (H2 r Hr) as [Hin|(n & ks & r' & Hn & Ek & Hr' & ->)].
  - apply elem_of_app in Hin as [Hin|Hin]; [by left|right]. apply list_elem_of_fmap in Hin as (r' & -> & Hf).
    apply list_elem_of_In, List.filter_In in Hf as [Hf _]. exists name, rs, r'. split; [left|]. split; [done|].
    split; [by apply list_elem_of_In|done].
  - right. exists n, ks, r'. split; [by right|done].
Qed.

(** With the clients of both chains a yield strategy never crosses between
    them: it only ever chooses among Base's rates, and one that allows any of
    Solana's protocols gets no rates at all, so that its ticks keep every
    position and all capital where they are. *)
Theorem yield_never_crosses e y : clients y = {["base"; "solana"]} -> fair_base e -> solana_answers e ->
  match fetchAllowedRates e y with
  | Ok rates => Forall (fun r => y_Chain r = "base") rates /\ Forall (fun p => on_base p = true) (AllowedProtocols (cfg y))
  | Fail _ =>
      let '(r, y') := RunTick e y in
      allocation y' = allocation y /\ freeCapital y' = freeCapital y /\ (r = Ok [] \/ is_ok r = false)
  end.
Proof.
  intros Hc Hb Hs. destruct (fetchAllowedRates e y) as [rates|err] eqn:Ef.
  - unfold fetchAllowedRates in Ef. set (protos := AllowedProtocols (cfg y)) in *. apply fetch_chains_ok in Ef as [Hok Hin].
    assert (Hn : forall n, n ∈ insertion_sort str_lt (elements (clients y)) <-> n = "base" \/ n = "solana").
    { intros n. rewrite insertion_sort_perm, elem_of_elements, Hc, elem_of_union, !elem_of_singleton. done. }
    rewrite Forall_forall in Hok. specialize (Hok "base" ltac:(apply Hn; by left)).
    destruct (Hb protos) as (S & N & range & s & Hr & Ey). destruct (e_yields e "base" protos) as [bs|] eqn:Eb; [|done].
    symmetry in Ey. destruct (base_rates range protos s bs Hr Ey) as [H1 H2]. split; [|exact H1].
    apply Forall_forall. intros r Hr'. destruct (Hin r Hr') as [[]%elem_of_nil|(n & rs & r' & Hn' & En & Hr1 & ->)].
    apply Hn in Hn' as [-> | ->].
    + rewrite Eb in En. injection En as <-. rewrite Forall_forall in H2. unfold named. rewrite (H2 r' Hr1). apply (H2 r' Hr1).
    + destruct (Hs protos) as (E & N' & s' & Es). rewrite En in Es. symmetry in Es.
      rewrite (solana_rates protos s' rs H1 Es) in Hr1. by apply elem_of_nil in Hr1.
  - unfold RunTick. destruct (negb _); [by split_and!; [..|left]|].
    destruct (_ <? _)%float; [by split_and!; [..|left]|].
    replace (fetchAllowedRates e (with_lastCheck y _)) with (fetchAllowedRates e y) by reflexivity. rewrite Ef.
    by split_and!; [..|right].
Qed.
End Yields.

(** ** A strategy stuck *)

(** Base's subgraph answers one reserve. *)
Definition toy_base : Base.Net (EcKey (Secp256k1 := plain_secp256k1)) := {|
  Base.Tx := string;
  Base.IsHexAddress := fun s => HasPrefix s "0x";
  Base.address_bytes := id;
  Base.hexutil_Decode := Ok;
  Base.NewTx := fun t => Base.To t;
  Base.UnmarshalBinary := Ok;
  Base.signed := fun _ => false;
  Base.Gas := fun _ => 21000;
  Base.Hash := id;
  Base.SignTx := fun _ _ tx => Ok tx;
  Base.Sender := fun _ tx => Ok tx;
  Base.url_error := fun _ => None;
  Base.answer := fun _ _ =>
    Ok (200, Ok (write_object [("data", write_object [("reserves", write_array
      [write_object [("underlyingAsset", json_string "0xusdc"); ("liquidityRate", json_string "41000000000000000000000000");
                     ("totalLiquidity", json_string "5000000"); ("decimals", "6")]])])]));
  Base.clock := fun log => len log;
  Base.BalanceAt := fun _ _ => Ok None;
  Base.CallContract := fun _ _ _ => Ok "";
  Base.PendingNonceAt := fun _ _ => Ok 0;
  Base.SuggestGasTipCap := fun _ => Ok 1;
  Base.BaseFee := fun _ => Ok 1;
  Base.EstimateGas := fun _ _ _ => inl 21000;
  Base.Send := fun _ _ => None |}.

Definition base_state : Base.state (S := plain_secp256k1) (N := toy_base) :=
  ({| Base.network := "sepolia"; Base.chainID := 84532; Base.rpcURL := ""; Base.aggregator := newAggregatorClient ∅;
      Base.aave := ""; Base.morpho := ""; Base.yield := newBaseYieldClient ∅; Base.masterKey := "";
      Base.decCache := ∅ |}, []).

Definition two_chains : Env := {|
  e_now := fun _ => 1000 * Second;
  e_quote := fun _ _ _ _ => Fail (EMsg "none");
  e_yields := fun name protos =>
    if str_eqb name "base"
    then (Base.GetYieldRates (S := plain_secp256k1) (N := toy_base) map_lower map_to_list protos base_state).1
    else (Solana.GetYieldRates (E := plain_ed25519) (N := toy_net) map_lower protos (keyed "", [])).1;
  e_positions := fun _ _ _ => Ok [];
  e_liquidate := fun _ _ _ => Ok None;
  e_range := fun _ _ => map_to_list |}.

Definition yield_task (protos : list string) : CrossChainYield := {|
  cfg := {| PrimaryChain := "base"; AllowedProtocols := protos; MinYieldDiffBps := 50; MaxSingleProtocolPct := 1;
    RebalanceIntervalSecs := 3600; BridgeCostThreshold := 10; MaxDrawdownPct := 20; CheckIntervalSecs := 60; MinCapitalToOperate := 100 |};
  clients := {["base"; "solana"]}; allocation := ∅; freeCapital := 1000; lastCheck := 0; lastRebalance := 0;
  lastRates := []; rebalanceHistory := [] |}.

Lemma two_chains_base : fair_base map_lower two_chains.
Proof. intros protos. exists plain_secp256k1, toy_base, map_to_list, base_state. split; [by intros m|done]. Qed.

Lemma two_chains_solana : solana_answers map_lower two_chains.
Proof. intros protos. by exists plain_ed25519, toy_net, (keyed "", []). Qed.

(** Allowing MarginFi next to Aave stops the strategy; Aave alone, it trades. *)
Lemma yield_never_crosses_witness :
  let '(r, y') := RunTick two_chains (yield_task ["aave"; "marginfi"]) in
  allocation y' = ∅ /\ freeCapital y' = 1000%float /\ (r = Ok [] \/ is_ok r = false).
Proof.
  pose proof (yield_never_crosses map_lower two_chains (yield_task ["aave"; "marginfi"]) eq_refl two_chains_base
    two_chains_solana) as H.
  assert (E : is_ok (fetchAllowedRates two_chains (yield_task ["aave"; "marginfi"])) = false) by (vm_compute; reflexivity).
  destruct (fetchAllowedRates _ _); [discriminate E|exact H].
Defined.

Example aave_alone :
  match (RunTick two_chains (yield_task ["aave"])).1 with Ok trades => length trades = 1%nat | Fail _ => False end.
Proof. vm_compute. reflexivity. Qed.
