(* ===== verification/Config.v ===== *)
(** * Configuration ([internal/config/config.go])

    The environment is a function from names to values, empty for a name that
    is not set; the order the map of required names is visited in is an
    argument. *)
From Stdlib Require Import ZArith Lia Floats.
From stdpp Require Import base list strings.
From S2P Require Import Prelude GoBase GoFloat Strconv Security.
Set Warnings "-inexact-float".
Open Scope Z_scope.

Record Config := {
  Network : string;
  DatabaseURL : string;
  DatabasePoolURL : string;
  RedisURL : string;
  AnthropicAPIKey : string;
  OpenAIAPIKey : string;
  HeliusDevnetURL : string;
  AlchemyBaseSepoliaURL : string;
  TelegramBotToken : string;
  TelegramChatID : string;
  MasterEncryptionKey : string;
  MonthlyBudgetUSD : float;
  LogLevel : string;
  APIKey : string;
}.

Definition no_config : Config := {|
  Network := ""; DatabaseURL := ""; DatabasePoolURL := ""; RedisURL := ""; AnthropicAPIKey := ""; OpenAIAPIKey := "";
  HeliusDevnetURL := ""; AlchemyBaseSepoliaURL := ""; TelegramBotToken := ""; TelegramChatID := "";
  MasterEncryptionKey := ""; MonthlyBudgetUSD := 0; LogLevel := ""; APIKey := "" |}.

(** The fields of the required variables. *)
Definition with_required (network db redis key api : string) (c : Config) : Config := {|
  Network := network; DatabaseURL := db; DatabasePoolURL := DatabasePoolURL c; RedisURL := redis;
  AnthropicAPIKey := AnthropicAPIKey c; OpenAIAPIKey := OpenAIAPIKey c; HeliusDevnetURL := HeliusDevnetURL c;
  AlchemyBaseSepoliaURL := AlchemyBaseSepoliaURL c; TelegramBotToken := TelegramBotToken c;
  TelegramChatID := TelegramChatID c; MasterEncryptionKey := key; MonthlyBudgetUSD := MonthlyBudgetUSD c;
  LogLevel := LogLevel c; APIKey := api |}.

Definition required : list string :=
  ["NETWORK"; "DATABASE_URL"; "REDIS_URL"; "MASTER_ENCRYPTION_KEY"; "API_KEY"].

(** [*dest = v]. *)
Definition put (name v : string) (c : Config) : Config :=
  let set n old := if str_eqb name n then v else old in
  with_required (set "NETWORK" (Network c)) (set "DATABASE_URL" (DatabaseURL c)) (set "REDIS_URL" (RedisURL c))
    (set "MASTER_ENCRYPTION_KEY" (MasterEncryptionKey c)) (set "API_KEY" (APIKey c)) c.

Section Load.
Context (getenv : string -> string).

Fixpoint read_required (names : list string) (c : Config) : result Config :=
  match names with
  | [] => Ok c
  | name :: names' =>
      let v := getenv name in
      if str_eqb v "" then Fail (EMsg ("missing required environment variable " +:+ name))
      else read_required names' (put name v c)
  end.

Definition or_else (v fallback : string) : string := if str_eqb v "" then fallback else v.

Definition monthly_budget : result float :=
  let v := getenv "MONTHLY_BUDGET_USD" in
  if str_eqb v "" then Ok 100%float
  else match ParseFloat v with (f, None) => Ok f | (_, Some err) => Fail (EWrap "MONTHLY_BUDGET_USD %q: %w" err) end.

(** [visit]: the order the required names come in. *)
Definition Load (visit : list string) : result Config :=
  match read_required visit no_config with
  | Fail err => Fail err
  | Ok c =>
      if negb (str_eqb (Network c) "devnet" || str_eqb (Network c) "mainnet")
      then Fail (EMsg "invalid NETWORK %q: must be devnet or mainnet")
      else if negb (str_len (MasterEncryptionKey c) =? 64)
      then Fail (EMsg "MASTER_ENCRYPTION_KEY must be 64 hex chars (32 bytes), got %d chars")
      else
        match monthly_budget with
        | Fail err => Fail err
        | Ok budget =>
            Ok {|
              Network := Network c; DatabaseURL := DatabaseURL c;
              DatabasePoolURL := or_else (getenv "DATABASE_POOL_URL") (DatabaseURL c); RedisURL := RedisURL c;
              AnthropicAPIKey := getenv "ANTHROPIC_API_KEY"; OpenAIAPIKey := getenv "OPENAI_API_KEY";
              HeliusDevnetURL := getenv "HELIUS_DEVNET_URL";
              AlchemyBaseSepoliaURL := getenv "ALCHEMY_BASE_SEPOLIA_URL";
              TelegramBotToken := getenv "TELEGRAM_BOT_TOKEN"; TelegramChatID := getenv "TELEGRAM_CHAT_ID";
              MasterEncryptionKey := MasterEncryptionKey c; MonthlyBudgetUSD := budget;
              LogLevel := or_else (getenv "LOG_LEVEL") "info"; APIKey := APIKey c |}
        end
  end.

(** ** What is loaded *)

(** The environment has what [Load] asks for. *)
Record complete : Prop := {
  all_set : forall name, name ∈ required -> getenv name <> "";
  network_known : getenv "NETWORK" ∈ ["devnet"; "mainnet"];
  key_size : str_len (getenv "MASTER_ENCRYPTION_KEY") = 64;
  budget_read : is_ok monthly_budget = true;
}.

Definition budget_or_zero : float := match monthly_budget with Ok f => f | Fail _ => 0%float end.

(** The configuration the environment stands for. *)
Definition config_of : Config := {|
  Network := getenv "NETWORK"; DatabaseURL := getenv "DATABASE_URL";
  DatabasePoolURL := or_else (getenv "DATABASE_POOL_URL") (getenv "DATABASE_URL"); RedisURL := getenv "REDIS_URL";
  AnthropicAPIKey := getenv "ANTHROPIC_API_KEY"; OpenAIAPIKey := getenv "OPENAI_API_KEY";
  HeliusDevnetURL := getenv "HELIUS_DEVNET_URL"; AlchemyBaseSepoliaURL := getenv "ALCHEMY_BASE_SEPOLIA_URL";
  TelegramBotToken := getenv "TELEGRAM_BOT_TOKEN"; TelegramChatID := getenv "TELEGRAM_CHAT_ID";
  MasterEncryptionKey := getenv "MASTER_ENCRYPTION_KEY"; MonthlyBudgetUSD := budget_or_zero;
  LogLevel := or_else (getenv "LOG_LEVEL") "info"; APIKey := getenv "API_KEY" |}.

(** What the fields visited so far hold. *)
Definition filled (seen : list string) (c : Config) : Prop :=
  ("NETWORK" ∈ seen -> Network c = getenv "NETWORK") /\
  ("DATABASE_URL" ∈ seen -> DatabaseURL c = getenv "DATABASE_URL") /\
  ("REDIS_URL" ∈ seen -> RedisURL c = getenv "REDIS_URL") /\
  ("MASTER_ENCRYPTION_KEY" ∈ seen -> MasterEncryptionKey c = getenv "MASTER_ENCRYPTION_KEY") /\
  ("API_KEY" ∈ seen -> APIKey c = getenv "API_KEY").

Lemma put_filled seen name c : filled seen c -> filled (name :: seen) (put name (getenv name) c).
Proof.
  intros (H1 & H2 & H3 & H4 & H5). unfold filled, put, with_required, str_eqb. cbn [Network DatabaseURL RedisURL MasterEncryptionKey APIKey].
  split_and!; intros [<- |Hin]%elem_of_cons; try (by rewrite bool_decide_true);
    case_bool_decide as E; first [by rewrite E|by auto].
Qed.

Lemma read_required_spec names : forall seen c, filled seen c ->
  match read_required names c with
  | Ok c' => (forall name, name ∈ names -> getenv name <> "") /\ filled (rev names ++ seen) c'
  | Fail err => exists name, name ∈ names /\ getenv name = "" /\
      err = EMsg ("missing required environment variable " +:+ name)
  end.
Proof.
  induction names as [|name names IH]; intros seen c Hf; cbn [read_required rev].
  - split; [|exact Hf]. intros n Hn. by apply elem_of_nil in Hn.
  - unfold str_eqb. case_bool_decide as E; [exists name; split; [left|done]|].
    specialize (IH (name :: seen) _ (put_filled _ name _ Hf)). destruct (read_required names _) as [c'|err].
    + destruct IH as [H1 H2]. split; [|by rewrite <- app_assoc]. intros n [-> |Hn]%elem_of_cons; [done|by apply H1].
    + destruct IH as (n & Hn & H). exists n. split; [by right|done].
Qed.

Lemma load_iff visit : visit ≡ₚ required -> forall c, Load visit = Ok c <-> complete /\ c = config_of.
Proof.
  intros Hv. assert (Hmem : forall n, n ∈ visit <-> n ∈ required) by (intros n; by rewrite Hv).
  pose proof (read_required_spec visit [] no_config) as H.
  assert (H0 : filled [] no_config) by (split_and!; by intros ?%elem_of_nil). specialize (H H0). clear H0.
  unfold Load. destruct (read_required visit no_config) as [c0|err]; intros c.
  2: { destruct H as (n & Hn & E & ->). split; [done|]. intros [[Hall _ _ _] _]. by destruct (Hall n); [apply Hmem|]. }
  destruct H as [Hset Hf]. rewrite app_nil_r in Hf.
  assert (Hin : forall n, n ∈ required -> n ∈ rev visit) by (intros n Hn; by rewrite <- (Permutation_rev visit), Hmem).
  destruct Hf as (E1 & E2 & E3 & E4 & E5).
  rewrite E1, E2, E3, E4, E5 by (apply Hin; unfold required; rewrite !elem_of_cons; tauto). clear E1 E2 E3 E4 E5 Hin.
  split.
  - destruct (negb _) eqn:En; [done|]. destruct (negb (_ =? _)) eqn:Ek; [done|].
    destruct monthly_budget as [b|] eqn:Eb; [|done]. intros [= <-]. split.
    + constructor; [intros n Hn; by apply Hset, Hmem| | |by rewrite Eb].
      * apply negb_false_iff, orb_true_iff in En as [En|En]; apply bool_decide_eq_true in En; rewrite En, !elem_of_cons; tauto.
      * apply negb_false_iff, Z.eqb_eq in Ek. exact Ek.
    + unfold config_of, budget_or_zero. by rewrite Eb.
  - intros [[_ Hn Hk Hb] ->]. rewrite Hk. cbn [negb Z.eqb Pos.eqb].
    unfold config_of, budget_or_zero. destruct monthly_budget as [b|] eqn:Eb; [|done].
    assert (En : str_eqb (getenv "NETWORK") "devnet" || str_eqb (getenv "NETWORK") "mainnet" = true).
    { unfold str_eqb. apply orb_true_iff. rewrite !bool_decide_eq_true. rewrite !elem_of_cons, elem_of_nil in Hn. tauto. }
    by rewrite En.
Qed.

(** Whatever order the map is visited in, [Load] returns the configuration
    the environment stands for exactly when the required variables are set, the
    network is one of the two, the key has 64 characters and the budget parses;
    and when a required variable is missing, it names one that is. *)
Theorem config_loaded visit : visit ≡ₚ required ->
  (forall c, Load visit = Ok c <-> complete /\ c = config_of) /\
  (forall name, name ∈ required -> getenv name = "" ->
     exists missing, missing ∈ required /\ getenv missing = "" /\
       Load visit = Fail (EMsg ("missing required environment variable " +:+ missing))).
Proof.
  intros Hv. split; [by apply load_iff|]. intros name Hname E.
  pose proof (read_required_spec visit [] no_config) as H.
  assert (H0 : filled [] no_config) by (split_and!; by intros ?%elem_of_nil). specialize (H H0).
  unfold Load. destruct (read_required visit no_config) as [c0|err].
  - destruct H as [Hset _]. destruct (Hset name); [by rewrite Hv|done].
  - destruct H as (n & Hn & En & ->). exists n. split; [by rewrite <- Hv|done].
Qed.

(** No environment suits both readers of [MASTER_ENCRYPTION_KEY]: the
    configuration wants 64 characters there, [security.LoadMasterKey] 32 bytes. *)
Theorem master_key_disputed visit : visit ≡ₚ required ->
  is_ok (Load visit) = true -> is_ok (LoadMasterKey getenv MasterKeyEnv) = false.
Proof.
  intros Hv. destruct (Load visit) as [c|] eqn:E; [|done]. intros _.
  apply (load_iff visit Hv) in E as [[Hset _ Hk _] _]. unfold LoadMasterKey. cbn [str_eqb].
  replace (str_eqb MasterKeyEnv "") with false by reflexivity. unfold MasterKeyEnv.
  destruct (str_eqb _ ""); [done|]. rewrite Hk. reflexivity.
Qed.
End Load.

(** ** Samples *)

Definition env_of (l : list (string * string)) (name : string) : string :=
  match List.find (fun kv => str_eqb kv.1 name) l with Some kv => kv.2 | None => "" end.

Definition sixteen : string := "0123456789abcdef".

Definition minimal_env (network : string) : list (string * string) :=
  [("NETWORK", network); ("DATABASE_URL", "postgres://u@h/db"); ("REDIS_URL", "rediss://h");
   ("MASTER_ENCRYPTION_KEY", sixteen +:+ sixteen +:+ sixteen +:+ sixteen); ("API_KEY", "k")].

Lemma config_loaded_witness :
  Load (env_of (minimal_env "devnet")) (rev required) = Ok (config_of (env_of (minimal_env "devnet"))) /\
  exists missing, missing ∈ required /\ env_of (tl (minimal_env "devnet")) missing = "" /\
    Load (env_of (tl (minimal_env "devnet"))) required = Fail (EMsg ("missing required environment variable " +:+ missing)).
Proof.
  split.
  - apply (config_loaded (env_of (minimal_env "devnet")) (rev required) (Permutation_sym (Permutation_rev required))).
    split; [|done]. constructor; [|vm_compute; left|reflexivity|reflexivity].
    intros name H E. unfold required in H. rewrite !elem_of_cons, elem_of_nil in H.
    destruct H as [-> |[-> |[-> |[-> |[-> |[]]]]]]; discriminate E.
  - apply (config_loaded (env_of (tl (minimal_env "devnet"))) required (Permutation_refl _)) with (name := "NETWORK");
      [left|reflexivity].
Defined.

Lemma master_key_disputed_witness :
  is_ok (LoadMasterKey (env_of (minimal_env "devnet")) MasterKeyEnv) = false.
Proof. apply (master_key_disputed (env_of (minimal_env "devnet")) required (Permutation_refl _)). vm_compute. reflexivity. Defined.

(** A budget that is no number, NaN, which passes, and an unset pool URL. *)
Example budgets :
  is_ok (Load (env_of (("MONTHLY_BUDGET_USD", "ten") :: minimal_env "devnet")) required) = false /\
  match Load (env_of (("MONTHLY_BUDGET_USD", "NaN") :: minimal_env "mainnet")) required with
  | Ok c => is_nan (MonthlyBudgetUSD c) && str_eqb (DatabasePoolURL c) "postgres://u@h/db"
  | Fail _ => false
  end = true.
Proof. vm_compute. by split. Qed.
