(* ===== verification/Commands.v ===== *)
(** * The commands ([cmd/swarm/main.go], [cmd/init-treasury/main.go],
      [cmd/seed-nodes/main.go], [parser.go], [internal/db/migrate.go], [db.go])

    How the swarm comes up: the configuration, the migrations, the pool, the
    treasuries, Redis and the chain clients, in the order of [run]; the two
    commands that fill the table of agents before it does.  What the drivers
    make of their URLs is an argument. *)
From Stdlib Require Import ZArith Lia Floats.
From stdpp Require Import base list strings gmap.
From S2P Require Import Prelude GoBase GoFmt GoFloat Encodings Security Wallets Registry Llm Feeds ChainClients Database Config.
Set Warnings "-inexact-float".
Open Scope Z_scope.
Open Scope go_scope.

(** ** The database's URLs ([internal/db/migrate.go], [db.go]) *)

(** [stripScheme]: a scheme with nothing after it stays. *)
Definition stripScheme (url : string) : string :=
  if (str_len "postgres://" <? str_len url) && HasPrefix url "postgres://" then TrimPrefix url "postgres://"
  else if (str_len "postgresql://" <? str_len url) && HasPrefix url "postgresql://" then TrimPrefix url "postgresql://"
  else url.

(** What golang-migrate, pgx and go-redis make of a URL; a migration changes the
    database. *)
Record Drivers (Db : Type) := {
  iofs_New : option gerror;
  NewWithSourceInstance : string -> option gerror;
  Up : string -> Db -> option gerror * Db;
  ParseConfig : string -> option gerror;
  NewWithConfig : string -> option gerror;
  Ping : string -> option gerror;
  redis_ParseURL : string -> option gerror;
  redis_Ping : string -> option gerror;
  DialContext : string -> option gerror;
}.
Arguments iofs_New {_} _.
Arguments NewWithSourceInstance {_} _ _.
Arguments Up {_} _ _ _.
Arguments ParseConfig {_} _ _.
Arguments NewWithConfig {_} _ _.
Arguments Ping {_} _ _.
Arguments redis_ParseURL {_} _ _.
Arguments redis_Ping {_} _ _.
Arguments DialContext {_} _ _.

Definition ErrNoChange : gerror := EMsg "no change".

(** An error, or nothing to do. *)
Definition failed (what : string) (err : option gerror) : result unit :=
  match err with Some err => Fail (EWrap what err) | None => Ok tt end.

Section Startup.
Context {P : Postgres} (D : Drivers database).

(** [db.Run]. *)
Definition Run (directURL : string) (db : database) : option gerror * database :=
  if str_eqb directURL "" then (Some (EMsg "db.Run: DATABASE_URL is empty"), db)
  else
    match iofs_New D with
    | Some err => (Some (EWrap "db.Run: open embedded migrations: %w" err), db)
    | None =>
        let url := "pgx5://" +:+ stripScheme directURL in
        match NewWithSourceInstance D url with
        | Some err => (Some (EWrap "db.Run: init migrate: %w" err), db)
        | None =>
            match Up D url db with
            | (Some err, db) =>
                if errors_Is err ErrNoChange then (None, db) else (Some (EWrap "db.Run: apply up migrations: %w" err), db)
            | (None, db) => (None, db)
            end
        end
    end.

(** [db.NewPool]. *)
Definition NewPool (poolURL : string) : result unit :=
  if str_eqb poolURL "" then Fail (EMsg "db: pool URL is empty")
  else
    let? _ := failed "db: parse pool URL: %w" (ParseConfig D poolURL) in
    let? _ := failed "db: open pool: %w" (NewWithConfig D poolURL) in
    failed "db: ping: %w" (Ping D poolURL).

(** [redis.New]. *)
Definition NewRedis (url : string) : result unit :=
  if str_eqb url "" then Fail (EMsg "redis: empty URL")
  else
    let? _ := failed "redis: parse URL: %w" (redis_ParseURL D url) in
    failed "redis: ping: %w" (redis_Ping D url).

(** ** Booting the swarm *)

Definition newLogger (level : string) : Level :=
  if str_eqb level "debug" then DebugLevel
  else if str_eqb level "warn" then WarnLevel
  else if str_eqb level "error" then ErrorLevel
  else InfoLevel.

Definition apiAddr (getenv : string -> string) : string := or_else (getenv "API_ADDR") ":8080".

Inductive chain_client := CSolana (c : Solana.SolanaClient) | CBase (c : Base.BaseClient).

(** The factories the package registers as it starts. *)
Definition solana_factory (cfg : ChainConfig) : result chain_client :=
  let? c := Solana.solanaFactory cfg in Ok (CSolana c).

Definition base_factory (cfg : ChainConfig) : result chain_client :=
  let? c := Base.baseFactory (DialContext D) cfg in Ok (CBase c).

Definition factories : option (gmap string (ChainConfig -> result chain_client)) :=
  match Chains.Register ∅ "base" (Some base_factory) with
  | Some r => Chains.Register r "solana" (Some solana_factory)
  | None => None
  end.

(** The client of one chain. *)
Definition build_client (r : gmap string (ChainConfig -> result chain_client)) (network name rpcURL : string)
    : result chain_client :=
  let? factory := Chains.Get r name wrap "chain %s: %w" in
  let? client := factory {| cc_Network := network; cc_RPCURL := rpcURL; cc_Extra := ∅ |}
    wrap "chain %s factory: %w" in
  Ok client.

Fixpoint build_clients (r : gmap string (ChainConfig -> result chain_client)) (network : string)
    (l : list (string * string)) (out : gmap string chain_client) : result (gmap string chain_client) :=
  match l with
  | [] => Ok out
  | (name, rpcURL) :: l' =>
      let? client := build_client r network name rpcURL in
      build_clients r network l' (<[name := client]> out)
  end.

Definition buildChainClients (r : gmap string (ChainConfig -> result chain_client)) (cfg : Config.Config)
    : result (gmap string chain_client) :=
  build_clients r (Network cfg) [("solana", HeliusDevnetURL cfg); ("base", AlchemyBaseSepoliaURL cfg)] ∅.

(** What [run] has built when the chain clients are. *)
Record booted := {
  b_config : Config.Config;
  b_level : Level;
  b_llm : LLMRegistry;
  b_clients : gmap string chain_client;
}.

(** [run] of [cmd/swarm], to the subsystems it starts next; a process whose
    packages do not start has no result. *)
Definition boot (getenv : string -> string) (visit : list string) (db : database)
    : option (result booted * database) :=
  match factories with
  | None => None
  | Some r => Some
      match Load getenv visit with
      | Fail err => (Fail (EWrap "config: %w" err), db)
      | Ok cfg =>
          match Run (DatabaseURL cfg) db with
          | (Some err, db) => (Fail (EWrap "migrations: %w" err), db)
          | (None, db) =>
              (let? _ := NewPool (DatabasePoolURL cfg) wrap "db pool: %w" in
               let? ready := TreasuryInitialized db wrap "treasury check: %w" in
               if negb ready
               then Fail (EMsg "treasury not initialized — run `go run ./cmd/init-treasury` first")
               else
                 let? _ := NewRedis (RedisURL cfg) wrap "redis: %w" in
                 let llm := Configure empty_registry (AnthropicAPIKey cfg) (OpenAIAPIKey cfg) in
                 let? clients := buildChainClients r cfg wrap "chain clients: %w" in
                 Ok {| b_config := cfg; b_level := newLogger (LogLevel cfg); b_llm := llm; b_clients := clients |},
               db)
          end
      end
  end.

(** ** Wallets for new agents *)

Context {E : Ed25519} {S : Secp256k1} {A : AEAD}.

(** What the random reader yields while a wallet is made: a seed, a key, a
    nonce. *)
Record draw := { d_seed : option string; d_key : result EcKey; d_nonce : option string }.

(** [newTreasuryWallet] and [newWallet]. *)
Definition newWallet (d : draw) (chainName masterKey : string) : result Wallet :=
  if str_eqb chainName "solana" then NewSolanaWallet (d_seed d) (d_nonce d) masterKey
  else if str_eqb chainName "base" then NewBaseWallet (d_key d) (d_nonce d) masterKey
  else Fail (EMsg "unknown chain %q").

Definition decode_master (hex : string) : result string :=
  let? key := hex_DecodeString hex wrap "decode MASTER_ENCRYPTION_KEY: %w" in
  if negb (str_len key =? 32) then Fail (EMsg "MASTER_ENCRYPTION_KEY decodes to %d bytes, want 32") else Ok key.

(** ** The treasuries ([cmd/init-treasury]) *)

Definition solanaTreasuryName : string := "root_treasury_solana".
Definition baseTreasuryName : string := "root_treasury_base".

Definition treasury_row (name chainName : string) (w : Wallet) : Database.Agent := {|
  da_ID := ""; da_Name := name; da_Chain := chainName; da_WalletAddress := w_Address w;
  da_WalletKeyEncrypted := w_KeyEncrypted w; da_TaskType := "cross_chain_yield"; da_StrategyConfig := "";
  da_StrategistPrompt := "root treasury — not a strategist"; da_StrategistModel := "claude-haiku-4-5-20251001";
  da_StrategistIntervalSeconds := 14400; da_BanditPolicies := ""; da_LearnedRules := ""; da_SleepSchedule := "";
  da_ReproductionPolicy := ""; da_CostPolicy := ""; da_CommunicationPolicy := ""; da_NodeClass := "funded";
  da_Generation := 0; da_LineageDepth := 0; da_CapitalAllocated := 0 |}.

(** The address of a treasury, and whether this run made it. *)
Definition ensureTreasury (d : draw) (masterKey name chainName : string) (db : database)
    : result (string * bool) * database :=
  match GetAgentByName name db with
  | Ok existing => (Ok (da_WalletAddress existing, false), db)
  | Fail err =>
      if negb (errors_Is err ErrAgentNotFound) then (Fail (EWrap "check %s: %w" err), db)
      else
        match newWallet d chainName masterKey with
        | Fail err => (Fail err, db)
        | Ok wallet =>
            match InsertAgent (treasury_row name chainName wallet) db with
            | (Fail err, db) => (Fail (EWrap "insert %s: %w" err), db)
            | (Ok _, db) => (Ok (w_Address wallet, true), db)
            end
        end
  end.

Definition ensure_both (d1 d2 : draw) (masterKey : string) (db : database)
    : result ((string * bool) * (string * bool)) * database :=
  match ensureTreasury d1 masterKey solanaTreasuryName "solana" db with
  | (Fail err, db) => (Fail err, db)
  | (Ok sol, db) =>
      match ensureTreasury d2 masterKey baseTreasuryName "base" db with
      | (Fail err, db) => (Fail err, db)
      | (Ok base, db) => (Ok (sol, base), db)
      end
  end.

(** [run]; its output is the two answers. *)
Definition init_treasury (getenv : string -> string) (visit : list string) (d1 d2 : draw) (db : database)
    : result ((string * bool) * (string * bool)) * database :=
  match
    (let? cfg := Load getenv visit wrap "config: %w" in
     let? masterKey := decode_master (MasterEncryptionKey cfg) in
     let? _ := NewPool (DatabasePoolURL cfg) wrap "db pool: %w" in
     Ok masterKey)
  with
  | Fail err => (Fail err, db)
  | Ok masterKey => ensure_both d1 d2 masterKey db
  end.

(** ** The seeds ([cmd/seed-nodes]) *)

Record SeedSpec := {
  s_Name : string;
  s_TaskType : string;
  s_Chain : string;
  s_NodeClass : string;
  s_CapitalUSD : float;
  s_StrategistModel : string;
  s_StrategistPrompt : string;
  s_StrategistInterval : Z;
}.

Record SeedReport := { Spawned : Z; Skipped : Z; Lines : list string }.

Definition no_report : SeedReport := {| Spawned := 0; Skipped := 0; Lines := [] |}.

(** The first name that repeats an earlier one, or is empty, fails the file. *)
Fixpoint check_names (seen : gset string) (nodes : list SeedSpec) : result unit :=
  match nodes with
  | [] => Ok tt
  | n :: nodes' =>
      if str_eqb (s_Name n) "" then Fail (EMsg "nodes[%d]: name required")
      else if bool_decide (s_Name n ∈ seen) then Fail (EMsg "nodes[%d]: duplicate name %q")
      else check_names ({[s_Name n]} ∪ seen) nodes'
  end.

(** [unmarshal]: the nodes the YAML library reads from a file. *)
Definition ParseSeedYAML (unmarshal : string -> result (list SeedSpec)) (raw : string) : result (list SeedSpec) :=
  if str_eqb raw "" then Fail (EMsg "empty seed file")
  else
    let? nodes := unmarshal raw wrap "yaml: %w" in
    if len nodes =? 0 then Fail (EMsg "seed file: nodes list is empty")
    else let? _ := check_names ∅ nodes in Ok nodes.

Definition Validate (s : SeedSpec) : option gerror :=
  if str_eqb (s_Name s) "" then Some (EMsg "name required")
  else if negb (mem (s_Chain s) ["solana"; "base"]) then Some (EMsg "chain %q: must be solana or base")
  else if negb (mem (s_TaskType s) ["cross_chain_yield"; "liquidity_provision"; "liquidation_hunting"; "momentum"])
  then Some (EMsg "task_type %q: must be one of cross_chain_yield, liquidity_provision, liquidation_hunting, momentum")
  else if negb (mem (s_NodeClass s) ["funded"; "shadow"]) then Some (EMsg "node_class %q: must be funded or shadow")
  else if (s_CapitalUSD s <? 0)%float then Some (EMsg "capital_usd %.2f: must be >= 0")
  else None.

Definition defaultPromptFor (taskType : string) : string :=
  if str_eqb taskType "cross_chain_yield"
  then "you scan cross-chain yield. raise rates beat fees-plus-slippage; rebalance otherwise. be conservative on devnet."
  else if str_eqb taskType "liquidity_provision"
  then "you manage an LP position. widen ranges in volatile regimes, tighten when IL risk is low."
  else if str_eqb taskType "liquidation_hunting"
  then "you hunt under-collateralized positions. take only liquidations whose bonus clears gas + slippage with margin."
  else if str_eqb taskType "momentum"
  then "you trade momentum on a single pair. enter on confirmed breakouts, exit on threshold reversal or stop-loss."
  else "you are a strategist.".

Definition ToAgentRow (s : SeedSpec) (w : Wallet) : Database.Agent := {|
  da_ID := ""; da_Name := s_Name s; da_Chain := s_Chain s; da_WalletAddress := w_Address w;
  da_WalletKeyEncrypted := w_KeyEncrypted w; da_TaskType := s_TaskType s; da_StrategyConfig := "{}";
  da_StrategistPrompt := or_else (s_StrategistPrompt s) (defaultPromptFor (s_TaskType s));
  da_StrategistModel := or_else (s_StrategistModel s) "claude-haiku-4-5-20251001";
  da_StrategistIntervalSeconds := if s_StrategistInterval s <=? 0 then 14400 else s_StrategistInterval s;
  da_BanditPolicies := ""; da_LearnedRules := ""; da_SleepSchedule := ""; da_ReproductionPolicy := "";
  da_CostPolicy := ""; da_CommunicationPolicy := ""; da_NodeClass := s_NodeClass s; da_Generation := 0;
  da_LineageDepth := 0; da_CapitalAllocated := s_CapitalUSD s |}.

(** [spawnDeps]: what [SeedAll] asks of the store and of the lifecycle. *)
Class SpawnDeps := {
  seed_db : Type;
  by_name : string -> seed_db -> result Database.Agent;
  spawn : Database.Agent -> string -> seed_db -> result string * seed_db;
}.

(** A name is [known] once an agent that bears it is there.  A spawn makes its
    name known, a name stays known whatever becomes of a spawn, and a lookup of a
    known name may fail, but not for want of the agent. *)
Class SpawnLaws (X : SpawnDeps) := {
  known : string -> seed_db -> Prop;
  spawned_known : forall row reason db id, (spawn row reason db).1 = Ok id -> known (da_Name row) (spawn row reason db).2;
  known_kept : forall name row reason db, known name db -> known name (spawn row reason db).2;
  found_known : forall name db, is_ok (by_name name db) = true -> known name db;
  known_not_missed : forall name db err, known name db -> by_name name db = Fail err ->
    errors_Is err ErrAgentNotFound = false;
}.

Definition skipped (r : SeedReport) (line : string) : SeedReport := {|
  Spawned := Spawned r; Skipped := Skipped r + 1; Lines := Lines r ++ [line] |}.

Definition spawned (r : SeedReport) (line : string) : SeedReport := {|
  Spawned := Spawned r + 1; Skipped := Skipped r; Lines := Lines r ++ [line] |}.

(** [draws]: the randomness of each spec's wallet. *)
Fixpoint SeedAll {X : SpawnDeps} (draws : string -> draw) (masterKey : string) (specs : list SeedSpec) (report : SeedReport)
    (db : seed_db) : SeedReport * option gerror * seed_db :=
  match specs with
  | [] => (report, None, db)
  | spec :: specs' =>
      match Validate spec with
      | Some err => (report, Some (EWrap "seed %q: %w" err), db)
      | None =>
          match by_name (s_Name spec) db with
          | Ok existing =>
              SeedAll draws masterKey specs'
                (skipped report ("- " +:+ s_Name spec +:+ ": skip (existing wallet=" +:+ da_WalletAddress existing +:+ ")")) db
          | Fail err =>
              if negb (errors_Is err ErrAgentNotFound) then (report, Some (EWrap "check %s: %w" err), db)
              else
                match newWallet (draws (s_Name spec)) (s_Chain spec) masterKey with
                | Fail err => (report, Some (EWrap "wallet %s: %w" err), db)
                | Ok wallet =>
                    match spawn (ToAgentRow spec wallet) "seed-nodes" db with
                    | (Fail err, db) => (report, Some (EWrap "spawn %s: %w" err), db)
                    | (Ok id, db) =>
                        SeedAll draws masterKey specs'
                          (spawned report ("- " +:+ s_Name spec +:+ ": spawn id=" +:+ id +:+ " wallet=" +:+ w_Address wallet
                             +:+ " class=" +:+ s_NodeClass spec +:+ " task=" +:+ s_TaskType spec)) db
                    end
                end
          end
      end
  end.

(** ** The swarm does not come up *)

(** No chain client is built for a network the configuration accepts. *)
Lemma no_clients r cfg : factories = Some r -> Network cfg ∈ ["devnet"; "mainnet"] ->
  buildChainClients r cfg =
    if str_eqb (Network cfg) "mainnet"
    then Fail (EWrap "chain %s factory: %w" (EMsg "solana: mainnet disabled"))
    else Fail (EWrap "chain %s factory: %w" (EMsg "base: unsupported network %q (only sepolia until launch)")).
Proof.
  intros Hr Hn. injection Hr as <-. unfold buildChainClients, build_clients, build_client, Chains.Get.
  rewrite lookup_insert_eq. unfold solana_factory, Solana.solanaFactory, master_key. cbn [cc_Network cc_Extra].
  rewrite !elem_of_cons, elem_of_nil in Hn. destruct Hn as [-> |[-> |[]]]; cbn [str_eqb]; [|reflexivity].
  replace (str_eqb "devnet" "mainnet") with false by reflexivity. rewrite lookup_empty. cbn [default].
  replace (str_eqb "" "") with true by reflexivity. rewrite lookup_insert_ne, lookup_insert_eq by done.
  unfold base_factory, Base.baseFactory. cbn [cc_Network]. reflexivity.
Qed.

(** C12: The swarm never comes up: whatever the environment, the drivers and the
    database, [run] of [cmd/swarm] ends in an error before any subsystem
    starts, because the configuration accepts no network on which both chain
    factories do; when everything before them succeeds the error is theirs. *)
Theorem swarm_never_boots getenv visit db : visit ≡ₚ required ->
  exists err db', boot getenv visit db = Some (Fail err, db') /\
    forall cfg, Load getenv visit = Ok cfg -> Run (DatabaseURL cfg) db = (None, db') ->
      NewPool (DatabasePoolURL cfg) = Ok tt -> TreasuryInitialized db' = Ok true -> NewRedis (RedisURL cfg) = Ok tt ->
      err = EWrap "chain clients: %w" (EWrap "chain %s factory: %w"
        (EMsg (if str_eqb (Network cfg) "mainnet" then "solana: mainnet disabled"
               else "base: unsupported network %q (only sepolia until launch)"))).
Proof.
  intros Hv. unfold boot. destruct factories as [r|] eqn:Er; [|discriminate Er].
  destruct (Load getenv visit) as [cfg|err] eqn:El; [|by exists (EWrap "config: %w" err), db].
  assert (Hn : Network cfg ∈ ["devnet"; "mainnet"]) by (apply (load_iff getenv visit Hv) in El as [[_ H _ _] ->]; exact H).
  destruct (Run (DatabaseURL cfg) db) as [[err|] db'] eqn:Em.
  { exists (EWrap "migrations: %w" err), db'. split; [done|]. intros ? [= <-]. by rewrite Em. }
  rewrite (no_clients r cfg Er Hn).
  destruct (NewPool (DatabasePoolURL cfg)) as [[]|err] eqn:Ep;
    [|eexists _, db'; split; [reflexivity|]; intros ? [= <-] _; by rewrite Ep].
  destruct (TreasuryInitialized db') as [[]|err] eqn:Et;
    [|eexists _, db'; split; [reflexivity|]; intros ? [= <-] _ _; by rewrite Et
     |eexists _, db'; split; [reflexivity|]; intros ? [= <-] _ _; by rewrite Et].
  cbn [negb]. destruct (NewRedis (RedisURL cfg)) as [[]|err] eqn:Ed;
    [|eexists _, db'; split; [reflexivity|]; intros ? [= <-] _ _ _; by rewrite Ed].
  destruct (str_eqb (Network cfg) "mainnet") eqn:E'; eexists _, db'; (split; [reflexivity|]);
    intros ? [= <-] _ _ _ _; by rewrite E'.
Qed.

(** ** The treasuries *)

Definition row_named (db : database) (name addr : string) : Prop :=
  exists id r, agents db !! id = Some r /\ a_name r = name /\ a_wallet_address r = addr.

(** Rows of one name are one row. *)
Definition one_named (db : database) (name : string) : Prop := forall i j r q,
  agents db !! i = Some r -> agents db !! j = Some q -> a_name r = name -> a_name q = name -> i = j.

Lemma found_by_name {PL : PostgresLaws P} name db a : GetAgentByName name db = Ok a ->
  row_named db name (da_WalletAddress a).
Proof.
  unfold GetAgentByName, query. destruct (outage _); [done|]. destruct (text_value name) as [t|] eqn:Et; [|done].
  assert (t = name) as -> by (revert Et; unfold text_value, check; destruct (text_in name); intros H; by inversion H).
  destruct (List.find _ _) as [[id r]|] eqn:Ef; [|done]. intros [= <-]. apply find_some in Ef as [Hin Hn].
  apply bool_decide_eq_true in Hn. exists id, r. split; [|done]. apply list_elem_of_In in Hin.
  unfold scan in Hin. rewrite (plan_perm _ _) in Hin. by apply elem_of_map_to_list in Hin.
Qed.

Lemma not_found {PL : PostgresLaws P} name db err : GetAgentByName name db = Fail err ->
  errors_Is err ErrAgentNotFound = true -> outage (db_clock db) = None -> text_in name = true ->
  forall id r, agents db !! id = Some r -> a_name r <> name.
Proof.
  unfold GetAgentByName, query. intros H _ Ho Ht. rewrite Ho in H. unfold text_value, check in H. rewrite Ht in H.
  destruct (List.find _ _) as [[id' r']|] eqn:Ef; [done|]. intros id r Hr Hn.
  assert (Hin : (id, r) ∈ scan (tick db) (agents (tick db))).
  { unfold scan. rewrite (plan_perm _ _). by apply elem_of_map_to_list. }
  apply list_elem_of_In in Hin. apply (find_none _ _ Ef) in Hin. cbn in Hin. by apply bool_decide_eq_false in Hin.
Qed.

Lemma inserted a db id db' : InsertAgent a db = (Ok id, db') ->
  exists r, agents db !! id = None /\ agents db' = <[id := r]> (agents db) /\ a_name r = da_Name a /\
    a_wallet_address r = da_WalletAddress a.
Proof.
  unfold InsertAgent. repeat (destruct (str_eqb _ ""); [done|]). unfold statement. destruct (outage _); [done|].
  destruct (insert_agent a (tick db)) as [[x d]|] eqn:Ei; [|done]. intros [= -> <-]. unfold insert_agent in Ei.
  repeat match type of Ei with (match ?x with _ => _ end) = _ => destruct x eqn:?; [|done] end.
  match goal with Ei' : insert_row _ _ ?r = Ok _ |- _ => exists r; apply insert_row_ok in Ei' as (E1 & E2 & E3) end.
  injection Ei as <- <-. split; [exact E2|]. split; [exact E3|]. cbn.
  split; match goal with H : text_value ?x = Ok ?y |- ?y = ?x => revert H; unfold text_value, check; by destruct (text_in x); intros [= <-] end.
Qed.

(** What a treasury's turn leaves. *)
Lemma ensured {PL : PostgresLaws P} d mk name chainName db addr created db' : text_in name = true ->
  ensureTreasury d mk name chainName db = (Ok (addr, created), db') ->
  row_named db' name addr /\
  (forall id r, agents db !! id = Some r -> agents db' !! id = Some r) /\
  (forall n, one_named db n -> one_named db' n).
Proof.
  intros Ht. unfold ensureTreasury. destruct (GetAgentByName name db) as [a|err] eqn:Eg.
  { intros [= <- _ <-]. split; [by apply found_by_name|done]. }
  destruct (errors_Is err ErrAgentNotFound) eqn:Ei; cbn [negb]; [|done].
  destruct (newWallet d chainName mk) as [w|]; [|done].
  destruct (InsertAgent (treasury_row name chainName w) db) as [[id|] d'] eqn:En; [|done]. intros [= <- _ <-].
  assert (Ho : outage (db_clock db) = None).
  { revert En. unfold InsertAgent. repeat (destruct (str_eqb _ ""); [done|]). unfold statement. by destruct (outage _). }
  destruct (inserted _ _ _ _ En) as (r & Hfresh & Ea & Hn & Hw). cbn in Hn, Hw.
  assert (Hno : forall i q, agents db !! i = Some q -> a_name q <> name) by exact (not_found name db err Eg Ei Ho Ht).
  split; [|split].
  - exists id, r. rewrite Ea, lookup_insert_eq. done.
  - intros i q Hi. rewrite Ea. rewrite lookup_insert_ne; [done|]. intros <-. by rewrite Hfresh in Hi.
  - intros n Hone i j q q'. rewrite Ea.
    intros [[<- <-]|[_ Hi]]%lookup_insert_Some [[<- <-]|[_ Hj]]%lookup_insert_Some E1 E2; [done| | |by apply (Hone i j q q')].
    + destruct (Hno j q' Hj). by rewrite E2, <- E1.
    + destruct (Hno i q Hi). by rewrite E1, <- E2.
Qed.

(** A name some row has is found. *)
Lemma found_some {PL : PostgresLaws P} name db id r : text_in name = true -> outage (db_clock db) = None ->
  agents db !! id = Some r -> a_name r = name -> is_ok (GetAgentByName name db) = true.
Proof.
  intros Ht Ho Hr Hn. unfold GetAgentByName, query. rewrite Ho. unfold text_value, check. rewrite Ht.
  destruct (List.find _ _) as [[i q]|] eqn:Ef; [done|].
  assert (Hin : (id, r) ∈ scan (tick db) (agents (tick db))).
  { unfold scan. rewrite (plan_perm _ _). by apply elem_of_map_to_list. }
  apply list_elem_of_In in Hin. apply (find_none _ _ Ef) in Hin. cbn in Hin. by apply bool_decide_eq_false in Hin.
Qed.

(** The one row of a name is what a query finds. *)
Lemma found_one {PL : PostgresLaws P} name addr db : text_in name = true -> outage (db_clock db) = None ->
  one_named db name -> row_named db name addr ->
  exists a, GetAgentByName name db = Ok a /\ da_WalletAddress a = addr.
Proof.
  intros Ht Ho Hone (id & r & Hr & Hn & Hw). pose proof (found_some name db id r Ht Ho Hr Hn) as H.
  destruct (GetAgentByName name db) as [a|err] eqn:Eg; [|done]. exists a. split; [done|].
  destruct (found_by_name name db a Eg) as (i & q & Hq & Hqn & <-).
  assert (i = id) as -> by (by apply (Hone i id q r)). rewrite Hr in Hq. by injection Hq as <-.
Qed.

Lemma two_elements {T} (l : list T) x y : In x l -> In y l -> x <> y -> 2 <= len l.
Proof.
  unfold len. destruct l as [|a [|b l]]; cbn; intros Hx Hy Hne; [done| |lia].
  destruct Hx as [<- |[]], Hy as [<- |[]]. by destruct Hne.
Qed.

Lemma initialized {PL : PostgresLaws P} db a1 a2 : outage (db_clock db) = None ->
  row_named db solanaTreasuryName a1 -> row_named db baseTreasuryName a2 -> TreasuryInitialized db = Ok true.
Proof.
  intros Ho (i & r & Hr & Hn & _) (j & q & Hq & Hm & _). unfold TreasuryInitialized, query. rewrite Ho.
  assert (Hin : forall k t, agents db !! k = Some t -> mem (a_name t) treasuries = true ->
    In (k, t) (List.filter (fun kv => mem (a_name kv.2) treasuries) (scan (tick db) (agents (tick db))))).
  { intros k t Hk Ht. apply filter_In. split; [|exact Ht]. apply list_elem_of_In. unfold scan.
    rewrite (plan_perm _ _). by apply elem_of_map_to_list. }
  f_equal. apply Z.leb_le. apply (two_elements _ (i, r) (j, q)).
  - apply Hin; [done|]. rewrite Hn. reflexivity.
  - apply Hin; [done|]. rewrite Hm. reflexivity.
  - intros [= -> ->]. rewrite Hn in Hm. discriminate Hm.
Qed.

(** After [init-treasury] the swarm's treasury check passes, and running it
    again, with whatever randomness, finds the same two addresses, makes none
    and leaves the database as it is. *)
Theorem init_treasury_idempotent {PL : PostgresLaws P} getenv visit d1 d2 db sol base db' :
  (forall name, name ∈ treasuries -> one_named db name) ->
  init_treasury getenv visit d1 d2 db = (Ok (sol, base), db') -> outage (db_clock db') = None ->
  TreasuryInitialized db' = Ok true /\
  forall d3 d4, init_treasury getenv visit d3 d4 db' = (Ok ((sol.1, false), (base.1, false)), db').
Proof.
  intros Hone. unfold init_treasury. destruct (Load getenv visit) as [cfg|]; [|done].
  destruct (decode_master _) as [mk|]; [|done]. destruct (NewPool _) as [[]|]; [|done]. unfold ensure_both.
  destruct (ensureTreasury d1 mk solanaTreasuryName "solana" db) as [[[a1 c1]|] dba] eqn:E1; [|done].
  destruct (ensureTreasury d2 mk baseTreasuryName "base" dba) as [[[a2 c2]|] dbb] eqn:E2; [|done].
  intros [= <- <- <-] Ho. cbn [fst].
  destruct (ensured _ _ _ _ _ _ _ _ (eq_refl : text_in solanaTreasuryName = true) E1) as (R1 & K1 & U1).
  destruct (ensured _ _ _ _ _ _ _ _ (eq_refl : text_in baseTreasuryName = true) E2) as (R2 & K2 & U2).
  assert (R1' : row_named dbb solanaTreasuryName a1).
  { destruct R1 as (i & r & Hr & H). exists i, r. split; [by apply K2|done]. }
  split; [by apply (initialized dbb a1 a2)|]. intros d3 d4. unfold ensureTreasury at 1.
  destruct (found_one solanaTreasuryName a1 dbb) as (x & -> & ->); [reflexivity|done|apply U2, U1, Hone; by left|done|].
  unfold ensureTreasury.
  destruct (found_one baseTreasuryName a2 dbb) as (y & -> & ->); [reflexivity|done|apply U2, U1, Hone; right; by left|done|].
  done.
Qed.

(** ** The seeds *)

(** The dependencies with a ledger of the names whose spawn succeeded. *)
Definition ledgered (X : SpawnDeps) : SpawnDeps := {|
  seed_db := @seed_db X * list string;
  by_name name db := by_name name db.1;
  spawn row reason db :=
    let '(r, db') := spawn row reason db.1 in
    (r, (db', if is_ok r then db.2 ++ [da_Name row] else db.2)) |}.

(** A run of the command: the randomness, the key and the nodes of its file. *)
Record SeedRun := { sr_draws : string -> draw; sr_key : string; sr_specs : list SeedSpec }.

Definition seed_run (X : SpawnDeps) (r : SeedRun) (db : seed_db) : SeedReport * option gerror * seed_db :=
  SeedAll (X := X) (sr_draws r) (sr_key r) (sr_specs r) no_report db.

(** Runs one after the other on one store, each error or not. *)
Fixpoint seed_runs (X : SpawnDeps) (rs : list SeedRun) (db : seed_db) : list SeedReport * seed_db :=
  match rs with
  | [] => ([], db)
  | r :: rs' =>
      let '(rep, _, db) := seed_run X r db in
      let '(reps, db) := seed_runs X rs' db in
      (rep :: reps, db)
  end.

Definition total_spawned (reps : list SeedReport) : Z := foldr (fun r n => Spawned r + n) 0 reps.

Section Seeds.
Context {X : SpawnDeps} {XL : SpawnLaws X}.

(** The ledger only watches. *)
Lemma ledgered_same draws mk specs : forall rep db,
  let '(rep', err, db') := SeedAll (X := ledgered X) draws mk specs rep db in
  SeedAll (X := X) draws mk specs rep db.1 = (rep', err, db'.1).
Proof.
  induction specs as [|s specs IH]; intros rep db; cbn [SeedAll]; [done|].
  destruct (Validate s); [done|]. cbn [by_name spawn ledgered]. destruct (by_name _ db.1) as [a|err]; [apply IH|].
  destruct (negb _); [done|]. destruct (newWallet _ _ _) as [w|]; [|done].
  destruct (spawn _ _ db.1) as [[id|e] db1]; cbn [is_ok]; [apply IH|done].
Qed.

Lemma ledgered_runs rs : forall db,
  (seed_runs (ledgered X) rs db).1 = (seed_runs X rs db.1).1 /\ (seed_runs (ledgered X) rs db).2.1 = (seed_runs X rs db.1).2.
Proof.
  induction rs as [|r rs IH]; intros db; cbn [seed_runs]; [done|].
  pose proof (ledgered_same (sr_draws r) (sr_key r) (sr_specs r) no_report db) as H. unfold seed_run.
  destruct (SeedAll _ _ _ _ db) as [[rep err] db1]. rewrite H. destruct (IH db1) as [H1 H2].
  destruct (seed_runs (ledgered X) rs db1), (seed_runs X rs db1.1). cbn in *. by subst.
Qed.

(** What a run leaves: a ledger of distinct names, all of them known; the names of
    a run without error are all known, and none that was known is lost. *)
Lemma seed_ledger draws mk specs : forall rep db (names : list string),
  NoDup names -> Forall (fun n => known n db) names ->
  let '(rep', err, (db', names')) := SeedAll (X := ledgered X) draws mk specs rep (db, names) in
  NoDup names' /\ Forall (fun n => known n db') names' /\
  Spawned rep' - Spawned rep = len names' - len names /\
  (exists more, names' = names ++ more /\ more ⊆ (s_Name <$> specs) /\ Forall (fun n => ~ known n db) more) /\
  (forall n, known n db -> known n db') /\
  (err = None -> forall s, s ∈ specs -> Validate s = None /\ known (s_Name s) db').
Proof.
  induction specs as [|s specs IH]; intros rep db names Hnd Hk; cbn [SeedAll].
  { split_and!; [done|done|lia| |done|by intros _ s ?%elem_of_nil].
    exists []. by rewrite app_nil_r. }
  assert (Hstop : forall (e : gerror) db', (forall n, known n db -> known n db') ->
    NoDup names /\ Forall (fun n => known n db') names /\ Spawned rep - Spawned rep = len names - len names /\
    (exists more, names = names ++ more /\ more ⊆ (s_Name <$> s :: specs) /\ Forall (fun n => ~ known n db) more) /\
    (forall n, known n db -> known n db') /\
    (Some e = None -> forall x, x ∈ s :: specs -> Validate x = None /\ known (s_Name x) db')).
  { intros e db' Hdb. split_and!; [done| |lia| |done|done].
    - eapply Forall_impl; [exact Hk|]. cbn. auto.
    - exists []. rewrite app_nil_r. split_and!; [done| |done]. intros x ?%elem_of_nil. done. }
  destruct (Validate s) as [err|] eqn:Ev; [by apply Hstop|]. cbn [by_name spawn ledgered fst snd].
  destruct (by_name (s_Name s) db) as [a|err] eqn:Eb.
  - specialize (IH (skipped rep ("- " +:+ s_Name s +:+ ": skip (existing wallet=" +:+ da_WalletAddress a +:+ ")")) db names Hnd Hk).
    destruct (SeedAll _ _ specs _ _) as [[rep' err] [db' names']]. destruct IH as (H1 & H2 & H3 & (more & -> & H4 & H4') & H5 & H6).
    split_and!; [done|done|exact H3| |done|].
    + exists more. split_and!; [done| |done]. intros x Hx. cbn. right. by apply H4.
    + intros E0 x [-> |Hx]%elem_of_cons; [|by apply H6]. split; [done|]. apply H5, found_known. by rewrite Eb.
  - destruct (errors_Is err ErrAgentNotFound) eqn:Ei; cbn [negb]; [|by apply Hstop].
    assert (Hnew : ~ known (s_Name s) db). { intros Hn. by rewrite (known_not_missed _ _ _ Hn Eb) in Ei. }
    destruct (newWallet _ _ _) as [w|e]; [|by apply Hstop].
    pose proof (spawned_known (ToAgentRow s w) "seed-nodes" db) as Hs.
    pose proof (fun n => known_kept n (ToAgentRow s w) "seed-nodes" db) as Hkept.
    destruct (spawn (ToAgentRow s w) "seed-nodes" db) as [[id|e] db1]; cbn [is_ok fst snd] in *; [|by apply Hstop].
    specialize (Hs id eq_refl). change (da_Name (ToAgentRow s w)) with (s_Name s) in *.
    match goal with |- context [SeedAll _ _ specs ?r _] => specialize (IH r db1 (names ++ [s_Name s])) end.
    destruct (SeedAll _ _ specs _ _) as [[rep' err'] [db' names']].
    destruct IH as (H1 & H2 & H3 & (more & -> & H4 & H4') & H5 & H6).
    { apply NoDup_app. split_and!; [done| |apply NoDup_singleton]. intros x Hx ->%list_elem_of_singleton.
      rewrite Forall_forall in Hk. by apply Hnew, Hk. }
    { apply Forall_app. split; [eapply Forall_impl; [exact Hk|]; cbn; auto|by constructor]. }
    cbn [spawned Spawned] in H3. revert H3. unfold len. rewrite !length_app. cbn [length]. intros H3. split_and!; [done|done|lia| |auto|].
    + exists (s_Name s :: more). split_and!; [by rewrite <- app_assoc| |].
      * intros x [-> |Hx]%elem_of_cons; cbn; [left|right; by apply H4].
      * constructor; [done|]. eapply Forall_impl; [exact H4'|]. cbn. auto.
    + intros E0 x [-> |Hx]%elem_of_cons; [by auto|by apply H6].
Qed.

Lemma seeds_ledger rs : forall db names, NoDup names -> Forall (fun n => known n db) names ->
  let '(reps, (db', names')) := seed_runs (ledgered X) rs (db, names) in
  NoDup names' /\ Forall (fun n => known n db') names' /\ total_spawned reps = len names' - len names /\
  (exists more, names' = names ++ more /\ Forall (fun n => ~ known n db /\ n ∈ rs ≫= fun r => s_Name <$> sr_specs r) more) /\
  (forall n, known n db -> known n db').
Proof.
  induction rs as [|r rs IH]; intros db names Hnd Hk; cbn [seed_runs].
  { split_and!; [done|done|cbn; lia| |done]. exists []. by rewrite app_nil_r. }
  pose proof (seed_ledger (sr_draws r) (sr_key r) (sr_specs r) no_report db names Hnd Hk) as H. unfold seed_run.
  destruct (SeedAll _ _ _ _ _) as [[rep err] [db1 names1]].
  destruct H as (H1 & H2 & H3 & (more & -> & H4 & H4') & H5 & _). specialize (IH db1 (names ++ more) H1 H2).
  destruct (seed_runs _ rs _) as [reps [db' names']].
  destruct IH as (I1 & I2 & I3 & (more' & -> & I4) & I5). cbn [no_report Spawned] in H3. split_and!; [done|done| | |auto].
  - unfold total_spawned in *. cbn [foldr]. lia.
  - exists (more ++ more'). split; [by rewrite app_assoc|]. apply Forall_app. cbn [mbind list_bind]. split.
    + rewrite Forall_forall in H4' |- *. intros n Hn. split; [by apply H4'|]. apply elem_of_app. left. by apply H4.
    + eapply Forall_impl; [exact I4|]. cbn. intros n [Hn Hin]. split; [by auto|]. apply elem_of_app. by right.
Qed.

(** A run over nodes that are all known: no spawn, and no error either as long as
    the store answers. *)
Lemma seed_again draws mk specs : forall rep db,
  (forall s, s ∈ specs -> Validate s = None /\ known (s_Name s) db) ->
  let '(rep', err, db') := SeedAll draws mk specs rep db in
  db' = db /\ Spawned rep' = Spawned rep /\
  ((forall s, s ∈ specs -> is_ok (by_name (s_Name s) db) = true) -> err = None /\ Skipped rep' = Skipped rep + len specs).
Proof.
  induction specs as [|s specs IH]; intros rep db H; cbn [SeedAll]; [split_and!; [done|done|]; unfold len; cbn; split; [done|lia]|].
  destruct (H s ltac:(left)) as [-> Hn]. destruct (by_name _ db) as [a|e] eqn:Eb.
  - match goal with |- context [SeedAll _ _ specs ?r db] => specialize (IH r db ltac:(intros x Hx; apply H; by right)) end.
    destruct (SeedAll _ _ specs _ db) as [[rep' err] db']. cbn [skipped Spawned Skipped] in IH.
    destruct IH as (-> & -> & H3). split_and!; [done|done|]. intros Hall. destruct H3 as [-> ->].
    + intros x Hx. apply Hall. by right.
    + unfold len. cbn [length]. split; [done|lia].
  - rewrite (known_not_missed _ _ _ Hn Eb). cbn [negb]. split_and!; [done|done|]. intros Hall.
    specialize (Hall s ltac:(left)). by rewrite Eb in Hall.
Qed.

(** The nodes of a run without error are all known after it. *)
Lemma seeds_known draws mk specs rep db rep' db' : SeedAll draws mk specs rep db = (rep', None, db') ->
  Forall (fun s => Validate s = None /\ known (s_Name s) db') specs.
Proof.
  intros H. pose proof (ledgered_same draws mk specs rep (db, [])) as Hl.
  pose proof (seed_ledger draws mk specs rep db [] (NoDup_nil_2) (Forall_nil_2 _)) as Hs.
  destruct (SeedAll (X := ledgered X) _ _ _ _ (db, [])) as [[rep1 err] [db1 names]]. cbn [fst] in Hl. rewrite H in Hl. injection Hl as E1 E2 E3.
  apply Forall_forall. destruct Hs as (_ & _ & _ & _ & _ & Hall). rewrite E3. by apply Hall.
Qed.
(** C31: However often the seed command runs, with whatever files, and wherever its
    runs stop with an error, the names it spawns are all different: no node is
    spawned twice, none that was there before, and only nodes of its files; the
    reports count exactly these spawns.  After a run without error, a later run
    over nodes of the same file spawns nothing and leaves the store as it is; it
    skips every node, as long as the store answers its lookups (a lookup may fail
    at any time, though not with [ErrAgentNotFound] for an agent that is there). *)
Theorem seeds_spawned_once rs db :
  let '(reps, (db', names)) := seed_runs (ledgered X) rs (db, []) in
  seed_runs X rs db = (reps, db') /\
  NoDup names /\ Forall (fun n => ~ known n db /\ n ∈ rs ≫= fun r => s_Name <$> sr_specs r) names /\
  total_spawned reps = len names /\
  forall r rep1 db1, seed_run X r db' = (rep1, None, db1) ->
  forall r', sr_specs r' ⊆ sr_specs r ->
    let '(rep2, err2, db2) := seed_run X r' db1 in
    db2 = db1 /\ Spawned rep2 = 0 /\
    ((forall s, s ∈ sr_specs r' -> is_ok (by_name (s_Name s) db1) = true) -> err2 = None /\ Skipped rep2 = len (sr_specs r')).
Proof.
  pose proof (ledgered_runs rs (db, [])) as [E1 E2]. pose proof (seeds_ledger rs db [] (NoDup_nil_2) (Forall_nil_2 _)) as H.
  destruct (seed_runs (ledgered X) rs (db, [])) as [reps [db' names]]. cbn [fst snd] in E1, E2.
  destruct H as (H1 & _ & H3 & (more & -> & H4) & _). split_and!; [|done|done|unfold len in *; cbn in *; lia|].
  { rewrite E1, E2. by destruct (seed_runs X rs db). }
  intros r rep1 db1 Hr%seeds_known r' Hsub. rewrite Forall_forall in Hr. unfold seed_run.
  pose proof (seed_again (sr_draws r') (sr_key r') (sr_specs r') no_report db1) as Ha.
  destruct (SeedAll _ _ (sr_specs r') _ db1) as [[rep2 err2] db2].
  destruct Ha as (H5 & H6 & H7); [by intros s Hin; apply Hr, Hsub|]. cbn [no_report Skipped Spawned] in *. by rewrite Z.add_0_l in H7.
Qed.

End Seeds.

(** The store as Postgres has it; the spawn event goes out besides. *)
Definition pg_deps : SpawnDeps := {|
  seed_db := database;
  by_name := GetAgentByName;
  spawn := fun row _ db =>
    match InsertAgent row db with
    | (Ok id, db) => (Ok id, db)
    | (Fail err, db) => (Fail (EWrap "lifecycle.Spawn: insert: %w" err), db)
    end |}.

Definition agent_known (name : string) (db : database) : Prop :=
  text_in name = true /\ exists id r, agents db !! id = Some r /\ a_name r = name.

(** A connection that is down does not answer that there is no such agent. *)
Lemma pg_deps_laws {PL : PostgresLaws P} :
  (forall n err, outage n = Some err -> errors_Is err ErrAgentNotFound = false) -> SpawnLaws pg_deps.
Proof.
  intros Ho. refine {| known := agent_known : string -> @seed_db pg_deps -> Prop |}; cbn [seed_db by_name spawn pg_deps].
  - intros row _ db id H. destruct (InsertAgent row db) as [[id'|] db'] eqn:Ei; [|done].
    destruct (inserted _ _ _ _ Ei) as (r & _ & Ea & Hn & _). cbn [snd]. split.
    + revert Ei. unfold InsertAgent. repeat (destruct (str_eqb _ ""); [done|]). unfold statement. destruct (outage _); [done|].
      unfold insert_agent, text_value at 1, check at 1. by destruct (text_in (da_Name row)).
    + exists id', r. by rewrite Ea, lookup_insert_eq.
  - intros name row _ db (Ht & id & r & Hr & Hn). split; [done|]. exists id, r. split; [|done].
    destruct (InsertAgent row db) as [[id'|err] db'] eqn:Ei; cbn [snd].
    + destruct (inserted _ _ _ _ Ei) as (r' & Hf & -> & _). rewrite lookup_insert_ne; [done|]. intros <-. by rewrite Hf in Hr.
    + revert Ei. unfold InsertAgent. repeat (destruct (str_eqb _ ""); [by intros [= _ <-]|]). unfold statement.
      destruct (outage _); [by intros [= _ <-]|]. destruct (insert_agent row (tick db)) as [[]|]; [done|]. by intros [= _ <-].
  - intros name db H. destruct (GetAgentByName name db) as [a|] eqn:Eg; [|done]. split.
    + revert Eg. unfold GetAgentByName, query. destruct (outage _); [done|]. unfold text_value, check. by destruct (text_in name).
    + apply found_by_name in Eg as (id & r & Hr & Hn & _). by exists id, r.
  - intros name db err (Ht & id & r & Hr & Hn) Hg. destruct (outage (db_clock db)) as [e|] eqn:Eo.
    + revert Hg. unfold GetAgentByName, query. rewrite Eo. intros [= <-]. cbn [errors_Is]. by rewrite (Ho _ _ Eo).
    + pose proof (found_some name db id r Ht Eo Hr Hn) as Hf. by rewrite Hg in Hf.
Qed.
End Startup.

(** ** Samples *)

Definition all_up : Drivers (database (P := float_postgres)) := {|
  iofs_New := None; NewWithSourceInstance := fun _ => None; Up := fun _ db => (Some ErrNoChange, db);
  ParseConfig := fun _ => None; NewWithConfig := fun _ => None; Ping := fun _ => None; redis_ParseURL := fun _ => None;
  redis_Ping := fun _ => None; DialContext := fun _ => None |}.

Lemma swarm_never_boots_witness : exists err db',
  boot (P := float_postgres) all_up (env_of (minimal_env "devnet")) required migrated = Some (Fail err, db').
Proof.
  destruct (swarm_never_boots (P := float_postgres) all_up (env_of (minimal_env "devnet")) required migrated
    (Permutation_refl _)) as (err & db' & H & _). by exists err, db'.
Defined.

Definition a_draw (seed : string) : draw (S := plain_secp256k1) := {|
  d_seed := Some seed; d_key := ToECDSA (Secp256k1 := plain_secp256k1) seed; d_nonce := Some demo_nonce |}.

Definition sample_init (d1 d2 : string) (db : database (P := float_postgres)) :=
  init_treasury (P := float_postgres) all_up (E := plain_ed25519) (S := plain_secp256k1) (A := toy_aead)
    (env_of (minimal_env "devnet")) required (a_draw d1) (a_draw d2) db.

Definition other_seed : string := "ABCDEFGHIJKLMNOPQRSTUVWXYZ678901".

Definition initialized_db : database (P := float_postgres) := (sample_init demo_seed other_seed migrated).2.

Lemma init_treasury_idempotent_witness :
  TreasuryInitialized initialized_db = Ok true /\
  (sample_init other_seed demo_seed initialized_db).1 = Ok (("pk-" +:+ demo_seed, false), ("0xA", false)).
Proof.
  destruct (init_treasury_idempotent (P := float_postgres) all_up (E := plain_ed25519) (S := plain_secp256k1) (A := toy_aead)
    (PL := float_postgres_laws) (env_of (minimal_env "devnet")) required (a_draw demo_seed) (a_draw other_seed) migrated
    ("pk-" +:+ demo_seed, true) ("0xA", true) initialized_db) as [H1 H2].
  - intros name _ i j r q Hi. unfold migrated in Hi. cbn [agents] in Hi. by rewrite lookup_empty in Hi.
  - apply injective_projections; [vm_compute; reflexivity|reflexivity].
  - reflexivity.
  - split; [exact H1|]. unfold sample_init. by rewrite H2.
Defined.

Definition a_spec (name class : string) : SeedSpec := {|
  s_Name := name; s_TaskType := "momentum"; s_Chain := "solana"; s_NodeClass := class; s_CapitalUSD := 50;
  s_StrategistModel := ""; s_StrategistPrompt := ""; s_StrategistInterval := 0 |}.

Definition sample_seed (draws : string -> string) (specs : list SeedSpec) (db : database (P := float_postgres)) :=
  SeedAll (E := plain_ed25519) (S := plain_secp256k1) (A := toy_aead) (X := pg_deps (P := float_postgres))
    (fun name => a_draw (draws name)) demo_key specs no_report db.

(** The second node is no class; the third is not reached, until the class is
    mended. *)
Definition three (class : string) : list SeedSpec := [a_spec "one" "funded"; a_spec "two" class; a_spec "three" "shadow"].

Definition seed_of (name : string) : string :=
  if str_eqb name "one" then demo_seed else if str_eqb name "two" then other_seed else sixteen +:+ sixteen.

Definition sample_run_of (seed : string -> string) (class : string) : SeedRun (S := plain_secp256k1) := {|
  sr_draws := fun name => a_draw (seed name); sr_key := demo_key; sr_specs := three class |}.

#[local] Instance sample_laws : SpawnLaws (pg_deps (P := float_postgres)) :=
  pg_deps_laws (P := float_postgres) (PL := float_postgres_laws) ltac:(done).

(** A first run that stops at the second node, and two that do not. *)
Definition sample_runs : list (SeedRun (S := plain_secp256k1)) := [sample_run_of seed_of "dead"; sample_run_of seed_of "shadow"; sample_run_of seed_of "shadow"].

Definition sample_seeds :=
  seed_runs (E := plain_ed25519) (S := plain_secp256k1) (A := toy_aead) (ledgered (pg_deps (P := float_postgres)))
    sample_runs (migrated, []).

Lemma seeds_spawned_once_witness :
  let '(reps, (db', names)) := sample_seeds in
  NoDup names /\ total_spawned reps = len names /\ names = ["one"; "two"; "three"] /\ Spawned <$> reps = [1; 2; 0].
Proof.
  pose proof (seeds_spawned_once (E := plain_ed25519) (S := plain_secp256k1) (A := toy_aead)
    (X := pg_deps (P := float_postgres)) sample_runs migrated) as H.
  match type of H with context [seed_runs (ledgered ?x) ?a ?b] => change (seed_runs (ledgered x) a b) with sample_seeds in H end.
  assert (E : let '(reps, (_, names)) := sample_seeds in
    (names, Spawned <$> reps) = (["one"; "two"; "three"], [1; 2; 0])) by (vm_compute; reflexivity).
  destruct sample_seeds as [reps [db' names]]. destruct H as (_ & H1 & _ & H2 & _). injection E as E1 E2.
  split_and!; [exact H1|exact H2|exact E1|exact E2].
Defined.

Example seeding :
  let '(rep1, err1, db1) := sample_seed seed_of (three "dead") migrated in
  let '(rep2, err2, db2) := sample_seed seed_of (three "shadow") db1 in
  (Spawned rep1, err1, Spawned rep2, Skipped rep2, err2)
    = (1, Some (EWrap "seed %q: %w" (EMsg "node_class %q: must be funded or shadow")), 2, 1, None) /\
  Lines rep1 = ["- one: spawn id=u1 wallet=pk-" +:+ demo_seed +:+ " class=funded task=momentum"].
Proof. vm_compute. by split. Qed.

Example schemes : map stripScheme ["postgres://u@h/db"; "postgresql://h"; "postgres://"; "h/db"]
  = ["u@h/db"; "h"; "postgres://"; "h/db"].
Proof. vm_compute. reflexivity. Qed.

(** NaN passes for a capital; a seed file may not repeat a name. *)
Example seeds_checked :
  Validate {| s_Name := "n"; s_TaskType := "momentum"; s_Chain := "base"; s_NodeClass := "shadow"; s_CapitalUSD := nan;
    s_StrategistModel := ""; s_StrategistPrompt := ""; s_StrategistInterval := 0 |} = None /\
  is_ok (ParseSeedYAML (fun _ => Ok [a_spec "one" "funded"; a_spec "one" "shadow"]) "nodes:") = false /\
  is_ok (ParseSeedYAML (fun _ => Ok (three "funded")) "nodes:") = true.
Proof. vm_compute. repeat split. Qed.
