(* ===== verification/FakeChain.v ===== *)
(** * The fake chain client ([internal/chain/fake.go])

    The client every test of the repository trades against: what a test stages,
    what the methods answer from it, and the calls recorded. *)
From Stdlib Require Import ZArith Lia Floats.
From stdpp Require Import base list strings gmap.
From S2P Require Import Prelude GoBase GoFmt GoFloat Task Wallets ChainClients.
Set Warnings "-inexact-float".
Open Scope Z_scope.

Record FakeChainClient := {
  chainName : string;
  nativeToken : string;
  dryRunOnly : bool;
  balances : gmap string float;
  tokenBalances : gmap string (gmap string float);
  quotes : gmap string Quote;
  yieldRates : gmap string YieldRate;
  positions : gmap string (list LendingPosition);
  simResult : option SimResult;
  Swaps : list Quote;
  Sent : list Transaction;
  Liquidations : list LendingPosition;
}.

Definition NewFake (name native : string) : FakeChainClient := {|
  chainName := name; nativeToken := native; dryRunOnly := false; balances := ∅; tokenBalances := ∅; quotes := ∅;
  yieldRates := ∅; positions := ∅; simResult := None; Swaps := []; Sent := []; Liquidations := [] |}.

(** ** Staging *)

Definition WithBalance (address : string) (amount : float) (f : FakeChainClient) : FakeChainClient := {|
  chainName := chainName f; nativeToken := nativeToken f; dryRunOnly := dryRunOnly f;
  balances := <[address := amount]> (balances f); tokenBalances := tokenBalances f; quotes := quotes f;
  yieldRates := yieldRates f; positions := positions f; simResult := simResult f; Swaps := Swaps f; Sent := Sent f;
  Liquidations := Liquidations f |}.

Definition WithTokenBalance (address tokenAddr : string) (amount : float) (f : FakeChainClient) : FakeChainClient := {|
  chainName := chainName f; nativeToken := nativeToken f; dryRunOnly := dryRunOnly f; balances := balances f;
  tokenBalances := <[address := <[tokenAddr := amount]> (default ∅ (tokenBalances f !! address))]> (tokenBalances f);
  quotes := quotes f; yieldRates := yieldRates f; positions := positions f; simResult := simResult f; Swaps := Swaps f;
  Sent := Sent f; Liquidations := Liquidations f |}.

Definition quoteKey (tokenIn tokenOut : string) : string := tokenIn +:+ "|" +:+ tokenOut.

Definition WithQuote (tokenIn tokenOut : string) (q : Quote) (f : FakeChainClient) : FakeChainClient := {|
  chainName := chainName f; nativeToken := nativeToken f; dryRunOnly := dryRunOnly f; balances := balances f;
  tokenBalances := tokenBalances f; quotes := <[quoteKey tokenIn tokenOut := q]> (quotes f); yieldRates := yieldRates f;
  positions := positions f; simResult := simResult f; Swaps := Swaps f; Sent := Sent f; Liquidations := Liquidations f |}.

Definition WithYieldRate (protocol : string) (r : YieldRate) (f : FakeChainClient) : FakeChainClient := {|
  chainName := chainName f; nativeToken := nativeToken f; dryRunOnly := dryRunOnly f; balances := balances f;
  tokenBalances := tokenBalances f; quotes := quotes f; yieldRates := <[protocol := r]> (yieldRates f);
  positions := positions f; simResult := simResult f; Swaps := Swaps f; Sent := Sent f; Liquidations := Liquidations f |}.

Definition WithLendingPosition (protocol : string) (p : LendingPosition) (f : FakeChainClient) : FakeChainClient := {|
  chainName := chainName f; nativeToken := nativeToken f; dryRunOnly := dryRunOnly f; balances := balances f;
  tokenBalances := tokenBalances f; quotes := quotes f; yieldRates := yieldRates f;
  positions := <[protocol := default [] (positions f !! protocol) ++ [p]]> (positions f); simResult := simResult f;
  Swaps := Swaps f; Sent := Sent f; Liquidations := Liquidations f |}.

Definition WithSimResult (s : option SimResult) (f : FakeChainClient) : FakeChainClient := {|
  chainName := chainName f; nativeToken := nativeToken f; dryRunOnly := dryRunOnly f; balances := balances f;
  tokenBalances := tokenBalances f; quotes := quotes f; yieldRates := yieldRates f; positions := positions f;
  simResult := s; Swaps := Swaps f; Sent := Sent f; Liquidations := Liquidations f |}.

Definition WithDryRunOnly (dry : bool) (f : FakeChainClient) : FakeChainClient := {|
  chainName := chainName f; nativeToken := nativeToken f; dryRunOnly := dry; balances := balances f;
  tokenBalances := tokenBalances f; quotes := quotes f; yieldRates := yieldRates f; positions := positions f;
  simResult := simResult f; Swaps := Swaps f; Sent := Sent f; Liquidations := Liquidations f |}.

(** ** The methods *)

Definition GetBalance (f : FakeChainClient) (address : string) : result float :=
  match balances f !! address with
  | Some bal => Ok bal
  | None => Fail (EMsg "fake: no balance staged for %q")
  end.

Definition GetTokenBalance (f : FakeChainClient) (address tokenAddr : string) : result float :=
  match tokenBalances f !! address with
  | None => Fail (EMsg "fake: no token balances staged for %q")
  | Some byToken =>
      match byToken !! tokenAddr with
      | Some bal => Ok bal
      | None => Fail (EMsg "fake: no balance staged for token %q on %q")
      end
  end.

(** A copy of the quote staged, of the amount asked for. *)
Definition GetQuote (now : Time) (f : FakeChainClient) (tokenIn tokenOut : string) (amount : float) : result Quote :=
  match quotes f !! quoteKey tokenIn tokenOut with
  | None => Fail (EMsg "fake: no quote staged for %s -> %s")
  | Some q => Ok {|
      q_Chain := q_Chain q; q_DEX := q_DEX q; q_TokenIn := q_TokenIn q; q_TokenOut := q_TokenOut q; q_AmountIn := amount;
      q_AmountOut := if (0 <? q_AmountIn q)%float then (q_AmountOut q * (amount / q_AmountIn q))%float else q_AmountOut q;
      q_Price := q_Price q; q_PriceImpact := q_PriceImpact q; q_FeeAmount := q_FeeAmount q; q_SlippageBps := q_SlippageBps q;
      q_GeneratedAt := if IsZero (q_GeneratedAt q) then now else q_GeneratedAt q; q_RouteRaw := q_RouteRaw q |}
  end.

(** The calls recorded. *)
Definition recorded (swaps : list Quote) (txs : list Transaction) (liqs : list LendingPosition) (f : FakeChainClient)
    : FakeChainClient := {|
  chainName := chainName f; nativeToken := nativeToken f; dryRunOnly := dryRunOnly f; balances := balances f;
  tokenBalances := tokenBalances f; quotes := quotes f; yieldRates := yieldRates f; positions := positions f;
  simResult := simResult f; Swaps := swaps; Sent := txs; Liquidations := liqs |}.

Definition refused : gerror := EMsg "fake: dry-run only mode, real execution refused".

(** What the three executions check before they record. *)
Definition admitted {X} (dry : bool) (what nilX : string) (x : option X) (wallet : option Wallet) (f : FakeChainClient)
    : result X :=
  match x with
  | None => Fail (EMsg ("fake: " +:+ what +:+ " nil " +:+ nilX))
  | Some x =>
      match wallet with
      | None => Fail (EMsg ("fake: " +:+ what +:+ " nil wallet"))
      | Some _ => if dryRunOnly f && negb dry then Fail refused else Ok x
      end
  end.

Definition ExecuteSwap (dry : bool) (quote : option Quote) (wallet : option Wallet) (f : FakeChainClient)
    : result TxResult * FakeChainClient :=
  match admitted dry "ExecuteSwap" "quote" quote wallet f with
  | Fail err => (Fail err, f)
  | Ok q =>
      let f := recorded (Swaps f ++ [q]) (Sent f) (Liquidations f) f in
      (Ok (tx_result ("fake-swap-" +:+ Itoa (len (Swaps f))) true), f)
  end.

Definition SimulateTransaction (f : FakeChainClient) (tx : option Transaction) : result SimResult :=
  match tx with
  | None => Fail (EMsg "fake: SimulateTransaction nil tx")
  | Some _ => Ok (default (sim_result true 0 "") (simResult f))
  end.

Definition SendTransaction (dry : bool) (tx : option Transaction) (wallet : option Wallet) (f : FakeChainClient)
    : result TxResult * FakeChainClient :=
  match admitted dry "SendTransaction" "tx" tx wallet f with
  | Fail err => (Fail err, f)
  | Ok tx =>
      let f := recorded (Swaps f) (Sent f ++ [tx]) (Liquidations f) f in
      (Ok (tx_result ("fake-tx-" +:+ Itoa (len (Sent f))) true), f)
  end.

Definition GetLendingPositions (f : FakeChainClient) (protocol : string) : list LendingPosition :=
  default [] (positions f !! protocol).

Definition GetYieldRates (f : FakeChainClient) (protocols : list string) : list YieldRate :=
  omap (fun p => yieldRates f !! p) protocols.

Definition ExecuteLiquidation (dry : bool) (pos : option LendingPosition) (wallet : option Wallet) (f : FakeChainClient)
    : result TxResult * FakeChainClient :=
  match admitted dry "ExecuteLiquidation" "position" pos wallet f with
  | Fail err => (Fail err, f)
  | Ok pos =>
      let f := recorded (Swaps f) (Sent f) (Liquidations f ++ [pos]) f in
      (Ok {| tx_Signature := "fake-liq-" +:+ Itoa (len (Liquidations f)); tx_Success := true; tx_GasUsed := 0;
             tx_GasPriceWei := 0; tx_FeePaidUSD := (CollateralAmt pos * LiquidationBonus pos / 10000)%float;
             tx_BlockNumber := 0; tx_ErrorMsg := "" |}, f)
  end.

(** ** Sessions *)

Inductive call :=
  | CSwap (quote : option Quote) (wallet : option Wallet)
  | CSend (tx : option Transaction) (wallet : option Wallet)
  | CLiquidation (pos : option LendingPosition) (wallet : option Wallet).

Definition call_fake (f : FakeChainClient) (c : bool * call) : result TxResult * FakeChainClient :=
  match c.2 with
  | CSwap q w => ExecuteSwap c.1 q w f
  | CSend t w => SendTransaction c.1 t w f
  | CLiquidation p w => ExecuteLiquidation c.1 p w f
  end.

(** The results of the calls, and the client after them. *)
Fixpoint calls_fake (f : FakeChainClient) (cs : list (bool * call)) : list (result TxResult) * FakeChainClient :=
  match cs with
  | [] => ([], f)
  | c :: cs' => let '(r, f) := call_fake f c in let '(rs, f) := calls_fake f cs' in (r :: rs, f)
  end.

Definition records (f : FakeChainClient) : Z := len (Swaps f) + len (Sent f) + len (Liquidations f).

Lemma call_recorded f c : let '(r, f') := call_fake f c in
  records f' = records f + (if is_ok r then 1 else 0) /\ dryRunOnly f' = dryRunOnly f /\
  (is_ok r = true -> dryRunOnly f = true -> c.1 = true).
Proof.
  destruct c as [dry [q w|t w|p w]]; cbn [call_fake fst snd]; unfold ExecuteSwap, SendTransaction, ExecuteLiquidation, admitted;
    [destruct q|destruct t|destruct p]; try destruct w; try destruct (dryRunOnly f) eqn:Hd; try destruct dry; cbn;
    unfold records, len; cbn; rewrite ?length_app; cbn [length]; split; try lia; done.
Qed.

(** The fake records exactly the calls it admits, and, restricted to dry runs,
    refuses every other. *)
Theorem fake_refuses_real cs : forall f,
  let '(rs, f') := calls_fake f cs in
  length rs = length cs /\ records f' = records f + len (List.filter is_ok rs) /\
  (dryRunOnly f = true -> Forall2 (fun c r => is_ok r = true -> c.1 = true) cs rs).
Proof.
  induction cs as [|c cs IH]; intros f; cbn [calls_fake].
  { split; [done|]. split; [unfold len; cbn; lia|]. constructor. }
  pose proof (call_recorded f c) as H. destruct (call_fake f c) as [r f1]. destruct H as (H1 & H2 & H3).
  specialize (IH f1). destruct (calls_fake f1 cs) as [rs f2]. destruct IH as (I1 & I2 & I3).
  split; [cbn; by rewrite I1|]. split.
  - rewrite I2, H1. unfold len. cbn [List.filter]. destruct (is_ok r); cbn [length]; lia.
  - intros Hd. constructor; [intros Hr; by apply H3|]. apply I3. by rewrite H2.
Qed.

(** A half-size request gets half the amount out. *)
Example fake_quote :
  match GetQuote 9 (WithQuote "SOL" "USDC" (price_quote 2 50 25) (NewFake "solana" "SOL")) "SOL" "USDC" 1 with
  | Ok q => (q_AmountOut q, q_AmountIn q) = (25, 1)%float
  | Fail _ => False
  end.
Proof. vm_compute. reflexivity. Qed.

Example fake_session :
  let f := WithDryRunOnly true (NewFake "base" "ETH") in
  let w := Some {| w_Chain := "base"; w_Address := "0xa"; w_KeyEncrypted := "" |} in
  map is_ok (calls_fake f [(false, CSend (Some {| t_Chain := "base"; t_Raw := "x" |}) w);
                           (true, CSwap (Some (price_quote 1 1 1)) w); (true, CSwap None w)]).1 = [false; true; false].
Proof. vm_compute. reflexivity. Qed.
