(* ===== verification/AgentRuns.v ===== *)
(** * Which agents run

    The rows the commands insert, the strategies their configs ask for and the
    swarm runtime that would start them, put together. *)
From Stdlib Require Import ZArith Lia Floats.
From stdpp Require Import base list strings gmap.
From S2P Require Import Prelude GoBase GoFloat Lifecycle NodeRunner Swarm SwarmSync Json Database EpochStore DbIntegrity DbRuntime Wallets TaskFactories Commands.
Open Scope Z_scope.

Section Swarm.
Context {E : EventCodec} (Build : string -> string -> option gerror) (LLMGet : string -> option gerror).
Context (decode_names : string -> result (list string)).

Definition unbuildable (row : Lifecycle.Agent) : Prop := Build (ag_TaskType row) (ag_StrategyConfig row) <> None.

(** A listing of rows none of which has a strategy. *)
Definition barren (listing : result (list Lifecycle.Agent)) : Prop :=
  match listing with Ok rows => Forall unbuildable rows | Fail _ => True end.

Lemma unbuildable_stays s row : unbuildable row ->
  exists err, startFromRow Build LLMGet decode_names s row = (Some err, s).
Proof.
  unfold unbuildable, startFromRow. intros H. destruct (str_eqb _ _); [by eexists|].
  destruct (Build _ _); [by eexists|done].
Qed.

Lemma start_rows_barren rows : Forall unbuildable rows -> forall s n,
  start_rows Build LLMGet decode_names s rows n = (n, s).
Proof.
  induction 1 as [|row rows Hr _ IH]; intros s n; [done|]. cbn [start_rows].
  destruct (unbuildable_stays s row Hr) as [err ->]. apply IH.
Qed.

(** No runner was ever made. *)
Definition runnerless (s : SwarmRuntime) : Prop := runners s = ∅ /\ handles s = [].

Lemma dispatch_barren s listing m : barren listing -> runnerless s ->
  dispatch Build LLMGet decode_names s listing m = s.
Proof.
  intros Hb [Hr Hh]. unfold dispatch. destruct (Lifecycle.Unmarshal (Payload m)) as [ev|]; [|done].
  destruct (str_eqb (ev_AgentID ev) ""); [done|].
  unfold spawnByID, stop, withRunner. rewrite Hr, lookup_empty.
  repeat match goal with |- (if ?b then _ else _) = _ => destruct b; try done end.
  destruct listing as [rows|]; [|done]. destruct (List.find _ rows) as [row|] eqn:Ef; [|done].
  apply List.find_some in Ef as [Hin _].
  destruct (unbuildable_stays s row) as [err ->]; [|done].
  cbn [barren] in Hb. rewrite Forall_forall in Hb. apply Hb. by apply list_elem_of_In.
Qed.

(** The boot and any events after it. *)
Definition session (s : SwarmRuntime) (listing : result (list Lifecycle.Agent))
    (events : list (result (list Lifecycle.Agent) * Message)) : SwarmRuntime :=
  fold_left (fun s ev => dispatch Build LLMGet decode_names s ev.1 ev.2) events
    (LoadAndStart Build LLMGet decode_names s listing).2.

Lemma session_barren s listing events : runnerless s -> barren listing -> Forall (fun ev => barren ev.1) events ->
  session s listing events = s /\ is_ok (LoadAndStart Build LLMGet decode_names s listing).1 = is_ok listing.
Proof.
  intros Hs Hb He. unfold session, LoadAndStart.
  assert (H0 : (match listing with
    | Ok rows => let '(started, s0) := start_rows Build LLMGet decode_names s rows 0 in (Ok started, s0)
    | Fail err => (Fail (EWrap "swarm: list active agents: %w" err), s) end) =
    (match listing with Ok _ => Ok 0 | Fail err => Fail (EWrap "swarm: list active agents: %w" err) end, s)).
  { destruct listing as [rows|]; [|done]. by rewrite start_rows_barren. }
  rewrite H0. cbn [snd fst]. split; [|by destruct listing].
  induction He as [|ev events H _ IH]; [done|]. cbn [fold_left]. by rewrite dispatch_barren.
Qed.
End Swarm.

(** ** As the program starts *)

(** C14: The swarm that [cmd/swarm] boots never runs an agent: nothing in the program
    sets the dependencies of the four strategies, so every row it lists at the
    boot or upon a spawn event is refused, and no event ever finds a runner. *)
Theorem unwired_swarm_idle {E : EventCodec} unicode_upper LLMGet decode_names sched monitor heartbeat strategist
    listing events :
  match NewSwarm true true sched monitor heartbeat strategist with
  | Ok s => session (build_error unicode_upper unset) LLMGet decode_names s listing events = s /\ handles s = [] /\
      (is_ok listing = true -> (LoadAndStart (build_error unicode_upper unset) LLMGet decode_names s listing).1 = Ok 0)
  | Fail _ => False
  end.
Proof.
  cbn [NewSwarm negb]. set (s := {| scheduler := _ |}).
  assert (Hall : forall l, barren (build_error unicode_upper unset) l).
  { intros [rows|]; [|done]. apply Forall_true. intros row. apply unset_refused. }
  split; [|split; [done|]].
  - apply session_barren; [done|apply Hall|]. apply Forall_true. intros ev. apply Hall.
  - destruct listing as [rows|]; [|done]. intros _. unfold LoadAndStart. by rewrite start_rows_barren by apply (Hall (Ok rows)).
Qed.

(** ** As it would, wired *)

Section Seeded.
Context {P : Postgres} {PL : PostgresLaws P} {EC : EventCodec} (unicode_upper : string -> string).

(** A row one of the two commands inserts. *)
Definition by_command (a : Database.Agent) : Prop :=
  (exists name chain w, a = treasury_row name chain w) \/ (exists spec w, a = ToAgentRow spec w).

Definition bare (r : AgentRow) : Prop := names_no_chain (a_strategy_config r).

Lemma bare_settled : settled bare.
Proof. by split. Qed.

Context (empty_kept : forall t, jsonb_in "{}" = Some t -> Json.Parse t = Some (Json.JsonObject [])).

Lemma command_bare a : by_command a -> forall d id d', untouched bare d -> insert_agent a d = Ok (id, d') ->
  untouched bare d'.
Proof.
  intros Ha d id d' [Hd Hp] H.
  assert (Hc : defaultJSON (da_StrategyConfig a) "{}" = "{}") by (destruct Ha as [(? & ? & ? & ->)|(? & ? & ->)]; done).
  unfold insert_agent in H. rewrite Hc in H. body_cases H. injection H as _ <-. constructor; [|done].
  cbn [with_agents agents]. match goal with Ei : _ = <[_ := _]> _ |- _ => rewrite Ei end.
  apply map_Forall_insert_row; [done|]. right. left. apply empty_kept.
  match goal with Ej : jsonb_value "{}" = Ok _ |- _ => revert Ej; unfold jsonb_value end.
  destruct (jsonb_in "{}"); [|done]. by intros [= ->].
Qed.

Definition commanded (ops : list db_op) : Prop := forall a, OpInsertAgent a ∈ ops -> by_command a.

Lemma ops_bare ops : commanded ops -> forall db, untouched bare db -> untouched bare (run_ops ops db).
Proof.
  induction ops as [|o ops IH]; intros Hc db Hdb; [done|]. apply IH; [intros a Ha; apply Hc; by right|].
  apply op_untouched; [exact bare_settled| |done]. intros a d id d' -> Hd. apply command_bare; [|done]. apply Hc. by left.
Qed.

(** What the runtime lists after some operations. *)
Definition listed (ops : list db_op) : result (list Lifecycle.Agent) :=
  let? rows := Database.ListActiveAgents (run_ops ops migrated) in Ok (map runtime_agent rows).

Lemma listed_barren d ops : commanded ops -> barren (build_error unicode_upper d) (listed ops).
Proof.
  intros Hc. pose proof (ops_bare ops Hc migrated (migrated_untouched bare)) as [Hb _].
  unfold listed. destruct (Database.ListActiveAgents _) as [rows|] eqn:El; [|done]. cbn [barren].
  apply Forall_forall. intros row (a & -> & Ha)%list_elem_of_fmap.
  unfold Database.ListActiveAgents, query in El. destruct (outage _); [done|]. injection El as <-.
  apply list_elem_of_fmap in Ha as ([k r] & -> & Hk).
  apply order_by_elem, filter_scan in Hk as [Hk _].
  apply no_chain_refused. exact (Hb k r Hk).
Qed.

(** Were the dependencies set, still no agent the commands put into the table
    would ever run: their rows have no config, and every strategy requires a
    chain.  Whatever else the program writes, the runtime lists them and starts
    none. *)
Theorem seeded_agents_never_run d LLMGet decode_names s ops n events :
  commanded ops -> runnerless s -> Forall (fun ev => exists k, ev.1 = listed (take k ops)) events ->
  session (build_error unicode_upper d) LLMGet decode_names s (listed (take n ops)) events = s.
Proof.
  assert (Ht : forall k, commanded ops -> commanded (take k ops)).
  { intros k Hc a Ha. apply Hc. by apply elem_of_take in Ha as (i & Hi & _); apply list_elem_of_lookup_2 in Hi. }
  intros Hc Hs He. apply session_barren; [done|apply listed_barren; by apply Ht|].
  eapply Forall_impl; [exact He|]. intros ev [k ->]. apply listed_barren. by apply Ht.
Qed.
End Seeded.

Section Samples.
#[local] Existing Instance float_postgres.
#[local] Existing Instance float_postgres_laws.
#[local] Existing Instance event_codec.

(** A treasury, a seed, and a heartbeat of the first. *)
Definition first_day : list db_op :=
  [OpInsertAgent (treasury_row solanaTreasuryName "solana" solana_wallet);
   OpInsertAgent (ToAgentRow (a_spec "one" "funded") (base_wallet "0xone")); OpHeartbeat "u1"].

Lemma first_day_commanded : commanded first_day.
Proof.
  intros a [[= ->]|[[= ->]|[[=]|[]%elem_of_nil]%elem_of_cons]%elem_of_cons]%elem_of_cons.
  - left. by do 3 eexists.
  - right. by do 2 eexists.
Qed.

Lemma float_empty t : jsonb_in "{}" = Some t -> Json.Parse t = Some (Json.JsonObject []).
Proof.
  assert (H : jsonb_in "{}" = Some "{}") by (vm_compute; reflexivity). rewrite H. intros [= <-]. vm_compute. reflexivity.
Qed.

Lemma seeded_agents_never_run_witness :
  session (build_error id solana_only) always_ok no_names empty_swarm (listed (take 1 first_day))
    [(listed (take 2 first_day), sample_message ChannelLifecycleSpawn "u2")] = empty_swarm.
Proof.
  apply (seeded_agents_never_run id float_empty solana_only
    always_ok no_names empty_swarm first_day 1 _ first_day_commanded (conj eq_refl eq_refl)).
  constructor; [by exists 2%nat|constructor].
Defined.

(** Both rows are there, and active. *)
Example seeded_rows : match listed first_day with
  | Ok rows => map (fun row => (ag_Name row, ag_StrategyConfig row)) rows = [("root_treasury_solana", "{}"); ("one", "{}")]
  | Fail _ => False
  end.
Proof. vm_compute. reflexivity. Qed.
End Samples.
