(* ===== verification/EpochCron.v ===== *)
(** * The epoch cron ([cmd/swarm/main.go])

    [epochCadence] with the [time.ParseDuration] it calls, and [runEpochCron]:
    one epoch as the process starts and one per tick, each over a row seeded for
    it. *)
From Stdlib Require Import ZArith Lia Ascii Floats.
From stdpp Require Import base list strings gmap.
From S2P Require Import Prelude GoBase GoFloat GoRound Json Amounts Config Database EpochStore DbIntegrity.
Set Warnings "-inexact-float".
Open Scope Z_scope.

(** ** [time.ParseDuration] *)

Definition two63 : Z := 2 ^ 63.

Definition invalid_duration : gerror := EMsg "time: invalid duration %q".

(** The digits at the front; [None] when they pass 2^63. *)
Fixpoint leadingInt (x : Z) (s : string) : option (Z * string) :=
  match s with
  | String c s' =>
      if is_digit c then
        if two63 / 10 <? x then None
        else let x := x * 10 + (byte c - 48) in if two63 <? x then None else leadingInt x s'
      else Some (x, s)
  | "" => Some (x, s)
  end.

(** The digits of a fraction, with the power of ten they count in; those past
    what an int64 holds are read and dropped. *)
Fixpoint leadingFraction (overflow : bool) (x : Z) (scale : float) (s : string) : Z * float * string :=
  match s with
  | String c s' =>
      if is_digit c then
        if overflow || (max_int64 / 10 <? x) then leadingFraction true x scale s'
        else
          let y := x * 10 + (byte c - 48) in
          if two63 <? y then leadingFraction true x scale s' else leadingFraction false y (scale * 10)%float s'
      else (x, scale, s)
  | "" => (x, scale, s)
  end.

(** Everything up to a dot or a digit. *)
Fixpoint unit_of (s : string) : string * string :=
  match s with
  | String c s' =>
      if Ascii.eqb c "." || is_digit c then ("", s) else let '(u, rest) := unit_of s' in (String c u, rest)
  | "" => ("", "")
  end.

(** The two ways to write the micro sign. *)
Definition micro : string := byte_str [194; 181]%N.
Definition mu : string := byte_str [206; 188]%N.

Definition unitMap (u : string) : option Z :=
  if str_eqb u "ns" then Some 1
  else if str_eqb u "us" || str_eqb u (micro +:+ "s") || str_eqb u (mu +:+ "s") then Some 1000
  else if str_eqb u "ms" then Some Millisecond
  else if str_eqb u "s" then Some Second
  else if str_eqb u "m" then Some Minute
  else if str_eqb u "h" then Some Hour
  else None.

(** One number with its unit, as nanoseconds. *)
Definition duration_term (s : string) : result (Z * string) :=
  let head := match s with String c _ => Ascii.eqb c "." || is_digit c | "" => false end in
  if negb head then Fail invalid_duration
  else
    match leadingInt 0 s with
    | None => Fail invalid_duration
    | Some (v, s1) =>
        let pre := negb (String.length s1 =? String.length s)%nat in
        let '(f, scale, s2, post) :=
          match s1 with
          | String "." s1' =>
              let '(f, scale, s2) := leadingFraction false 0 1 s1' in
              (f, scale, s2, negb (String.length s2 =? String.length s1')%nat)
          | _ => (0, 1%float, s1, false)
          end in
        if negb pre && negb post then Fail invalid_duration
        else
          let '(u, rest) := unit_of s2 in
          if str_eqb u "" then Fail (EMsg "time: missing unit in duration %q")
          else
            match unitMap u with
            | None => Fail (EMsg "time: unknown unit %q in duration %q")
            | Some unit_ =>
                if two63 / unit_ <? v then Fail invalid_duration
                else
                  let v := v * unit_ in
                  let v := if 0 <? f
                           then v + uint64_of_float (float_of_uint f * (float_of_uint unit_ / scale))%float else v in
                  if (0 <? f) && (two63 <? v) then Fail invalid_duration else Ok (v, rest)
            end
    end.

Fixpoint duration_terms (fuel : nat) (d : Z) (s : string) : result Z :=
  match s, fuel with
  | "", _ => Ok d
  | _, O => Fail invalid_duration
  | _, S fuel' =>
      let? term := duration_term s in
      let d := d + term.1 in
      if two63 <? d then Fail invalid_duration else duration_terms fuel' d term.2
  end.

(** Each term takes at least one byte of the text. *)
Definition ParseDuration (s : string) : result Duration :=
  let neg := HasPrefix s "-" in
  let body := if neg || HasPrefix s "+" then str_drop 1 s else s in
  if str_eqb body "0" then Ok 0
  else if str_eqb body "" then Fail invalid_duration
  else
    let? d := duration_terms (String.length body) 0 body in
    if neg then Ok (- d) else if max_int64 <? d then Fail invalid_duration else Ok d.

(** ** The cron *)

Definition epochCadence (getenv : string -> string) : Duration :=
  let v := getenv "EPOCH_INTERVAL" in
  if str_eqb v "" then Hour
  else match ParseDuration v with Ok d => if 0 <? d then d else Hour | Fail _ => Hour end.

Section Cron.
Context {P : Postgres}.

(** What a run of the cron reports. *)
Inductive report := SeedFailed (err : gerror) | EpochFailed (id : string) (err : gerror) | EpochCompleted (id : string).

(** [RunEpoch] over the database: its error, and the statements it has run. *)
Definition epoch_run : Type := string -> database -> option gerror * list db_op.

Definition runOne (run : epoch_run) (db : database) : report * database :=
  match seedEpochRow db with
  | (Fail err, db) => (SeedFailed err, db)
  | (Ok epochID, db) =>
      let '(err, ops) := run epochID db in
      let db := run_ops ops db in
      match err with
      | Some err => (EpochFailed epochID err, db)
      | None => (EpochCompleted epochID, db)
      end
  end.

(** The ticks before the context is cancelled; between two of them the rest of
    the program writes. *)
Fixpoint cron_ticks (ticks : list (list db_op * epoch_run)) (db : database) : list report * database :=
  match ticks with
  | [] => ([], db)
  | (ops, run) :: ticks' =>
      let '(r, db) := runOne run (run_ops ops db) in
      let '(rs, db) := cron_ticks ticks' db in (r :: rs, db)
  end.

Definition runEpochCron (first : epoch_run) (ticks : list (list db_op * epoch_run)) (db : database)
    : list report * database :=
  let '(r, db) := runOne first db in
  let '(rs, db) := cron_ticks ticks db in (r :: rs, db).

(** ** Every epoch has a row and a number of its own *)

Definition seeded (r : report) : option string :=
  match r with SeedFailed _ => None | EpochFailed id _ | EpochCompleted id => Some id end.

(** A number past every row's. *)
Definition above (db : database) (n : Z) : Prop := forall id m t, epoch_at id m t db -> m < n.

Lemma run_ops_epoch_at id n t ops db : epoch_at id n t db -> epoch_at id n t (run_ops ops db).
Proof. apply (run_ops_keeps (epoch_at id n t)). intros o d. apply op_epoch_at. Qed.

Lemma above_earlier ops db n : above (run_ops ops db) n -> above db n.
Proof. intros H id m t Hm. by apply (H id m t), run_ops_epoch_at. Qed.

Lemma seed_numbers db :
  match seedEpochRow db with
  | (Ok id, db') => exists t, epoch_at id (next_number db) t db' /\
      (forall i m u, epoch_at i m u db -> epoch_at i m u db')
  | (Fail _, db') => epochs db' = epochs db
  end.
Proof.
  unfold seedEpochRow, statement. destruct (outage _); [done|].
  destruct (insert_epoch (tick db)) as [[id db']|err] eqn:Ei; [|done]. unfold insert_epoch in Ei.
  repeat match type of Ei with (match ?x with _ => _ end) = _ => destruct x eqn:?; [|done] end.
  match goal with E : insert_row _ _ _ = Ok _ |- _ => apply insert_row_ok in E as (_ & Hf & Ea) end.
  repeat match goal with E : int4_value _ = Ok _ |- _ => apply int4_value_id in E end.
  injection Ei as <- <-. unfold epoch_at. cbn [with_epochs epochs] in *. rewrite Ea. eexists. split.
  - eexists. rewrite lookup_insert_eq. split; [done|]. split; [done|reflexivity].
  - intros i m u (e & He & Hn & Hs). exists e. rewrite lookup_insert_ne; [done|].
    intros <-. cbn [tick epochs] in Hf. by rewrite Hf in He.
Qed.

Lemma next_above db : above db (next_number db).
Proof. intros id m t (e & He & <- & _). by apply (next_number_fresh db id). Qed.

Lemma runOne_numbers run db : let '(r, db') := runOne run db in
  (forall i m u, epoch_at i m u db -> epoch_at i m u db') /\
  match seeded r with Some id => exists t, epoch_at id (next_number db) t db' | None => True end.
Proof.
  unfold runOne. pose proof (seed_numbers db) as Hs.
  destruct (seedEpochRow db) as [[id|err] db1].
  - destruct Hs as (t & Hid & Hk). destruct (run id db1) as [err ops].
    assert (Hall : forall i m u, epoch_at i m u db -> epoch_at i m u (run_ops ops db1))
      by (intros; by apply run_ops_epoch_at, Hk).
    assert (Hn : exists t, epoch_at id (next_number db) t (run_ops ops db1)) by (exists t; by apply run_ops_epoch_at).
    by destruct err.
  - split; [|done]. intros i m u (e & He & Hr). exists e. by rewrite Hs.
Qed.

(** The rows a run of the cron has seeded, in the order it has. *)
Definition numbered (db db' : database) (rs : list report) : Prop :=
  exists ns, Forall2 (fun id n => exists t, epoch_at id n t db') (omap seeded rs) ns /\
    Sorted.StronglySorted Z.lt ns /\ Forall (above db) ns.

Lemma runOne_first run db r db1 db' rs : runOne run db = (r, db1) ->
  (forall i m u, epoch_at i m u db1 -> epoch_at i m u db') -> numbered db1 db' rs -> numbered db db' (r :: rs).
Proof.
  intros E Hk (ns & H1 & H2 & H3). pose proof (runOne_numbers run db) as H. rewrite E in H. destruct H as [Hdb Hr].
  assert (Hall : Forall (above db) ns).
  { eapply Forall_impl; [exact H3|]. intros n Hn i m u Hm. by apply (Hn i m u), Hdb. }
  unfold numbered. cbn [omap list_omap]. destruct (seeded r) as [id|]; [|by exists ns].
  destruct Hr as [t Ht]. exists (next_number db :: ns). split; [|split].
  - constructor; [exists t; by apply Hk|done].
  - constructor; [done|]. eapply Forall_impl; [exact H3|]. intros n Hn. by apply (Hn id _ t).
  - constructor; [apply next_above|done].
Qed.

Lemma cron_ticks_numbered ticks : forall db, let '(rs, db') := cron_ticks ticks db in
  length rs = length ticks /\ (forall i m u, epoch_at i m u db -> epoch_at i m u db') /\ numbered db db' rs.
Proof.
  induction ticks as [|[ops run] ticks IH]; intros db; cbn [cron_ticks].
  { split; [done|]. split; [done|]. exists []. split; [constructor|]. split; constructor. }
  destruct (runOne run (run_ops ops db)) as [r db1] eqn:E. specialize (IH db1).
  destruct (cron_ticks ticks db1) as [rs db']. destruct IH as (H1 & H2 & H3).
  pose proof (runOne_numbers run (run_ops ops db)) as Hn. rewrite E in Hn. destruct Hn as [Hn _].
  split; [cbn; by rewrite H1|]. split; [intros; by apply H2, Hn, run_ops_epoch_at|].
  destruct (runOne_first _ _ _ _ db' rs E H2 H3) as (ns & G1 & G2 & G3). exists ns. split; [done|]. split; [done|].
  eapply Forall_impl; [exact G3|]. intros n. apply above_earlier.
Qed.

(** C16: The cron runs one epoch as the process starts and one at each tick, whether
    or not those before it failed, and whatever the rest of the program writes in
    between; each epoch that is seeded has a row of its own, numbered past every
    row there was and past the epochs before it. *)
Theorem cron_numbers_epochs first ticks db : let '(rs, db') := runEpochCron first ticks db in
  length rs = S (length ticks) /\ numbered db db' rs.
Proof.
  unfold runEpochCron. destruct (runOne first db) as [r db1] eqn:E. pose proof (cron_ticks_numbered ticks db1) as H.
  destruct (cron_ticks ticks db1) as [rs db']. destruct H as (H1 & H2 & H3). split; [cbn; by rewrite H1|].
  by apply (runOne_first first db r db1).
Qed.
End Cron.

(** ** Durations *)

Lemma leadingInt_nonneg s : forall x v rest, 0 <= x -> leadingInt x s = Some (v, rest) -> 0 <= v.
Proof.
  induction s as [|c s IH]; intros x v rest Hx; cbn [leadingInt]; [by intros [= <- _]|].
  destruct (is_digit c) eqn:Hc; [|by intros [= <- _]]. destruct (_ <? x); [done|].
  destruct (_ <? x * 10 + (byte c - 48)); [done|]. apply IH. unfold is_digit, between in Hc. lia.
Qed.

Lemma uint64_nonneg f : 0 <= uint64_of_float f.
Proof.
  unfold uint64_of_float. destruct (_ <? _)%float; [apply Z.mod_pos_bound; lia|].
  apply Z.lxor_nonneg. split; intros _; [lia|apply Z.mod_pos_bound; lia].
Qed.

Lemma duration_term_nonneg s d rest : duration_term s = Ok (d, rest) -> 0 <= d.
Proof.
  unfold duration_term. destruct (negb _); [done|]. destruct (leadingInt 0 s) as [[v s1]|] eqn:Ev; [|done].
  apply leadingInt_nonneg in Ev; [|done].
  destruct (match s1 with String "." _ => _ | _ => _ end) as [[[f scale] s2] post].
  destruct (_ && _); [done|]. destruct (unit_of s2) as [u r]. destruct (str_eqb u ""); [done|].
  destruct (unitMap u) as [k|] eqn:Eu; [|done]. destruct (_ <? v); [done|].
  assert (Hk : 0 < k).
  { revert Eu. unfold unitMap. repeat match goal with |- context [if ?b then _ else _] => destruct b end; try done;
      intros [= <-]; reflexivity. }
  pose proof (uint64_nonneg (float_of_uint f * (float_of_uint k / scale))%float).
  destruct (0 <? f); cbn [andb]; [destruct (two63 <? _); [done|]|]; intros [= <- _]; nia.
Qed.

Lemma duration_terms_nonneg fuel : forall d s n, 0 <= d -> duration_terms fuel d s = Ok n -> 0 <= n.
Proof.
  induction fuel as [|fuel IH]; intros d s n Hd; cbn [duration_terms]; destruct s as [|c s]; try done;
    [by intros [= <-]|by intros [= <-]|].
  destruct (duration_term (String c s)) as [[v rest]|] eqn:E; [|done]. apply duration_term_nonneg in E. cbn [fst snd].
  destruct (two63 <? d + v); [done|]. apply IH. lia.
Qed.

(** The cron's period is positive whatever EPOCH_INTERVAL holds, and within an
    int64, so the ticker is never refused. *)
Theorem cadence_positive getenv : 0 < epochCadence getenv <= max_int64.
Proof.
  unfold epochCadence. destruct (str_eqb _ ""); [split; vm_compute; congruence|].
  destruct (ParseDuration _) as [d|] eqn:E; [|split; vm_compute; congruence].
  destruct (0 <? d) eqn:Hd; [|split; vm_compute; congruence]. split; [lia|].
  unfold ParseDuration in E. destruct (str_eqb _ "0"); [injection E as <-; lia|]. destruct (str_eqb _ ""); [done|].
  destruct (duration_terms _ _ _) as [n|] eqn:Et; [|done]. apply duration_terms_nonneg in Et; [|done].
  destruct (HasPrefix _ "-").
  - injection E as <-. lia.
  - destruct (max_int64 <? n) eqn:Hm; [done|]. injection E as <-. lia.
Qed.


(** Unit by unit, a fraction, the extremes and what is refused. *)
Example parsed_durations :
  map (fun s => match ParseDuration s with Ok d => Some d | Fail _ => None end)
    ["1h30m"; "90m"; "1.5h"; "0"; "-2s"; "+.5s"; "1" +:+ mu +:+ "s"; "9223372036854775807ns"; "9223372036854775808ns";
     "-9223372036854775808ns"; "3"; "h"; "."; "1.h"; "1d"; ""] =
  [Some (90 * Minute); Some (90 * Minute); Some (90 * Minute); Some 0; Some (- (2 * Second)); Some 500000000; Some 1000;
   Some max_int64; None; Some min_int64; None; None; None; Some Hour; None; None].
Proof. vm_compute. reflexivity. Qed.

(** A text that is no duration, a negative one and none leave the hour. *)
Example cadences :
  map (fun v => epochCadence (fun _ => v)) [""; "90s"; "-90s"; "0"; "soon"] = [Hour; 90 * Second; Hour; Hour; Hour].
Proof. vm_compute. reflexivity. Qed.

(** The second epoch fails and the third is run. *)
Example three_epochs :
  let ok : epoch_run (P := float_postgres) := fun _ _ => (None, []) in
  let bad : epoch_run (P := float_postgres) := fun _ _ => (Some (EMsg "load state"), []) in
  (runEpochCron ok [([], bad); ([], ok)] migrated).1 =
  [EpochCompleted "u1"; EpochFailed "u2" (EMsg "load state"); EpochCompleted "u3"].
Proof. vm_compute. reflexivity. Qed.
