(* ===== verification/DevnetFund.v ===== *)
(** * Topping up the treasuries ([cmd/devnet-fund/main.go])

    The airdrop to the Solana treasury, the wait for its confirmation, and the
    faucet of Base Sepolia.  The devnet's answers, the clock and the context are
    an interface; what the command asks of them and prints is a log. *)
From Stdlib Require Import ZArith Lia Floats.
From stdpp Require Import base list strings gmap.
From S2P Require Import Prelude GoBase GoFmt GoFloat JsonExtract Json JsonCodec Feeds Amounts Config Wallets Database Commands.
Set Warnings "-inexact-float".
Open Scope Z_scope.
Open Scope go_scope.

Definition solanaAirdropSOL : Z := 5.
Definition lamportsPerSOL : Z := 1000000000.
Definition baseFaucetURL : string := "https://faucet.base.org/api/sepolia".

(** A signature's status: the error of its transaction, how far it is confirmed. *)
Record status := { st_Err : option string; st_ConfirmationStatus : string }.

(** What the command asks the world for, and prints. *)
Inductive effect :=
  | EAirdrop (rpcURL addr : string) (lamports : Z)
  | EPost (req : request)
  | EPrint (line : string)
  | ELog (what : string) (err : gerror).

(** The devnet: a balance before the airdrop and after it, the [k]th look at the
    signature, the clock as the [k]th round begins, and what the context has to
    say as it ends. *)
Class Devnet := {
  PublicKeyFromBase58 : string -> option gerror;
  balance_before : string -> result Z;
  balance_after : string -> result Z;
  RequestAirdrop : string -> Z -> result string;
  GetSignatureStatuses : nat -> result (list (option status));
  wait_now : nat -> Time;
  ctx_Err : nat -> option gerror;
  faucet_Do : request -> result (Z * string);
}.

Section Fund.
Context {N : Devnet}.

(** What a look decides: [None] when there is another. *)
Definition judged (r : result (list (option status))) : option (result unit) :=
  match r with
  | Ok (Some s :: _) =>
      match st_Err s with
      | Some _ => Some (Fail (EMsg "airdrop tx failed: %v"))
      | None => if mem (st_ConfirmationStatus s) ["confirmed"; "finalized"] then Some (Ok tt) else None
      end
  | _ => None
  end.

(** The rounds of [waitForSignature] from the [k]th on; [None] is out of fuel. *)
Fixpoint wait_rounds (fuel : nat) (deadline : Time) (k : nat) : option (result unit) :=
  match fuel with
  | O => None
  | S fuel' =>
      if After (wait_now k) deadline then Some (Fail (EMsg "timeout waiting for %s"))
      else
        match judged (GetSignatureStatuses k) with
        | Some r => Some r
        | None =>
            match ctx_Err k with
            | Some err => Some (Fail err)
            | None => wait_rounds fuel' deadline (S k)
            end
        end
  end.

(** Sixty seconds, a look every two. *)
Definition wait_fuel : nat := 32.

Definition waitForSignature (start : Time) : option (result unit) :=
  wait_rounds wait_fuel (Add start (60 * Second)) 0.

Definition sol (lamports : Z) : string := fmt_f 4 (float_of_uint lamports / float_of_uint lamportsPerSOL)%float.

Definition fundSolana (start : Time) (rpcURL addr : string) : option (result unit) * list effect :=
  let rpcURL := or_else rpcURL "https://api.devnet.solana.com" in
  match PublicKeyFromBase58 addr with
  | Some err => (Some (Fail (EWrap "parse address: %w" err)), [])
  | None =>
      let before := match balance_before addr with Ok v => v | Fail _ => 0 end in
      let ask := EAirdrop rpcURL addr (solanaAirdropSOL * lamportsPerSOL) in
      match RequestAirdrop addr (solanaAirdropSOL * lamportsPerSOL) with
      | Fail err => (Some (Fail (EWrap "requestAirdrop: %w" err)), [ask])
      | Ok sig =>
          let log := [ask; EPrint ("solana: requested " +:+ Itoa solanaAirdropSOL +:+ " SOL airdrop, sig=" +:+ sig)] in
          match waitForSignature start with
          | None => (None, log)
          | Some (Fail err) => (Some (Fail (EWrap "await airdrop: %w" err)), log)
          | Some (Ok _) =>
              match balance_after addr with
              | Fail err => (Some (Fail (EWrap "post-airdrop balance: %w" err)), log)
              | Ok after =>
                  (Some (Ok tt), log ++ [EPrint ("solana: balance " +:+ sol before +:+ " -> " +:+ sol after +:+ " SOL")])
              end
          end
      end
  end.

Definition faucet_request (addr key : string) : request := {|
  rq_method := "POST"; rq_url := baseFaucetURL;
  rq_headers := [("content-type", "application/json"); ("authorization", "Bearer " +:+ key)];
  rq_body := write_object [("address", json_string addr); ("network", json_string "sepolia")] |}.

Definition attemptBaseFaucet (addr key : string) : option gerror * list effect :=
  let req := faucet_request addr key in
  match faucet_Do req with
  | Fail err => (Some err, [EPost req])
  | Ok (status, body) =>
      (if 400 <=? status
       then Some (EMsg ("faucet returned " +:+ Itoa status +:+ ": " +:+ str_take 1024 body)) else None, [EPost req])
  end.

Definition printSepoliaInstructions (getenv : string -> string) (addr : string) : list effect :=
  let lines := map EPrint
    [""; "base sepolia treasury: " +:+ addr; "manual faucet (Coinbase Wallet auth required):";
     "  open https://portal.cdp.coinbase.com/products/faucet?network=base-sepolia&address=" +:+ addr;
     "alternative (programmatic, rate-limited):";
     "  curl -sS -X POST " +:+ baseFaucetURL +:+ " -H 'content-type: application/json' \";
     "    -d '" +:+ write_object [("address", String dquote addr +:+ String dquote ""); ("network", json_string "sepolia")]
       +:+ "'"] in
  let key := getenv "BASE_SEPOLIA_FAUCET_KEY" in
  if str_eqb key "" then lines
  else
    match attemptBaseFaucet addr key with
    | (Some err, log) => lines ++ log ++ [ELog "base sepolia faucet: %v" err]
    | (None, log) => lines ++ log ++ [EPrint "base sepolia: faucet accepted request"]
    end.

Context {P : Postgres} (D : Drivers database).

(** [run]: its error, and its log; [None] is a wait that is out of fuel. *)
Definition devnet_fund (getenv : string -> string) (visit : list string) (start : Time) (db : database)
    : option (result unit) * list effect :=
  match
    (let? cfg := Load getenv visit wrap "config: %w" in
     let? _ := (if str_eqb (Network cfg) "devnet" then Ok tt
                else Fail (EMsg "NETWORK=%q: devnet-fund only runs against devnet")) in
     let? _ := NewPool D (DatabasePoolURL cfg) wrap "db pool: %w" in
     let? solAgent := GetAgentByName solanaTreasuryName db wrap "solana treasury: %w (run cmd/init-treasury first)" in
     let? baseAgent := GetAgentByName baseTreasuryName (tick db) wrap "base treasury: %w (run cmd/init-treasury first)" in
     Ok (cfg, da_WalletAddress solAgent, da_WalletAddress baseAgent))
  with
  | Fail err => (Some (Fail err), [])
  | Ok (cfg, solAddr, baseAddr) =>
      match fundSolana start (HeliusDevnetURL cfg) solAddr with
      | (None, log) => (None, log)
      | (Some r, log) =>
          (Some (Ok tt),
           log ++ match r with Fail err => [ELog "solana airdrop: %v" err] | Ok _ => [] end
             ++ printSepoliaInstructions getenv baseAddr)
      end
  end.

(** ** The wait ends *)

(** A look that found the airdrop confirmed, every one before it undecided and
    none after the deadline. *)
Definition confirmed_at (deadline : Time) (k i : nat) : Prop :=
  (k <= i)%nat /\ judged (GetSignatureStatuses i) = Some (Ok tt) /\
  (forall j, (k <= j <= i)%nat -> wait_now j <= deadline) /\
  (forall j, (k <= j < i)%nat -> judged (GetSignatureStatuses j) = None /\ ctx_Err j = None).

Lemma confirmed_next deadline k i : wait_now k <= deadline -> judged (GetSignatureStatuses k) = None -> ctx_Err k = None ->
  confirmed_at deadline (S k) i -> confirmed_at deadline k i.
Proof.
  intros Hn Hj Hc (H1 & H2 & H3 & H4). split; [lia|]. split; [done|].
  split; intros j Hk; (destruct (decide (j = k)) as [->|Hne]; [done|]); [apply H3|apply H4]; lia.
Qed.

Lemma wait_rounds_end deadline fuel : forall k,
  (exists j, (k <= j < k + fuel)%nat /\ deadline < wait_now j) ->
  exists r, wait_rounds fuel deadline k = Some r /\ (r = Ok tt <-> exists i, confirmed_at deadline k i).
Proof.
  induction fuel as [|fuel IH]; intros k (j & Hj & Hd); [lia|]. cbn [wait_rounds]. unfold After.
  destruct (deadline <? wait_now k) eqn:Hk.
  { eexists. split; [reflexivity|]. split; [done|]. intros (i & Hi & _ & Hnow & _). specialize (Hnow k). lia. }
  destruct (judged (GetSignatureStatuses k)) as [r|] eqn:Hr.
  { exists r. split; [done|]. split.
    - intros ->. exists k. split; [lia|]. split; [done|]. split; intros j' Hj'; [|lia].
      assert (j' = k) as -> by lia. lia.
    - intros (i & Hi & Hok & _ & Hbefore). destruct (decide (i = k)) as [->|Hne].
      + rewrite Hr in Hok. by injection Hok.
      + destruct (Hbefore k) as [H _]; [lia|]. by rewrite Hr in H. }
  destruct (ctx_Err k) as [err|] eqn:Hc.
  { eexists. split; [reflexivity|]. split; [done|]. intros (i & Hi & Hok & _ & Hbefore).
    destruct (decide (i = k)) as [->|Hne]; [by rewrite Hr in Hok|]. destruct (Hbefore k) as [_ H]; [lia|]. by rewrite Hc in H. }
  destruct (IH (S k)) as (r & -> & Hiff).
  { exists j. split; [|done]. destruct (decide (j = k)) as [->|Hne]; [|lia]. lia. }
  exists r. split; [done|]. rewrite Hiff. split; intros [i Hi]; exists i.
  - apply confirmed_next; [lia|done|done|done].
  - destruct Hi as (H1 & H2 & H3 & H4). assert (i <> k) by (intros ->; by rewrite Hr in H2).
    split; [lia|]. split; [done|]. split; intros j' Hj'; [apply H3|apply H4]; lia.
Qed.

(** C33: The wait for the airdrop ends, within thirty-two looks two seconds apart,
    and succeeds exactly when one of them finds the transaction confirmed within
    the minute, those before it undecided and the context alive. *)
Theorem airdrop_wait_ends start : start <= wait_now 0 -> (forall k, wait_now k + 2 * Second <= wait_now (S k)) ->
  exists r, waitForSignature start = Some r /\
    (r = Ok tt <-> exists i, confirmed_at (Add start (60 * Second)) 0 i).
Proof.
  intros H0 Hstep. apply wait_rounds_end. exists 31%nat. split; [unfold wait_fuel; lia|].
  assert (H : forall k, start + Z.of_nat k * (2 * Second) <= wait_now k).
  { induction k as [|k IH]; [lia|]. specialize (Hstep k). lia. }
  specialize (H 31%nat). unfold Add, Second in *. lia.
Qed.

(** ** Whom it asks for money *)

Definition asks (e : effect) : bool := match e with EAirdrop _ _ _ | EPost _ => true | _ => false end.

Lemma fund_asks start url addr : exists url' log, (fundSolana start url addr).2 = log /\
  (log = [] \/ exists rest, log = EAirdrop url' addr (solanaAirdropSOL * lamportsPerSOL) :: rest /\
     Forall (fun e => asks e = false) rest).
Proof.
  exists (or_else url "https://api.devnet.solana.com"), (fundSolana start url addr).2. split; [done|].
  unfold fundSolana. destruct (PublicKeyFromBase58 addr); [by left|]. right.
  destruct (RequestAirdrop _ _); [|eexists; split; [reflexivity|constructor]].
  destruct (waitForSignature start) as [[u|err]|]; [destruct (balance_after addr)| |];
    (eexists; split; [reflexivity|by repeat constructor]).
Qed.

Lemma asks_in e log : Forall (fun e => asks e = false) log -> e ∈ log -> asks e = false.
Proof. rewrite Forall_forall. intros H. apply H. Qed.

Lemma no_asks log : Forall (fun e => asks e = false) log -> List.filter asks log = [].
Proof. induction 1 as [|e log He _ IH]; [done|]. cbn. by rewrite He. Qed.

(** One post at most, among lines. *)
Definition posts_to (addr key : string) (log : list effect) : Prop :=
  exists before after, Forall (fun e => asks e = false) (before ++ after) /\
    (log = before ++ after \/ key <> "" /\ log = before ++ EPost (faucet_request addr key) :: after).

Lemma instructions_post getenv addr : posts_to addr (getenv "BASE_SEPOLIA_FAUCET_KEY") (printSepoliaInstructions getenv addr).
Proof.
  unfold printSepoliaInstructions, attemptBaseFaucet, str_eqb. set (key := getenv _). clearbody key.
  set (lines := map EPrint _).
  assert (Hl : Forall (fun e => asks e = false) lines) by (by repeat constructor).
  case_bool_decide as Hk; [exists lines, []; rewrite app_nil_r; by split; [|left]|].
  destruct (faucet_Do _) as [[st body]|err]; [destruct (400 <=? st)|];
    (eexists lines, [_]; split; [|right; split; [done|reflexivity]]; apply Forall_app; split; [done|by repeat constructor]).
Qed.

Lemma filter_asks_app l1 l2 : len (List.filter asks (l1 ++ l2)) = len (List.filter asks l1) + len (List.filter asks l2).
Proof. unfold len. rewrite List.filter_app, length_app. lia. Qed.

(** At most one request, and which. *)
Definition asks_only (e : effect) (log : list effect) : Prop :=
  len (List.filter asks log) <= 1 /\ forall e', e' ∈ log -> asks e' = true -> e' = e.

Lemma asks_only_at e before after : asks e = true -> Forall (fun e => asks e = false) (before ++ after) ->
  asks_only e (before ++ after) /\ asks_only e (before ++ e :: after).
Proof.
  intros He Hq. pose proof Hq as [Hq1 Hq2]%Forall_app. split.
  - split; [by rewrite no_asks|]. intros e' Hin. by rewrite (asks_in e' _ Hq Hin).
  - split.
    + rewrite filter_asks_app. cbn [List.filter]. by rewrite He, (no_asks before Hq1), (no_asks after Hq2).
    + intros e' [Hin|[->|Hin]%elem_of_cons]%elem_of_app; [|done|].
      * by rewrite (asks_in e' before Hq1 Hin).
      * by rewrite (asks_in e' after Hq2 Hin).
Qed.

Lemma instructions_only getenv addr :
  asks_only (EPost (faucet_request addr (getenv "BASE_SEPOLIA_FAUCET_KEY"))) (printSepoliaInstructions getenv addr).
Proof.
  destruct (instructions_post getenv addr) as (before & after & Hq & H).
  destruct (asks_only_at (EPost (faucet_request addr (getenv "BASE_SEPOLIA_FAUCET_KEY"))) before after) as [H1 H2]; [done|done|].
  by destruct H as [->|[_ ->]].
Qed.

Lemma fund_only start url addr : exists url', asks_only (EAirdrop url' addr 5000000000) (fundSolana start url addr).2.
Proof.
  destruct (fund_asks start url addr) as (url' & log & <- & Hlog). exists url'.
  destruct Hlog as [->|(rest & -> & Hrest)].
  - exact (proj1 (asks_only_at (EAirdrop url' addr 5000000000) [] [] eq_refl (Forall_nil_2 _))).
  - exact (proj2 (asks_only_at (EAirdrop url' addr 5000000000) [] rest eq_refl Hrest)).
Qed.

(** C32: The command asks for money at most twice, only on devnet, and only for the
    treasuries: five SOL for the address in the row of the Solana treasury, and a
    drop of the faucet for that of the Base treasury, with the key of the
    environment. *)
Theorem funds_only_treasuries {PL : PostgresLaws P} getenv visit start db : visit ≡ₚ required ->
  let log := (devnet_fund getenv visit start db).2 in
  len (List.filter asks log) <= 2 /\
  forall e, e ∈ log -> asks e = true -> getenv "NETWORK" = "devnet" /\
    match e with
    | EAirdrop _ addr lamports => lamports = 5000000000 /\ row_named db solanaTreasuryName addr
    | EPost req => exists addr, row_named db baseTreasuryName addr /\
        req = faucet_request addr (getenv "BASE_SEPOLIA_FAUCET_KEY")
    | _ => False
    end.
Proof.
  intros Hv. unfold devnet_fund. destruct (Load getenv visit) as [cfg|err] eqn:El; cbn [fst snd];
    [|split; [done|]; by intros ? ?%elem_of_nil].
  apply (load_iff getenv visit Hv) in El as [_ ->].
  change (Network (config_of getenv)) with (getenv "NETWORK"). unfold str_eqb. case_bool_decide as Hn;
    [|split; [done|]; by intros ? ?%elem_of_nil].
  destruct (NewPool _ _); [|split; [done|]; by intros ? ?%elem_of_nil].
  destruct (GetAgentByName solanaTreasuryName db) as [sa|] eqn:Hs; [|split; [done|]; by intros ? ?%elem_of_nil].
  destruct (GetAgentByName baseTreasuryName (tick db)) as [ba|] eqn:Hb; [|split; [done|]; by intros ? ?%elem_of_nil].
  apply found_by_name in Hs, Hb. cbn [fst snd].
  destruct (fund_only start (HeliusDevnetURL (config_of getenv)) (da_WalletAddress sa)) as [url [Hf1 Hf2]].
  destruct (instructions_only getenv (da_WalletAddress ba)) as [Hp1 Hp2].
  destruct (fundSolana _ _ _) as [[r|] log]; cbn [fst snd] in *.
  - set (said := match r with Fail err => _ | Ok _ => [] end).
    assert (Hsaid : Forall (fun e => asks e = false) said) by (unfold said; destruct r; by repeat constructor).
    clearbody said. rewrite !filter_asks_app, (no_asks said) by done.
    split; [unfold len in *; cbn [length]; lia|]. intros e He Ha. split; [done|].
    apply elem_of_app in He as [He|[He|He]%elem_of_app]; [|by rewrite (asks_in e _ Hsaid He) in Ha|].
    + by rewrite (Hf2 e He Ha).
    + rewrite (Hp2 e He Ha). by exists (da_WalletAddress ba).
  - split; [lia|]. intros e He Ha. split; [done|]. by rewrite (Hf2 e He Ha).
Qed.
End Fund.

(** ** A run *)

(** A devnet whose airdrop is pending at two looks and confirmed at the third. *)
Definition slow_devnet : Devnet := {|
  PublicKeyFromBase58 _ := None;
  balance_before _ := Fail (EMsg "not found");
  balance_after _ := Ok 5000000000;
  RequestAirdrop _ _ := Ok "sig";
  GetSignatureStatuses k :=
    match k with
    | O => Fail (EMsg "rpc down")
    | S O => Ok [Some {| st_Err := None; st_ConfirmationStatus := "processed" |}]
    | _ => Ok [Some {| st_Err := None; st_ConfirmationStatus := "finalized" |}]
    end;
  wait_now k := Z.of_nat k * (2 * Second);
  ctx_Err _ := None;
  faucet_Do _ := Ok (429, "slow down") |}.

Lemma airdrop_wait_ends_witness : exists i, confirmed_at (N := slow_devnet) (Add 0 (60 * Second)) 0 i.
Proof.
  destruct (airdrop_wait_ends (N := slow_devnet) 0) as (r & Hr & Hiff).
  - vm_compute. discriminate.
  - intros k. cbn. lia.
  - apply Hiff. vm_compute in Hr. by injection Hr as <-.
Defined.

Definition funding_env (name : string) : string :=
  if str_eqb name "BASE_SEPOLIA_FAUCET_KEY" then "k" else env_of (minimal_env "devnet") name.

Definition funding : option (result unit) * list effect :=
  devnet_fund (N := slow_devnet) (P := float_postgres) all_up funding_env required 0 initialized_db.

Lemma funds_only_treasuries_witness : len (List.filter asks funding.2) <= 2.
Proof.
  exact (proj1 (funds_only_treasuries (N := slow_devnet) (P := float_postgres) (PL := float_postgres_laws) all_up
    funding_env required 0 initialized_db (Permutation_refl _))).
Defined.

Example funding_log :
  (funding.1, List.filter asks funding.2,
   List.filter (fun e => match e with ELog _ _ => true | EPrint s => HasPrefix s "solana:" | _ => false end) funding.2) =
  (Some (Ok tt),
   [EAirdrop "https://api.devnet.solana.com" ("pk-" +:+ demo_seed) 5000000000; EPost (faucet_request "0xA" "k")],
   [EPrint "solana: requested 5 SOL airdrop, sig=sig"; EPrint "solana: balance 0.0000 -> 5.0000 SOL";
    ELog "base sepolia faucet: %v" (EMsg "faucet returned 429: slow down")]).
Proof. vm_compute. reflexivity. Qed.
