(* ===== verification/RedisClient.v ===== *)
(** * The Redis client ([internal/redis/redis.go])

    The production client over go-redis, which is an argument, and the goroutine
    of a subscription: it takes messages off the connection's channel one at a
    time and puts them into the buffer its reader drains.  Unlike the in-memory
    Redis it waits when the buffer is full instead of dropping. *)
From Stdlib Require Import ZArith Lia.
From stdpp Require Import base list strings.
From S2P Require Import Prelude GoBase FakeRedis.
Open Scope Z_scope.

(** ** Commands *)

(** go-redis: the connection's state, and what each command answers.  [SUBSCRIBE]
    is the handshake. *)
Class GoRedis := {
  conn : Type;
  PUBLISH : string -> string -> conn -> option gerror * conn;
  SET : string -> string -> Duration -> conn -> option gerror * conn;
  GET : string -> conn -> result string * conn;
  SUBSCRIBE : list string -> conn -> option gerror * conn;
  CLOSE : conn -> option gerror * conn;
}.

(** [goredis.Nil]. *)
Definition Nil : gerror := EMsg "redis: nil".

Section Client.
Context {G : GoRedis}.

Definition Publish (channel : string) (v : payload_value) (c : conn) : option gerror * conn :=
  match encodePayload v with
  | Fail err => (Some err, c)
  | Ok payload => PUBLISH channel payload c
  end.

Definition Set_ (key val : string) (ttl : Duration) (c : conn) : option gerror * conn := SET key val ttl c.

(** [Ok None]: the key is not there. *)
Definition Get (key : string) (c : conn) : result (option string) * conn :=
  match GET key c with
  | (Ok v, c) => (Ok (Some v), c)
  | (Fail err, c) => (if bool_decide (err = Nil) then Ok None else Fail err, c)
  end.

Definition Close (c : conn) : option gerror * conn := CLOSE c.

(** ** The goroutine of a subscription *)

(** The message it holds between its two [select]s, its buffered channel, and
    whether it has returned. *)
Record relay := {
  held : option Message;
  out : list Message;
  ended : bool;
}.

Definition out_cap : nat := 64.

Definition Subscribe (channels : list string) (c : conn) : result relay * conn :=
  match channels with
  | [] => (Fail (EMsg "redis: Subscribe requires at least one channel"), c)
  | _ =>
      match SUBSCRIBE channels c with
      | (Some err, c) => (Fail (EWrap "redis: subscribe handshake: %w" err), c)
      | (None, c) => (Ok {| held := None; out := []; ended := false |}, c)
      end
  end.
End Client.

(** What happens around it: a message comes off the connection, the held one
    goes into the buffer, the connection's channel is closed, the context is
    done, the reader takes one. *)
Inductive event := Came (m : Message) | Passed | Ended | Done | Taken.

(** One event where it can happen, with what the reader got. *)
Definition relay_step (e : event) (r : relay) : option (list Message * relay) :=
  match e with
  | Came m =>
      match held r, ended r with
      | None, false => Some ([], {| held := Some m; out := out r; ended := false |})
      | _, _ => None
      end
  | Passed =>
      match held r, ended r with
      | Some m, false =>
          if (length (out r) <? out_cap)%nat
          then Some ([], {| held := None; out := out r ++ [m]; ended := false |})
          else None
      | _, _ => None
      end
  | Ended =>
      match held r, ended r with
      | None, false => Some ([], {| held := None; out := out r; ended := true |})
      | _, _ => None
      end
  | Done => if ended r then None else Some ([], {| held := None; out := out r; ended := true |})
  | Taken => match out r with m :: ms => Some ([m], {| held := held r; out := ms; ended := ended r |}) | [] => None end
  end.

(** A history of the subscription: what its reader got, and where it is. *)
Fixpoint relay_run (es : list event) (r : relay) : option (list Message * relay) :=
  match es with
  | [] => Some ([], r)
  | e :: es' =>
      match relay_step e r with
      | None => None
      | Some (got, r) => '(more, r) ← relay_run es' r; Some (got ++ more, r)
      end
  end.

(** ** What its reader gets *)

Definition came (es : list event) : list Message :=
  omap (fun e => match e with Came m => Some m | _ => None end) es.

Definition holding (r : relay) : list Message := match held r with Some m => [m] | None => [] end.

(** What is in the relay and not with its reader yet. *)
Definition pending (r : relay) : list Message := out r ++ holding r.

Definition well (r : relay) : Prop := (length (out r) <= out_cap)%nat /\ (ended r = true -> held r = None).

(** The messages one event loses: the one held when the context is done. *)
Definition lost_at (e : event) (r : relay) : list Message := match e with Done => holding r | _ => [] end.

Lemma step_keeps e r got r' : relay_step e r = Some (got, r') -> well r ->
  well r' /\ pending r ++ came [e] = got ++ pending r' ++ lost_at e r /\
  (ended r = true -> ended r' = true /\ lost_at e r = []).
Proof.
  unfold well, pending, holding. intros H [Hl He].
  destruct e as [m| | | |]; cbn [relay_step came omap list_omap lost_at] in *.
  all: destruct (held r) as [h|] eqn:Eh, (ended r) eqn:Ee; try discriminate; try (specialize (He eq_refl); discriminate He).
  all: try (destruct (Nat.ltb_spec (length (out r)) out_cap)); try discriminate; try (destruct (out r) as [|m0 ms]; [discriminate|]).
  all: injection H as <- <-; cbn [held out ended holding] in *.
  all: rewrite ?length_app in *; cbn [length] in *; split_and!; try lia; try done; try (intros; lia).
  all: unfold holding; rewrite ?Eh; cbn; by rewrite ?app_nil_r, <- ?app_assoc.
Qed.

(** Once it has returned, nothing comes. *)
Lemma ended_quiet es : forall r got r', relay_run es r = Some (got, r') -> ended r = true -> came es = [].
Proof.
  induction es as [|e es IH]; intros r got r' H He; [done|]. cbn [relay_run] in H.
  destruct (relay_step e r) as [[g1 r1]|] eqn:Es; [|done].
  destruct (relay_run es r1) as [[more r2]|] eqn:Er; [|done].
  assert (H1 : ended r1 = true /\ came [e] = []).
  { revert Es. destruct e; cbn [relay_step]; rewrite ?He; try (by destruct (held r)).
    - by destruct (out r); [|intros [= <- <-]]. }
  destruct H1 as [H1 H2]. pose proof (IH _ _ _ Er H1) as H3. unfold came in *. cbn in *. by destruct e.
Qed.

Lemma came_cons e es : came (e :: es) = came [e] ++ came es.
Proof. by destruct e. Qed.

Lemma run_keeps es : forall r got r', relay_run es r = Some (got, r') -> well r ->
  well r' /\ exists lost, (length lost <= 1)%nat /\ pending r ++ came es = got ++ pending r' ++ lost /\
    (Done ∉ es -> lost = []) /\ (ended r = true -> lost = []).
Proof.
  induction es as [|e es IH]; intros r got r' H Hw; cbn [relay_run] in H.
  { injection H as <- <-. split; [done|]. exists []. cbn. rewrite !app_nil_r. split_and!; [lia|done..]. }
  destruct (relay_step e r) as [[g1 r1]|] eqn:Es; [|done].
  destruct (relay_run es r1) as [[more r2]|] eqn:Er; [|done]. cbn in H. injection H as <- <-.
  destruct (step_keeps _ _ _ _ Es Hw) as (Hw1 & Hp & Hend).
  destruct (IH _ _ _ Er Hw1) as (Hw2 & lost & Hl & Hq & Hd & He). split; [done|].
  rewrite came_cons, app_assoc, Hp, <- !app_assoc.
  destruct (lost_at e r) as [|m ms] eqn:El.
  - exists lost. cbn [app]. rewrite Hq, !app_assoc. split_and!; [done..| |].
    + intros Hn. apply Hd. intros Hin. apply Hn. by right.
    + intros H. by apply He, Hend.
  - assert (e = Done) as -> by (by destruct e). exists (m :: ms).
    cbn [relay_step] in Es. destruct (ended r); [done|]. injection Es as <- <-.
    rewrite (ended_quiet _ _ _ _ Er eq_refl), !app_nil_r in *. rewrite (He eq_refl), app_nil_r in Hq.
    rewrite Hq, <- !app_assoc. split_and!; [|done| |done].
    + rewrite <- El. cbn. unfold holding. by destruct (held r); cbn; lia.
    + intros Hn. destruct Hn. left.
Qed.

Lemma run_drains k : forall r, k = length (out r) ->
  relay_run (replicate k Taken) r = Some (out r, {| held := held r; out := []; ended := ended r |}).
Proof.
  induction k as [|k IH]; intros [h o e] Hk; destruct o as [|m ms]; try done.
  cbn [replicate relay_run relay_step out held ended]. injection Hk as Hk. rewrite IH by done. done.
Qed.

(** C40: A subscription gives its reader the messages that come off the
    connection, each once and in their order: at any moment those that came are
    the reader's, then the buffer's, of at most sixty-four, then the one held;
    none is lost before the context is done, and then at most the one held.  What
    the buffer holds the reader still gets, even after the channel is closed. *)
Theorem subscription_relays {G : GoRedis} channels c r c' es got r' :
  Subscribe channels c = (Ok r, c') -> relay_run es r = Some (got, r') ->
  (length (out r') <= out_cap)%nat /\
  (exists lost, (length lost <= 1)%nat /\ came es = got ++ out r' ++ holding r' ++ lost /\ (Done ∉ es -> lost = [])) /\
  fst <$> relay_run (replicate (length (out r')) Taken) r' = Some (out r').
Proof.
  intros Hs Hr. assert (r = {| held := None; out := []; ended := false |}) as ->.
  { unfold Subscribe in Hs. destruct channels; [done|]. by destruct (SUBSCRIBE _ c) as [[]]; injection Hs. }
  destruct (run_keeps _ _ _ _ Hr) as ([Hl _] & lost & Hlen & Hp & Hd & _); [by split; cbn; [lia|]|].
  split; [done|]. split; [|by rewrite run_drains].
  exists lost. split; [done|]. split; [|done]. cbn in Hp. unfold pending in Hp. by rewrite <- app_assoc in Hp.
Qed.

(** Where the in-memory Redis drops, it waits: with the buffer full and a
    message held it takes nothing more off the connection until its reader reads. *)
Lemma full_waits r m : held r = Some m -> length (out r) = out_cap -> ended r = false ->
  (forall m', relay_step (Came m') r = None) /\ relay_step Passed r = None /\ is_Some (relay_step Taken r).
Proof.
  intros Hh Hl He. cbn [relay_step]. rewrite Hh, He, Hl. split_and!; [done|by rewrite Nat.ltb_irrefl|].
  destruct (out r); [done|by eexists].
Qed.

(** ** Samples *)

Definition quiet_redis : GoRedis := {|
  conn := unit; PUBLISH := fun _ _ c => (None, c); SET := fun _ _ _ c => (None, c);
  GET := fun _ c => (Fail Nil, c); SUBSCRIBE := fun _ c => (None, c); CLOSE := fun c => (None, c) |}.

Definition said (s : string) : Message := {| Channel := "events:spawned"; Payload := s |}.

Definition a_history : list event := [Came (said "a"); Passed; Came (said "b"); Taken; Passed; Came (said "c"); Done].

Example history_read : (fun p => (p.1, out p.2)) <$> relay_run a_history {| held := None; out := []; ended := false |}
  = Some ([said "a"], [said "b"]).
Proof. vm_compute. reflexivity. Qed.

Lemma subscription_relays_witness : exists lost, (length lost <= 1)%nat /\
  came a_history = [said "a"] ++ [said "b"] ++ [] ++ lost.
Proof.
  destruct (subscription_relays (G := quiet_redis) ["events:spawned"] tt {| held := None; out := []; ended := false |} tt
    a_history [said "a"] {| held := None; out := [said "b"]; ended := true |} eq_refl) as (_ & (lost & H1 & H2 & _) & _).
  - vm_compute. reflexivity.
  - by exists lost.
Defined.
