(* ===== verification/SeedNodes.v ===== *)
(** * The seed command ([cmd/seed-nodes/main.go])

    [run]: the configuration, the key, the file, the database and Redis, and
    then the nodes.  The arguments, the files, the YAML library and the store are
    parameters. *)
From Stdlib Require Import ZArith Lia Floats.
From stdpp Require Import base list strings gmap.
From S2P Require Import Prelude GoBase GoFloat Security Wallets Database Config Commands.
Set Warnings "-inexact-float".
Open Scope Z_scope.
Open Scope go_scope.

Section SeedNodes.
Context {P : Postgres} (D : Drivers database) {E : Ed25519} {S : Secp256k1} {A : AEAD} {X : SpawnDeps}.
Context (getenv : string -> string) (visit : list string) (ReadFile : string -> result string).
Context (unmarshal : string -> result (list SeedSpec)) (draws : string -> draw).

(** The nodes to seed with the configuration and the key to seal their wallets
    with: everything [run] checks before it spawns. *)
Definition seed_plan (args : list string) : result (Config.Config * string * list SeedSpec) :=
  match args with
  | [] => Fail (EMsg "usage: seed-nodes <seed.yaml>")
  | path :: _ =>
      let? cfg := Load getenv visit wrap "config: %w" in
      let? masterKey := decode_master (MasterEncryptionKey cfg) in
      let? raw := ReadFile path wrap "read %s: %w" in
      let? specs := ParseSeedYAML unmarshal raw wrap "parse %s: %w" in
      if len specs =? 0 then Fail (EMsg "seed file has no nodes")
      else
        let? _ := NewPool D (DatabasePoolURL cfg) wrap "db pool: %w" in
        let? _ := NewRedis D (RedisURL cfg) wrap "redis: %w" in
        Ok (cfg, masterKey, specs)
  end.

(** [run]: what it prints is the network and the report. *)
Definition seed_nodes (args : list string) (db : seed_db) : result (string * SeedReport) * seed_db :=
  match seed_plan args with
  | Fail err => (Fail err, db)
  | Ok (cfg, masterKey, specs) =>
      match SeedAll draws masterKey specs no_report db with
      | (_, Some err, db) => (Fail err, db)
      | (report, None, db) => (Ok (Network cfg, report), db)
      end
  end.

(** ** What a run did *)

Lemma check_names_spec nodes : forall seen, is_ok (check_names seen nodes) = true ->
  NoDup (s_Name <$> nodes) /\ Forall (fun s => s_Name s <> "" /\ s_Name s ∉ seen) nodes.
Proof.
  induction nodes as [|n nodes IH]; intros seen; cbn [check_names]; [by split; constructor|].
  unfold str_eqb. case_bool_decide as E1; [done|]. case_bool_decide as E2; [done|]. intros H.
  destruct (IH _ H) as [Hn Hf]. cbn. split; constructor; [|done|done|].
  - intros (x & Ex & Hx)%list_elem_of_fmap. rewrite Forall_forall in Hf. destruct (Hf x Hx) as [_ Hd].
    apply Hd. rewrite <- Ex. by apply elem_of_union_l, elem_of_singleton.
  - eapply Forall_impl; [exact Hf|]. intros x [Hx Hd]. split; [done|]. intros Hs. by apply Hd, elem_of_union_r.
Qed.

(** A file that is read has nodes, each with a name of its own. *)
Lemma parsed raw specs : ParseSeedYAML unmarshal raw = Ok specs ->
  unmarshal raw = Ok specs /\ specs <> [] /\ NoDup (s_Name <$> specs) /\ Forall (fun s => s_Name s <> "") specs.
Proof.
  unfold ParseSeedYAML. destruct (str_eqb raw ""); [done|]. destruct (unmarshal raw) as [nodes|]; [|done].
  destruct (Z.eqb_spec (len nodes) 0) as [|Hl]; [done|].
  destruct (check_names ∅ nodes) as [u|] eqn:Ec; [|done]. intros [= <-].
  destruct (check_names_spec nodes ∅) as [Hn Hf]; [by rewrite Ec|]. split_and!; [done|by intros ->|done|].
  eapply Forall_impl; [exact Hf|]. by intros x [? _].
Qed.

(** The report counts every node once, with a line each. *)
Lemma seed_totals mk specs : forall rep db,
  let '(rep', err, db') := SeedAll draws mk specs rep db in
  err = None -> Spawned rep' + Skipped rep' = Spawned rep + Skipped rep + len specs /\
    len (Lines rep') = len (Lines rep) + len specs.
Proof.
  induction specs as [|s specs IH]; intros rep db; cbn [SeedAll]; [unfold len; cbn; lia|].
  assert (Hstep : forall rep1 db1, Spawned rep1 + Skipped rep1 = Spawned rep + Skipped rep + 1 ->
    len (Lines rep1) = len (Lines rep) + 1 ->
    let '(rep', err, db') := SeedAll draws mk specs rep1 db1 in
    err = None -> Spawned rep' + Skipped rep' = Spawned rep + Skipped rep + len (s :: specs) /\
      len (Lines rep') = len (Lines rep) + len (s :: specs)).
  { intros rep1 db1 H1 H2. specialize (IH rep1 db1). destruct (SeedAll _ _ specs _ _) as [[rep' err] db'].
    intros He. destruct (IH He) as [I1 I2]. unfold len in *. cbn [length]. lia. }
  destruct (Validate s); [done|]. destruct (by_name _ db) as [a|err].
  - apply Hstep; cbn [skipped Spawned Skipped Lines]; unfold len; rewrite ?length_app; cbn [length]; lia.
  - destruct (negb _); [done|]. destruct (newWallet _ _ _); [|done]. destruct (spawn _ _ db) as [[id|] db1]; [|done].
    apply Hstep; cbn [spawned Spawned Skipped Lines]; unfold len; rewrite ?length_app; cbn [length]; lia.
Qed.

(** A run of [seed-nodes] that succeeds has left every node of its file in the
    store, each under a name of its own and valid, and reports each once, as spawned
    or as skipped; one whose checks fail has not touched the store. *)
Theorem seed_nodes_run {XL : SpawnLaws X} args db :
  match seed_nodes args db with
  | (Ok (network, rep), db') =>
      exists specs, (exists path raw, head args = Some path /\ ReadFile path = Ok raw /\ unmarshal raw = Ok specs) /\
        (exists cfg, Load getenv visit = Ok cfg /\ network = Network cfg) /\
        NoDup (s_Name <$> specs) /\ Forall (fun s => Validate s = None /\ known (s_Name s) db') specs /\
        Spawned rep + Skipped rep = len specs /\ len (Lines rep) = len specs /\ 0 < len specs
  | (Fail _, db') => is_ok (seed_plan args) = false -> db' = db
  end.
Proof.
  unfold seed_nodes. destruct (seed_plan args) as [[[cfg mk] specs]|err] eqn:Ep; [|done].
  pose proof (seeds_known draws mk specs no_report db) as Hc. pose proof (seed_totals mk specs no_report db) as Ht.
  destruct (SeedAll draws mk specs no_report db) as [[rep [err|]] db']; [done|].
  specialize (Hc rep db' eq_refl). destruct (Ht eq_refl) as [H1 H2].
  destruct args as [|path args]; [done|]. cbn [seed_plan] in Ep.
  destruct (Load getenv visit) as [cfg'|] eqn:El; [|done]. destruct (decode_master _); [|done].
  destruct (ReadFile path) as [raw|] eqn:Er; [|done]. destruct (ParseSeedYAML unmarshal raw) as [nodes|] eqn:Ef; [|done].
  destruct (len nodes =? 0); [done|]. destruct (NewPool D _); [|done]. destruct (NewRedis D _); [|done].
  injection Ep as -> -> ->. destruct (parsed _ _ Ef) as (Hu & Hne & Hn & _).
  exists specs. split_and!; [by exists path, raw|by exists cfg|done|exact Hc|done|done|].
  unfold len. destruct specs; [done|]. cbn [length]. lia.
Qed.
End SeedNodes.

(** ** Samples *)

Definition sample_run (file : list SeedSpec) (args : list string) (db : database (P := float_postgres)) :=
  seed_nodes (P := float_postgres) all_up (E := plain_ed25519) (S := plain_secp256k1) (A := toy_aead)
    (X := pg_deps (P := float_postgres)) (env_of (minimal_env "devnet")) required
    (fun path => if str_eqb path "seed.yaml" then Ok "nodes: ..." else Fail (EMsg "no such file"))
    (fun _ => Ok file) (fun name => a_draw (seed_of name)) args db.

Lemma seed_nodes_run_witness :
  match sample_run (three "shadow") ["seed.yaml"] migrated with
  | (Ok (network, rep), _) => Spawned rep + Skipped rep = len (three "shadow") /\ network = "devnet"
  | (Fail _, _) => False
  end.
Proof.
  pose proof (seed_nodes_run (P := float_postgres) all_up (E := plain_ed25519) (S := plain_secp256k1) (A := toy_aead)
    (X := pg_deps (P := float_postgres)) (env_of (minimal_env "devnet")) required
    (fun path => if str_eqb path "seed.yaml" then Ok "nodes: ..." else Fail (EMsg "no such file"))
    (fun _ => Ok (three "shadow")) (fun name => a_draw (seed_of name))
    (XL := Commands.sample_laws) ["seed.yaml"] migrated) as H.
  unfold sample_run. destruct (seed_nodes _ _ _ _ _ _ _ _) as [[[network rep]|err] db'] eqn:Er.
  - destruct H as (specs & (path & raw & _ & _ & [= <-]) & _ & _ & _ & H & _). split; [exact H|].
    apply (f_equal fst) in Er. vm_compute in Er. congruence.
  - apply (f_equal fst) in Er. by vm_compute in Er.
Defined.

(** A second run finds the three; without a file nothing happens. *)
Example seeded_twice :
  let db := (sample_run (three "shadow") ["seed.yaml"] migrated).2 in
  (match (sample_run (three "shadow") ["seed.yaml"] db).1 with Ok (_, rep) => (Spawned rep, Skipped rep) | Fail _ => (9, 9) end,
   (sample_run (three "shadow") ["other.yaml"] db).1, (sample_run (three "shadow") [] db).1) =
  ((0, 3), Fail (EWrap "read %s: %w" (EMsg "no such file")), Fail (EMsg "usage: seed-nodes <seed.yaml>")).
Proof. vm_compute. reflexivity. Qed.
