(* ===== verification/Services.v ===== *)
(** * The subsystems of the swarm ([cmd/swarm/main.go])

    The second half of [run]: what it makes of the configuration once the chain
    clients are there, in its order, and what each subsystem was given.  The
    goroutines themselves are the subsystems' own files. *)
From Stdlib Require Import ZArith Lia Floats.
From stdpp Require Import base list strings gmap.
From S2P Require Genome.
From S2P Require Import Prelude GoBase GoFmt GoFloat LifecyclePolicy CircuitBreaker Lifecycle NodeRunner Swarm Llm RootOrchestrator ApiTypes MemoryStore Api Notifier Config ChainClients Commands TaskFactories EpochCron.
Open Scope Z_scope.
Open Scope go_scope.

(** [PriceCollectorConfig], its dependencies set or nil. *)
Record PriceCollector := {
  Pairs : list (string * string);
  Interval : Duration;
}.

Definition NewPriceCollector (hasCache hasStore : bool) (pairs : option (list (string * string))) (interval : Duration)
    : result PriceCollector :=
  if negb hasCache then Fail (EMsg "backtesting: PriceCollector requires a Cache")
  else
    match pairs with
    | None => Fail (EMsg "backtesting: PriceCollector requires a PairSource")
    | Some pairs =>
        if negb hasStore then Fail (EMsg "backtesting: PriceCollector requires a PriceStore")
        else Ok {| Pairs := pairs; Interval := if interval <=? 0 then 60 * Second else interval |}
    end.

(** What [run] has started, and with what. *)
Record running := {
  r_swarm : SwarmRuntime;
  r_started : result Z;
  r_collector : PriceCollector;
  r_telegram : option TelegramNotifier;
  r_server : Server;
  r_addr : string;
  r_epochs : option (llm_client * RootOrchestratorConfig * Duration);
}.

(** The model whose client the orchestrator reviews with. *)
Definition orchestrator_model : string := "claude-haiku-4-5-20251001".

Section Subsystems.
Context (Build : string -> string -> option gerror) (decode_names : string -> result (list string)).
Context (getenv : string -> string) (now : Time) (postgres : Store).

(** [llmRegistryAdapter]. *)
Definition adapter_Get (llm : LLMRegistry) (model : string) : option gerror :=
  match Llm.Get llm model with Ok _ => None | Fail err => Some err end.

Definition make_swarm (llm : LLMRegistry) (listing : result (list Lifecycle.Agent)) : result (result Z * SwarmRuntime) :=
  let? s := NewSwarm true true None 0 0 0 wrap "swarm runtime: %w" in
  Ok (LoadAndStart Build (adapter_Get llm) decode_names s listing).

Definition make_collector : result PriceCollector :=
  let? c := NewPriceCollector true true (Some [("solana", "SOL/USDC"); ("base", "ETH/USDC")]) 0
    wrap "price collector: %w" in
  Ok c.

(** A missing token or chat is no error. *)
Definition make_telegram (cfg : Config.Config) : result (option TelegramNotifier) :=
  if negb (str_eqb (TelegramBotToken cfg) "") && negb (str_eqb (TelegramChatID cfg) "") then
    let? n := NewTelegramNotifier getenv now {|
      BotToken := TelegramBotToken cfg; ChatID := TelegramChatID cfg; BaseURL := "";
      Notifier.cfg_Subscribe := true; cfg_Channels := []; cfg_HourlyCap := 0; cfg_Cooldown := 0; DigestHour := 0;
      DigestProvider := false; LoadEnv := false |} wrap "telegram: %w" in
    Ok (Some n)
  else Ok None.

Definition make_api (cfg : Config.Config) : result Server :=
  let? s := NewServer {|
    cfg_Store := Some postgres; Api.cfg_Subscribe := true; Api.APIKey := Config.APIKey cfg; AuthRequired := true;
    WebSocketEnabled := true; CORSOrigins := []; Api.Channels := []; HeartbeatInterval := 0 |} wrap "api: %w" in
  Ok (Run_hub s).

(** Without its model the orchestrator is skipped. *)
Definition make_orchestrator (llm : LLMRegistry) : result (option (llm_client * RootOrchestratorConfig * Duration)) :=
  match Llm.Get llm orchestrator_model with
  | Fail _ => Ok None
  | Ok client =>
      let? orch := NewRootOrchestrator {|
        hasStore := true; hasLifecycle := true; hasBreaker := true; hasBus := true; hasLLM := true;
        LifecyclePolicyCfg := DefaultLifecyclePolicyConfig; MaxLLMTokens := 0 |} wrap "orchestrator: %w" in
      Ok (Some (client, orch, epochCadence getenv))
  end.

(** [listing]: what the database lists when the runtime loads its agents. *)
Definition subsystems (b : booted) (listing : result (list Lifecycle.Agent)) : result running :=
  let? swarm := make_swarm (b_llm b) listing in
  let? collector := make_collector in
  let? telegram := make_telegram (b_config b) in
  let? server := make_api (b_config b) in
  let? epochs := make_orchestrator (b_llm b) in
  Ok {| r_swarm := swarm.2; r_started := swarm.1; r_collector := collector; r_telegram := telegram; r_server := server;
        r_addr := apiAddr getenv; r_epochs := epochs |}.

(** ** Nothing refuses *)

(** What [boot] gives when the chain clients come up. *)
Definition booted_with (cfg : Config.Config) (clients : gmap string chain_client) : booted := {|
  b_config := cfg; b_level := newLogger (LogLevel cfg);
  b_llm := Configure empty_registry (AnthropicAPIKey cfg) (OpenAIAPIKey cfg); b_clients := clients |}.

(** A request that shows no key. *)
Definition keyless (req : request) : Prop := GetHeader req "X-Api-Key" = "" /\ Query req "api_key" = "".

Lemma silent_digest {T : Telegram} unicode_lower inputs : forall n s, DigestProvider (cfg n) = false ->
  concat (map delivered (loop unicode_lower inputs n s).1.1) = [].
Proof.
  induction inputs as [|i inputs IH]; intros n s Hd; cbn [loop]; [done|].
  destruct i as [| |t a msg|t a p]; cbn [step]; [done..| |].
  - pose proof (handleEvent_digest unicode_lower t a msg n s) as H. destruct (handleEvent _ _ _ _ _ _) as [[o n1] s1].
    destruct H as (Ho & _ & Hc). specialize (IH n1 s1). rewrite Hc in IH. specialize (IH Hd).
    destruct (loop _ inputs n1 s1) as [[os n2] s2]. cbn in IH |- *. by rewrite Ho.
  - unfold maybeFireDigest. rewrite Hd. cbn [negb]. specialize (IH n s Hd).
    destruct (loop _ inputs n s) as [[os n2] s2]. exact IH.
Qed.

Lemma model_found cfg : is_ok (Llm.Get (Configure empty_registry (AnthropicAPIKey cfg) (OpenAIAPIKey cfg)) orchestrator_model) =
  negb (str_eqb (AnthropicAPIKey cfg) "").
Proof.
  unfold Llm.Get, NewAnthropicClient. cbn [Configure overrides empty_registry anthropicAPIKey]. rewrite lookup_empty.
  destruct (Genome.modelRates !! orchestrator_model) as [x|] eqn:Em; [|by vm_compute in Em].
  replace (HasPrefix orchestrator_model "claude-") with true by reflexivity.
  by destruct (str_eqb (AnthropicAPIKey cfg) "").
Qed.

(** C13: Once the chain clients are there nothing stops [run]: with any
    configuration that loads, every subsystem's constructor accepts what it is
    given.  The API answers no request without a key with data; Telegram comes up
    exactly when its two variables are set, and never sends a digest; the epochs
    run exactly when there is a key for the reviewing model. *)
Theorem subsystems_come_up {T : Telegram} unicode_lower find_route Error visit cfg clients listing :
  visit ≡ₚ required -> Load getenv visit = Ok cfg ->
  exists r, subsystems (booted_with cfg clients) listing = Ok r /\ is_ok (r_started r) = is_ok listing /\
    (forall req, keyless req -> is_data (content (ServeHTTP find_route Error (r_server r) req)) = false) /\
    (is_Some (r_telegram r) <-> getenv "TELEGRAM_BOT_TOKEN" <> "" /\ getenv "TELEGRAM_CHAT_ID" <> "") /\
    (forall n inputs s, r_telegram r = Some n -> concat (map delivered (loop unicode_lower inputs n s).1.1) = []) /\
    (is_Some (r_epochs r) <-> getenv "ANTHROPIC_API_KEY" <> "").
Proof.
  intros Hv Hl. apply (load_iff getenv visit Hv) in Hl as [Hc ->].
  pose proof (all_set _ Hc "API_KEY") as Hkey. specialize (Hkey ltac:(unfold required; rewrite !elem_of_cons; tauto)).
  unfold subsystems, booted_with. cbn [b_llm b_config].
  set (llm := Configure _ _ _). set (cfg := config_of getenv).
  assert (Hswarm : exists s, make_swarm llm listing = Ok s /\ is_ok s.1 = is_ok listing).
  { eexists. split; [reflexivity|]. unfold LoadAndStart. destruct listing; [|done]. by destruct (start_rows _ _ _ _ _ _). }
  assert (Htg : exists t, make_telegram cfg = Ok t /\
    (is_Some t <-> getenv "TELEGRAM_BOT_TOKEN" <> "" /\ getenv "TELEGRAM_CHAT_ID" <> "") /\
    (forall n, t = Some n -> DigestProvider (Notifier.cfg n) = false)).
  { unfold make_telegram, NewTelegramNotifier. cbn [TelegramBotToken TelegramChatID cfg config_of BotToken ChatID LoadEnv andb].
    unfold str_eqb. case_bool_decide as Et; cbn [negb andb].
    - eexists. split; [reflexivity|]. split; [|done]. split; [by intros [? ?]|]. by intros [? _].
    - case_bool_decide as Ec; cbn [negb andb].
      + eexists. split; [reflexivity|]. split; [|done]. split; [by intros [? ?]|]. by intros [_ ?].
      + eexists. split; [reflexivity|]. split; [by split|]. by intros n [= <-]. }
  assert (Horch : exists o, make_orchestrator llm = Ok o /\ (is_Some o <-> getenv "ANTHROPIC_API_KEY" <> "")).
  { assert (Hm : is_ok (Llm.Get llm orchestrator_model) = negb (str_eqb (getenv "ANTHROPIC_API_KEY") ""))
      by exact (model_found cfg).
    unfold make_orchestrator. unfold str_eqb in Hm.
    destruct (Llm.Get llm orchestrator_model) as [client|err]; cbn [is_ok] in Hm; (eexists; split; [reflexivity|]);
      by case_bool_decide as Ek. }
  destruct Hswarm as (s & -> & Hs). destruct Htg as (t & -> & Ht1 & Ht2). destruct Horch as (o & -> & Ho).
  unfold make_collector. cbn [NewPriceCollector negb]. unfold make_api. cbn [NewServer cfg_Store AuthRequired andb Api.APIKey].
  unfold str_eqb. rewrite bool_decide_false by exact Hkey.
  eexists. split; [reflexivity|]. cbn [r_started r_server r_telegram r_epochs]. split_and!; [done| |done| |done].
  - intros req [K1 K2]. refine (proj2 (unauthorized_sees_nothing _ _ _ req postgres _ _)); [done|].
    unfold authorized. rewrite K1, K2. by apply bool_decide_false.
  - intros n inputs st E1. apply silent_digest. by apply Ht2.
Qed.
End Subsystems.

(** ** Samples *)

(** A connection nothing is sent over, a store of no rows, and a swarm with two
    of its optional parts. *)
Definition silent_telegram : Telegram := {|
  tg_state := unit; tg_bad_url := fun _ => None; tg_do := fun _ s => (Fail (EMsg "offline"), s) |}.

Definition full_env : list (string * string) :=
  [("TELEGRAM_BOT_TOKEN", "t"); ("TELEGRAM_CHAT_ID", "c"); ("ANTHROPIC_API_KEY", "a"); ("EPOCH_INTERVAL", "90m")]
  ++ minimal_env "devnet".

Lemma subsystems_come_up_witness : exists r,
  subsystems (build_error id unset) (fun _ => Ok []) (env_of full_env) 0 (memory_store (stored [] []))
    (booted_with (config_of (env_of full_env)) ∅) (Ok []) = Ok r /\
  is_Some (r_telegram r) /\ is_Some (r_epochs r) /\ r_addr r = ":8080" /\
  status (ServeHTTP some_routes plain_error (r_server r) (Api.get "/api/agents" "x")) = 401.
Proof.
  destruct (subsystems_come_up (build_error id unset) (fun _ => Ok []) (env_of full_env) 0
    (memory_store (stored [] [])) (T := silent_telegram) id some_routes plain_error required
    (config_of (env_of full_env)) ∅ (Ok [])) as (r & H & _ & _ & Ht & _ & Ho).
  - reflexivity.
  - vm_compute. reflexivity.
  - exists r. split; [exact H|]. split; [apply Ht; by vm_compute|]. split; [apply Ho; by vm_compute|].
    revert H. vm_compute. intros [= <-]. by split.
Defined.
